(* ===== verification/_CoqProject ===== *)
-Q . S2P
Prelude.v
Uint256.v
Params.v
Hasher.v
Sha256.v
Sha1.v
Ripemd160.v
Serialize.v
Transaction.v
TxMessages.v
Platform.v
Script.v
ScriptNum.v
Interpreter.v
ScriptBounds.v
ScriptFlags.v
ScriptSpend.v
Shard.v
Records.v
Majority.v
Cache.v
Sortition.v
CheckTx.v
ProcessTx.v
BlockOps.v
Payments.v
Connect.v
Paid.v
Collateral.v
Rebuild.v
Template.v
Compact.v
BlockIndex.v
Pow.v
Relay.v
ModelFixed.v
CSApp.v
Csnode.v
CsnodeBlock.v
CsnodeQueue.v
CsnodeFlush.v
CsnodeConnect.v
CsnodeCollect.v
CsnodeAccept.v
CsnodeRank.v
CsnodeUndo.v
CsnodeAgree.v
CsnodeProps.v
Coins.v
CoinsView.v
CoinsLedger.v
CoinsBlock.v
CoinsReorg.v
MempoolLimit.v
Mempool.v
MempoolProps.v
