(* ===== verification/Prelude.v ===== *)
(** * Verification of the consensus logic of the CS Coin daemon

    The program is the C++ daemon under src/src, a proof-of-work coin whose
    own addition is OPoI, a market for machine-learning inference settled on
    the chain.  A client sends a REQUEST with a fee; miners that staked a
    collateral are drawn by a verifiable random function, COMMIT to a hash of
    their answer and, when the commit window of the request has closed, REVEAL
    it; auditors vote on answers, challengers dispute them, large models are
    served shard by shard and proposed models are voted in; the coinbase of a
    block pays what the block's transactions made due, out of a tenth of the
    subsidy.  All of this is replicated state: every node keeps an [OPoICache],
    validates each transaction against it, applies the transactions of a block
    to it, runs the per-block transitions, and undoes the transactions when the
    block is disconnected.  Two more replicated registries live beside it: the
    csnodes, nodes that lock a collateral, prove that they are up and are paid
    in turn by the coinbase, and the csapps, applications deployed on them.
    Under all of them lie the tree of block headers, the active chain and the
    difficulty rules, the scripts that say who may spend an output, the database
    of unspent outputs with the caches stacked on it, and the memory pool of
    transactions that wait for a block.

    ** Files

    - Prelude: record update, integer widths, byte strings, ordered traversal
      of maps ([items]), the tactics and hints of the development.
    - Uint256: uint256.cpp, arith_uint256.cpp and utilstrencodings.cpp: blobs,
      their hexadecimal forms, 256-bit multiplication and division on limbs.
    - Params: consensus/params.h, chainparams.cpp, consensus/upgrades.cpp, and
      GetBlockSubsidy of main.cpp; doubles are IEEE-754 [spec_float]s.
    - Hasher, Sha256, Sha1, Ripemd160: crypto/sha256.cpp, crypto/sha1.cpp,
      crypto/ripemd160.cpp and hash.h: one streaming class, three compression
      functions.
    - Serialize, Transaction: serialize.h and the versions 5 to 8 of
      primitives/transaction.h as layouts interpreted by a writer and a reader.
    - TxMessages: no code of its own; what a transaction of each kind has to
      say, apart from the layouts, and the round trip of every such message.
    - Platform: destinations, scripts, validation states, and the class
      [Crypto] of the primitives the subsystem calls (base58 decoding, key
      recovery, key identifiers, VRF verification).
    - Script: script/script.h and script/script.cpp: opcodes, numbers, reading and
      building scripts, sigop counts.
    - Interpreter: script/interpreter.cpp: the stack machine and VerifyScript.
    - ScriptNum, ScriptBounds, ScriptFlags, ScriptSpend: no code of their own;
      the forms of numbers, the limits, the flags, and who can spend what.
    - Shard: opoi_shard.h and opoi_model_manifest.h: layer ranges, the model
      execution graph, expert selection.
    - Records, Majority, Cache: opoi.h: the records, the majority rules, and
      every accessor and mutator of [OPoICache].
    - Sortition: eligibility by VRF, the adaptive threshold, the audit lottery
      (opoi.cpp).
    - CheckTx: CheckOPoITransaction and CheckOPoIBlockCaps (opoi.cpp).
    - ProcessTx: ProcessOPoITransaction, apply and undo, and the loops of
      ConnectBlock and DisconnectBlock that call it.
    - BlockOps: the per-block transitions (opoi.cpp).
    - Payments: the payments a block owes and the checks of its coinbase.
    - Connect: ConnectBlock of main.cpp with its guard, the view ConnectTip runs
      it on, the coins of coins.cpp, and the inference part of DisconnectBlock.
    - Paid: no code of its own; what the marks of a block settle for later ones.
    - Collateral: no code of its own; the step relation of a node and the
      invariant that what backs a stake is locked and unspent.
    - Rebuild: RebuildOPoICache (opoi.cpp) and its agreement with a live node.
    - Template: the inference part of CreateNewBlock (miner.cpp).
    - Compact: the compact form of targets (arith_uint256.cpp) and the work of
      a block.
    - BlockIndex: chain.h, chain.cpp and AddToBlockIndex: the tree of headers,
      skip pointers, the active chain, forks and locators.
    - Pow: pow.cpp: the difficulty rules on the three networks.
    - Relay: the off-chain messages of opoi.cpp and their handlers in main.cpp.
    - ModelFixed: opoi_model_fixed.cpp, the integer reference network.
    - CSApp: csapp.h, csapp.cpp and rpc/csapp.cpp, the application registry.
    - Csnode: csnode.h and csnode.cpp: the registry of nodes, the payment lists
      and [Flush], which applies a block's local cache to the global one.
    - CsnodeBlock: the csnode part of main.cpp and coins.cpp: validation,
      the duplicates CheckBlock refuses, collecting a block's changes with its
      undo data, disconnection.
    - CsnodeQueue, CsnodeFlush, CsnodeConnect, CsnodeCollect, CsnodeAccept,
      CsnodeRank, CsnodeUndo, CsnodeAgree: no code of their own; the invariant
      [csnode_ok] and the lemmas on the queue, on each loop of [Flush], on
      connecting, on liveness, on disconnecting and on agreement of nodes.
      CsnodeProps states the results and applies them to a small network.
    - Coins: coins.h, coins.cpp and the coin part of txdb.cpp: the database, the
      caches stacked on it, reading, modifying and flushing.
    - CoinsBlock: the coin part of ConnectBlock and DisconnectBlock, ConnectTip
      and DisconnectTip (main.cpp), with the undo data (undo.h).
    - CoinsView, CoinsLedger, CoinsReorg: no code of their own; the invariant of
      the flags, the abstract ledger and the refinement, and reorganisations.
    - MempoolLimit: mempool_limit.h and mempool_limit.cpp: the list of recently
      evicted transactions and the weighted tree.
    - Mempool: txmempool.h, txmempool.cpp and AcceptToMemoryPool of main.cpp; of
      the sanity check the assertions on the pool's own indices.
    - MempoolProps: no code of its own; the invariant of the pool's indices.

    ** Conventions

    A C++ integer is a [Z]; [u32], [i64] and so on reduce to its width where
    an operation can leave it.  The daemon is built with -fwrapv, so signed
    overflow wraps.  A [std::map] is a [gmap]; where the source iterates over
    one, the model iterates over [items], the entries in key order, which for
    [std::string] keys is the order of unsigned bytes.  A call that changes the
    cache returns the new cache; an iterator that writes a field is a record
    update.  A rejection is a [Verdict] with the score and the reason the
    source gives.  [fIsVerifying] is the replay flag of the source.

    Libraries the sources only call (signature recovery, the elliptic-curve
    VRF) are the class [Crypto]; theorems hold for every instance, and
    [toyCrypto] instantiates it where a theorem is applied to a concrete input.
    The commitment trees of the shielded pools are the class [Commitments]
    ([list_trees] is an instance), and the shielded fields of a transaction the
    function [shielded].

    Fuel appears in the chunk loop of the hashers (the length of the data, each
    iteration consumes 64 bytes) and in the bit loop of the 256-bit division
    (the shift count); both are proved sufficient by the equality with the
    reference definition, which has no fuel.  The walks over the block index
    (GetAncestor, SetTip, FindFork, GetLocator) have the height of the block as
    fuel, and the theorems show that they return.  GetNextPayment has the
    rounds of the source's loop, the size of the list's set.  The weighted tree
    of the memory pool has the index (walking up) and the size (walking down)
    as fuel, removal from the pool the queue and the outputs of the pool, and
    eviction the size of the tree; the loops over a script have its length, since
    an instruction takes a byte; the theorems show that all of them return.  A
    definition that
    may fail an assertion, dereference null or throw returns [None] there, and
    the theorems about it state that it does not.

    ** What is proved

    - Validation: an accepted transaction is signed by the actor; a reveal
      obeys the commit-reveal discipline; nobody can copy an answer; a pledged
      collateral is free; registered models are well formed; shard results come
      from drawn stakers; the block caps are exact.
    - State: undoing a block of undoable transactions restores the cache, and
      exactly what a challenge leaves behind; stakes are slashed only on the
      auditors' verdict; auditor votes are settled once; requests, unstaking, canary audits and model
      votes progress at the heights the parameters give.
    - Money: the coinbase check is exact, its total is within the budget, and
      what a connected block marks as settled is never demanded again while
      blocks are connected, the responses its own check demanded included
      unless the block has a further reveal or a vote on a shard for them;
      the floating-point budget is exact.
    - Formats and arithmetic: messages of versions 5 to 8 survive the wire, the
      id ignores the witness data, the streaming hashers equal the padded reference, the
      limb arithmetic equals arithmetic on numbers, thresholds hit the target.
    - Nodes: a rejected block leaves the coins untouched and its applied
      transactions undone, and a dry run changes nothing; in every state
      reachable without reorganisations collateral is locked, unspent and
      sufficient; replaying the chain rebuilds the cache but for the paid
      rewards, the relayed data and the locking hashes, when reveals come at
      least two blocks after their commits; the template's coinbase passes
      the checks, keeps within the caps and creates no coins.
    - Csnodes: accepted blocks keep the registry's invariant and never make
      Flush throw; the node paid is the one that waited longest and, without
      reorganisations, nobody is starved; disconnecting restores the trackers;
      a restart is invisible; a template's payouts are accepted by every node with the same confirmed
      nodes whose registry keeps the invariant, and add up to the subsidy.
    - Chain and work: skip pointers agree with the parents, reorganisations
      keep the active chain exact, forks and locators are right, the difficulty
      is always defined and within the limit, the compact form is stable.
    - Coins and pool: a stack of caches over the database behaves as a stack of
      plain ledgers whatever is read, changed, flushed or dropped; connecting
      and disconnecting a block restores the ledger; the weighted tree is a map
      with totals and draws in proportion to the weights; the pool's indices
      agree with its transactions after any sequence of operations, and after
      a block nothing in the pool spends what is gone.
    - Scripts: evaluation is bounded and never aborts, signature checks are within
      the operation limit and the sigop count, flags only restrict, key-hash and
      script-hash outputs are spent exactly as their addresses say, a
      multisignature is an order-preserving assignment, numbers have one minimal
      form, and outputs dropped as unspendable are.
    - Relay, reference network and applications: deliveries are authorised,
      the content cache cannot be poisoned, flooding ends, the network is a
      function, each application's record is its own history.
    - Limits, each shown on the code as it is: two pledges of one output in
      one block, a reveal in the block of its audit seed, rewards forgotten by
      the replay, stakes a dry run does not see, a shard that is paid and not
      marked because a stake of its block raises the quorum, a mark lost when a
      later block is rejected, the first entry of the payment list when a
      payment is undone, a collateral spent in the block that confirms its node,
      the step limits of LWMA3 at the minimum difficulty, replayed deliveries,
      applications anyone can stop, and a csnode transaction evicted by one
      that is rejected.

    The step relation of Collateral connects the next block through ConnectTip,
    before and after the activation of the subsystem, rejects and dry-runs
    blocks and relays data; it has no reorganisations, asks that a connected
    block is [separate] (no outpoint pledged twice, no challenge revealed twice,
    no transaction repeated) and that the transactions of a rejected block are
    undoable; without the first the invariant fails, which is one of the limits
    above.  The checks of ConnectBlock that read neither the cache
    nor the coins are a parameter, [other], of every theorem.
    The csnode theorems take from the code they do not model (script solving,
    address encoding, multisignature scripts, script hashes, the coins of the
    tip) arbitrary functions; they ask that the tier of an output depends on
    the outpoint alone ([tiers_of_view]), since an outpoint has one amount.
    The checks of AcceptToMemoryPool before and after the pool's own
    ([early_checks], [input_checks]), the value, size and memory usage of a
    transaction, and its expiry and finality are arbitrary functions.
    A signature checker is a record of two functions, as in the source, and every
    theorem on scripts holds for all of them; the one of a transaction takes the
    signature hash and the elliptic curve as functions.

    ** Not modelled

    The rest of block connection and of the block template (main.cpp,
    miner.cpp), the JSON-RPC front end but for csapps, Equihash, the signature
    hash and the signature cache, the byte format of coins and undo data and the LevelDB store
    below them, fee estimation and transaction priorities, the
    address and spent indexes, the wallet, networking, the local csnode manager
    with its benchmarks and configuration, and the zero-knowledge proofs, most
    of it inherited; locking, since every access to the caches is under
    cs_main.
*)

From stdpp Require Import gmap strings list fin_maps sorting pretty.
From Stdlib Require Import ZArith Lia.
#[global] Open Scope Z_scope.

(** * Record update

    [r <| f := v |>] is the record [r] with field [f] replaced; it is how an
    assignment [it->second.f = v] of the source is written.  A record type
    becomes updatable by declaring its eta-expansion as an [Eta] instance;
    the setter of a field is then found by instance resolution. *)

Class Eta (R : Type) := eta : R -> R.

Class Setter {R T : Type} (proj : R -> T) := set : (T -> T) -> R -> R.
Arguments set {R T} proj {_} f r /.

Ltac find_setter :=
  lazymatch goal with
  | |- @Setter ?R ?T ?proj =>
    let e := constr:(_ : Eta R) in
    let e := eval hnf in e in
    let upd := fresh "upd" in
    let r := fresh "r" in
    intros upd r;
    let body := eval cbv beta in (e r) in
    let abstracted := eval pattern (proj r) in body in
    lazymatch abstracted with
    | ?g _ => let updated := eval cbv beta in (g (upd (proj r))) in exact updated
    end
  end.

#[global] Hint Extern 1 (Setter _) => find_setter : typeclass_instances.

Declare Scope cscoin_scope.
Delimit Scope cscoin_scope with cs.

Notation "r <| f := v |>" := (set f (fun _ => v) r)
  (at level 1, left associativity, f at next level, v at level 200,
   format "r  <| f  :=  v |>") : cscoin_scope.
Notation "r <| f ::= g |>" := (set f g r)
  (at level 1, left associativity, f at next level, g at level 200,
   format "r  <| f  ::=  g |>") : cscoin_scope.
#[global] Open Scope cscoin_scope.

(** * Machine integers

    Integers are [Z]; a value of a [w]-bit C++ type is kept in range by the
    casts below.  The daemon is compiled with [-fwrapv], so signed arithmetic
    wraps too and [i32], [i64] are also what an overflowing signed operation
    produces. *)

Definition u8 (x : Z) : Z := x mod 2 ^ 8.
Definition u32 (x : Z) : Z := x mod 2 ^ 32.
Definition u64 (x : Z) : Z := x mod 2 ^ 64.
Definition i32 (x : Z) : Z := (x + 2 ^ 31) mod 2 ^ 32 - 2 ^ 31.
Definition i64 (x : Z) : Z := (x + 2 ^ 63) mod 2 ^ 64 - 2 ^ 63.

Definition in_u32 (x : Z) : Prop := 0 <= x < 2 ^ 32.
Definition in_i32 (x : Z) : Prop := - 2 ^ 31 <= x < 2 ^ 31.
Definition in_i64 (x : Z) : Prop := - 2 ^ 63 <= x < 2 ^ 63.

Lemma u32_small x : in_u32 x -> u32 x = x.
Proof. intros H. unfold u32. by apply Z.mod_small. Qed.

Lemma u32_range x : in_u32 (u32 x).
Proof. unfold in_u32, u32. apply Z.mod_pos_bound. lia. Qed.

Lemma i32_small x : in_i32 x -> i32 x = x.
Proof. unfold in_i32, i32. intros H. rewrite Z.mod_small; lia. Qed.

Lemma i64_small x : in_i64 x -> i64 x = x.
Proof. unfold in_i64, i64. intros H. rewrite Z.mod_small; lia. Qed.

(** Removes the 32-bit signed casts whose argument is in range, innermost
    first. *)
Ltac unwrap_i32 :=
  repeat match goal with
  | |- context [i32 ?x] =>
    lazymatch x with
    | context [i32 _] => fail
    | _ => rewrite (i32_small x) by (unfold in_i32; lia)
    end
  end.

Lemma i64_range x : in_i64 (i64 x).
Proof.
  unfold in_i64, i64.
  pose proof (Z.mod_pos_bound (x + 2 ^ 63) (2 ^ 64) ltac:(lia)). lia.
Qed.

(** Closes a conjunction of closed comparisons and equations by computation. *)
Ltac concrete := vm_compute; repeat split; solve [reflexivity | discriminate | (intros; discriminate)].

(** The highest bit of a number, and joining a number with one above its bits. *)
Lemma land_top_bit m k : 0 <= k -> 0 <= m < 2 ^ (k + 1) -> (Z.land m (2 ^ k) =? 0) = (m <? 2 ^ k).
Proof.
  intros Hk Hm. assert (E : Z.land m (2 ^ k) = if Z.testbit m k then 2 ^ k else 0).
  { apply Z.bits_inj'. intros i Hi. rewrite Z.land_spec. destruct (Z.eq_dec i k) as [->|Hne].
    - rewrite Z.pow2_bits_true by lia. destruct (Z.testbit m k); by rewrite ?Z.pow2_bits_true, ?Z.bits_0 by lia.
    - rewrite Z.pow2_bits_false, andb_false_r by lia. destruct (Z.testbit m k); by rewrite ?Z.pow2_bits_false, ?Z.bits_0 by lia. }
  pose proof (Z.pow_pos_nonneg 2 k ltac:(lia) Hk) as Hp. rewrite Z.pow_add_r, Z.pow_1_r in Hm by lia.
  rewrite E, Z.testbit_eqb by lia. destruct (Z.ltb_spec m (2 ^ k)).
  - by rewrite Z.div_small by lia.
  - replace (m / 2 ^ k) with 1 by (apply (Z.div_unique_pos _ _ _ (m - 2 ^ k)); lia).
    change (1 mod 2 =? 1) with true. cbn. lia.
Qed.

Lemma lor_above m k s : 0 <= k -> 0 <= m < 2 ^ k -> 0 <= s -> Z.lor m (s * 2 ^ k) = m + s * 2 ^ k.
Proof.
  intros Hk Hm Hs. assert (Hl : Z.land m (s * 2 ^ k) = 0).
  { apply Z.bits_inj'. intros i Hi. rewrite Z.land_spec, Z.bits_0. destruct (Z.lt_ge_cases i k).
    - by rewrite Z.mul_pow2_bits_low, andb_false_r by lia.
    - rewrite <- (Z.mod_small m (2 ^ k)) by lia. by rewrite Z.mod_pow2_bits_high by lia. }
  by rewrite <- Z.lxor_lor, <- Z.add_nocarry_lxor by done.
Qed.

(** * Loops *)

(** An invariant of the body of a loop over a list is an invariant of the loop. *)
Lemma foldl_inv {A B} (P : A -> Prop) (f : A -> B -> A) (l : list B) (a : A) :
  P a -> (forall a x, x ∈ l -> P a -> P (f a x)) -> P (foldl f a l).
Proof.
  revert a. induction l as [|x l IH]; intros a Ha Hf; [done|]. cbn [foldl].
  apply IH; [apply Hf; [left|done]|]. intros b y Hy. apply Hf. by right.
Qed.

(** * Bytes and text

    A [std::vector<unsigned char>] is the list of its bytes as integers; a
    [std::string] is a Rocq [string]. *)

Abbreviation bytes := (list Z).

Definition byte_of_ascii (c : Ascii.ascii) : Z := Z.of_N (Ascii.N_of_ascii c).

Fixpoint string_bytes (s : string) : bytes :=
  match s with
  | EmptyString => []
  | String c s' => byte_of_ascii c :: string_bytes s'
  end.

(** The [n] little-endian digits of [x] in base [b], and their value. *)
Fixpoint digits (b : Z) (n : nat) (x : Z) : list Z :=
  match n with
  | O => []
  | S n' => x mod b :: digits b n' (x / b)
  end.

Fixpoint undigits (b : Z) (ds : list Z) : Z :=
  match ds with
  | [] => 0
  | d :: ds' => d + b * undigits b ds'
  end.

Definition le_bytes : nat -> Z -> bytes := digits 256.
Definition le_value : bytes -> Z := undigits 256.

Lemma length_digits b n x : length (digits b n x) = n.
Proof. revert x. induction n; intros; simpl; auto. Qed.

Lemma undigits_digits b n x :
  0 < b -> undigits b (digits b n x) = x mod b ^ Z.of_nat n.
Proof.
  intros Hb. revert x. induction n as [|n IH]; intros x.
  - simpl. by rewrite Z.mod_1_r.
  - cbn [digits undigits]. rewrite IH.
    rewrite Nat2Z.inj_succ, Z.pow_succ_r by lia.
    rewrite Z.rem_mul_r by (try apply Z.pow_pos_nonneg; lia). lia.
Qed.

Lemma undigits_range b ds :
  0 < b -> Forall (fun d => 0 <= d < b) ds ->
  0 <= undigits b ds < b ^ Z.of_nat (length ds).
Proof.
  intros Hb. induction 1 as [|d ds Hd _ IH]; [simpl; lia|].
  cbn [undigits length]. rewrite Nat2Z.inj_succ, Z.pow_succ_r by lia. nia.
Qed.

Lemma digits_undigits b ds :
  0 < b -> Forall (fun d => 0 <= d < b) ds ->
  digits b (length ds) (undigits b ds) = ds.
Proof.
  intros Hb. induction 1 as [|d ds Hd Hds IH]; [done|].
  cbn [length digits undigits].
  rewrite (Z.mul_comm b), Z.mod_add, Z.mod_small by lia.
  rewrite Z.div_add, Z.div_small, Z.add_0_l by lia. by rewrite IH.
Qed.

Lemma digits_range b n x : 0 < b -> Forall (fun d => 0 <= d < b) (digits b n x).
Proof.
  intros Hb. revert x. induction n as [|n IH]; intros x; simpl; constructor; auto.
  by apply Z.mod_pos_bound.
Qed.

Definition hex_digit (d : Z) : string :=
  match d with
  | 0 => "0" | 1 => "1" | 2 => "2" | 3 => "3" | 4 => "4" | 5 => "5"
  | 6 => "6" | 7 => "7" | 8 => "8" | 9 => "9" | 10 => "a" | 11 => "b"
  | 12 => "c" | 13 => "d" | 14 => "e" | _ => "f"
  end.

(** [HexStr(begin, end)] of utilstrencodings.h: two lower-case digits a byte. *)
Fixpoint HexStr (bs : bytes) : string :=
  match bs with
  | [] => ""
  | b :: bs' => hex_digit (b / 16) +:+ hex_digit (b mod 16) +:+ HexStr bs'
  end.

(** [strprintf("%u", x)], [strprintf("%d", x)] and [std::to_string]. *)
Definition dec (x : Z) : string := pretty x.

(** * Ordered containers

    A [std::map<std::string, T>] is a [gmap string T].  Where the source
    iterates over one, it does so in increasing key order, and [items] is the
    list of its entries in that order. *)

Definition key_le {V : Type} (p q : string * V) : Prop := String.le p.1 q.1.

#[global] Instance key_le_dec {V} : RelDecision (@key_le V).
Proof. unfold key_le. intros p q. apply _. Defined.

#[global] Instance key_le_total {V} : Total (@key_le V).
Proof. intros p q. unfold key_le. apply total, _. Qed.

#[global] Instance key_le_trans {V} : Transitive (@key_le V).
Proof. intros p q r. unfold key_le. apply transitivity. Qed.

Definition items {V : Type} (m : gmap string V) : list (string * V) :=
  merge_sort key_le (map_to_list m).

Lemma items_perm {V} (m : gmap string V) : items m ≡ₚ map_to_list m.
Proof. apply merge_sort_Permutation. Qed.

Lemma elem_of_items {V} (m : gmap string V) k v :
  (k, v) ∈ items m <-> m !! k = Some v.
Proof. rewrite items_perm. apply elem_of_map_to_list. Qed.

Lemma NoDup_items_keys {V} (m : gmap string V) : NoDup (items m).*1.
Proof. rewrite items_perm. apply NoDup_fst_map_to_list. Qed.

(** A loop over the entries of a map that writes only the entry it visits:
    each round starts from the entry of the map, so a preorder that every round
    respects relates the states before and after the loop. *)
Lemma foldl_items {S V} (R : S -> S -> Prop) `{!PreOrder R} (field : S -> gmap string V)
    (f : S -> string * V -> S) (s : S) :
  (forall s k v, field s !! k = Some v ->
     R s (f s (k, v)) /\ forall k', k' <> k -> field (f s (k, v)) !! k' = field s !! k') ->
  R s (foldl f s (items (field s))).
Proof.
  intros Hf. pose proof (NoDup_items_keys (field s)) as Hnd.
  assert (Hin : forall k v, (k, v) ∈ items (field s) -> field s !! k = Some v) by (intros k v; apply elem_of_items).
  revert Hnd Hin. generalize (items (field s)). intros l. revert s.
  induction l as [|[k v] l IH]; intros s Hnd Hin; [reflexivity|]. cbn [foldl].
  apply NoDup_cons in Hnd as [Hk Hnd]. destruct (Hf s k v) as [Hr Ho]; [apply Hin; left|].
  transitivity (f s (k, v)); [done|]. apply IH; [done|]. intros k' v' Hv.
  rewrite Ho; [apply Hin; by right|]. intros ->. apply Hk, (list_elem_of_fmap_2 fst _ _ Hv).
Qed.

Lemma items_sorted {V} (m : gmap string V) : StronglySorted key_le (items m).
Proof. apply StronglySorted_merge_sort; apply _. Qed.

Lemma items_empty {V} : items (∅ : gmap string V) = [].
Proof. unfold items. by rewrite map_to_list_empty. Qed.

(** * Composite keys

    Several maps are keyed by [a + ":" + b].  When [b] holds no colon the key
    determines both parts. *)

Fixpoint colon_free (s : string) : bool :=
  match s with
  | EmptyString => true
  | String c s' => negb (byte_of_ascii c =? 58) && colon_free s'
  end.

Lemma colon_free_app a b : colon_free (a +:+ b) = colon_free a && colon_free b.
Proof.
  induction a as [|c a IH]; [done|].
  change (String c a +:+ b) with (String c (a +:+ b)). cbn [colon_free]. rewrite IH.
  apply andb_assoc.
Qed.

Lemma colon_free_app_colon a b : colon_free (a +:+ ":" +:+ b) = false.
Proof. rewrite !colon_free_app. apply andb_false_r. Qed.

Lemma composite_key_inj a b a' b' :
  colon_free b = true -> colon_free b' = true ->
  a +:+ ":" +:+ b = a' +:+ ":" +:+ b' -> a = a' /\ b = b'.
Proof.
  intros Hb Hb'. revert a'. induction a as [|c a IH]; intros [|c' a'] E.
  - by injection E.
  - injection E as <- E. change (b = a' +:+ ":" +:+ b') in E.
    pose proof (colon_free_app_colon a' b'). congruence.
  - injection E as -> E. change (a +:+ ":" +:+ b = b') in E.
    pose proof (colon_free_app_colon a b). congruence.
  - injection E as <- E. destruct (IH a' E) as [-> ->]. done.
Qed.

Lemma colon_free_pretty_N_go n s : colon_free s = true -> colon_free (pretty_N_go n s) = true.
Proof.
  revert s. induction (N.lt_wf_0 n) as [n _ IH]. intros s Hs.
  destruct (decide (0 < n)%N) as [Hn|Hn].
  - rewrite pretty_N_go_step by done. apply IH; [apply N.div_lt; lia|]. cbn. rewrite Hs.
    unfold pretty_N_char. repeat case_match; reflexivity.
  - replace n with 0%N by lia. by rewrite pretty_N_go_0.
Qed.

Lemma colon_free_pretty_N (n : N) : colon_free (pretty n) = true.
Proof.
  unfold pretty, pretty_N. case_decide; [done|]. by apply colon_free_pretty_N_go.
Qed.

Lemma colon_free_dec x : colon_free (dec x) = true.
Proof.
  unfold dec, pretty, pretty_Z. destruct x; [done|apply colon_free_pretty_N|].
  cbn. apply colon_free_pretty_N.
Qed.

Lemma dec_inj x y : dec x = dec y -> x = y.
Proof. apply pretty_Z_inj. Qed.
