(* ===== verification/Uint256.v ===== *)
(** 256-bit values: [uint256] (uint256.h, uint256.cpp), an opaque blob of 32
    bytes, and [arith_uint256] (arith_uint256.h, arith_uint256.cpp), the
    number those bytes hold little-endian.  Both are a [Z] in [0, 2^256):
    [uint256_data] gives the bytes, [le_value] reads them back.  The
    multiplication is modelled limb by limb and the division as the
    shift-and-subtract loop of the source; both are proved equal to the
    integer operations. *)

From stdpp Require Import list strings.
From Stdlib Require Import ZArith Lia.
From S2P Require Import Prelude.

Definition uint256_ok (x : Z) : Prop := 0 <= x < 2 ^ 256.

(** The [data] array of a [base_blob<256>]. *)
Definition uint256_data (x : Z) : bytes := le_bytes 32 x.

Definition uint256_IsNull (x : Z) : bool := x =? 0.

(** [memcmp(a.data, b.data, 32) < 0], the order [std::map] and [std::set]
    use for [uint256] keys: lexicographic on the bytes. *)
Fixpoint memcmp_lt (a b : bytes) : bool :=
  match a, b with
  | x :: a', y :: b' => if x =? y then memcmp_lt a' b' else x <? y
  | _, _ => false
  end.

Definition uint256_lt (x y : Z) : bool := memcmp_lt (uint256_data x) (uint256_data y).

(** [base_blob::GetHex]: the bytes from last to first, two digits each. *)
Definition uint256_GetHex (x : Z) : string := HexStr (rev (uint256_data x)).

(** [HexDigit] of utilstrencodings.cpp; [None] is its [-1]. *)
Definition HexDigit (c : Ascii.ascii) : option Z :=
  let n := byte_of_ascii c in
  if (48 <=? n) && (n <=? 57) then Some (n - 48)
  else if (65 <=? n) && (n <=? 70) then Some (n - 55)
  else if (97 <=? n) && (n <=? 102) then Some (n - 87)
  else None.

Definition isspace (c : Ascii.ascii) : bool :=
  let n := byte_of_ascii c in (n =? 32) || ((9 <=? n) && (n <=? 13)).

Fixpoint skip_spaces (s : string) : string :=
  match s with
  | String c s' => if isspace c then skip_spaces s' else s
  | EmptyString => s
  end.

Definition skip_0x (s : string) : string :=
  match s with
  | String c (String x s') =>
    if (byte_of_ascii c =? 48) && ((byte_of_ascii x =? 120) || (byte_of_ascii x =? 88))
    then s' else s
  | _ => s
  end.

Fixpoint hex_prefix (s : string) : list Z :=
  match s with
  | String c s' => match HexDigit c with Some d => d :: hex_prefix s' | None => [] end
  | EmptyString => []
  end.

(** [base_blob::SetHex]: the digits are consumed from the last one backwards
    until the 32 bytes are full, so excess leading digits are dropped. *)
Definition uint256_SetHex (s : string) : Z :=
  undigits 16 (take 64 (rev (hex_prefix (skip_0x (skip_spaces s))))).

(** ** arith_uint256 *)

Definition limbs (x : Z) : list Z := digits (2 ^ 32) 8 x.
Definition of_limbs (l : list Z) : Z := undigits (2 ^ 32) l.

Definition arith_not (x : Z) : Z := 2 ^ 256 - 1 - x.

(** One pass of the inner loop of [operator*=]: [acc] is [pn + j]. *)
Fixpoint mul_row (aj carry : Z) (b acc : list Z) {struct acc} : list Z :=
  match acc, b with
  | p :: acc', x :: b' =>
    let n := u64 (carry + p + aj * x) in
    n mod 2 ^ 32 :: mul_row aj (n / 2 ^ 32) b' acc'
  | _, _ => acc
  end.

Fixpoint mul_rows (a b acc : list Z) : list Z :=
  match a with
  | [] => acc
  | aj :: a' =>
    match mul_row aj 0 b acc with
    | [] => []
    | p :: rest => p :: mul_rows a' b rest
    end
  end.

(** [operator*=(const base_uint& b)]. *)
Definition arith_mul (x y : Z) : Z :=
  of_limbs (mul_rows (limbs x) (limbs y) (replicate 8 0)).

(** [bits()]: position of the highest set bit plus one. *)
Definition arith_bits (x : Z) : Z := if x =? 0 then 0 else Z.log2 x + 1.

(** The loop of [operator/=]; [n] is [shift + 1]. *)
Fixpoint div_loop (n : nat) (num div quot : Z) : Z :=
  match n with
  | O => quot
  | S shift =>
    if div <=? num
    then div_loop shift (num - div) (Z.shiftr div 1) (Z.lor quot (Z.shiftl 1 (Z.of_nat shift)))
    else div_loop shift num (Z.shiftr div 1) quot
  end.

(** [operator/=]; [None] is the [uint_error] thrown on a zero divisor. *)
Definition arith_div (num div : Z) : option Z :=
  let num_bits := arith_bits num in
  let div_bits := arith_bits div in
  if div_bits =? 0 then None
  else if num_bits <? div_bits then Some 0
  else
    let shift := num_bits - div_bits in
    Some (div_loop (Z.to_nat (shift + 1)) num (Z.shiftl div shift) 0).

(** * Correctness of the arithmetic *)

Lemma mul_row_value aj carry b acc :
  0 <= aj < 2 ^ 32 -> 0 <= carry < 2 ^ 32 ->
  Forall (fun d => 0 <= d < 2 ^ 32) b ->
  Forall (fun d => 0 <= d < 2 ^ 32) acc ->
  (length acc <= length b)%nat ->
  Forall (fun d => 0 <= d < 2 ^ 32) (mul_row aj carry b acc) /\
  length (mul_row aj carry b acc) = length acc /\
  exists q, of_limbs (mul_row aj carry b acc) + q * (2 ^ 32) ^ Z.of_nat (length acc)
            = of_limbs acc + carry + aj * of_limbs b.
Proof.
  intros Haj. revert carry b. induction acc as [|p acc IH]; intros carry b Hc Hb Hacc Hlen.
  - simpl. split; [constructor|split; [done|]].
    exists (carry + aj * of_limbs b). change (of_limbs []) with 0. rewrite Z.pow_0_r. lia.
  - destruct b as [|x b]; [simpl in Hlen; lia|].
    inversion Hb as [|? ? Hx Hb']; subst. inversion Hacc as [|? ? Hp Hacc']; subst.
    cbn [mul_row]. set (n := u64 (carry + p + aj * x)).
    assert (Hn : n = carry + p + aj * x) by (subst n; unfold u64; apply Z.mod_small; nia).
    assert (Hq : 0 <= n / 2 ^ 32 < 2 ^ 32).
    { split; [apply Z.div_pos; nia|apply Z.div_lt_upper_bound; nia]. }
    destruct (IH (n / 2 ^ 32) b Hq Hb' Hacc' ltac:(simpl in Hlen; lia)) as (HF & HL & q & Hv).
    split; [constructor; [apply Z.mod_pos_bound; lia|done]|].
    split; [simpl; by rewrite HL|].
    exists q. cbn [length]. rewrite Nat2Z.inj_succ, Z.pow_succ_r by lia.
    unfold of_limbs in *. cbn [undigits].
    pose proof (Z.div_mod n (2 ^ 32) ltac:(lia)). nia.
Qed.

Lemma mul_rows_value a b acc :
  Forall (fun d => 0 <= d < 2 ^ 32) a ->
  Forall (fun d => 0 <= d < 2 ^ 32) b ->
  Forall (fun d => 0 <= d < 2 ^ 32) acc ->
  (length acc <= length b)%nat -> (length acc <= length a)%nat ->
  Forall (fun d => 0 <= d < 2 ^ 32) (mul_rows a b acc) /\
  length (mul_rows a b acc) = length acc /\
  exists q, of_limbs (mul_rows a b acc) + q * (2 ^ 32) ^ Z.of_nat (length acc)
            = of_limbs acc + of_limbs a * of_limbs b.
Proof.
  intros Ha Hb. revert acc. induction Ha as [|aj a Haj Ha IH]; intros acc Hacc Hlb Hla.
  - destruct acc; [|simpl in Hla; lia]. simpl. split; [constructor|split; [done|]].
    exists 0. unfold of_limbs; simpl. lia.
  - destruct (mul_row_value aj 0 b acc Haj ltac:(lia) Hb Hacc Hlb) as (HF & HL & q & Hv).
    cbn [mul_rows]. destruct acc as [|p0 acc].
    { destruct (mul_row aj 0 b []) eqn:E; [|discriminate].
      split; [constructor|split; [done|]]. exists (of_limbs (aj :: a) * of_limbs b).
      change (of_limbs []) with 0. change (length (@nil Z)) with 0%nat. simpl Z.of_nat.
      rewrite Z.pow_0_r. lia. }
    destruct (mul_row aj 0 b (p0 :: acc)) as [|p rest] eqn:E; [simpl in HL; lia|].
    inversion HF as [|? ? Hp Hrest]; subst. cbn [length] in HL.
    destruct (IH rest Hrest ltac:(simpl in *; lia) ltac:(simpl in *; lia)) as (HF' & HL' & q' & Hv').
    split; [by constructor|]. split; [simpl; lia|].
    exists (q' + q). cbn [length]. rewrite Nat2Z.inj_succ, Z.pow_succ_r by lia.
    cbn [length] in Hv. rewrite Nat2Z.inj_succ, Z.pow_succ_r in Hv by lia.
    assert (Hlr : length rest = length acc) by lia. rewrite Hlr in Hv'.
    unfold of_limbs in *. cbn [undigits] in *. nia.
Qed.

Lemma limbs_ok x : Forall (fun d => 0 <= d < 2 ^ 32) (limbs x).
Proof. apply digits_range. lia. Qed.

Lemma of_limbs_limbs x : uint256_ok x -> of_limbs (limbs x) = x.
Proof.
  intros H. unfold of_limbs, limbs. rewrite undigits_digits by lia.
  apply Z.mod_small. exact H.
Qed.

Lemma arith_mul_spec x y :
  uint256_ok x -> uint256_ok y -> arith_mul x y = (x * y) mod 2 ^ 256.
Proof.
  intros Hx Hy. unfold arith_mul.
  destruct (mul_rows_value (limbs x) (limbs y) (replicate 8 0)) as (HF & HL & q & Hv).
  - apply limbs_ok.
  - apply limbs_ok.
  - repeat constructor; lia.
  - unfold limbs; rewrite length_digits; simpl; lia.
  - unfold limbs; rewrite length_digits; simpl; lia.
  - rewrite !of_limbs_limbs in Hv by done.
    change (of_limbs (replicate 8 0)) with 0 in Hv.
    change (Z.of_nat (length (replicate 8 0))) with 8 in Hv.
    apply (Z.mod_unique _ _ q).
    + left. pose proof (undigits_range (2 ^ 32) _ ltac:(lia) HF) as Hr.
      rewrite HL in Hr. exact Hr.
    + change (2 ^ 256) with ((2 ^ 32) ^ 8). unfold of_limbs in *. lia.
Qed.

Lemma lor_disjoint q s : 0 <= s -> q mod 2 ^ (s + 1) = 0 -> Z.lor q (Z.shiftl 1 s) = q + 2 ^ s.
Proof.
  intros Hs Hq. rewrite Z.shiftl_1_l.
  assert (Hbit : forall i, 0 <= i <= s -> Z.testbit q i = false).
  { intros i Hi. pose proof (Z.mod_pow2_bits_low q (s + 1) i ltac:(lia)) as E.
    rewrite Hq, Z.bits_0 in E. by symmetry. }
  symmetry. rewrite Z.add_nocarry_lxor, Z.lxor_lor; [done| |].
  all: apply Z.bits_inj'; intros i Hi; rewrite Z.land_spec, Z.bits_0.
  all: rewrite Z.pow2_bits_eqb by lia; destruct (Z.eqb_spec s i); [|apply andb_false_r].
  all: subst; rewrite Hbit by lia; done.
Qed.

Lemma div_loop_spec n num d quot :
  0 < d -> 0 <= num < d * 2 ^ Z.of_nat n -> quot mod 2 ^ Z.of_nat n = 0 ->
  (n <> 0)%nat ->
  div_loop n num (Z.shiftl d (Z.of_nat n - 1)) quot = quot + num / d.
Proof.
  intros Hd. revert num quot. induction n as [|n IH]; intros num quot Hnum Hq Hn; [done|].
  cbn [div_loop]. rewrite Nat2Z.inj_succ in *.
  replace (Z.succ (Z.of_nat n) - 1) with (Z.of_nat n) in * by lia.
  rewrite Z.shiftl_mul_pow2 by lia. rewrite Z.pow_succ_r in Hnum by lia.
  destruct n as [|n].
  - cbn [div_loop]. change (Z.of_nat 0) with 0 in *. rewrite Z.pow_0_r, Z.mul_1_r in *.
    destruct (Z.leb_spec d num).
    + rewrite (lor_disjoint quot 0) by (simpl in *; lia).
      replace (num / d) with 1; [done|]. apply (Z.div_unique num d 1 (num - d)); lia.
    + rewrite Z.div_small by lia. lia.
  - assert (Hsh : Z.shiftr (d * 2 ^ Z.of_nat (S n)) 1 = Z.shiftl d (Z.of_nat (S n) - 1)).
    { rewrite <- Z.shiftl_mul_pow2 by lia. rewrite Z.shiftr_shiftl_l by lia. f_equal. }
    assert (Hq' : quot mod 2 ^ Z.of_nat (S n) = 0).
    { rewrite Z.pow_succ_r in Hq by lia. apply Z.mod_divide; [lia|].
      apply Z.mod_divide in Hq; [|lia]. destruct Hq as [k Hk]. exists (2 * k). lia. }
    rewrite Hsh. destruct (Z.leb_spec (d * 2 ^ Z.of_nat (S n)) num).
    + rewrite IH; [|lia| |lia].
      * rewrite lor_disjoint by (try (replace (Z.of_nat (S n) + 1) with (Z.succ (Z.of_nat (S n))) by lia); lia).
        replace num with ((num - d * 2 ^ Z.of_nat (S n)) + 2 ^ Z.of_nat (S n) * d) at 2 by lia.
        rewrite Z.div_add by lia. lia.
      * rewrite lor_disjoint by (try (replace (Z.of_nat (S n) + 1) with (Z.succ (Z.of_nat (S n))) by lia); lia).
        rewrite <- (Z.mul_1_l (2 ^ Z.of_nat (S n))) at 1. by rewrite Z.mod_add by lia.
    + rewrite IH; [done|lia|done|lia].
Qed.

Lemma arith_bits_pow x : 0 < x -> 2 ^ (arith_bits x - 1) <= x < 2 ^ arith_bits x.
Proof.
  intros H. unfold arith_bits. destruct (Z.eqb_spec x 0); [lia|].
  replace (Z.log2 x + 1 - 1) with (Z.log2 x) by lia.
  rewrite Z.add_1_r. by apply Z.log2_spec.
Qed.

Lemma arith_div_spec num d : 0 <= num -> 0 < d -> arith_div num d = Some (num / d).
Proof.
  intros Hn Hd. unfold arith_div.
  pose proof (arith_bits_pow d Hd) as Hdb.
  assert (Hdpos : 0 < arith_bits d).
  { unfold arith_bits. destruct (Z.eqb_spec d 0); [lia|]. pose proof (Z.log2_nonneg d). lia. }
  destruct (Z.eqb_spec (arith_bits d) 0); [lia|].
  assert (Hnb : num < 2 ^ arith_bits num).
  { destruct (Z.eq_dec num 0) as [->|]; [done|]. apply arith_bits_pow; lia. }
  destruct (Z.ltb_spec (arith_bits num) (arith_bits d)).
  - rewrite Z.div_small; [done|]. split; [done|].
    eapply Z.lt_le_trans; [apply Hnb|]. etransitivity; [|apply Hdb].
    apply Z.pow_le_mono_r; lia.
  - f_equal. remember (arith_bits num - arith_bits d) as s eqn:Es.
    replace s with (Z.of_nat (Z.to_nat (s + 1)) - 1) at 2 by lia.
    rewrite div_loop_spec; [lia|done| |apply Z.mod_0_l, Z.pow_nonzero; lia|lia].
    split; [done|]. rewrite Z2Nat.id by lia.
    eapply Z.lt_le_trans; [apply Hnb|].
    replace (arith_bits num) with ((arith_bits d - 1) + (s + 1)) by lia.
    rewrite Z.pow_add_r by lia. apply Z.mul_le_mono_nonneg_r; [apply Z.pow_nonneg; lia|apply Hdb].
Qed.
