(* ===== verification/Params.v ===== *)
(** Consensus parameters: the part of [Consensus::Params] (consensus/params.h)
    that the inference subsystem and the subsidy read, its values on the
    three networks (chainparams.cpp), the activation rule of network upgrades
    (consensus/upgrades.cpp), the block subsidy (main.cpp) and the per-block
    inference budget, which the source computes in [double] arithmetic. *)

From stdpp Require Import list strings.
From Stdlib Require Import ZArith Lia SpecFloat.
From S2P Require Import Prelude.

Definition COIN : Z := 100000000.
Definition MAX_MONEY : Z := 2000000000 * COIN.

Definition MoneyRange (nValue : Z) : bool := (0 <=? nValue) && (nValue <=? MAX_MONEY).

(** * IEEE-754 doubles

    A C++ [double] is a [spec_float] at precision 53 and maximal exponent
    1024, rounded to nearest even.  [double_to_int64] is the truncating cast
    of a finite value. *)

Definition double_of_int (z : Z) : spec_float := binary_normalize 53 1024 z 0 false.
Definition double_mul : spec_float -> spec_float -> spec_float := SFmul 53 1024.
Definition double_ge (x y : spec_float) : bool := SFleb y x.

Definition double_to_int64 (x : spec_float) : Z :=
  match x with
  | S754_finite s m e =>
    let a := if 0 <=? e then Z.pos m * 2 ^ e else Z.pos m / 2 ^ (- e) in
    if s then - a else a
  | _ => 0
  end.

(** The literal [0.10]. *)
Definition double_0_10 : spec_float := S754_finite false 7205759403792794 (-56).

(** * Network upgrades *)

Inductive UpgradeIndex :=
  | BASE_SPROUT | UPGRADE_TESTDUMMY | UPGRADE_LWMA | UPGRADE_EQUI144_5
  | UPGRADE_ACADIA | UPGRADE_KAMIOOKA | UPGRADE_KAMATA | UPGRADE_FLUX
  | UPGRADE_HALVING | UPGRADE_P2SHNODES | UPGRADE_OPOI.

Inductive UpgradeState := UPGRADE_DISABLED | UPGRADE_PENDING | UPGRADE_ACTIVE.

Definition ALWAYS_ACTIVE : Z := 0.
Definition NO_ACTIVATION_HEIGHT : Z := -1.

(** * Consensus::Params *)

Record Params := mkParams {
  nSubsidySlowStartInterval : Z;
  nSubsidyHalvingInterval : Z;
  nActivationHeight : UpgradeIndex -> Z;
  nOPoIMinStake : Z;
  nOPoIChallengeWindowBlocks : Z;
  nOPoIUnstakeCooldownBlocks : Z;
  nOPoIChallengerRewardPct : Z;
  nOPoITreasuryRewardPct : Z;
  nOPoIChallengerStakePct : Z;
  nOPoIChallengeCommitRevealBlocks : Z;
  nOPoIResponseCommitWindowBlocks : Z;
  nOPoIRequestExpiryBlocks : Z;
  nOPoISubsidyPct : spec_float;
  nOPoIDefaultFeePerToken : Z;
  nOPoIMinAuditors : Z;
  nOPoIAuditorMinCollateral : Z;
  nOPoIVrfThreshold : string;
  nOPoIAdaptiveVrfHeight : Z;
  nOPoIVrfTargetEligible : Z;
  nOPoIModelVoteWindowBlocks : Z;
  nOPoIModelApprovalPct : Z;
  nOPoIModelActivationDelayBlocks : Z;
  nOPoICoordinatorThreshold : string;
  nOPoIShardThreshold : string;
  nOPoIShardMinSubmissions : Z;
  nOPoIMaxPipelineDepth : Z;
  nOPoITitanOffloadThresholdGB : Z;
  nOPoIMaxRequestsPerBlock : Z;
  nOPoIMaxResponsesPerBlock : Z;
  nOPoIStakeRenewalBlocks : Z;
  nOPoICanaryAuditFrequency : Z;
  nOPoICanaryResponseWindow : Z;
  nOPoIAuditSampleRateBp : Z;
  nOPoIAuditSampleRateNewMinerBp : Z;
  nOPoIAuditSampleNewMinerResponseCount : Z;
  nOPoIAuditWindowBlocks : Z;
  nOPoIFeeBase : Z;
  nOPoIFeePerToken : Z;
}.

#[global] Instance eta_Params : Eta Params := fun p =>
  mkParams (nSubsidySlowStartInterval p) (nSubsidyHalvingInterval p) (nActivationHeight p)
    (nOPoIMinStake p) (nOPoIChallengeWindowBlocks p) (nOPoIUnstakeCooldownBlocks p)
    (nOPoIChallengerRewardPct p) (nOPoITreasuryRewardPct p) (nOPoIChallengerStakePct p)
    (nOPoIChallengeCommitRevealBlocks p) (nOPoIResponseCommitWindowBlocks p)
    (nOPoIRequestExpiryBlocks p) (nOPoISubsidyPct p) (nOPoIDefaultFeePerToken p)
    (nOPoIMinAuditors p) (nOPoIAuditorMinCollateral p) (nOPoIVrfThreshold p)
    (nOPoIAdaptiveVrfHeight p) (nOPoIVrfTargetEligible p) (nOPoIModelVoteWindowBlocks p)
    (nOPoIModelApprovalPct p) (nOPoIModelActivationDelayBlocks p)
    (nOPoICoordinatorThreshold p) (nOPoIShardThreshold p) (nOPoIShardMinSubmissions p)
    (nOPoIMaxPipelineDepth p) (nOPoITitanOffloadThresholdGB p)
    (nOPoIMaxRequestsPerBlock p) (nOPoIMaxResponsesPerBlock p)
    (nOPoIStakeRenewalBlocks p) (nOPoICanaryAuditFrequency p)
    (nOPoICanaryResponseWindow p) (nOPoIAuditSampleRateBp p)
    (nOPoIAuditSampleRateNewMinerBp p) (nOPoIAuditSampleNewMinerResponseCount p)
    (nOPoIAuditWindowBlocks p) (nOPoIFeeBase p) (nOPoIFeePerToken p).

Definition default_threshold : string :=
  "004C4B40000000000000000000000000000000000000000000000000000000000".

(** The default member initialisers of [Consensus::Params]; the members
    without one are set by every network and start at [0] here. *)
Definition defaultParams : Params := {|
  nSubsidySlowStartInterval := 0;
  nSubsidyHalvingInterval := 0;
  nActivationHeight := fun _ => 0;
  nOPoIMinStake := 0;
  nOPoIChallengeWindowBlocks := 144;
  nOPoIUnstakeCooldownBlocks := 1440;
  nOPoIChallengerRewardPct := 50;
  nOPoITreasuryRewardPct := 50;
  nOPoIChallengerStakePct := 10;
  nOPoIChallengeCommitRevealBlocks := 144;
  nOPoIResponseCommitWindowBlocks := 144;
  nOPoIRequestExpiryBlocks := 2016;
  nOPoISubsidyPct := double_0_10;
  nOPoIDefaultFeePerToken := 0;
  nOPoIMinAuditors := 3;
  nOPoIAuditorMinCollateral := 0;
  nOPoIVrfThreshold := default_threshold;
  nOPoIAdaptiveVrfHeight := 0;
  nOPoIVrfTargetEligible := 3;
  nOPoIModelVoteWindowBlocks := 200;
  nOPoIModelApprovalPct := 66;
  nOPoIModelActivationDelayBlocks := 100;
  nOPoICoordinatorThreshold := default_threshold;
  nOPoIShardThreshold := default_threshold;
  nOPoIShardMinSubmissions := 3;
  nOPoIMaxPipelineDepth := 6;
  nOPoITitanOffloadThresholdGB := 200;
  nOPoIMaxRequestsPerBlock := 50;
  nOPoIMaxResponsesPerBlock := 100;
  nOPoIStakeRenewalBlocks := 0;
  nOPoICanaryAuditFrequency := 0;
  nOPoICanaryResponseWindow := 0;
  nOPoIAuditSampleRateBp := 1500;
  nOPoIAuditSampleRateNewMinerBp := 10000;
  nOPoIAuditSampleNewMinerResponseCount := 5;
  nOPoIAuditWindowBlocks := 200;
  nOPoIFeeBase := 0;
  nOPoIFeePerToken := 0;
|}.

(** [CMainParams]. *)
Definition mainParams : Params :=
  defaultParams
    <| nSubsidySlowStartInterval := 20000 |>
    <| nSubsidyHalvingInterval := 655350 |>
    <| nActivationHeight := fun idx =>
         match idx with
         | UPGRADE_TESTDUMMY | UPGRADE_HALVING => NO_ACTIVATION_HEIGHT
         | UPGRADE_OPOI => 100000
         | _ => ALWAYS_ACTIVE
         end |>
    <| nOPoIMinStake := 100 * COIN |>
    <| nOPoIAdaptiveVrfHeight := 100000 |>
    <| nOPoIChallengeWindowBlocks := 144 |>
    <| nOPoIUnstakeCooldownBlocks := 1440 |>
    <| nOPoIRequestExpiryBlocks := 2016 |>
    <| nOPoIChallengerStakePct := 10 |>
    <| nOPoIChallengeCommitRevealBlocks := 144 |>
    <| nOPoIResponseCommitWindowBlocks := 144 |>
    <| nOPoIStakeRenewalBlocks := 20160 |>
    <| nOPoICanaryAuditFrequency := 1000 |>
    <| nOPoICanaryResponseWindow := 200 |>
    <| nOPoIFeeBase := 100000 |>
    <| nOPoIFeePerToken := 10000 |>
    <| nOPoIMinAuditors := 3 |>
    <| nOPoIAuditorMinCollateral := 50 * COIN |>
    <| nOPoIAuditSampleRateBp := 1500 |>
    <| nOPoIAuditSampleRateNewMinerBp := 10000 |>
    <| nOPoIAuditSampleNewMinerResponseCount := 5 |>
    <| nOPoIAuditWindowBlocks := 200 |>
    <| nOPoIModelVoteWindowBlocks := 4032 |>
    <| nOPoIModelApprovalPct := 66 |>
    <| nOPoIModelActivationDelayBlocks := 2016 |>.

(** [CTestNetParams]. *)
Definition testNetParams : Params :=
  defaultParams
    <| nSubsidySlowStartInterval := 1 |>
    <| nSubsidyHalvingInterval := 655350 |>
    <| nActivationHeight := fun idx =>
         match idx with
         | UPGRADE_TESTDUMMY | UPGRADE_HALVING | UPGRADE_P2SHNODES => NO_ACTIVATION_HEIGHT
         | UPGRADE_OPOI => 50
         | _ => ALWAYS_ACTIVE
         end |>
    <| nOPoIMinStake := 10 * COIN |>
    <| nOPoIAdaptiveVrfHeight := 50 |>
    <| nOPoIChallengeWindowBlocks := 20 |>
    <| nOPoIUnstakeCooldownBlocks := 60 |>
    <| nOPoIRequestExpiryBlocks := 200 |>
    <| nOPoIChallengerStakePct := 10 |>
    <| nOPoIChallengeCommitRevealBlocks := 20 |>
    <| nOPoIResponseCommitWindowBlocks := 20 |>
    <| nOPoIStakeRenewalBlocks := 200 |>
    <| nOPoICanaryAuditFrequency := 500 |>
    <| nOPoICanaryResponseWindow := 60 |>
    <| nOPoIFeeBase := 100000 |>
    <| nOPoIFeePerToken := 10000 |>
    <| nOPoIMinAuditors := 3 |>
    <| nOPoIAuditorMinCollateral := 5 * COIN |>
    <| nOPoIAuditWindowBlocks := 60 |>
    <| nOPoIModelVoteWindowBlocks := 200 |>
    <| nOPoIModelApprovalPct := 66 |>
    <| nOPoIModelActivationDelayBlocks := 100 |>.

Definition regtest_threshold : string :=
  "e000000000000000000000000000000000000000000000000000000000000000".

(** [CRegTestParams]. *)
Definition regTestParams : Params :=
  defaultParams
    <| nSubsidySlowStartInterval := 0 |>
    <| nSubsidyHalvingInterval := 150 |>
    <| nActivationHeight := fun idx =>
         match idx with
         | BASE_SPROUT | UPGRADE_KAMIOOKA | UPGRADE_KAMATA | UPGRADE_FLUX | UPGRADE_OPOI =>
           ALWAYS_ACTIVE
         | _ => NO_ACTIVATION_HEIGHT
         end |>
    <| nOPoIMinStake := 1 * COIN |>
    <| nOPoIAdaptiveVrfHeight := 200 |>
    <| nOPoIChallengeWindowBlocks := 5 |>
    <| nOPoIUnstakeCooldownBlocks := 10 |>
    <| nOPoIRequestExpiryBlocks := 20 |>
    <| nOPoIChallengerStakePct := 10 |>
    <| nOPoIChallengeCommitRevealBlocks := 3 |>
    <| nOPoIResponseCommitWindowBlocks := 3 |>
    <| nOPoIStakeRenewalBlocks := 10 |>
    <| nOPoICanaryAuditFrequency := 14 |>
    <| nOPoICanaryResponseWindow := 12 |>
    <| nOPoIFeeBase := 10000 |>
    <| nOPoIFeePerToken := 1000 |>
    <| nOPoIMinAuditors := 1 |>
    <| nOPoIAuditorMinCollateral := 1 * COIN |>
    <| nOPoIAuditWindowBlocks := 12 |>
    <| nOPoIModelVoteWindowBlocks := 5 |>
    <| nOPoIModelApprovalPct := 66 |>
    <| nOPoIModelActivationDelayBlocks := 2 |>
    <| nOPoIVrfThreshold := regtest_threshold |>
    <| nOPoICoordinatorThreshold := regtest_threshold |>
    <| nOPoIShardThreshold := regtest_threshold |>
    <| nOPoIShardMinSubmissions := 2 |>
    <| nOPoIMaxPipelineDepth := 3 |>
    <| nOPoITitanOffloadThresholdGB := 1 |>
    <| nOPoIMaxRequestsPerBlock := 3 |>
    <| nOPoIMaxResponsesPerBlock := 5 |>.

(** * Operations *)

(** [NetworkUpgradeState]; the height is non-negative (the source asserts it). *)
Definition NetworkUpgradeState (nHeight : Z) (params : Params) (idx : UpgradeIndex) : UpgradeState :=
  let h := nActivationHeight params idx in
  if h =? NO_ACTIVATION_HEIGHT then UPGRADE_DISABLED
  else if h <=? nHeight then UPGRADE_ACTIVE
  else UPGRADE_PENDING.

Definition NetworkUpgradeActive (nHeight : Z) (params : Params) (idx : UpgradeIndex) : bool :=
  match NetworkUpgradeState nHeight params idx with UPGRADE_ACTIVE => true | _ => false end.

Definition SubsidySlowStartShift (params : Params) : Z := Z.quot (nSubsidySlowStartInterval params) 2.

(** [GetBlockSubsidy]: C++ division truncates towards zero. *)
Definition GetBlockSubsidy (nHeight : Z) (params : Params) : Z :=
  let nSubsidy := 150 * COIN in
  if nHeight =? 1 then 13020000 * COIN
  else if nHeight <? Z.quot (nSubsidySlowStartInterval params) 2 then
    Z.quot nSubsidy (nSubsidySlowStartInterval params) * nHeight
  else if nHeight <? nSubsidySlowStartInterval params then
    Z.quot nSubsidy (nSubsidySlowStartInterval params) * (nHeight + 1)
  else
    let halvings := Z.quot (nHeight - SubsidySlowStartShift params) (nSubsidyHalvingInterval params) in
    if 64 <=? halvings then 0
    else if 2 <=? halvings then Z.shiftr nSubsidy 2
    else Z.shiftr nSubsidy halvings.

(** [opoiBudget = static_cast<CAmount>(blockSubsidy * nOPoISubsidyPct)]. *)
Definition opoiBudget (nHeight : Z) (params : Params) : Z :=
  double_to_int64 (double_mul (double_of_int (GetBlockSubsidy nHeight params)) (nOPoISubsidyPct params)).

(** * The budget is a tenth of the subsidy *)

(** The amounts a block after the slow start can pay. *)
Lemma subsidy_plateau h p :
  nSubsidySlowStartInterval p <= h -> 0 <= nSubsidySlowStartInterval p ->
  0 < nSubsidyHalvingInterval p ->
  GetBlockSubsidy h p ∈ [13020000 * COIN; 0; 3750000000; 150 * COIN; 75 * COIN].
Proof.
  intros Hh H0 H1. unfold GetBlockSubsidy, SubsidySlowStartShift.
  pose proof (Z.quot_le_upper_bound (nSubsidySlowStartInterval p) 2 (nSubsidySlowStartInterval p)).
  destruct (Z.eqb_spec h 1); [left|].
  destruct (Z.ltb_spec h (Z.quot (nSubsidySlowStartInterval p) 2)); [lia|].
  destruct (Z.ltb_spec h (nSubsidySlowStartInterval p)); [lia|].
  remember (Z.quot (h - _) (nSubsidyHalvingInterval p)) as v eqn:E.
  assert (0 <= v) by (subst v; apply Z.quot_pos; lia).
  destruct (Z.leb_spec 64 v); [right; left|].
  destruct (Z.leb_spec 2 v).
  { do 2 right. apply elem_of_cons; left; vm_compute; reflexivity. }
  assert (v = 0 \/ v = 1) as [Hv|Hv] by lia; rewrite Hv; do 3 right.
  - apply elem_of_cons; left; vm_compute; reflexivity.
  - right. apply elem_of_cons; left; vm_compute; reflexivity.
Qed.

Definition networks : list Params := [mainParams; testNetParams; regTestParams].

(** Where the subsystem is active, every network is past its slow start. *)
Lemma active_subsidy (p : Params) (h : Z) :
  p ∈ networks -> 0 <= h -> NetworkUpgradeActive h p UPGRADE_OPOI = true ->
  GetBlockSubsidy h p ∈ [13020000 * COIN; 0; 3750000000; 150 * COIN; 75 * COIN].
Proof.
  intros Hp Hh Hact.
  repeat (apply elem_of_cons in Hp as [->|Hp]); [| | |by apply elem_of_nil in Hp].
  all: unfold NetworkUpgradeActive, NetworkUpgradeState in Hact; cbn in Hact.
  - destruct (Z.leb_spec 100000 h); [|done]. apply subsidy_plateau; cbn; lia.
  - destruct (Z.leb_spec 50 h); [|done]. apply subsidy_plateau; cbn; lia.
  - apply subsidy_plateau; cbn; lia.
Qed.

Lemma opoi_budget_tenth (p : Params) (h : Z) :
  p ∈ networks -> 0 <= h -> NetworkUpgradeActive h p UPGRADE_OPOI = true ->
  opoiBudget h p = GetBlockSubsidy h p / 10 /\ 0 <= opoiBudget h p < 2 ^ 62.
Proof.
  intros Hp Hh Hact. unfold opoiBudget.
  assert (Hpct : nOPoISubsidyPct p = double_0_10).
  { by repeat (apply elem_of_cons in Hp as [->|Hp]; [done|]); apply elem_of_nil in Hp. }
  pose proof (active_subsidy p h Hp Hh Hact) as Hs. rewrite Hpct.
  remember (GetBlockSubsidy h p) as s eqn:Es. clear Es.
  assert (E : double_to_int64 (double_mul (double_of_int s) double_0_10) = s / 10 /\ 0 <= s / 10 < 2 ^ 62).
  { repeat (apply elem_of_cons in Hs as [->|Hs]; [vm_compute; repeat split; discriminate|]).
    by apply elem_of_nil in Hs. }
  destruct E as [-> ?]. done.
Qed.

(** Wherever the inference subsystem is active, on each of the three
    networks, the budget every node computes in floating point (a double
    product, truncated) is exactly one tenth of the block subsidy: rounding
    never moves it by a unit, so the cap of a block is well defined. *)
Theorem opoi_budget_exact (p : Params) (h : Z) :
  p ∈ networks -> 0 <= h -> NetworkUpgradeActive h p UPGRADE_OPOI = true ->
  opoiBudget h p = GetBlockSubsidy h p / 10.
Proof. intros. by apply opoi_budget_tenth. Qed.

Lemma opoi_budget_exact_witness :
  opoiBudget 700000 mainParams = GetBlockSubsidy 700000 mainParams / 10 /\
  opoiBudget 700000 mainParams = 750000000.
Proof.
  split; [|vm_compute; reflexivity].
  apply opoi_budget_exact; [left|lia|vm_compute; reflexivity].
Defined.
