(* ===== verification/Hasher.v ===== *)
(** The streaming hashers of crypto/ (sha256.cpp, sha1.cpp and ripemd160.cpp):
    the three classes have the same 64-byte buffer, the same [Write] and the
    same padding around different compression functions, so the model has one
    [Write], parametrised by the state and the compression.  What is proved of
    it, that a hasher computes the hash of everything written to it however the
    writes were split, is proved once. *)

From stdpp Require Import list strings.
From Stdlib Require Import ZArith Lia.
From S2P Require Import Prelude.

Definition be_value (bs : bytes) : Z := le_value (rev bs).
Definition be_bytes (n : nat) (x : Z) : bytes := rev (le_bytes n x).

(** * The class *)

(** The members [s], [buf] and [bytes] of a hasher. *)
Record Hasher (St : Type) := mkHasher { h_s : St; h_buf : bytes; h_bytes : Z }.
Arguments mkHasher {St} _ _ _.
Arguments h_s {St} _.
Arguments h_buf {St} _.
Arguments h_bytes {St} _.

(** [memcpy(buf + off, data, len)] for a range inside the array. *)
Definition memcpy (buf : bytes) (off : nat) (data : bytes) : bytes :=
  take off buf ++ data ++ drop (off + length data) buf.

Section hasher.
Context {St : Type} (Initialize : St) (Transform : St -> bytes -> St).

Definition hasher_new : Hasher St := mkHasher Initialize (replicate 64 0) 0.

(** The [while (end >= data + 64)] loop: the chunks it compresses and the
    data that is left; [n] bounds the number of iterations. *)
Fixpoint full_chunks (n : nat) (s : St) (data : bytes) : St * bytes :=
  match n with
  | O => (s, data)
  | S n' =>
    if (64 <=? length data)%nat then full_chunks n' (Transform s (take 64 data)) (drop 64 data)
    else (s, data)
  end.

(** [Write]; [bytes] is a [size_t]. *)
Definition hasher_Write (h : Hasher St) (data : bytes) : Hasher St :=
  let bufsize := Z.to_nat (h_bytes h mod 64) in
  let '(h1, data1, bufsize1) :=
    if negb (bufsize =? 0)%nat && (64 <=? bufsize + length data)%nat then
      let buf := memcpy (h_buf h) bufsize (take (64 - bufsize) data) in
      (mkHasher (Transform (h_s h) buf) buf (u64 (h_bytes h + Z.of_nat (64 - bufsize))),
       drop (64 - bufsize) data, 0%nat)
    else (h, data, bufsize) in
  let '(s2, data2) := full_chunks (length data1) (h_s h1) data1 in
  let bytes2 := u64 (h_bytes h1 + Z.of_nat (length data1 - length data2)) in
  if (0 <? length data2)%nat then
    mkHasher s2 (memcpy (h_buf h1) bufsize1 data2) (u64 (bytes2 + Z.of_nat (length data2)))
  else mkHasher s2 (h_buf h1) bytes2.

Definition sha_pad : bytes := 0x80 :: replicate 63 0.

(** The two [Write]s of [Finalize]; [order] stores the bit length. *)
Definition hasher_Pad (order : nat -> Z -> bytes) (h : Hasher St) : Hasher St :=
  let sizedesc := order 8%nat (u64 (Z.shiftl (h_bytes h) 3)) in
  let h1 := hasher_Write h (take (1 + Z.to_nat (u64 (119 - h_bytes h mod 64) mod 64)) sha_pad) in
  hasher_Write h1 sizedesc.

(** * The reference definition

    The standards pad the message to a multiple of 64 bytes with [0x80],
    zeros and the 64-bit bit length, and fold the compression over its 64-byte
    blocks. *)

Fixpoint compress_all (n : nat) (s : St) (m : bytes) : St :=
  match n with
  | O => s
  | S n' => compress_all n' (Transform s (take 64 m)) (drop 64 m)
  end.

Definition sha_padding (order : nat -> Z -> bytes) (len : nat) : bytes :=
  0x80 :: replicate ((119 - len mod 64) mod 64) 0 ++ order 8%nat (8 * Z.of_nat len).

Definition padded_state (order : nat -> Z -> bytes) (m : bytes) : St :=
  let p := m ++ sha_padding order (length m) in compress_all (length p / 64) Initialize p.

(** * The streaming invariant *)

Lemma full_chunks_short n s data : (length data < 64)%nat -> full_chunks n s data = (s, data).
Proof.
  destruct n; cbn [full_chunks]; [done|]. intros H. by rewrite (proj2 (Nat.leb_gt _ _) H).
Qed.

Lemma full_chunks_one n s data :
  length data = 64%nat -> full_chunks (S n) s data = (Transform s data, []).
Proof.
  intros H. cbn [full_chunks]. rewrite H, Nat.leb_refl, take_ge, drop_ge by lia.
  apply full_chunks_short. simpl. lia.
Qed.

Lemma full_chunks_fuel n s data :
  (length data <= n)%nat -> full_chunks n s data = full_chunks (length data) s data.
Proof.
  remember (length data) as l eqn:El. revert n s data El.
  induction (lt_wf l) as [l _ IH]. intros n s data El Hn.
  destruct (Nat.le_gt_cases 64 l) as [H64|H64].
  - destruct n as [|n]; [lia|]. destruct l as [|l]; [lia|].
    cbn [full_chunks]. rewrite <- El, (proj2 (Nat.leb_le _ _) H64).
    assert (Hd : length (drop 64 data) = (S l - 64)%nat) by (rewrite length_drop; lia).
    rewrite (IH (S l - 64)%nat) by (try lia; done).
    symmetry. rewrite (IH (S l - 64)%nat) by (try lia; done). done.
  - by rewrite !full_chunks_short by lia.
Qed.

Lemma full_chunks_app s a b :
  full_chunks (length (a ++ b)) s (a ++ b) =
  (let '(s1, t) := full_chunks (length a) s a in full_chunks (length (t ++ b)) s1 (t ++ b)).
Proof.
  remember (length a) as l eqn:El. revert s a El.
  induction (lt_wf l) as [l _ IH]. intros s a El.
  destruct (Nat.le_gt_cases 64 l) as [H64|H64].
  - destruct l as [|l]; [lia|]. cbn [full_chunks].
    rewrite <- El, (proj2 (Nat.leb_le _ _) H64).
    assert (Hd : length (drop 64 a) = (S l - 64)%nat) by (rewrite length_drop; lia).
    rewrite (full_chunks_fuel l _ (drop 64 a)) by lia. rewrite Hd.
    rewrite <- (IH (S l - 64)%nat) by (try lia; done).
    destruct (length (a ++ b)) as [|n] eqn:En; [rewrite length_app in En; lia|].
    rewrite length_app in En. cbn [full_chunks].
    rewrite length_app, (proj2 (Nat.leb_le _ _)) by (rewrite <- El; lia).
    rewrite take_app_le, drop_app_le by lia.
    apply full_chunks_fuel. rewrite length_app, Hd. lia.
  - by rewrite (full_chunks_short l s a) by lia.
Qed.

Lemma full_chunks_tail n s data :
  (length data <= n)%nat ->
  length (full_chunks n s data).2 = (length data mod 64)%nat /\
  full_chunks n s data = (compress_all (length data / 64) s data, drop (64 * (length data / 64)) data).
Proof.
  remember (length data) as l eqn:El. revert n s data El.
  induction (lt_wf l) as [l _ IH]. intros n s data El Hn.
  destruct (Nat.le_gt_cases 64 l) as [H64|H64].
  - destruct n as [|n]; [lia|]. cbn [full_chunks].
    rewrite <- El, (proj2 (Nat.leb_le _ _) H64).
    assert (Hd : length (drop 64 data) = (l - 64)%nat) by (rewrite length_drop; lia).
    destruct (IH (l - 64)%nat ltac:(lia) n (Transform s (take 64 data)) (drop 64 data)) as [H1 H2];
      [done|lia|].
    assert (Hdiv : (l / 64 = S ((l - 64) / 64))%nat).
    { replace l with ((l - 64) + 1 * 64)%nat at 1 by lia. rewrite Nat.div_add by lia. lia. }
    assert (Hmod : (l mod 64 = (l - 64) mod 64)%nat).
    { replace l with ((l - 64) + 1 * 64)%nat at 1 by lia. by rewrite Nat.Div0.mod_add by lia. }
    split; [by rewrite Hmod|]. rewrite H2, Hdiv. cbn [compress_all].
    f_equal. rewrite drop_drop. f_equal. lia.
  - rewrite full_chunks_short by lia. rewrite Nat.mod_small, Nat.div_small by lia. done.
Qed.

(** [h] has absorbed exactly the message [m]. *)
Record stream_of (h : Hasher St) (m : bytes) : Prop := {
  so_bytes : h_bytes h = Z.of_nat (length m);
  so_state : h_s h = (full_chunks (length m) Initialize m).1;
  so_buf : take (length m mod 64) (h_buf h) = (full_chunks (length m) Initialize m).2;
  so_len : length (h_buf h) = 64%nat;
}.

Lemma length_memcpy buf off data :
  (off + length data <= length buf)%nat -> length (memcpy buf off data) = length buf.
Proof. intros H. unfold memcpy. rewrite !length_app, length_take, length_drop. lia. Qed.

Lemma take_memcpy buf off data :
  (off + length data <= length buf)%nat ->
  take (off + length data) (memcpy buf off data) = take off buf ++ data.
Proof.
  intros H. unfold memcpy. rewrite app_assoc, take_app_le by (rewrite length_app, length_take; lia).
  apply take_ge. rewrite length_app, length_take. lia.
Qed.

(** The part of [Write] that follows the buffer fill: it starts with [t]
    buffered and compresses [t ++ data], where nothing is buffered unless the
    whole fits in the buffer. *)
Lemma write_tail_spec s buf t data :
  length buf = 64%nat -> take (length t) buf = t ->
  (t = [] \/ (length t + length data < 64)%nat) ->
  let '(s2, data2) := full_chunks (length data) s data in
  let '(s3, t3) := full_chunks (length (t ++ data)) s (t ++ data) in
  s2 = s3 /\
  (if (0 <? length data2)%nat then
     take (length t3) (memcpy buf (length t) data2) = t3 /\
     length (memcpy buf (length t) data2) = 64%nat
   else take (length t3) buf = t3).
Proof.
  intros Hl Ht [->|Hfit].
  - simpl. destruct (full_chunks (length data) s data) as [s2 d2] eqn:E. split; [done|].
    destruct (full_chunks_tail (length data) s data (le_n _)) as [Hm _]. rewrite E in Hm. simpl in Hm.
    pose proof (Nat.mod_upper_bound (length data) 64 ltac:(lia)).
    destruct (Nat.ltb_spec 0 (length d2)).
    + split; [by apply (take_memcpy buf 0); lia|rewrite length_memcpy; lia].
    + destruct d2; simpl in *; [done|lia].
  - rewrite (full_chunks_short _ s data) by lia.
    rewrite full_chunks_short by (rewrite length_app; lia). split; [done|].
    destruct (Nat.ltb_spec 0 (length data)).
    + rewrite length_app, take_memcpy, Ht by lia. split; [done|]. rewrite length_memcpy; lia.
    + destruct data; simpl in *; [|lia]. by rewrite app_nil_r, Ht.
Qed.

Lemma stream_of_new : stream_of hasher_new [].
Proof. split; reflexivity. Qed.

Lemma stream_of_intro s buf b m t3 :
  b = Z.of_nat (length m) -> full_chunks (length m) Initialize m = (s, t3) ->
  take (length t3) buf = t3 -> length buf = 64%nat -> stream_of (mkHasher s buf b) m.
Proof.
  intros -> E Hb Hl.
  destruct (full_chunks_tail (length m) Initialize m (le_n _)) as [Hm _]. rewrite E in Hm.
  split; simpl; rewrite ?E; simpl in *; [done|done|by rewrite <- Hm|done].
Qed.

(** The last two steps of [Write], from a state that has absorbed [m] with
    [t] in its buffer. *)
Lemma write_finish h m t data :
  stream_of h m -> (full_chunks (length m) Initialize m).2 = t ->
  (t = [] \/ (length t + length data < 64)%nat) ->
  Z.of_nat (length (m ++ data)) < 2 ^ 64 ->
  stream_of
    (let '(s2, data2) := full_chunks (length data) (h_s h) data in
     let bytes2 := u64 (h_bytes h + Z.of_nat (length data - length data2)) in
     if (0 <? length data2)%nat then
       mkHasher s2 (memcpy (h_buf h) (length t) data2) (u64 (bytes2 + Z.of_nat (length data2)))
     else mkHasher s2 (h_buf h) bytes2)
    (m ++ data).
Proof.
  intros [Hb Hs Hbuf Hl] Ht Hfit Hlen.
  destruct (full_chunks_tail (length m) Initialize m (le_n _)) as [Hmod _].
  destruct (full_chunks (length m) Initialize m) as [s0 t0] eqn:E0. cbn [fst snd] in *. subst t. rename t0 into t.
  rewrite <- Hmod in Hbuf.
  pose proof (write_tail_spec s0 (h_buf h) t data Hl Hbuf Hfit) as Hw.
  pose proof (full_chunks_app Initialize m data) as Happ. rewrite E0 in Happ.
  rewrite Hs. rewrite length_app in Hlen.
  destruct (full_chunks_tail (length data) s0 data (le_n _)) as [Hm2 _].
  destruct (full_chunks (length data) s0 data) as [s2 d2] eqn:E2. cbn [fst snd] in Hm2.
  destruct (full_chunks (length (t ++ data)) s0 (t ++ data)) as [s3 t3] eqn:E3.
  destruct Hw as [-> Hw].
  pose proof (Nat.Div0.mod_le (length data) 64).
  assert (Hu : u64 (h_bytes h + Z.of_nat (length data - length d2))
               = Z.of_nat (length m + (length data - length d2))).
  { unfold u64. rewrite Z.mod_small by lia. lia. }
  rewrite Hu. destruct (Nat.ltb_spec 0 (length d2)).
  - destruct Hw as [Hw1 Hw2]. apply (stream_of_intro _ _ _ _ t3); [|done|done|done].
    unfold u64. rewrite Z.mod_small by lia. rewrite length_app. lia.
  - apply (stream_of_intro _ _ _ _ t3); [|done|done|done]. rewrite length_app. lia.
Qed.

(** [Write] appends to the absorbed message. *)
Lemma stream_of_write h m data :
  stream_of h m -> Z.of_nat (length (m ++ data)) < 2 ^ 64 ->
  stream_of (hasher_Write h data) (m ++ data).
Proof.
  intros Hst Hlen. pose proof Hst as [Hb Hs Hbuf Hl]. unfold hasher_Write.
  destruct (full_chunks_tail (length m) Initialize m (le_n _)) as [Hmod _].
  assert (Hbs : Z.to_nat (h_bytes h mod 64) = (length m mod 64)%nat).
  { rewrite Hb. change 64 with (Z.of_nat 64). by rewrite <- Nat2Z.inj_mod, Nat2Z.id. }
  rewrite Hbs. remember (length m mod 64)%nat as bs eqn:Ebs.
  assert (bs < 64)%nat by (subst; apply Nat.mod_upper_bound; lia).
  destruct (negb (bs =? 0)%nat && (64 <=? bs + length data)%nat) eqn:Ec.
  - apply andb_prop in Ec as [E1 E2]. apply negb_true_iff, Nat.eqb_neq in E1. apply Nat.leb_le in E2.
    remember (take (64 - bs) data) as d1 eqn:Ed1.
    assert (Hd1 : length d1 = (64 - bs)%nat) by (subst d1; rewrite length_take; lia).
    assert (Hsplit : data = d1 ++ drop (64 - bs) data) by (subst d1; by rewrite take_drop).
    rewrite Hsplit in Hlen |- *. rewrite app_assoc in Hlen |- *.
    assert (Hmc : memcpy (h_buf h) bs d1 = (full_chunks (length m) Initialize m).2 ++ d1).
    { rewrite <- (take_ge (memcpy _ _ _) (bs + length d1)).
      - rewrite take_memcpy by lia. by rewrite Hbuf.
      - rewrite length_memcpy; lia. }
    assert (Hst1 : stream_of (mkHasher (Transform (h_s h) (memcpy (h_buf h) bs d1))
                     (memcpy (h_buf h) bs d1) (u64 (h_bytes h + Z.of_nat (64 - bs)))) (m ++ d1)).
    { apply (stream_of_intro _ _ _ _ []).
      - rewrite !length_app in Hlen. unfold u64. rewrite Z.mod_small by lia. rewrite length_app. lia.
      - rewrite full_chunks_app. rewrite Hmc, Hs.
        destruct (full_chunks (length m) Initialize m) as [s0 t0]. cbn [fst snd] in *.
        assert (Hl64 : length (t0 ++ d1) = 64%nat) by (rewrite length_app; lia).
        rewrite Hl64. by apply (full_chunks_one 63).
      - done.
      - rewrite length_memcpy; lia. }
    rewrite <- Hsplit.
    apply (write_finish _ (m ++ d1) [] (drop (64 - bs) data) Hst1); [|by left|done].
    destruct (full_chunks_tail (length (m ++ d1)) Initialize (m ++ d1) (le_n _)) as [Hz _].
    apply nil_length_inv. rewrite Hz, length_app, Hd1.
    rewrite Nat.Div0.add_mod, <- Ebs, (Nat.mod_small (64 - bs)) by lia.
    replace (bs + (64 - bs))%nat with 64%nat by lia. done.
  - pose proof (write_finish h m _ data Hst eq_refl) as Hf. rewrite Hmod in Hf.
    apply Hf; [|done]. apply andb_false_iff in Ec as [Ec|Ec].
    + apply negb_false_iff, Nat.eqb_eq in Ec. left. apply nil_length_inv. lia.
    + apply Nat.leb_gt in Ec. right. lia.
Qed.

Lemma stream_of_writes ds h m :
  stream_of h m -> Z.of_nat (length (m ++ concat ds)) < 2 ^ 64 ->
  stream_of (foldl hasher_Write h ds) (m ++ concat ds).
Proof.
  revert h m. induction ds as [|d ds IH]; intros h m Hst Hlen; simpl.
  - by rewrite app_nil_r.
  - simpl in Hlen. rewrite app_assoc in Hlen |- *. apply IH; [|done].
    apply stream_of_write; [done|]. rewrite length_app in Hlen. lia.
Qed.

(** The padding written by [Finalize] is the padding of the standard. *)
Lemma finalize_pad order h m :
  stream_of h m -> 8 * Z.of_nat (length m) < 2 ^ 64 ->
  take (1 + Z.to_nat (u64 (119 - h_bytes h mod 64) mod 64)) sha_pad
  ++ order 8%nat (u64 (Z.shiftl (h_bytes h) 3)) = sha_padding order (length m).
Proof.
  intros [Hb _ _ _] Hlen. rewrite Hb. unfold sha_padding, sha_pad.
  replace (u64 (Z.shiftl (Z.of_nat (length m)) 3)) with (8 * Z.of_nat (length m)).
  2: { rewrite Z.shiftl_mul_pow2 by lia. unfold u64. rewrite Z.mod_small; lia. }
  assert (Hr : Z.to_nat (u64 (119 - Z.of_nat (length m) mod 64) mod 64)
               = ((119 - length m mod 64) mod 64)%nat).
  { change 64 with (Z.of_nat 64). rewrite <- Nat2Z.inj_mod.
    pose proof (Nat.mod_upper_bound (length m) 64 ltac:(lia)).
    replace (119 - Z.of_nat (length m mod 64)) with (Z.of_nat (119 - length m mod 64)) by lia.
    unfold u64. rewrite (Z.mod_small _ (2 ^ 64)) by lia.
    by rewrite <- Nat2Z.inj_mod, Nat2Z.id. }
  rewrite Hr. remember ((119 - length m mod 64) mod 64)%nat as k eqn:Ek.
  assert (k < 64)%nat by (subst k; apply Nat.mod_upper_bound; lia).
  cbn [Nat.add take]. f_equal. rewrite take_replicate, Nat.min_l by lia. done.
Qed.

(** What [Finalize] is left with, of a state that absorbed [m], is the state of
    the reference definition. *)
Lemma pad_reference order h m :
  (forall n x, length (order n x) = n) ->
  stream_of h m -> 8 * Z.of_nat (length m) + 1024 < 2 ^ 64 ->
  h_s (hasher_Pad order h) = padded_state order m.
Proof.
  intros Hord Hst Hlen. unfold hasher_Pad, padded_state.
  pose proof (finalize_pad order h m Hst ltac:(lia)) as Hpad.
  remember (take _ sha_pad) as p1 eqn:E1. remember (order 8%nat _) as p2 eqn:E2 in Hpad |- *.
  assert (Hp1 : (length p1 <= 64)%nat) by (subst p1; rewrite length_take; simpl; lia).
  assert (Hp2 : length p2 = 8%nat) by (subst p2; apply Hord).
  assert (Hst2 : stream_of (hasher_Write (hasher_Write h p1) p2) (m ++ sha_padding order (length m))).
  { rewrite <- Hpad, app_assoc. apply stream_of_write; [apply stream_of_write; [done|]|].
    all: rewrite !length_app; lia. }
  destruct Hst2 as [_ Hs _ _]. rewrite Hs.
  destruct (full_chunks_tail _ Initialize (m ++ sha_padding order (length m)) (le_n _)) as [_ Hf].
  by rewrite Hf.
Qed.

(** However a message is split into writes, padding leaves the reference state. *)
Lemma stream_reference order ds :
  (forall n x, length (order n x) = n) -> 8 * Z.of_nat (length (concat ds)) + 1024 < 2 ^ 64 ->
  h_s (hasher_Pad order (foldl hasher_Write hasher_new ds)) = padded_state order (concat ds).
Proof.
  intros Hord Hlen. apply pad_reference; [done| |done].
  apply (stream_of_writes ds hasher_new []); [apply stream_of_new|]. simpl. lia.
Qed.

End hasher.

Lemma length_be_bytes n x : length (be_bytes n x) = n.
Proof. unfold be_bytes, le_bytes. by rewrite length_rev, length_digits. Qed.

Lemma length_le_bytes n x : length (le_bytes n x) = n.
Proof. apply length_digits. Qed.
