(* ===== verification/Sha256.v ===== *)
(** SHA-256 (crypto/sha256.cpp): the compression function with its 64 unrolled
    rounds, the streaming class [CSHA256] with its 64-byte buffer, and
    [CHash256], the double hash of hash.h.  The compression is written as the
    source has it (registers renamed from round to round, a window of 16
    schedule words updated in place); the streaming class is that of Hasher,
    and the boolean shortcuts of the rounds are the functions of the standard. *)

From stdpp Require Import list strings.
From Stdlib Require Import ZArith Lia.
From S2P Require Import Prelude Hasher.

Definition rotr32 (x n : Z) : Z := u32 (Z.lor (Z.shiftr x n) (Z.shiftl x (32 - n))).

Definition Ch (x y z : Z) : Z := Z.lxor z (Z.land x (Z.lxor y z)).
Definition Maj (x y z : Z) : Z := Z.lor (Z.land x y) (Z.land z (Z.lor x y)).
Definition Sigma0 (x : Z) : Z := Z.lxor (Z.lxor (rotr32 x 2) (rotr32 x 13)) (rotr32 x 22).
Definition Sigma1 (x : Z) : Z := Z.lxor (Z.lxor (rotr32 x 6) (rotr32 x 11)) (rotr32 x 25).
Definition sigma0 (x : Z) : Z := Z.lxor (Z.lxor (rotr32 x 7) (rotr32 x 18)) (Z.shiftr x 3).
Definition sigma1 (x : Z) : Z := Z.lxor (Z.lxor (rotr32 x 17) (rotr32 x 19)) (Z.shiftr x 10).

(** The eight registers, in the order a call of [Round] names them. *)
Record Regs := mkRegs { ra : Z; rb : Z; rc : Z; rd : Z; re : Z; rf : Z; rg : Z; rh : Z }.

(** [Round]: it updates [d] and [h]; the next call names the registers
    shifted by one ([h] first), which is the order of the result. *)
Definition Round (r : Regs) (k w : Z) : Regs :=
  let t1 := u32 (rh r + Sigma1 (re r) + Ch (re r) (rf r) (rg r) + k + w) in
  let t2 := u32 (Sigma0 (ra r) + Maj (ra r) (rb r) (rc r)) in
  mkRegs (u32 (t1 + t2)) (ra r) (rb r) (rc r) (u32 (rd r + t1)) (re r) (rf r) (rg r).

(** The round constants.  [Transform] uses each of its sixteen message words
    in four rounds; a row holds the constants of one word, in the order of
    its uses, and [sha256_K] is the order of the rounds. *)
Definition sha256_K_by_word : list (Z * Z * Z * Z) :=
  [(0x428a2f98, 0xe49b69c1, 0x27b70a85, 0x19a4c116);
   (0x71374491, 0xefbe4786, 0x2e1b2138, 0x1e376c08);
   (0xb5c0fbcf, 0x0fc19dc6, 0x4d2c6dfc, 0x2748774c);
   (0xe9b5dba5, 0x240ca1cc, 0x53380d13, 0x34b0bcb5);
   (0x3956c25b, 0x2de92c6f, 0x650a7354, 0x391c0cb3);
   (0x59f111f1, 0x4a7484aa, 0x766a0abb, 0x4ed8aa4a);
   (0x923f82a4, 0x5cb0a9dc, 0x81c2c92e, 0x5b9cca4f);
   (0xab1c5ed5, 0x76f988da, 0x92722c85, 0x682e6ff3);
   (0xd807aa98, 0x983e5152, 0xa2bfe8a1, 0x748f82ee);
   (0x12835b01, 0xa831c66d, 0xa81a664b, 0x78a5636f);
   (0x243185be, 0xb00327c8, 0xc24b8b70, 0x84c87814);
   (0x550c7dc3, 0xbf597fc7, 0xc76c51a3, 0x8cc70208);
   (0x72be5d74, 0xc6e00bf3, 0xd192e819, 0x90befffa);
   (0x80deb1fe, 0xd5a79147, 0xd6990624, 0xa4506ceb);
   (0x9bdc06a7, 0x06ca6351, 0xf40e3585, 0xbef9a3f7);
   (0xc19bf174, 0x14292967, 0x106aa070, 0xc67178f2)].

Definition sha256_K : list Z :=
  map (fun '(k, _, _, _) => k) sha256_K_by_word ++ map (fun '(_, k, _, _) => k) sha256_K_by_word
  ++ map (fun '(_, _, k, _) => k) sha256_K_by_word ++ map (fun '(_, _, _, k) => k) sha256_K_by_word.

Definition Initialize : Regs :=
  mkRegs 0x6a09e667 0xbb67ae85 0x3c6ef372 0xa54ff53a 0x510e527f 0x9b05688c 0x1f83d9ab 0x5be0cd19.

(** The sixteen [ReadBE32(chunk + 4 i)]. *)
Fixpoint words_of (n : nat) (chunk : bytes) : list Z :=
  match n with
  | O => []
  | S n' => be_value (take 4 chunk) :: words_of n' (drop 4 chunk)
  end.

(** The rounds: [w] is the window [w0 .. w15], oldest first.  The first
    sixteen rounds consume it as it is, each later one replaces the oldest
    word [w0] by [w0 + sigma1(w14) + w9 + sigma0(w1)]. *)
Fixpoint rounds (i : nat) (ks : list Z) (w : list Z) (r : Regs) : Regs :=
  match ks with
  | [] => r
  | k :: ks' =>
    match i with
    | S i' => rounds i' ks' (drop 1 w ++ take 1 w) (Round r k (nth 0 w 0))
    | O =>
      let x := u32 (nth 0 w 0 + (sigma1 (nth 14 w 0) + nth 9 w 0 + sigma0 (nth 1 w 0))) in
      rounds O ks' (drop 1 w ++ [x]) (Round r k x)
    end
  end.

(** [Transform(s, chunk)]. *)
Definition Transform (s : Regs) (chunk : bytes) : Regs :=
  let r := rounds 16 sha256_K (words_of 16 chunk) s in
  mkRegs (u32 (ra s + ra r)) (u32 (rb s + rb r)) (u32 (rc s + rc r)) (u32 (rd s + rd r))
         (u32 (re s + re r)) (u32 (rf s + rf r)) (u32 (rg s + rg r)) (u32 (rh s + rh r)).

(** * The streaming class *)

Definition CSHA256 : Type := Hasher Regs.

Definition CSHA256_new : CSHA256 := hasher_new Initialize.

(** [CSHA256::Write]. *)
Definition CSHA256_Write : CSHA256 -> bytes -> CSHA256 := hasher_Write Transform.

(** [FinalizeNoPadding(hash, false)]. *)
Definition CSHA256_FinalizeNoPadding (h : CSHA256) : bytes :=
  let s := h_s h in
  be_bytes 4 (ra s) ++ be_bytes 4 (rb s) ++ be_bytes 4 (rc s) ++ be_bytes 4 (rd s) ++
  be_bytes 4 (re s) ++ be_bytes 4 (rf s) ++ be_bytes 4 (rg s) ++ be_bytes 4 (rh s).

(** [CSHA256::Finalize]. *)
Definition CSHA256_Finalize (h : CSHA256) : bytes := CSHA256_FinalizeNoPadding (hasher_Pad Transform be_bytes h).

(** [CSHA256().Write(data).Finalize(out)]. *)
Definition SHA256 (data : bytes) : bytes := CSHA256_Finalize (CSHA256_Write CSHA256_new data).

(** [CHash256]: SHA-256 of the SHA-256. *)
Definition Hash256 (data : bytes) : bytes := SHA256 (SHA256 data).

Example sha256_abc :
  HexStr (SHA256 (string_bytes "abc")) =
  "ba7816bf8f01cfea414140de5dae2223b00361a396177a9cb410ff61f20015ad".
Proof. vm_compute. reflexivity. Qed.

(** The hash of the standard: the message padded, the compression folded over
    its blocks. *)
Definition sha256_reference (m : bytes) : bytes :=
  CSHA256_FinalizeNoPadding (mkHasher (padded_state Initialize Transform be_bytes m) [] 0).

(** However a message is split into [Write] calls, [CSHA256] computes the
    SHA-256 of its concatenation. *)
Lemma sha256_stream (ds : list bytes) :
  8 * Z.of_nat (length (concat ds)) + 1024 < 2 ^ 64 ->
  CSHA256_Finalize (foldl CSHA256_Write CSHA256_new ds) = sha256_reference (concat ds).
Proof.
  intros Hlen. unfold CSHA256_Finalize, sha256_reference, CSHA256_FinalizeNoPadding, CSHA256_Write, CSHA256_new, CSHA256.
  by rewrite (stream_reference Initialize Transform be_bytes ds length_be_bytes Hlen).
Qed.

(** * The round functions and the standard's *)

Lemma Ch_standard x y z : Ch x y z = Z.lxor (Z.land x y) (Z.land (Z.lnot x) z).
Proof.
  apply Z.bits_inj'. intros n Hn. unfold Ch.
  rewrite !Z.lxor_spec, !Z.land_spec, Z.lxor_spec, Z.lnot_spec by done.
  by destruct (Z.testbit x n), (Z.testbit y n), (Z.testbit z n).
Qed.

Lemma Maj_standard x y z :
  Maj x y z = Z.lxor (Z.lxor (Z.land x y) (Z.land x z)) (Z.land y z).
Proof.
  apply Z.bits_inj'. intros n Hn. unfold Maj.
  rewrite !Z.lor_spec, !Z.lxor_spec, !Z.land_spec, Z.lor_spec.
  by destruct (Z.testbit x n), (Z.testbit y n), (Z.testbit z n).
Qed.

Lemma length_SHA256 data : length (SHA256 data) = 32%nat.
Proof.
  unfold SHA256, CSHA256_Finalize, CSHA256_FinalizeNoPadding, be_bytes, le_bytes.
  rewrite !length_app, !length_rev, !length_digits. reflexivity.
Qed.

Lemma SHA256_range data : Forall (fun b => 0 <= b < 256) (SHA256 data).
Proof.
  unfold SHA256, CSHA256_Finalize, CSHA256_FinalizeNoPadding, be_bytes, le_bytes.
  rewrite !Forall_app. repeat split; apply Forall_rev, digits_range; lia.
Qed.
