(* ===== verification/Sha1.v ===== *)
(** SHA-1 (crypto/sha1.cpp): the compression with its eighty unrolled rounds,
    the sixteen-word window updated in place, and the streaming class. *)

From stdpp Require Import list strings.
From Stdlib Require Import ZArith Lia.
From S2P Require Import Prelude Hasher Sha256.

(** A rotation to the left of a [uint32_t]. *)
Definition rol (x : Z) (i : Z) : Z := u32 (Z.lor (Z.shiftl x i) (Z.shiftr x (32 - i))).

(** Five registers, in the order a call of [Round] names them. *)
Record Regs5 := mkRegs5 { r5a : Z; r5b : Z; r5c : Z; r5d : Z; r5e : Z }.

(** The five words of a hash, in the byte order of the class. *)
Definition regs5_bytes (order : nat -> Z -> bytes) (s : Regs5) : bytes :=
  order 4%nat (r5a s) ++ order 4%nat (r5b s) ++ order 4%nat (r5c s) ++ order 4%nat (r5d s) ++ order 4%nat (r5e s).

Lemma length_regs5_bytes order s : (forall n x, length (order n x) = n) -> length (regs5_bytes order s) = 20%nat.
Proof. intros Ho. unfold regs5_bytes. by rewrite !length_app, !Ho. Qed.

(** [Round]: it updates [e] and [b]; the next call names the registers shifted
    by one ([e] first). *)
Definition sha1_Round (r : Regs5) (f k w : Z) : Regs5 :=
  mkRegs5 (u32 (r5e r + (rol (r5a r) 5 + f + k + w))) (r5a r) (rol (r5b r) 30) (r5c r) (r5d r).

Definition sha1_f1 (b c d : Z) : Z := Z.lxor d (Z.land b (Z.lxor c d)).
Definition sha1_f2 (b c d : Z) : Z := Z.lxor (Z.lxor b c) d.
Definition sha1_f3 (b c d : Z) : Z := Z.lor (Z.land b c) (Z.land d (Z.lor b c)).

Definition sha1_left (x : Z) : Z := rol x 1.

Definition sha1_Initialize : Regs5 := mkRegs5 0x67452301 0xEFCDAB89 0x98BADCFE 0x10325476 0xC3D2E1F0.

Definition sha1_k1 : Z := 0x5A827999.
Definition sha1_k2 : Z := 0x6ED9EBA1.
Definition sha1_k3 : Z := 0x8F1BBCDC.
Definition sha1_k4 : Z := 0xCA62C1D6.

(** The function and the constant of the eighty rounds. *)
Definition sha1_schedule : list ((Z -> Z -> Z -> Z) * Z) :=
  replicate 20 (sha1_f1, sha1_k1) ++ replicate 20 (sha1_f2, sha1_k2) ++ replicate 20 (sha1_f3, sha1_k3) ++ replicate 20 (sha1_f2, sha1_k4).

(** The rounds: [w] is the window [w0 .. w15], oldest first.  The first sixteen
    rounds consume it as it is, each later one replaces the oldest word [w0] by
    [left(w0 ^ w13 ^ w8 ^ w2)]. *)
Fixpoint sha1_rounds (i : nat) (fks : list ((Z -> Z -> Z -> Z) * Z)) (w : list Z) (r : Regs5) : Regs5 :=
  match fks with
  | [] => r
  | (f, k) :: fks' =>
    match i with
    | S i' => sha1_rounds i' fks' (drop 1 w ++ take 1 w) (sha1_Round r (f (r5b r) (r5c r) (r5d r)) k (nth 0 w 0))
    | O =>
      let x := sha1_left (Z.lxor (Z.lxor (Z.lxor (nth 0 w 0) (nth 13 w 0)) (nth 8 w 0)) (nth 2 w 0)) in
      sha1_rounds O fks' (drop 1 w ++ [x]) (sha1_Round r (f (r5b r) (r5c r) (r5d r)) k x)
    end
  end.

(** [Transform(s, chunk)]. *)
Definition sha1_Transform (s : Regs5) (chunk : bytes) : Regs5 :=
  let r := sha1_rounds 16 sha1_schedule (words_of 16 chunk) s in
  mkRegs5 (u32 (r5a s + r5a r)) (u32 (r5b s + r5b r)) (u32 (r5c s + r5c r)) (u32 (r5d s + r5d r)) (u32 (r5e s + r5e r)).

(** * The streaming class *)

Definition CSHA1 : Type := Hasher Regs5.

Definition CSHA1_new : CSHA1 := hasher_new sha1_Initialize.

(** [CSHA1::Write]. *)
Definition CSHA1_Write : CSHA1 -> bytes -> CSHA1 := hasher_Write sha1_Transform.

(** [CSHA1::Finalize]. *)
Definition CSHA1_Finalize (h : CSHA1) : bytes := regs5_bytes be_bytes (h_s (hasher_Pad sha1_Transform be_bytes h)).

Definition SHA1 (data : bytes) : bytes := CSHA1_Finalize (CSHA1_Write CSHA1_new data).

Example sha1_abc : HexStr (SHA1 (string_bytes "abc")) = "a9993e364706816aba3e25717850c26c9cd0d89d".
Proof. vm_compute. reflexivity. Qed.

Example sha1_empty : HexStr (SHA1 []) = "da39a3ee5e6b4b0d3255bfef95601890afd80709".
Proof. vm_compute. reflexivity. Qed.

Definition sha1_reference (m : bytes) : bytes :=
  regs5_bytes be_bytes (padded_state sha1_Initialize sha1_Transform be_bytes m).

Lemma length_SHA1 data : length (SHA1 data) = 20%nat.
Proof. apply length_regs5_bytes, length_be_bytes. Qed.
