(* ===== verification/Ripemd160.v ===== *)
(** RIPEMD-160 (crypto/ripemd160.cpp) and the 160-bit hash of hash.h.  The
    compression runs two lines of 80 rounds over the same sixteen words; the
    source interleaves the calls of the two lines, which share no register, so
    the model runs one after the other, with the word and the rotation of each
    round in a table. *)

From stdpp Require Import list strings.
From Stdlib Require Import ZArith Lia.
From S2P Require Import Prelude Hasher Sha256 Sha1.

(** [~x] of a [uint32_t]. *)
Definition ripemd160_not32 (x : Z) : Z := u32 (Z.lnot x).

Definition ripemd160_f1 (x y z : Z) : Z := Z.lxor (Z.lxor x y) z.
Definition ripemd160_f2 (x y z : Z) : Z := Z.lor (Z.land x y) (Z.land (ripemd160_not32 x) z).
Definition ripemd160_f3 (x y z : Z) : Z := Z.lxor (Z.lor x (ripemd160_not32 y)) z.
Definition ripemd160_f4 (x y z : Z) : Z := Z.lor (Z.land x z) (Z.land y (ripemd160_not32 z)).
Definition ripemd160_f5 (x y z : Z) : Z := Z.lxor x (Z.lor y (ripemd160_not32 z)).

Definition ripemd160_Initialize : Regs5 := mkRegs5 0x67452301 0xEFCDAB89 0x98BADCFE 0x10325476 0xC3D2E1F0.

(** [Round]: it updates [a] and [c]; the next call names the registers shifted
    by one ([e] first). *)
Definition ripemd160_Round (r : Regs5) (f x k : Z) (rot : Z) : Regs5 :=
  let a := u32 (rol (u32 (r5a r + f + x + k)) rot + r5e r) in
  mkRegs5 (r5e r) a (r5b r) (rol (r5c r) 10) (r5d r).

(** The function and constant of the rounds R11 .. R51 and R12 .. R52. *)
Definition ripemd160_line1 : list ((Z -> Z -> Z -> Z) * Z) :=
  [(ripemd160_f1, 0); (ripemd160_f2, 0x5A827999); (ripemd160_f3, 0x6ED9EBA1); (ripemd160_f4, 0x8F1BBCDC); (ripemd160_f5, 0xA953FD4E)].
Definition ripemd160_line2 : list ((Z -> Z -> Z -> Z) * Z) :=
  [(ripemd160_f5, 0x50A28BE6); (ripemd160_f4, 0x5C4DD124); (ripemd160_f3, 0x6D703EF3); (ripemd160_f2, 0x7A6D76E9); (ripemd160_f1, 0)].

(** The word and the rotation of each round of the two lines. *)
Definition ripemd160_order1 : list (Z * Z) :=
  [
   (0, 11); (1, 14); (2, 15); (3, 12); (4, 5); (5, 8); (6, 7); (7, 9);
   (8, 11); (9, 13); (10, 14); (11, 15); (12, 6); (13, 7); (14, 9); (15, 8);
   (7, 7); (4, 6); (13, 8); (1, 13); (10, 11); (6, 9); (15, 7); (3, 15);
   (12, 7); (0, 12); (9, 15); (5, 9); (2, 11); (14, 7); (11, 13); (8, 12);
   (3, 11); (10, 13); (14, 6); (4, 7); (9, 14); (15, 9); (8, 13); (1, 15);
   (2, 14); (7, 8); (0, 13); (6, 6); (13, 5); (11, 12); (5, 7); (12, 5);
   (1, 11); (9, 12); (11, 14); (10, 15); (0, 14); (8, 15); (12, 9); (4, 8);
   (13, 9); (3, 14); (7, 5); (15, 6); (14, 8); (5, 6); (6, 5); (2, 12);
   (4, 9); (0, 15); (5, 5); (9, 11); (7, 6); (12, 8); (2, 13); (10, 12);
   (14, 5); (1, 12); (3, 13); (8, 14); (11, 11); (6, 8); (15, 5); (13, 6)].

Definition ripemd160_order2 : list (Z * Z) :=
  [
   (5, 8); (14, 9); (7, 9); (0, 11); (9, 13); (2, 15); (11, 15); (4, 5);
   (13, 7); (6, 7); (15, 8); (8, 11); (1, 14); (10, 14); (3, 12); (12, 6);
   (6, 9); (11, 13); (3, 15); (7, 7); (0, 12); (13, 8); (5, 9); (10, 11);
   (14, 7); (15, 7); (8, 12); (12, 7); (4, 6); (9, 15); (1, 13); (2, 11);
   (15, 9); (5, 7); (1, 15); (3, 11); (7, 8); (14, 6); (6, 6); (9, 14);
   (11, 12); (8, 13); (12, 5); (2, 14); (10, 13); (0, 13); (4, 7); (13, 5);
   (8, 15); (6, 5); (4, 8); (1, 11); (3, 14); (11, 14); (15, 6); (0, 14);
   (5, 6); (12, 9); (2, 12); (13, 9); (9, 12); (7, 5); (10, 15); (14, 8);
   (12, 8); (15, 5); (10, 12); (4, 9); (1, 12); (5, 5); (8, 14); (7, 6);
   (6, 8); (2, 13); (13, 6); (14, 5); (0, 15); (3, 13); (9, 11); (11, 11)].

(** The 80 rounds of a line: sixteen with each function. *)
Definition ripemd160_run_line (fks : list ((Z -> Z -> Z -> Z) * Z)) (order : list (Z * Z)) (w : list Z) (r : Regs5) : Regs5 :=
  foldl (fun r '((f, k), (i, rot)) => ripemd160_Round r (f (r5b r) (r5c r) (r5d r)) (nth (Z.to_nat i) w 0) k rot) r
        (zip (mjoin (replicate 16 <$> fks)) order).

(** The sixteen [ReadLE32(chunk + 4 i)]. *)
Fixpoint ripemd160_words_le (n : nat) (chunk : bytes) : list Z :=
  match n with
  | O => []
  | S n' => le_value (take 4 chunk) :: ripemd160_words_le n' (drop 4 chunk)
  end.

(** [Transform(s, chunk)]. *)
Definition ripemd160_Transform (s : Regs5) (chunk : bytes) : Regs5 :=
  let w := ripemd160_words_le 16 chunk in
  let r1 := ripemd160_run_line ripemd160_line1 ripemd160_order1 w s in
  let r2 := ripemd160_run_line ripemd160_line2 ripemd160_order2 w s in
  mkRegs5 (u32 (r5b s + r5c r1 + r5d r2)) (u32 (r5c s + r5d r1 + r5e r2)) (u32 (r5d s + r5e r1 + r5a r2))
          (u32 (r5e s + r5a r1 + r5b r2)) (u32 (r5a s + r5b r1 + r5c r2)).

(** * The streaming class *)

Definition CRIPEMD160 : Type := Hasher Regs5.

Definition CRIPEMD160_new : CRIPEMD160 := hasher_new ripemd160_Initialize.

(** [CRIPEMD160::Write]. *)
Definition CRIPEMD160_Write : CRIPEMD160 -> bytes -> CRIPEMD160 := hasher_Write ripemd160_Transform.

(** [CRIPEMD160::Finalize]. *)
Definition CRIPEMD160_Finalize (h : CRIPEMD160) : bytes := regs5_bytes le_bytes (h_s (hasher_Pad ripemd160_Transform le_bytes h)).

Definition RIPEMD160 (data : bytes) : bytes := CRIPEMD160_Finalize (CRIPEMD160_Write CRIPEMD160_new data).

(** [CHash160]: RIPEMD-160 of the SHA-256. *)
Definition Hash160 (data : bytes) : bytes := RIPEMD160 (SHA256 data).

Example ripemd160_abc : HexStr (RIPEMD160 (string_bytes "abc")) = "8eb208f7e05d987a9b044a8e98c6b087f15a0bfc".
Proof. vm_compute. reflexivity. Qed.

Example ripemd160_empty : HexStr (RIPEMD160 []) = "9c1185a5c5e9fc54612808977ee8f548b2258d31".
Proof. vm_compute. reflexivity. Qed.

Definition ripemd160_reference (m : bytes) : bytes :=
  regs5_bytes le_bytes (padded_state ripemd160_Initialize ripemd160_Transform le_bytes m).

Lemma length_RIPEMD160 data : length (RIPEMD160 data) = 20%nat.
Proof. apply length_regs5_bytes, length_le_bytes. Qed.

(** C37. However a message is split into [Write] calls, the streaming classes
    [CSHA256], [CSHA1] and [CRIPEMD160] compute the hash of its concatenation:
    buffering, direct processing of full chunks and the padding of [Finalize]
    together equal the reference definition (pad, then fold the compression
    over the 64-byte blocks). *)
Theorem hashers_stream_equiv (ds : list bytes) :
  8 * Z.of_nat (length (concat ds)) + 1024 < 2 ^ 64 ->
  CSHA256_Finalize (foldl CSHA256_Write CSHA256_new ds) = sha256_reference (concat ds) /\
  CSHA1_Finalize (foldl CSHA1_Write CSHA1_new ds) = sha1_reference (concat ds) /\
  CRIPEMD160_Finalize (foldl CRIPEMD160_Write CRIPEMD160_new ds) = ripemd160_reference (concat ds).
Proof.
  intros Hlen. split; [by apply sha256_stream|]. unfold CSHA1_Finalize, CRIPEMD160_Finalize, sha1_reference, ripemd160_reference. split.
  - f_equal. by apply stream_reference; [apply length_be_bytes|].
  - f_equal. by apply stream_reference; [apply length_le_bytes|].
Qed.

Lemma hashers_stream_equiv_witness :
  let ds := [string_bytes "a"; []; replicate 70 7; string_bytes "bc"] in
  CSHA256_Finalize (foldl CSHA256_Write CSHA256_new ds) = sha256_reference (concat ds) /\
  CSHA1_Finalize (foldl CSHA1_Write CSHA1_new ds) = sha1_reference (concat ds) /\
  CRIPEMD160_Finalize (foldl CRIPEMD160_Write CRIPEMD160_new ds) = ripemd160_reference (concat ds).
Proof. intros ds. apply (hashers_stream_equiv ds). vm_compute. reflexivity. Defined.
