(* ===== verification/Serialize.v ===== *)
(** Wire formats (serialize.h): fixed-width little-endian integers, compact
    sizes, strings and vectors.  A [Codec] holds the two directions of a
    format, [Serialize] and [Unserialize]; reading returns [None] where the
    source throws [std::ios_base::failure].  [Lawful] is the contract the
    transaction format relies on: what was written reads back, and leaves the
    rest of the stream untouched. *)

From stdpp Require Import list strings.
From Stdlib Require Import ZArith Lia.
From S2P Require Import Prelude Uint256.

Definition MAX_SIZE : Z := 0x02000000.

Record Codec (A : Type) := mkCodec {
  enc : A -> bytes;
  decode : bytes -> option (A * bytes);
  valid : A -> bool;
}.
Arguments mkCodec {A}. Arguments enc {A}. Arguments decode {A}. Arguments valid {A}.

Class Lawful {A : Type} (c : Codec A) : Prop :=
  lawful : forall x rest, valid c x = true -> decode c (enc c x ++ rest) = Some (x, rest).

(** [s.read(p, n)]: [n] bytes, or the stream's end-of-data failure. *)
Definition read_bytes (n : nat) (bs : bytes) : option (bytes * bytes) :=
  if (n <=? length bs)%nat then Some (take n bs, drop n bs) else None.

Lemma read_bytes_app xs rest : read_bytes (length xs) (xs ++ rest) = Some (xs, rest).
Proof.
  unfold read_bytes. rewrite length_app, (proj2 (Nat.leb_le _ _)) by lia.
  by rewrite take_app_length, drop_app_length.
Qed.

(** ** Integers *)

(** [uint8_t], [uint16_t], [uint32_t], [uint64_t]: [n] little-endian bytes. *)
Definition uint_codec (n : nat) : Codec Z := {|
  enc x := le_bytes n x;
  decode bs := '(b, rest) ← read_bytes n bs; Some (le_value b, rest);
  valid x := (0 <=? x) && (x <? 256 ^ Z.of_nat n);
|}.

(** [int8_t], [int64_t]: the two's complement of the value. *)
Definition int_codec (n : nat) : Codec Z := {|
  enc x := le_bytes n (x mod 256 ^ Z.of_nat n);
  decode bs :=
    '(b, rest) ← read_bytes n bs;
    let v := le_value b in
    Some (if v <? 256 ^ Z.of_nat n / 2 then v else v - 256 ^ Z.of_nat n, rest);
  valid x := (- (256 ^ Z.of_nat n / 2) <=? x) && (x <? 256 ^ Z.of_nat n / 2);
|}.

Definition u8_codec := uint_codec 1.
Definition u32_codec := uint_codec 4.
Definition u64_codec := uint_codec 8.
Definition uint256_codec := uint_codec 32.
Definition i8_codec := int_codec 1.
Definition i32_codec := int_codec 4.
Definition i64_codec := int_codec 8.

Lemma read_le_bytes n x rest :
  read_bytes n (le_bytes n x ++ rest) = Some (le_bytes n x, rest).
Proof.
  rewrite <- (read_bytes_app (le_bytes n x) rest). unfold le_bytes. by rewrite length_digits.
Qed.

Lemma uint_valid n x : valid (uint_codec n) x = true <-> 0 <= x < 256 ^ Z.of_nat n.
Proof. cbn [valid uint_codec]. rewrite andb_true_iff, Z.leb_le, Z.ltb_lt. done. Qed.

#[global] Instance uint_lawful n : Lawful (uint_codec n).
Proof.
  intros x rest Hx%uint_valid. cbn [enc decode uint_codec]. rewrite read_le_bytes.
  cbn [mbind option_bind]. unfold le_bytes, le_value. rewrite undigits_digits, Z.mod_small by lia. done.
Qed.

#[global] Instance int_lawful n : Lawful (int_codec (S n)).
Proof.
  intros x rest Hx. cbn [valid enc decode int_codec] in *. rewrite read_le_bytes.
  rewrite andb_true_iff, Z.leb_le, Z.ltb_lt in Hx.
  cbn [mbind option_bind]. cbv zeta.
  unfold le_bytes, le_value. rewrite undigits_digits by lia.
  remember (256 ^ Z.of_nat (S n)) as M eqn:EM.
  assert (HM : exists k, M = k * 2 /\ 0 < k).
  { exists (128 * 256 ^ Z.of_nat n). subst M. rewrite Nat2Z.inj_succ, Z.pow_succ_r by lia.
    pose proof (Z.pow_pos_nonneg 256 (Z.of_nat n)). lia. }
  destruct HM as (k & -> & Hk). rewrite Z.div_mul in Hx |- * by lia.
  rewrite Z.mod_mod by lia. destruct (Z.le_gt_cases 0 x).
  - rewrite Z.mod_small, (proj2 (Z.ltb_lt _ _)) by lia. done.
  - rewrite <- (Z.mod_unique x (k * 2) (-1) (x + k * 2)) by lia.
    rewrite (proj2 (Z.ltb_ge _ _)) by lia. do 2 f_equal. lia.
Qed.

(** ** Compact sizes *)

Definition WriteCompactSize (n : Z) : bytes :=
  if n <? 253 then le_bytes 1 n
  else if n <=? 0xFFFF then le_bytes 1 253 ++ le_bytes 2 n
  else if n <=? 0xFFFFFFFF then le_bytes 1 254 ++ le_bytes 4 n
  else le_bytes 1 255 ++ le_bytes 8 n.

(** The three escapes read a wider size and refuse a non-canonical one. *)
Definition read_wide (n : nat) (least : Z) (bs : bytes) : option (Z * bytes) :=
  '(v, rest) ← decode (uint_codec n) bs;
  if v <? least then None else Some (v, rest).

Definition ReadCompactSize (bs : bytes) : option (Z * bytes) :=
  '(ch, rest) ← decode u8_codec bs;
  '(n, rest') ←
    (if ch <? 253 then Some (ch, rest)
     else if ch =? 253 then read_wide 2 253 rest
     else if ch =? 254 then read_wide 4 0x10000 rest
     else read_wide 8 0x100000000 rest);
  if MAX_SIZE <? n then None else Some (n, rest').

Lemma decode_u8 b rest : 0 <= b < 256 -> decode u8_codec (le_bytes 1 b ++ rest) = Some (b, rest).
Proof. intros Hb. apply (uint_lawful 1), uint_valid. exact Hb. Qed.

Lemma read_wide_spec n least x rest :
  least <= x < 256 ^ Z.of_nat n -> 0 <= x ->
  read_wide n least (le_bytes n x ++ rest) = Some (x, rest).
Proof.
  intros Hx H0. unfold read_wide. change (le_bytes n x) with (enc (uint_codec n) x).
  rewrite (uint_lawful n x rest) by (apply uint_valid; lia). cbn [mbind option_bind].
  by rewrite (proj2 (Z.ltb_ge _ _)) by lia.
Qed.

(** Every size up to [MAX_SIZE] survives the round trip. *)
Lemma compact_size_roundtrip n rest :
  0 <= n <= MAX_SIZE -> ReadCompactSize (WriteCompactSize n ++ rest) = Some (n, rest).
Proof.
  intros Hn. unfold MAX_SIZE in Hn. unfold WriteCompactSize, ReadCompactSize.
  destruct (Z.ltb_spec n 253).
  { rewrite decode_u8 by lia. cbn [mbind option_bind].
    rewrite (proj2 (Z.ltb_lt n 253)) by lia. cbn [mbind option_bind].
    by rewrite (proj2 (Z.ltb_ge MAX_SIZE n)) by (unfold MAX_SIZE; lia). }
  destruct (Z.leb_spec n 0xFFFF).
  { rewrite <- app_assoc, decode_u8 by lia. cbn [mbind option_bind]. cbn [Z.ltb Z.eqb Z.compare Pos.compare Pos.compare_cont Pos.eqb].
    rewrite read_wide_spec by lia. cbn [mbind option_bind].
    by rewrite (proj2 (Z.ltb_ge MAX_SIZE n)) by (unfold MAX_SIZE; lia). }
  rewrite (proj2 (Z.leb_le n 0xFFFFFFFF)) by lia.
  rewrite <- app_assoc, decode_u8 by lia. cbn [mbind option_bind]. cbn [Z.ltb Z.eqb Z.compare Pos.compare Pos.compare_cont Pos.eqb].
  rewrite read_wide_spec by lia. cbn [mbind option_bind].
  by rewrite (proj2 (Z.ltb_ge MAX_SIZE n)) by (unfold MAX_SIZE; lia).
Qed.

(** ** Strings and vectors *)

Fixpoint bytes_string (bs : bytes) : string :=
  match bs with
  | [] => EmptyString
  | b :: bs' => String (Ascii.ascii_of_N (Z.to_N b)) (bytes_string bs')
  end.

Lemma bytes_string_bytes s : bytes_string (string_bytes s) = s.
Proof.
  induction s as [|c s IH]; [done|]. cbn [string_bytes bytes_string]. rewrite IH. f_equal.
  unfold byte_of_ascii. rewrite N2Z.id. apply Ascii.ascii_N_embedding.
Qed.

(** [std::vector<unsigned char>]: the size, then the bytes as one blob. *)
Definition vch_codec : Codec bytes := {|
  enc v := WriteCompactSize (Z.of_nat (length v)) ++ v;
  decode bs := '(n, rest) ← ReadCompactSize bs; read_bytes (Z.to_nat n) rest;
  valid v := Z.of_nat (length v) <=? MAX_SIZE;
|}.

#[global] Instance vch_lawful : Lawful vch_codec.
Proof.
  intros v rest Hv. cbn [valid enc decode vch_codec] in *. apply Z.leb_le in Hv.
  rewrite <- app_assoc, compact_size_roundtrip by lia. cbn [mbind option_bind].
  rewrite Nat2Z.id. apply read_bytes_app.
Qed.

(** [std::string]. *)
Definition string_codec : Codec string := {|
  enc s := enc vch_codec (string_bytes s);
  decode bs := '(v, rest) ← decode vch_codec bs; Some (bytes_string v, rest);
  valid s := Z.of_nat (length (string_bytes s)) <=? MAX_SIZE;
|}.

#[global] Instance string_lawful : Lawful string_codec.
Proof.
  intros s rest Hs. cbn [enc decode string_codec].
  rewrite (vch_lawful (string_bytes s) rest Hs). cbn [mbind option_bind]. by rewrite bytes_string_bytes.
Qed.

Fixpoint decode_many {A} (c : Codec A) (n : nat) (bs : bytes) : option (list A * bytes) :=
  match n with
  | O => Some ([], bs)
  | S n' =>
    '(x, rest) ← decode c bs;
    '(xs, rest') ← decode_many c n' rest;
    Some (x :: xs, rest')
  end.

(** [std::vector<T>]: the size, then the elements one by one. *)
Definition vector_codec {A} (c : Codec A) : Codec (list A) := {|
  enc v := WriteCompactSize (Z.of_nat (length v)) ++ concat (map (enc c) v);
  decode bs := '(n, rest) ← ReadCompactSize bs; decode_many c (Z.to_nat n) rest;
  valid v := (Z.of_nat (length v) <=? MAX_SIZE) && forallb (valid c) v;
|}.

Lemma decode_many_lawful {A} (c : Codec A) `{!Lawful c} v rest :
  forallb (valid c) v = true ->
  decode_many c (length v) (concat (map (enc c) v) ++ rest) = Some (v, rest).
Proof.
  induction v as [|x v IH]; [done|]. cbn [forallb length map concat decode_many].
  intros [Hx Hv]%andb_prop.
  rewrite <- app_assoc, lawful by done. cbn [mbind option_bind]. by rewrite IH.
Qed.

#[global] Instance vector_lawful {A} (c : Codec A) `{!Lawful c} : Lawful (vector_codec c).
Proof.
  intros v rest [Hlen%Z.leb_le Hv]%andb_prop. cbn [enc decode vector_codec].
  rewrite <- app_assoc, compact_size_roundtrip by lia. cbn [mbind option_bind].
  rewrite Nat2Z.id. by apply decode_many_lawful.
Qed.
