(* ===== verification/Transaction.v ===== *)
(** Transactions (primitives/transaction.h): outpoints, outputs and
    [CTransaction], with the wire format of the versions the node adds to the
    inherited ones: csnode transactions (5 and 6), application transactions (7)
    and inference transactions (8).

    Of the shielded data, [vJoinSplit], [vShieldedSpend] and [vShieldedOutput] are
    kept because their emptiness is a validity condition; their elements are
    opaque byte strings here.  [hash] is the cached hash member that [UpdateHash] fills in. *)

From stdpp Require Import list strings countable.
From Stdlib Require Import ZArith Lia.
From S2P Require Import Prelude Uint256 Sha256 Serialize.

(** * Outpoints and outputs *)

Record COutPoint := mkCOutPoint { op_hash : Z; op_n : Z }.

#[global] Instance COutPoint_eq_dec : EqDecision COutPoint.
Proof. solve_decision. Defined.

#[global] Instance COutPoint_countable : Countable COutPoint.
Proof.
  apply (inj_countable' (fun o => (op_hash o, op_n o)) (fun p => mkCOutPoint p.1 p.2)).
  by intros [].
Defined.

Definition COutPoint_null : COutPoint := mkCOutPoint 0 (2 ^ 32 - 1).
Definition COutPoint_IsNull (o : COutPoint) : bool :=
  uint256_IsNull (op_hash o) && (op_n o =? 2 ^ 32 - 1).

Record CTxIn := mkCTxIn { prevout : COutPoint; scriptSig : bytes; nSequence : Z }.
Record CTxOut := mkCTxOut { nValue : Z; scriptPubKey : bytes }.

#[global] Instance CTxOut_eq_dec : EqDecision CTxOut.
Proof. solve_decision. Defined.

(** [CTxOut::IsNull] and [SetNull]. *)
Definition CTxOut_IsNull (out : CTxOut) : bool := nValue out =? -1.
Definition CTxOut_null : CTxOut := mkCTxOut (-1) [].

(** * Constants *)

Definition OPOI_TX_VERSION : Z := 8.
Definition OPOI_REQUEST_TX_TYPE : Z := 1.
Definition OPOI_RESPONSE_TX_TYPE : Z := 2.
Definition OPOI_STAKE_TX_TYPE : Z := 3.
Definition OPOI_UNSTAKE_TX_TYPE : Z := 4.
Definition OPOI_CHALLENGE_TX_TYPE : Z := 5.
Definition OPOI_AUDITOR_VERIFY_TX_TYPE : Z := 6.
Definition OPOI_MODEL_REGISTER_TX_TYPE : Z := 7.
Definition OPOI_MODEL_VOTE_TX_TYPE : Z := 8.
Definition OPOI_COORDINATOR_CLAIM_TX_TYPE : Z := 9.
Definition OPOI_SHARD_RESULT_TX_TYPE : Z := 10.
Definition OPOI_RENEW_TX_TYPE : Z := 11.
Definition OPOI_TASK_OPEN : Z := 0.
Definition OPOI_TASK_VERIFIABLE : Z := 1.
Definition OPOI_AUDITOR_VERIFY_NO_SHARD : Z := 2 ^ 32 - 1.

(** Csnode transactions; [FLUXNODE_TX_TYPE_UPGRADED] is [1 << 7]. *)
Definition FLUXNODE_TX_VERSION : Z := 5.
Definition FLUXNODE_TX_UPGRADEABLE_VERSION : Z := 6.
Definition FLUXNODE_INTERNAL_NORMAL_TX_VERSION : Z := 1.
Definition FLUXNODE_INTERNAL_P2SH_TX_VERSION : Z := 2.
Definition FLUXNODE_NO_TYPE : Z := 1.
Definition FLUXNODE_START_TX_TYPE : Z := 2.
Definition FLUXNODE_CONFIRM_TX_TYPE : Z := 4.
Definition FLUXNODE_HAS_COLLATERAL : Z := 8.
Definition FLUXNODE_TX_TYPE_UPGRADED : Z := 128.

Definition CSAPP_TX_VERSION : Z := 7.
Definition CSAPP_REGISTER_TX_TYPE : Z := 1.
Definition CSAPP_UPDATE_TX_TYPE : Z := 2.
Definition CSAPP_STOP_TX_TYPE : Z := 3.

(** * CTransaction *)

Record CTransaction := mkCTransaction {
  hash : Z;
  fOverwintered : bool;
  nVersion : Z;
  vin : list CTxIn;
  vout : list CTxOut;
  vJoinSplit : list bytes;
  vShieldedSpend : list bytes;
  vShieldedOutput : list bytes;
  nType : Z;
  opoiRequestId : string;
  opoiRequester : string;
  opoiMinerAddress : string;
  opoiModel : string;
  opoiPromptHash : Z;
  opoiResponseHash : Z;
  opoiCommitment : Z;
  opoiMaxTokens : Z;
  opoiTokenCount : Z;
  opoiTaskType : Z;
  opoiTaskClass : Z;
  opoiPayment : Z;
  opoiFeePerToken : Z;
  opoiSigTime : Z;
  opoiSig : bytes;
  opoiVrfProof : bytes;
  opoiCollateralIn : COutPoint;
  opoiChallengePhase : Z;
  opoiCommitHash : bytes;
  opoiProofData : bytes;
  opoiChallengeNonce : bytes;
  opoiChallengerCollateralIn : COutPoint;
  opoiResponsePhase : Z;
  opoiResponseCommitHash : bytes;
  opoiResponseNonce : bytes;
  opoiVrfOutput : bytes;
  opoiModelId : string;
  opoiTier : Z;
  opoiPomRoot : Z;
  opoiHostedExpertIds : list Z;
  opoiEndpoint : string;
  opoiPromptTokenCount : Z;
  opoiIsCanary : Z;
  opoiTestSuite : Z;
  opoiAuditorAddress : string;
  opoiAuditorVerifyResult : Z;
  opoiAuditorCollateralIn : COutPoint;
  opoiModelArchType : Z;
  opoiModelTotalParams : Z;
  opoiModelActiveParamsPerToken : Z;
  opoiModelNumLayers : Z;
  opoiModelNumDenseShards : Z;
  opoiModelNumExperts : Z;
  opoiModelTopKExperts : Z;
  opoiModelExpertPomRoots : list Z;
  opoiModelMinRewardPerToken : Z;
  opoiModelTotalSizeBytes : Z;
  opoiModelVoteApprove : Z;
  opoiShardIndex : Z;
  nFluxTxVersion : Z;
  collateralIn : COutPoint;
  collateralPubkey : bytes;
  pubKey : bytes;
  sigTime : Z;
  sig : bytes;
  benchmarkTier : Z;
  benchmarkSigTime : Z;
  benchmarkSig : bytes;
  nUpdateType : Z;
  ip : string;
  P2SHRedeemScript : bytes;
  csappDeploymentId : string;
  csappOwner : string;
  csappSpecJson : string;
  csappIp : string;
  csappLockedAmount : Z;
  csappSig : bytes;
}.

#[global] Instance eta_CTransaction : Eta CTransaction := fun r =>
  mkCTransaction (hash r) (fOverwintered r) (nVersion r) (vin r) (vout r) (vJoinSplit r) (vShieldedSpend r) (vShieldedOutput r)
    (nType r) (opoiRequestId r) (opoiRequester r) (opoiMinerAddress r) (opoiModel r)
    (opoiPromptHash r) (opoiResponseHash r) (opoiCommitment r) (opoiMaxTokens r)
    (opoiTokenCount r) (opoiTaskType r) (opoiTaskClass r) (opoiPayment r) (opoiFeePerToken
    r) (opoiSigTime r) (opoiSig r) (opoiVrfProof r) (opoiCollateralIn r) (opoiChallengePhase
    r) (opoiCommitHash r) (opoiProofData r) (opoiChallengeNonce r)
    (opoiChallengerCollateralIn r) (opoiResponsePhase r) (opoiResponseCommitHash r)
    (opoiResponseNonce r) (opoiVrfOutput r) (opoiModelId r) (opoiTier r) (opoiPomRoot r)
    (opoiHostedExpertIds r) (opoiEndpoint r) (opoiPromptTokenCount r) (opoiIsCanary r)
    (opoiTestSuite r) (opoiAuditorAddress r) (opoiAuditorVerifyResult r)
    (opoiAuditorCollateralIn r) (opoiModelArchType r) (opoiModelTotalParams r)
    (opoiModelActiveParamsPerToken r) (opoiModelNumLayers r) (opoiModelNumDenseShards r)
    (opoiModelNumExperts r) (opoiModelTopKExperts r) (opoiModelExpertPomRoots r)
    (opoiModelMinRewardPerToken r) (opoiModelTotalSizeBytes r) (opoiModelVoteApprove r)
    (opoiShardIndex r) (nFluxTxVersion r) (collateralIn r) (collateralPubkey r) (pubKey r)
    (sigTime r) (sig r) (benchmarkTier r) (benchmarkSigTime r) (benchmarkSig r) (nUpdateType r)
    (ip r) (P2SHRedeemScript r) (csappDeploymentId r) (csappOwner r) (csappSpecJson r)
    (csappIp r) (csappLockedAmount r) (csappSig r).

(** [CTransaction()]: version 1, no csnode type, everything else empty. *)
Definition emptyTx : CTransaction := {|
  hash := 0;
  fOverwintered := false;
  nVersion := 1;
  vin := [];
  vout := [];
  vJoinSplit := [];
  vShieldedSpend := [];
  vShieldedOutput := [];
  nType := FLUXNODE_NO_TYPE;
  opoiRequestId := "";
  opoiRequester := "";
  opoiMinerAddress := "";
  opoiModel := "";
  opoiPromptHash := 0;
  opoiResponseHash := 0;
  opoiCommitment := 0;
  opoiMaxTokens := 0;
  opoiTokenCount := 0;
  opoiTaskType := 0;
  opoiTaskClass := 0;
  opoiPayment := 0;
  opoiFeePerToken := 0;
  opoiSigTime := 0;
  opoiSig := [];
  opoiVrfProof := [];
  opoiCollateralIn := COutPoint_null;
  opoiChallengePhase := 0;
  opoiCommitHash := [];
  opoiProofData := [];
  opoiChallengeNonce := [];
  opoiChallengerCollateralIn := COutPoint_null;
  opoiResponsePhase := 0;
  opoiResponseCommitHash := [];
  opoiResponseNonce := [];
  opoiVrfOutput := [];
  opoiModelId := "";
  opoiTier := 0;
  opoiPomRoot := 0;
  opoiHostedExpertIds := [];
  opoiEndpoint := "";
  opoiPromptTokenCount := 0;
  opoiIsCanary := 0;
  opoiTestSuite := 0;
  opoiAuditorAddress := "";
  opoiAuditorVerifyResult := 0;
  opoiAuditorCollateralIn := COutPoint_null;
  opoiModelArchType := 0;
  opoiModelTotalParams := 0;
  opoiModelActiveParamsPerToken := 0;
  opoiModelNumLayers := 0;
  opoiModelNumDenseShards := 0;
  opoiModelNumExperts := 0;
  opoiModelTopKExperts := 0;
  opoiModelExpertPomRoots := [];
  opoiModelMinRewardPerToken := 0;
  opoiModelTotalSizeBytes := 0;
  opoiModelVoteApprove := 0;
  opoiShardIndex := 0;
  nFluxTxVersion := 0;
  collateralIn := COutPoint_null;
  collateralPubkey := [];
  pubKey := [];
  sigTime := 0;
  sig := [];
  benchmarkTier := 0;
  benchmarkSigTime := 0;
  benchmarkSig := [];
  nUpdateType := 0;
  ip := "";
  P2SHRedeemScript := [];
  csappDeploymentId := "";
  csappOwner := "";
  csappSpecJson := "";
  csappIp := "";
  csappLockedAmount := 0;
  csappSig := [];
|}.

Definition IsFluxnodeTx (tx : CTransaction) : bool :=
  (nVersion tx =? FLUXNODE_TX_VERSION) || (nVersion tx =? FLUXNODE_TX_UPGRADEABLE_VERSION).
Definition IsFluxnodeUpgradeTx (tx : CTransaction) : bool := nVersion tx =? FLUXNODE_TX_UPGRADEABLE_VERSION.
Definition IsFluxnodeUpgradedNormalTx (tx : CTransaction) : bool :=
  IsFluxnodeUpgradeTx tx && (nFluxTxVersion tx =? FLUXNODE_INTERNAL_NORMAL_TX_VERSION).
Definition IsFluxnodeUpgradedP2SHTx (tx : CTransaction) : bool :=
  IsFluxnodeUpgradeTx tx && (nFluxTxVersion tx =? FLUXNODE_INTERNAL_P2SH_TX_VERSION).
Definition IsCSAppTx (tx : CTransaction) : bool := nVersion tx =? CSAPP_TX_VERSION.

Definition IsOPoITx (tx : CTransaction) : bool := nVersion tx =? OPOI_TX_VERSION.
Definition IsOPoIRequest (tx : CTransaction) : bool := IsOPoITx tx && (nType tx =? OPOI_REQUEST_TX_TYPE).
Definition IsOPoIResponse (tx : CTransaction) : bool := IsOPoITx tx && (nType tx =? OPOI_RESPONSE_TX_TYPE).

Definition IsCoinBase (tx : CTransaction) : bool :=
  match vin tx with [txin] => COutPoint_IsNull (prevout txin) | _ => false end.

Definition GetHash (tx : CTransaction) : Z := hash tx.

(** * The wire format

    [SerializationOp] of the source is one template run in both directions:
    each [READWRITE] writes a field or reads it back, and the conditions
    between them look at fields handled before.  A [Layout] is that template;
    [write] and [read] are its two instances. *)

Inductive Layout :=
  | Done
  | ReadWrite {A : Type} (c : Codec A) (get : CTransaction -> A)
      (put : A -> CTransaction -> CTransaction) (next : Layout)
  | IfElse (cond : CTransaction -> bool) (yes no : Layout) (next : Layout).

Fixpoint write (l : Layout) (tx : CTransaction) : bytes :=
  match l with
  | Done => []
  | ReadWrite c get _ next => enc c (get tx) ++ write next tx
  | IfElse cond yes no next => (if cond tx then write yes tx else write no tx) ++ write next tx
  end.

Fixpoint read (l : Layout) (tx : CTransaction) (bs : bytes) : option (CTransaction * bytes) :=
  match l with
  | Done => Some (tx, bs)
  | ReadWrite c _ put next => '(v, rest) ← decode c bs; read next (put v tx) rest
  | IfElse cond yes no next =>
    '(tx', rest) ← (if cond tx then read yes tx bs else read no tx bs);
    read next tx' rest
  end.

(** [l] followed by [next]. *)
Fixpoint seq_layout (l next : Layout) : Layout :=
  match l with
  | Done => next
  | ReadWrite c get put k => ReadWrite c get put (seq_layout k next)
  | IfElse cond yes no k => IfElse cond yes no (seq_layout k next)
  end.

Declare Scope layout_scope.
Delimit Scope layout_scope with layout.
Notation "'READWRITE' f 'as' c ; next" := (ReadWrite c f (fun v tx => tx <| f := v |>) next)
  (at level 10, f at level 9, c at level 9, next at level 200) : layout_scope.
Notation "'IF' cond 'THEN' yes 'END' ; next" := (IfElse cond yes Done next)
  (at level 10, cond at level 99, yes at level 200, next at level 200) : layout_scope.
Notation "'IF' cond 'THEN' yes 'ELSE' no" := (IfElse cond yes no Done)
  (at level 10, cond at level 99, yes at level 200, no at level 200) : layout_scope.

(** [READWRITE(hash); READWRITE(n)] of [COutPoint]. *)
Definition COutPoint_codec : Codec COutPoint := {|
  enc o := enc uint256_codec (op_hash o) ++ enc u32_codec (op_n o);
  decode bs :=
    '(h, rest) ← decode uint256_codec bs;
    '(n, rest') ← decode u32_codec rest;
    Some (mkCOutPoint h n, rest');
  valid o := valid uint256_codec (op_hash o) && valid u32_codec (op_n o);
|}.

#[global] Instance COutPoint_lawful : Lawful COutPoint_codec.
Proof.
  intros [h n] rest [Hh Hn]%andb_prop. cbn [enc decode COutPoint_codec op_hash op_n] in *.
  rewrite <- app_assoc, (uint_lawful 32 _ _ Hh). cbn [mbind option_bind].
  by rewrite (uint_lawful 4 _ _ Hn).
Qed.

(** [CPubKey::GetLen]: the length of a key by its first byte. *)
Definition GetLen (chHeader : Z) : Z :=
  if (chHeader =? 2) || (chHeader =? 3) then 33
  else if (chHeader =? 4) || (chHeader =? 6) || (chHeader =? 7) then 65
  else 0.

(** The bytes of a [CPubKey], [vch[0 .. size())]; an invalid key has none. *)
Definition CPubKey_of (vch : bytes) : bytes :=
  match vch with [] => [] | b :: _ => take (Z.to_nat (GetLen b)) vch end.

(** [CPubKey::Serialize] and [Unserialize].  A blob of more than 65 bytes is
    skipped; one shorter than its first byte announces leaves the end of the
    array uninitialised, which has no defined value: it does not read. *)
Definition CPubKey_codec : Codec bytes := {|
  enc key := WriteCompactSize (Z.of_nat (length key)) ++ key;
  decode bs :=
    '(n, rest) ← ReadCompactSize bs;
    '(vch, rest') ← read_bytes (Z.to_nat n) rest;
    if 65 <? n then Some ([], rest')
    else match vch with
    | [] => Some ([], rest')
    | b :: _ => if n <? GetLen b then None else Some (CPubKey_of vch, rest')
    end;
  valid key := match key with [] => true | b :: _ => (0 <? GetLen b) && (Z.of_nat (length key) =? GetLen b) end;
|}.

Lemma GetLen_range b : 0 <= GetLen b <= 65.
Proof. unfold GetLen. repeat case_match; lia. Qed.

#[global] Instance CPubKey_lawful : Lawful CPubKey_codec.
Proof.
  intros key rest Hk. cbn [valid enc decode CPubKey_codec] in *. destruct key as [|b key]; [done|].
  apply andb_prop in Hk as [_ Hl%Z.eqb_eq]. pose proof (GetLen_range b) as Hr.
  rewrite <- app_assoc, compact_size_roundtrip by (unfold MAX_SIZE; lia). cbn [mbind option_bind].
  rewrite Nat2Z.id, read_bytes_app. cbn [mbind option_bind].
  rewrite (proj2 (Z.ltb_ge _ _)), (proj2 (Z.ltb_ge _ _)) by lia. do 2 f_equal.
  unfold CPubKey_of. rewrite <- Hl, Nat2Z.id. apply firstn_all.
Qed.

Definition type_is (t : Z) (tx : CTransaction) : bool := nType tx =? t.

Open Scope layout_scope.

Definition request_layout : Layout :=
  READWRITE opoiRequestId as string_codec;
  READWRITE opoiRequester as string_codec;
  READWRITE opoiModel as string_codec;
  READWRITE opoiPromptHash as uint256_codec;
  READWRITE opoiMaxTokens as u32_codec;
  READWRITE opoiPayment as i64_codec;
  READWRITE opoiFeePerToken as i64_codec;
  READWRITE opoiTaskType as i8_codec;
  READWRITE opoiTaskClass as u8_codec;
  READWRITE opoiPromptTokenCount as u32_codec;
  READWRITE opoiIsCanary as u8_codec;
  IF (fun tx => opoiTaskType tx =? OPOI_TASK_VERIFIABLE) THEN
    READWRITE opoiTestSuite as uint256_codec; Done
  END; Done.

Definition response_layout (gethash : bool) : Layout :=
  READWRITE opoiRequestId as string_codec;
  READWRITE opoiMinerAddress as string_codec;
  READWRITE opoiResponsePhase as u8_codec;
  IF (fun tx => opoiResponsePhase tx =? 0) THEN
    READWRITE opoiResponseCommitHash as vch_codec; Done
  ELSE
    READWRITE opoiResponseHash as uint256_codec;
    READWRITE opoiCommitment as uint256_codec;
    READWRITE opoiTokenCount as u32_codec;
    READWRITE opoiResponseNonce as vch_codec;
    IF (fun _ => negb gethash) THEN
      READWRITE opoiVrfProof as vch_codec;
      READWRITE opoiVrfOutput as vch_codec; Done
    END; Done.

Definition stake_layout : Layout :=
  READWRITE opoiMinerAddress as string_codec;
  READWRITE opoiCollateralIn as COutPoint_codec;
  READWRITE opoiPayment as i64_codec;
  READWRITE opoiModelId as string_codec;
  READWRITE opoiTier as u8_codec;
  READWRITE opoiPomRoot as uint256_codec;
  READWRITE opoiHostedExpertIds as (vector_codec u32_codec);
  READWRITE opoiEndpoint as string_codec; Done.

Definition challenge_layout : Layout :=
  READWRITE opoiRequestId as string_codec;
  READWRITE opoiRequester as string_codec;
  READWRITE opoiResponseHash as uint256_codec;
  READWRITE opoiChallengePhase as u8_codec;
  READWRITE opoiChallengerCollateralIn as COutPoint_codec;
  IF (fun tx => opoiChallengePhase tx =? 0) THEN
    READWRITE opoiCommitHash as vch_codec; Done
  ELSE
    READWRITE opoiProofData as vch_codec;
    READWRITE opoiChallengeNonce as vch_codec; Done.

Definition auditor_layout : Layout :=
  READWRITE opoiRequestId as string_codec;
  READWRITE opoiAuditorAddress as string_codec;
  READWRITE opoiAuditorVerifyResult as u8_codec;
  READWRITE opoiAuditorCollateralIn as COutPoint_codec;
  READWRITE opoiShardIndex as u32_codec; Done.

Definition model_register_layout : Layout :=
  READWRITE opoiModelId as string_codec;
  READWRITE opoiRequester as string_codec;
  READWRITE opoiModelArchType as u8_codec;
  READWRITE opoiModelTotalParams as u64_codec;
  READWRITE opoiModelActiveParamsPerToken as u64_codec;
  READWRITE opoiModelNumLayers as u32_codec;
  READWRITE opoiModelNumDenseShards as u32_codec;
  READWRITE opoiModelNumExperts as u32_codec;
  READWRITE opoiModelTopKExperts as u32_codec;
  READWRITE opoiPomRoot as uint256_codec;
  READWRITE opoiModelExpertPomRoots as (vector_codec uint256_codec);
  READWRITE opoiModelMinRewardPerToken as i64_codec;
  READWRITE opoiModelTotalSizeBytes as u64_codec; Done.

Definition model_vote_layout : Layout :=
  READWRITE opoiModelId as string_codec;
  READWRITE opoiRequester as string_codec;
  READWRITE opoiModelVoteApprove as u8_codec; Done.

Definition coordinator_layout (gethash : bool) : Layout :=
  READWRITE opoiRequestId as string_codec;
  READWRITE opoiMinerAddress as string_codec;
  IF (fun _ => negb gethash) THEN READWRITE opoiVrfProof as vch_codec; Done END; Done.

Definition shard_result_layout (gethash : bool) : Layout :=
  READWRITE opoiRequestId as string_codec;
  READWRITE opoiShardIndex as u32_codec;
  READWRITE opoiMinerAddress as string_codec;
  READWRITE opoiResponseHash as uint256_codec;
  READWRITE opoiCommitment as uint256_codec;
  READWRITE opoiTokenCount as u32_codec;
  IF (fun _ => negb gethash) THEN READWRITE opoiVrfProof as vch_codec; Done END; Done.

Definition miner_only_layout : Layout := READWRITE opoiMinerAddress as string_codec; Done.

(** The chain of branches on [nType]. *)
Definition opoi_body (gethash : bool) : Layout :=
  IF (type_is OPOI_REQUEST_TX_TYPE) THEN request_layout ELSE
  IF (type_is OPOI_RESPONSE_TX_TYPE) THEN response_layout gethash ELSE
  IF (type_is OPOI_STAKE_TX_TYPE) THEN stake_layout ELSE
  IF (type_is OPOI_UNSTAKE_TX_TYPE) THEN miner_only_layout ELSE
  IF (type_is OPOI_CHALLENGE_TX_TYPE) THEN challenge_layout ELSE
  IF (type_is OPOI_AUDITOR_VERIFY_TX_TYPE) THEN auditor_layout ELSE
  IF (type_is OPOI_MODEL_REGISTER_TX_TYPE) THEN model_register_layout ELSE
  IF (type_is OPOI_MODEL_VOTE_TX_TYPE) THEN model_vote_layout ELSE
  IF (type_is OPOI_COORDINATOR_CLAIM_TX_TYPE) THEN coordinator_layout gethash ELSE
  IF (type_is OPOI_SHARD_RESULT_TX_TYPE) THEN shard_result_layout gethash ELSE
  IF (type_is OPOI_RENEW_TX_TYPE) THEN miner_only_layout ELSE Done.

(** The branch of [SerializationOp] for [nVersion == OPOI_TX_VERSION];
    [gethash] is [s.GetType() & SER_GETHASH]. *)
Definition opoi_layout (gethash : bool) : Layout :=
  READWRITE nType as i8_codec;
  READWRITE opoiSigTime as u32_codec;
  seq_layout (opoi_body gethash)
    (IF (fun _ => negb gethash) THEN READWRITE opoiSig as vch_codec; Done END; Done).

(** What both csnode versions read of a confirmation. *)
Definition confirm_layout (gethash : bool) : Layout :=
  READWRITE collateralIn as COutPoint_codec;
  READWRITE sigTime as u32_codec;
  READWRITE benchmarkTier as i8_codec;
  READWRITE benchmarkSigTime as u32_codec;
  READWRITE nUpdateType as i8_codec;
  READWRITE ip as string_codec;
  IF (fun _ => negb gethash) THEN
    READWRITE sig as vch_codec;
    READWRITE benchmarkSig as vch_codec; Done
  END; Done.

(** A start paid to a key, and one paid to a script. *)
Definition start_layout (gethash : bool) : Layout :=
  READWRITE collateralIn as COutPoint_codec;
  READWRITE collateralPubkey as CPubKey_codec;
  READWRITE pubKey as CPubKey_codec;
  READWRITE sigTime as u32_codec;
  IF (fun _ => negb gethash) THEN READWRITE sig as vch_codec; Done END; Done.

Definition p2sh_start_layout (gethash : bool) : Layout :=
  READWRITE collateralIn as COutPoint_codec;
  READWRITE pubKey as CPubKey_codec;
  READWRITE P2SHRedeemScript as vch_codec;
  READWRITE sigTime as u32_codec;
  IF (fun _ => negb gethash) THEN READWRITE sig as vch_codec; Done END; Done.

(** The branch for [FLUXNODE_TX_VERSION]. *)
Definition fluxnode_layout (gethash : bool) : Layout :=
  READWRITE nType as i8_codec;
  IF (type_is FLUXNODE_START_TX_TYPE) THEN start_layout gethash ELSE
  IF (type_is FLUXNODE_CONFIRM_TX_TYPE) THEN confirm_layout gethash ELSE Done.

(** The branch for [FLUXNODE_TX_UPGRADEABLE_VERSION]. *)
Definition fluxnode_upgrade_layout (gethash : bool) : Layout :=
  READWRITE nType as i8_codec;
  IF (type_is FLUXNODE_START_TX_TYPE) THEN
    READWRITE nFluxTxVersion as i32_codec;
    IF (fun tx => nFluxTxVersion tx =? FLUXNODE_INTERNAL_NORMAL_TX_VERSION) THEN start_layout gethash ELSE
    IF (fun tx => nFluxTxVersion tx =? FLUXNODE_INTERNAL_P2SH_TX_VERSION) THEN p2sh_start_layout gethash ELSE Done
  ELSE IF (type_is FLUXNODE_CONFIRM_TX_TYPE) THEN confirm_layout gethash ELSE Done.

(** The branch for [CSAPP_TX_VERSION]. *)
Definition csapp_layout (gethash : bool) : Layout :=
  READWRITE nType as i8_codec;
  READWRITE csappDeploymentId as string_codec;
  READWRITE csappOwner as string_codec;
  seq_layout
    (IF (type_is CSAPP_REGISTER_TX_TYPE) THEN
       READWRITE csappSpecJson as string_codec;
       READWRITE csappIp as string_codec;
       READWRITE csappLockedAmount as i64_codec; Done
     ELSE IF (type_is CSAPP_UPDATE_TX_TYPE) THEN READWRITE csappSpecJson as string_codec; Done ELSE Done)
    (IF (fun _ => negb gethash) THEN READWRITE csappSig as vch_codec; Done END; Done).

(** The branch taken for a version; [None] for the inherited formats. *)
Definition version_layout (gethash : bool) (version : Z) : option Layout :=
  if version =? FLUXNODE_TX_VERSION then Some (fluxnode_layout gethash)
  else if version =? FLUXNODE_TX_UPGRADEABLE_VERSION then Some (fluxnode_upgrade_layout gethash)
  else if version =? CSAPP_TX_VERSION then Some (csapp_layout gethash)
  else if version =? OPOI_TX_VERSION then Some (opoi_layout gethash)
  else None.

Close Scope layout_scope.

Definition GetHeader (tx : CTransaction) : Z :=
  if fOverwintered tx then Z.lor (u32 (nVersion tx)) (2 ^ 31) else u32 (nVersion tx).

(** [SerializationOp] on a version 5 to 8 transaction, writing. *)
Definition SerializeTx (gethash : bool) (tx : CTransaction) : bytes :=
  enc u32_codec (GetHeader tx) ++ write (default Done (version_layout gethash (nVersion tx))) tx.

(** [UpdateHash]: the double SHA-256 of the [SER_GETHASH] serialization. *)
Definition UpdateHash (tx : CTransaction) : CTransaction :=
  tx <| hash := le_value (Hash256 (SerializeTx true tx)) |>.

(** [SerializationOp], reading.  [TxThrow] is the thrown failure (an
    overwintered header is only known for versions 3 and 4); [TxOther] is a
    header that announces one of the inherited formats. *)
Inductive ReadTx :=
  | TxRead (tx : CTransaction) (rest : bytes)
  | TxOther
  | TxThrow.

Definition UnserializeTx (bs : bytes) : ReadTx :=
  match decode u32_codec bs with
  | None => TxThrow
  | Some (header, rest) =>
    let over := negb (Z.shiftr header 31 =? 0) in
    let version := Z.land header 0x7FFFFFFF in
    match version_layout false version with
    | None => TxOther
    | Some layout =>
      if over then TxThrow
      else
        match read layout (emptyTx <| nVersion := version |>) rest with
        | None => TxThrow
        | Some (tx, rest') => TxRead (UpdateHash tx) rest'
        end
    end
  end.

(** * Round trip *)

(** The fields [l] handles, copied from [src] to [dst]. *)
Fixpoint copy (l : Layout) (src dst : CTransaction) : CTransaction :=
  match l with
  | Done => dst
  | ReadWrite c get put next => copy next src (put (get src) dst)
  | IfElse cond yes no next => copy next src (if cond src then copy yes src dst else copy no src dst)
  end.

(** Every field [l] writes for [src] is in the range of its wire type. *)
Fixpoint layout_valid (l : Layout) (src : CTransaction) : bool :=
  match l with
  | Done => true
  | ReadWrite c get _ next => valid c (get src) && layout_valid next src
  | IfElse cond yes no next =>
    (if cond src then layout_valid yes src else layout_valid no src) && layout_valid next src
  end.

(** Each condition, evaluated while reading into [dst], sees what it saw
    while writing [src], and every codec is lawful. *)
Fixpoint conds_agree (l : Layout) (src dst : CTransaction) : Prop :=
  match l with
  | Done => True
  | ReadWrite c get put next => Lawful c /\ conds_agree next src (put (get src) dst)
  | IfElse cond yes no next =>
    cond dst = cond src /\
    (if cond src then conds_agree yes src dst else conds_agree no src dst) /\
    conds_agree next src (if cond src then copy yes src dst else copy no src dst)
  end.

Lemma read_write l src dst rest :
  layout_valid l src = true -> conds_agree l src dst ->
  read l dst (write l src ++ rest) = Some (copy l src dst, rest).
Proof.
  revert dst rest. induction l as [|A c get put next IH|cond yes IHy no IHn next IH];
    intros dst rest Hv Hc; cbn [read write copy layout_valid conds_agree] in *.
  - done.
  - apply andb_prop in Hv as [Hv Hv']. destruct Hc as [Hl Hc]. rewrite <- app_assoc, lawful by done.
    cbn [mbind option_bind]. by apply IH.
  - apply andb_prop in Hv as [Hv Hv']. destruct Hc as (He & Hc & Hc'). rewrite He, <- app_assoc.
    destruct (cond src); [rewrite IHy by done|rewrite IHn by done]; by apply IH.
Qed.

(** Walks a layout: codecs are lawful by instance search, conditions hold by
    computation, branches are followed on both sides. *)
Ltac solve_agree :=
  unfold start_layout, p2sh_start_layout, confirm_layout, type_is,
    request_layout, response_layout, stake_layout, miner_only_layout, challenge_layout,
    auditor_layout, model_register_layout, model_vote_layout, coordinator_layout,
    shard_result_layout;
  cbn [conds_agree seq_layout];
  repeat match goal with
  | |- True => exact I
  | |- Lawful _ => apply _
  | |- _ /\ _ => split
  | |- (_ = _) => reflexivity
  | |- (if ?b then _ else _) => destruct b; cbn [conds_agree seq_layout]
  end.

Lemma body_conds_agree g src dst : nType dst = nType src -> conds_agree (opoi_body g) src dst.
Proof.
  intros Ht. unfold opoi_body, type_is. cbn [conds_agree].
  repeat (split; [by rewrite Ht|]; split; [|exact I]; destruct (nType src =? _)); try exact I.
  all: solve_agree.
Qed.

Lemma conds_agree_seq l next src dst :
  conds_agree l src dst -> (forall dst', conds_agree next src dst') ->
  conds_agree (seq_layout l next) src dst.
Proof.
  intros Hl Hn. revert dst Hl.
  induction l as [|A c get put k IH|cond yes IHy no IHn k IH]; intros dst Hl;
    cbn [seq_layout conds_agree] in *; [apply Hn| |].
  - destruct Hl. auto.
  - destruct Hl as (? & ? & ?). auto.
Qed.

Lemma opoi_conds_agree g src dst : conds_agree (opoi_layout g) src dst.
Proof.
  unfold opoi_layout. cbn [conds_agree]. do 2 (split; [apply _|]).
  apply conds_agree_seq; [by apply body_conds_agree|].
  intros dst'. destruct g; solve_agree.
Qed.

Lemma version_conds_agree g version l src dst : version_layout g version = Some l -> conds_agree l src dst.
Proof.
  unfold version_layout. intros Hl. repeat case_match; simplify_eq; [..|apply opoi_conds_agree].
  - unfold fluxnode_layout, type_is. solve_agree.
  - unfold fluxnode_upgrade_layout, type_is. solve_agree.
  - unfold csapp_layout, type_is. solve_agree.
Qed.

(** A transaction that can have come off the wire: one of the four versions,
    every field of its format in range, nothing outside its format set, the
    cached hash up to date. *)
Definition wire_tx (tx : CTransaction) : Prop :=
  exists l, version_layout false (nVersion tx) = Some l /\ fOverwintered tx = false /\
    layout_valid l tx = true /\ tx = UpdateHash (copy l tx (emptyTx <| nVersion := nVersion tx |>)).

Lemma version_layout_range g version l : version_layout g version = Some l -> 5 <= version <= 8.
Proof.
  unfold version_layout, FLUXNODE_TX_VERSION, FLUXNODE_TX_UPGRADEABLE_VERSION, CSAPP_TX_VERSION, OPOI_TX_VERSION.
  intros Hl.
  repeat (match type of Hl with (if ?v =? ?k then _ else _) = _ => destruct (Z.eqb_spec v k); [lia|] end).
  discriminate Hl.
Qed.

Lemma header_version version rest :
  5 <= version <= 8 ->
  decode u32_codec (enc u32_codec version ++ rest) = Some (version, rest) /\
  Z.shiftr version 31 = 0 /\ Z.land version 0x7FFFFFFF = version.
Proof.
  intros Hv. split; [apply (uint_lawful 4), uint_valid; cbn; lia|].
  assert (Hc : version = 5 \/ version = 6 \/ version = 7 \/ version = 8) by lia.
  by destruct Hc as [->|[->|[->| ->]]].
Qed.

(** Such a transaction reads back as it was written. *)
Lemma wire_roundtrip (tx : CTransaction) (rest : bytes) :
  wire_tx tx -> UnserializeTx (SerializeTx false tx ++ rest) = TxRead tx rest.
Proof.
  intros (l & Hl & Ho & Hv & Hx). pose proof (version_layout_range _ _ _ Hl) as Hr.
  unfold UnserializeTx, SerializeTx, GetHeader. rewrite Ho, u32_small by (unfold in_u32; lia).
  rewrite <- app_assoc. destruct (header_version (nVersion tx) (write (default Done (version_layout false (nVersion tx))) tx ++ rest) Hr)
    as (-> & Hs & Hn). rewrite Hs, Hn, Hl. cbn [default negb Z.eqb].
  rewrite read_write by (try done; by eapply version_conds_agree). f_equal. by symmetry.
Qed.

Lemma write_seq l next tx : write (seq_layout l next) tx = write l tx ++ write next tx.
Proof.
  induction l as [|A c get put k IH|cond yes IHy no IHn k IH]; cbn [seq_layout write]; [done| |];
    by rewrite IH, app_assoc.
Qed.

Lemma gethash_ignores_signatures tx s bs a o proof output :
  SerializeTx true (tx <| sig := s |> <| benchmarkSig := bs |> <| csappSig := a |> <| opoiSig := o |>
    <| opoiVrfProof := proof |> <| opoiVrfOutput := output |>) = SerializeTx true tx.
Proof.
  set (tx' := tx <| sig := _ |> <| benchmarkSig := _ |> <| csappSig := _ |> <| opoiSig := _ |>
    <| opoiVrfProof := _ |> <| opoiVrfOutput := _ |>).
  assert (Hl : forall l, version_layout true (nVersion tx) = Some l -> write l tx' = write l tx).
  { intros l Hl. unfold version_layout in Hl. repeat case_match; simplify_eq; reflexivity. }
  unfold SerializeTx. change (GetHeader tx') with (GetHeader tx). change (nVersion tx') with (nVersion tx).
  f_equal. destruct (version_layout true (nVersion tx)); [by apply Hl|done].
Qed.

Lemma hash_UpdateHash tx : hash (UpdateHash tx) = le_value (Hash256 (SerializeTx true tx)).
Proof. unfold UpdateHash. generalize (le_value (Hash256 (SerializeTx true tx))). reflexivity. Qed.

(** The transaction hash leaves the signatures and the VRF proof and output
    out: replacing them does not change the identifier, whatever the kind of
    transaction. *)
Theorem hash_ignores_signatures (tx : CTransaction) (s bs a o proof output : bytes) :
  hash (UpdateHash (tx <| sig := s |> <| benchmarkSig := bs |> <| csappSig := a |> <| opoiSig := o |>
    <| opoiVrfProof := proof |> <| opoiVrfOutput := output |>)) = hash (UpdateHash tx).
Proof. by rewrite !hash_UpdateHash, gethash_ignores_signatures. Qed.
