(* ===== verification/TxMessages.v ===== *)
(** What transactions say: the contents of every kind of csnode, csapp and
    inference transaction, as the fields of primitives/transaction.h are
    documented, independently of the order and the branches in which
    [SerializationOp] handles them.  Any such message, written and read back,
    arrives unchanged: no field of a kind is forgotten, cut or mistaken for
    another. *)

From stdpp Require Import list strings.
From Stdlib Require Import ZArith Lia.
From S2P Require Import Prelude Serialize Transaction.

(** * Messages *)

(** The inference messages.  A response and a challenge first commit to what
    they reveal later; the test suite belongs to verifiable requests. *)
Inductive InferenceMessage :=
  | MRequest (requestId requester model : string) (promptHash maxTokens payment feePerToken taskType taskClass : Z)
      (promptTokenCount isCanary testSuite : Z)
  | MResponseCommit (requestId miner : string) (commitHash : bytes)
  | MResponseReveal (requestId miner : string) (phase responseHash commitment tokenCount : Z) (nonce vrfProof vrfOutput : bytes)
  | MStake (miner : string) (collateral : COutPoint) (amount : Z) (modelId : string) (tier pomRoot : Z) (experts : list Z)
      (endpoint : string)
  | MUnstake (miner : string)
  | MRenew (miner : string)
  | MChallengeCommit (requestId challenger : string) (responseHash : Z) (collateral : COutPoint) (commitHash : bytes)
  | MChallengeReveal (requestId challenger : string) (responseHash phase : Z) (collateral : COutPoint) (proofData nonce : bytes)
  | MAuditorVerify (requestId auditor : string) (result : Z) (collateral : COutPoint) (shardIndex : Z)
  | MModelRegister (modelId proposer : string) (archType totalParams activeParams numLayers numDenseShards numExperts topK : Z)
      (pomRoot : Z) (expertRoots : list Z) (minReward totalSize : Z)
  | MModelVote (modelId voter : string) (approve : Z)
  | MCoordinatorClaim (requestId claimant : string) (vrfProof : bytes)
  | MShardResult (requestId : string) (shardIndex : Z) (miner : string) (boundaryHash routerHash tokenCount : Z) (vrfProof : bytes).

Inductive Message :=
  | Inference (sigTime : Z) (sig : bytes) (m : InferenceMessage)
  | StartNode (upgradeable : bool) (collateral : COutPoint) (collateralKey nodeKey : bytes) (sigTime : Z) (sig : bytes)
  | StartP2SHNode (collateral : COutPoint) (nodeKey redeemScript : bytes) (sigTime : Z) (sig : bytes)
  | ConfirmNode (upgradeable : bool) (collateral : COutPoint) (sigTime tier benchmarkTime updateType : Z) (ip : string)
      (sig benchmarkSig : bytes)
  | RegisterApp (deploymentId owner specJson ip : string) (lockedAmount : Z) (sig : bytes)
  | UpdateApp (deploymentId owner specJson : string) (sig : bytes)
  | StopApp (deploymentId owner : string) (sig : bytes).

(** * The transaction of a message

    Every field that is not named keeps the value of the empty transaction. *)

Definition inference_fields (m : InferenceMessage) (tx : CTransaction) : CTransaction :=
  match m with
  | MRequest requestId requester model promptHash maxTokens payment feePerToken taskType taskClass promptTokenCount isCanary testSuite =>
    tx <| nType := OPOI_REQUEST_TX_TYPE |> <| opoiRequestId := requestId |> <| opoiRequester := requester |> <| opoiModel := model |>
       <| opoiPromptHash := promptHash |> <| opoiMaxTokens := maxTokens |> <| opoiPayment := payment |>
       <| opoiFeePerToken := feePerToken |> <| opoiTaskType := taskType |> <| opoiTaskClass := taskClass |>
       <| opoiPromptTokenCount := promptTokenCount |> <| opoiIsCanary := isCanary |> <| opoiTestSuite := testSuite |>
  | MResponseCommit requestId miner commitHash =>
    tx <| nType := OPOI_RESPONSE_TX_TYPE |> <| opoiRequestId := requestId |> <| opoiMinerAddress := miner |>
       <| opoiResponseCommitHash := commitHash |>
  | MResponseReveal requestId miner phase responseHash commitment tokenCount nonce vrfProof vrfOutput =>
    tx <| nType := OPOI_RESPONSE_TX_TYPE |> <| opoiRequestId := requestId |> <| opoiMinerAddress := miner |>
       <| opoiResponsePhase := phase |> <| opoiResponseHash := responseHash |> <| opoiCommitment := commitment |>
       <| opoiTokenCount := tokenCount |> <| opoiResponseNonce := nonce |> <| opoiVrfProof := vrfProof |>
       <| opoiVrfOutput := vrfOutput |>
  | MStake miner collateral amount modelId tier pomRoot experts endpoint =>
    tx <| nType := OPOI_STAKE_TX_TYPE |> <| opoiMinerAddress := miner |> <| opoiCollateralIn := collateral |>
       <| opoiPayment := amount |> <| opoiModelId := modelId |> <| opoiTier := tier |> <| opoiPomRoot := pomRoot |>
       <| opoiHostedExpertIds := experts |> <| opoiEndpoint := endpoint |>
  | MUnstake miner => tx <| nType := OPOI_UNSTAKE_TX_TYPE |> <| opoiMinerAddress := miner |>
  | MRenew miner => tx <| nType := OPOI_RENEW_TX_TYPE |> <| opoiMinerAddress := miner |>
  | MChallengeCommit requestId challenger responseHash collateral commitHash =>
    tx <| nType := OPOI_CHALLENGE_TX_TYPE |> <| opoiRequestId := requestId |> <| opoiRequester := challenger |>
       <| opoiResponseHash := responseHash |> <| opoiChallengerCollateralIn := collateral |> <| opoiCommitHash := commitHash |>
  | MChallengeReveal requestId challenger responseHash phase collateral proofData nonce =>
    tx <| nType := OPOI_CHALLENGE_TX_TYPE |> <| opoiRequestId := requestId |> <| opoiRequester := challenger |>
       <| opoiResponseHash := responseHash |> <| opoiChallengePhase := phase |> <| opoiChallengerCollateralIn := collateral |>
       <| opoiProofData := proofData |> <| opoiChallengeNonce := nonce |>
  | MAuditorVerify requestId auditor result collateral shardIndex =>
    tx <| nType := OPOI_AUDITOR_VERIFY_TX_TYPE |> <| opoiRequestId := requestId |> <| opoiAuditorAddress := auditor |>
       <| opoiAuditorVerifyResult := result |> <| opoiAuditorCollateralIn := collateral |> <| opoiShardIndex := shardIndex |>
  | MModelRegister modelId proposer archType totalParams activeParams numLayers numDenseShards numExperts topK pomRoot expertRoots
      minReward totalSize =>
    tx <| nType := OPOI_MODEL_REGISTER_TX_TYPE |> <| opoiModelId := modelId |> <| opoiRequester := proposer |>
       <| opoiModelArchType := archType |> <| opoiModelTotalParams := totalParams |> <| opoiModelActiveParamsPerToken := activeParams |>
       <| opoiModelNumLayers := numLayers |> <| opoiModelNumDenseShards := numDenseShards |> <| opoiModelNumExperts := numExperts |>
       <| opoiModelTopKExperts := topK |> <| opoiPomRoot := pomRoot |> <| opoiModelExpertPomRoots := expertRoots |>
       <| opoiModelMinRewardPerToken := minReward |> <| opoiModelTotalSizeBytes := totalSize |>
  | MModelVote modelId voter approve =>
    tx <| nType := OPOI_MODEL_VOTE_TX_TYPE |> <| opoiModelId := modelId |> <| opoiRequester := voter |>
       <| opoiModelVoteApprove := approve |>
  | MCoordinatorClaim requestId claimant vrfProof =>
    tx <| nType := OPOI_COORDINATOR_CLAIM_TX_TYPE |> <| opoiRequestId := requestId |> <| opoiMinerAddress := claimant |>
       <| opoiVrfProof := vrfProof |>
  | MShardResult requestId shardIndex miner boundaryHash routerHash tokenCount vrfProof =>
    tx <| nType := OPOI_SHARD_RESULT_TX_TYPE |> <| opoiRequestId := requestId |> <| opoiShardIndex := shardIndex |>
       <| opoiMinerAddress := miner |> <| opoiResponseHash := boundaryHash |> <| opoiCommitment := routerHash |>
       <| opoiTokenCount := tokenCount |> <| opoiVrfProof := vrfProof |>
  end.

Definition node_version (upgradeable : bool) : Z := if upgradeable then FLUXNODE_TX_UPGRADEABLE_VERSION else FLUXNODE_TX_VERSION.

Definition message_fields (m : Message) : CTransaction :=
  match m with
  | Inference time s m' => inference_fields m' (emptyTx <| nVersion := OPOI_TX_VERSION |> <| opoiSigTime := time |> <| opoiSig := s |>)
  | StartNode upgradeable collateral collateralKey nodeKey time s =>
    emptyTx <| nVersion := node_version upgradeable |> <| nType := FLUXNODE_START_TX_TYPE |>
      <| nFluxTxVersion := if upgradeable then FLUXNODE_INTERNAL_NORMAL_TX_VERSION else 0 |> <| collateralIn := collateral |>
      <| collateralPubkey := collateralKey |> <| pubKey := nodeKey |> <| sigTime := time |> <| sig := s |>
  | StartP2SHNode collateral nodeKey redeemScript time s =>
    emptyTx <| nVersion := FLUXNODE_TX_UPGRADEABLE_VERSION |> <| nType := FLUXNODE_START_TX_TYPE |>
      <| nFluxTxVersion := FLUXNODE_INTERNAL_P2SH_TX_VERSION |> <| collateralIn := collateral |> <| pubKey := nodeKey |>
      <| P2SHRedeemScript := redeemScript |> <| sigTime := time |> <| sig := s |>
  | ConfirmNode upgradeable collateral time tier benchmarkTime updateType address s bs =>
    emptyTx <| nVersion := node_version upgradeable |> <| nType := FLUXNODE_CONFIRM_TX_TYPE |> <| collateralIn := collateral |>
      <| sigTime := time |> <| benchmarkTier := tier |> <| benchmarkSigTime := benchmarkTime |> <| nUpdateType := updateType |>
      <| ip := address |> <| sig := s |> <| benchmarkSig := bs |>
  | RegisterApp deploymentId owner specJson address lockedAmount s =>
    emptyTx <| nVersion := CSAPP_TX_VERSION |> <| nType := CSAPP_REGISTER_TX_TYPE |> <| csappDeploymentId := deploymentId |>
      <| csappOwner := owner |> <| csappSpecJson := specJson |> <| csappIp := address |> <| csappLockedAmount := lockedAmount |>
      <| csappSig := s |>
  | UpdateApp deploymentId owner specJson s =>
    emptyTx <| nVersion := CSAPP_TX_VERSION |> <| nType := CSAPP_UPDATE_TX_TYPE |> <| csappDeploymentId := deploymentId |>
      <| csappOwner := owner |> <| csappSpecJson := specJson |> <| csappSig := s |>
  | StopApp deploymentId owner s =>
    emptyTx <| nVersion := CSAPP_TX_VERSION |> <| nType := CSAPP_STOP_TX_TYPE |> <| csappDeploymentId := deploymentId |>
      <| csappOwner := owner |> <| csappSig := s |>
  end.

(** The transaction a node builds for a message, with its hash. *)
Definition transaction_of (m : Message) : CTransaction := UpdateHash (message_fields m).

(** * Ranges

    Each field is within the type the source gives it; strings and byte vectors
    are at most [MAX_SIZE] long. *)

Definition is_u8 (x : Z) : bool := (0 <=? x) && (x <? 2 ^ 8).
Definition is_i8 (x : Z) : bool := (- 2 ^ 7 <=? x) && (x <? 2 ^ 7).
Definition is_u32 (x : Z) : bool := (0 <=? x) && (x <? 2 ^ 32).
Definition is_u64 (x : Z) : bool := (0 <=? x) && (x <? 2 ^ 64).
Definition is_i64 (x : Z) : bool := (- 2 ^ 63 <=? x) && (x <? 2 ^ 63).
Definition is_hash (x : Z) : bool := (0 <=? x) && (x <? 2 ^ 256).
Definition is_text (s : string) : bool := Z.of_nat (length (string_bytes s)) <=? MAX_SIZE.
Definition is_blob (b : bytes) : bool := Z.of_nat (length b) <=? MAX_SIZE.
Definition is_outpoint (o : COutPoint) : bool := is_hash (op_hash o) && is_u32 (op_n o).
(** No key, or one of the length its first byte announces. *)
Definition is_key (key : bytes) : bool :=
  match key with [] => true | b :: _ => (0 <? GetLen b) && (Z.of_nat (length key) =? GetLen b) end.
Definition all_of {A} (test : A -> bool) (l : list A) : bool := (Z.of_nat (length l) <=? MAX_SIZE) && forallb test l.

Definition inference_ok (m : InferenceMessage) : bool :=
  match m with
  | MRequest requestId requester model promptHash maxTokens payment feePerToken taskType taskClass promptTokenCount isCanary testSuite =>
    is_text requestId && is_text requester && is_text model && is_hash promptHash && is_u32 maxTokens && is_i64 payment &&
    is_i64 feePerToken && is_i8 taskType && is_u8 taskClass && is_u32 promptTokenCount && is_u8 isCanary && is_hash testSuite &&
    ((taskType =? OPOI_TASK_VERIFIABLE) || (testSuite =? 0))
  | MResponseCommit requestId miner commitHash => is_text requestId && is_text miner && is_blob commitHash
  | MResponseReveal requestId miner phase responseHash commitment tokenCount nonce vrfProof vrfOutput =>
    is_text requestId && is_text miner && is_u8 phase && negb (phase =? 0) && is_hash responseHash && is_hash commitment &&
    is_u32 tokenCount && is_blob nonce && is_blob vrfProof && is_blob vrfOutput
  | MStake miner collateral amount modelId tier pomRoot experts endpoint =>
    is_text miner && is_outpoint collateral && is_i64 amount && is_text modelId && is_u8 tier && is_hash pomRoot &&
    all_of is_u32 experts && is_text endpoint
  | MUnstake miner | MRenew miner => is_text miner
  | MChallengeCommit requestId challenger responseHash collateral commitHash =>
    is_text requestId && is_text challenger && is_hash responseHash && is_outpoint collateral && is_blob commitHash
  | MChallengeReveal requestId challenger responseHash phase collateral proofData nonce =>
    is_text requestId && is_text challenger && is_hash responseHash && is_u8 phase && negb (phase =? 0) && is_outpoint collateral &&
    is_blob proofData && is_blob nonce
  | MAuditorVerify requestId auditor result collateral shardIndex =>
    is_text requestId && is_text auditor && is_u8 result && is_outpoint collateral && is_u32 shardIndex
  | MModelRegister modelId proposer archType totalParams activeParams numLayers numDenseShards numExperts topK pomRoot expertRoots
      minReward totalSize =>
    is_text modelId && is_text proposer && is_u8 archType && is_u64 totalParams && is_u64 activeParams && is_u32 numLayers &&
    is_u32 numDenseShards && is_u32 numExperts && is_u32 topK && is_hash pomRoot && all_of is_hash expertRoots && is_i64 minReward &&
    is_u64 totalSize
  | MModelVote modelId voter approve => is_text modelId && is_text voter && is_u8 approve
  | MCoordinatorClaim requestId claimant vrfProof => is_text requestId && is_text claimant && is_blob vrfProof
  | MShardResult requestId shardIndex miner boundaryHash routerHash tokenCount vrfProof =>
    is_text requestId && is_u32 shardIndex && is_text miner && is_hash boundaryHash && is_hash routerHash && is_u32 tokenCount &&
    is_blob vrfProof
  end.

Definition message_ok (m : Message) : bool :=
  match m with
  | Inference time s m' => is_u32 time && is_blob s && inference_ok m'
  | StartNode _ collateral collateralKey nodeKey time s =>
    is_outpoint collateral && is_key collateralKey && is_key nodeKey && is_u32 time && is_blob s
  | StartP2SHNode collateral nodeKey redeemScript time s =>
    is_outpoint collateral && is_key nodeKey && is_blob redeemScript && is_u32 time && is_blob s
  | ConfirmNode _ collateral time tier benchmarkTime updateType address s bs =>
    is_outpoint collateral && is_u32 time && is_i8 tier && is_u32 benchmarkTime && is_i8 updateType && is_text address && is_blob s &&
    is_blob bs
  | RegisterApp deploymentId owner specJson address lockedAmount s =>
    is_text deploymentId && is_text owner && is_text specJson && is_text address && is_i64 lockedAmount && is_blob s
  | UpdateApp deploymentId owner specJson s => is_text deploymentId && is_text owner && is_text specJson && is_blob s
  | StopApp deploymentId owner s => is_text deploymentId && is_text owner && is_blob s
  end.

(** * Messages fit the formats *)

(** The layout of a transaction, with the hash set aside. *)
Definition fits (tx : CTransaction) : Prop :=
  exists l, version_layout false (nVersion tx) = Some l /\ fOverwintered tx = false /\
    layout_valid l tx = true /\ copy l tx (emptyTx <| nVersion := nVersion tx |>) = tx.

Create HintDb ranges.

Lemma valid_u8 x : is_u8 x = true -> valid u8_codec x = true.
Proof. done. Qed.
Lemma valid_u32 x : is_u32 x = true -> valid u32_codec x = true.
Proof. done. Qed.
Lemma valid_u64 x : is_u64 x = true -> valid u64_codec x = true.
Proof. done. Qed.
Lemma valid_hash x : is_hash x = true -> valid uint256_codec x = true.
Proof. done. Qed.
Lemma valid_i8 x : is_i8 x = true -> valid i8_codec x = true.
Proof. done. Qed.
Lemma valid_i64 x : is_i64 x = true -> valid i64_codec x = true.
Proof. done. Qed.
Lemma valid_text s : is_text s = true -> valid string_codec s = true.
Proof. done. Qed.
Lemma valid_blob b : is_blob b = true -> valid vch_codec b = true.
Proof. done. Qed.
Lemma valid_key key : is_key key = true -> valid CPubKey_codec key = true.
Proof. done. Qed.
Lemma valid_outpoint o : is_outpoint o = true -> valid COutPoint_codec o = true.
Proof. done. Qed.
Lemma valid_vector {A} (c : Codec A) test l :
  (forall x, test x = true -> valid c x = true) -> all_of test l = true -> valid (vector_codec c) l = true.
Proof.
  intros Ht [H1 H2]%andb_prop. apply andb_true_iff. split; [done|]. rewrite forallb_forall in *. auto.
Qed.

#[local] Hint Resolve valid_u8 valid_u32 valid_u64 valid_hash valid_i8 valid_i64 valid_text valid_blob valid_key valid_outpoint valid_vector : ranges.
#[local] Arguments valid : simpl never.

(** Splits the ranges into hypotheses. *)
Ltac split_ranges :=
  repeat match goal with
  | H : _ && _ = true |- _ => apply andb_prop in H as [? ?]
  | H : negb _ = true |- _ => apply negb_true_iff in H
  end.

(** Follows the branches of a format for a concrete kind. *)
Ltac follow := cbn; repeat match goal with H : (?x =? ?y) = ?b |- context [?x =? ?y] => rewrite H end; cbn.
Ltac fit :=
  eexists; split; [reflexivity|]; split; [reflexivity|]; split;
    [follow; repeat match goal with |- _ && _ = true => apply andb_true_iff; split end; first [reflexivity | eauto with ranges]
    |follow; reflexivity].

Lemma inference_fits time s m : is_u32 time = true -> is_blob s = true -> inference_ok m = true ->
  fits (message_fields (Inference time s m)).
Proof.
  intros Ht Hs Hm. destruct m; cbn [inference_ok] in Hm; split_ranges; unfold message_fields, inference_fields; [|fit..].
  match goal with H : _ || _ = true |- _ => apply orb_prop in H as [E|E] end; [fit|].
  destruct (taskType =? OPOI_TASK_VERIFIABLE) eqn:Ev; [fit|]. apply Z.eqb_eq in E. subst testSuite. fit.
Qed.

Lemma message_fits m : message_ok m = true -> fits (message_fields m).
Proof.
  destruct m as [time s m| | | | | | ]; cbn [message_ok]; intros Hm; split_ranges; [by apply inference_fits|..].
  all: try match goal with b : bool |- _ => destruct b end; fit.
Qed.

(** The hash is not part of any format. *)
Lemma layout_hash v l tx h :
  version_layout false v = Some l ->
  layout_valid l (tx <| hash := h |>) = layout_valid l tx /\ forall dst, copy l (tx <| hash := h |>) dst = copy l tx dst.
Proof. intros Hl. unfold version_layout in Hl. repeat case_match; simplify_eq; by split. Qed.

Lemma message_wire m : message_ok m = true -> wire_tx (transaction_of m).
Proof.
  intros (l & Hl & Ho & Hv & Hc)%message_fits. unfold transaction_of.
  assert (Hh : exists h, UpdateHash (message_fields m) = (message_fields m) <| hash := h |>) by by eexists.
  destruct Hh as [h Hh]. destruct (layout_hash _ l (message_fields m) h Hl) as [Hv' Hc'].
  exists l. rewrite Hh. split_and!; [exact Hl|exact Ho|by rewrite Hv'|]. rewrite Hc', <- Hh.
  change (nVersion (UpdateHash (message_fields m))) with (nVersion (message_fields m)). by rewrite Hc.
Qed.

(** C34. Nothing is lost on the wire: whatever a csnode, csapp or inference
    message of any kind says, with each field in the range of its type, the
    transaction that carries it is read back from its serialization with every
    field of the message, every other field at its default and the same hash,
    and the rest of the stream is left in place. *)
Theorem tx_roundtrip (m : Message) (rest : bytes) :
  message_ok m = true ->
  UnserializeTx (SerializeTx false (transaction_of m) ++ rest) = TxRead (transaction_of m) rest.
Proof. intros Hm. by apply wire_roundtrip, message_wire. Qed.

Definition sample_messages : list Message :=
  [Inference 1700000000 [1; 2; 3] (MRequest "r1" "t1user" "gemma3:4b" 77 256 1000 3 OPOI_TASK_VERIFIABLE 1 12 1 99);
   Inference 1700000000 [1] (MResponseReveal "r1" "t1miner" 1 21 22 256 [7] [8; 8] [9]);
   Inference 1700000000 [1; 2; 3] (MStake "t1miner" (mkCOutPoint 0xabcd 1) 10000000000 "GEMMA_3_4B" 2 77 [0; 5; 300] "10.0.0.1:80");
   StartNode true (mkCOutPoint 0xbeef 0) (2 :: replicate 32 7) (4 :: replicate 64 9) 1700000000 [5; 6];
   RegisterApp "d1" "t1owner" "spec" "10.0.0.1" 5 [5]].

Lemma tx_roundtrip_witness :
  Forall (fun m => UnserializeTx (SerializeTx false (transaction_of m) ++ [9; 9]) = TxRead (transaction_of m) [9; 9]) sample_messages.
Proof.
  repeat (apply Forall_cons_2; [apply tx_roundtrip; vm_compute; reflexivity|]). apply Forall_nil_2.
Defined.
