(* ===== verification/Platform.v ===== *)
(** What the subsystem takes from the rest of the node: the signature and VRF
    primitives, destinations and their scripts (script/standard.cpp), signed
    messages ([VerifyOPoISig] of opoi/opoi.cpp) and the verdicts of validation
    (consensus/validation.h).

    [Crypto] is the interface to what rests on the vendored elliptic-curve
    library and on address encoding: public-key recovery, the key hash, the
    VRF verifier and the address decoder.  They are parameters of everything
    that uses them; no property assumes anything of them unless it says so. *)

From stdpp Require Import list strings.
From Stdlib Require Import ZArith Lia.
From S2P Require Import Prelude Uint256 Sha256 Serialize.

(** [CTxDestination]: a [boost::variant] of no destination, a key hash or a
    script hash. *)
Inductive CTxDestination :=
  | CNoDestination
  | CKeyID (id : bytes)
  | CScriptID (id : bytes).

#[global] Instance CTxDestination_eq_dec : EqDecision CTxDestination.
Proof. solve_decision. Defined.

Class Crypto := {
  (** [CPubKey::RecoverCompact(hash, sig)]: the recovered key. *)
  RecoverCompact : Z -> bytes -> option bytes;
  (** [CPubKey::GetID]. *)
  GetID : bytes -> bytes;
  (** [OPoIVRFVerify(pk, alpha, proof, output)]: the output of a valid proof. *)
  OPoIVRFVerify : bytes -> bytes -> bytes -> option bytes;
  (** [DecodeDestination(address)]. *)
  DecodeDestination : string -> CTxDestination;
}.

Definition IsValidDestination (dest : CTxDestination) : bool :=
  match dest with CNoDestination => false | _ => true end.

Definition OP_DUP : Z := 0x76.
Definition OP_EQUAL : Z := 0x87.
Definition OP_EQUALVERIFY : Z := 0x88.
Definition OP_HASH160 : Z := 0xa9.
Definition OP_CHECKSIG : Z := 0xac.
Definition MAX_SCRIPT_SIZE : Z := 10000.
Definition OP_RETURN : Z := 0x6a.

Definition IsUnspendable (script : bytes) : bool :=
  match script with op :: _ => op =? OP_RETURN | [] => false end
  || (MAX_SCRIPT_SIZE <? Z.of_nat (length script)).

(** [CScript << vector] for the 20 bytes of a hash: the length, then the bytes. *)
Definition push_hash (id : bytes) : bytes := Z.of_nat (length id) :: id.

(** [GetScriptForDestination]. *)
Definition GetScriptForDestination (dest : CTxDestination) : bytes :=
  match dest with
  | CNoDestination => []
  | CKeyID id => OP_DUP :: OP_HASH160 :: push_hash id ++ [OP_EQUALVERIFY; OP_CHECKSIG]
  | CScriptID id => OP_HASH160 :: push_hash id ++ [OP_EQUAL]
  end.

Definition newline : string := String (Ascii.ascii_of_nat 10) EmptyString.
Definition strMessageMagic : string := "CS Coin Signed Message:" +:+ newline.

(** The hash a signed message is signed under. *)
Definition message_hash (message : string) : Z :=
  le_value (Hash256 (enc string_codec strMessageMagic ++ enc string_codec message)).

(** [VerifyOPoISig(address, message, sig, outPubKey)]; [Some pk] is the
    result [true] with the recovered key. *)
Definition VerifyOPoISig `{Crypto} (address message : string) (vchSig : bytes) : option bytes :=
  match vchSig with
  | [] => None
  | _ =>
    match DecodeDestination address with
    | CKeyID keyID =>
      match RecoverCompact (message_hash message) vchSig with
      | Some recovered => if bool_decide (GetID recovered = keyID) then Some recovered else None
      | None => None
      end
    | _ => None
    end
  end.

(** [ParseHex(const char* psz)]: pairs of digits, blanks allowed before each
    pair, up to the first character that is not a digit. *)
Fixpoint ParseHex_from (fuel : nat) (s : string) : bytes :=
  match fuel with
  | O => []
  | S fuel' =>
    match skip_spaces s with
    | String c1 (String c2 rest) =>
      match HexDigit c1, HexDigit c2 with
      | Some h, Some l => 16 * h + l :: ParseHex_from fuel' rest
      | _, _ => []
      end
    | _ => []
    end
  end.

Definition ParseHex (s : string) : bytes := ParseHex_from (String.length s) s.

(** * Verdicts

    [CValidationState::DoS(level, error(..), code, reason)] and
    [Invalid(error(..), code, reason)], which is a rejection at level 0. *)

Definition REJECT_INVALID : Z := 0x10.
Definition REJECT_DUPLICATE : Z := 0x12.

Inductive Verdict :=
  | Accept
  | Reject (level : Z) (code : Z) (reason : string).

#[global] Instance Verdict_eq_dec : EqDecision Verdict.
Proof. solve_decision. Defined.

Definition DoS (level : Z) (reason : string) : Verdict := Reject level REJECT_INVALID reason.
Definition Invalid (reason : string) : Verdict := Reject 0 REJECT_DUPLICATE reason.

(** The chain of early returns of a validation function: the next check runs
    when this one does not fire. *)
Declare Scope verdict_scope.
Delimit Scope verdict_scope with verdict.
Notation "'reject' v 'when' b ; next" := (if b then v else next)
  (at level 10, v at level 200, b at level 200, next at level 200,
   format "'[v' 'reject'  v  'when'  b ; '/' next ']'") : verdict_scope.

Lemma accept_guard (b : bool) l c r (next : Verdict) :
  (if b then Reject l c r else next) = Accept <-> b = false /\ next = Accept.
Proof. destruct b; intuition congruence. Qed.

(** * Signatures *)

Definition signed_by `{Crypto} (address message : string) (sig : bytes) : bool :=
  match VerifyOPoISig address message sig with Some _ => true | None => false end.

Lemma VerifyOPoISig_spec `{Crypto} address message sig pk :
  VerifyOPoISig address message sig = Some pk <->
  sig <> [] /\ DecodeDestination address = CKeyID (GetID pk) /\
  RecoverCompact (message_hash message) sig = Some pk.
Proof.
  unfold VerifyOPoISig. split.
  - intros Hv. repeat case_match; simplify_eq; try discriminate. case_bool_decide; naive_solver.
  - intros (Hs & -> & ->). destruct sig; [done|]. by rewrite bool_decide_eq_true_2.
Qed.

Lemma hex_char d s :
  0 <= d < 16 -> exists c, hex_digit d +:+ s = String c s /\ HexDigit c = Some d /\ isspace c = false.
Proof.
  intros Hd. assert (Hc : d = 0 \/ d = 1 \/ d = 2 \/ d = 3 \/ d = 4 \/ d = 5 \/ d = 6 \/ d = 7 \/ d = 8
    \/ d = 9 \/ d = 10 \/ d = 11 \/ d = 12 \/ d = 13 \/ d = 14 \/ d = 15) by lia.
  repeat destruct Hc as [->|Hc]; try (eexists; repeat split; reflexivity).
  subst; eexists; repeat split; reflexivity.
Qed.

Lemma HexStr_cons b bs :
  0 <= b < 256 -> exists c1 c2, HexStr (b :: bs) = String c1 (String c2 (HexStr bs)) /\
  HexDigit c1 = Some (b / 16) /\ HexDigit c2 = Some (b mod 16) /\ isspace c1 = false.
Proof.
  intros Hb. cbn [HexStr].
  destruct (hex_char (b / 16) (hex_digit (b mod 16) +:+ HexStr bs)) as (c1 & -> & H1 & Hs).
  { split; [apply Z.div_pos; lia|apply Z.div_lt_upper_bound; lia]. }
  destruct (hex_char (b mod 16) (HexStr bs)) as (c2 & -> & H2 & _); [apply Z.mod_pos_bound; lia|].
  by exists c1, c2.
Qed.

(** What [HexStr] prints, [ParseHex] reads back. *)
Lemma ParseHex_HexStr bs :
  Forall (fun b => 0 <= b < 256) bs -> ParseHex (HexStr bs) = bs.
Proof.
  intros Hbs. unfold ParseHex. remember (String.length (HexStr bs)) as n eqn:En.
  assert (Hn : (String.length (HexStr bs) <= n)%nat) by lia. clear En. revert n Hn.
  induction Hbs as [|b bs Hb Hbs IH]; intros n Hn; [by destruct n|].
  destruct (HexStr_cons b bs Hb) as (c1 & c2 & E & H1 & H2 & Hs). rewrite E in Hn |- *.
  destruct n as [|n]; simpl in Hn; [lia|]. cbn [ParseHex_from skip_spaces]. rewrite Hs, H1, H2.
  rewrite IH by lia. f_equal. pose proof (Z.div_mod b 16 ltac:(lia)). lia.
Qed.
