(* ===== verification/Script.v ===== *)
(** Scripts (script/script.h, script/script.cpp): the opcodes, the numbers of the
    stack machine, reading and pushing instructions, and what is asked of a
    script without running it.

    A script is its bytes; a position in it is the bytes from there on. *)

From stdpp Require Import list strings.
From Stdlib Require Import ZArith Lia.
From S2P Require Import Prelude Platform.

Definition MAX_SCRIPT_ELEMENT_SIZE : Z := 520.
Definition LOCKTIME_THRESHOLD : Z := 500000000.

(** * Opcodes *)

Definition OP_0 : Z := 0x00.
Definition OP_PUSHDATA1 : Z := 0x4c.
Definition OP_PUSHDATA2 : Z := 0x4d.
Definition OP_PUSHDATA4 : Z := 0x4e.
Definition OP_1NEGATE : Z := 0x4f.
Definition OP_RESERVED : Z := 0x50.
Definition OP_1 : Z := 0x51.
Definition OP_2 : Z := 0x52.
Definition OP_3 : Z := 0x53.
Definition OP_4 : Z := 0x54.
Definition OP_5 : Z := 0x55.
Definition OP_6 : Z := 0x56.
Definition OP_7 : Z := 0x57.
Definition OP_8 : Z := 0x58.
Definition OP_9 : Z := 0x59.
Definition OP_10 : Z := 0x5a.
Definition OP_11 : Z := 0x5b.
Definition OP_12 : Z := 0x5c.
Definition OP_13 : Z := 0x5d.
Definition OP_14 : Z := 0x5e.
Definition OP_15 : Z := 0x5f.
Definition OP_16 : Z := 0x60.
Definition OP_NOP : Z := 0x61.
Definition OP_VER : Z := 0x62.
Definition OP_IF : Z := 0x63.
Definition OP_NOTIF : Z := 0x64.
Definition OP_VERIF : Z := 0x65.
Definition OP_VERNOTIF : Z := 0x66.
Definition OP_ELSE : Z := 0x67.
Definition OP_ENDIF : Z := 0x68.
Definition OP_VERIFY : Z := 0x69.
Definition OP_TOALTSTACK : Z := 0x6b.
Definition OP_FROMALTSTACK : Z := 0x6c.
Definition OP_2DROP : Z := 0x6d.
Definition OP_2DUP : Z := 0x6e.
Definition OP_3DUP : Z := 0x6f.
Definition OP_2OVER : Z := 0x70.
Definition OP_2ROT : Z := 0x71.
Definition OP_2SWAP : Z := 0x72.
Definition OP_IFDUP : Z := 0x73.
Definition OP_DEPTH : Z := 0x74.
Definition OP_DROP : Z := 0x75.
Definition OP_NIP : Z := 0x77.
Definition OP_OVER : Z := 0x78.
Definition OP_PICK : Z := 0x79.
Definition OP_ROLL : Z := 0x7a.
Definition OP_ROT : Z := 0x7b.
Definition OP_SWAP : Z := 0x7c.
Definition OP_TUCK : Z := 0x7d.
Definition OP_CAT : Z := 0x7e.
Definition OP_SUBSTR : Z := 0x7f.
Definition OP_LEFT : Z := 0x80.
Definition OP_RIGHT : Z := 0x81.
Definition OP_SIZE : Z := 0x82.
Definition OP_INVERT : Z := 0x83.
Definition OP_AND : Z := 0x84.
Definition OP_OR : Z := 0x85.
Definition OP_XOR : Z := 0x86.
Definition OP_RESERVED1 : Z := 0x89.
Definition OP_RESERVED2 : Z := 0x8a.
Definition OP_1ADD : Z := 0x8b.
Definition OP_1SUB : Z := 0x8c.
Definition OP_2MUL : Z := 0x8d.
Definition OP_2DIV : Z := 0x8e.
Definition OP_NEGATE : Z := 0x8f.
Definition OP_ABS : Z := 0x90.
Definition OP_NOT : Z := 0x91.
Definition OP_0NOTEQUAL : Z := 0x92.
Definition OP_ADD : Z := 0x93.
Definition OP_SUB : Z := 0x94.
Definition OP_MUL : Z := 0x95.
Definition OP_DIV : Z := 0x96.
Definition OP_MOD : Z := 0x97.
Definition OP_LSHIFT : Z := 0x98.
Definition OP_RSHIFT : Z := 0x99.
Definition OP_BOOLAND : Z := 0x9a.
Definition OP_BOOLOR : Z := 0x9b.
Definition OP_NUMEQUAL : Z := 0x9c.
Definition OP_NUMEQUALVERIFY : Z := 0x9d.
Definition OP_NUMNOTEQUAL : Z := 0x9e.
Definition OP_LESSTHAN : Z := 0x9f.
Definition OP_GREATERTHAN : Z := 0xa0.
Definition OP_LESSTHANOREQUAL : Z := 0xa1.
Definition OP_GREATERTHANOREQUAL : Z := 0xa2.
Definition OP_MIN : Z := 0xa3.
Definition OP_MAX : Z := 0xa4.
Definition OP_WITHIN : Z := 0xa5.
Definition OP_RIPEMD160 : Z := 0xa6.
Definition OP_SHA1 : Z := 0xa7.
Definition OP_SHA256 : Z := 0xa8.
Definition OP_HASH256 : Z := 0xaa.
Definition OP_CODESEPARATOR : Z := 0xab.
Definition OP_CHECKSIGVERIFY : Z := 0xad.
Definition OP_CHECKMULTISIG : Z := 0xae.
Definition OP_CHECKMULTISIGVERIFY : Z := 0xaf.
Definition OP_NOP1 : Z := 0xb0.
Definition OP_NOP2 : Z := 0xb1.
Definition OP_NOP3 : Z := 0xb2.
Definition OP_NOP4 : Z := 0xb3.
Definition OP_NOP5 : Z := 0xb4.
Definition OP_NOP6 : Z := 0xb5.
Definition OP_NOP7 : Z := 0xb6.
Definition OP_NOP8 : Z := 0xb7.
Definition OP_NOP9 : Z := 0xb8.
Definition OP_NOP10 : Z := 0xb9.
Definition OP_SMALLDATA : Z := 0xf9.
Definition OP_SMALLINTEGER : Z := 0xfa.
Definition OP_PUBKEYS : Z := 0xfb.
Definition OP_PUBKEYHASH : Z := 0xfd.
Definition OP_PUBKEY : Z := 0xfe.
Definition OP_INVALIDOPCODE : Z := 0xff.
Definition OP_CHECKLOCKTIMEVERIFY : Z := OP_NOP2.

(** * Numbers *)

(** The bytes of a [uint64_t], least significant first, up to the last one that
    is not zero. *)
Fixpoint abs_bytes (fuel : nat) (absvalue : Z) : bytes :=
  match fuel with
  | O => []
  | S fuel => if absvalue =? 0 then [] else Z.land absvalue 0xff :: abs_bytes fuel (Z.shiftr absvalue 8)
  end.

(** [result.back() |= 0x80] and the like. *)
Definition set_back (x : Z) (l : bytes) : bytes := <[(length l - 1)%nat := x]> l.

(** [CScriptNum::serialize]: the sign is the top bit of the last byte. *)
Definition CScriptNum_serialize (value : Z) : bytes :=
  if value =? 0 then []
  else
    let neg := value <? 0 in
    let absvalue := u64 (if neg then i64 (- value) else value) in
    let result := abs_bytes 8 absvalue in
    let back := default 0 (last result) in
    if negb (Z.land back 0x80 =? 0) then result ++ [if neg then 0x80 else 0]
    else if neg then set_back (Z.lor back 0x80) result
    else result.

(** [CScriptNum::set_vch]. *)
Definition CScriptNum_set_vch (vch : bytes) : Z :=
  match last vch with
  | None => 0
  | Some back =>
    let result := foldl (fun acc ib => Z.lor acc (i64 (Z.shiftl ib.2 (8 * Z.of_nat ib.1)))) 0 (imap pair vch) in
    if negb (Z.land back 0x80 =? 0) then
      i64 (- i64 (Z.land (u64 result) (Z.lnot (u64 (Z.shiftl 0x80 (8 * Z.of_nat (length vch - 1)))))))
    else result
  end.

Definition nDefaultMaxNumSize : Z := 4.

(** The test for the shortest form. *)
Definition IsMinimallyEncoded (vch : bytes) : bool :=
  match last vch with
  | None => true
  | Some back =>
    if Z.land back 0x7f =? 0 then
      negb ((length vch <=? 1)%nat || (Z.land (default 0 (vch !! (length vch - 2)%nat)) 0x80 =? 0))
    else true
  end.

(** [CScriptNum(vch, fRequireMinimal, nMaxNumSize)]; [None] is the exception. *)
Definition CScriptNum (vch : bytes) (fRequireMinimal : bool) (nMaxNumSize : Z) : option Z :=
  if nMaxNumSize <? Z.of_nat (length vch) then None
  else if fRequireMinimal && negb (IsMinimallyEncoded vch) then None
  else Some (CScriptNum_set_vch vch).

(** [CScriptNum::getint]: the value clamped to an [int]. *)
Definition getint (n : Z) : Z :=
  if 2147483647 <? n then 2147483647 else if n <? -2147483648 then -2147483648 else n.

(** * Building scripts *)

(** [CScript << vector]. *)
Definition push_vch (script b : bytes) : bytes :=
  let size := Z.of_nat (length b) in
  script ++ (if size <? OP_PUSHDATA1 then [size]
             else if size <=? 0xff then [OP_PUSHDATA1; size]
             else if size <=? 0xffff then OP_PUSHDATA2 :: le_bytes 2 size
             else OP_PUSHDATA4 :: le_bytes 4 size) ++ b.

(** [CScript << int64_t]. *)
Definition push_int64 (script : bytes) (n : Z) : bytes :=
  if (n =? -1) || ((1 <=? n) && (n <=? 16)) then script ++ [u8 (n + (OP_1 - 1))]
  else if n =? 0 then script ++ [OP_0]
  else push_vch script (CScriptNum_serialize n).

(** * Reading scripts *)

(** [nSize] and the position after it, for an opcode that pushes. *)
Definition push_size (opcode : Z) (pc : bytes) : option (Z * bytes) :=
  if opcode <? OP_PUSHDATA1 then Some (opcode, pc)
  else
    let width := if opcode =? OP_PUSHDATA1 then 1%nat else if opcode =? OP_PUSHDATA2 then 2%nat else 4%nat in
    if (length pc <? width)%nat then None else Some (le_value (take width pc), drop width pc).

(** [GetOp2]: the opcode, the data it pushes and the position after both. *)
Definition GetOp (pc : bytes) : option (Z * bytes * bytes) :=
  match pc with
  | [] => None
  | opcode :: pc =>
    if opcode <=? OP_PUSHDATA4 then
      '(nSize, pc) ← push_size opcode pc;
      if u32 (Z.of_nat (length pc)) <? nSize then None
      else Some (opcode, take (Z.to_nat nSize) pc, drop (Z.to_nat nSize) pc)
    else Some (opcode, [], pc)
  end.

(** [IsPushOnly]; every instruction consumes a byte, so the length of the script
    bounds the loop. *)
Fixpoint push_only_from (fuel : nat) (pc : bytes) : bool :=
  match fuel, pc with
  | _, [] => true
  | O, _ => false
  | S fuel, _ =>
    match GetOp pc with
    | None => false
    | Some (opcode, _, pc) => if OP_16 <? opcode then false else push_only_from fuel pc
    end
  end.

Definition IsPushOnly (script : bytes) : bool := push_only_from (length script) script.

Definition byte_at (script : bytes) (i : nat) : Z := default 0 (script !! i).

Definition IsPayToPublicKeyHash (script : bytes) : bool :=
  (length script =? 25)%nat && (byte_at script 0 =? OP_DUP) && (byte_at script 1 =? OP_HASH160) &&
  (byte_at script 2 =? 0x14) && (byte_at script 23 =? OP_EQUALVERIFY) && (byte_at script 24 =? OP_CHECKSIG).

Definition IsPayToScriptHash (script : bytes) : bool :=
  (length script =? 23)%nat && (byte_at script 0 =? OP_HASH160) && (byte_at script 1 =? 0x14) &&
  (byte_at script 22 =? OP_EQUAL).

Inductive ScriptType := ST_UNKNOWN | ST_P2PKH | ST_P2SH.

Definition GetType (script : bytes) : ScriptType :=
  if IsPayToPublicKeyHash script then ST_P2PKH else if IsPayToScriptHash script then ST_P2SH else ST_UNKNOWN.

Definition AddressHash (script : bytes) : bytes :=
  if IsPayToPublicKeyHash script then take 20 (drop 3 script)
  else if IsPayToScriptHash script then take 20 (drop 2 script)
  else replicate 20 0.

(** [DecodeOP_N], for the opcodes its assertion allows. *)
Definition DecodeOP_N (opcode : Z) : Z := if opcode =? OP_0 then 0 else opcode - (OP_1 - 1).

(** * Signature operations *)

(** What an instruction adds to the count. *)
Definition sigops_of (fAccurate : bool) (lastOpcode opcode : Z) : Z :=
  if (opcode =? OP_CHECKSIG) || (opcode =? OP_CHECKSIGVERIFY) then 1
  else if (opcode =? OP_CHECKMULTISIG) || (opcode =? OP_CHECKMULTISIGVERIFY) then
    if fAccurate && (OP_1 <=? lastOpcode) && (lastOpcode <=? OP_16) then DecodeOP_N lastOpcode else 20
  else 0.

Fixpoint sigops_from (fuel : nat) (fAccurate : bool) (lastOpcode : Z) (pc : bytes) (n : Z) : Z :=
  match fuel with
  | O => n
  | S fuel =>
    match GetOp pc with
    | None => n
    | Some (opcode, _, pc) => sigops_from fuel fAccurate opcode pc (u32 (n + sigops_of fAccurate lastOpcode opcode))
    end
  end.

(** [GetSigOpCount(bool fAccurate)]. *)
Definition GetSigOpCount (fAccurate : bool) (script : bytes) : Z :=
  sigops_from (length script) fAccurate OP_INVALIDOPCODE script 0.

(** The last item a script of pushes leaves; [None] when it does not parse or
    does something else. *)
Fixpoint last_push (fuel : nat) (pc data : bytes) : option bytes :=
  match fuel, pc with
  | _, [] => Some data
  | O, _ => None
  | S fuel, _ =>
    match GetOp pc with
    | None => None
    | Some (opcode, data, pc) => if OP_16 <? opcode then None else last_push fuel pc data
    end
  end.

(** [GetSigOpCount(const CScript& scriptSig)]. *)
Definition GetSigOpCountP2SH (scriptPubKey scriptSig : bytes) : Z :=
  if negb (IsPayToScriptHash scriptPubKey) then GetSigOpCount true scriptPubKey
  else
    match last_push (length scriptSig) scriptSig [] with
    | None => 0
    | Some data => GetSigOpCount true data
    end.
