(* ===== verification/ScriptNum.v ===== *)
(** Script numbers: the bytes of a number and the number of the bytes. *)

From stdpp Require Import list strings.
From Stdlib Require Import ZArith Lia.
From S2P Require Import Prelude Platform Script.

Abbreviation is_byte := (fun b : Z => 0 <= b < 256).

Lemma le_value_app a b : le_value (a ++ b) = le_value a + 256 ^ Z.of_nat (length a) * le_value b.
Proof.
  induction a as [|x a IH]; cbn [app length]; [change (le_value []) with 0; lia|].
  unfold le_value in *. cbn [undigits]. rewrite IH, Nat2Z.inj_succ, Z.pow_succ_r by lia. lia.
Qed.

Lemma le_value_snoc l b : le_value (l ++ [b]) = le_value l + 256 ^ Z.of_nat (length l) * b.
Proof. rewrite le_value_app. unfold le_value at 2. cbn [undigits]. lia. Qed.

Lemma le_value_range l : Forall is_byte l -> 0 <= le_value l < 256 ^ Z.of_nat (length l).
Proof. apply undigits_range. lia. Qed.

Lemma pow256 k : 256 ^ Z.of_nat k = 2 ^ (8 * Z.of_nat k).
Proof. rewrite Z.pow_mul_r by lia. done. Qed.

(** ** Bits of a byte *)

Lemma land_0x80 b : 0 <= b < 256 -> (Z.land b 0x80 =? 0) = (b <? 128).
Proof. intros Hb. exact (land_top_bit b 7 ltac:(lia) Hb). Qed.

Lemma land_0x7f b : 0 <= b < 256 -> Z.land b 0x7f = b mod 128.
Proof. intros _. exact (Z.land_ones b 7 ltac:(lia)). Qed.

Lemma lor_0x80 b : 0 <= b < 128 -> Z.lor b 0x80 = b + 128.
Proof. intros Hb. exact (lor_above b 7 1 ltac:(lia) Hb ltac:(lia)). Qed.

(** ** The bytes of a magnitude *)

Lemma abs_bytes_step n x : 0 < x -> abs_bytes (S n) x = x mod 256 :: abs_bytes n (x / 256).
Proof.
  intros Hx. cbn [abs_bytes]. rewrite (proj2 (Z.eqb_neq _ _)) by lia.
  change (Z.land x 0xff) with (Z.land x (Z.ones 8)). by rewrite Z.land_ones, Z.shiftr_div_pow2 by lia.
Qed.

(** No zero byte at the end. *)
Definition trimmed (l : bytes) : Prop := forall b, last l = Some b -> b <> 0.

Lemma abs_bytes_spec n x :
  0 <= x < 256 ^ Z.of_nat n -> le_value (abs_bytes n x) = x /\ Forall is_byte (abs_bytes n x) /\ trimmed (abs_bytes n x).
Proof.
  revert x. induction n as [|n IH]; intros x Hx.
  - cbn [Z.of_nat] in Hx. cbn. split; [unfold le_value; cbn; lia|]. done.
  - destruct (Z.eq_dec x 0) as [->|Hne]; [by cbn|]. rewrite Nat2Z.inj_succ, Z.pow_succ_r in Hx by lia.
    rewrite abs_bytes_step by lia. pose proof (Z.div_mod x 256 ltac:(lia)). pose proof (Z.mod_pos_bound x 256 ltac:(lia)).
    destruct (IH (x / 256)) as (IH1 & IH2 & IH3); [split; [by apply Z.div_pos; lia|apply Z.div_lt_upper_bound; lia]|].
    split; [unfold le_value in *; cbn [undigits]; rewrite IH1; lia|]. split; [by constructor|].
    intros b Hb. destruct (abs_bytes n (x / 256)) as [|y l] eqn:E; [|by apply IH3].
    cbn in Hb. injection Hb as <-. unfold le_value in IH1. cbn in IH1. lia.
Qed.

Lemma trimmed_pos l : Forall is_byte l -> trimmed l -> l <> [] -> 256 ^ Z.of_nat (length l - 1) <= le_value l.
Proof.
  intros Hl Ht Hne. destruct l as [|b l _] using rev_ind; [done|]. apply Forall_app in Hl as [Hl Hb].
  rewrite Forall_singleton in Hb. assert (b <> 0) by (apply (Ht b); by rewrite last_snoc).
  rewrite le_value_snoc, length_app. cbn [length]. replace (length l + 1 - 1)%nat with (length l) by lia.
  pose proof (le_value_range l Hl). nia.
Qed.

Lemma abs_bytes_unique n l :
  Forall is_byte l -> trimmed l -> (length l <= n)%nat -> abs_bytes n (le_value l) = l.
Proof.
  revert l. induction n as [|n IH]; intros l Hl Ht Hlen.
  - destruct l; [done|cbn in Hlen; lia].
  - destruct l as [|b l]; [done|]. pose proof (trimmed_pos (b :: l) Hl Ht ltac:(done)) as Hp.
    pose proof (Z.pow_pos_nonneg 256 (Z.of_nat (length (b :: l) - 1)) ltac:(lia) ltac:(lia)).
    rewrite abs_bytes_step by lia. apply Forall_cons in Hl as [Hb Hl]. unfold le_value. cbn [undigits]. fold le_value.
    change (undigits 256 l) with (le_value l).
    rewrite (Z.mul_comm 256), Z.mod_add, Z.mod_small, Z.div_add, Z.div_small, Z.add_0_l by lia. f_equal.
    apply IH; [done| |cbn in Hlen; lia]. intros c Hc. apply (Ht c). destruct l; [done|done].
Qed.

(** ** Reading *)

Lemma set_vch_result l :
  Forall is_byte l -> (length l <= 7)%nat ->
  foldl (fun acc ib => Z.lor acc (i64 (Z.shiftl ib.2 (8 * Z.of_nat ib.1)))) 0 (imap pair l) = le_value l.
Proof.
  induction l as [|b l IH] using rev_ind; intros Hl Hlen; [done|]. apply Forall_app in Hl as [Hl Hb].
  rewrite Forall_singleton in Hb. rewrite length_app in Hlen. cbn [length] in Hlen.
  rewrite imap_app, foldl_app, IH by (done || lia). cbn [imap foldl fst snd]. rewrite Nat.add_0_r.
  rewrite Z.shiftl_mul_pow2 by lia. pose proof (le_value_range l Hl) as Hr. rewrite pow256 in Hr.
  pose proof (Z.pow_pos_nonneg 2 (8 * Z.of_nat (length l)) ltac:(lia) ltac:(lia)).
  assert (2 ^ (8 * Z.of_nat (length l)) <= 2 ^ 48) by (apply Z.pow_le_mono_r; lia).
  rewrite i64_small by (unfold in_i64; change (2 ^ 63) with (2 ^ 15 * 2 ^ 48); nia).
  rewrite lor_above by lia. rewrite le_value_snoc, pow256. lia.
Qed.

(** The number of some bytes: the last one carries the sign. *)
Lemma set_vch_snoc l b :
  Forall is_byte l -> 0 <= b < 256 -> (length l <= 6)%nat ->
  CScriptNum_set_vch (l ++ [b]) = if b <? 128 then le_value (l ++ [b]) else - le_value (l ++ [b - 128]).
Proof.
  intros Hl Hb Hlen. unfold CScriptNum_set_vch. rewrite last_snoc, land_0x80 by done.
  assert (Hlb : Forall is_byte (l ++ [b])) by (apply Forall_app; by rewrite Forall_singleton).
  rewrite set_vch_result by (done || (rewrite length_app; cbn; lia)).
  destruct (Z.ltb_spec b 128) as [Hlt|Hge]; cbn [negb]; [done|].
  rewrite length_app. cbn [length]. replace (length l + 1 - 1)%nat with (length l) by lia.
  rewrite !le_value_snoc. pose proof (le_value_range l Hl) as Hr. rewrite pow256 in *.
  set (p := 2 ^ (8 * Z.of_nat (length l))) in *.
  assert (Hp : 0 < p <= 2 ^ 48) by (split; [apply Z.pow_pos_nonneg; lia|apply Z.pow_le_mono_r; lia]).
  assert (Hpk : 2 ^ (8 * Z.of_nat (length l) + 7) = p * 128) by (by rewrite Z.pow_add_r by lia).
  assert (Hpb : 0 <= p * (b - 128) <= p * 127) by (split; [apply Z.mul_nonneg_nonneg|apply Z.mul_le_mono_nonneg_l]; lia).
  assert (Hu : u64 (le_value l + p * b) = le_value l + p * (b - 128) + 1 * 2 ^ (8 * Z.of_nat (length l) + 7)).
  { rewrite Hpk. unfold u64. rewrite Z.mod_small by lia. lia. }
  rewrite Hu. rewrite <- lor_above by lia.
  replace (u64 (Z.shiftl 128 (8 * Z.of_nat (length l)))) with (2 ^ (8 * Z.of_nat (length l) + 7)).
  2: { rewrite Z.shiftl_mul_pow2 by lia. fold p. rewrite Hpk. unfold u64. rewrite Z.mod_small by lia. lia. }
  replace (Z.land _ _) with (le_value l + p * (b - 128)).
  2: { symmetry. rewrite Z.mul_1_l. apply Z.bits_inj'. intros i Hi. rewrite Z.land_spec, Z.lor_spec, Z.lnot_spec by done.
       destruct (Z.eq_dec i (8 * Z.of_nat (length l) + 7)) as [->|Hne].
       - rewrite Z.pow2_bits_true by lia. rewrite andb_false_r. symmetry.
         rewrite <- (Z.mod_small (le_value l + p * (b - 128)) (2 ^ (8 * Z.of_nat (length l) + 7))) by lia.
         by rewrite Z.mod_pow2_bits_high by lia.
       - rewrite Z.pow2_bits_false by lia. by rewrite orb_false_r, andb_true_r. }
  rewrite (i64_small (le_value l + p * (b - 128))), i64_small by (unfold in_i64; lia). done.
Qed.

Lemma minimal_snoc l b :
  Forall is_byte l -> 0 <= b < 256 ->
  IsMinimallyEncoded (l ++ [b]) = negb (b mod 128 =? 0) || negb (default 0 (last l) <? 128).
Proof.
  intros Hl Hb. unfold IsMinimallyEncoded. rewrite last_snoc, land_0x7f by done.
  destruct (Z.eqb_spec (b mod 128) 0); [|done]. cbn [negb orb]. rewrite length_app. cbn [length].
  destruct l as [|c l _] using rev_ind; [done|]. rewrite last_snoc, length_app. cbn [length default].
  replace (length l + 1 + 1 - 2)%nat with (length l) by lia.
  replace (length l + 1 + 1 <=? 1)%nat with false by (symmetry; apply Nat.leb_gt; lia).
  rewrite lookup_app_l by (rewrite length_app; cbn; lia). rewrite lookup_app_r, Nat.sub_diag by lia. cbn [lookup list_lookup default orb].
  apply Forall_app in Hl as [_ Hc]. rewrite Forall_singleton in Hc. cbn. by rewrite land_0x80.
Qed.

(** ** Writing *)

Lemma set_back_snoc l b c : set_back c (l ++ [b]) = l ++ [c].
Proof.
  unfold set_back. rewrite length_app. cbn [length]. replace (length l + 1 - 1)%nat with (length l + 0)%nat by lia.
  by rewrite insert_app_r.
Qed.

(** The bytes of a number in terms of the bytes of its magnitude. *)
Lemma serialize_spec n l b :
  n <> 0 -> Z.abs n < 2 ^ 63 -> Forall is_byte (l ++ [b]) -> b <> 0 -> (length l <= 7)%nat -> le_value (l ++ [b]) = Z.abs n ->
  CScriptNum_serialize n =
  if b <? 128 then l ++ [if n <? 0 then b + 128 else b] else l ++ [b; if n <? 0 then 0x80 else 0].
Proof.
  intros Hn Ha Hlb Hb Hlen Hv. unfold CScriptNum_serialize. rewrite (proj2 (Z.eqb_neq _ _) Hn).
  replace (u64 _) with (Z.abs n).
  2: { destruct (Z.ltb_spec n 0); [rewrite i64_small by (unfold in_i64; lia)|]; unfold u64; rewrite Z.mod_small; lia. }
  rewrite <- Hv, abs_bytes_unique; [|done|by intros c; rewrite last_snoc; intros [= <-]|rewrite length_app; cbn; lia].
  apply Forall_app in Hlb as [_ Hbb]. rewrite Forall_singleton in Hbb. cbn beta in Hbb.
  rewrite last_snoc. change (default 0 (Some b)) with b. rewrite land_0x80 by done. destruct (Z.ltb_spec b 128); cbn [negb].
  - rewrite lor_0x80, set_back_snoc by lia. by destruct (n <? 0).
  - by rewrite <- app_assoc.
Qed.

(** The magnitude of minimally encoded bytes, as trimmed bytes. *)
Lemma minimal_magnitude l b n :
  Forall is_byte l -> 0 <= b < 256 -> (length l <= 6)%nat -> IsMinimallyEncoded (l ++ [b]) = true ->
  CScriptNum_set_vch (l ++ [b]) = n -> l ++ [b] = CScriptNum_serialize n /\ Z.abs n < 128 * 256 ^ Z.of_nat (length l).
Proof.
  intros Hl Hb Hlen Hmin Hn. rewrite minimal_snoc in Hmin by done. rewrite set_vch_snoc in Hn by done.
  set (m := b mod 128) in *. assert (Hm : 0 <= m < 128) by (apply Z.mod_pos_bound; lia).
  assert (Hbm : b = m + (if b <? 128 then 0 else 128)).
  { unfold m. destruct (Z.ltb_spec b 128); [rewrite Z.mod_small; lia|]. rewrite (Z.mod_eq b 128) by lia.
    replace (b / 128) with 1 by (apply (Z.div_unique_pos _ _ _ (b - 128)); lia). lia. }
  assert (Ha : Z.abs n = le_value (l ++ [m])).
  { rewrite !le_value_snoc in *. pose proof (le_value_range l Hl). subst n. destruct (b <? 128).
    - rewrite Z.abs_eq by nia. do 2 f_equal. lia.
    - rewrite Z.abs_opp, Z.abs_eq by nia. do 2 f_equal. lia. }
  assert (Hs : 0 < Z.abs n -> (n <? 0) = negb (b <? 128)).
  { intros Hpos. rewrite !le_value_snoc in Hn. pose proof (le_value_range l Hl). subst n.
    destruct (Z.ltb_spec b 128); cbn [negb]; [apply Z.ltb_ge|apply Z.ltb_lt]; nia. }
  assert (Hrange : Z.abs n < 128 * 256 ^ Z.of_nat (length l)).
  { rewrite Ha, le_value_snoc. pose proof (le_value_range l Hl). nia. }
  split; [|done]. assert (Hbig : Z.abs n < 2 ^ 63).
  { rewrite pow256 in Hrange. assert (2 ^ (8 * Z.of_nat (length l)) <= 2 ^ 48) by (apply Z.pow_le_mono_r; lia). lia. }
  destruct (Z.eq_dec m 0) as [Hm0|Hm0].
  - rewrite (proj2 (Z.eqb_eq _ _) Hm0) in Hmin. cbn in Hmin.
    destruct l as [|c l _] using rev_ind; [done|]. rewrite last_snoc in Hmin. change (default 0 (Some c)) with c in Hmin.
    rewrite Hm0, le_value_snoc, Z.mul_0_r, Z.add_0_r in Ha.
    apply negb_true_iff in Hmin. rewrite length_app in Hlen. cbn [length] in Hlen.
    assert (Hc : 128 <= c) by (by apply Z.ltb_ge in Hmin).
    pose proof Hl as [Hl' _]%Forall_app. pose proof (le_value_range l Hl') as Hr.
    assert (0 < 256 ^ Z.of_nat (length l)) by (apply Z.pow_pos_nonneg; lia).
    assert (Hpos : 0 < Z.abs n) by (rewrite Ha, le_value_snoc; apply Z.add_nonneg_pos; [lia|apply Z.mul_pos_pos; lia]).
    rewrite (serialize_spec n l c) by (done || lia). rewrite Hmin, <- app_assoc. cbn [app]. do 2 f_equal. rewrite Hbm, Hm0, (Hs Hpos).
    by destruct (b <? 128).
  - assert (0 < 256 ^ Z.of_nat (length l)) by (apply Z.pow_pos_nonneg; lia). pose proof (le_value_range l Hl) as Hr.
    assert (Hpos : 0 < Z.abs n) by (rewrite Ha, le_value_snoc; apply Z.add_nonneg_pos; [lia|apply Z.mul_pos_pos; lia]).
    rewrite (serialize_spec n l m); [| lia | done | | done | lia | done].
    + rewrite (proj2 (Z.ltb_lt m 128)) by lia. do 2 f_equal. rewrite Hbm at 1. rewrite (Hs Hpos).
      destruct (b <? 128); cbn [negb]; lia.
    + apply Forall_app. split; [done|]. rewrite Forall_singleton. lia.
Qed.

(** What is written is minimal, short enough and reads back. *)
Lemma serialize_minimal n k :
  n <> 0 -> 1 <= k <= 7 -> Z.abs n < 2 ^ (8 * k - 1) ->
  Z.of_nat (length (CScriptNum_serialize n)) <= k /\ IsMinimallyEncoded (CScriptNum_serialize n) = true /\
  CScriptNum_set_vch (CScriptNum_serialize n) = n.
Proof.
  intros Hn Hk Ha. assert (Hk2 : 2 ^ (8 * k - 1) <= 2 ^ 55) by (apply Z.pow_le_mono_r; lia).
  destruct (abs_bytes_spec 8 (Z.abs n)) as (Hv & Hbs & Ht); [change (256 ^ Z.of_nat 8) with (2 ^ 64); lia|].
  remember (abs_bytes 8 (Z.abs n)) as r eqn:Er. clear Er.
  destruct r as [|b l _] using rev_ind; [unfold le_value in Hv; cbn in Hv; lia|].
  assert (Hb0 : b <> 0) by (apply Ht; by rewrite last_snoc). pose proof Hbs as [Hl Hb]%Forall_app.
  rewrite Forall_singleton in Hb. cbn beta in Hb. pose proof (le_value_range l Hl) as Hr.
  assert (Hp : 0 < 256 ^ Z.of_nat (length l)) by (apply Z.pow_pos_nonneg; lia).
  rewrite le_value_snoc in Hv.
  assert (Hlen : forall e, 0 <= e -> 2 ^ (8 * Z.of_nat (length l) + e) <= Z.abs n -> 8 * Z.of_nat (length l) + e < 8 * k - 1).
  { intros e He Hle. apply (Z.pow_lt_mono_r_iff 2); lia. }
  rewrite pow256 in *. assert (Hlen0 : 8 * Z.of_nat (length l) < 8 * k - 1).
  { specialize (Hlen 0 ltac:(lia)). rewrite Z.add_0_r in Hlen. apply Hlen. nia. }
  assert (Hv' : le_value (l ++ [b]) = Z.abs n) by (rewrite le_value_snoc, pow256; lia).
  rewrite (serialize_spec n l b) by (done || lia). destruct (Z.ltb_spec b 128) as [Hlt|Hge].
  - rewrite length_app. cbn [length]. split; [lia|].
    set (c := if n <? 0 then b + 128 else b). assert (Hc : 0 <= c < 256) by (unfold c; destruct (n <? 0); lia).
    rewrite minimal_snoc, set_vch_snoc by (done || lia). split.
    + replace (c mod 128) with b; [by rewrite (proj2 (Z.eqb_neq _ _) Hb0)|].
      unfold c. destruct (n <? 0); [|by rewrite Z.mod_small by lia].
      replace (b + 128) with (b + 1 * 128) by lia. rewrite Z.mod_add, Z.mod_small; lia.
    + unfold c. destruct (Z.ltb_spec n 0).
      * rewrite (proj2 (Z.ltb_ge _ _)) by lia. replace (b + 128 - 128) with b by lia. lia.
      * rewrite (proj2 (Z.ltb_lt _ _)) by lia. lia.
  - assert (8 * Z.of_nat (length l) + 7 < 8 * k - 1).
    { apply Hlen; [lia|]. rewrite Z.pow_add_r by lia. change (2 ^ 7) with 128. nia. }
    replace (l ++ [b; if n <? 0 then 128 else 0]) with ((l ++ [b]) ++ [if n <? 0 then 128 else 0]) by (by rewrite <- app_assoc).
    rewrite !length_app. cbn [length]. split; [lia|].
    set (c := if n <? 0 then 128 else 0). assert (Hc : 0 <= c < 256) by (unfold c; destruct (n <? 0); lia).
    rewrite minimal_snoc, set_vch_snoc by (done || lia || (rewrite length_app; cbn; lia)).
    rewrite last_snoc. change (default 0 (Some b)) with b. rewrite (proj2 (Z.ltb_ge b 128)) by lia. split; [apply orb_true_r|].
    unfold c. destruct (Z.ltb_spec n 0).
    + change (128 <? 128) with false. cbv iota. rewrite le_value_snoc, Hv', Z.mul_0_r. lia.
    + change (0 <? 128) with true. cbv iota. rewrite le_value_snoc, Hv', Z.mul_0_r. lia.
Qed.

(** C36. Script numbers have one minimal form: reading some bytes as a number
    under the minimality rule succeeds exactly when the bytes are the ones
    [CScriptNum::serialize] writes for the number read and its magnitude fits
    the allowed length. *)
Theorem script_num_canonical (vch : bytes) (nMaxNumSize n : Z) :
  Forall is_byte vch -> 1 <= nMaxNumSize <= 7 ->
  CScriptNum vch true nMaxNumSize = Some n <->
  vch = CScriptNum_serialize n /\ Z.abs n < 2 ^ (8 * nMaxNumSize - 1).
Proof.
  intros Hv Hm. unfold CScriptNum. cbn [andb]. split.
  - intros Hs. destruct (Z.ltb_spec nMaxNumSize (Z.of_nat (length vch))) as [|Hlen]; [done|].
    destruct (IsMinimallyEncoded vch) eqn:Hmin; cbn [negb] in Hs; [|done]. injection Hs as Hn.
    destruct vch as [|b l _] using rev_ind.
    { cbn in Hn. subst n. split; [done|]. apply Z.pow_pos_nonneg; lia. }
    apply Forall_app in Hv as [Hl Hb]. rewrite Forall_singleton in Hb. rewrite length_app in Hlen. cbn [length] in Hlen.
    destruct (minimal_magnitude l b n Hl Hb ltac:(lia) Hmin Hn) as [He Ha]. split; [done|].
    rewrite pow256 in Ha. change 128 with (2 ^ 7) in Ha. rewrite <- Z.pow_add_r in Ha by lia.
    eapply Z.lt_le_trans; [exact Ha|]. apply Z.pow_le_mono_r; lia.
  - intros [-> Ha]. destruct (Z.eq_dec n 0) as [->|Hn]; [cbn; by rewrite (proj2 (Z.ltb_ge _ _)) by lia|].
    destruct (serialize_minimal n nMaxNumSize Hn Hm Ha) as (H1 & H2 & H3).
    rewrite (proj2 (Z.ltb_ge _ _)) by lia. by rewrite H2, H3.
Qed.

Lemma script_num_canonical_witness :
  CScriptNum [0xff; 0x80] true 4 = Some (-255) /\ CScriptNum [0xff; 0; 0] true 4 = None.
Proof.
  split; [|reflexivity]. apply (script_num_canonical [0xff; 0x80] 4 (-255)); [by repeat constructor|lia|]. split; [reflexivity|reflexivity].
Defined.

Lemma length_abs_bytes n x : (length (abs_bytes n x) <= n)%nat.
Proof. revert x. induction n as [|n IH]; intros x; cbn [abs_bytes]; [done|]. destruct (x =? 0); cbn [length]; [lia|]. specialize (IH (Z.shiftr x 8)). lia. Qed.

Lemma length_serialize n : (length (CScriptNum_serialize n) <= 9)%nat.
Proof.
  unfold CScriptNum_serialize. destruct (n =? 0); [cbn; lia|]. cbv zeta.
  set (r := abs_bytes 8 _). pose proof (length_abs_bytes 8 (u64 (if n <? 0 then i64 (- n) else n))). fold r in H.
  repeat case_match; rewrite ?length_app; unfold set_back; rewrite ?length_insert; cbn [length]; lia.
Qed.

(** A number read has the magnitude of its bytes. *)
Lemma CScriptNum_range vch m k n :
  Forall is_byte vch -> 0 <= k <= 7 -> CScriptNum vch m k = Some n -> Z.abs n < 2 ^ (8 * k).
Proof.
  intros Hv Hk. unfold CScriptNum. destruct (Z.ltb_spec k (Z.of_nat (length vch))); [done|].
  destruct (m && _); [done|]. intros [= <-]. destruct vch as [|b l _] using rev_ind; [cbn; apply Z.pow_pos_nonneg; lia|].
  apply Forall_app in Hv as [Hl Hb]. rewrite Forall_singleton in Hb. cbn beta in Hb. rewrite length_app in H. cbn [length] in H.
  rewrite set_vch_snoc by (done || lia). rewrite !le_value_snoc. pose proof (le_value_range l Hl) as Hr. rewrite pow256 in *.
  assert (2 ^ (8 * Z.of_nat (length l) + 8) <= 2 ^ (8 * k)) by (apply Z.pow_le_mono_r; lia).
  rewrite Z.pow_add_r in H0 by lia. change (2 ^ 8) with 256 in H0. destruct (Z.ltb_spec b 128); nia.
Qed.

Lemma abs_bytes_byte n x : Forall is_byte (abs_bytes n x).
Proof.
  revert x. induction n as [|n IH]; intros x; cbn [abs_bytes]; [done|]. destruct (x =? 0); [done|]. constructor; [|done].
  change 0xff with (Z.ones 8). rewrite Z.land_ones by lia. apply Z.mod_pos_bound. lia.
Qed.

Lemma serialize_byte n : Forall is_byte (CScriptNum_serialize n).
Proof.
  unfold CScriptNum_serialize. destruct (n =? 0); [done|]. cbv zeta. set (r := abs_bytes 8 _).
  assert (Hr : Forall is_byte r) by apply abs_bytes_byte.
  assert (Hb : 0 <= default 0 (last r) < 256).
  { destruct (last r) as [b|] eqn:E; [|cbn; lia]. rewrite Forall_forall in Hr. apply Hr. by eapply last_Some_elem_of. }
  destruct (Z.land _ 0x80 =? 0) eqn:E; cbn [negb].
  - rewrite land_0x80 in E by done. apply Z.ltb_lt in E. case_match; [|done]. unfold set_back.
    apply Forall_insert; [done|]. rewrite lor_0x80; lia.
  - apply Forall_app. split; [done|]. by destruct (n <? 0); repeat constructor.
Qed.
