(* ===== verification/Interpreter.v ===== *)
(** The script interpreter (script/interpreter.h, script/interpreter.cpp): the
    encodings of keys and signatures, the stack machine, and [VerifyScript],
    which decides whether an input may spend an output.

    The back of a [vector] used as a stack is the head of a list.  A failed
    evaluation is its [ScriptError]; the exceptions of the source (a script
    number that does not parse, an index out of range) are caught there and
    become [SCRIPT_ERR_UNKNOWN_ERROR].  [Abort] is a failed assertion.  The
    signature checker is a parameter, as it is in the source; [es_checks] lists
    the signatures and keys it was asked about.  [CheckLowS] rests on the
    vendored elliptic-curve library. *)

From stdpp Require Import list strings.
From Stdlib Require Import ZArith Lia.
From S2P Require Import Prelude Transaction Platform Sha256 Sha1 Ripemd160 Script.

(** * Results *)

Inductive ScriptError :=
  | SCRIPT_ERR_UNKNOWN_ERROR
  | SCRIPT_ERR_EVAL_FALSE
  | SCRIPT_ERR_OP_RETURN
  | SCRIPT_ERR_SCRIPT_SIZE
  | SCRIPT_ERR_PUSH_SIZE
  | SCRIPT_ERR_OP_COUNT
  | SCRIPT_ERR_STACK_SIZE
  | SCRIPT_ERR_SIG_COUNT
  | SCRIPT_ERR_PUBKEY_COUNT
  | SCRIPT_ERR_VERIFY
  | SCRIPT_ERR_EQUALVERIFY
  | SCRIPT_ERR_CHECKMULTISIGVERIFY
  | SCRIPT_ERR_CHECKSIGVERIFY
  | SCRIPT_ERR_NUMEQUALVERIFY
  | SCRIPT_ERR_BAD_OPCODE
  | SCRIPT_ERR_DISABLED_OPCODE
  | SCRIPT_ERR_INVALID_STACK_OPERATION
  | SCRIPT_ERR_INVALID_ALTSTACK_OPERATION
  | SCRIPT_ERR_UNBALANCED_CONDITIONAL
  | SCRIPT_ERR_NEGATIVE_LOCKTIME
  | SCRIPT_ERR_UNSATISFIED_LOCKTIME
  | SCRIPT_ERR_SIG_HASHTYPE
  | SCRIPT_ERR_SIG_DER
  | SCRIPT_ERR_MINIMALDATA
  | SCRIPT_ERR_SIG_PUSHONLY
  | SCRIPT_ERR_SIG_NULLDUMMY
  | SCRIPT_ERR_PUBKEYTYPE
  | SCRIPT_ERR_CLEANSTACK
  | SCRIPT_ERR_DISCOURAGE_UPGRADABLE_NOPS.

Inductive Eval (A : Type) :=
  | Ret (a : A)
  | Err (e : ScriptError)
  | Abort.
Arguments Ret {A} _.
Arguments Err {A} _.
Arguments Abort {A}.

#[global] Instance Eval_bind : MBind Eval := fun A B k m =>
  match m with Ret a => k a | Err e => Err e | Abort => Abort end.

(** The early returns of the source: the rest runs when the test does not fire. *)
Notation "'throw' e 'when' b ; next" := (if b then Err e else next)
  (at level 10, e at level 200, b at level 200, next at level 200,
   format "'[v' 'throw'  e  'when'  b ; '/' next ']'") : cscoin_scope.

(** * Flags *)

Definition SCRIPT_VERIFY_NONE : Z := 0.
Definition SCRIPT_VERIFY_P2SH : Z := 1.
Definition SCRIPT_VERIFY_STRICTENC : Z := 2.
Definition SCRIPT_VERIFY_LOW_S : Z := 8.
Definition SCRIPT_VERIFY_NULLDUMMY : Z := 16.
Definition SCRIPT_VERIFY_SIGPUSHONLY : Z := 32.
Definition SCRIPT_VERIFY_MINIMALDATA : Z := 64.
Definition SCRIPT_VERIFY_DISCOURAGE_UPGRADABLE_NOPS : Z := 128.
Definition SCRIPT_VERIFY_CLEANSTACK : Z := 256.
Definition SCRIPT_VERIFY_CHECKLOCKTIMEVERIFY : Z := 512.

(** [MANDATORY_SCRIPT_VERIFY_FLAGS], [STANDARD_SCRIPT_VERIFY_FLAGS] and the flags
    [ConnectBlock] passes. *)
Definition MANDATORY_SCRIPT_VERIFY_FLAGS : Z := SCRIPT_VERIFY_P2SH.
Definition STANDARD_SCRIPT_VERIFY_FLAGS : Z :=
  foldr Z.lor MANDATORY_SCRIPT_VERIFY_FLAGS
    [SCRIPT_VERIFY_STRICTENC; SCRIPT_VERIFY_MINIMALDATA; SCRIPT_VERIFY_NULLDUMMY; SCRIPT_VERIFY_DISCOURAGE_UPGRADABLE_NOPS;
     SCRIPT_VERIFY_CLEANSTACK; SCRIPT_VERIFY_CHECKLOCKTIMEVERIFY; SCRIPT_VERIFY_LOW_S].
Definition CONNECT_SCRIPT_VERIFY_FLAGS : Z := Z.lor SCRIPT_VERIFY_P2SH SCRIPT_VERIFY_CHECKLOCKTIMEVERIFY.

(** [(flags & flag) != 0]. *)
Definition has_flag (flags flag : Z) : bool := negb (Z.land flags flag =? 0).

(** * Encodings *)

Definition SIGHASH_ALL : Z := 1.
Definition SIGHASH_NONE : Z := 2.
Definition SIGHASH_SINGLE : Z := 3.
Definition SIGHASH_ANYONECANPAY : Z := 0x80.

(** [CastToBool]: zero and negative zero are false. *)
Fixpoint CastToBool (vch : bytes) : bool :=
  match vch with
  | [] => false
  | b :: rest => if b =? 0 then CastToBool rest else negb (bool_decide (rest = []) && (b =? 0x80))
  end.

Definition vchTrue : bytes := [1].
Definition vchFalse : bytes := [].
Definition vch_of_bool (b : bool) : bytes := if b then vchTrue else vchFalse.

Definition IsCompressedOrUncompressedPubKey (vchPubKey : bytes) : bool :=
  if (length vchPubKey <? 33)%nat then false
  else if byte_at vchPubKey 0 =? 0x04 then (length vchPubKey =? 65)%nat
  else if (byte_at vchPubKey 0 =? 0x02) || (byte_at vchPubKey 0 =? 0x03) then (length vchPubKey =? 33)%nat
  else false.

Definition bit80 (b : Z) : bool := negb (Z.land b 0x80 =? 0).

Definition IsValidSignatureEncoding (sig : bytes) : bool :=
  let size := Z.of_nat (length sig) in
  let at_ := fun i => byte_at sig (Z.to_nat i) in
  if size <? 9 then false
  else if 73 <? size then false
  else if negb (at_ 0 =? 0x30) then false
  else if negb (at_ 1 =? size - 3) then false
  else
    let lenR := at_ 3 in
    if size <=? 5 + lenR then false
    else
      let lenS := at_ (5 + lenR) in
      if negb (lenR + lenS + 7 =? size) then false
      else if negb (at_ 2 =? 0x02) then false
      else if lenR =? 0 then false
      else if bit80 (at_ 4) then false
      else if (1 <? lenR) && (at_ 4 =? 0) && negb (bit80 (at_ 5)) then false
      else if negb (at_ (lenR + 4) =? 0x02) then false
      else if lenS =? 0 then false
      else if bit80 (at_ (lenR + 6)) then false
      else negb ((1 <? lenS) && (at_ (lenR + 6) =? 0) && negb (bit80 (at_ (lenR + 7)))).

Definition IsDefinedHashtypeSignature (vchSig : bytes) : bool :=
  match last vchSig with
  | None => false
  | Some back =>
    let nHashType := Z.land back (Z.lnot SIGHASH_ANYONECANPAY) in
    negb ((nHashType <? SIGHASH_ALL) || (SIGHASH_SINGLE <? nHashType))
  end.

Definition CheckMinimalPush (data : bytes) (opcode : Z) : bool :=
  let size := Z.of_nat (length data) in
  if size =? 0 then opcode =? OP_0
  else if (size =? 1) && (1 <=? byte_at data 0) && (byte_at data 0 <=? 16) then opcode =? OP_1 + (byte_at data 0 - 1)
  else if (size =? 1) && (byte_at data 0 =? 0x81) then opcode =? OP_1NEGATE
  else if size <=? 75 then opcode =? size
  else if size <=? 255 then opcode =? OP_PUSHDATA1
  else if size <=? 65535 then opcode =? OP_PUSHDATA2
  else true.

(** * The stack machine *)

(** [BaseSignatureChecker]. *)
Record BaseSignatureChecker := mkChecker {
  CheckSig : bytes -> bytes -> bytes -> Z -> bool;
  CheckLockTime : Z -> bool;
}.

Record EvalState := mkEvalState {
  es_stack : list bytes;
  es_altstack : list bytes;
  es_vfExec : list bool;
  es_nOpCount : Z;
  es_checks : list (bytes * bytes);
}.

#[global] Instance EvalState_eta : Eta EvalState := fun r =>
  mkEvalState (es_stack r) (es_altstack r) (es_vfExec r) (es_nOpCount r) (es_checks r).

Section interpreter.
Context (CheckLowS : bytes -> bool) (checker : BaseSignatureChecker) (consensusBranchId : Z) (flags : Z).

(** The last byte of a signature is its hash type. *)
Definition IsLowDERSignature (vchSig : bytes) : bool :=
  IsValidSignatureEncoding vchSig && CheckLowS (take (length vchSig - 1) vchSig).

(** A signature with a high S value leaves the error as [EvalScript] set it. *)
Definition CheckSignatureEncoding (vchSig : bytes) : Eval unit :=
  if (length vchSig =? 0)%nat then Ret tt
  else
    throw SCRIPT_ERR_SIG_DER when negb (IsValidSignatureEncoding vchSig);
    throw SCRIPT_ERR_UNKNOWN_ERROR when has_flag flags SCRIPT_VERIFY_LOW_S && negb (IsLowDERSignature vchSig);
    throw SCRIPT_ERR_SIG_HASHTYPE when has_flag flags SCRIPT_VERIFY_STRICTENC && negb (IsDefinedHashtypeSignature vchSig);
    Ret tt.

Definition CheckPubKeyEncoding (vchPubKey : bytes) : Eval unit :=
  throw SCRIPT_ERR_PUBKEYTYPE when has_flag flags SCRIPT_VERIFY_STRICTENC && negb (IsCompressedOrUncompressedPubKey vchPubKey);
  Ret tt.

Definition fRequireMinimal : bool := has_flag flags SCRIPT_VERIFY_MINIMALDATA.

(** [CScriptNum(vch, fRequireMinimal, nMaxNumSize)]. *)
Definition read_num_at (nMaxNumSize : Z) (vch : bytes) : Eval Z :=
  match CScriptNum vch fRequireMinimal nMaxNumSize with
  | Some n => Ret n
  | None => Err SCRIPT_ERR_UNKNOWN_ERROR
  end.

Abbreviation read_num := (read_num_at nDefaultMaxNumSize).

Abbreviation invalid := (Err SCRIPT_ERR_INVALID_STACK_OPERATION).
Abbreviation with_stack s st := (s <| es_stack := st |>).

(** ** Push value *)

Definition op_push_number (opcode : Z) (s : EvalState) : Eval EvalState :=
  Ret (with_stack s (CScriptNum_serialize (opcode - (OP_1 - 1)) :: es_stack s)).

(** ** Control *)

Definition op_nop (s : EvalState) : Eval EvalState :=
  throw SCRIPT_ERR_DISCOURAGE_UPGRADABLE_NOPS when has_flag flags SCRIPT_VERIFY_DISCOURAGE_UPGRADABLE_NOPS;
  Ret s.

Definition op_checklocktimeverify (s : EvalState) : Eval EvalState :=
  if negb (has_flag flags SCRIPT_VERIFY_CHECKLOCKTIMEVERIFY) then op_nop s
  else
    match es_stack s with
    | [] => invalid
    | top :: _ =>
      nLockTime ← read_num_at 5 top;
      throw SCRIPT_ERR_NEGATIVE_LOCKTIME when nLockTime <? 0;
      throw SCRIPT_ERR_UNSATISFIED_LOCKTIME when negb (CheckLockTime checker nLockTime);
      Ret s
    end.

Definition op_if (opcode : Z) (fExec : bool) (s : EvalState) : Eval EvalState :=
  if fExec then
    match es_stack s with
    | [] => Err SCRIPT_ERR_UNBALANCED_CONDITIONAL
    | vch :: rest =>
      let fValue := if opcode =? OP_NOTIF then negb (CastToBool vch) else CastToBool vch in
      Ret (s <| es_stack := rest |> <| es_vfExec ::= cons fValue |>)
    end
  else Ret (s <| es_vfExec ::= cons false |>).

Definition op_else (s : EvalState) : Eval EvalState :=
  match es_vfExec s with
  | [] => Err SCRIPT_ERR_UNBALANCED_CONDITIONAL
  | b :: rest => Ret (s <| es_vfExec := negb b :: rest |>)
  end.

Definition op_endif (s : EvalState) : Eval EvalState :=
  match es_vfExec s with
  | [] => Err SCRIPT_ERR_UNBALANCED_CONDITIONAL
  | _ :: rest => Ret (s <| es_vfExec := rest |>)
  end.

Definition op_verify (s : EvalState) : Eval EvalState :=
  match es_stack s with
  | [] => invalid
  | top :: rest => if CastToBool top then Ret (with_stack s rest) else Err SCRIPT_ERR_VERIFY
  end.

(** ** Stack ops *)

Definition op_toaltstack (s : EvalState) : Eval EvalState :=
  match es_stack s with
  | [] => invalid
  | top :: rest => Ret (s <| es_altstack ::= cons top |> <| es_stack := rest |>)
  end.

Definition op_fromaltstack (s : EvalState) : Eval EvalState :=
  match es_altstack s with
  | [] => Err SCRIPT_ERR_INVALID_ALTSTACK_OPERATION
  | top :: rest => Ret (s <| es_stack ::= cons top |> <| es_altstack := rest |>)
  end.

(** The operations that only rearrange the stack: [None] when it is too short. *)
Definition shuffle (opcode : Z) (stack : list bytes) : option (list bytes) :=
  if opcode =? OP_2DROP then match stack with _ :: _ :: r => Some r | _ => None end
  else if opcode =? OP_2DUP then match stack with x2 :: x1 :: r => Some (x2 :: x1 :: x2 :: x1 :: r) | _ => None end
  else if opcode =? OP_3DUP then match stack with x3 :: x2 :: x1 :: r => Some (x3 :: x2 :: x1 :: x3 :: x2 :: x1 :: r) | _ => None end
  else if opcode =? OP_2OVER then match stack with x4 :: x3 :: x2 :: x1 :: r => Some (x2 :: x1 :: x4 :: x3 :: x2 :: x1 :: r) | _ => None end
  else if opcode =? OP_2ROT then
    match stack with x6 :: x5 :: x4 :: x3 :: x2 :: x1 :: r => Some (x2 :: x1 :: x6 :: x5 :: x4 :: x3 :: r) | _ => None end
  else if opcode =? OP_2SWAP then match stack with x4 :: x3 :: x2 :: x1 :: r => Some (x2 :: x1 :: x4 :: x3 :: r) | _ => None end
  else if opcode =? OP_IFDUP then match stack with x :: r => Some (if CastToBool x then x :: x :: r else x :: r) | _ => None end
  else if opcode =? OP_DEPTH then Some (CScriptNum_serialize (Z.of_nat (length stack)) :: stack)
  else if opcode =? OP_DROP then match stack with _ :: r => Some r | _ => None end
  else if opcode =? OP_DUP then match stack with x :: r => Some (x :: x :: r) | _ => None end
  else if opcode =? OP_NIP then match stack with x2 :: _ :: r => Some (x2 :: r) | _ => None end
  else if opcode =? OP_OVER then match stack with x2 :: x1 :: r => Some (x1 :: x2 :: x1 :: r) | _ => None end
  else if opcode =? OP_ROT then match stack with x3 :: x2 :: x1 :: r => Some (x1 :: x3 :: x2 :: r) | _ => None end
  else if opcode =? OP_SWAP then match stack with x2 :: x1 :: r => Some (x1 :: x2 :: r) | _ => None end
  else if opcode =? OP_TUCK then match stack with x2 :: x1 :: r => Some (x2 :: x1 :: x2 :: r) | _ => None end
  else (* OP_SIZE *) match stack with x :: r => Some (CScriptNum_serialize (Z.of_nat (length x)) :: x :: r) | _ => None end.

Definition op_shuffle (opcode : Z) (s : EvalState) : Eval EvalState :=
  match shuffle opcode (es_stack s) with
  | None => invalid
  | Some st => Ret (with_stack s st)
  end.

(** OP_PICK and OP_ROLL. *)
Definition op_pick (opcode : Z) (s : EvalState) : Eval EvalState :=
  match es_stack s with
  | top :: ((_ :: _) as stack) =>
    n ← read_num top;
    let n := getint n in
    throw SCRIPT_ERR_INVALID_STACK_OPERATION when (n <? 0) || (Z.of_nat (length stack) <=? n);
    match stack !! Z.to_nat n with
    | None => Err SCRIPT_ERR_UNKNOWN_ERROR
    | Some vch => Ret (with_stack s (vch :: (if opcode =? OP_ROLL then delete (Z.to_nat n) stack else stack)))
    end
  | _ => invalid
  end.

(** ** Bitwise logic *)

Definition op_equal (opcode : Z) (s : EvalState) : Eval EvalState :=
  match es_stack s with
  | vch2 :: vch1 :: rest =>
    let fEqual := bool_decide (vch1 = vch2) in
    if opcode =? OP_EQUALVERIFY then
      if fEqual then Ret (with_stack s rest) else Err SCRIPT_ERR_EQUALVERIFY
    else Ret (with_stack s (vch_of_bool fEqual :: rest))
  | _ => invalid
  end.

(** ** Numeric *)

(** [+=] and [-=] with their assertions, and the negation. *)
Definition num_add_to (n rhs : Z) : Eval Z :=
  if (rhs =? 0) || ((0 <? rhs) && (n <=? 9223372036854775807 - rhs)) || ((rhs <? 0) && (-9223372036854775808 - rhs <=? n))
  then Ret (n + rhs) else Abort.
Definition num_sub_from (n rhs : Z) : Eval Z :=
  if (rhs =? 0) || ((0 <? rhs) && (-9223372036854775808 + rhs <=? n)) || ((rhs <? 0) && (n <=? 9223372036854775807 + rhs))
  then Ret (n - rhs) else Abort.
Definition num_neg (n : Z) : Eval Z := if n =? -9223372036854775808 then Abort else Ret (- n).

Definition num_of_bool (b : bool) : Z := if b then 1 else 0.

Definition unary (opcode bn : Z) : Eval Z :=
  if opcode =? OP_1ADD then num_add_to bn 1
  else if opcode =? OP_1SUB then num_sub_from bn 1
  else if opcode =? OP_NEGATE then num_neg bn
  else if opcode =? OP_ABS then (if bn <? 0 then num_neg bn else Ret bn)
  else if opcode =? OP_NOT then Ret (num_of_bool (bn =? 0))
  else (* OP_0NOTEQUAL *) Ret (num_of_bool (negb (bn =? 0))).

Definition op_unary (opcode : Z) (s : EvalState) : Eval EvalState :=
  match es_stack s with
  | [] => invalid
  | top :: rest =>
    bn ← read_num top;
    bn ← unary opcode bn;
    Ret (with_stack s (CScriptNum_serialize bn :: rest))
  end.

Definition binary (opcode bn1 bn2 : Z) : Z :=
  if opcode =? OP_ADD then i64 (bn1 + bn2)
  else if opcode =? OP_SUB then i64 (bn1 - bn2)
  else if opcode =? OP_BOOLAND then num_of_bool (negb (bn1 =? 0) && negb (bn2 =? 0))
  else if opcode =? OP_BOOLOR then num_of_bool (negb (bn1 =? 0) || negb (bn2 =? 0))
  else if (opcode =? OP_NUMEQUAL) || (opcode =? OP_NUMEQUALVERIFY) then num_of_bool (bn1 =? bn2)
  else if opcode =? OP_NUMNOTEQUAL then num_of_bool (negb (bn1 =? bn2))
  else if opcode =? OP_LESSTHAN then num_of_bool (bn1 <? bn2)
  else if opcode =? OP_GREATERTHAN then num_of_bool (bn2 <? bn1)
  else if opcode =? OP_LESSTHANOREQUAL then num_of_bool (bn1 <=? bn2)
  else if opcode =? OP_GREATERTHANOREQUAL then num_of_bool (bn2 <=? bn1)
  else if opcode =? OP_MIN then (if bn1 <? bn2 then bn1 else bn2)
  else (* OP_MAX *) (if bn2 <? bn1 then bn1 else bn2).

Definition op_binary (opcode : Z) (s : EvalState) : Eval EvalState :=
  match es_stack s with
  | x2 :: x1 :: rest =>
    bn1 ← read_num x1;
    bn2 ← read_num x2;
    let vch := CScriptNum_serialize (binary opcode bn1 bn2) in
    if opcode =? OP_NUMEQUALVERIFY then
      if CastToBool vch then Ret (with_stack s rest) else Err SCRIPT_ERR_NUMEQUALVERIFY
    else Ret (with_stack s (vch :: rest))
  | _ => invalid
  end.

Definition op_within (s : EvalState) : Eval EvalState :=
  match es_stack s with
  | x3 :: x2 :: x1 :: rest =>
    bn1 ← read_num x1;
    bn2 ← read_num x2;
    bn3 ← read_num x3;
    Ret (with_stack s (vch_of_bool ((bn2 <=? bn1) && (bn1 <? bn3)) :: rest))
  | _ => invalid
  end.

(** ** Crypto *)

Definition hash_of (opcode : Z) (vch : bytes) : bytes :=
  if opcode =? OP_RIPEMD160 then RIPEMD160 vch
  else if opcode =? OP_SHA1 then SHA1 vch
  else if opcode =? OP_SHA256 then SHA256 vch
  else if opcode =? OP_HASH160 then Hash160 vch
  else (* OP_HASH256 *) Hash256 vch.

Definition op_hash (opcode : Z) (s : EvalState) : Eval EvalState :=
  match es_stack s with
  | [] => invalid
  | vch :: rest => Ret (with_stack s (hash_of opcode vch :: rest))
  end.

(** [popstack] of the operands, then the result, or its check. *)
Definition push_result (verify : bool) (e : ScriptError) (fSuccess : bool) (rest : list bytes) (s : EvalState) : Eval EvalState :=
  if verify then
    if fSuccess then Ret (with_stack s rest) else Err e
  else Ret (with_stack s (vch_of_bool fSuccess :: rest)).

Definition op_checksig (script : bytes) (opcode : Z) (s : EvalState) : Eval EvalState :=
  match es_stack s with
  | vchPubKey :: vchSig :: rest =>
    _ ← CheckSignatureEncoding vchSig;
    _ ← CheckPubKeyEncoding vchPubKey;
    let fSuccess := CheckSig checker vchSig vchPubKey script consensusBranchId in
    push_result (opcode =? OP_CHECKSIGVERIFY) SCRIPT_ERR_CHECKSIGVERIFY fSuccess rest
      (s <| es_checks ::= fun l => l ++ [(vchSig, vchPubKey)] |>)
  | _ => invalid
  end.

(** [stacktop(-i)]. *)
Definition stacktop (stack : list bytes) (i : nat) : Eval bytes :=
  match stack !! (i - 1)%nat with Some vch => Ret vch | None => Err SCRIPT_ERR_UNKNOWN_ERROR end.

(** The loop of OP_CHECKMULTISIG: the keys and the signatures left, where they
    are, and the pairs checked so far.  A round takes a key. *)
Fixpoint multisig_loop (script : bytes) (stack : list bytes) (nKeysCount nSigsCount isig ikey : nat) (checks : list (bytes * bytes))
    : Eval (bool * list (bytes * bytes)) :=
  match nSigsCount, nKeysCount with
  | O, _ => Ret (true, checks)
  | S _, O => Ret (false, checks)
  | S sigs, S keys =>
    vchSig ← stacktop stack isig;
    vchPubKey ← stacktop stack ikey;
    _ ← CheckSignatureEncoding vchSig;
    _ ← CheckPubKeyEncoding vchPubKey;
    let fOk := CheckSig checker vchSig vchPubKey script consensusBranchId in
    let checks := checks ++ [(vchSig, vchPubKey)] in
    let isig := if fOk then S isig else isig in
    let nSigsCount := if fOk then sigs else S sigs in
    if (keys <? nSigsCount)%nat then Ret (false, checks)
    else multisig_loop script stack keys nSigsCount isig (S ikey) checks
  end.

Definition op_checkmultisig (script : bytes) (opcode : Z) (s : EvalState) : Eval EvalState :=
  let stack := es_stack s in
  let size := Z.of_nat (length stack) in
  throw SCRIPT_ERR_INVALID_STACK_OPERATION when size <? 1;
  top ← stacktop stack 1;
  n ← read_num top;
  let nKeysCount := getint n in
  throw SCRIPT_ERR_PUBKEY_COUNT when (nKeysCount <? 0) || (20 <? nKeysCount);
  let nOpCount := es_nOpCount s + nKeysCount in
  throw SCRIPT_ERR_OP_COUNT when 201 <? nOpCount;
  let ikey := 2%nat in
  let i := 2 + nKeysCount in
  throw SCRIPT_ERR_INVALID_STACK_OPERATION when size <? i;
  x ← stacktop stack (Z.to_nat i);
  m ← read_num x;
  let nSigsCount := getint m in
  throw SCRIPT_ERR_SIG_COUNT when (nSigsCount <? 0) || (nKeysCount <? nSigsCount);
  let isig := Z.to_nat (i + 1) in
  let i := i + 1 + nSigsCount in
  throw SCRIPT_ERR_INVALID_STACK_OPERATION when size <? i;
  r ← multisig_loop script stack (Z.to_nat nKeysCount) (Z.to_nat nSigsCount) isig ikey (es_checks s);
  match drop (Z.to_nat (i - 1)) stack with
  | [] => invalid
  | dummy :: rest =>
    throw SCRIPT_ERR_SIG_NULLDUMMY when has_flag flags SCRIPT_VERIFY_NULLDUMMY && negb (length dummy =? 0)%nat;
    push_result (opcode =? OP_CHECKMULTISIGVERIFY) SCRIPT_ERR_CHECKMULTISIGVERIFY r.1 rest
      (s <| es_nOpCount := nOpCount |> <| es_checks := r.2 |>)
  end.

(** ** The loop *)

Definition between (lo hi opcode : Z) : bool := (lo <=? opcode) && (opcode <=? hi).
Definition one_of (opcodes : list Z) (opcode : Z) : bool := existsb (Z.eqb opcode) opcodes.

Definition disabled : Z -> bool :=
  one_of [OP_CAT; OP_SUBSTR; OP_LEFT; OP_RIGHT; OP_INVERT; OP_AND; OP_OR; OP_XOR; OP_2MUL; OP_2DIV; OP_MUL; OP_DIV; OP_MOD;
          OP_LSHIFT; OP_RSHIFT; OP_CODESEPARATOR].

(** The [switch]. *)
Definition eval_op (script : bytes) (opcode : Z) (fExec : bool) (s : EvalState) : Eval EvalState :=
  if (opcode =? OP_1NEGATE) || between OP_1 OP_16 opcode then op_push_number opcode s
  else if opcode =? OP_NOP then Ret s
  else if opcode =? OP_CHECKLOCKTIMEVERIFY then op_checklocktimeverify s
  else if (opcode =? OP_NOP1) || between OP_NOP3 OP_NOP10 opcode then op_nop s
  else if one_of [OP_IF; OP_NOTIF] opcode then op_if opcode fExec s
  else if opcode =? OP_ELSE then op_else s
  else if opcode =? OP_ENDIF then op_endif s
  else if opcode =? OP_VERIFY then op_verify s
  else if opcode =? OP_RETURN then Err SCRIPT_ERR_OP_RETURN
  else if opcode =? OP_TOALTSTACK then op_toaltstack s
  else if opcode =? OP_FROMALTSTACK then op_fromaltstack s
  else if one_of [OP_PICK; OP_ROLL] opcode then op_pick opcode s
  else if between OP_2DROP OP_TUCK opcode || (opcode =? OP_SIZE) then op_shuffle opcode s
  else if one_of [OP_EQUAL; OP_EQUALVERIFY] opcode then op_equal opcode s
  else if one_of [OP_1ADD; OP_1SUB; OP_NEGATE; OP_ABS; OP_NOT; OP_0NOTEQUAL] opcode then op_unary opcode s
  else if one_of [OP_ADD; OP_SUB] opcode || between OP_BOOLAND OP_MAX opcode then op_binary opcode s
  else if opcode =? OP_WITHIN then op_within s
  else if between OP_RIPEMD160 OP_HASH256 opcode then op_hash opcode s
  else if one_of [OP_CHECKSIG; OP_CHECKSIGVERIFY] opcode then op_checksig script opcode s
  else if one_of [OP_CHECKMULTISIG; OP_CHECKMULTISIGVERIFY] opcode then op_checkmultisig script opcode s
  else Err SCRIPT_ERR_BAD_OPCODE.

(** What an instruction does once it is read and counted. *)
Definition exec_op (script : bytes) (opcode : Z) (vchPushValue : bytes) (s : EvalState) : Eval EvalState :=
  let fExec := forallb id (es_vfExec s) in
  if fExec && (opcode <=? OP_PUSHDATA4) then
    throw SCRIPT_ERR_MINIMALDATA when fRequireMinimal && negb (CheckMinimalPush vchPushValue opcode);
    Ret (with_stack s (vchPushValue :: es_stack s))
  else if fExec || between OP_IF OP_ENDIF opcode then eval_op script opcode fExec s
  else Ret s.

(** One round: the position after the instruction, and the new state. *)
Definition eval_step (script pc : bytes) (s : EvalState) : Eval (bytes * EvalState) :=
  match GetOp pc with
  | None => Err SCRIPT_ERR_BAD_OPCODE
  | Some (opcode, vchPushValue, pc) =>
    throw SCRIPT_ERR_PUSH_SIZE when MAX_SCRIPT_ELEMENT_SIZE <? Z.of_nat (length vchPushValue);
    let s := if OP_16 <? opcode then s <| es_nOpCount ::= Z.succ |> else s in
    throw SCRIPT_ERR_OP_COUNT when (OP_16 <? opcode) && (201 <? es_nOpCount s);
    throw SCRIPT_ERR_DISABLED_OPCODE when disabled opcode;
    s ← exec_op script opcode vchPushValue s;
    throw SCRIPT_ERR_STACK_SIZE when 1000 <? Z.of_nat (length (es_stack s)) + Z.of_nat (length (es_altstack s));
    Ret (pc, s)
  end.

(** The [while (pc < pend)] loop; an instruction takes at least a byte, so the
    length of the script bounds the rounds. *)
Fixpoint eval_loop (fuel : nat) (script pc : bytes) (s : EvalState) : Eval EvalState :=
  match pc, fuel with
  | [], _ => Ret s
  | _, O => Abort
  | _, S fuel => r ← eval_step script pc s; eval_loop fuel script r.1 r.2
  end.

(** [EvalScript]: the stack it leaves, and what the checker was asked. *)
Definition EvalScript (stack : list bytes) (script : bytes) : Eval (list bytes * list (bytes * bytes)) :=
  throw SCRIPT_ERR_SCRIPT_SIZE when MAX_SCRIPT_SIZE <? Z.of_nat (length script);
  s ← eval_loop (length script) script script (mkEvalState stack [] [] 0 []);
  throw SCRIPT_ERR_UNBALANCED_CONDITIONAL when negb (bool_decide (es_vfExec s = []));
  Ret (es_stack s, es_checks s).

(** ** Spending an output *)

(** The tests on the stack a script leaves. *)
Definition eval_true (stack : list bytes) : Eval unit :=
  match stack with
  | [] => Err SCRIPT_ERR_EVAL_FALSE
  | top :: _ => if CastToBool top then Ret tt else Err SCRIPT_ERR_EVAL_FALSE
  end.

(** The additional validation of pay-to-script-hash outputs, on the stack the
    scriptSig left. *)
Definition verify_p2sh (scriptSig : bytes) (stackCopy : list bytes) : Eval (list bytes) :=
  throw SCRIPT_ERR_SIG_PUSHONLY when negb (IsPushOnly scriptSig);
  match stackCopy with
  | [] => Abort
  | pubKeySerialized :: stack =>
    r ← EvalScript stack pubKeySerialized;
    _ ← eval_true r.1;
    Ret r.1
  end.

Definition VerifyScript (scriptSig scriptPubKey : bytes) : Eval unit :=
  throw SCRIPT_ERR_SIG_PUSHONLY when has_flag flags SCRIPT_VERIFY_SIGPUSHONLY && negb (IsPushOnly scriptSig);
  r ← EvalScript [] scriptSig;
  let stackCopy := r.1 in
  r ← EvalScript stackCopy scriptPubKey;
  _ ← eval_true r.1;
  stack ← (if has_flag flags SCRIPT_VERIFY_P2SH && IsPayToScriptHash scriptPubKey then verify_p2sh scriptSig stackCopy else Ret r.1);
  if has_flag flags SCRIPT_VERIFY_CLEANSTACK then
    if negb (has_flag flags SCRIPT_VERIFY_P2SH) then Abort
    else
      throw SCRIPT_ERR_CLEANSTACK when negb (length stack =? 1)%nat;
      Ret tt
  else Ret tt.

End interpreter.

(** * The checker of a transaction *)

(** [CPubKey(vch).IsValid()]. *)
Definition pubkey_valid (vch : bytes) : bool :=
  match vch with
  | [] => false
  | b :: _ => negb (GetLen b =? 0) && (GetLen b =? Z.of_nat (length vch))
  end.

(** [CTxIn::IsFinal]. *)
Definition CTxIn_IsFinal (txin : CTxIn) : bool := nSequence txin =? 4294967295.

Section transaction_checker.

(** [CPubKey::Verify] rests on the elliptic-curve library; [SignatureHash] of
    the input, by script code, hash type and branch, is [None] where the source
    throws. *)
Context (Verify : bytes -> Z -> bytes -> bool) (SignatureHash : bytes -> Z -> Z -> option Z).
Context (txLockTime : Z) (txin : CTxIn).

(** [TransactionSignatureChecker::CheckSig]. *)
Definition tx_CheckSig (vchSigIn vchPubKey scriptCode : bytes) (consensusBranchId : Z) : bool :=
  if negb (pubkey_valid vchPubKey) then false
  else
    match last vchSigIn with
    | None => false
    | Some nHashType =>
      match SignatureHash scriptCode nHashType consensusBranchId with
      | None => false
      | Some sighash => Verify vchPubKey sighash (take (length vchSigIn - 1) vchSigIn)
      end
    end.

(** [TransactionSignatureChecker::CheckLockTime]. *)
Definition tx_CheckLockTime (nLockTime : Z) : bool :=
  if negb (((txLockTime <? LOCKTIME_THRESHOLD) && (nLockTime <? LOCKTIME_THRESHOLD)) ||
           ((LOCKTIME_THRESHOLD <=? txLockTime) && (LOCKTIME_THRESHOLD <=? nLockTime))) then false
  else if txLockTime <? nLockTime then false
  else negb (CTxIn_IsFinal txin).

Definition TransactionSignatureChecker : BaseSignatureChecker := mkChecker tx_CheckSig tx_CheckLockTime.

End transaction_checker.
