(* ===== verification/ScriptBounds.v ===== *)
(** Bounds of the script interpreter: whatever the script, evaluation returns, no
    assertion fails, the items and the stacks keep their limits, and the checker
    is asked no more often than the operation limit and the signature-operation
    count of the script allow. *)

From stdpp Require Import list strings.
From Stdlib Require Import ZArith Lia.
From S2P Require Import Prelude Transaction Platform Hasher Sha256 Sha1 Ripemd160 Script ScriptNum Interpreter.

(** * Reading instructions *)

Lemma push_size_rest opcode pc n pc' :
  push_size opcode pc = Some (n, pc') -> (length pc' <= length pc)%nat /\ (Forall is_byte pc -> Forall is_byte pc').
Proof.
  unfold push_size. intros Hp. repeat case_match; simplify_eq; rewrite ?length_drop; split; try lia; intros; auto; by apply Forall_drop.
Qed.

(** An instruction takes at least a byte, and what it pushes are bytes of the
    script. *)
Lemma GetOp_rest pc opcode vch pc' :
  GetOp pc = Some (opcode, vch, pc') ->
  (length pc' < length pc)%nat /\ (Forall is_byte pc -> 0 <= opcode < 256 /\ Forall is_byte vch /\ Forall is_byte pc').
Proof.
  unfold GetOp. intros Hp. destruct pc as [|op pc]; [done|]. destruct (op <=? OP_PUSHDATA4).
  - destruct (push_size op pc) as [[n r]|] eqn:E; [|done]. cbn in Hp. destruct (_ <? n); [done|]. simplify_eq.
    apply push_size_rest in E as [E1 E2]. rewrite length_drop. cbn [length]. split; [lia|]. intros [Hb Hl]%Forall_cons.
    split; [done|]. split; [by apply Forall_take, E2|by apply Forall_drop, E2].
  - simplify_eq. cbn [length]. split; [lia|]. by intros [? ?]%Forall_cons.
Qed.

(** * Results that cannot abort *)

Definition post {A} (Q : A -> Prop) (m : Eval A) : Prop :=
  match m with Ret a => Q a | Err _ => True | Abort => False end.

Lemma post_bind {A B} (P : A -> Prop) (Q : B -> Prop) m (k : A -> Eval B) :
  post P m -> (forall a, P a -> post Q (k a)) -> post Q (m ≫= k).
Proof. destruct m; cbn; auto. Qed.

Lemma post_mono {A} (P Q : A -> Prop) m : post P m -> (forall a, P a -> Q a) -> post Q m.
Proof. destruct m; cbn; auto. Qed.

Lemma post_throw {A} (Q : A -> Prop) (b : bool) e m : (b = false -> post Q m) -> post Q (if b then Err e else m).
Proof. destruct b; cbn; auto. Qed.

(** An item of the stack. *)
Definition item (v : bytes) : Prop := (length v <= 520)%nat /\ Forall is_byte v.

Lemma item_serialize n : item (CScriptNum_serialize n).
Proof. split; [pose proof (length_serialize n); lia|apply serialize_byte]. Qed.

Lemma item_bool b : item (vch_of_bool b).
Proof. destruct b; split; cbn; try lia; by repeat constructor. Qed.

Lemma regs5_byte order s : (forall n x, Forall is_byte (order n x)) -> Forall is_byte (regs5_bytes order s).
Proof. intros Ho. unfold regs5_bytes. rewrite !Forall_app. auto. Qed.

Lemma le_bytes_byte n x : Forall is_byte (le_bytes n x).
Proof. apply digits_range. lia. Qed.

Lemma be_bytes_byte n x : Forall is_byte (be_bytes n x).
Proof. apply Forall_rev, le_bytes_byte. Qed.

Lemma item_RIPEMD160 v : item (RIPEMD160 v).
Proof. split; [rewrite length_RIPEMD160; lia|apply regs5_byte, le_bytes_byte]. Qed.

Lemma item_SHA1 v : item (SHA1 v).
Proof. split; [rewrite length_SHA1; lia|apply regs5_byte, be_bytes_byte]. Qed.

Lemma item_SHA256 v : item (SHA256 v).
Proof. split; [rewrite length_SHA256; lia|apply SHA256_range]. Qed.

Lemma item_hash opcode v : item (hash_of opcode v).
Proof.
  unfold hash_of. destruct (_ =? _); [apply item_RIPEMD160|]. destruct (_ =? _); [apply item_SHA1|].
  destruct (_ =? _); [apply item_SHA256|]. destruct (_ =? _); [apply item_RIPEMD160|apply item_SHA256].
Qed.

#[local] Hint Resolve item_serialize item_bool item_hash : core.

Section machine.
Context (CheckLowS : bytes -> bool) (checker : BaseSignatureChecker) (branch : Z) (flags : Z).

(** * Operations without signatures *)

Definition good (s : EvalState) : Prop := Forall item (es_stack s) /\ Forall item (es_altstack s).
Definition quiet (s s' : EvalState) : Prop := es_checks s' = es_checks s /\ es_nOpCount s' = es_nOpCount s.

(** The numbers the operations compute with are small. *)
Lemma read_num_post k v : 0 <= k <= 5 -> item v -> post (fun n => Z.abs n < 2 ^ 40) (read_num_at flags k v).
Proof.
  intros Hk [_ Hv]. unfold read_num_at. destruct (CScriptNum v _ k) as [n|] eqn:E; [|done]. cbn.
  apply CScriptNum_range in E; [|done|lia]. eapply Z.lt_le_trans; [done|]. apply Z.pow_le_mono_r; lia.
Qed.

Lemma read_num_default v : item v -> post (fun n => Z.abs n < 2 ^ 40) (read_num_at flags nDefaultMaxNumSize v).
Proof. apply read_num_post. unfold nDefaultMaxNumSize. lia. Qed.

Lemma unary_post opcode n : Z.abs n < 2 ^ 40 -> post (fun _ => True) (unary opcode n).
Proof.
  intros Hn. unfold unary, num_add_to, num_sub_from, num_neg. repeat case_match; cbn; try done; lia.
Qed.

(** Takes apart and rebuilds lists of items. *)
Ltac items :=
  repeat match goal with H : Forall item (_ :: _) |- _ => apply Forall_cons in H as [? ?] end;
  repeat match goal with |- Forall item (_ :: _) => apply Forall_cons; split end; auto.

(** Destructs the stack, takes the numbers read, and rebuilds the invariant. *)
Ltac op_case :=
  repeat first
    [ apply post_throw; intros ?
    | eapply post_bind; [by apply read_num_default|cbn beta; intros ? ?]
    | eapply post_bind; [by apply unary_post|cbn beta; intros ? ?]
    | case_match; simplify_eq; items ];
  cbn; try done; repeat split; cbn; auto; items.

Ltac op_solve :=
  let st := fresh "st" in let al := fresh "al" in let Hs := fresh "Hs" in let Ha := fresh "Ha" in
  intros [Hs Ha]; match goal with s : EvalState |- _ => destruct s as [st al vf n ch] end; unfold quiet; cbn [es_stack es_altstack] in *;
  op_case.

Lemma ret_post s : good s -> post (fun s' => good s' /\ quiet s s') (Ret s).
Proof. by intros Hg. Qed.

Lemma op_push_number_post opcode s : good s -> post (fun s' => good s' /\ quiet s s') (op_push_number opcode s).
Proof. unfold op_push_number. op_solve. Qed.

Lemma op_nop_post s : good s -> post (fun s' => good s' /\ quiet s s') (op_nop flags s).
Proof. unfold op_nop. op_solve. Qed.

Lemma op_checklocktimeverify_post s : good s -> post (fun s' => good s' /\ quiet s s') (op_checklocktimeverify checker flags s).
Proof.
  unfold op_checklocktimeverify, op_nop. intros [Hs Ha]. case_match; [op_case|]. destruct (es_stack s) as [|x st] eqn:E; [done|].
  eapply post_bind; [apply (read_num_post 5); [lia|by inversion Hs]|]. intros n _. do 2 (apply post_throw; intros _). by repeat split; rewrite ?E.
Qed.

Lemma op_if_post opcode fExec s : good s -> post (fun s' => good s' /\ quiet s s') (op_if opcode fExec s).
Proof. unfold op_if. op_solve. Qed.

Lemma op_else_post s : good s -> post (fun s' => good s' /\ quiet s s') (op_else s).
Proof. unfold op_else. op_solve. Qed.

Lemma op_endif_post s : good s -> post (fun s' => good s' /\ quiet s s') (op_endif s).
Proof. unfold op_endif. op_solve. Qed.

Lemma op_verify_post s : good s -> post (fun s' => good s' /\ quiet s s') (op_verify s).
Proof. unfold op_verify. op_solve. Qed.

Lemma op_altstack_post s : good s ->
  post (fun s' => good s' /\ quiet s s') (op_toaltstack s) /\ post (fun s' => good s' /\ quiet s s') (op_fromaltstack s).
Proof. unfold op_toaltstack, op_fromaltstack. intros Hg. split; revert Hg; op_solve. Qed.

Lemma shuffle_item opcode st st' : Forall item st -> shuffle opcode st = Some st' -> Forall item st'.
Proof. unfold shuffle. intros Hs Hsh. repeat case_match; simplify_eq; items. Qed.

Lemma op_shuffle_post opcode s : good s -> post (fun s' => good s' /\ quiet s s') (op_shuffle opcode s).
Proof.
  intros [Hs Ha]. unfold op_shuffle. destruct (shuffle opcode (es_stack s)) as [st|] eqn:E; [|done].
  split; [split; [exact (shuffle_item _ _ _ Hs E)|done]|done].
Qed.

Lemma op_pick_post opcode s : good s -> post (fun s' => good s' /\ quiet s s') (op_pick flags opcode s).
Proof.
  intros [Hs Ha]. unfold op_pick. destruct (es_stack s) as [|x [|y st]]; [done|done|]. apply Forall_cons in Hs as [Hx Hs].
  eapply post_bind; [by apply read_num_default|]. intros n _. cbv zeta. apply post_throw. intros _.
  destruct ((y :: st) !! Z.to_nat (getint n)) as [v|] eqn:E; [|done]. split; [split; [cbn|done]|done].
  apply Forall_cons. split; [exact (Forall_lookup_1 _ _ _ _ Hs E)|]. destruct (opcode =? OP_ROLL); [by apply Forall_delete|done].
Qed.

Lemma op_equal_post opcode s : good s -> post (fun s' => good s' /\ quiet s s') (op_equal opcode s).
Proof. unfold op_equal. op_solve. Qed.

Lemma op_unary_post opcode s : good s -> post (fun s' => good s' /\ quiet s s') (op_unary flags opcode s).
Proof. unfold op_unary. op_solve. Qed.

Lemma op_binary_post opcode s : good s -> post (fun s' => good s' /\ quiet s s') (op_binary flags opcode s).
Proof. unfold op_binary. op_solve. Qed.

Lemma op_within_post s : good s -> post (fun s' => good s' /\ quiet s s') (op_within flags s).
Proof. unfold op_within. op_solve. Qed.

Lemma op_hash_post opcode s : good s -> post (fun s' => good s' /\ quiet s s') (op_hash opcode s).
Proof. unfold op_hash. op_solve. Qed.

(** * Signatures *)

Lemma encodings_post vchSig vchPubKey :
  post (fun _ => True) (CheckSignatureEncoding CheckLowS flags vchSig) /\ post (fun _ => True) (CheckPubKeyEncoding flags vchPubKey).
Proof. unfold CheckSignatureEncoding, CheckPubKeyEncoding. split; repeat case_match; done. Qed.

Lemma push_result_post verify e b rest s :
  Forall item rest -> Forall item (es_altstack s) ->
  post (fun s' => good s' /\ quiet s s') (push_result verify e b rest s).
Proof. unfold push_result. intros Hr Ha. repeat case_match; cbn; try done; repeat split; cbn; items. Qed.

(** A signature operation asks the checker once. *)
Lemma op_checksig_post script opcode s :
  good s ->
  post (fun s' => good s' /\ length (es_checks s') = S (length (es_checks s)) /\ es_nOpCount s' = es_nOpCount s)
       (op_checksig CheckLowS checker branch flags script opcode s).
Proof.
  intros [Hs Ha]. unfold op_checksig. destruct (es_stack s) as [|k [|g st]]; [done|done|]. items.
  eapply post_bind; [apply encodings_post; exact []|intros _ _]. eapply post_bind; [apply encodings_post; exact []|intros _ _].
  eapply post_mono; [by apply push_result_post|]. intros s' [Hg [Hc Hn]]. split; [done|]. rewrite Hc, Hn. cbn.
  rewrite length_app. cbn. split; [lia|done].
Qed.

Lemma multisig_loop_post script stack keys sigs isig ikey checks :
  Forall item stack ->
  post (fun r => (length r.2 <= length checks + keys)%nat)
       (multisig_loop CheckLowS checker branch flags script stack keys sigs isig ikey checks).
Proof.
  intros Hst. revert sigs isig ikey checks. induction keys as [|keys IH]; intros sigs isig ikey checks; destruct sigs as [|sigs]; cbn [multisig_loop].
  1-3: cbn; lia.
  assert (Htop : forall i, post (fun _ => True) (stacktop stack i)) by (intros i; unfold stacktop; by case_match).
  do 2 (eapply post_bind; [apply Htop|intros ? _]). do 2 (eapply post_bind; [apply encodings_post; exact []|intros _ _]).
  cbv zeta. match goal with |- context [if (?a <? ?b)%nat then _ else _] => destruct (a <? b)%nat end.
  - cbn. rewrite length_app. cbn. lia.
  - eapply post_mono; [apply IH|]. intros r Hr. rewrite length_app in Hr. cbn in *. lia.
Qed.

(** The keys OP_CHECKMULTISIG announces. *)
Definition multisig_keys (s : EvalState) : Z :=
  match es_stack s with
  | [] => 0
  | top :: _ => getint (default 0 (CScriptNum top (fRequireMinimal flags) nDefaultMaxNumSize))
  end.

(** A multisignature operation asks at most once for each key, counts the keys as
    operations, and has at most twenty. *)
Lemma op_checkmultisig_post script opcode s :
  good s ->
  post (fun s' => good s' /\ Z.of_nat (length (es_checks s')) <= Z.of_nat (length (es_checks s)) + multisig_keys s /\
                  es_nOpCount s' = es_nOpCount s + multisig_keys s /\ es_nOpCount s' <= 201 /\ 0 <= multisig_keys s <= 20)
       (op_checkmultisig CheckLowS checker branch flags script opcode s).
Proof.
  intros [Hs Ha]. unfold op_checkmultisig. destruct (es_stack s) as [|top st] eqn:E; [exact I|].
  cbv zeta. apply post_throw. intros _.
  change (stacktop (top :: st) 1) with (Ret top). cbn [mbind Eval_bind]. unfold multisig_keys. rewrite E.
  change (read_num_at flags nDefaultMaxNumSize top) with
    (match CScriptNum top (fRequireMinimal flags) nDefaultMaxNumSize with Some n => Ret n | None => Err SCRIPT_ERR_UNKNOWN_ERROR end). destruct (CScriptNum top _ _) as [n|]; [|exact I]. cbn [mbind Eval_bind default]. cbv zeta.
  change (default 0 (Some n)) with n. set (k := getint n).
  apply post_throw. intros [Hk1 Hk2]%orb_false_iff. apply Z.ltb_ge in Hk1, Hk2. apply post_throw. intros Hn%Z.ltb_ge.
  apply post_throw. intros _. assert (Htop : forall i, post item (stacktop (top :: st) i)).
  { intros i. unfold stacktop. destruct (_ !! _) eqn:El; [|done]. exact (Forall_lookup_1 _ _ _ _ Hs El). }
  eapply post_bind; [apply Htop|]. intros x Hx. eapply post_bind; [by apply read_num_default|]. intros m _.
  do 2 (apply post_throw; intros _). eapply post_bind; [by apply multisig_loop_post|]. intros r Hr.
  assert (Hd : Forall item (drop (Z.to_nat (2 + k + 1 + getint m - 1)) (top :: st))) by (by apply Forall_drop).
  destruct (drop _ (top :: st)) as [|dummy rest]; [done|]. items. apply post_throw. intros _.
  eapply post_mono; [by apply push_result_post|]. intros s' [Hg [Hc Hn']]. split; [done|]. rewrite Hc, Hn'. cbn. cbn in Hr. lia.
Qed.

(** * A round *)

Definition asks (opcode : Z) : bool :=
  one_of [OP_CHECKSIG; OP_CHECKSIGVERIFY] opcode || one_of [OP_CHECKMULTISIG; OP_CHECKMULTISIGVERIFY] opcode.

Lemma post_if {A} (Q : A -> Prop) (b : bool) m1 m2 : post Q m1 -> post Q m2 -> post Q (if b then m1 else m2).
Proof. by destruct b. Qed.

Ltac branch lem := apply post_if; [by apply lem|].

(** Every other operation leaves the checker alone. *)
Lemma eval_op_quiet script opcode fExec s :
  asks opcode = false -> good s ->
  post (fun s' => good s' /\ quiet s s') (eval_op CheckLowS checker branch flags script opcode fExec s).
Proof.
  intros [Hq1 Hq2]%orb_false_iff Hg. pose proof (op_altstack_post s Hg) as [Ht Hf]. unfold eval_op.
  branch op_push_number_post. branch ret_post. branch op_checklocktimeverify_post. branch op_nop_post. branch op_if_post.
  branch op_else_post. branch op_endif_post. branch op_verify_post. apply post_if; [exact I|]. branch Ht. branch Hf.
  branch op_pick_post. branch op_shuffle_post. branch op_equal_post. branch op_unary_post. branch op_binary_post.
  branch op_within_post. branch op_hash_post. rewrite Hq1, Hq2. exact I.
Qed.

(** What is left of the [switch] for the operations that ask. *)
Lemma eval_op_asks script opcode fExec s :
  eval_op CheckLowS checker branch flags script opcode fExec s =
  if one_of [OP_CHECKSIG; OP_CHECKSIGVERIFY] opcode then op_checksig CheckLowS checker branch flags script opcode s
  else if one_of [OP_CHECKMULTISIG; OP_CHECKMULTISIGVERIFY] opcode then op_checkmultisig CheckLowS checker branch flags script opcode s
  else eval_op CheckLowS checker branch flags script opcode fExec s.
Proof.
  destruct (one_of [OP_CHECKSIG; OP_CHECKSIGVERIFY] opcode) eqn:E1; [|destruct (one_of [OP_CHECKMULTISIG; OP_CHECKMULTISIGVERIFY] opcode) eqn:E2; [|done]];
    unfold one_of in *; cbn in *; rewrite orb_false_r in *.
  - apply orb_prop in E1 as [ ->%Z.eqb_eq | ->%Z.eqb_eq ]; reflexivity.
  - apply orb_prop in E2 as [ ->%Z.eqb_eq | ->%Z.eqb_eq ]; reflexivity.
Qed.

(** The questions an instruction may ask, given the keys on the stack. *)
Definition questions (opcode : Z) (s : EvalState) : Z :=
  if one_of [OP_CHECKSIG; OP_CHECKSIGVERIFY] opcode then 1
  else if one_of [OP_CHECKMULTISIG; OP_CHECKMULTISIGVERIFY] opcode then multisig_keys s else 0.

Definition answered (opcode : Z) (s s' : EvalState) : Prop :=
  es_nOpCount s <= es_nOpCount s' <= 201 /\
  Z.of_nat (length (es_checks s')) + es_nOpCount s <= Z.of_nat (length (es_checks s)) + es_nOpCount s' + num_of_bool (asks opcode) /\
  Z.of_nat (length (es_checks s')) <= Z.of_nat (length (es_checks s)) + (if forallb id (es_vfExec s) then Z.min 20 (questions opcode s) else 0).

Lemma quiet_answered opcode s s' : es_nOpCount s <= 201 -> quiet s s' -> (asks opcode = false \/ forallb id (es_vfExec s) = false) -> answered opcode s s'.
Proof.
  intros Hn [Hc Hn'] Hq. unfold answered. rewrite Hc, Hn'. split; [lia|]. split; [unfold num_of_bool; case_match; lia|].
  destruct Hq as [Hq| ->]; [|lia]. apply orb_false_iff in Hq as [Hq1 Hq2]. unfold questions. rewrite Hq1, Hq2. case_match; lia.
Qed.

Lemma exec_op_post script opcode vch s :
  good s -> item vch -> es_nOpCount s <= 201 ->
  post (fun s' => good s' /\ answered opcode s s') (exec_op CheckLowS checker branch flags script opcode vch s).
Proof.
  intros Hg Hv Hn. unfold exec_op. destruct (asks opcode) eqn:Ha.
  - assert (Hop : OP_ENDIF < opcode).
    { unfold asks, one_of in Ha. cbn in Ha. rewrite !orb_false_r, !orb_true_iff, !Z.eqb_eq in Ha.
      destruct Ha as [[ -> | -> ]|[ -> | -> ]]; reflexivity. }
    assert (Hpd : (opcode <=? OP_PUSHDATA4) = false) by (apply Z.leb_gt; unfold OP_PUSHDATA4, OP_ENDIF in *; lia).
    assert (Hctl : between OP_IF OP_ENDIF opcode = false) by (unfold between; apply andb_false_iff; right; by apply Z.leb_gt).
    rewrite Hpd, Hctl, andb_false_r, orb_false_r. destruct (forallb id (es_vfExec s)) eqn:Hf.
    2: { split; [done|]. apply quiet_answered; [done|done|by right]. }
    rewrite eval_op_asks. unfold answered, questions. rewrite Hf, Ha. cbn [num_of_bool]. unfold asks in Ha.
    destruct (one_of [OP_CHECKSIG; OP_CHECKSIGVERIFY] opcode).
    + eapply post_mono; [by apply op_checksig_post|]. intros s' (Hg' & Hc & Hn'). split; [done|]. rewrite Hn', Hc. lia.
    + cbn [orb] in Ha. rewrite Ha. eapply post_mono; [by apply op_checkmultisig_post|]. cbn beta.
      intros s' (Hg' & ? & ? & ? & ?). split; [done|]. lia.
  - apply post_if; [|apply post_if].
    + apply post_throw. intros _. cbn. destruct Hg as [Hs Hal]. split; [split; cbn; items|]. apply quiet_answered; [done|done|by left].
    + eapply post_mono; [by apply eval_op_quiet|]. intros s' [Hg' Hq]. split; [done|]. apply quiet_answered; [done|done|by left].
    + split; [done|]. apply quiet_answered; [done|done|by left].
Qed.

(** * Scripts *)

(** What a round leaves: items on stacks that fit, and no more questions asked
    than operations counted. *)
Record bounded (s : EvalState) : Prop := {
  bd_good : good s;
  bd_checks : Z.of_nat (length (es_checks s)) <= es_nOpCount s <= 201;
  bd_size : (length (es_stack s) + length (es_altstack s) <= 1000)%nat;
}.

(** After a number opcode that was executed the number is on the stack. *)
Definition number_on_top (opcode : Z) (s : EvalState) : Prop :=
  forallb id (es_vfExec s) = true -> between OP_1 OP_16 opcode = true ->
  exists rest, es_stack s = CScriptNum_serialize (opcode - (OP_1 - 1)) :: rest.

Lemma exec_op_number script opcode vch s s' :
  exec_op CheckLowS checker branch flags script opcode vch s = Ret s' -> number_on_top opcode s'.
Proof.
  intros He Hf Hb. unfold exec_op in He. pose proof Hb as [H1%Z.leb_le H2%Z.leb_le]%andb_prop.
  unfold OP_1, OP_16 in H1, H2.
  assert (Hpd : (opcode <=? OP_PUSHDATA4) = false) by (apply Z.leb_gt; unfold OP_PUSHDATA4; lia).
  assert (Hctl : between OP_IF OP_ENDIF opcode = false) by (unfold between; apply andb_false_iff; left; apply Z.leb_gt; unfold OP_IF; lia).
  rewrite Hpd, Hctl, andb_false_r, orb_false_r in He. destruct (forallb id (es_vfExec s)) eqn:Hfs; [|congruence].
  unfold eval_op in He. rewrite Hb, orb_true_r in He. injection He as <-. by eexists.
Qed.

(** The number on top is the number of keys the static count takes. *)
Lemma questions_counted lastOpcode opcode s :
  number_on_top lastOpcode s -> forallb id (es_vfExec s) = true ->
  Z.min 20 (questions opcode s) <= sigops_of true lastOpcode opcode.
Proof.
  intros Hj Hf. unfold questions, sigops_of, one_of. cbn [existsb]. rewrite !orb_false_r.
  destruct ((opcode =? OP_CHECKSIG) || (opcode =? OP_CHECKSIGVERIFY)); [lia|].
  destruct ((opcode =? OP_CHECKMULTISIG) || (opcode =? OP_CHECKMULTISIGVERIFY)); [|lia]. cbn [andb].
  change ((OP_1 <=? lastOpcode) && (lastOpcode <=? OP_16)) with (between OP_1 OP_16 lastOpcode).
  destruct (between OP_1 OP_16 lastOpcode) eqn:Hb; [|lia]. destruct (Hj Hf Hb) as [rest Hst].
  pose proof Hb as [H1%Z.leb_le H2%Z.leb_le]%andb_prop. unfold OP_1, OP_16 in H1, H2.
  unfold multisig_keys, DecodeOP_N. rewrite Hst. rewrite (proj2 (Z.eqb_neq _ _)) by (unfold OP_0; lia).
  set (n := lastOpcode - (OP_1 - 1)). assert (Hn : 1 <= n <= 16) by (unfold n, OP_1; lia).
  destruct (serialize_minimal n 1) as (Hlen & Hmin & Hval); [lia|lia|change (2 ^ (8 * 1 - 1)) with 128; lia|].
  unfold CScriptNum. rewrite (proj2 (Z.ltb_ge _ _)) by (unfold nDefaultMaxNumSize; lia). rewrite Hmin, andb_false_r, Hval.
  change (default 0 (Some n)) with n. unfold getint. rewrite !(proj2 (Z.ltb_ge _ _)) by lia. lia.
Qed.

Lemma eval_step_post script pc s :
  bounded s -> Forall is_byte pc ->
  post (fun r => (length r.1 < length pc)%nat /\ Forall is_byte r.1 /\ bounded r.2 /\
    exists opcode vch, GetOp pc = Some (opcode, vch, r.1) /\ number_on_top opcode r.2 /\
      Z.of_nat (length (es_checks r.2)) <= Z.of_nat (length (es_checks s)) + (if forallb id (es_vfExec s) then Z.min 20 (questions opcode s) else 0))
  (eval_step CheckLowS checker branch flags script pc s).
Proof.
  intros [Hg Hc Hz] Hpc. unfold eval_step. destruct (GetOp pc) as [[[opcode vch] pc']|] eqn:E; [|exact I].
  pose proof (GetOp_rest _ _ _ _ E) as [Hlen Hb]. specialize (Hb Hpc) as (Hop & Hvch & Hpc').
  apply post_throw. intros Hsz%Z.ltb_ge. cbv zeta. set (s1 := if OP_16 <? opcode then _ else s).
  apply post_throw. intros Hcount. apply post_throw. intros _.
  assert (Hs1 : good s1 /\ es_checks s1 = es_checks s /\ es_nOpCount s1 = es_nOpCount s + num_of_bool (OP_16 <? opcode) /\
    es_vfExec s1 = es_vfExec s /\ questions opcode s1 = questions opcode s).
  { unfold s1. destruct (OP_16 <? opcode); cbn; (split; [exact Hg|split; [done|split; [lia|done]]]). }
  destruct Hs1 as (Hg1 & Hc1 & Hn1 & Hv1 & Hq1).
  assert (Hle : es_nOpCount s1 <= 201).
  { apply andb_false_iff in Hcount as [Hcount|Hcount]; [rewrite Hn1, Hcount; cbn; lia|by apply Z.ltb_ge]. }
  assert (Hi : item vch) by (split; [unfold MAX_SCRIPT_ELEMENT_SIZE in Hsz; lia|done]).
  pose proof (exec_op_post script opcode vch s1 Hg1 Hi Hle) as Hpost. pose proof (exec_op_number script opcode vch s1) as Hnum.
  destruct (exec_op CheckLowS checker branch flags script opcode vch s1) as [s2|e|]; [|exact I|done].
  destruct Hpost as (Hg2 & Hn2 & Ha & Hq).
  cbn [mbind Eval_bind]. apply post_throw. intros Hsize%Z.ltb_ge. cbn. split; [done|]. split; [done|].
  assert (Hask : num_of_bool (asks opcode) <= num_of_bool (OP_16 <? opcode)).
  { destruct (asks opcode) eqn:Hk; [|destruct (OP_16 <? opcode); cbn; lia]. unfold asks, one_of in Hk. cbn in Hk.
    rewrite !orb_false_r, !orb_true_iff, !Z.eqb_eq in Hk. destruct Hk as [[ -> | -> ]|[ -> | -> ]]; reflexivity. }
  split; [split; [done| |lia]; rewrite Hc1 in Ha; lia|]. exists opcode, vch. split; [done|]. split; [by apply Hnum|].
  by rewrite Hv1, Hq1, Hc1 in Hq.
Qed.

Lemma eval_loop_post script fuel pc s :
  bounded s -> Forall is_byte pc -> (length pc <= fuel)%nat ->
  post bounded (eval_loop CheckLowS checker branch flags fuel script pc s).
Proof.
  revert pc s. induction fuel as [|fuel IH]; intros pc s Hs Hpc Hf; destruct pc as [|b pc]; try done; cbn [length] in Hf; [lia|].
  cbn [eval_loop]. eapply post_bind; [by apply eval_step_post|]. cbn [length]. intros r (Hl & Hb & Hr & _). apply IH; [done|done|lia].
Qed.

Lemma EvalScript_post stack script :
  Forall is_byte script -> Forall item stack -> (length stack <= 1000)%nat ->
  post (fun r => Forall item r.1 /\ (length r.1 <= 1000)%nat /\ (length r.2 <= 201)%nat)
       (EvalScript CheckLowS checker branch flags stack script).
Proof.
  intros Hb Hs Hl. unfold EvalScript. apply post_throw. intros _. eapply post_bind.
  - apply eval_loop_post; [|done|done]. split; [by split|cbn; lia|cbn; lia].
  - intros s [[Hg _] Hc Hz]. apply post_throw. intros _. cbn. split; [done|]. lia.
Qed.

(** The questions asked are counted by [GetSigOpCount(true)]. *)
Lemma eval_loop_sigops script fuel lastOpcode pc s n :
  bounded s -> Forall is_byte pc -> (length pc <= fuel)%nat -> number_on_top lastOpcode s -> 0 <= n -> n + 20 * Z.of_nat (length pc) < 2 ^ 32 ->
  post (fun s' => n + Z.of_nat (length (es_checks s')) - Z.of_nat (length (es_checks s)) <= sigops_from fuel true lastOpcode pc n)
       (eval_loop CheckLowS checker branch flags fuel script pc s).
Proof.
  revert lastOpcode pc s n. induction fuel as [|fuel IH]; intros lastOpcode pc s n Hs Hpc Hf Hj Hn Hw.
  { destruct pc; cbn in *; lia. }
  destruct pc as [|b pc]; [cbn; lia|]. cbn [eval_loop]. eapply post_bind; [by apply eval_step_post|].
  intros r (Hl & Hb & Hr & opcode & vch & Hop & Hj' & Hc). cbn [sigops_from]. rewrite Hop.
  assert (Hso : 0 <= sigops_of true lastOpcode opcode <= 20).
  { unfold sigops_of. destruct (_ || _); [lia|]. destruct (_ || _); [|lia]. cbn [andb].
    destruct (Z.leb_spec OP_1 lastOpcode), (Z.leb_spec lastOpcode OP_16); cbn [andb]; try lia.
    unfold DecodeOP_N, OP_1, OP_16, OP_0 in *. destruct (Z.eqb_spec lastOpcode 0); lia. }
  cbn [length] in *. unfold u32. rewrite Z.mod_small by lia.
  eapply post_mono; [apply (IH opcode r.1 r.2 (n + sigops_of true lastOpcode opcode)); [done|done|lia|done|lia|lia]|]. cbn beta. intros s' Hs'.
  assert (Z.of_nat (length (es_checks r.2)) <= Z.of_nat (length (es_checks s)) + sigops_of true lastOpcode opcode).
  { destruct (forallb id (es_vfExec s)) eqn:Hfx; [|lia]. pose proof (questions_counted lastOpcode opcode s Hj Hfx). lia. }
  lia.
Qed.

Lemma EvalScript_sigops stack script :
  Forall is_byte script -> Forall item stack -> (length stack <= 1000)%nat ->
  post (fun r => Z.of_nat (length r.2) <= GetSigOpCount true script) (EvalScript CheckLowS checker branch flags stack script).
Proof.
  intros Hb Hs Hl. unfold EvalScript. apply post_throw. intros Hsz%Z.ltb_ge. unfold MAX_SCRIPT_SIZE in Hsz. eapply post_bind.
  - apply (eval_loop_sigops script (length script) OP_INVALIDOPCODE script _ 0); [|done|done| |done|lia].
    + split; [by split|cbn; lia|cbn; lia].
    + by intros _ Ho.
  - cbn beta. intros s Hc. apply post_throw. intros _. cbn in *. unfold GetSigOpCount. lia.
Qed.

(** * Outputs *)

Abbreviation EvalScript' := (EvalScript CheckLowS checker branch flags).

(** A pay-to-script-hash output needs an item to hash. *)
Lemma p2sh_needs_item script r : IsPayToScriptHash script = true -> EvalScript' [] script = Ret r -> False.
Proof.
  intros [[[Hl%Nat.eqb_eq Hop%Z.eqb_eq]%andb_prop _]%andb_prop _]%andb_prop He.
  destruct script as [|op script]; [done|]. cbn in Hop. subst op. unfold EvalScript in He.
  destruct (MAX_SCRIPT_SIZE <? _); [done|]. cbn [length eval_loop] in He.
  change (eval_step CheckLowS checker branch flags (OP_HASH160 :: script) (OP_HASH160 :: script) (mkEvalState [] [] [] 0 []))
    with (@Err (bytes * EvalState) SCRIPT_ERR_INVALID_STACK_OPERATION) in He. done.
Qed.

Lemma VerifyScript_post scriptSig scriptPubKey :
  Forall is_byte scriptSig -> Forall is_byte scriptPubKey ->
  (has_flag flags SCRIPT_VERIFY_CLEANSTACK = true -> has_flag flags SCRIPT_VERIFY_P2SH = true) ->
  post (fun _ => True) (VerifyScript CheckLowS checker branch flags scriptSig scriptPubKey).
Proof.
  intros Hsig Hpk Hflags. unfold VerifyScript. apply post_throw. intros _.
  eapply post_bind; [apply (EvalScript_post [] scriptSig Hsig); [done|cbn; lia]|]. intros [st ch] (Hst & Hlen & _). cbn [fst] in *.
  pose proof (EvalScript_post st scriptPubKey Hpk Hst Hlen) as Hpost. pose proof (p2sh_needs_item scriptPubKey) as Hp2sh.
  destruct (EvalScript' st scriptPubKey) as [[st2 ch2]|e|] eqn:E2; [|exact I|done]. cbn [mbind Eval_bind fst].
  assert (Htrue : forall l, post (fun _ => True) (eval_true l)) by (intros [|x l]; cbn; [done|by case_match]).
  eapply post_bind; [apply Htrue|]. intros _ _. eapply (post_bind (fun _ => True)).
  - destruct (has_flag flags SCRIPT_VERIFY_P2SH && IsPayToScriptHash scriptPubKey) eqn:Eb; [|exact I]. apply andb_prop in Eb as [_ Eb].
    unfold verify_p2sh. apply post_throw. intros _. destruct st as [|redeem st]; [by destruct (Hp2sh _ Eb E2)|]. items.
    eapply post_bind; [apply EvalScript_post; [by destruct H|done|cbn in Hlen; lia]|]. intros r _.
    eapply post_bind; [apply Htrue|]. by intros _ _.
  - intros st3 _. destruct (has_flag flags SCRIPT_VERIFY_CLEANSTACK); [|exact I].
    rewrite Hflags by done. by apply post_throw.
Qed.

End machine.

(** C9. Whatever the script, evaluation is bounded: on at most a thousand items
    of at most 520 bytes [EvalScript] returns without a failed assertion, and
    when it succeeds the stack it leaves is such a stack again, and the
    signature checker was asked at most 201 times and at most as often as
    [GetSigOpCount(true)] counts.  [VerifyScript] never fails an assertion
    either, if CLEANSTACK is not asked for without P2SH. *)
Theorem script_work_bounded CheckLowS checker branch flags stack script scriptSig scriptPubKey :
  Forall is_byte script -> Forall is_byte scriptSig -> Forall is_byte scriptPubKey ->
  Forall item stack -> (length stack <= 1000)%nat ->
  (has_flag flags SCRIPT_VERIFY_CLEANSTACK = true -> has_flag flags SCRIPT_VERIFY_P2SH = true) ->
  match EvalScript CheckLowS checker branch flags stack script with
  | Ret (st, checks) =>
    Forall item st /\ (length st <= 1000)%nat /\ (length checks <= 201)%nat /\ Z.of_nat (length checks) <= GetSigOpCount true script
  | Err _ => True
  | Abort => False
  end /\
  VerifyScript CheckLowS checker branch flags scriptSig scriptPubKey <> Abort.
Proof.
  intros Hb Hsig Hpk Hs Hl Hflags.
  pose proof (EvalScript_post CheckLowS checker branch flags stack script Hb Hs Hl) as H1.
  pose proof (EvalScript_sigops CheckLowS checker branch flags stack script Hb Hs Hl) as H2.
  pose proof (VerifyScript_post CheckLowS checker branch flags scriptSig scriptPubKey Hsig Hpk Hflags) as H3. split.
  - destruct (EvalScript _ _ _ _ _ _) as [[st ch]| |]; [|done|done]. cbn in *. naive_solver.
  - by destruct (VerifyScript _ _ _ _ _ _).
Qed.

(** A checker that agrees to everything, and a script that asks it once. *)
Definition yes_checker : BaseSignatureChecker := mkChecker (fun _ _ _ _ => true) (fun _ => true).
Definition one_of_one : bytes := [OP_0; OP_0; OP_1; 1; 17; OP_1; OP_CHECKMULTISIG].

Example one_of_one_asks_once :
  EvalScript (fun _ => true) yes_checker 0 STANDARD_SCRIPT_VERIFY_FLAGS [] one_of_one = Err SCRIPT_ERR_PUBKEYTYPE /\
  EvalScript (fun _ => true) yes_checker 0 CONNECT_SCRIPT_VERIFY_FLAGS [] one_of_one = Ret ([[1]], [([], [17])]) /\
  GetSigOpCount true one_of_one = 1.
Proof. vm_compute. done. Qed.

Lemma script_work_bounded_witness :
  match EvalScript (fun _ => true) yes_checker 0 CONNECT_SCRIPT_VERIFY_FLAGS [] one_of_one with
  | Ret (st, checks) =>
    Forall item st /\ (length st <= 1000)%nat /\ (length checks <= 201)%nat /\ Z.of_nat (length checks) <= GetSigOpCount true one_of_one
  | Err _ => True
  | Abort => False
  end /\
  VerifyScript (fun _ => true) yes_checker 0 CONNECT_SCRIPT_VERIFY_FLAGS [] one_of_one <> Abort.
Proof.
  apply (script_work_bounded (fun _ => true) yes_checker 0 CONNECT_SCRIPT_VERIFY_FLAGS [] one_of_one [] one_of_one);
    try (by repeat constructor); try done; cbn; lia.
Defined.
