(* ===== verification/ScriptFlags.v ===== *)
(** Verification flags only restrict: what a script evaluates to under some flags
    it evaluates to under weaker ones.  So the policy flags of the memory pool
    never accept an input that the rules of a block reject. *)

From stdpp Require Import list strings.
From Stdlib Require Import ZArith Lia.
From S2P Require Import Prelude Transaction Platform Script ScriptNum Interpreter.

Definition all_flags : list Z :=
  [SCRIPT_VERIFY_P2SH; SCRIPT_VERIFY_STRICTENC; SCRIPT_VERIFY_LOW_S; SCRIPT_VERIFY_NULLDUMMY; SCRIPT_VERIFY_SIGPUSHONLY;
   SCRIPT_VERIFY_MINIMALDATA; SCRIPT_VERIFY_DISCOURAGE_UPGRADABLE_NOPS; SCRIPT_VERIFY_CLEANSTACK; SCRIPT_VERIFY_CHECKLOCKTIMEVERIFY].

(** [f'] is a subset of [f], does not discourage the NOP that [f] gives a meaning
    to, and asks for a clean stack only with P2SH. *)
Definition weaker (f' f : Z) : bool :=
  forallb (fun flag => implb (has_flag f' flag) (has_flag f flag)) all_flags &&
  implb (has_flag f SCRIPT_VERIFY_CHECKLOCKTIMEVERIFY && has_flag f' SCRIPT_VERIFY_DISCOURAGE_UPGRADABLE_NOPS) (has_flag f' SCRIPT_VERIFY_CHECKLOCKTIMEVERIFY) &&
  implb (has_flag f' SCRIPT_VERIFY_CLEANSTACK) (has_flag f' SCRIPT_VERIFY_P2SH).

(** * Succeeding where the other does *)

Definition covers {A} (m' m : Eval A) : Prop := forall a, m = Ret a -> m' = Ret a.

Lemma covers_refl {A} (m : Eval A) : covers m m.
Proof. by intros a. Qed.

Lemma covers_bind {A B} (m' m : Eval A) (k' k : A -> Eval B) :
  covers m' m -> (forall a, covers (k' a) (k a)) -> covers (m' ≫= k') (m ≫= k).
Proof. intros Hm Hk b Hb. destruct m as [a| |]; [|done|done]. rewrite (Hm a) by done. by apply Hk. Qed.

Lemma covers_throw {A} (b' b : bool) e' e (m' m : Eval A) :
  (b' = true -> b = true) -> covers m' m -> covers (if b' then Err e' else m') (if b then Err e else m).
Proof. intros Hb Hm a Ha. destruct b; [done|]. destruct b'; [by specialize (Hb eq_refl)|]. by apply Hm. Qed.

Lemma covers_if {A} (b : bool) (m1' m1 m2' m2 : Eval A) :
  covers m1' m1 -> covers m2' m2 -> covers (if b then m1' else m2') (if b then m1 else m2).
Proof. by destruct b. Qed.

Create HintDb covers.
#[local] Hint Resolve covers_refl covers_bind covers_if : covers.

Section flags.
Context (CheckLowS : bytes -> bool) (checker : BaseSignatureChecker) (branch : Z) (f' f : Z).
Context (Hweaker : weaker f' f = true).

Lemma weaker_has flag : flag ∈ all_flags -> has_flag f' flag = true -> has_flag f flag = true.
Proof.
  intros Hin Hf'. unfold weaker in Hweaker. rewrite !andb_true_iff, forallb_forall in Hweaker.
  destruct Hweaker as [[Hall _] _]. specialize (Hall flag (proj1 (list_elem_of_In _ _) Hin)). cbn in Hall. by rewrite Hf' in Hall.
Qed.

Lemma weaker_guard flag (b : bool) : flag ∈ all_flags -> has_flag f' flag && b = true -> has_flag f flag && b = true.
Proof. intros Hin [Hf ->]%andb_prop. by rewrite (weaker_has flag Hin Hf). Qed.

Ltac in_flags := by apply (bool_decide_unpack _); vm_compute.

(** * Encodings and numbers *)

Lemma CheckSignatureEncoding_weaker sig : covers (CheckSignatureEncoding CheckLowS f' sig) (CheckSignatureEncoding CheckLowS f sig).
Proof.
  unfold CheckSignatureEncoding. apply covers_if; [apply covers_refl|]. apply covers_throw; [done|].
  apply covers_throw; [apply weaker_guard; in_flags|]. apply covers_throw; [apply weaker_guard; in_flags|apply covers_refl].
Qed.

Lemma CheckPubKeyEncoding_weaker key : covers (CheckPubKeyEncoding f' key) (CheckPubKeyEncoding f key).
Proof. unfold CheckPubKeyEncoding. apply covers_throw; [apply weaker_guard; in_flags|apply covers_refl]. Qed.

Lemma read_num_weaker k v : covers (read_num_at f' k v) (read_num_at f k v).
Proof.
  intros n. unfold read_num_at, CScriptNum. destruct (_ <? _); [done|].
  destruct (fRequireMinimal f && _) eqn:E; [done|]. intros Hn. destruct (fRequireMinimal f' && _) eqn:E'; [|done].
  unfold fRequireMinimal in *. rewrite (weaker_guard SCRIPT_VERIFY_MINIMALDATA _ ltac:(in_flags) E') in E. done.
Qed.

#[local] Hint Resolve CheckSignatureEncoding_weaker CheckPubKeyEncoding_weaker read_num_weaker : covers.

(** * Operations *)

Lemma op_nop_weaker s : covers (op_nop f' s) (op_nop f s).
Proof. unfold op_nop. apply covers_throw; [apply weaker_has; in_flags|apply covers_refl]. Qed.

Lemma op_checklocktimeverify_weaker s : covers (op_checklocktimeverify checker f' s) (op_checklocktimeverify checker f s).
Proof.
  unfold op_checklocktimeverify. pose proof (weaker_has SCRIPT_VERIFY_CHECKLOCKTIMEVERIFY ltac:(in_flags)) as Hc.
  destruct (has_flag f' SCRIPT_VERIFY_CHECKLOCKTIMEVERIFY) eqn:E'; cbn [negb].
  - rewrite Hc by done. cbn [negb]. destruct (es_stack s) as [|top st]; [apply covers_refl|]. auto with covers.
  - destruct (has_flag f SCRIPT_VERIFY_CHECKLOCKTIMEVERIFY) eqn:E; cbn [negb]; [|apply op_nop_weaker].
    intros a Ha. assert (a = s) as ->.
    { destruct (es_stack s) as [|top st]; [done|]. destruct (read_num_at f 5 top) as [n| |]; [|done|done]. cbn in Ha. repeat case_match; by simplify_eq. }
    unfold weaker in Hweaker. rewrite !andb_true_iff, E, E' in Hweaker. destruct Hweaker as [[_ Hd] _]. unfold op_nop.
    by destruct (has_flag f' SCRIPT_VERIFY_DISCOURAGE_UPGRADABLE_NOPS).
Qed.

Lemma op_pick_weaker opcode s : covers (op_pick f' opcode s) (op_pick f opcode s).
Proof. unfold op_pick. destruct (es_stack s) as [|x [|y st]]; auto with covers. Qed.

Lemma op_unary_weaker opcode s : covers (op_unary f' opcode s) (op_unary f opcode s).
Proof. unfold op_unary. destruct (es_stack s) as [|x st]; auto with covers. Qed.

Lemma op_binary_weaker opcode s : covers (op_binary f' opcode s) (op_binary f opcode s).
Proof. unfold op_binary. destruct (es_stack s) as [|x [|y st]]; auto 6 with covers. Qed.

Lemma op_within_weaker s : covers (op_within f' s) (op_within f s).
Proof. unfold op_within. destruct (es_stack s) as [|x [|y [|z st]]]; auto 8 with covers. Qed.

Lemma op_checksig_weaker script opcode s :
  covers (op_checksig CheckLowS checker branch f' script opcode s) (op_checksig CheckLowS checker branch f script opcode s).
Proof. unfold op_checksig. destruct (es_stack s) as [|x [|y st]]; auto 6 with covers. Qed.

Lemma multisig_loop_weaker script stack keys sigs isig ikey checks :
  covers (multisig_loop CheckLowS checker branch f' script stack keys sigs isig ikey checks)
         (multisig_loop CheckLowS checker branch f script stack keys sigs isig ikey checks).
Proof.
  revert sigs isig ikey checks. induction keys as [|keys IH]; intros sigs isig ikey checks; destruct sigs as [|sigs]; cbn [multisig_loop];
    auto 12 with covers.
Qed.

Lemma op_checkmultisig_weaker script opcode s :
  covers (op_checkmultisig CheckLowS checker branch f' script opcode s) (op_checkmultisig CheckLowS checker branch f script opcode s).
Proof.
  unfold op_checkmultisig. apply covers_if; [apply covers_refl|]. apply covers_bind; [apply covers_refl|]. intros top.
  apply covers_bind; [apply read_num_weaker|]. intros n. do 3 (apply covers_if; [apply covers_refl|]).
  apply covers_bind; [apply covers_refl|]. intros x. apply covers_bind; [apply read_num_weaker|]. intros m.
  do 2 (apply covers_if; [apply covers_refl|]). apply covers_bind; [apply multisig_loop_weaker|]. intros r.
  destruct (drop _ _) as [|dummy rest]; [apply covers_refl|]. apply covers_throw; [apply weaker_guard; in_flags|apply covers_refl].
Qed.

Ltac branch lem := apply covers_if; [exact lem|].
Ltac same := apply covers_if; [exact (covers_refl _)|].

Lemma eval_op_weaker script opcode fExec s :
  covers (eval_op CheckLowS checker branch f' script opcode fExec s) (eval_op CheckLowS checker branch f script opcode fExec s).
Proof.
  unfold eval_op. same. same. branch (op_checklocktimeverify_weaker s). branch (op_nop_weaker s). same. same. same. same. same. same. same.
  branch (op_pick_weaker opcode s). same. same. branch (op_unary_weaker opcode s). branch (op_binary_weaker opcode s).
  branch (op_within_weaker s). same. branch (op_checksig_weaker script opcode s). branch (op_checkmultisig_weaker script opcode s).
  apply covers_refl.
Qed.

Lemma exec_op_weaker script opcode vch s :
  covers (exec_op CheckLowS checker branch f' script opcode vch s) (exec_op CheckLowS checker branch f script opcode vch s).
Proof.
  unfold exec_op. apply covers_if; [|apply covers_if; [apply eval_op_weaker|apply covers_refl]].
  apply covers_throw; [apply weaker_guard; in_flags|apply covers_refl].
Qed.

(** * Scripts *)

Lemma eval_loop_weaker script fuel pc s :
  covers (eval_loop CheckLowS checker branch f' fuel script pc s) (eval_loop CheckLowS checker branch f fuel script pc s).
Proof.
  revert pc s. induction fuel as [|fuel IH]; intros [|b pc] s; cbn [eval_loop]; [apply covers_refl..|].
  apply covers_bind; [|intros r; apply IH]. unfold eval_step. destruct (GetOp (b :: pc)) as [[[opcode vch] pc']|]; [|apply covers_refl].
  do 3 (apply covers_if; [apply covers_refl|]). apply covers_bind; [apply exec_op_weaker|]. intros s'. apply covers_refl.
Qed.

Lemma EvalScript_weaker stack script :
  covers (EvalScript CheckLowS checker branch f' stack script) (EvalScript CheckLowS checker branch f stack script).
Proof.
  unfold EvalScript. apply covers_if; [apply covers_refl|]. apply covers_bind; [apply eval_loop_weaker|]. intros s. apply covers_refl.
Qed.

Lemma verify_p2sh_weaker scriptSig stack :
  covers (verify_p2sh CheckLowS checker branch f' scriptSig stack) (verify_p2sh CheckLowS checker branch f scriptSig stack).
Proof.
  unfold verify_p2sh. apply covers_if; [apply covers_refl|]. destruct stack as [|redeem stack]; [apply covers_refl|].
  apply covers_bind; [apply EvalScript_weaker|]. intros r. apply covers_refl.
Qed.

Lemma VerifyScript_weaker scriptSig scriptPubKey :
  covers (VerifyScript CheckLowS checker branch f' scriptSig scriptPubKey) (VerifyScript CheckLowS checker branch f scriptSig scriptPubKey).
Proof.
  unfold VerifyScript. apply covers_throw; [apply weaker_guard; in_flags|].
  apply covers_bind; [apply EvalScript_weaker|]. intros r1. apply covers_bind; [apply EvalScript_weaker|]. intros r2.
  apply covers_bind; [apply covers_refl|]. intros _.
  pose proof (weaker_has SCRIPT_VERIFY_P2SH ltac:(in_flags)) as Hp. pose proof (weaker_has SCRIPT_VERIFY_CLEANSTACK ltac:(in_flags)) as Hc.
  pose proof Hweaker as Hw. unfold weaker in Hw. rewrite !andb_true_iff in Hw. destruct Hw as [_ Hcp].
  destruct (has_flag f' SCRIPT_VERIFY_P2SH) eqn:Ep'.
  - rewrite Hp by done. apply covers_bind; [apply covers_if; [apply verify_p2sh_weaker|apply covers_refl]|]. intros st. cbn [negb].
    destruct (has_flag f' SCRIPT_VERIFY_CLEANSTACK); [rewrite Hc by done; apply covers_refl|].
    intros []. by case_match.
  - destruct (has_flag f' SCRIPT_VERIFY_CLEANSTACK); [done|]. by intros [] _.
Qed.

End flags.

(** C8. Verification flags only restrict: an input that [VerifyScript] accepts
    under some flags it accepts under any weaker ones.  In particular an input
    that passes the policy of the memory pool passes the mandatory flags, which
    AcceptToMemoryPool checks next, and the flags of a block, so the branch of
    AcceptToMemoryPool that reports a bug is never taken. *)
Theorem flags_only_restrict CheckLowS checker branch f' f scriptSig scriptPubKey :
  weaker f' f = true -> VerifyScript CheckLowS checker branch f scriptSig scriptPubKey = Ret tt ->
  VerifyScript CheckLowS checker branch f' scriptSig scriptPubKey = Ret tt.
Proof. intros Hw Hv. by apply (VerifyScript_weaker CheckLowS checker branch f' f Hw). Qed.

Example policy_flags_are_stronger :
  weaker MANDATORY_SCRIPT_VERIFY_FLAGS STANDARD_SCRIPT_VERIFY_FLAGS = true /\
  weaker CONNECT_SCRIPT_VERIFY_FLAGS STANDARD_SCRIPT_VERIFY_FLAGS = true.
Proof. by vm_compute. Qed.

Lemma flags_only_restrict_witness :
  let checker := mkChecker (fun _ _ _ _ => true) (fun _ => true) in
  let scriptSig := [OP_2; OP_3] in
  let scriptPubKey := [OP_ADD; OP_5; OP_EQUAL] in
  VerifyScript (fun _ => true) checker 0 STANDARD_SCRIPT_VERIFY_FLAGS scriptSig scriptPubKey = Ret tt /\
  VerifyScript (fun _ => true) checker 0 CONNECT_SCRIPT_VERIFY_FLAGS scriptSig scriptPubKey = Ret tt.
Proof.
  intros checker scriptSig scriptPubKey. split; [vm_compute; reflexivity|].
  apply (flags_only_restrict (fun _ => true) checker 0 CONNECT_SCRIPT_VERIFY_FLAGS STANDARD_SCRIPT_VERIFY_FLAGS scriptSig scriptPubKey);
    vm_compute; reflexivity.
Defined.
