(* ===== verification/ScriptSpend.v ===== *)
(** What it takes to spend an output: pay-to-key-hash and pay-to-script-hash
    addresses, multisignatures, and outputs nobody can spend. *)

From stdpp Require Import list strings.
From Stdlib Require Import ZArith Lia.
From S2P Require Import Prelude Transaction Platform Sha256 Ripemd160 Script ScriptNum Interpreter.

Lemma vch_of_bool_true b : CastToBool (vch_of_bool b) = b.
Proof. by destruct b. Qed.

(** * Pushes *)

Lemma GetOp_direct n data rest :
  0 < n < OP_PUSHDATA1 -> length data = Z.to_nat n -> Z.of_nat (length (data ++ rest)) < 2 ^ 32 ->
  GetOp (n :: data ++ rest) = Some (n, data, rest).
Proof.
  intros Hn Hl Hlen. unfold GetOp. unfold OP_PUSHDATA1 in Hn. rewrite (proj2 (Z.leb_le n OP_PUSHDATA4)) by (unfold OP_PUSHDATA4; lia).
  unfold push_size. rewrite (proj2 (Z.ltb_lt n OP_PUSHDATA1)) by (unfold OP_PUSHDATA1; lia). cbn [mbind option_bind].
  unfold u32. rewrite Z.mod_small by lia. rewrite length_app in *.
  rewrite (proj2 (Z.ltb_ge _ _)) by lia. by rewrite <- Hl, take_app_length, drop_app_length.
Qed.

Lemma bind_assoc {A B C} (m : Eval A) (k : A -> Eval B) (l : B -> Eval C) : (m ≫= k) ≫= l = m ≫= (fun a => k a ≫= l).
Proof. by destruct m. Qed.

#[local] Opaque Hash160.

Section spend.
Context (CheckLowS : bytes -> bool) (checker : BaseSignatureChecker) (branch : Z) (flags : Z).

Abbreviation step := (eval_step CheckLowS checker branch flags).
Abbreviation eval := (EvalScript CheckLowS checker branch flags).
Abbreviation state st n ch := (mkEvalState st [] [] n ch).

(** The test at the end of a round. *)
Definition fits (pc : bytes) (s : EvalState) : Eval (bytes * EvalState) :=
  throw SCRIPT_ERR_STACK_SIZE when 1000 <? Z.of_nat (length (es_stack s)) + Z.of_nat (length (es_altstack s));
  Ret (pc, s).

Lemma fits_bind {A} pc st n ch (k : bytes * EvalState -> Eval A) x :
  fits pc (state st n ch) ≫= k = Ret x <-> (length st <= 1000)%nat /\ k (pc, state st n ch) = Ret x.
Proof.
  unfold fits. cbn [es_stack es_altstack length]. destruct (Z.ltb_spec 1000 (Z.of_nat (length st) + Z.of_nat 0)); cbn; split.
  - done.
  - intros [? _]. lia.
  - intros ?. split; [lia|done].
  - by intros [_ ?].
Qed.

Lemma check_bind {A} (m : Eval unit) (k : unit -> Eval A) x : m ≫= k = Ret x <-> m = Ret tt /\ k tt = Ret x.
Proof. destruct m as [[]| |]; naive_solver. Qed.

(** ** One round of each operation of the standard outputs *)

Lemma step_dup script pc st ch :
  step script (OP_DUP :: pc) (state st 0 ch) =
  match st with [] => Err SCRIPT_ERR_INVALID_STACK_OPERATION | x :: st => fits pc (state (x :: x :: st) 1 ch) end.
Proof. by destruct st. Qed.

Lemma step_hash160 script pc st n ch :
  (n = 0 \/ n = 1) ->
  step script (OP_HASH160 :: pc) (state st n ch) =
  match st with [] => Err SCRIPT_ERR_INVALID_STACK_OPERATION | x :: st => fits pc (state (Hash160 x :: st) (n + 1) ch) end.
Proof. by intros [-> | ->]; destruct st. Qed.

Lemma step_push script pc data st n ch :
  length data = 20%nat -> Z.of_nat (length (data ++ pc)) < 2 ^ 32 ->
  step script (20 :: data ++ pc) (state st n ch) = fits pc (state (data :: st) n ch).
Proof.
  intros Hd Hl. unfold eval_step. rewrite GetOp_direct by (done || (unfold OP_PUSHDATA1; lia)).
  rewrite Hd. change (MAX_SCRIPT_ELEMENT_SIZE <? Z.of_nat 20) with false. change (OP_16 <? 20) with false. cbn [andb].
  change (disabled 20) with false. unfold exec_op. cbn [es_vfExec forallb]. change (20 <=? OP_PUSHDATA4) with true. cbn [andb].
  assert (Hm : CheckMinimalPush data 20 = true) by (unfold CheckMinimalPush; by rewrite Hd).
  by rewrite Hm, andb_false_r.
Qed.

Lemma step_equalverify script pc st ch :
  step script (OP_EQUALVERIFY :: pc) (state st 2 ch) =
  match st with
  | y :: x :: st => if bool_decide (x = y) then fits pc (state st 3 ch) else Err SCRIPT_ERR_EQUALVERIFY
  | _ => Err SCRIPT_ERR_INVALID_STACK_OPERATION
  end.
Proof.
  destruct st as [|y [|x st]]; [done|done|]. unfold eval_step. cbn -[op_equal]. unfold op_equal. cbn [es_stack].
  change (OP_EQUALVERIFY =? OP_EQUALVERIFY) with true. by destruct (bool_decide (x = y)).
Qed.

Lemma step_equal script pc st ch :
  step script (OP_EQUAL :: pc) (state st 1 ch) =
  match st with
  | y :: x :: st => fits pc (state (vch_of_bool (bool_decide (x = y)) :: st) 2 ch)
  | _ => Err SCRIPT_ERR_INVALID_STACK_OPERATION
  end.
Proof. by destruct st as [|y [|x st]]. Qed.

Lemma step_checksig script pc st :
  step script (OP_CHECKSIG :: pc) (state st 3 []) =
  match st with
  | key :: sig :: st =>
    _ ← CheckSignatureEncoding CheckLowS flags sig; _ ← CheckPubKeyEncoding flags key;
    fits pc (state (vch_of_bool (CheckSig checker sig key script branch) :: st) 4 [(sig, key)])
  | _ => Err SCRIPT_ERR_INVALID_STACK_OPERATION
  end.
Proof.
  destruct st as [|key [|sig st]]; [done|done|].
  change (step script (OP_CHECKSIG :: pc) (state (key :: sig :: st) 3 [])) with
    (s ← op_checksig CheckLowS checker branch flags script OP_CHECKSIG (state (key :: sig :: st) 4 []); fits pc s).
  unfold op_checksig. cbn [es_stack]. destruct (CheckSignatureEncoding CheckLowS flags sig) as [[]| |]; [|done|done]. cbn [mbind Eval_bind].
  by destruct (CheckPubKeyEncoding flags key) as [[]| |].
Qed.

(** ** Key hashes *)

Lemma eval_p2pkh st id r :
  length id = 20%nat ->
  eval st (GetScriptForDestination (CKeyID id)) = Ret r <->
  exists key sig rest, st = key :: sig :: rest /\ Hash160 key = id /\ (length rest <= 996)%nat /\
    CheckSignatureEncoding CheckLowS flags sig = Ret tt /\ CheckPubKeyEncoding flags key = Ret tt /\
    r = (vch_of_bool (CheckSig checker sig key (GetScriptForDestination (CKeyID id)) branch) :: rest, [(sig, key)]).
Proof.
  intros Hid. set (script := GetScriptForDestination (CKeyID id)).
  assert (Hs : script = OP_DUP :: OP_HASH160 :: 20 :: id ++ [OP_EQUALVERIFY; OP_CHECKSIG]) by (unfold script; cbn; by rewrite Hid).
  assert (Hlen : length script = 25%nat) by (rewrite Hs; cbn; rewrite length_app, Hid; done).
  unfold EvalScript. rewrite Hlen. change (MAX_SCRIPT_SIZE <? Z.of_nat 25) with false. cbv iota.
  rewrite Hs at 2. cbn [eval_loop]. rewrite step_dup. destruct st as [|key st]; [split; [done|naive_solver]|].
  rewrite bind_assoc, fits_bind. cbn [fst snd eval_loop].
  rewrite step_hash160, bind_assoc, fits_bind by auto. cbn [fst snd eval_loop]. change (1 + 1) with 2.
  rewrite step_push, bind_assoc, fits_bind by (done || (rewrite length_app, Hid; cbn; lia)). cbn [fst snd eval_loop].
  rewrite step_equalverify. case_bool_decide as Hh.
  2: { split; [naive_solver|]. intros (? & ? & ? & [= -> ->] & ? & _). done. }
  rewrite bind_assoc, fits_bind. cbn [fst snd eval_loop]. rewrite step_checksig.
  destruct st as [|sig rest]; [split; [naive_solver|intros (? & ? & ? & [=] & _)]|].
  rewrite !bind_assoc, check_bind. cbv beta. rewrite ?bind_assoc, check_bind. cbv beta. rewrite ?bind_assoc, fits_bind. cbn.
  split.
  - intros (_ & _ & ? & _ & He & Hk & _ & [= <-]). exists key, sig, rest. repeat split; auto. cbn in *. lia.
  - intros (? & ? & ? & [= <- <- <-] & _ & Hl & He & Hk & ->). repeat split; auto; lia.
Qed.

(** ** Script hashes *)

Lemma eval_p2sh st id r :
  length id = 20%nat ->
  eval st (GetScriptForDestination (CScriptID id)) = Ret r <->
  exists v rest, st = v :: rest /\ (length rest <= 998)%nat /\ r = (vch_of_bool (bool_decide (Hash160 v = id)) :: rest, []).
Proof.
  intros Hid. set (script := GetScriptForDestination (CScriptID id)).
  assert (Hs : script = OP_HASH160 :: 20 :: id ++ [OP_EQUAL]) by (unfold script; cbn; by rewrite Hid).
  assert (Hlen : length script = 23%nat) by (rewrite Hs; cbn; rewrite length_app, Hid; done).
  unfold EvalScript. rewrite Hlen. change (MAX_SCRIPT_SIZE <? Z.of_nat 23) with false. cbv iota.
  rewrite Hs at 2. cbn [eval_loop]. rewrite step_hash160 by auto. destruct st as [|v rest]; [split; [done|naive_solver]|].
  rewrite bind_assoc, fits_bind. cbn [fst snd eval_loop]. change (0 + 1) with 1.
  rewrite step_push, bind_assoc, fits_bind by (done || (rewrite length_app, Hid; cbn; lia)). cbn [fst snd eval_loop].
  rewrite step_equal, bind_assoc, fits_bind. cbn. split.
  - intros (? & ? & _ & [= <-]). exists v, rest. repeat split. lia.
  - intros (? & ? & [= <- <-] & ? & ->). repeat split; lia.
Qed.

Lemma p2sh_recognised id : length id = 20%nat -> IsPayToScriptHash (GetScriptForDestination (CScriptID id)) = true.
Proof.
  intros Hid. do 20 (destruct id as [|? id]; [done|]). by destruct id.
Qed.

Lemma p2pkh_not_p2sh id : length id = 20%nat -> IsPayToScriptHash (GetScriptForDestination (CKeyID id)) = false.
Proof. intros Hid. unfold IsPayToScriptHash. cbn. unfold push_hash. by rewrite length_app, Hid. Qed.

(** ** Outputs nobody can spend *)

Lemma eval_unspendable st script r : IsUnspendable script = true -> eval st script = Ret r -> False.
Proof.
  unfold IsUnspendable, EvalScript. intros [Hop|Hsz]%orb_prop; [|by rewrite Hsz].
  destruct script as [|op script]; [done|]. apply Z.eqb_eq in Hop. subst op. destruct (MAX_SCRIPT_SIZE <? _); [done|].
  cbn [length eval_loop]. change (step (OP_RETURN :: script) (OP_RETURN :: script) (state st 0 []))
    with (@Err (bytes * EvalState) SCRIPT_ERR_OP_RETURN). done.
Qed.

Lemma eval_true_Ret st : eval_true st = Ret tt <-> exists top rest, st = top :: rest /\ CastToBool top = true.
Proof.
  destruct st as [|top rest]; cbn; [split; [done|by intros (? & ? & ? & _)]|].
  destruct (CastToBool top) eqn:E; split; try done; [by eauto|]. intros (? & ? & [= <- <-] & ?). congruence.
Qed.

End spend.

(** [VerifyScript] accepts only what the coins may hold: an output that
    [ClearUnspendable] drops can be spent by no input. *)
Lemma unspendable_never_spent CheckLowS checker branch flags scriptSig scriptPubKey :
  IsUnspendable scriptPubKey = true -> VerifyScript CheckLowS checker branch flags scriptSig scriptPubKey <> Ret tt.
Proof.
  intros Hu. unfold VerifyScript. case_match; [done|]. destruct (EvalScript _ _ _ _ [] scriptSig) as [[st ch]| |]; [|done|done]. cbn.
  destruct (EvalScript _ _ _ _ st scriptPubKey) as [r| |] eqn:E; [|done|done]. by apply eval_unspendable in E.
Qed.

(** * Addresses *)

Section addresses.
Context (CheckLowS : bytes -> bool) (checker : BaseSignatureChecker) (branch : Z) (flags : Z) (id : bytes).

Abbreviation eval := (EvalScript CheckLowS checker branch flags).
Abbreviation verify := (VerifyScript CheckLowS checker branch flags).

(** C10. Who can spend a pay-to-key-hash output: exactly an input whose script
    leaves a key that hashes to the address and, below it, a signature that the
    checker accepts under that key for this very output script, both in the
    required encoding (and nothing else, where a clean stack is asked for). *)
Theorem p2pkh_spend scriptSig :
  length id = 20%nat -> (has_flag flags SCRIPT_VERIFY_CLEANSTACK = true -> has_flag flags SCRIPT_VERIFY_P2SH = true) ->
  let scriptPubKey := GetScriptForDestination (CKeyID id) in
  verify scriptSig scriptPubKey = Ret tt <->
  (has_flag flags SCRIPT_VERIFY_SIGPUSHONLY = true -> IsPushOnly scriptSig = true) /\
  exists key sig rest checks,
    eval [] scriptSig = Ret (key :: sig :: rest, checks) /\ Hash160 key = id /\ (length rest <= 996)%nat /\
    CheckSignatureEncoding CheckLowS flags sig = Ret tt /\ CheckPubKeyEncoding flags key = Ret tt /\
    CheckSig checker sig key scriptPubKey branch = true /\
    (has_flag flags SCRIPT_VERIFY_CLEANSTACK = true -> rest = []).
Proof.
  intros Hid Hcp scriptPubKey. unfold VerifyScript. pose proof (p2pkh_not_p2sh id Hid) as Hn.
  fold scriptPubKey in Hn. rewrite Hn, andb_false_r. split.
  - destruct (has_flag flags SCRIPT_VERIFY_SIGPUSHONLY && negb (IsPushOnly scriptSig)) eqn:Ep; [done|].
    destruct (eval [] scriptSig) as [[st ch]| |] eqn:E1; [|done|done]. cbn [mbind Eval_bind fst].
    destruct (eval st scriptPubKey) as [r| |] eqn:E2; [|done|done]. cbn [mbind Eval_bind].
    apply eval_p2pkh in E2 as (key & sig & rest & -> & Hh & Hl & He & Hk & ->); [|done]. cbn [fst]. rewrite check_bind, eval_true_Ret.
    intros [(? & ? & [= <- <-] & Ht) Hc]. rewrite vch_of_bool_true in Ht. split.
    + intros Hsp. rewrite Hsp in Ep. by destruct (IsPushOnly scriptSig).
    + exists key, sig, rest, ch. repeat (split; [done|]). intros Hcl. cbn in Hc. rewrite Hcl, (Hcp Hcl) in Hc. by destruct rest.
  - intros (Hsp & key & sig & rest & ch & E1 & Hh & Hl & He & Hk & Hs & Hcl).
    destruct (has_flag flags SCRIPT_VERIFY_SIGPUSHONLY && negb (IsPushOnly scriptSig)) eqn:Ep.
    { apply andb_prop in Ep as [Ep1 Ep2]. by rewrite Hsp in Ep2. }
    rewrite E1. cbn [mbind Eval_bind fst].
    assert (E2 : eval (key :: sig :: rest) scriptPubKey = Ret (vch_of_bool true :: rest, [(sig, key)])).
    { apply eval_p2pkh; [done|]. exists key, sig, rest. by rewrite <- Hs. }
    rewrite E2. cbn [mbind Eval_bind fst eval_true]. change (CastToBool (vch_of_bool true)) with true. cbn [mbind Eval_bind].
    destruct (has_flag flags SCRIPT_VERIFY_CLEANSTACK); [|done]. by rewrite Hcp, Hcl by done.
Qed.

(** C11. Who can spend a pay-to-script-hash output: under the P2SH rule exactly an
    input that only pushes, the last item being a script that hashes to the
    address and that evaluates to true on the items below it. *)
Theorem p2sh_spend scriptSig :
  length id = 20%nat -> has_flag flags SCRIPT_VERIFY_P2SH = true ->
  verify scriptSig (GetScriptForDestination (CScriptID id)) = Ret tt <->
  IsPushOnly scriptSig = true /\
  exists redeem rest checks top st checks',
    eval [] scriptSig = Ret (redeem :: rest, checks) /\ Hash160 redeem = id /\ (length rest <= 998)%nat /\
    eval rest redeem = Ret (top :: st, checks') /\ CastToBool top = true /\
    (has_flag flags SCRIPT_VERIFY_CLEANSTACK = true -> st = []).
Proof.
  intros Hid Hp. unfold VerifyScript. rewrite (p2sh_recognised id Hid), Hp. cbn [andb negb]. unfold verify_p2sh.
  destruct (IsPushOnly scriptSig); cbn [negb]; [rewrite andb_false_r|].
  2: { split; [|by intros [? _]]. intros Hv. exfalso. revert Hv. destruct (_ && _); [done|].
       destruct (eval [] scriptSig) as [r| |]; [|done|done]. cbn. destruct (eval r.1 _) as [r'| |]; [|done|done]. cbn.
       by destruct (eval_true r'.1). }
  split.
  - destruct (eval [] scriptSig) as [[st ch]| |] eqn:E1; [|done|done]. cbn [mbind Eval_bind fst].
    destruct (eval st _) as [r| |] eqn:E2; [|done|done]. cbn [mbind Eval_bind].
    apply eval_p2sh in E2 as (redeem & rest & -> & Hl & ->); [|done]. cbn [fst]. rewrite check_bind, eval_true_Ret.
    intros [(? & ? & [= <- <-] & Ht) Hc]. rewrite vch_of_bool_true, bool_decide_eq_true in Ht. split; [done|].
    destruct (eval rest redeem) as [[st' ch']| |] eqn:E3; [|done|done]. cbn [mbind Eval_bind fst] in Hc. rewrite bind_assoc, check_bind, eval_true_Ret in Hc.
    destruct Hc as [(top & st & -> & Htop) Hc]. cbn [mbind Eval_bind] in Hc. exists redeem, rest, ch, top, st, ch'. repeat (split; [done|]).
    intros Hcl. rewrite Hcl in Hc. by destruct st.
  - intros (_ & redeem & rest & ch & top & st & ch' & E1 & Hh & Hl & E3 & Htop & Hcl).
    rewrite E1. cbn [mbind Eval_bind fst].
    assert (E2 : eval (redeem :: rest) (GetScriptForDestination (CScriptID id)) = Ret (vch_of_bool true :: rest, [])).
    { apply eval_p2sh; [done|]. exists redeem, rest. by rewrite bool_decide_eq_true_2. }
    rewrite E2. cbn [mbind Eval_bind fst eval_true]. change (CastToBool (vch_of_bool true)) with true. cbn [mbind Eval_bind].
    rewrite E3. cbn [mbind Eval_bind fst eval_true]. rewrite Htop. cbn [mbind Eval_bind].
    destruct (has_flag flags SCRIPT_VERIFY_CLEANSTACK); [|done]. by rewrite Hcl.
Qed.

End addresses.

(** * Multisignatures *)

(** Every signature has a key of its own, in the order of the keys. *)
Inductive signed_in_order (ok : bytes -> bytes -> bool) : list bytes -> list bytes -> Prop :=
  | sio_nil keys : signed_in_order ok [] keys
  | sio_take sig key sigs keys : ok sig key = true -> signed_in_order ok sigs keys -> signed_in_order ok (sig :: sigs) (key :: keys)
  | sio_skip key sigs keys : signed_in_order ok sigs keys -> signed_in_order ok sigs (key :: keys).

Lemma sio_length ok sigs keys : signed_in_order ok sigs keys -> (length sigs <= length keys)%nat.
Proof. induction 1; cbn in *; lia. Qed.

Lemma sio_drop ok sig sigs keys : signed_in_order ok (sig :: sigs) keys -> signed_in_order ok sigs keys.
Proof.
  revert sig sigs. induction keys as [|key keys IH]; intros sig sigs Hs; inversion Hs; subst; apply sio_skip; [done|]. by eapply IH.
Qed.

(** Taking the first key that fits loses nothing. *)
Lemma sio_greedy ok sig sigs key keys :
  signed_in_order ok (sig :: sigs) (key :: keys) <->
  if ok sig key then signed_in_order ok sigs keys else signed_in_order ok (sig :: sigs) keys.
Proof.
  destruct (ok sig key) eqn:E; split.
  - intros Hs. inversion Hs; subst; [done|]. by eapply sio_drop.
  - intros Hs. by apply sio_take.
  - intros Hs. inversion Hs; subst; [congruence|done].
  - apply sio_skip.
Qed.

Section multisig.
Context (CheckLowS : bytes -> bool) (checker : BaseSignatureChecker) (branch : Z) (flags : Z) (script : bytes).

Definition accepts (sig key : bytes) : bool := CheckSig checker sig key script branch.
Definition encoded_sig (sig : bytes) : Prop := CheckSignatureEncoding CheckLowS flags sig = Ret tt.
Definition encoded_key (key : bytes) : Prop := CheckPubKeyEncoding flags key = Ret tt.

(** The items of [l] are on the stack from position [i] on. *)
Definition laid_out (stack : list bytes) (i : nat) (l : list bytes) : Prop :=
  forall j x, l !! j = Some x -> stacktop stack (i + j) = Ret x.

Lemma laid_out_cons stack i x l : laid_out stack i (x :: l) -> stacktop stack i = Ret x /\ laid_out stack (S i) l.
Proof.
  intros Hl. split; [specialize (Hl 0%nat x eq_refl); by rewrite Nat.add_0_r in Hl|].
  intros j y Hy. specialize (Hl (S j) y Hy). by rewrite Nat.add_succ_r in Hl.
Qed.

Lemma laid_out_app pre l post i : i = S (length pre) -> laid_out (pre ++ l ++ post) i l.
Proof.
  intros -> j x Hx. unfold stacktop. replace (S (length pre) + j - 1)%nat with (length pre + j)%nat by lia.
  rewrite lookup_app_r by lia. replace (length pre + j - length pre)%nat with j by lia.
  by rewrite (lookup_app_l_Some _ _ _ _ Hx).
Qed.

Lemma multisig_loop_spec stack sigs keys ikey isig checks :
  Forall encoded_sig sigs -> Forall encoded_key keys -> (length sigs <= length keys)%nat ->
  laid_out stack ikey keys -> laid_out stack isig sigs ->
  exists b checks',
    multisig_loop CheckLowS checker branch flags script stack (length keys) (length sigs) isig ikey checks = Ret (b, checks') /\
    (b = true <-> signed_in_order accepts sigs keys).
Proof.
  intros Hs Hk. revert sigs ikey isig checks Hs. induction Hk as [|key keys Hkey Hk IH]; intros sigs ikey isig checks Hs Hl Lk Ls.
  { destruct sigs; [|cbn in Hl; lia]. exists true, checks. split; [done|]. by split; [intros; apply sio_nil|]. }
  destruct Hs as [|sig sigs Hsig Hs]; [exists true, checks; split; [done|]; by split; [intros; apply sio_nil|]|].
  cbn [length multisig_loop]. apply laid_out_cons in Lk as [-> Lk]. pose proof Ls as [-> Ls']%laid_out_cons. cbn [mbind Eval_bind].
  rewrite Hsig. cbn [mbind Eval_bind]. rewrite Hkey. cbn [mbind Eval_bind length] in *.
  change (CheckSig checker sig key script branch) with (accepts sig key). setoid_rewrite (sio_greedy accepts sig sigs key keys).
  destruct (accepts sig key).
  - replace (length keys <? length sigs)%nat with false by (symmetry; apply Nat.ltb_ge; lia). apply IH; [done|lia|done|done].
  - destruct (Nat.ltb_spec (length keys) (S (length sigs))) as [Hlt|Hge].
    + eexists false, _. split; [done|]. split; [done|]. intros Hsio%sio_length. cbn in Hsio. lia.
    + apply (IH (sig :: sigs)); [by constructor|cbn; lia|done|done].
Qed.

Lemma read_small n : 0 <= n <= 20 -> read_num_at flags nDefaultMaxNumSize (CScriptNum_serialize n) = Ret n.
Proof.
  intros Hn. unfold read_num_at, CScriptNum. destruct (Z.eq_dec n 0) as [->|Hne]; [by destruct (fRequireMinimal flags)|].
  destruct (serialize_minimal n 1) as (Hlen & Hmin & Hval); [done|lia|change (2 ^ (8 * 1 - 1)) with 128; lia|].
  rewrite (proj2 (Z.ltb_ge _ _)) by (unfold nDefaultMaxNumSize; lia). by rewrite Hmin, andb_false_r, Hval.
Qed.

(** C12. OP_CHECKMULTISIG accepts exactly when every signature has a key of its
    own, in the order of the keys: the single pass over the keys decides whether
    some order-preserving assignment exists.  The operation consumes its
    arguments and the dummy item and leaves the answer. *)
Theorem multisig_in_order keys sigs dummy rest s :
  es_stack s = CScriptNum_serialize (Z.of_nat (length keys)) :: keys ++
               CScriptNum_serialize (Z.of_nat (length sigs)) :: sigs ++ dummy :: rest ->
  (length sigs <= length keys <= 20)%nat -> es_nOpCount s + Z.of_nat (length keys) <= 201 ->
  Forall encoded_sig sigs -> Forall encoded_key keys -> (has_flag flags SCRIPT_VERIFY_NULLDUMMY = true -> dummy = []) ->
  exists b checks,
    op_checkmultisig CheckLowS checker branch flags script OP_CHECKMULTISIG s =
      Ret (s <| es_nOpCount ::= Z.add (Z.of_nat (length keys)) |> <| es_checks := checks |> <| es_stack := vch_of_bool b :: rest |>) /\
    (b = true <-> signed_in_order accepts sigs keys).
Proof.
  intros Hst Hl Hop Hsigs Hkeys Hdummy. set (k := Z.of_nat (length keys)) in *. set (m := Z.of_nat (length sigs)) in *.
  set (stack := es_stack s) in *. assert (Hsize : Z.of_nat (length stack) = 3 + k + m + Z.of_nat (length rest)).
  { rewrite Hst. cbn [length]. rewrite !length_app. cbn [length]. rewrite length_app. cbn [length]. lia. }
  assert (Hk1 : stacktop stack 1 = Ret (CScriptNum_serialize k)) by (by rewrite Hst).
  assert (Lk : laid_out stack 2 keys).
  { rewrite Hst. by apply (laid_out_app [CScriptNum_serialize k]). }
  assert (Lm : stacktop stack (Z.to_nat (2 + k)) = Ret (CScriptNum_serialize m) /\ laid_out stack (Z.to_nat (2 + k + 1)) sigs).
  { replace (Z.to_nat (2 + k + 1)) with (S (Z.to_nat (2 + k))) by lia. apply laid_out_cons.
    rewrite Hst, app_comm_cons. change (CScriptNum_serialize m :: sigs ++ dummy :: rest) with ((CScriptNum_serialize m :: sigs) ++ dummy :: rest).
    apply laid_out_app. cbn. lia. }
  destruct Lm as [Hm1 Ls].
  destruct (multisig_loop_spec stack sigs keys 2 (Z.to_nat (2 + k + 1)) (es_checks s)) as (b & checks & Hloop & Hb); [done|done|lia|done|done|].
  exists b, checks. split; [|done]. unfold op_checkmultisig. fold stack. cbv zeta.
  rewrite (proj2 (Z.ltb_ge _ _)) by lia. rewrite Hk1. cbn [mbind Eval_bind]. rewrite read_small by lia. cbn [mbind Eval_bind].
  replace (getint k) with k by (unfold getint; repeat case_match; lia).
  rewrite (proj2 (Z.ltb_ge k 0)), (proj2 (Z.ltb_ge 20 k)) by lia. cbn [orb].
  rewrite (proj2 (Z.ltb_ge 201 _)), (proj2 (Z.ltb_ge _ (2 + k))) by lia. rewrite Hm1. cbn [mbind Eval_bind].
  rewrite read_small by lia. cbn [mbind Eval_bind]. replace (getint m) with m by (unfold getint; repeat case_match; lia).
  rewrite (proj2 (Z.ltb_ge m 0)), (proj2 (Z.ltb_ge k m)) by lia. cbn [orb]. rewrite (proj2 (Z.ltb_ge _ _)) by lia.
  replace (Z.to_nat k) with (length keys) by (unfold k; by rewrite Nat2Z.id). replace (Z.to_nat m) with (length sigs) by (unfold m; by rewrite Nat2Z.id).
  rewrite Hloop. cbn [mbind Eval_bind].
  replace (drop _ stack) with (dummy :: rest).
  2: { rewrite Hst, app_comm_cons, drop_app_ge by (cbn; lia).
       change (CScriptNum_serialize m :: sigs ++ dummy :: rest) with ((CScriptNum_serialize m :: sigs) ++ dummy :: rest).
       rewrite drop_app_ge by (cbn; lia). by replace (_ - _ - _)%nat with 0%nat by (cbn; lia). }
  destruct (has_flag flags SCRIPT_VERIFY_NULLDUMMY && negb (length dummy =? 0)%nat) eqn:En.
  { apply andb_prop in En as [En1 En2]. by rewrite Hdummy in En2. }
  unfold push_result. cbn [fst snd]. change (OP_CHECKMULTISIG =? OP_CHECKMULTISIGVERIFY) with false. cbv iota.
  do 2 f_equal. cbn. f_equal; lia.
Qed.

End multisig.

(** * Examples *)

(** A checker that accepts anything under keys that start with 2. *)
Definition demo_checker : BaseSignatureChecker := mkChecker (fun _ key _ _ => byte_at key 0 =? 2) (fun _ => true).
Definition demo_key : bytes := 2 :: replicate 32 7.

Lemma p2pkh_spend_witness :
  VerifyScript (fun _ => true) demo_checker 0 CONNECT_SCRIPT_VERIFY_FLAGS ([OP_0; 33] ++ demo_key)
    (GetScriptForDestination (CKeyID (Hash160 demo_key))) = Ret tt.
Proof.
  apply (p2pkh_spend (fun _ => true) demo_checker 0 CONNECT_SCRIPT_VERIFY_FLAGS (Hash160 demo_key) ([OP_0; 33] ++ demo_key));
    [vm_compute; reflexivity|vm_compute; discriminate|]. split; [vm_compute; discriminate|].
  exists demo_key, [], [], []. repeat split; try (vm_compute; reflexivity). cbn. lia.
Defined.

Lemma p2sh_spend_witness :
  VerifyScript (fun _ => true) demo_checker 0 STANDARD_SCRIPT_VERIFY_FLAGS [3; OP_5; OP_5; OP_EQUAL]
    (GetScriptForDestination (CScriptID (Hash160 [OP_5; OP_5; OP_EQUAL]))) = Ret tt.
Proof.
  apply (p2sh_spend (fun _ => true) demo_checker 0 STANDARD_SCRIPT_VERIFY_FLAGS (Hash160 [OP_5; OP_5; OP_EQUAL]) [3; OP_5; OP_5; OP_EQUAL]);
    [vm_compute; reflexivity|vm_compute; reflexivity|]. split; [vm_compute; reflexivity|].
  exists [OP_5; OP_5; OP_EQUAL], [], [], [1], [], []. repeat split; try (vm_compute; reflexivity). cbn. lia.
Defined.

Lemma multisig_in_order_witness :
  let s := mkEvalState [[2]; [3]; [2]; [1]; []; []] [] [] 1 [] in
  exists b checks,
    op_checkmultisig (fun _ => true) demo_checker 0 CONNECT_SCRIPT_VERIFY_FLAGS [] OP_CHECKMULTISIG s =
      Ret (mkEvalState [vch_of_bool b] [] [] 3 checks) /\
    (b = true <-> signed_in_order (accepts demo_checker 0 []) [[]] [[3]; [2]]).
Proof.
  intros s.
  apply (multisig_in_order (fun _ => true) demo_checker 0 CONNECT_SCRIPT_VERIFY_FLAGS [] [[3]; [2]] [[]] [] [] s);
    try (vm_compute; reflexivity); try (repeat constructor); vm_compute; try discriminate; lia.
Defined.
