(* ===== verification/Shard.v ===== *)
(** Model manifests and the Model Execution Graph (opoi/opoi_model_manifest.h,
    opoi/opoi_shard.h): how the layers of a model are split into pipeline
    stages, which dense and expert shards a manifest gives rise to, and the
    deterministic expert selection. *)

From stdpp Require Import list strings sorting.
From Stdlib Require Import ZArith Lia.
From S2P Require Import Prelude Uint256 Sha256 Serialize.

Definition OPOI_ARCH_DENSE : Z := 0.
Definition OPOI_ARCH_MOE : Z := 1.
Definition OPOI_ARCH_HYBRID : Z := 2.

Definition OPOI_MODEL_STATUS_VOTING : Z := 1.
Definition OPOI_MODEL_STATUS_APPROVED : Z := 2.
Definition OPOI_MODEL_STATUS_ACTIVE : Z := 3.
Definition OPOI_MODEL_STATUS_REJECTED : Z := 4.

Record ModelManifest := mkModelManifest {
  modelId : string;
  archType : Z;
  totalParams : Z;
  activeParamsPerToken : Z;
  numLayers : Z;
  numDenseShards : Z;
  numExperts : Z;
  topKExperts : Z;
  backbonePomRoot : Z;
  expertPomRoots : list Z;
  minRewardPerToken : Z;
  totalSizeBytes : Z;
  proposer : string;
  proposedHeight : Z;
  voteWindowEndHeight : Z;
  activationHeight : Z;
  mf_txHash : Z;
  mf_status : Z;
  shardTopologyHash : Z;
}.

#[global] Instance eta_ModelManifest : Eta ModelManifest := fun r =>
  mkModelManifest (modelId r) (archType r) (totalParams r) (activeParamsPerToken r)
    (numLayers r) (numDenseShards r) (numExperts r) (topKExperts r) (backbonePomRoot r)
    (expertPomRoots r) (minRewardPerToken r) (totalSizeBytes r) (proposer r) (proposedHeight
    r) (voteWindowEndHeight r) (activationHeight r) (mf_txHash r) (mf_status r)
    (shardTopologyHash r).

Definition IsMoE (m : ModelManifest) : bool :=
  (archType m =? OPOI_ARCH_MOE) || (archType m =? OPOI_ARCH_HYBRID).
Definition IsVoting (m : ModelManifest) : bool := mf_status m =? OPOI_MODEL_STATUS_VOTING.
Definition Manifest_IsActive (m : ModelManifest) : bool := mf_status m =? OPOI_MODEL_STATUS_ACTIVE.

Record ModelVoteRecord := mkModelVoteRecord {
  voterAddress : string;
  approve : bool;
  weight : Z;
  vote_blockHeight : Z;
  vote_txHash : Z;
}.

#[global] Instance eta_ModelVoteRecord : Eta ModelVoteRecord := fun r =>
  mkModelVoteRecord (voterAddress r) (approve r) (weight r) (vote_blockHeight r)
    (vote_txHash r).

Definition OPOI_SHARD_DENSE : Z := 0.
Definition OPOI_SHARD_EXPERT : Z := 1.

Record ShardDescriptor := mkShardDescriptor {
  shardIndex : Z;
  shardType : Z;
  layerStart : Z;
  layerEnd : Z;
  expertId : Z;
}.

(** The loop of [SplitLayerRanges]: [n] stages are left, [i] is the next. *)
Fixpoint split_loop (n : nat) (i cursor base remainder : Z) : list (Z * Z) :=
  match n with
  | O => []
  | S n' =>
    let size := u32 (base + (if i <? remainder then 1 else 0)) in
    (cursor, u32 (cursor + size)) :: split_loop n' (u32 (i + 1)) (u32 (cursor + size)) base remainder
  end.

(** [SplitLayerRanges]. *)
Definition SplitLayerRanges (numLayers numShards : Z) : list (Z * Z) :=
  if numShards =? 0 then []
  else split_loop (Z.to_nat numShards) 0 0 (numLayers / numShards) (numLayers mod numShards).

(** The dense shards, one per range, numbered from [idx]. *)
Fixpoint dense_shards (idx : Z) (ranges : list (Z * Z)) : list ShardDescriptor :=
  match ranges with
  | [] => []
  | (lo, hi) :: ranges' =>
    mkShardDescriptor idx OPOI_SHARD_DENSE lo hi 0 :: dense_shards (u32 (idx + 1)) ranges'
  end.

(** The inner loop over the experts of one range; [n] experts are left. *)
Fixpoint expert_row (n : nat) (e idx : Z) (range : Z * Z) : list ShardDescriptor :=
  match n with
  | O => []
  | S n' =>
    mkShardDescriptor idx OPOI_SHARD_EXPERT range.1 range.2 e
      :: expert_row n' (u32 (e + 1)) (u32 (idx + 1)) range
  end.

Fixpoint expert_shards (numExperts idx : Z) (ranges : list (Z * Z)) : list ShardDescriptor :=
  match ranges with
  | [] => []
  | r :: ranges' =>
    expert_row (Z.to_nat numExperts) 0 idx r
      ++ expert_shards numExperts (u32 (idx + numExperts)) ranges'
  end.

(** [BuildModelExecutionGraph(m, collapseToTitanSingleNode)]. *)
Definition BuildModelExecutionGraph (m : ModelManifest) (collapse : bool) : list ShardDescriptor :=
  if numLayers m =? 0 then []
  else if collapse then [mkShardDescriptor 0 OPOI_SHARD_DENSE 0 (numLayers m) 0]
  else if IsMoE m then
    let denseShards := if 0 <? numDenseShards m then numDenseShards m else 1 in
    let ranges := SplitLayerRanges (numLayers m) denseShards in
    dense_shards 0 ranges ++ expert_shards (numExperts m) denseShards ranges
  else if numDenseShards m =? 0 then []
  else dense_shards 0 (SplitLayerRanges (numLayers m) (numDenseShards m)).

Definition IsExpertShardWithinManifestBounds (d : ShardDescriptor) (m : ModelManifest) : bool :=
  if numExperts m <=? expertId d then false
  else if numLayers m <? layerEnd d then false
  else if layerEnd d <=? layerStart d then false
  else true.

Definition IsAuditorVerificationShardIndexValid (idx : Z) (m : ModelManifest) (collapse : bool) : bool :=
  idx <? Z.of_nat (length (BuildModelExecutionGraph m collapse)).

(** [ComputeShardTopologyHash]: the hash of the shape-defining fields. *)
Definition ComputeShardTopologyHash (m : ModelManifest) : Z :=
  le_value (Hash256 (enc u8_codec (archType m) ++ enc u32_codec (numLayers m) ++
    enc u32_codec (numDenseShards m) ++ enc u32_codec (numExperts m) ++ enc u32_codec (topKExperts m))).

(** ** Expert selection *)

Definition expert_digest (requestId : string) (promptHash i : Z) : bytes :=
  SHA256 (string_bytes requestId ++ uint256_data promptHash ++ string_bytes ("EXPERT" +:+ dec i)).

(** [a.first < b.first] on the digests is lexicographic; equal digests are
    kept in index order here (the source leaves their order to [std::sort]). *)
Definition score_le (a b : bytes * Z) : Prop := memcmp_lt b.1 a.1 = false.

#[global] Instance score_le_dec : RelDecision score_le.
Proof. intros a b. unfold score_le. apply _. Defined.

(** [SelectTopKExperts]. *)
Definition SelectTopKExperts (requestId : string) (promptHash numExperts topK : Z) : list Z :=
  let scored := map (fun i => (expert_digest requestId promptHash i, i)) (seqZ 0 numExperts) in
  take (Z.to_nat (Z.min topK numExperts)) (merge_sort score_le scored).*2.

(** * The layer split is a partition *)

(** First layer of stage [j]: the remainder goes to the earlier stages. *)
Definition stage_start (numLayers numShards j : Z) : Z :=
  j * (numLayers / numShards) + Z.min j (numLayers mod numShards).

Definition stage (numLayers numShards j : Z) : Z * Z :=
  (stage_start numLayers numShards j, stage_start numLayers numShards (j + 1)).

Section split.
Context (L n : Z) (HL : 0 <= L < 2 ^ 32) (Hn : 0 < n < 2 ^ 32).

Lemma stage_start_0 : stage_start L n 0 = 0.
Proof using HL Hn.
  unfold stage_start. pose proof (Z.mod_pos_bound L n). lia.
Qed.

Lemma stage_start_n : stage_start L n n = L.
Proof using HL Hn.
  unfold stage_start. pose proof (Z.mod_pos_bound L n). pose proof (Z.div_mod L n). lia.
Qed.

Lemma stage_start_step j :
  stage_start L n (j + 1) = stage_start L n j + L / n + (if j <? L mod n then 1 else 0).
Proof using Type. unfold stage_start. destruct (Z.ltb_spec j (L mod n)); lia. Qed.

Lemma stage_start_range j : 0 <= j <= n -> 0 <= stage_start L n j <= L.
Proof using HL Hn.
  intros Hj. unfold stage_start. pose proof (Z.mod_pos_bound L n).
  pose proof (Z.div_mod L n). pose proof (Z.div_pos L n). nia.
Qed.

Lemma split_loop_spec k i :
  0 <= i -> i + Z.of_nat k = n ->
  split_loop k i (stage_start L n i) (L / n) (L mod n) = map (stage L n) (seqZ i (Z.of_nat k)).
Proof using HL Hn.
  revert i. induction k as [|k IH]; intros i Hi Hk; [done|].
  rewrite Nat2Z.inj_succ in Hk |- *. rewrite seqZ_cons by lia. cbn [split_loop map].
  pose proof (stage_start_range (i + 1) ltac:(lia)). pose proof (stage_start_range i ltac:(lia)).
  pose proof (stage_start_step i) as Hs. pose proof (Z.div_pos L n ltac:(lia) ltac:(lia)).
  rewrite (u32_small (L / n + _)) by (unfold in_u32; destruct (i <? L mod n); lia).
  replace (stage_start L n i + (L / n + (if i <? L mod n then 1 else 0)))
    with (stage_start L n (i + 1)) by lia.
  rewrite (u32_small (stage_start L n (i + 1))) by (unfold in_u32; lia). f_equal.
  destruct k as [|k]; [done|].
  rewrite (u32_small (i + 1)) by (unfold in_u32; lia).
  rewrite IH by lia. do 2 f_equal; lia.
Qed.

Lemma SplitLayerRanges_spec : SplitLayerRanges L n = map (stage L n) (seqZ 0 n).
Proof using HL Hn.
  unfold SplitLayerRanges. destruct (Z.eqb_spec n 0); [lia|].
  pose proof (split_loop_spec (Z.to_nat n) 0 ltac:(lia) ltac:(lia)) as Hs.
  rewrite stage_start_0 in Hs. rewrite Hs. do 2 f_equal. lia.
Qed.

Lemma lookup_SplitLayerRanges i r :
  SplitLayerRanges L n !! i = Some r -> r = stage L n (Z.of_nat i) /\ Z.of_nat i < n.
Proof using HL Hn.
  rewrite SplitLayerRanges_spec, list_lookup_fmap, fmap_Some.
  intros (j & Hj & ->). apply lookup_seqZ in Hj as [-> ?]. split; [f_equal; lia|lia].
Qed.

Lemma stage_cover (k : nat) l :
  Z.of_nat k <= n -> 0 <= l < stage_start L n (Z.of_nat k) -> exists j, 0 <= j < Z.of_nat k /\
  stage_start L n j <= l < stage_start L n (j + 1).
Proof using HL Hn.
  induction k as [|k IH]; intros Hk Hl; [change (Z.of_nat 0) with 0 in Hl; rewrite stage_start_0 in Hl; lia|].
  rewrite Nat2Z.inj_succ in *. destruct (Z.lt_ge_cases l (stage_start L n (Z.of_nat k))).
  - destruct (IH ltac:(lia) ltac:(lia)) as (j & ? & ?). exists j. lia.
  - exists (Z.of_nat k). rewrite Z.add_1_r. lia.
Qed.

Lemma stage_start_mono i j : 0 <= i <= j -> stage_start L n i <= stage_start L n j.
Proof using HL Hn. intros. unfold stage_start. pose proof (Z.div_pos L n). nia. Qed.
End split.

(** [SplitLayerRanges] cuts the layers of a model into contiguous stages
    that cover every layer exactly once: there is one range per stage, each
    layer lies in one range and no other, and two stages differ by at most
    one layer. *)
Theorem split_layer_ranges_partition (L n : Z) :
  0 <= L < 2 ^ 32 -> 0 < n < 2 ^ 32 ->
  length (SplitLayerRanges L n) = Z.to_nat n /\
  (forall l, 0 <= l < L -> exists i r, SplitLayerRanges L n !! i = Some r /\ r.1 <= l < r.2 /\
     forall i' r', SplitLayerRanges L n !! i' = Some r' -> r'.1 <= l < r'.2 -> i' = i) /\
  (forall i r, SplitLayerRanges L n !! i = Some r ->
     L / n <= r.2 - r.1 <= L / n + 1 /\ 0 <= r.1 /\ r.2 <= L).
Proof.
  intros HL Hn. split; [|split].
  - by rewrite SplitLayerRanges_spec, length_map, length_seqZ by done.
  - intros l Hl. destruct (stage_cover L n HL Hn (Z.to_nat n) l) as (j & Hj & Hlj);
      [lia|rewrite Z2Nat.id, stage_start_n by (done || lia); lia|].
    exists (Z.to_nat j), (stage L n j). split; [|split; [exact Hlj|]].
    + rewrite SplitLayerRanges_spec, list_lookup_fmap by done.
      rewrite lookup_seqZ_lt by lia. cbn. do 2 f_equal. lia.
    + intros i' r' Hr Hlr. apply lookup_SplitLayerRanges in Hr as [-> Hi]; [|done..].
      cbn in Hlr. destruct (Z.lt_trichotomy (Z.of_nat i') j) as [Hlt|[?|Hgt]]; [|lia|].
      * pose proof (stage_start_mono L n HL Hn (Z.of_nat i' + 1) j). lia.
      * pose proof (stage_start_mono L n HL Hn (j + 1) (Z.of_nat i')). lia.
  - intros i r Hr. apply lookup_SplitLayerRanges in Hr as [-> Hi]; [|done..]. cbn.
    pose proof (stage_start_step L n (Z.of_nat i)).
    pose proof (stage_start_range L n HL Hn (Z.of_nat i)).
    pose proof (stage_start_range L n HL Hn (Z.of_nat i + 1)).
    destruct (Z.of_nat i <? L mod n); lia.
Qed.

Lemma split_layer_ranges_partition_witness :
  length (SplitLayerRanges 10 3) = 3%nat /\ SplitLayerRanges 10 3 = [(0, 4); (4, 7); (7, 10)].
Proof.
  split; [|vm_compute; reflexivity].
  apply (split_layer_ranges_partition 10 3); lia.
Defined.

(** * The Model Execution Graph *)

Lemma length_dense_shards idx rs : length (dense_shards idx rs) = length rs.
Proof. revert idx. induction rs as [|[lo hi] rs IH]; intros; simpl; auto. Qed.

Lemma dense_shards_lookup idx rs i d :
  0 <= idx -> idx + Z.of_nat (length rs) < 2 ^ 32 ->
  dense_shards idx rs !! i = Some d ->
  exists r, rs !! i = Some r /\ d = mkShardDescriptor (idx + Z.of_nat i) OPOI_SHARD_DENSE r.1 r.2 0.
Proof.
  revert idx i. induction rs as [|[lo hi] rs IH]; intros idx i H0 Hb Hl; [done|].
  cbn [dense_shards length] in *. destruct i as [|i]; cbn in Hl |- *.
  - injection Hl as <-. exists (lo, hi). split; [done|]. f_equal. lia.
  - rewrite u32_small in Hl by (unfold in_u32; lia).
    apply IH in Hl as (r & Hr & ->); [|lia|lia]. exists r. split; [done|]. f_equal. lia.
Qed.

Lemma length_expert_row n e idx r : length (expert_row n e idx r) = n.
Proof. revert e idx. induction n; intros; simpl; auto. Qed.

Lemma expert_row_lookup n e idx r i d :
  0 <= e -> e + Z.of_nat n < 2 ^ 32 -> 0 <= idx -> idx + Z.of_nat n < 2 ^ 32 ->
  expert_row n e idx r !! i = Some d ->
  d = mkShardDescriptor (idx + Z.of_nat i) OPOI_SHARD_EXPERT r.1 r.2 (e + Z.of_nat i) /\ (i < n)%nat.
Proof.
  revert e idx i. induction n as [|n IH]; intros e idx i He Hen Hi Hin Hl; [done|].
  cbn [expert_row] in Hl. destruct i as [|i]; cbn in Hl |- *.
  - injection Hl as <-. split; [f_equal; lia|lia].
  - rewrite (u32_small (e + 1)), (u32_small (idx + 1)) in Hl by (unfold in_u32; lia).
    apply IH in Hl as [-> ?]; [|lia..]. split; [f_equal; lia|lia].
Qed.

Lemma length_expert_shards ne idx rs :
  length (expert_shards ne idx rs) = (length rs * Z.to_nat ne)%nat.
Proof.
  revert idx. induction rs as [|r rs IH]; intros; [done|]. cbn [expert_shards length].
  rewrite length_app, length_expert_row, IH. lia.
Qed.

Lemma expert_shards_lookup ne idx rs i d :
  0 <= ne -> 0 <= idx -> idx + Z.of_nat (length rs) * ne < 2 ^ 32 -> ne < 2 ^ 32 ->
  expert_shards ne idx rs !! i = Some d ->
  shardIndex d = idx + Z.of_nat i /\ shardType d = OPOI_SHARD_EXPERT /\ 0 <= expertId d < ne /\
  exists r, r ∈ rs /\ layerStart d = r.1 /\ layerEnd d = r.2.
Proof.
  intros Hne. revert idx i. induction rs as [|r rs IH]; intros idx i H0 Hb Hne2 Hl; [done|].
  cbn [expert_shards length] in *. rewrite Nat2Z.inj_succ in Hb.
  apply lookup_app_Some in Hl as [Hl|[Hlen Hl]].
  - apply expert_row_lookup in Hl as [-> Hi]; [|nia..]. cbn.
    split; [done|]. split; [done|]. split; [lia|]. exists r. split; [left|done].
  - rewrite length_expert_row in Hlen, Hl.
    rewrite u32_small in Hl by (unfold in_u32; nia).
    apply IH in Hl as (-> & -> & ? & r' & ? & ? & ?); [|lia|nia|done].
    split; [lia|]. split; [done|]. split; [done|]. exists r'. split; [by right|done].
Qed.

(** The shape [CheckOPoITransaction] requires of a registered manifest, for a
    graph whose node numbers fit a [uint32_t]. *)
Record manifest_shape (m : ModelManifest) : Prop := {
  ms_layers : 0 < numLayers m < 2 ^ 32;
  ms_shards : 0 < numDenseShards m <= numLayers m;
  ms_experts : 0 <= numExperts m;
  ms_fits : numDenseShards m * (1 + numExperts m) < 2 ^ 32;
}.

Definition meg_size (m : ModelManifest) (collapse : bool) : Z :=
  if collapse then 1
  else if IsMoE m then numDenseShards m * (1 + numExperts m)
  else numDenseShards m.

Lemma meg_dense_part m idx rs i d :
  0 <= idx -> idx + Z.of_nat (length rs) < 2 ^ 32 -> dense_shards idx rs !! i = Some d ->
  shardIndex d = idx + Z.of_nat i /\ (shardType d = OPOI_SHARD_EXPERT -> IsExpertShardWithinManifestBounds d m = true).
Proof. intros H0 Hb Hl. apply dense_shards_lookup in Hl as (r & _ & ->); [|done..]. done. Qed.

Lemma range_nonempty m r :
  manifest_shape m -> r ∈ SplitLayerRanges (numLayers m) (numDenseShards m) ->
  r.1 < r.2 /\ r.2 <= numLayers m.
Proof.
  intros Hm [i Hi]%list_elem_of_lookup. destruct Hm.
  apply lookup_SplitLayerRanges in Hi as [-> Hi]; [|lia..]. cbn.
  pose proof (stage_start_step (numLayers m) (numDenseShards m) (Z.of_nat i)).
  pose proof (stage_start_range (numLayers m) (numDenseShards m) ltac:(lia) ltac:(lia) (Z.of_nat i + 1)).
  assert (1 <= numLayers m / numDenseShards m) by (apply Z.div_le_lower_bound; lia).
  destruct (_ <? _); lia.
Qed.

Lemma meg_length m collapse :
  manifest_shape m -> Z.of_nat (length (BuildModelExecutionGraph m collapse)) = meg_size m collapse.
Proof.
  intros [HL Hn He Hf].
  assert (Hlen : length (SplitLayerRanges (numLayers m) (numDenseShards m)) = Z.to_nat (numDenseShards m)).
  { rewrite SplitLayerRanges_spec, length_map, length_seqZ by lia. done. }
  unfold BuildModelExecutionGraph, meg_size. destruct (Z.eqb_spec (numLayers m) 0); [lia|].
  destruct collapse; [done|]. destruct (IsMoE m).
  - rewrite (proj2 (Z.ltb_lt 0 (numDenseShards m))) by lia.
    rewrite length_app, length_dense_shards, length_expert_shards, Hlen. nia.
  - destruct (Z.eqb_spec (numDenseShards m) 0); [lia|]. rewrite length_dense_shards, Hlen. lia.
Qed.

(** C38. The Model Execution Graph of a registered manifest is well formed:
    it has the documented number of nodes, the node at position [i] carries
    the index [i], and every expert node lies inside the bounds of its
    manifest, so the defensive bounds check of validation never fires. *)
Theorem meg_well_formed (m : ModelManifest) (collapse : bool) :
  manifest_shape m ->
  Z.of_nat (length (BuildModelExecutionGraph m collapse)) = meg_size m collapse /\
  forall i d, BuildModelExecutionGraph m collapse !! i = Some d ->
    shardIndex d = Z.of_nat i /\
    (shardType d = OPOI_SHARD_EXPERT -> IsExpertShardWithinManifestBounds d m = true).
Proof.
  intros Hm. split; [by apply meg_length|]. pose proof Hm as [HL Hn He Hf].
  assert (Hlen : length (SplitLayerRanges (numLayers m) (numDenseShards m)) = Z.to_nat (numDenseShards m)).
  { rewrite SplitLayerRanges_spec, length_map, length_seqZ by lia. done. }
  unfold BuildModelExecutionGraph. destruct (Z.eqb_spec (numLayers m) 0); [lia|].
  destruct collapse; [by intros [|i] d Hd; [injection Hd as <-|]|]. destruct (IsMoE m).
  - rewrite (proj2 (Z.ltb_lt 0 (numDenseShards m))) by lia.
    intros i d [Hd|[Hi Hd]]%lookup_app_Some.
    + apply (meg_dense_part m 0) in Hd; [done|lia|rewrite Hlen; nia].
    + rewrite length_dense_shards, Hlen in Hi, Hd.
      apply expert_shards_lookup in Hd as (-> & _ & Hx & r & Hr & Hs & Hend); [|rewrite ?Hlen; nia..].
      split; [lia|]. intros _. destruct (range_nonempty m r Hm Hr).
      unfold IsExpertShardWithinManifestBounds. rewrite Hs, Hend.
      rewrite (proj2 (Z.leb_gt _ _)), (proj2 (Z.ltb_ge _ _)), (proj2 (Z.leb_gt _ _)) by lia. done.
  - destruct (Z.eqb_spec (numDenseShards m) 0); [lia|].
    intros i d Hd. apply (meg_dense_part m 0) in Hd; [done|lia|rewrite Hlen; nia].
Qed.

Definition sample_moe : ModelManifest := {|
  modelId := "MIXTRAL"; archType := OPOI_ARCH_MOE; totalParams := 0; activeParamsPerToken := 0;
  numLayers := 5; numDenseShards := 2; numExperts := 3; topKExperts := 1; backbonePomRoot := 1;
  expertPomRoots := [1; 2; 3]; minRewardPerToken := 0; totalSizeBytes := 0; proposer := "p";
  proposedHeight := 10; voteWindowEndHeight := 15; activationHeight := 0; mf_txHash := 1;
  mf_status := OPOI_MODEL_STATUS_ACTIVE; shardTopologyHash := 0 |}.

Lemma meg_well_formed_witness :
  Z.of_nat (length (BuildModelExecutionGraph sample_moe false)) = 8 /\
  BuildModelExecutionGraph sample_moe false !! 7%nat = Some (mkShardDescriptor 7 OPOI_SHARD_EXPERT 3 5 2).
Proof.
  split; [|vm_compute; reflexivity].
  apply (meg_well_formed sample_moe false). split; cbn; lia.
Defined.

(** [SelectTopKExperts] returns as many distinct, existing experts as
    were asked for (or all of them when fewer exist). *)
Theorem select_top_k_experts_sound (requestId : string) (promptHash numExperts topK : Z) :
  0 <= numExperts -> 0 <= topK ->
  let sel := SelectTopKExperts requestId promptHash numExperts topK in
  Z.of_nat (length sel) = Z.min topK numExperts /\ NoDup sel /\
  Forall (fun e => 0 <= e < numExperts) sel.
Proof.
  intros Hn Hk. unfold SelectTopKExperts.
  remember (map _ _) as scored eqn:Es.
  assert (Hp : (merge_sort score_le scored).*2 ≡ₚ seqZ 0 numExperts).
  { rewrite merge_sort_Permutation. subst scored. rewrite <- list_fmap_compose.
    erewrite list_fmap_ext; [rewrite list_fmap_id; reflexivity|done]. }
  assert (Hlen : length (merge_sort score_le scored).*2 = Z.to_nat numExperts).
  { by rewrite Hp, length_seqZ. }
  cbv zeta. split; [rewrite length_take, Hlen; lia|]. split.
  - eapply sublist_NoDup; [|apply sublist_take]. rewrite Hp. apply NoDup_seqZ.
  - apply Forall_take. rewrite Hp. apply Forall_forall. intros e He%elem_of_seqZ. lia.
Qed.

Lemma select_top_k_experts_sound_witness :
  Z.of_nat (length (SelectTopKExperts "req" 5 4 2)) = 2.
Proof. apply (select_top_k_experts_sound "req" 5 4 2); lia. Defined.
