(* ===== verification/Records.v ===== *)
(** The records of the inference subsystem (opoi/opoi.h): requests, responses,
    stakes, challenges, coordinator claims, shard results, auditor
    verifications and pending deliveries, with their status values and
    predicates.

    Two members of [OPoIResponse] are left out ([responseCommitHash],
    [commitHeight]): no code assigns or reads them. *)

From stdpp Require Import gmap strings list.
From Stdlib Require Import ZArith Lia.
From S2P Require Import Prelude Uint256 Sha256 Transaction.

(** * Status values *)

Definition OPOI_STATUS_PENDING : Z := 1.
Definition OPOI_STATUS_FULFILLED : Z := 2.
Definition OPOI_STATUS_EXPIRED : Z := 3.

Definition OPOI_STAKE_ACTIVE : Z := 1.
Definition OPOI_STAKE_UNSTAKING : Z := 2.
Definition OPOI_STAKE_RELEASED : Z := 3.
Definition OPOI_STAKE_SLASHED : Z := 4.
Definition OPOI_STAKE_SUSPENDED : Z := 5.

Definition OPOI_TIER_TITAN : Z := 4.

Definition OPOI_CHALLENGE_OPEN : Z := 1.
Definition OPOI_CHALLENGE_SLASHED : Z := 2.
Definition OPOI_CHALLENGE_EXPIRED : Z := 3.
Definition OPOI_CHALLENGE_REVEALED_PENDING : Z := 4.
Definition OPOI_CHALLENGE_RESOLVED_NO_ORACLE : Z := 5.

Definition OPOI_TASKCLASS_INTERACTIVE : Z := 0.

Definition AUDITOR_VERIFY_PASS : Z := 0.
Definition AUDITOR_VERIFY_FAIL : Z := 1.
Definition AUDITOR_VERIFY_TIMEOUT : Z := 2.

Definition OPOI_MAX_CANARY_STRIKES : Z := 3.

Definition OPOI_AUDITOR_STATUS_PENDING : Z := 0.
Definition OPOI_AUDITOR_STATUS_COMPLETE : Z := 1.
Definition OPOI_AUDITOR_STATUS_SLASHED : Z := 2.

(** [GetOPoICanaryTestSuiteHash]: the hash of the pinned label. *)
Definition GetOPoICanaryTestSuiteHash : Z := le_value (Hash256 (string_bytes "OPoI-Canary-TestSuite-v1")).

(** * Requests *)

Record OPoIRequest := mkOPoIRequest {
  req_requestId : string;
  req_requester : string;
  req_model : string;
  req_promptHash : Z;
  req_maxTokens : Z;
  req_payment : Z;
  req_feePerToken : Z;
  req_taskType : Z;
  req_taskClass : Z;
  req_promptTokenCount : Z;
  req_isCanary : Z;
  req_testSuite : Z;
  req_blockHeight : Z;
  req_sigTime : Z;
  req_txHash : Z;
  req_status : Z;
  req_responseCommits : gmap string string;
  req_responseReveals : gmap string string;
  req_commitWindowClosed : bool;
  req_vrfActiveStakers : Z;
}.

#[global] Instance eta_OPoIRequest : Eta OPoIRequest := fun r =>
  mkOPoIRequest (req_requestId r) (req_requester r) (req_model r) (req_promptHash r)
    (req_maxTokens r) (req_payment r) (req_feePerToken r) (req_taskType r) (req_taskClass r)
    (req_promptTokenCount r) (req_isCanary r) (req_testSuite r) (req_blockHeight r)
    (req_sigTime r) (req_txHash r) (req_status r) (req_responseCommits r)
    (req_responseReveals r) (req_commitWindowClosed r) (req_vrfActiveStakers r).

Definition IsPending (r : OPoIRequest) : bool := req_status r =? OPOI_STATUS_PENDING.
Definition IsExpired (r : OPoIRequest) : bool := req_status r =? OPOI_STATUS_EXPIRED.
Definition IsVerifiable (r : OPoIRequest) : bool := req_taskType r =? OPOI_TASK_VERIFIABLE.

(** * Responses *)

Record OPoIResponse := mkOPoIResponse {
  resp_requestId : string;
  resp_minerAddress : string;
  resp_responseHash : Z;
  resp_commitment : Z;
  resp_tokenCount : Z;
  resp_responsePhase : Z;
  resp_blockHeight : Z;
  resp_sigTime : Z;
  resp_txHash : Z;
  resp_auditSelected : Z;
  resp_auditDeadline : Z;
}.

#[global] Instance eta_OPoIResponse : Eta OPoIResponse := fun r =>
  mkOPoIResponse (resp_requestId r) (resp_minerAddress r) (resp_responseHash r)
    (resp_commitment r) (resp_tokenCount r) (resp_responsePhase r) (resp_blockHeight r)
    (resp_sigTime r) (resp_txHash r) (resp_auditSelected r) (resp_auditDeadline r).

Definition IsRevealed (r : OPoIResponse) : bool := resp_responsePhase r =? 1.
Definition auditSelected (r : OPoIResponse) : bool := negb (resp_auditSelected r =? 0).

(** * Stakes *)

Record OPoIStake := mkOPoIStake {
  stake_minerAddress : string;
  stake_collateralIn : COutPoint;
  stake_amount : Z;
  stake_modelId : string;
  stake_tier : Z;
  stake_pomRoot : Z;
  stake_blockHeight : Z;
  stake_lastRenewalHeight : Z;
  stake_sigTime : Z;
  stake_txHash : Z;
  stake_stakeStatus : Z;
  stake_unstakeHeight : Z;
  stake_unstakeTxHash : Z;
  stake_responsesTotal : Z;
  stake_responsesChallenged : Z;
  stake_responsesSlashed : Z;
  stake_canaryStrikes : Z;
  stake_canaryObligationDeadline : Z;
  stake_minerPubKey : bytes;
  stake_hostedExpertIds : list Z;
  stake_endpoint : string;
}.

#[global] Instance eta_OPoIStake : Eta OPoIStake := fun r =>
  mkOPoIStake (stake_minerAddress r) (stake_collateralIn r) (stake_amount r) (stake_modelId
    r) (stake_tier r) (stake_pomRoot r) (stake_blockHeight r) (stake_lastRenewalHeight r)
    (stake_sigTime r) (stake_txHash r) (stake_stakeStatus r) (stake_unstakeHeight r)
    (stake_unstakeTxHash r) (stake_responsesTotal r) (stake_responsesChallenged r)
    (stake_responsesSlashed r) (stake_canaryStrikes r) (stake_canaryObligationDeadline r)
    (stake_minerPubKey r) (stake_hostedExpertIds r) (stake_endpoint r).

Definition Stake_IsActive (s : OPoIStake) : bool := stake_stakeStatus s =? OPOI_STAKE_ACTIVE.
Definition IsUnstaking (s : OPoIStake) : bool := stake_stakeStatus s =? OPOI_STAKE_UNSTAKING.
Definition IsSuspended (s : OPoIStake) : bool := stake_stakeStatus s =? OPOI_STAKE_SUSPENDED.
Definition HasCanaryObligation (s : OPoIStake) : bool := negb (stake_canaryObligationDeadline s =? 0).
Definition HostsExpert (s : OPoIStake) (e : Z) : bool := bool_decide (e ∈ stake_hostedExpertIds s).

(** [ReputationScore]: the products are [uint32_t] cast to [int]. *)
Definition ReputationScore (s : OPoIStake) : Z :=
  if stake_responsesTotal s =? 0 then 100
  else
    let score := 100 in
    let score := if 0 <? stake_responsesSlashed s
                 then i32 (score - i32 (stake_responsesSlashed s * 20)) else score in
    let score := if 0 <? stake_responsesChallenged s
                 then i32 (score - i32 (stake_responsesChallenged s * 5)) else score in
    let score := if 0 <? stake_canaryStrikes s
                 then i32 (score - i32 (stake_canaryStrikes s * 10)) else score in
    if score <? 0 then 0 else score.

(** * Challenges *)

Record OPoIChallenge := mkOPoIChallenge {
  ch_requestId : string;
  ch_challengerAddress : string;
  ch_fraudProof : bytes;
  ch_challengerCollateral : COutPoint;
  ch_phase : Z;
  ch_commitHash : string;
  ch_commitHeight : Z;
  ch_blockHeight : Z;
  ch_sigTime : Z;
  ch_txHash : Z;
  ch_challengeStatus : Z;
  ch_revealTxHash : Z;
}.

#[global] Instance eta_OPoIChallenge : Eta OPoIChallenge := fun r =>
  mkOPoIChallenge (ch_requestId r) (ch_challengerAddress r) (ch_fraudProof r)
    (ch_challengerCollateral r) (ch_phase r) (ch_commitHash r) (ch_commitHeight r)
    (ch_blockHeight r) (ch_sigTime r) (ch_txHash r) (ch_challengeStatus r) (ch_revealTxHash
    r).

Definition IsOpen (c : OPoIChallenge) : bool := ch_challengeStatus c =? OPOI_CHALLENGE_OPEN.
Definition IsPendingResolution (c : OPoIChallenge) : bool :=
  ch_challengeStatus c =? OPOI_CHALLENGE_REVEALED_PENDING.

(** * Shard pipeline *)

Record ShardCoordinatorClaim := mkShardCoordinatorClaim {
  claim_requestId : string;
  claim_minerAddress : string;
  claim_blockHeight : Z;
  claim_txHash : Z;
}.

#[global] Instance eta_ShardCoordinatorClaim : Eta ShardCoordinatorClaim := fun r =>
  mkShardCoordinatorClaim (claim_requestId r) (claim_minerAddress r) (claim_blockHeight r)
    (claim_txHash r).

Record ShardResultSubmission := mkShardResultSubmission {
  sub_minerAddress : string;
  sub_boundaryOutputHash : Z;
  sub_routerLogitsHash : Z;
  sub_tokenCount : Z;
  sub_blockHeight : Z;
  sub_txHash : Z;
}.

#[global] Instance eta_ShardResultSubmission : Eta ShardResultSubmission := fun r =>
  mkShardResultSubmission (sub_minerAddress r) (sub_boundaryOutputHash r)
    (sub_routerLogitsHash r) (sub_tokenCount r) (sub_blockHeight r) (sub_txHash r).

(** * Auditors *)

Record AuditorVerification := mkAuditorVerification {
  fv_requestId : string;
  fv_auditorAddress : string;
  fv_result : Z;
  fv_auditorCollateral : COutPoint;
  fv_blockHeight : Z;
  fv_txHash : Z;
  fv_status : Z;
  fv_shardIndex : Z;
}.

#[global] Instance eta_AuditorVerification : Eta AuditorVerification := fun r =>
  mkAuditorVerification (fv_requestId r) (fv_auditorAddress r) (fv_result r)
    (fv_auditorCollateral r) (fv_blockHeight r) (fv_txHash r) (fv_status r) (fv_shardIndex
    r).

(** * Relay *)

Record PendingDelivery := mkPendingDelivery {
  pd_requestId : string;
  pd_kind : Z;
  pd_payloadHex : string;
  pd_sigTime : Z;
  pd_senderAddress : string;
}.

#[global] Instance eta_PendingDelivery : Eta PendingDelivery := fun r =>
  mkPendingDelivery (pd_requestId r) (pd_kind r) (pd_payloadHex r) (pd_sigTime r)
    (pd_senderAddress r).

(** The reputation score of a staker whose counters are below 2^24 is
    always between 0 and 100, is 100 for a staker without responses, and
    equals 100 minus 20 per slash, 5 per challenge and 10 per canary strike,
    cut off at 0. *)
Theorem reputation_score_bounds (s : OPoIStake) :
  0 <= stake_responsesSlashed s < 2 ^ 24 -> 0 <= stake_responsesChallenged s < 2 ^ 24 ->
  0 <= stake_canaryStrikes s < 256 ->
  ReputationScore s =
    (if stake_responsesTotal s =? 0 then 100
     else Z.max 0 (100 - 20 * stake_responsesSlashed s - 5 * stake_responsesChallenged s
                   - 10 * stake_canaryStrikes s)) /\
  0 <= ReputationScore s <= 100.
Proof.
  intros H1 H2 H3. unfold ReputationScore.
  destruct (Z.eqb_spec (stake_responsesTotal s) 0); [lia|].
  destruct (Z.ltb_spec 0 (stake_responsesSlashed s)), (Z.ltb_spec 0 (stake_responsesChallenged s)),
    (Z.ltb_spec 0 (stake_canaryStrikes s)); cbv zeta; unwrap_i32; case_match; lia.
Qed.

Lemma reputation_score_bounds_witness :
  let s := mkOPoIStake "a" COutPoint_null 0 "" 0 0 0 0 0 0 1 0 0 7 3 1 2 0 [] [] "" in
  ReputationScore s = 45 /\ 0 <= ReputationScore s <= 100.
Proof. split; [vm_compute; reflexivity|apply reputation_score_bounds; cbn; lia]. Defined.
