(* ===== verification/Majority.v ===== *)
(** The two majority rules (opoi/opoi.h): [ComputeShardMajority] over the
    submissions for a shard and [ComputeAuditorMajority] over auditor
    verdicts.  Each is proved equal to what "strict majority of a quorum"
    means, and independent of the order the votes arrived in. *)

From stdpp Require Import gmap strings list sorting.
From Stdlib Require Import ZArith Lia.
From S2P Require Import Prelude Uint256 Records.

(** * Shard results *)

Definition sub_key (s : ShardResultSubmission) : Z * Z :=
  (sub_boundaryOutputHash s, sub_tokenCount s).

(** [operator<] of [std::pair<uint256, uint32_t>], the order of [counts]. *)
Definition vote_key_lt (a b : Z * Z) : bool :=
  uint256_lt a.1 b.1 || (negb (uint256_lt b.1 a.1) && (a.2 <? b.2)).

Definition vote_entry_le (a b : (Z * Z) * Z) : Prop := vote_key_lt b.1 a.1 = false.

#[global] Instance vote_entry_le_dec : RelDecision vote_entry_le.
Proof. intros a b. unfold vote_entry_le. apply _. Defined.

(** [counts[{hash, tokenCount}]++] over the submissions. *)
Definition count_votes (subs : list ShardResultSubmission) : gmap (Z * Z) Z :=
  foldl (fun m s => <[sub_key s := default 0 (m !! sub_key s) + 1]> m) ∅ subs.

(** The scan for the largest count, over the entries in key order. *)
Definition best_vote (entries : list ((Z * Z) * Z)) : (Z * Z) * Z :=
  foldl (fun acc kv => if acc.2 <? kv.2 then kv else acc) ((0, 0), 0) entries.

Record ShardMajority := mkShardMajority {
  majorityHash : Z;
  majorityTokenCount : Z;
  agreeing : list string;
  divergent : list string;
}.

(** [ComputeShardMajority]; [None] is the result [false]. *)
Definition ComputeShardMajority (subs : list ShardResultSubmission) (minSubmissions : Z)
    : option ShardMajority :=
  let size := i32 (Z.of_nat (length subs)) in
  if size <? minSubmissions then None
  else
    let '(best, bestCount) := best_vote (merge_sort vote_entry_le (map_to_list (count_votes subs))) in
    if i32 (bestCount * 2) <=? size then None
    else
      let agrees s := bool_decide (sub_key s = best) in
      Some (mkShardMajority best.1 best.2
        (map sub_minerAddress (List.filter agrees subs))
        (map sub_minerAddress (List.filter (fun s => negb (agrees s)) subs))).

(** * Auditor verdicts *)

Definition count_result (r : Z) (verifs : list AuditorVerification) : Z :=
  Z.of_nat (length (List.filter (fun v => fv_result v =? r) verifs)).

(** [ComputeAuditorMajority]: the majority verdict, or -1. *)
Definition ComputeAuditorMajority (verifs : list AuditorVerification) (minVerifiers : Z) : Z :=
  let pass := count_result AUDITOR_VERIFY_PASS verifs in
  let fail := count_result AUDITOR_VERIFY_FAIL verifs in
  let timeout := count_result AUDITOR_VERIFY_TIMEOUT verifs in
  let revealed := pass + fail + timeout in
  if revealed <? minVerifiers then -1
  else if Z.quot revealed 2 <? pass then AUDITOR_VERIFY_PASS
  else if Z.quot revealed 2 <? fail then AUDITOR_VERIFY_FAIL
  else if Z.quot revealed 2 <? timeout then AUDITOR_VERIFY_TIMEOUT
  else -1.

(** * What the shard majority is *)

(** The number of submissions for the pair [k]. *)
Definition votes_for (k : Z * Z) (subs : list ShardResultSubmission) : Z :=
  Z.of_nat (length (List.filter (fun s => bool_decide (sub_key s = k)) subs)).

Lemma votes_for_app k a b : votes_for k (a ++ b) = votes_for k a + votes_for k b.
Proof. unfold votes_for. rewrite List.filter_app, length_app. lia. Qed.

Lemma votes_for_perm k a b : a ≡ₚ b -> votes_for k a = votes_for k b.
Proof.
  intros Hp. unfold votes_for. f_equal. apply Permutation_length.
  induction Hp; simpl; repeat case_match; eauto using Permutation.
Qed.

Lemma votes_for_disjoint k k' subs :
  k <> k' -> votes_for k subs + votes_for k' subs <= Z.of_nat (length subs).
Proof.
  intros Hk. induction subs as [|s subs IH]; [done|]. unfold votes_for in *. simpl.
  repeat case_bool_decide; simplify_eq; simpl; lia.
Qed.

Lemma count_votes_spec subs k :
  default 0 (count_votes subs !! k) = votes_for k subs /\
  (is_Some (count_votes subs !! k) <-> 0 < votes_for k subs).
Proof.
  induction subs as [|s subs IH] using rev_ind.
  { unfold count_votes, votes_for. simpl. rewrite lookup_empty. split; [done|].
    split; [intros [? ?]; done|lia]. }
  unfold count_votes in *. rewrite foldl_app. simpl. rewrite votes_for_app.
  unfold votes_for at 2 4. simpl. destruct IH as [IH1 IH2].
  assert (0 <= votes_for k subs) by (unfold votes_for; lia).
  destruct (decide (sub_key s = k)) as [->|Hne].
  - rewrite lookup_insert, IH1. rewrite decide_True by done.
    rewrite bool_decide_eq_true_2 by done. simpl. split; [done|]. split; [lia|eauto].
  - rewrite lookup_insert_ne by done. rewrite bool_decide_eq_false_2 by done. simpl.
    rewrite Z.add_0_r. done.
Qed.

Lemma best_vote_spec es acc :
  let r := foldl (fun acc kv => if acc.2 <? kv.2 then kv else acc) acc es in
  (r = acc \/ r ∈ es) /\ acc.2 <= r.2 /\ (forall e : (Z * Z) * Z, e ∈ es -> e.2 <= r.2).
Proof.
  revert acc. induction es as [|e es IH]; intros acc; cbn [foldl].
  - split; [by left|]. split; [lia|]. by intros ? ?%elem_of_nil.
  - destruct (IH (if acc.2 <? e.2 then e else acc)) as (H1 & H2 & H3). cbv zeta in *.
    destruct (Z.ltb_spec acc.2 e.2).
    + split; [right; apply elem_of_cons; destruct H1 as [->|?]; auto|]. split; [lia|].
      intros e' [->|?]%elem_of_cons; [lia|auto].
    + split; [rewrite elem_of_cons; tauto|]. split; [lia|].
      intros e' [->|?]%elem_of_cons; [lia|auto].
Qed.

Lemma best_of_votes subs b c :
  best_vote (merge_sort vote_entry_le (map_to_list (count_votes subs))) = (b, c) ->
  (forall k, votes_for k subs <= c) /\ (0 < c -> votes_for b subs = c) /\ 0 <= c.
Proof.
  intros Hb. unfold best_vote in Hb.
  pose proof (best_vote_spec (merge_sort vote_entry_le (map_to_list (count_votes subs))) ((0, 0), 0))
    as (H1 & H2 & H3). cbv zeta in *. rewrite Hb in H1, H2, H3. cbn in H2, H3.
  split; [|split; [|done]].
  - intros k. destruct (count_votes_spec subs k) as [Hd Hs].
    destruct (Z.le_gt_cases (votes_for k subs) 0) as [?|Hpos]; [lia|].
    apply Hs in Hpos as [n Hn]. rewrite Hn in Hd. cbn in Hd. subst n.
    apply (H3 (k, votes_for k subs)). rewrite merge_sort_Permutation. by apply elem_of_map_to_list.
  - intros Hc. destruct H1 as [H1|H1]; [simplify_eq; lia|].
    rewrite merge_sort_Permutation in H1. apply elem_of_map_to_list in H1.
    destruct (count_votes_spec subs b) as [Hd _]. by rewrite H1 in Hd.
Qed.

Definition agreeing_of (k : Z * Z) (subs : list ShardResultSubmission) : list string :=
  map sub_minerAddress (List.filter (fun s => bool_decide (sub_key s = k)) subs).
Definition divergent_of (k : Z * Z) (subs : list ShardResultSubmission) : list string :=
  map sub_minerAddress (List.filter (fun s => negb (bool_decide (sub_key s = k))) subs).

Lemma votes_for_le k subs : 0 <= votes_for k subs <= Z.of_nat (length subs).
Proof.
  unfold votes_for. split; [lia|]. apply inj_le.
  induction subs as [|s subs IH]; simpl; [done|]. case_bool_decide; simpl; lia.
Qed.

Lemma shard_majority_iff subs minSubmissions r :
  Z.of_nat (length subs) < 2 ^ 30 ->
  ComputeShardMajority subs minSubmissions = Some r <->
  minSubmissions <= Z.of_nat (length subs) /\
  exists k, Z.of_nat (length subs) < 2 * votes_for k subs /\
    r = mkShardMajority k.1 k.2 (agreeing_of k subs) (divergent_of k subs).
Proof.
  intros Hlen. unfold ComputeShardMajority.
  destruct (best_vote _) as [b c] eqn:Eb. destruct (best_of_votes subs b c Eb) as (Hmax & Hb & Hc).
  assert (Hcl : c <= Z.of_nat (length subs)).
  { destruct (Z.le_gt_cases c 0); [lia|]. rewrite <- Hb by lia. apply votes_for_le. }
  rewrite !i32_small by (unfold in_i32; lia).
  destruct (Z.ltb_spec (Z.of_nat (length subs)) minSubmissions); [split; [done|lia]|].
  destruct (Z.leb_spec (c * 2) (Z.of_nat (length subs))).
  - split; [done|]. intros (_ & k & Hk & _). pose proof (Hmax k). lia.
  - split.
    + intros [= <-]. split; [done|]. exists b. rewrite Hb by lia. split; [lia|done].
    + intros (_ & k & Hk & ->). assert (k = b) as ->; [|done].
      destruct (decide (k = b)) as [|Hne]; [done|].
      pose proof (votes_for_disjoint k b subs Hne). rewrite Hb in * by lia. lia.
Qed.

(** A shard resolves exactly when enough submissions are in and one
    (output hash, token count) pair holds a strict majority of them; the
    pair, the agreeing miners and the divergent miners are then the ones of
    that majority.  In particular a right hash with an inflated token count
    counts against its author. *)
Theorem shard_majority_spec (subs : list ShardResultSubmission) (minSubmissions : Z) (r : ShardMajority) :
  Z.of_nat (length subs) < 2 ^ 30 ->
  ComputeShardMajority subs minSubmissions = Some r <->
  minSubmissions <= Z.of_nat (length subs) /\
  Z.of_nat (length subs) < 2 * votes_for (majorityHash r, majorityTokenCount r) subs /\
  agreeing r = agreeing_of (majorityHash r, majorityTokenCount r) subs /\
  divergent r = divergent_of (majorityHash r, majorityTokenCount r) subs.
Proof.
  intros Hlen. rewrite shard_majority_iff by done. split.
  - intros (? & [h t] & ? & ->). done.
  - intros (? & ? & Ha & Hd). split; [done|]. exists (majorityHash r, majorityTokenCount r).
    split; [done|]. destruct r; cbn in *. by subst.
Qed.

Definition sample_subs : list ShardResultSubmission :=
  [mkShardResultSubmission "a" 7 0 100 1 1; mkShardResultSubmission "b" 7 0 100 1 2;
   mkShardResultSubmission "c" 7 0 999 1 3].

Lemma shard_majority_spec_witness :
  ComputeShardMajority sample_subs 3 = Some (mkShardMajority 7 100 ["a"; "b"] ["c"]).
Proof. apply shard_majority_spec; vm_compute; repeat split; discriminate. Defined.

Lemma filter_perm {A} (f : A -> bool) l l' : l ≡ₚ l' -> List.filter f l ≡ₚ List.filter f l'.
Proof. induction 1; simpl; repeat case_match; eauto using Permutation. Qed.

(** The shard majority does not depend on the order in which the
    submissions are listed: two nodes that hold the same submissions resolve
    to the same hash and token count, with the same miners agreeing. *)
Theorem shard_majority_order_independent (subs subs' : list ShardResultSubmission) (minSubmissions : Z)
    (r : ShardMajority) :
  subs ≡ₚ subs' -> Z.of_nat (length subs) < 2 ^ 30 ->
  ComputeShardMajority subs minSubmissions = Some r ->
  exists r', ComputeShardMajority subs' minSubmissions = Some r' /\
    majorityHash r' = majorityHash r /\ majorityTokenCount r' = majorityTokenCount r /\
    agreeing r' ≡ₚ agreeing r /\ divergent r' ≡ₚ divergent r.
Proof.
  intros Hp Hlen Hr. pose proof (Permutation_length Hp) as Hl.
  apply shard_majority_iff in Hr as (? & k & Hk & ->); [|done].
  exists (mkShardMajority k.1 k.2 (agreeing_of k subs') (divergent_of k subs')). split.
  - apply shard_majority_iff; [lia|]. split; [lia|]. exists k.
    rewrite <- (votes_for_perm k _ _ Hp). split; [lia|done].
  - cbn. repeat split; by apply Permutation_map, filter_perm.
Qed.

Lemma shard_majority_order_independent_witness :
  exists r', ComputeShardMajority (reverse sample_subs) 3 = Some r' /\ majorityTokenCount r' = 100.
Proof.
  destruct (shard_majority_order_independent sample_subs (reverse sample_subs) 3
    (mkShardMajority 7 100 ["a"; "b"] ["c"])) as (r' & Hr & _ & Ht & _).
  - symmetry. apply reverse_Permutation.
  - vm_compute. reflexivity.
  - vm_compute. reflexivity.
  - exists r'. split; [exact Hr|exact Ht].
Defined.

(** * What the auditor majority is *)

Definition revealed (verifs : list AuditorVerification) : Z :=
  count_result AUDITOR_VERIFY_PASS verifs + count_result AUDITOR_VERIFY_FAIL verifs
  + count_result AUDITOR_VERIFY_TIMEOUT verifs.

Definition is_verdict (r : Z) : Prop :=
  r = AUDITOR_VERIFY_PASS \/ r = AUDITOR_VERIFY_FAIL \/ r = AUDITOR_VERIFY_TIMEOUT.

Lemma count_result_nonneg r verifs : 0 <= count_result r verifs.
Proof. unfold count_result. lia. Qed.

Lemma count_result_perm r verifs verifs' :
  verifs ≡ₚ verifs' -> count_result r verifs = count_result r verifs'.
Proof. intros Hp. unfold count_result. by rewrite (filter_perm _ _ _ Hp). Qed.

Lemma half_lt n m : 0 <= n -> (Z.quot n 2 <? m) = true <-> n < 2 * m.
Proof. intros Hn. rewrite Z.quot_div_nonneg, Z.ltb_lt by lia. pose proof (Z.div_mod n 2). 
  pose proof (Z.mod_pos_bound n 2). lia. Qed.

Lemma auditor_majority_iff verifs minVerifiers r :
  is_verdict r ->
  ComputeAuditorMajority verifs minVerifiers = r <->
  minVerifiers <= revealed verifs /\ revealed verifs < 2 * count_result r verifs.
Proof.
  intros Hr. unfold ComputeAuditorMajority. fold (revealed verifs).
  pose proof (count_result_nonneg AUDITOR_VERIFY_PASS verifs).
  pose proof (count_result_nonneg AUDITOR_VERIFY_FAIL verifs).
  pose proof (count_result_nonneg AUDITOR_VERIFY_TIMEOUT verifs).
  pose proof (half_lt (revealed verifs)) as Hh. unfold revealed in *.
  destruct (Z.ltb_spec (count_result AUDITOR_VERIFY_PASS verifs +
    count_result AUDITOR_VERIFY_FAIL verifs + count_result AUDITOR_VERIFY_TIMEOUT verifs) minVerifiers).
  { split; [|lia]. intros <-. unfold is_verdict, AUDITOR_VERIFY_PASS, AUDITOR_VERIFY_FAIL,
      AUDITOR_VERIFY_TIMEOUT in Hr. lia. }
  repeat match goal with
  | |- context [if ?b then _ else _] =>
    let E := fresh in destruct b eqn:E;
    [apply Hh in E; [|lia]|apply not_true_iff_false in E; rewrite Hh in E by lia]
  end; (destruct Hr as [->|[->| ->]]; unfold AUDITOR_VERIFY_PASS, AUDITOR_VERIFY_FAIL,
    AUDITOR_VERIFY_TIMEOUT in *; lia).
Qed.

(** The auditor majority is a verdict exactly when the quorum is reached
    and that verdict holds a strict majority of the votes cast; it does not
    depend on the order of the votes. *)
Theorem auditor_majority_spec (verifs : list AuditorVerification) (minVerifiers r : Z) :
  is_verdict r ->
  (ComputeAuditorMajority verifs minVerifiers = r <->
   minVerifiers <= revealed verifs /\ revealed verifs < 2 * count_result r verifs) /\
  (forall verifs', verifs ≡ₚ verifs' ->
     ComputeAuditorMajority verifs' minVerifiers = ComputeAuditorMajority verifs minVerifiers).
Proof.
  intros Hr. split; [by apply auditor_majority_iff|]. intros verifs' Hp.
  unfold ComputeAuditorMajority. by rewrite !(count_result_perm _ _ _ Hp).
Qed.

Definition verdict_of (who : string) (result : Z) : AuditorVerification :=
  mkAuditorVerification "r" who result Transaction.COutPoint_null 1 1 OPOI_AUDITOR_STATUS_PENDING
    Transaction.OPOI_AUDITOR_VERIFY_NO_SHARD.

Lemma auditor_majority_spec_witness :
  ComputeAuditorMajority [verdict_of "x" 1; verdict_of "y" 0; verdict_of "z" 1] 3 = AUDITOR_VERIFY_FAIL.
Proof.
  apply auditor_majority_spec; [right; left; reflexivity|]. vm_compute. split; [discriminate|reflexivity].
Defined.

(** An odd quorum does not rule out a tie: with three auditors one PASS,
    one FAIL and one TIMEOUT reach the quorum of three without a majority,
    and so do two PASS against two FAIL once a fourth vote arrives. *)
Theorem auditor_odd_quorum_can_tie :
  ComputeAuditorMajority [verdict_of "x" AUDITOR_VERIFY_PASS; verdict_of "y" AUDITOR_VERIFY_FAIL;
    verdict_of "z" AUDITOR_VERIFY_TIMEOUT] 3 = -1 /\
  ComputeAuditorMajority [verdict_of "w" AUDITOR_VERIFY_FAIL; verdict_of "x" AUDITOR_VERIFY_PASS;
    verdict_of "y" AUDITOR_VERIFY_PASS; verdict_of "z" AUDITOR_VERIFY_FAIL] 3 = -1.
Proof. split; vm_compute; reflexivity. Qed.
