(* ===== verification/Cache.v ===== *)
(** [OPoICache] (opoi/opoi.h): the state of the inference subsystem and one
    definition per operation.  Each takes the cache and returns the new cache;
    getters return an [option], the [bool] and out-parameter of the source.
    The recursive lock the source takes in every operation makes each of them
    atomic and is not represented. *)

From stdpp Require Import gmap strings list.
From Stdlib Require Import ZArith Lia.
From S2P Require Import Prelude Params Uint256 Transaction Shard Records Majority.

Record OPoICache := mkOPoICache {
  mapRequests : gmap string OPoIRequest;
  mapResponses : gmap string OPoIResponse;
  mapResponseCommits : gmap string string;
  mapResponseCommitTxHash : gmap string Z;
  mapResponseCommitHeight : gmap string Z;
  mapStakes : gmap string OPoIStake;
  mapChallenges : gmap string OPoIChallenge;
  mapLockedUTXOs : gmap COutPoint string;
  mapLockingTxHash : gmap COutPoint Z;
  mapAuditorVerifications : gmap string (list AuditorVerification);
  mapShardAuditorVerifications : gmap string (list AuditorVerification);
  mapModelManifests : gmap string ModelManifest;
  mapModelVotes : gmap string (gmap string ModelVoteRecord);
  mapCoordinatorClaims : gmap string (list ShardCoordinatorClaim);
  mapShardResults : gmap string (list ShardResultSubmission);
  setPaidShards : gset string;
  setResolvedAuditorVerifications : gset string;
  setResolvedShardAuditorVerifications : gset string;
  setPaidResponses : gset string;
  setPaidChallengerRewards : gset string;
  mapPendingDeliveries : gmap string (list PendingDelivery);
  setKnownOPoIDataHashes : gset Z;
  mapContentByKey : gmap string string;
  treasurySlashTotal : Z;
  treasuryExpiryTotal : Z;
  treasuryAuditorTotal : Z;
}.

#[global] Instance eta_OPoICache : Eta OPoICache := fun r =>
  mkOPoICache (mapRequests r) (mapResponses r) (mapResponseCommits r)
    (mapResponseCommitTxHash r) (mapResponseCommitHeight r) (mapStakes r) (mapChallenges r)
    (mapLockedUTXOs r) (mapLockingTxHash r) (mapAuditorVerifications r)
    (mapShardAuditorVerifications r) (mapModelManifests r) (mapModelVotes r)
    (mapCoordinatorClaims r) (mapShardResults r) (setPaidShards r)
    (setResolvedAuditorVerifications r) (setResolvedShardAuditorVerifications r)
    (setPaidResponses r) (setPaidChallengerRewards r) (mapPendingDeliveries r)
    (setKnownOPoIDataHashes r) (mapContentByKey r) (treasurySlashTotal r)
    (treasuryExpiryTotal r) (treasuryAuditorTotal r).

(** [OPoICache()]: every container empty. *)
Definition emptyCache : OPoICache := {|
  mapRequests := ∅;
  mapResponses := ∅;
  mapResponseCommits := ∅;
  mapResponseCommitTxHash := ∅;
  mapResponseCommitHeight := ∅;
  mapStakes := ∅;
  mapChallenges := ∅;
  mapLockedUTXOs := ∅;
  mapLockingTxHash := ∅;
  mapAuditorVerifications := ∅;
  mapShardAuditorVerifications := ∅;
  mapModelManifests := ∅;
  mapModelVotes := ∅;
  mapCoordinatorClaims := ∅;
  mapShardResults := ∅;
  setPaidShards := ∅;
  setResolvedAuditorVerifications := ∅;
  setResolvedShardAuditorVerifications := ∅;
  setPaidResponses := ∅;
  setPaidChallengerRewards := ∅;
  mapPendingDeliveries := ∅;
  setKnownOPoIDataHashes := ∅;
  mapContentByKey := ∅;
  treasurySlashTotal := 0;
  treasuryExpiryTotal := 0;
  treasuryAuditorTotal := 0;
|}.

(** [SetNull]: it clears every container except [mapLockingTxHash]. *)
Definition SetNull (c : OPoICache) : OPoICache := emptyCache <| mapLockingTxHash := mapLockingTxHash c |>.

(** * Shard results *)

Definition ShardKey (requestId : string) (shardIndex : Z) : string :=
  requestId +:+ ":" +:+ dec shardIndex.

Definition AddShardResult (requestId : string) (shardIndex : Z) (sub : ShardResultSubmission)
    (c : OPoICache) : OPoICache :=
  let key := ShardKey requestId shardIndex in
  let subs := default [] (mapShardResults c !! key) in
  if existsb (fun e => bool_decide (sub_minerAddress e = sub_minerAddress sub)) subs
  then c <| mapShardResults ::= <[key := subs]> |>
  else c <| mapShardResults ::= <[key := subs ++ [sub]]> |>.

Definition ListShardResults (requestId : string) (shardIndex : Z) (c : OPoICache)
    : list ShardResultSubmission :=
  default [] (mapShardResults c !! ShardKey requestId shardIndex).

Definition GetShardMajority (requestId : string) (shardIndex minSubmissions : Z) (c : OPoICache)
    : option ShardMajority :=
  subs ← mapShardResults c !! ShardKey requestId shardIndex;
  ComputeShardMajority subs minSubmissions.

(** * "Already paid" bookkeeping *)

Definition IsShardPaid (requestId : string) (shardIndex : Z) (c : OPoICache) : bool :=
  bool_decide (ShardKey requestId shardIndex ∈ setPaidShards c).
Definition MarkShardPaid (requestId : string) (shardIndex : Z) (c : OPoICache) : OPoICache :=
  c <| setPaidShards ::= fun s => {[ShardKey requestId shardIndex]} ∪ s |>.
Definition UnmarkShardPaid (requestId : string) (shardIndex : Z) (c : OPoICache) : OPoICache :=
  c <| setPaidShards ::= fun s => s ∖ {[ShardKey requestId shardIndex]} |>.

Definition IsResponsePaid (requestId : string) (c : OPoICache) : bool :=
  bool_decide (requestId ∈ setPaidResponses c).
Definition MarkResponsePaid (requestId : string) (c : OPoICache) : OPoICache :=
  c <| setPaidResponses ::= fun s => {[requestId]} ∪ s |>.
Definition UnmarkResponsePaid (requestId : string) (c : OPoICache) : OPoICache :=
  c <| setPaidResponses ::= fun s => s ∖ {[requestId]} |>.

Definition IsChallengerRewardPaid (requestId : string) (c : OPoICache) : bool :=
  bool_decide (requestId ∈ setPaidChallengerRewards c).
Definition MarkChallengerRewardPaid (requestId : string) (c : OPoICache) : OPoICache :=
  c <| setPaidChallengerRewards ::= fun s => {[requestId]} ∪ s |>.
Definition UnmarkChallengerRewardPaid (requestId : string) (c : OPoICache) : OPoICache :=
  c <| setPaidChallengerRewards ::= fun s => s ∖ {[requestId]} |>.

(** * Coordinator claims *)

Definition AddCoordinatorClaim (cl : ShardCoordinatorClaim) (c : OPoICache) : OPoICache :=
  let claims := default [] (mapCoordinatorClaims c !! claim_requestId cl) in
  if existsb (fun e => bool_decide (claim_minerAddress e = claim_minerAddress cl)) claims
  then c <| mapCoordinatorClaims ::= <[claim_requestId cl := claims]> |>
  else c <| mapCoordinatorClaims ::= <[claim_requestId cl := claims ++ [cl]]> |>.

Definition ListCoordinatorClaims (requestId : string) (c : OPoICache) : list ShardCoordinatorClaim :=
  default [] (mapCoordinatorClaims c !! requestId).

Definition IsClaimedCoordinator (requestId minerAddress : string) (c : OPoICache) : bool :=
  existsb (fun cl => bool_decide (claim_minerAddress cl = minerAddress))
    (default [] (mapCoordinatorClaims c !! requestId)).

(** * Stakers as a whole *)

Definition ListStakes (c : OPoICache) : list OPoIStake := (items (mapStakes c)).*2.

Definition TotalActiveStake (c : OPoICache) : Z :=
  foldl (fun total s => if Stake_IsActive s then i64 (total + stake_amount s) else total) 0 (ListStakes c).

Definition CountActiveStakers (c : OPoICache) : Z :=
  Z.of_nat (length (List.filter Stake_IsActive (ListStakes c))).

Definition CountActiveExpertHosts (e : Z) (c : OPoICache) : Z :=
  Z.of_nat (length (List.filter (fun s => Stake_IsActive s && HostsExpert s e) (ListStakes c))).

Definition HasActiveTitanStaker (c : OPoICache) : bool :=
  existsb (fun s => Stake_IsActive s && (stake_tier s =? OPOI_TIER_TITAN)) (ListStakes c).

(** * Model manifests *)

Definition AddModelManifest (m : ModelManifest) (c : OPoICache) : OPoICache :=
  c <| mapModelManifests ::= <[modelId m := m]> |>.

Definition GetModelManifest (id : string) (c : OPoICache) : option ModelManifest :=
  mapModelManifests c !! id.

Definition ListModelManifests (statusFilter : Z) (c : OPoICache) : list ModelManifest :=
  List.filter (fun m => (statusFilter <? 0) || (mf_status m =? statusFilter)) (items (mapModelManifests c)).*2.

Definition AddModelVote (id : string) (rec : ModelVoteRecord) (c : OPoICache) : OPoICache :=
  match mapModelManifests c !! id with
  | None => c
  | Some _ => c <| mapModelVotes ::= fun m => <[id := <[voterAddress rec := rec]> (default ∅ (m !! id))]> m |>
  end.

Definition IsHarmlessModelVoteRedelivery (id voter : string) (txHash : Z) (c : OPoICache) : bool :=
  match mapModelVotes c !! id with
  | None => false
  | Some votes => match votes !! voter with Some v => vote_txHash v =? txHash | None => false end
  end.

(** [TallyModelVotes]: the (yes, no) weights. *)
Definition TallyModelVotes (id : string) (c : OPoICache) : Z * Z :=
  foldl (fun t v => if approve v then (i64 (t.1 + weight v), t.2) else (t.1, i64 (t.2 + weight v)))
    (0, 0) (items (default ∅ (mapModelVotes c !! id))).*2.

Definition ListManifestsDueForTally (blockHeight : Z) (c : OPoICache) : list ModelManifest :=
  List.filter (fun m => IsVoting m && (voteWindowEndHeight m <=? blockHeight)) (items (mapModelManifests c)).*2.

Definition SetModelManifestStatus (id : string) (status activation : Z) (c : OPoICache) : OPoICache :=
  c <| mapModelManifests ::= alter (fun m =>
    let m := m <| mf_status := status |> in
    if 0 <? activation then m <| activationHeight := activation |> else m) id |>.

(** * Collateral locks *)

Definition LockUTXO (out : COutPoint) (owner : string) (txHash : Z) (c : OPoICache) : OPoICache :=
  c <| mapLockedUTXOs ::= <[out := owner]> |> <| mapLockingTxHash ::= <[out := txHash]> |>.

Definition UnlockUTXO (out : COutPoint) (c : OPoICache) : OPoICache :=
  c <| mapLockedUTXOs ::= delete out |> <| mapLockingTxHash ::= delete out |>.

Definition IsLockedUTXO (out : COutPoint) (c : OPoICache) : bool :=
  bool_decide (is_Some (mapLockedUTXOs c !! out)).

Definition GetLockingTxHash (out : COutPoint) (c : OPoICache) : option Z := mapLockingTxHash c !! out.

(** * Requests and responses *)

Definition AddRequest (req : OPoIRequest) (c : OPoICache) : OPoICache :=
  c <| mapRequests ::= <[req_requestId req := req]> |>.

Definition AddResponse (resp : OPoIResponse) (c : OPoICache) : OPoICache :=
  let c := c <| mapResponses ::= <[resp_requestId resp := resp]> |> in
  if IsRevealed resp
  then c <| mapRequests ::= alter (fun r => r <| req_status := OPOI_STATUS_FULFILLED |>) (resp_requestId resp) |>
  else c.

Definition CommitKey (requestId minerAddress : string) : string := requestId +:+ ":" +:+ minerAddress.

Definition AddResponseCommit (requestId minerAddress commitHash : string) (blockHeight txHash : Z)
    (c : OPoICache) : OPoICache :=
  let key := CommitKey requestId minerAddress in
  c <| mapResponseCommits ::= <[key := commitHash]> |>
    <| mapResponseCommitTxHash ::= <[key := txHash]> |>
    <| mapResponseCommitHeight ::= <[key := blockHeight]> |>
    <| mapRequests ::= alter (fun r => r <| req_responseCommits ::= <[minerAddress := commitHash]> |>) requestId |>.

Definition GetResponseCommitHeight (requestId minerAddress : string) (c : OPoICache) : option Z :=
  mapResponseCommitHeight c !! CommitKey requestId minerAddress.

Definition IsHarmlessResponseCommitRedelivery (requestId minerAddress : string) (txHash : Z) (c : OPoICache) : bool :=
  match mapResponseCommitTxHash c !! CommitKey requestId minerAddress with
  | Some h => h =? txHash
  | None => false
  end.

Definition GetResponseCommit (requestId minerAddress : string) (c : OPoICache) : option string :=
  mapResponseCommits c !! CommitKey requestId minerAddress.

Definition GetRequest (id : string) (c : OPoICache) : option OPoIRequest := mapRequests c !! id.
Definition GetResponse (id : string) (c : OPoICache) : option OPoIResponse := mapResponses c !! id.

Definition ListRequests (statusFilter : Z) (c : OPoICache) : list OPoIRequest :=
  List.filter (fun r => (statusFilter <? 0) || (req_status r =? statusFilter)) (items (mapRequests c)).*2.
Definition ListResponses (c : OPoICache) : list OPoIResponse := (items (mapResponses c)).*2.

(** * Stakes *)

Definition AddStake (stake : OPoIStake) (c : OPoICache) : OPoICache :=
  c <| mapStakes ::= <[stake_minerAddress stake := stake]> |>.

Definition GetStake (minerAddress : string) (c : OPoICache) : option OPoIStake :=
  mapStakes c !! minerAddress.

Definition IsActiveStaker (minerAddress : string) (c : OPoICache) : bool :=
  match mapStakes c !! minerAddress with Some s => Stake_IsActive s | None => false end.

Definition StartUnstake (minerAddress : string) (height txHash : Z) (c : OPoICache) : OPoICache :=
  if IsActiveStaker minerAddress c then
    c <| mapStakes ::= alter (fun s => s <| stake_stakeStatus := OPOI_STAKE_UNSTAKING |>
           <| stake_unstakeHeight := height |> <| stake_unstakeTxHash := txHash |>) minerAddress |>
  else c.

Definition IsHarmlessUnstakeRedelivery (minerAddress : string) (txHash : Z) (c : OPoICache) : bool :=
  match mapStakes c !! minerAddress with
  | Some s => IsUnstaking s && (stake_unstakeTxHash s =? txHash)
  | None => false
  end.

Definition ReleaseStake (minerAddress : string) (c : OPoICache) : OPoICache :=
  c <| mapStakes ::= alter (fun s => s <| stake_stakeStatus := OPOI_STAKE_RELEASED |>) minerAddress |>.
Definition SlashStake (minerAddress : string) (c : OPoICache) : OPoICache :=
  c <| mapStakes ::= alter (fun s => s <| stake_stakeStatus := OPOI_STAKE_SLASHED |>) minerAddress |>.

(** * Auditor verifications *)

(** The collateral lock taken by both [Add...AuditorVerification]. *)
Definition lock_auditor (fv : AuditorVerification) (c : OPoICache) : OPoICache :=
  if COutPoint_IsNull (fv_auditorCollateral fv) then c
  else c <| mapLockedUTXOs ::= <[fv_auditorCollateral fv := fv_auditorAddress fv]> |>
         <| mapLockingTxHash ::= <[fv_auditorCollateral fv := fv_txHash fv]> |>.

Definition has_voted (auditor : string) (verifs : list AuditorVerification) : bool :=
  existsb (fun e => bool_decide (fv_auditorAddress e = auditor)) verifs.

Definition AddAuditorVerification (fv : AuditorVerification) (c : OPoICache) : OPoICache :=
  let verifs := default [] (mapAuditorVerifications c !! fv_requestId fv) in
  if has_voted (fv_auditorAddress fv) verifs
  then c <| mapAuditorVerifications ::= <[fv_requestId fv := verifs]> |>
  else lock_auditor fv (c <| mapAuditorVerifications ::= <[fv_requestId fv := verifs ++ [fv]]> |>).

Definition GetAuditorVerifications (requestId : string) (c : OPoICache) : list AuditorVerification :=
  default [] (mapAuditorVerifications c !! requestId).

Definition GetAuditorMajorityResult (requestId : string) (minVerifiers : Z) (c : OPoICache) : Z :=
  match mapAuditorVerifications c !! requestId with
  | None => -1
  | Some verifs => ComputeAuditorMajority verifs minVerifiers
  end.

Definition AddShardAuditorVerification (requestId : string) (shardIndex : Z) (fv : AuditorVerification)
    (c : OPoICache) : OPoICache :=
  let key := ShardKey requestId shardIndex in
  let verifs := default [] (mapShardAuditorVerifications c !! key) in
  if has_voted (fv_auditorAddress fv) verifs
  then c <| mapShardAuditorVerifications ::= <[key := verifs]> |>
  else lock_auditor fv (c <| mapShardAuditorVerifications ::= <[key := verifs ++ [fv]]> |>).

Definition GetShardAuditorVerifications (requestId : string) (shardIndex : Z) (c : OPoICache)
    : list AuditorVerification :=
  default [] (mapShardAuditorVerifications c !! ShardKey requestId shardIndex).

Definition GetShardAuditorMajorityResult (requestId : string) (shardIndex minVerifiers : Z) (c : OPoICache) : Z :=
  match mapShardAuditorVerifications c !! ShardKey requestId shardIndex with
  | None => -1
  | Some verifs => ComputeAuditorMajority verifs minVerifiers
  end.

Definition IsAuditorResolved (requestId : string) (c : OPoICache) : bool :=
  bool_decide (requestId ∈ setResolvedAuditorVerifications c).
Definition MarkAuditorResolved (requestId : string) (c : OPoICache) : OPoICache :=
  c <| setResolvedAuditorVerifications ::= fun s => {[requestId]} ∪ s |>.
Definition UnmarkAuditorResolved (requestId : string) (c : OPoICache) : OPoICache :=
  c <| setResolvedAuditorVerifications ::= fun s => s ∖ {[requestId]} |>.

Definition IsShardAuditorResolved (requestId : string) (shardIndex : Z) (c : OPoICache) : bool :=
  bool_decide (ShardKey requestId shardIndex ∈ setResolvedShardAuditorVerifications c).
Definition MarkShardAuditorResolved (requestId : string) (shardIndex : Z) (c : OPoICache) : OPoICache :=
  c <| setResolvedShardAuditorVerifications ::= fun s => {[ShardKey requestId shardIndex]} ∪ s |>.
Definition UnmarkShardAuditorResolved (requestId : string) (shardIndex : Z) (c : OPoICache) : OPoICache :=
  c <| setResolvedShardAuditorVerifications ::= fun s => s ∖ {[ShardKey requestId shardIndex]} |>.

(** * Relay *)

Definition AddPendingDelivery (dest : string) (d : PendingDelivery) (c : OPoICache) : OPoICache :=
  c <| mapPendingDeliveries ::= fun m => <[dest := default [] (m !! dest) ++ [d]]> m |>.

Definition GetAndDrainPendingDeliveries (dest : string) (c : OPoICache) : list PendingDelivery * OPoICache :=
  match mapPendingDeliveries c !! dest with
  | None => ([], c)
  | Some ds => (ds, c <| mapPendingDeliveries ::= delete dest |>)
  end.

Definition HasKnownOPoIDataHash (h : Z) (c : OPoICache) : bool := bool_decide (h ∈ setKnownOPoIDataHashes c).
Definition MarkOPoIDataHashKnown (h : Z) (c : OPoICache) : OPoICache :=
  c <| setKnownOPoIDataHashes ::= fun s => {[h]} ∪ s |>.

Definition ContentKey (requestId : string) (kind : Z) : string := requestId +:+ ":" +:+ dec kind.
Definition HasContent (requestId : string) (kind : Z) (c : OPoICache) : bool :=
  bool_decide (is_Some (mapContentByKey c !! ContentKey requestId kind)).
Definition AddContent (requestId : string) (kind : Z) (payloadHex : string) (c : OPoICache) : OPoICache :=
  c <| mapContentByKey ::= <[ContentKey requestId kind := payloadHex]> |>.
Definition GetContent (requestId : string) (kind : Z) (c : OPoICache) : option string :=
  mapContentByKey c !! ContentKey requestId kind.

(** Whether a delivery still belongs to a pending request. *)
Definition delivery_alive (c : OPoICache) (d : PendingDelivery) : bool :=
  match mapRequests c !! pd_requestId d with
  | Some r => req_status r =? OPOI_STATUS_PENDING
  | None => false
  end.

(** [PruneExpiredPendingDeliveries]: filter every queue, drop the empty ones. *)
Definition PruneExpiredPendingDeliveries (c : OPoICache) : OPoICache :=
  c <| mapPendingDeliveries ::= omap (fun ds =>
         match List.filter (delivery_alive c) ds with [] => None | ds' => Some ds' end) |>.

(** * Challenges *)

Definition AddChallenge (ch : OPoIChallenge) (c : OPoICache) : OPoICache :=
  c <| mapChallenges ::= <[ch_requestId ch := ch]> |>.
Definition GetChallenge (requestId : string) (c : OPoICache) : option OPoIChallenge :=
  mapChallenges c !! requestId.
Definition ListChallenges (statusFilter : Z) (c : OPoICache) : list OPoIChallenge :=
  List.filter (fun ch => (statusFilter <? 0) || (ch_challengeStatus ch =? statusFilter))
    (items (mapChallenges c)).*2.

(** * Titan routing preference *)

(** [ShouldCollapseToTitanSingleNode]. *)
Definition ShouldCollapseToTitanSingleNode (m : ModelManifest) (params : Params) (c : OPoICache) : bool :=
  if negb (archType m =? OPOI_ARCH_DENSE) || (numDenseShards m <=? 1) then false
  else if nOPoITitanOffloadThresholdGB params =? 0 then false
  else
    let thresholdBytes := u64 (nOPoITitanOffloadThresholdGB params * 1024 * 1024 * 1024) in
    if (totalSizeBytes m =? 0) || (totalSizeBytes m <=? thresholdBytes) then false
    else HasActiveTitanStaker c.
