(* ===== verification/Sortition.v ===== *)
(** Sortition (opoi/opoi.cpp): which stakers may answer a request, claim its
    coordination or submit a shard (a VRF output below a threshold), and which
    open responses are drawn for an audit (a hash below a threshold).  The
    thresholds are 256-bit numbers computed with [arith_uint256] and passed
    around as hexadecimal strings. *)

From stdpp Require Import gmap strings list.
From Stdlib Require Import ZArith Lia.
From S2P Require Import Prelude Params Uint256 Sha256 Transaction Platform Shard Records Majority Cache.

Definition OPOI_VRF_PROOF_SIZE : nat := 81.

(** The active chain, [chainActive[h]]: the hash of the block at a height. *)
Definition Chain : Type := Z -> option Z.

(** [chainActive[nHeight]] takes an [int]. *)
Definition chainActive (chain : Chain) (height : Z) : option Z := chain (i32 height).

(** [CheckVrfSortition]; [None] is success, [Some reason] the [outReason]. *)
Definition CheckVrfSortition `{Crypto} (c : OPoICache) (minerAddress requestId : string) (seedBlockHash : Z)
    (seedSuffix : string) (vrfProof : bytes) (thresholdHex : string) : option string :=
  match GetStake minerAddress c with
  | None => Some "no-pubkey"
  | Some stake =>
    if negb (length (stake_minerPubKey stake) =? 33)%nat then Some "no-pubkey"
    else if negb (length vrfProof =? OPOI_VRF_PROOF_SIZE)%nat then Some "no-vrf-proof"
    else
      let seed := SHA256 (uint256_data seedBlockHash ++ string_bytes requestId ++ string_bytes seedSuffix) in
      match OPoIVRFVerify (stake_minerPubKey stake) seed vrfProof with
      | None => Some "vrf-invalid"
      | Some vrfOutput =>
        if negb (le_value vrfOutput <? uint256_SetHex thresholdHex) then Some "miner-not-eligible"
        else None
      end
  end.

Definition everyone_eligible : string :=
  "ffffffffffffffffffffffffffffffffffffffffffffffffffffffffffffffff".

(** [(~arith_uint256(0) / stakers) * target]. *)
Definition adaptive_threshold (stakers target : Z) : Z :=
  match arith_div (arith_not 0) stakers with
  | Some q => arith_mul q target
  | None => 0
  end.

(** [OPoIVrfThresholdForRequest]. *)
Definition OPoIVrfThresholdForRequest (c : OPoICache) (requestId : string) (params : Params) : string :=
  if nOPoIAdaptiveVrfHeight params <=? 0 then nOPoIVrfThreshold params
  else
    match GetRequest requestId c with
    | None => nOPoIVrfThreshold params
    | Some req =>
      if req_blockHeight req <? u32 (nOPoIAdaptiveVrfHeight params) then nOPoIVrfThreshold params
      else
        let stakers := req_vrfActiveStakers req in
        let target := u32 (Z.max 1 (nOPoIVrfTargetEligible params)) in
        if stakers <=? target then everyone_eligible
        else uint256_GetHex (adaptive_threshold stakers target)
    end.

(** [IsHarmlessRedelivery]. *)
Definition IsHarmlessRedelivery (c : OPoICache) (collateral : COutPoint) (txHash : Z) : bool :=
  match GetLockingTxHash collateral c with Some h => h =? txHash | None => false end.

(** [GetOPoIRequestSeedHash]. *)
Definition GetOPoIRequestSeedHash (chain : Chain) (c : OPoICache) (requestId : string) : option Z :=
  req ← GetRequest requestId c; chainActive chain (req_blockHeight req).

(** [GetOPoIAuditSampleSeedHash]. *)
Definition GetOPoIAuditSampleSeedHash (chain : Chain) (commitHeight : Z) : option Z :=
  chainActive chain (u32 (commitHeight + 1)).

(** [ComputeOPoIAuditSampleSelected]. *)
Definition ComputeOPoIAuditSampleSelected (commitmentHashBytes : bytes) (seedHash rateBp : Z) : bool :=
  if rateBp <=? 0 then false
  else if 10000 <=? rateBp then true
  else if negb (length commitmentHashBytes =? 32)%nat then false
  else
    let sorteio := SHA256 (commitmentHashBytes ++ uint256_data seedHash) in
    match arith_div (arith_not 0) 10000 with
    | Some q => le_value sorteio <? arith_mul q (u64 rateBp)
    | None => false
    end.

(** [EvaluateOPoIAuditSample]: the decision and the pay-anyway deadline;
    [None] is the result [false] (the outputs are then [false] and [0]). *)
Definition EvaluateOPoIAuditSample (chain : Chain) (c : OPoICache) (requestId minerAddress : string)
    (currentHeight : Z) (params : Params) : option (bool * Z) :=
  req ← GetRequest requestId c;
  if IsVerifiable req then Some (false, 0)
  else
    commitHeight ← GetResponseCommitHeight requestId minerAddress c;
    commitHashHex ← GetResponseCommit requestId minerAddress c;
    seedHash ← GetOPoIAuditSampleSeedHash chain commitHeight;
    let responsesSoFar := match GetStake minerAddress c with Some s => stake_responsesTotal s | None => 0 end in
    let rateBp := if responsesSoFar <? nOPoIAuditSampleNewMinerResponseCount params
                  then nOPoIAuditSampleRateNewMinerBp params else nOPoIAuditSampleRateBp params in
    let selected := ComputeOPoIAuditSampleSelected (ParseHex commitHashHex) seedHash rateBp in
    Some (selected, if selected then u32 (currentHeight + u32 (Z.max 1 (nOPoIAuditWindowBlocks params))) else 0).

(** The outputs of [EvaluateOPoIAuditSample] as its callers read them. *)
Definition audit_sample (chain : Chain) (c : OPoICache) (requestId minerAddress : string)
    (currentHeight : Z) (params : Params) : bool * Z :=
  default (false, 0) (EvaluateOPoIAuditSample chain c requestId minerAddress currentHeight params).

(** * The threshold survives its textual form *)

Definition nibbles (bs : bytes) : list Z := flat_map (fun b => [b / 16; b mod 16]) bs.

Lemma hex_prefix_HexStr bs :
  Forall (fun b => 0 <= b < 256) bs -> hex_prefix (HexStr bs) = nibbles bs.
Proof.
  induction 1 as [|b bs Hb Hbs IH]; [done|].
  destruct (HexStr_cons b bs Hb) as (c1 & c2 & -> & H1 & H2 & _). cbn [hex_prefix nibbles flat_map].
  by rewrite H1, H2, IH.
Qed.

Lemma undigits_nibbles bs :
  Forall (fun b => 0 <= b < 256) bs -> undigits 16 (rev (nibbles (rev bs))) = undigits 256 bs.
Proof.
  intros Hbs. assert (E : rev (nibbles (rev bs)) = flat_map (fun b => [b mod 16; b / 16]) bs).
  { clear. unfold nibbles. induction bs as [|b bs IH]; [done|]. cbn [rev].
    rewrite flat_map_app, rev_app_distr, IH. done. }
  rewrite E. clear E. induction Hbs as [|b bs Hb Hbs IH]; [done|].
  cbn [flat_map app undigits]. rewrite IH. pose proof (Z.div_mod b 16 ltac:(lia)). lia.
Qed.

Lemma length_nibbles bs : length (nibbles bs) = (2 * length bs)%nat.
Proof. induction bs as [|b bs IH]; [done|]. cbn [nibbles flat_map app length] in *. unfold nibbles in IH. lia. Qed.

(** [SetHex] reads back what [GetHex] printed. *)
Lemma SetHex_GetHex x : uint256_ok x -> uint256_SetHex (uint256_GetHex x) = x.
Proof.
  intros Hx. unfold uint256_GetHex, uint256_SetHex.
  assert (Hr : Forall (fun b => 0 <= b < 256) (uint256_data x)) by (apply digits_range; lia).
  assert (Hl : length (uint256_data x) = 32%nat) by apply length_digits.
  remember (uint256_data x) as data eqn:Ed.
  assert (Hs : skip_0x (skip_spaces (HexStr (rev data))) = HexStr (rev data)).
  { destruct (rev data) as [|b bs] eqn:Er; [done|].
    assert (Hb : 0 <= b < 256).
    { apply (proj1 (Forall_forall _ _) (Forall_rev Hr)). rewrite Er. left. }
    destruct (HexStr_cons b bs Hb) as (c1 & c2 & -> & H1 & H2 & Hsp). cbn [skip_spaces]. rewrite Hsp.
    cbn [skip_0x]. destruct (byte_of_ascii c1 =? 48); [|done]. cbn [andb].
    unfold HexDigit in H2. repeat case_match; try done; lia. }
  rewrite Hs, hex_prefix_HexStr by by apply Forall_rev.
  rewrite take_ge by (rewrite length_rev, length_nibbles, length_rev; lia).
  rewrite undigits_nibbles by done. subst data. unfold uint256_data, le_bytes.
  rewrite undigits_digits by lia. apply Z.mod_small. exact Hx.
Qed.

Lemma adaptive_threshold_value stakers target :
  0 < target < stakers -> stakers < 2 ^ 32 ->
  adaptive_threshold stakers target = (2 ^ 256 - 1) / stakers * target /\
  uint256_ok (adaptive_threshold stakers target).
Proof.
  intros Ht Hs. unfold adaptive_threshold, arith_not.
  rewrite arith_div_spec by lia. rewrite Z.sub_0_r.
  assert (Hq : 0 <= (2 ^ 256 - 1) / stakers) by (apply Z.div_pos; lia).
  assert (Hb : stakers * ((2 ^ 256 - 1) / stakers) <= 2 ^ 256 - 1) by (apply Z.mul_div_le; lia).
  assert (Hm : 0 <= (2 ^ 256 - 1) / stakers * target < 2 ^ 256) by nia.
  assert (Hq2 : (2 ^ 256 - 1) / stakers < 2 ^ 256) by nia.
  rewrite arith_mul_spec by (unfold uint256_ok; lia).
  rewrite Z.mod_small by lia. done.
Qed.

(** The adaptive VRF threshold keeps the expected number of eligible
    stakers at the target: for a request frozen with more stakers than the
    target, the threshold string decodes to a number T with
    stakers * T at most target * (2^256 - 1) and short of it by less than
    stakers * target; with no more stakers than the target, every output
    but the largest passes.  The limb arithmetic never overflows. *)
Theorem adaptive_threshold_hits_target (c : OPoICache) (requestId : string) (params : Params)
    (req : OPoIRequest) :
  GetRequest requestId c = Some req ->
  0 < nOPoIAdaptiveVrfHeight params < 2 ^ 31 -> nOPoIAdaptiveVrfHeight params <= req_blockHeight req ->
  0 < nOPoIVrfTargetEligible params < 2 ^ 31 -> 0 <= req_vrfActiveStakers req < 2 ^ 32 ->
  let T := uint256_SetHex (OPoIVrfThresholdForRequest c requestId params) in
  let stakers := req_vrfActiveStakers req in
  let target := nOPoIVrfTargetEligible params in
  if stakers <=? target then T = 2 ^ 256 - 1
  else stakers * T <= target * (2 ^ 256 - 1) < stakers * T + stakers * target.
Proof.
  intros Hreq Hh Hb Ht Hs. cbv zeta. unfold OPoIVrfThresholdForRequest. rewrite Hreq.
  rewrite (proj2 (Z.leb_gt (nOPoIAdaptiveVrfHeight params) 0)) by lia.
  rewrite (u32_small (nOPoIAdaptiveVrfHeight params)) by (unfold in_u32; lia).
  rewrite (proj2 (Z.ltb_ge (req_blockHeight req) _)) by lia. rewrite Z.max_r by lia.
  rewrite u32_small by (unfold in_u32; lia).
  destruct (Z.leb_spec (req_vrfActiveStakers req) (nOPoIVrfTargetEligible params)) as [|Hlt].
  { vm_compute. reflexivity. }
  destruct (adaptive_threshold_value (req_vrfActiveStakers req) (nOPoIVrfTargetEligible params))
    as [Hv Hok]; [lia..|].
  rewrite SetHex_GetHex by done. rewrite Hv.
  remember (req_vrfActiveStakers req) as n. remember (nOPoIVrfTargetEligible params) as t.
  pose proof (Z.div_mod (2 ^ 256 - 1) n ltac:(lia)). pose proof (Z.mod_pos_bound (2 ^ 256 - 1) n ltac:(lia)).
  nia.
Qed.

Definition sample_request (height stakers : Z) : OPoIRequest := {|
  req_requestId := "r1"; req_requester := "alice"; req_model := "GEMMA_3_4B"; req_promptHash := 11;
  req_maxTokens := 100; req_payment := 500000; req_feePerToken := 10; req_taskType := OPOI_TASK_OPEN;
  req_taskClass := 0; req_promptTokenCount := 5; req_isCanary := 0; req_testSuite := 0;
  req_blockHeight := height; req_sigTime := 1; req_txHash := 42; req_status := OPOI_STATUS_PENDING;
  req_responseCommits := ∅; req_responseReveals := ∅; req_commitWindowClosed := false;
  req_vrfActiveStakers := stakers |}.

Lemma adaptive_threshold_hits_target_witness :
  let T := uint256_SetHex (OPoIVrfThresholdForRequest (AddRequest (sample_request 100001 1000) emptyCache)
             "r1" mainParams) in
  1000 * T <= 3 * (2 ^ 256 - 1) < 1000 * T + 1000 * 3.
Proof.
  apply (adaptive_threshold_hits_target (AddRequest (sample_request 100001 1000) emptyCache) "r1" mainParams
           (sample_request 100001 1000)); concrete.
Defined.

(** * The audit lottery *)

Lemma audit_threshold_value rateBp :
  0 < rateBp < 10000 ->
  exists q, arith_div (arith_not 0) 10000 = Some q /\ q = (2 ^ 256 - 1) / 10000 /\
  arith_mul q (u64 rateBp) = (2 ^ 256 - 1) / 10000 * rateBp.
Proof.
  intros Hr. exists ((2 ^ 256 - 1) / 10000). unfold arith_not. rewrite arith_div_spec, Z.sub_0_r by lia.
  split; [done|]. split; [done|].
  assert (10000 * ((2 ^ 256 - 1) / 10000) <= 2 ^ 256 - 1) by (apply Z.mul_div_le; lia).
  assert (0 <= (2 ^ 256 - 1) / 10000) by (apply Z.div_pos; lia).
  assert (u64 rateBp = rateBp) as -> by (unfold u64; apply Z.mod_small; lia).
  rewrite arith_mul_spec by (unfold uint256_ok; lia). apply Z.mod_small.
  remember ((2 ^ 256 - 1) / 10000) as q eqn:Eq. clear Eq. nia.
Qed.

(** The audit lottery selects a response exactly when the hash of its
    commitment and the seed, read as a number, is below
    rate * floor((2^256 - 1) / 10000); a rate of zero never selects, a rate
    of ten thousand always does, and raising the rate never deselects. *)
Theorem audit_lottery_spec (commitment : bytes) (seedHash rateBp rateBp' : Z) :
  length commitment = 32%nat ->
  ComputeOPoIAuditSampleSelected commitment seedHash rateBp =
    (if rateBp <=? 0 then false
     else if 10000 <=? rateBp then true
     else le_value (SHA256 (commitment ++ uint256_data seedHash)) <? (2 ^ 256 - 1) / 10000 * rateBp) /\
  (rateBp <= rateBp' -> ComputeOPoIAuditSampleSelected commitment seedHash rateBp = true ->
   ComputeOPoIAuditSampleSelected commitment seedHash rateBp' = true).
Proof.
  intros Hl.
  assert (Hspec : forall rate, ComputeOPoIAuditSampleSelected commitment seedHash rate =
    (if rate <=? 0 then false
     else if 10000 <=? rate then true
     else le_value (SHA256 (commitment ++ uint256_data seedHash)) <? (2 ^ 256 - 1) / 10000 * rate)).
  { intros rate. unfold ComputeOPoIAuditSampleSelected. rewrite Hl.
    destruct (Z.leb_spec rate 0); [done|]. destruct (Z.leb_spec 10000 rate); [done|].
    destruct (audit_threshold_value rate) as (q & -> & -> & ->); [lia|]. done. }
  rewrite !Hspec. split; [done|].
  assert (0 <= (2 ^ 256 - 1) / 10000) by (apply Z.div_pos; lia).
  destruct (Z.leb_spec rateBp 0), (Z.leb_spec 10000 rateBp), (Z.leb_spec rateBp' 0),
    (Z.leb_spec 10000 rateBp'); try done; try lia.
  rewrite !Z.ltb_lt. nia.
Qed.

Lemma audit_lottery_spec_witness :
  ComputeOPoIAuditSampleSelected (replicate 32 7) 99 20000 = true.
Proof. apply (audit_lottery_spec (replicate 32 7) 99 10000 20000); [reflexivity|lia|reflexivity]. Defined.

(** * The seed of the audit lottery *)

(** The audit can be escaped.  While a block is connected at height [h],
    the active chain ends below [h], so the seed of a response committed in
    the block before, the hash of block [h], is not there yet: the lottery is
    not drawn and the response is never selected, whatever the rate.  A node
    that evaluates the same response when the block is on the chain selects
    it at the rate of a new miner. *)
Theorem late_commit_escapes_audit (chain chain' : Chain) (c : OPoICache) (requestId miner : string) (params : Params)
    (h seed : Z) (req : OPoIRequest) (commitHash : string) :
  0 < h < 2 ^ 31 -> (forall x, h <= x -> chain x = None) -> chain' h = Some seed ->
  GetRequest requestId c = Some req -> IsVerifiable req = false ->
  GetResponseCommit requestId miner c = Some commitHash ->
  GetResponseCommitHeight requestId miner c = Some (h - 1) ->
  match GetStake miner c with Some s => stake_responsesTotal s | None => 0 end
    < nOPoIAuditSampleNewMinerResponseCount params ->
  10000 <= nOPoIAuditSampleRateNewMinerBp params ->
  audit_sample chain c requestId miner h params = (false, 0) /\
  fst (audit_sample chain' c requestId miner h params) = true.
Proof.
  intros Hh Htip Hseed Hreq Hver Hcom Hht Hnew Hrate.
  assert (Hat : forall ch, GetOPoIAuditSampleSeedHash ch (h - 1) = ch h).
  { intros ch. unfold GetOPoIAuditSampleSeedHash, chainActive. f_equal.
    rewrite u32_small by (unfold in_u32; lia). rewrite i32_small by (unfold in_i32; lia). lia. }
  unfold audit_sample, EvaluateOPoIAuditSample. rewrite Hreq. cbn [mbind option_bind]. rewrite Hver, Hht, Hcom.
  cbn [mbind option_bind]. rewrite !Hat, Htip, Hseed by lia. split; [done|]. cbn [mbind option_bind default fst].
  rewrite (proj2 (Z.ltb_lt _ _) Hnew). unfold ComputeOPoIAuditSampleSelected.
  rewrite (proj2 (Z.leb_gt _ 0)), (proj2 (Z.leb_le 10000 _)) by lia. done.
Qed.

Lemma late_commit_escapes_audit_witness :
  let c := AddRequest (sample_request 100 2) (AddResponseCommit "r1" "m" "00" 244 33 emptyCache) in
  audit_sample (fun x => if x <? 245 then Some x else None) c "r1" "m" 245 mainParams = (false, 0) /\
  fst (audit_sample (fun x => Some x) c "r1" "m" 245 mainParams) = true.
Proof.
  apply (late_commit_escapes_audit _ _ _ _ _ _ _ 245 (sample_request 100 2) "00"); try concrete.
  intros x Hx. by rewrite (proj2 (Z.ltb_ge _ _)).
Defined.
