(* ===== verification/CheckTx.v ===== *)
(** [CheckOPoITransaction] (opoi/opoi.cpp): the validity rules of each kind of
    version 8 transaction against the cache, one definition per [case].  Each
    rule is a chain of [reject .. when ..] guards in the order of the source;
    the first that fires gives the verdict.  Rules under [!fIsVerifying] are
    skipped while the node replays its database.

    The theorems say what an accepted transaction guarantees: the signature of
    the acting address, the state the cache was in, and for responses the
    commit-reveal discipline. *)

From stdpp Require Import gmap strings list.
From Stdlib Require Import ZArith Lia.
From S2P Require Import Prelude Params Uint256 Sha256 Serialize Transaction Platform Shard.
From S2P Require Import Records Majority Cache Sortition.

Open Scope verdict_scope.

Definition str_empty (s : string) : bool := bool_decide (s = "").
Definition is_nil {A} (l : list A) : bool := match l with [] => true | _ => false end.

Section check.
Context `{Crypto} (params : Params) (chain : Chain) (fIsVerifying : bool) (c : OPoICache).

(** The messages the actors sign. *)
Definition request_sigMsg (tx : CTransaction) : string :=
  opoiRequestId tx +:+ opoiRequester tx +:+ opoiModel tx +:+ uint256_GetHex (opoiPromptHash tx)
  +:+ dec (opoiMaxTokens tx) +:+ dec (opoiPayment tx) +:+ dec (opoiFeePerToken tx)
  +:+ dec (opoiTaskType tx) +:+ dec (opoiTaskClass tx) +:+ uint256_GetHex (opoiTestSuite tx)
  +:+ dec (opoiPromptTokenCount tx) +:+ dec (opoiIsCanary tx).
Definition commit_sigMsg (tx : CTransaction) : string :=
  opoiRequestId tx +:+ opoiMinerAddress tx +:+ HexStr (opoiResponseCommitHash tx).
Definition reveal_sigMsg (tx : CTransaction) : string :=
  opoiRequestId tx +:+ opoiMinerAddress tx +:+ uint256_GetHex (opoiResponseHash tx)
  +:+ uint256_GetHex (opoiCommitment tx) +:+ dec (opoiTokenCount tx).
Definition stake_sigMsg (tx : CTransaction) : string :=
  opoiMinerAddress tx +:+ uint256_GetHex (op_hash (opoiCollateralIn tx)) +:+ dec (op_n (opoiCollateralIn tx)).

(** The hash a RESPONSE reveal must have committed to. *)
Definition response_commitment (tx : CTransaction) : bytes :=
  SHA256 (uint256_data (opoiResponseHash tx) ++ uint256_data (opoiCommitment tx)
          ++ string_bytes (dec (opoiTokenCount tx)) ++ opoiResponseNonce tx).

Definition challenge_commitment (tx : CTransaction) : bytes :=
  SHA256 (opoiProofData tx ++ opoiChallengeNonce tx).

(** The verdict for a failed VRF check, [prefix + reason]. *)
Definition vrf_reject (prefix reason : string) : Verdict :=
  DoS (if bool_decide (reason = "vrf-invalid") then 100 else 10) (prefix +:+ reason).

Definition CheckRequest (tx : CTransaction) : Verdict :=
  reject DoS 10 "bad-txns-opoi-no-request-id" when str_empty (opoiRequestId tx);
  reject DoS 10 "bad-txns-opoi-no-requester" when str_empty (opoiRequester tx);
  reject DoS 10 "bad-txns-opoi-no-model" when str_empty (opoiModel tx);
  reject DoS 10 "bad-txns-opoi-no-prompt-hash" when uint256_IsNull (opoiPromptHash tx);
  reject DoS 10 "bad-txns-opoi-zero-payment" when opoiPayment tx <=? 0;
  let existing := if fIsVerifying then None else GetRequest (opoiRequestId tx) c in
  reject Invalid "bad-txns-opoi-request-already-known"
    when match existing with Some r => req_txHash r =? GetHash tx | None => false end;
  reject DoS 10 "bad-txns-opoi-request-id-collision" when bool_decide (is_Some existing);
  reject DoS 10 "bad-txns-opoi-request-verifiable-needs-test-suite"
    when (opoiTaskType tx =? OPOI_TASK_VERIFIABLE) && uint256_IsNull (opoiTestSuite tx);
  let minPayment := i64 (nOPoIFeeBase params + opoiPromptTokenCount tx * nOPoIFeePerToken params) in
  reject DoS 10 "bad-txns-opoi-request-fee-too-low"
    when ((0 <? nOPoIFeeBase params) || (0 <? nOPoIFeePerToken params)) && (opoiPayment tx <? minPayment);
  reject DoS 10 "bad-txns-opoi-request-canary-not-verifiable"
    when negb (opoiIsCanary tx =? 0) && negb (opoiTaskType tx =? OPOI_TASK_VERIFIABLE);
  reject DoS 10 "bad-txns-opoi-request-canary-wrong-test-suite"
    when negb (opoiIsCanary tx =? 0) && negb (opoiTestSuite tx =? GetOPoICanaryTestSuiteHash);
  let manifest := if fIsVerifying then None else GetModelManifest (opoiModel tx) c in
  reject DoS 10 "bad-txns-opoi-request-pipeline-too-deep-for-interactive"
    when match manifest with
         | Some m => Manifest_IsActive m && (opoiTaskClass tx =? OPOI_TASKCLASS_INTERACTIVE)
                     && (nOPoIMaxPipelineDepth params <? i32 (numDenseShards m))
         | None => false
         end;
  reject DoS 10 "bad-txns-opoi-request-fee-below-model-minimum"
    when match manifest with
         | Some m => Manifest_IsActive m && (0 <? minRewardPerToken m)
                     && (opoiFeePerToken tx <? minRewardPerToken m)
         | None => false
         end;
  reject DoS 100 "bad-txns-opoi-request-bad-sig"
    when negb (signed_by (opoiRequester tx) (request_sigMsg tx) (opoiSig tx));
  Accept.

(** The part of the RESPONSE rule shared by both phases. *)
Definition CheckResponseCommon (tx : CTransaction) (haveReq : option OPoIRequest) (next : Verdict) : Verdict :=
  reject DoS 10 "bad-txns-opoi-no-request-id" when str_empty (opoiRequestId tx);
  reject DoS 10 "bad-txns-opoi-no-miner" when str_empty (opoiMinerAddress tx);
  reject DoS 10 "bad-txns-opoi-miner-not-staked"
    when negb fIsVerifying && negb (IsActiveStaker (opoiMinerAddress tx) c);
  reject DoS 10 "bad-txns-opoi-request-expired"
    when match haveReq with Some req => IsExpired req | None => false end;
  reject DoS 10 "bad-txns-opoi-response-model-mismatch"
    when match haveReq, GetStake (opoiMinerAddress tx) c with
         | Some req, Some stake =>
           negb (str_empty (req_model req)) && negb (str_empty (stake_modelId stake))
           && negb (bool_decide (stake_modelId stake = req_model req))
         | _, _ => false
         end;
  next.

Definition CheckResponseCommit (tx : CTransaction) (haveReq : option OPoIRequest) : Verdict :=
  reject DoS 10 "bad-txns-opoi-response-no-commit-hash" when negb (length (opoiResponseCommitHash tx) =? 32)%nat;
  reject Invalid "bad-txns-opoi-response-commit-already-known"
    when negb fIsVerifying
         && IsHarmlessResponseCommitRedelivery (opoiRequestId tx) (opoiMinerAddress tx) (GetHash tx) c;
  reject DoS 10 "bad-txns-opoi-response-commit-window-closed"
    when match haveReq with Some req => req_commitWindowClosed req | None => false end;
  reject DoS 100 "bad-txns-opoi-response-bad-sig"
    when negb (signed_by (opoiMinerAddress tx) (commit_sigMsg tx) (opoiSig tx));
  Accept.

(** The checks of a reveal against the cache, under [!fIsVerifying]. *)
Definition CheckRevealState (tx : CTransaction) (haveReq : option OPoIRequest) (next : Verdict) : Verdict :=
  match haveReq with
  | None => DoS 10 "bad-txns-opoi-response-reveal-too-early"
  | Some req =>
    reject DoS 10 "bad-txns-opoi-response-reveal-too-early" when negb (req_commitWindowClosed req);
    reject Invalid "bad-txns-opoi-response-reveal-already-known"
      when bool_decide (is_Some (req_responseReveals req !! opoiMinerAddress tx));
    match GetResponseCommit (opoiRequestId tx) (opoiMinerAddress tx) c with
    | None => DoS 10 "bad-txns-opoi-response-no-commit"
    | Some committedHash =>
      reject DoS 10 "bad-txns-opoi-response-no-nonce" when is_nil (opoiResponseNonce tx);
      reject DoS 100 "bad-txns-opoi-response-commit-mismatch"
        when negb (bool_decide (committedHash = HexStr (response_commitment tx)));
      match GetOPoIRequestSeedHash chain c (opoiRequestId tx) with
      | None => DoS 10 "bad-txns-opoi-response-no-seed"
      | Some seedHash =>
        match CheckVrfSortition c (opoiMinerAddress tx) (opoiRequestId tx) seedHash "" (opoiVrfProof tx)
                (OPoIVrfThresholdForRequest c (opoiRequestId tx) params) with
        | Some reason => vrf_reject "bad-txns-opoi-response-" reason
        | None => next
        end
      end
    end
  end.

Definition CheckResponseReveal (tx : CTransaction) (haveReq : option OPoIRequest) : Verdict :=
  let sig :=
    reject DoS 100 "bad-txns-opoi-response-bad-sig"
      when negb (signed_by (opoiMinerAddress tx) (reveal_sigMsg tx) (opoiSig tx));
    Accept in
  reject DoS 10 "bad-txns-opoi-no-response-hash" when uint256_IsNull (opoiResponseHash tx);
  if fIsVerifying then sig else CheckRevealState tx haveReq sig.

Definition CheckResponse (tx : CTransaction) : Verdict :=
  let haveReq := if fIsVerifying then None else GetRequest (opoiRequestId tx) c in
  CheckResponseCommon tx haveReq
    (if opoiResponsePhase tx =? 0 then CheckResponseCommit tx haveReq
     else CheckResponseReveal tx haveReq).

(** The rule shared by STAKE, CHALLENGE commit and AUDITOR_VERIFY: the
    collateral is free, or this very transaction already locked it. *)
Definition CheckCollateral (out : COutPoint) (txHash : Z) (known locked : string) (next : Verdict) : Verdict :=
  if IsLockedUTXO out c then
    (if IsHarmlessRedelivery c out txHash then Invalid known else DoS 100 locked)
  else next.

Definition CheckStake (tx : CTransaction) : Verdict :=
  reject DoS 10 "bad-txns-opoi-stake-no-miner" when str_empty (opoiMinerAddress tx);
  reject DoS 10 "bad-txns-opoi-stake-no-collateral" when COutPoint_IsNull (opoiCollateralIn tx);
  reject DoS 10 "bad-txns-opoi-stake-zero-amount" when opoiPayment tx <=? 0;
  let sig :=
    reject DoS 100 "bad-txns-opoi-stake-bad-sig"
      when negb (signed_by (opoiMinerAddress tx) (stake_sigMsg tx) (opoiSig tx));
    Accept in
  if fIsVerifying then sig
  else CheckCollateral (opoiCollateralIn tx) (GetHash tx)
         "bad-txns-opoi-stake-already-known" "bad-txns-opoi-stake-collateral-locked" sig.

Definition CheckUnstake (tx : CTransaction) : Verdict :=
  reject DoS 10 "bad-txns-opoi-unstake-no-miner" when str_empty (opoiMinerAddress tx);
  reject (if IsHarmlessUnstakeRedelivery (opoiMinerAddress tx) (GetHash tx) c
          then Invalid "bad-txns-opoi-unstake-already-known"
          else DoS 100 "bad-txns-opoi-unstake-not-staked")
    when negb fIsVerifying && negb (IsActiveStaker (opoiMinerAddress tx) c);
  reject DoS 100 "bad-txns-opoi-unstake-bad-sig"
    when negb (signed_by (opoiMinerAddress tx) ("UNSTAKE" +:+ opoiMinerAddress tx) (opoiSig tx));
  Accept.

Definition CheckRenew (tx : CTransaction) : Verdict :=
  reject DoS 10 "bad-txns-opoi-renew-no-miner" when str_empty (opoiMinerAddress tx);
  reject DoS 10 "bad-txns-opoi-renew-not-renewable"
    when negb fIsVerifying &&
         match GetStake (opoiMinerAddress tx) c with
         | None => true
         | Some stake => negb (stake_stakeStatus stake =? OPOI_STAKE_ACTIVE)
                         && negb (stake_stakeStatus stake =? OPOI_STAKE_SUSPENDED)
         end;
  reject DoS 100 "bad-txns-opoi-renew-bad-sig"
    when negb (signed_by (opoiMinerAddress tx) ("RENEW" +:+ opoiMinerAddress tx) (opoiSig tx));
  Accept.

Definition challenge_commit_sigMsg (tx : CTransaction) : string :=
  opoiRequestId tx +:+ opoiRequester tx +:+ HexStr (opoiCommitHash tx)
  +:+ uint256_GetHex (op_hash (opoiChallengerCollateralIn tx))
  +:+ dec (op_n (opoiChallengerCollateralIn tx)).

Definition CheckChallengeCommit (tx : CTransaction) : Verdict :=
  reject DoS 10 "bad-txns-opoi-challenge-no-commit-hash" when negb (length (opoiCommitHash tx) =? 32)%nat;
  let sig :=
    reject DoS 100 "bad-txns-opoi-challenge-bad-sig"
      when negb (signed_by (opoiRequester tx) (challenge_commit_sigMsg tx) (opoiSig tx));
    Accept in
  if fIsVerifying then sig
  else CheckCollateral (opoiChallengerCollateralIn tx) (GetHash tx)
         "bad-txns-opoi-challenge-already-known" "bad-txns-opoi-challenge-collateral-locked"
         (reject DoS 10 "bad-txns-opoi-challenge-already-open"
            when match GetChallenge (opoiRequestId tx) c with Some ch => IsOpen ch | None => false end;
          sig).

Definition CheckChallengeReveal (tx : CTransaction) : Verdict :=
  reject DoS 10 "bad-txns-opoi-challenge-no-reveal-data"
    when is_nil (opoiProofData tx) || is_nil (opoiChallengeNonce tx);
  let sig :=
    reject DoS 100 "bad-txns-opoi-challenge-bad-sig"
      when negb (signed_by (opoiRequester tx)
             (opoiRequestId tx +:+ opoiRequester tx +:+ HexStr (opoiProofData tx)
              +:+ HexStr (opoiChallengeNonce tx)) (opoiSig tx));
    Accept in
  if fIsVerifying then sig
  else
    match GetChallenge (opoiRequestId tx) c with
    | None => DoS 10 "bad-txns-opoi-challenge-no-open-commit"
    | Some existing =>
      reject Invalid "bad-txns-opoi-challenge-reveal-already-known"
        when negb (IsOpen existing) && (ch_revealTxHash existing =? GetHash tx);
      reject DoS 10 "bad-txns-opoi-challenge-no-open-commit" when negb (IsOpen existing);
      reject DoS 10 "bad-txns-opoi-challenge-challenger-mismatch"
        when negb (bool_decide (ch_challengerAddress existing = opoiRequester tx));
      reject DoS 100 "bad-txns-opoi-challenge-reveal-mismatch"
        when negb (bool_decide (ch_commitHash existing = HexStr (challenge_commitment tx)));
      sig
    end.

Definition CheckChallenge (tx : CTransaction) : Verdict :=
  reject DoS 10 "bad-txns-opoi-challenge-no-request-id" when str_empty (opoiRequestId tx);
  reject DoS 10 "bad-txns-opoi-challenge-no-challenger" when str_empty (opoiRequester tx);
  reject DoS 10 "bad-txns-opoi-challenge-no-collateral" when COutPoint_IsNull (opoiChallengerCollateralIn tx);
  reject DoS 10 "bad-txns-opoi-challenge-unknown-response"
    when negb fIsVerifying && bool_decide (GetResponse (opoiRequestId tx) c = None);
  if opoiChallengePhase tx =? 0 then CheckChallengeCommit tx else CheckChallengeReveal tx.

Definition model_register_sigMsg (tx : CTransaction) : string :=
  opoiModelId tx +:+ opoiRequester tx +:+ dec (opoiModelArchType tx) +:+ uint256_GetHex (opoiPomRoot tx).

Definition CheckModelRegister (tx : CTransaction) : Verdict :=
  reject DoS 10 "bad-txns-opoi-model-no-id" when str_empty (opoiModelId tx);
  reject DoS 10 "bad-txns-opoi-model-no-proposer" when str_empty (opoiRequester tx);
  reject DoS 10 "bad-txns-opoi-model-bad-arch-type"
    when negb (opoiModelArchType tx =? OPOI_ARCH_DENSE) && negb (opoiModelArchType tx =? OPOI_ARCH_MOE)
         && negb (opoiModelArchType tx =? OPOI_ARCH_HYBRID);
  let dense := opoiModelArchType tx =? OPOI_ARCH_DENSE in
  reject DoS 10 "bad-txns-opoi-model-dense-has-experts"
    when dense && (negb (opoiModelNumExperts tx =? 0) || negb (opoiModelTopKExperts tx =? 0)
                   || negb (is_nil (opoiModelExpertPomRoots tx)));
  reject DoS 10 "bad-txns-opoi-model-bad-expert-count"
    when negb dense && ((opoiModelNumExperts tx =? 0) || (opoiModelTopKExperts tx =? 0)
                        || (opoiModelNumExperts tx <? opoiModelTopKExperts tx));
  reject DoS 10 "bad-txns-opoi-model-expert-root-count-mismatch"
    when negb dense && negb (Z.of_nat (length (opoiModelExpertPomRoots tx)) =? opoiModelNumExperts tx);
  reject DoS 10 "bad-txns-opoi-model-zero-layers" when opoiModelNumLayers tx =? 0;
  reject DoS 10 "bad-txns-opoi-model-bad-shard-count"
    when (opoiModelNumDenseShards tx =? 0) || (opoiModelNumLayers tx <? opoiModelNumDenseShards tx);
  reject DoS 10 "bad-txns-opoi-model-no-pom-root" when uint256_IsNull (opoiPomRoot tx);
  let existing := if fIsVerifying then None else GetModelManifest (opoiModelId tx) c in
  reject Invalid "bad-txns-opoi-model-already-known"
    when match existing with Some m => mf_txHash m =? GetHash tx | None => false end;
  reject DoS 10 "bad-txns-opoi-model-already-registered" when bool_decide (is_Some existing);
  reject DoS 10 "bad-txns-opoi-model-proposer-not-staked"
    when negb fIsVerifying && negb (IsActiveStaker (opoiRequester tx) c);
  reject DoS 100 "bad-txns-opoi-model-bad-sig"
    when negb (signed_by (opoiRequester tx) (model_register_sigMsg tx) (opoiSig tx));
  Accept.

Definition model_vote_sigMsg (tx : CTransaction) : string :=
  opoiModelId tx +:+ opoiRequester tx +:+ dec (opoiModelVoteApprove tx).

Definition CheckModelVote (tx : CTransaction) : Verdict :=
  reject DoS 10 "bad-txns-opoi-model-vote-no-id" when str_empty (opoiModelId tx);
  reject DoS 10 "bad-txns-opoi-model-vote-no-voter" when str_empty (opoiRequester tx);
  let sig :=
    reject DoS 100 "bad-txns-opoi-model-vote-bad-sig"
      when negb (signed_by (opoiRequester tx) (model_vote_sigMsg tx) (opoiSig tx));
    Accept in
  if fIsVerifying then sig
  else
    reject Invalid "bad-txns-opoi-model-vote-already-known"
      when IsHarmlessModelVoteRedelivery (opoiModelId tx) (opoiRequester tx) (GetHash tx) c;
    match GetModelManifest (opoiModelId tx) c with
    | None => DoS 10 "bad-txns-opoi-model-vote-unknown-model"
    | Some m =>
      reject DoS 10 "bad-txns-opoi-model-vote-window-closed" when negb (IsVoting m);
      reject DoS 10 "bad-txns-opoi-model-vote-not-staked" when negb (IsActiveStaker (opoiRequester tx) c);
      sig
    end.

Definition CheckCoordinatorClaim (tx : CTransaction) : Verdict :=
  reject DoS 10 "bad-txns-opoi-coord-no-request-id" when str_empty (opoiRequestId tx);
  reject DoS 10 "bad-txns-opoi-coord-no-miner" when str_empty (opoiMinerAddress tx);
  let sig :=
    reject DoS 100 "bad-txns-opoi-coord-bad-sig"
      when negb (signed_by (opoiMinerAddress tx)
             ("COORD" +:+ opoiRequestId tx +:+ opoiMinerAddress tx) (opoiSig tx));
    Accept in
  if fIsVerifying then sig
  else
    reject DoS 10 "bad-txns-opoi-coord-not-staked" when negb (IsActiveStaker (opoiMinerAddress tx) c);
    reject DoS 10 "bad-txns-opoi-coord-unknown-request"
      when bool_decide (GetRequest (opoiRequestId tx) c = None);
    if IsClaimedCoordinator (opoiRequestId tx) (opoiMinerAddress tx) c then sig
    else
      match GetOPoIRequestSeedHash chain c (opoiRequestId tx) with
      | None => DoS 10 "bad-txns-opoi-coord-no-seed"
      | Some seedHash =>
        match CheckVrfSortition c (opoiMinerAddress tx) (opoiRequestId tx) seedHash "COORD"
                (opoiVrfProof tx) (nOPoICoordinatorThreshold params) with
        | Some reason => vrf_reject "bad-txns-opoi-coord-" reason
        | None => sig
        end
      end.

(** The cross-check of a shard result against an active manifest. *)
Definition CheckShardAgainstManifest (tx : CTransaction) (manifest : ModelManifest) (next : Verdict) : Verdict :=
  let meg := BuildModelExecutionGraph manifest (ShouldCollapseToTitanSingleNode manifest params c) in
  match meg !! Z.to_nat (opoiShardIndex tx) with
  | None => DoS 10 "bad-txns-opoi-shard-index-out-of-range"
  | Some d =>
    if shardType d =? OPOI_SHARD_EXPERT then
      reject DoS 100 "bad-txns-opoi-shard-expert-bounds" when negb (IsExpertShardWithinManifestBounds d manifest);
      reject DoS 10 "bad-txns-opoi-shard-expert-not-hosted"
        when match GetStake (opoiMinerAddress tx) c with
             | None => true
             | Some stake => negb (HostsExpert stake (expertId d))
             end;
      reject DoS 10 "bad-txns-opoi-shard-expert-no-router-hash" when uint256_IsNull (opoiCommitment tx);
      next
    else next
  end.

Definition CheckShardResult (tx : CTransaction) : Verdict :=
  reject DoS 10 "bad-txns-opoi-shard-no-request-id" when str_empty (opoiRequestId tx);
  reject DoS 10 "bad-txns-opoi-shard-no-miner" when str_empty (opoiMinerAddress tx);
  reject DoS 10 "bad-txns-opoi-shard-no-output-hash" when uint256_IsNull (opoiResponseHash tx);
  let sig :=
    reject DoS 100 "bad-txns-opoi-shard-bad-sig"
      when negb (signed_by (opoiMinerAddress tx)
             ("SHARD" +:+ opoiRequestId tx +:+ dec (opoiShardIndex tx) +:+ opoiMinerAddress tx
              +:+ uint256_GetHex (opoiResponseHash tx) +:+ uint256_GetHex (opoiCommitment tx)
              +:+ dec (opoiTokenCount tx)) (opoiSig tx));
    Accept in
  if fIsVerifying then sig
  else
    reject DoS 10 "bad-txns-opoi-shard-not-staked" when negb (IsActiveStaker (opoiMinerAddress tx) c);
    match GetRequest (opoiRequestId tx) c with
    | None => DoS 10 "bad-txns-opoi-shard-unknown-request"
    | Some req =>
      match GetOPoIRequestSeedHash chain c (opoiRequestId tx) with
      | None => DoS 10 "bad-txns-opoi-shard-no-seed"
      | Some seedHash =>
        match CheckVrfSortition c (opoiMinerAddress tx) (opoiRequestId tx) seedHash
                ("SHARD" +:+ dec (opoiShardIndex tx)) (opoiVrfProof tx) (nOPoIShardThreshold params) with
        | Some reason => vrf_reject "bad-txns-opoi-shard-" reason
        | None =>
          match GetModelManifest (req_model req) c with
          | Some manifest =>
            if Manifest_IsActive manifest then CheckShardAgainstManifest tx manifest sig else sig
          | None => sig
          end
        end
      end
    end.

Definition auditor_sigMsg (tx : CTransaction) : string :=
  opoiAuditorAddress tx +:+ opoiRequestId tx +:+ uint256_GetHex (op_hash (opoiAuditorCollateralIn tx))
  +:+ dec (op_n (opoiAuditorCollateralIn tx)) +:+ dec (opoiShardIndex tx).

(** What the verification targets: the response, or one shard of its model. *)
Definition CheckAuditorTarget (tx : CTransaction) (req : OPoIRequest) (next : Verdict) : Verdict :=
  if opoiShardIndex tx =? OPOI_AUDITOR_VERIFY_NO_SHARD then
    reject DoS 10 "bad-txns-opoi-auditor-not-verifiable"
      when negb (IsVerifiable req) &&
           negb (match GetResponse (opoiRequestId tx) c with Some resp => auditSelected resp | None => false end);
    next
  else
    match GetModelManifest (req_model req) c with
    | None => DoS 10 "bad-txns-opoi-auditor-shard-unknown-model"
    | Some manifest =>
      reject DoS 10 "bad-txns-opoi-auditor-shard-unknown-model" when negb (Manifest_IsActive manifest);
      reject DoS 10 "bad-txns-opoi-auditor-shard-index-out-of-range"
        when negb (IsAuditorVerificationShardIndexValid (opoiShardIndex tx) manifest
                     (ShouldCollapseToTitanSingleNode manifest params c));
      next
    end.

Definition CheckAuditorVerify (tx : CTransaction) : Verdict :=
  reject DoS 10 "bad-txns-opoi-auditor-no-request-id" when str_empty (opoiRequestId tx);
  reject DoS 10 "bad-txns-opoi-auditor-no-address" when str_empty (opoiAuditorAddress tx);
  reject DoS 10 "bad-txns-opoi-auditor-invalid-result"
    when negb (opoiAuditorVerifyResult tx =? AUDITOR_VERIFY_PASS)
         && negb (opoiAuditorVerifyResult tx =? AUDITOR_VERIFY_FAIL)
         && negb (opoiAuditorVerifyResult tx =? AUDITOR_VERIFY_TIMEOUT);
  reject DoS 10 "bad-txns-opoi-auditor-no-collateral" when COutPoint_IsNull (opoiAuditorCollateralIn tx);
  let sig :=
    reject DoS 100 "bad-txns-opoi-auditor-bad-sig"
      when negb (signed_by (opoiAuditorAddress tx) (auditor_sigMsg tx) (opoiSig tx));
    Accept in
  if fIsVerifying then sig
  else
    match GetRequest (opoiRequestId tx) c with
    | None => DoS 10 "bad-txns-opoi-auditor-not-verifiable"
    | Some req =>
      CheckAuditorTarget tx req
        (CheckCollateral (opoiAuditorCollateralIn tx) (GetHash tx)
           "bad-txns-opoi-auditor-already-known" "bad-txns-opoi-auditor-collateral-locked" sig)
    end.

(** [CheckOPoITransaction]. *)
Definition CheckOPoITransaction (tx : CTransaction) : Verdict :=
  if negb (nVersion tx =? OPOI_TX_VERSION) then Accept
  else
    reject DoS 10 "bad-txns-opoi-not-empty"
      when negb (is_nil (vin tx)) || negb (is_nil (vout tx)) || negb (is_nil (vJoinSplit tx));
    if nType tx =? OPOI_REQUEST_TX_TYPE then CheckRequest tx
    else if nType tx =? OPOI_RESPONSE_TX_TYPE then CheckResponse tx
    else if nType tx =? OPOI_STAKE_TX_TYPE then CheckStake tx
    else if nType tx =? OPOI_UNSTAKE_TX_TYPE then CheckUnstake tx
    else if nType tx =? OPOI_RENEW_TX_TYPE then CheckRenew tx
    else if nType tx =? OPOI_CHALLENGE_TX_TYPE then CheckChallenge tx
    else if nType tx =? OPOI_MODEL_REGISTER_TX_TYPE then CheckModelRegister tx
    else if nType tx =? OPOI_MODEL_VOTE_TX_TYPE then CheckModelVote tx
    else if nType tx =? OPOI_COORDINATOR_CLAIM_TX_TYPE then CheckCoordinatorClaim tx
    else if nType tx =? OPOI_SHARD_RESULT_TX_TYPE then CheckShardResult tx
    else if nType tx =? OPOI_AUDITOR_VERIFY_TX_TYPE then CheckAuditorVerify tx
    else DoS 10 "bad-txns-opoi-invalid-type".
End check.

(** [CheckOPoIBlockCaps]. *)
Definition count_type (t : Z) (vtx : list CTransaction) : Z :=
  Z.of_nat (length (List.filter (fun tx => (nVersion tx =? OPOI_TX_VERSION) && (nType tx =? t)) vtx)).

Definition CheckOPoIBlockCaps (params : Params) (vtx : list CTransaction) : Verdict :=
  reject DoS 10 "bad-cb-opoi-too-many-requests"
    when (0 <? nOPoIMaxRequestsPerBlock params)
         && (nOPoIMaxRequestsPerBlock params <? count_type OPOI_REQUEST_TX_TYPE vtx);
  reject DoS 10 "bad-cb-opoi-too-many-responses"
    when (0 <? nOPoIMaxResponsesPerBlock params)
         && (nOPoIMaxResponsesPerBlock params <? count_type OPOI_RESPONSE_TX_TYPE vtx);
  Accept.

(** * What acceptance means *)

(** Decomposes a hypothesis [v = Accept] along the guards and matches of [v]. *)
Ltac accepted H :=
  unfold DoS, Invalid, vrf_reject in H; cbv zeta in H;
  repeat lazymatch type of H with
  | (if ?b then Reject _ _ _ else _) = Accept =>
    let G := fresh "G" in apply accept_guard in H; destruct H as [G H]
  | Reject _ _ _ = Accept => discriminate H
  | match ?x with _ => _ end = Accept => let E := fresh "E" in destruct x eqn:E
  | _ = Accept => progress (unfold DoS, Invalid, vrf_reject in H; cbv zeta in H)
  end.

(** Evaluates the comparisons between transaction type constants in [H]. *)
Ltac known_type H :=
  cbv [OPOI_REQUEST_TX_TYPE OPOI_RESPONSE_TX_TYPE OPOI_STAKE_TX_TYPE OPOI_UNSTAKE_TX_TYPE
       OPOI_CHALLENGE_TX_TYPE OPOI_AUDITOR_VERIFY_TX_TYPE OPOI_MODEL_REGISTER_TX_TYPE OPOI_MODEL_VOTE_TX_TYPE
       OPOI_COORDINATOR_CLAIM_TX_TYPE OPOI_SHARD_RESULT_TX_TYPE OPOI_RENEW_TX_TYPE Z.eqb Pos.eqb andb orb negb] in H.

(** The same in the goal, the version test included. *)
Ltac known_types :=
  cbv [OPOI_REQUEST_TX_TYPE OPOI_RESPONSE_TX_TYPE OPOI_STAKE_TX_TYPE OPOI_UNSTAKE_TX_TYPE
       OPOI_CHALLENGE_TX_TYPE OPOI_AUDITOR_VERIFY_TX_TYPE OPOI_MODEL_REGISTER_TX_TYPE OPOI_MODEL_VOTE_TX_TYPE
       OPOI_COORDINATOR_CLAIM_TX_TYPE OPOI_SHARD_RESULT_TX_TYPE OPOI_RENEW_TX_TYPE OPOI_TX_VERSION
       Z.eqb Pos.eqb andb orb negb].

(** The address an OPoI transaction acts for, and the message it must sign. *)
Definition actor (tx : CTransaction) : string :=
  let t := nType tx in
  if (t =? OPOI_REQUEST_TX_TYPE) || (t =? OPOI_CHALLENGE_TX_TYPE) || (t =? OPOI_MODEL_REGISTER_TX_TYPE)
     || (t =? OPOI_MODEL_VOTE_TX_TYPE) then opoiRequester tx
  else if t =? OPOI_AUDITOR_VERIFY_TX_TYPE then opoiAuditorAddress tx
  else opoiMinerAddress tx.

Definition signed_message (tx : CTransaction) : string :=
  let t := nType tx in
  if t =? OPOI_REQUEST_TX_TYPE then request_sigMsg tx
  else if t =? OPOI_RESPONSE_TX_TYPE then
    (if opoiResponsePhase tx =? 0 then commit_sigMsg tx else reveal_sigMsg tx)
  else if t =? OPOI_STAKE_TX_TYPE then stake_sigMsg tx
  else if t =? OPOI_UNSTAKE_TX_TYPE then "UNSTAKE" +:+ opoiMinerAddress tx
  else if t =? OPOI_RENEW_TX_TYPE then "RENEW" +:+ opoiMinerAddress tx
  else if t =? OPOI_CHALLENGE_TX_TYPE then
    (if opoiChallengePhase tx =? 0 then challenge_commit_sigMsg tx
     else opoiRequestId tx +:+ opoiRequester tx +:+ HexStr (opoiProofData tx) +:+ HexStr (opoiChallengeNonce tx))
  else if t =? OPOI_MODEL_REGISTER_TX_TYPE then model_register_sigMsg tx
  else if t =? OPOI_MODEL_VOTE_TX_TYPE then model_vote_sigMsg tx
  else if t =? OPOI_COORDINATOR_CLAIM_TX_TYPE then "COORD" +:+ opoiRequestId tx +:+ opoiMinerAddress tx
  else if t =? OPOI_SHARD_RESULT_TX_TYPE then
    "SHARD" +:+ opoiRequestId tx +:+ dec (opoiShardIndex tx) +:+ opoiMinerAddress tx
    +:+ uint256_GetHex (opoiResponseHash tx) +:+ uint256_GetHex (opoiCommitment tx) +:+ dec (opoiTokenCount tx)
  else auditor_sigMsg tx.

Section acceptance.
Context `{Crypto} (params : Params) (chain : Chain) (c : OPoICache).

Lemma signed_by_spec address message sig :
  signed_by address message sig = true <->
  exists pk, DecodeDestination address = CKeyID (GetID pk) /\ RecoverCompact (message_hash message) sig = Some pk
             /\ sig <> [].
Proof.
  unfold signed_by. split.
  - destruct (VerifyOPoISig address message sig) eqn:E; [|done]. apply VerifyOPoISig_spec in E.
    naive_solver.
  - intros (pk & ? & ? & ?).
    by rewrite (proj2 (VerifyOPoISig_spec address message sig pk)).
Qed.

(** A successful sortition: the staked key verifies the proof on the seed, and
    the output is below the threshold. *)
Lemma CheckVrfSortition_ok miner requestId seedHash suffix proof thresholdHex :
  CheckVrfSortition c miner requestId seedHash suffix proof thresholdHex = None ->
  exists stake out, GetStake miner c = Some stake
    /\ OPoIVRFVerify (stake_minerPubKey stake)
         (SHA256 (uint256_data seedHash ++ string_bytes requestId ++ string_bytes suffix)) proof = Some out
    /\ le_value out < uint256_SetHex thresholdHex.
Proof.
  unfold CheckVrfSortition. intros Hn. repeat case_match; simplify_eq.
  eexists _, _. repeat split; eauto. apply Z.ltb_lt. by apply negb_false_iff.
Qed.

(** An accepted OPoI transaction passed the rule of its type and is empty of
    transparent and shielded transfers. *)
Lemma accepted_by_rule fV tx :
  CheckOPoITransaction params chain fV c tx = Accept -> nVersion tx = OPOI_TX_VERSION ->
  (vin tx = [] /\ vout tx = [] /\ vJoinSplit tx = []) /\
  ((nType tx = OPOI_REQUEST_TX_TYPE /\ CheckRequest params fV c tx = Accept)
   \/ (nType tx = OPOI_RESPONSE_TX_TYPE /\ CheckResponse params chain fV c tx = Accept)
   \/ (nType tx = OPOI_STAKE_TX_TYPE /\ CheckStake fV c tx = Accept)
   \/ (nType tx = OPOI_UNSTAKE_TX_TYPE /\ CheckUnstake fV c tx = Accept)
   \/ (nType tx = OPOI_RENEW_TX_TYPE /\ CheckRenew fV c tx = Accept)
   \/ (nType tx = OPOI_CHALLENGE_TX_TYPE /\ CheckChallenge fV c tx = Accept)
   \/ (nType tx = OPOI_MODEL_REGISTER_TX_TYPE /\ CheckModelRegister fV c tx = Accept)
   \/ (nType tx = OPOI_MODEL_VOTE_TX_TYPE /\ CheckModelVote fV c tx = Accept)
   \/ (nType tx = OPOI_COORDINATOR_CLAIM_TX_TYPE /\ CheckCoordinatorClaim params chain fV c tx = Accept)
   \/ (nType tx = OPOI_SHARD_RESULT_TX_TYPE /\ CheckShardResult params chain fV c tx = Accept)
   \/ (nType tx = OPOI_AUDITOR_VERIFY_TX_TYPE /\ CheckAuditorVerify params fV c tx = Accept)).
Proof.
  intros Ha Hv. unfold CheckOPoITransaction in Ha. rewrite Hv, Z.eqb_refl in Ha. cbn [negb] in Ha.
  unfold DoS in Ha. apply accept_guard in Ha as [Hnil Ha]. split.
  { destruct (vin tx), (vout tx), (vJoinSplit tx); done. }
  repeat match type of Ha with
  | (if ?a =? ?b then _ else _) = _ => destruct (Z.eqb_spec a b) as [->|]; [tauto|]
  end. done.
Qed.

(** C21. Every accepted OPoI transaction, of any of the eleven types and also
    while the database is replayed, carries a signature from which a public
    key is recovered that hashes to the key the acting address stands for:
    nobody can act for an address without its key.  The message signed is the
    one of the transaction's type and phase, and the transaction moves no
    coins itself. *)
Theorem accepted_tx_is_signed (fV : bool) (tx : CTransaction) :
  nVersion tx = OPOI_TX_VERSION -> CheckOPoITransaction params chain fV c tx = Accept ->
  exists pk, DecodeDestination (actor tx) = CKeyID (GetID pk)
    /\ RecoverCompact (message_hash (signed_message tx)) (opoiSig tx) = Some pk
    /\ vin tx = [] /\ vout tx = [] /\ vJoinSplit tx = [].
Proof.
  intros Hv Ha. destruct (accepted_by_rule fV tx Ha Hv) as [Hnil Hr].
  enough (signed_by (actor tx) (signed_message tx) (opoiSig tx) = true) as Hs.
  { apply signed_by_spec in Hs as (pk & ? & ? & _). exists pk. tauto. }
  unfold actor, signed_message.
  repeat destruct Hr as [(-> & Hr)|Hr]; [..|destruct Hr as (-> & Hr)]; cbn [Z.eqb Pos.eqb orb];
    apply negb_false_iff.
  - unfold CheckRequest in Hr. by accepted Hr.
  - unfold CheckResponse, CheckResponseCommon, CheckResponseCommit, CheckResponseReveal, CheckRevealState in Hr.
    by accepted Hr.
  - unfold CheckStake, CheckCollateral in Hr. by accepted Hr.
  - unfold CheckUnstake in Hr. by accepted Hr.
  - unfold CheckRenew in Hr. by accepted Hr.
  - unfold CheckChallenge, CheckChallengeCommit, CheckChallengeReveal, CheckCollateral in Hr. by accepted Hr.
  - unfold CheckModelRegister in Hr. by accepted Hr.
  - unfold CheckModelVote in Hr. by accepted Hr.
  - unfold CheckCoordinatorClaim in Hr. by accepted Hr.
  - unfold CheckShardResult, CheckShardAgainstManifest in Hr. by accepted Hr.
  - unfold CheckAuditorVerify, CheckAuditorTarget, CheckCollateral in Hr. by accepted Hr.
Qed.

(** The facts an accepted reveal establishes. *)
Definition reveal_facts (tx : CTransaction) (req : OPoIRequest) (stake : OPoIStake) (seedHash : Z)
    (vrfOutput : bytes) : Prop :=
  GetRequest (opoiRequestId tx) c = Some req /\ req_commitWindowClosed req = true
  /\ IsExpired req = false
  /\ req_responseReveals req !! opoiMinerAddress tx = None
  /\ GetResponseCommit (opoiRequestId tx) (opoiMinerAddress tx) c = Some (HexStr (response_commitment tx))
  /\ opoiResponseNonce tx <> []
  /\ GetStake (opoiMinerAddress tx) c = Some stake /\ Stake_IsActive stake = true
  /\ chainActive chain (req_blockHeight req) = Some seedHash
  /\ OPoIVRFVerify (stake_minerPubKey stake)
       (SHA256 (uint256_data seedHash ++ string_bytes (opoiRequestId tx))) (opoiVrfProof tx) = Some vrfOutput
  /\ le_value vrfOutput < uint256_SetHex (OPoIVrfThresholdForRequest c (opoiRequestId tx) params).

Lemma reveal_accepted_facts (tx : CTransaction) :
  nVersion tx = OPOI_TX_VERSION -> nType tx = OPOI_RESPONSE_TX_TYPE -> opoiResponsePhase tx <> 0 ->
  CheckOPoITransaction params chain false c tx = Accept ->
  exists req stake seedHash vrfOutput, reveal_facts tx req stake seedHash vrfOutput.
Proof.
  intros Hv Ht Hp Ha. unfold CheckOPoITransaction in Ha. rewrite Hv, Ht in Ha. cbn [Z.eqb negb Pos.eqb] in Ha.
  unfold DoS in Ha. apply accept_guard in Ha as [_ Ha].
  unfold CheckResponse, CheckResponseCommon, CheckResponseReveal, CheckRevealState in Ha.
  rewrite (proj2 (Z.eqb_neq _ _) Hp) in Ha. cbn [negb andb] in Ha.
  destruct (GetRequest (opoiRequestId tx) c) as [req|] eqn:Ereq; [|by accepted Ha].
  accepted Ha; try done. rewrite !negb_false_iff in *.
  match goal with V : CheckVrfSortition _ _ _ _ _ _ _ = None |- _ =>
    apply CheckVrfSortition_ok in V as (stake & out & Hst & Hver & Hlt) end.
  unfold GetOPoIRequestSeedHash in *. rewrite Ereq in *. 
  match goal with G : bool_decide (is_Some _) = false |- _ => apply bool_decide_eq_false, eq_None_not_Some in G end.
  match goal with G : bool_decide (_ = HexStr _) = true |- _ => apply bool_decide_eq_true in G; subst end.
  eexists req, stake, _, out. repeat split; eauto.
  - by destruct (opoiResponseNonce tx).
  - unfold IsActiveStaker in *. unfold GetStake in Hst. by rewrite Hst in *.
  - by rewrite app_nil_r in Hver.
Qed.

Lemma commit_accepted_window (tx : CTransaction) (req : OPoIRequest) :
  nVersion tx = OPOI_TX_VERSION -> nType tx = OPOI_RESPONSE_TX_TYPE -> opoiResponsePhase tx = 0 ->
  CheckOPoITransaction params chain false c tx = Accept -> GetRequest (opoiRequestId tx) c = Some req ->
  req_commitWindowClosed req = false.
Proof.
  intros Hv Ht Hp Ha Hr. apply accepted_by_rule in Ha as [_ Ha]; [|done]. rewrite Ht in Ha.
  destruct Ha as [[? _]|[[_ Ha]|Ha]]; [done| |repeat (destruct Ha as [[? _]|Ha]; [done|]); by destruct Ha].
  unfold CheckResponse, CheckResponseCommon, CheckResponseCommit in Ha. rewrite Hp, Hr in Ha.
  cbn [Z.eqb] in Ha. by accepted Ha.
Qed.

Lemma HexStr_SHA256_inj m m' : HexStr (SHA256 m) = HexStr (SHA256 m') -> SHA256 m = SHA256 m'.
Proof.
  intros E. rewrite <- (ParseHex_HexStr (SHA256 m)), <- (ParseHex_HexStr (SHA256 m')) by apply SHA256_range.
  by rewrite E.
Qed.

(** C19. An accepted RESPONSE reveal honours the commit-reveal discipline:
    its request is on chain with the commit window closed and no earlier
    reveal of this miner; the hash this miner committed to for this request
    is the SHA-256 of the revealed response, commitment, token count and
    (non-empty) nonce; the miner is an active staker, and its VRF proof for
    the hash of the request's block verifies under its staked key to an
    output below the request's threshold. *)
Theorem accepted_reveal_sound (tx : CTransaction) :
  nVersion tx = OPOI_TX_VERSION -> nType tx = OPOI_RESPONSE_TX_TYPE -> opoiResponsePhase tx <> 0 ->
  CheckOPoITransaction params chain false c tx = Accept ->
  exists req stake seedHash vrfOutput, reveal_facts tx req stake seedHash vrfOutput.
Proof. apply reveal_accepted_facts. Qed.

(** C20. No copying: against one cache, a commit and a reveal for the same
    request are never both acceptable, so no answer is public while commits
    are still taken; and a commit binds, in that two acceptable reveals of
    one miner for one request hash to the same committed digest. *)
Theorem commit_reveal_anti_copy (tx1 tx2 : CTransaction) :
  nVersion tx1 = OPOI_TX_VERSION -> nType tx1 = OPOI_RESPONSE_TX_TYPE ->
  nVersion tx2 = OPOI_TX_VERSION -> nType tx2 = OPOI_RESPONSE_TX_TYPE ->
  opoiRequestId tx1 = opoiRequestId tx2 -> opoiResponsePhase tx2 <> 0 ->
  CheckOPoITransaction params chain false c tx2 = Accept ->
  CheckOPoITransaction params chain false c tx1 = Accept ->
  opoiResponsePhase tx1 <> 0 /\
  (opoiMinerAddress tx1 = opoiMinerAddress tx2 -> response_commitment tx1 = response_commitment tx2).
Proof.
  intros Hv1 Ht1 Hv2 Ht2 Hid Hp2 Ha2 Ha1.
  destruct (reveal_accepted_facts tx2 Hv2 Ht2 Hp2 Ha2) as (req & st & sd & out & Hr & Hc & _ & _ & Hk & _).
  destruct (decide (opoiResponsePhase tx1 = 0)) as [Hp1|Hp1].
  { rewrite <- Hid in Hr. rewrite (commit_accepted_window tx1 req) in Hc; done. }
  split; [done|]. intros Hm.
  destruct (reveal_accepted_facts tx1 Hv1 Ht1 Hp1 Ha1) as (req1 & st1 & sd1 & out1 & _ & _ & _ & _ & Hk1 & _).
  rewrite Hid, Hm, Hk in Hk1. apply (inj Some) in Hk1. symmetry. exact (HexStr_SHA256_inj _ _ Hk1).
Qed.

(** The outpoint a collateral-bearing transaction pledges. *)
Definition pledged (tx : CTransaction) : option COutPoint :=
  if nType tx =? OPOI_STAKE_TX_TYPE then Some (opoiCollateralIn tx)
  else if (nType tx =? OPOI_CHALLENGE_TX_TYPE) && (opoiChallengePhase tx =? 0)
       then Some (opoiChallengerCollateralIn tx)
  else if nType tx =? OPOI_AUDITOR_VERIFY_TX_TYPE then Some (opoiAuditorCollateralIn tx)
  else None.

Lemma pledge_is_free (tx : CTransaction) (out : COutPoint) :
  nVersion tx = OPOI_TX_VERSION -> pledged tx = Some out ->
  CheckOPoITransaction params chain false c tx = Accept ->
  COutPoint_IsNull out = false /\ mapLockedUTXOs c !! out = None.
Proof.
  intros Hv Hp Ha. apply accepted_by_rule in Ha as [_ Ha]; [|done].
  assert (Hfree : COutPoint_IsNull out = false /\ IsLockedUTXO out c = false).
  { unfold pledged in Hp. repeat destruct Ha as [(E & Ha)|Ha]; [..|destruct Ha as (E & Ha)]; rewrite E in Hp;
      known_type Hp; try discriminate.
    - simplify_eq. unfold CheckStake, CheckCollateral in Ha. by accepted Ha.
    - destruct (opoiChallengePhase tx) eqn:Eph; [|done..]. simplify_eq.
      unfold CheckChallenge, CheckChallengeCommit, CheckCollateral in Ha. rewrite Eph in Ha. by accepted Ha.
    - simplify_eq. unfold CheckAuditorVerify, CheckAuditorTarget, CheckCollateral in Ha. by accepted Ha. }
  destruct Hfree as [? Hl]. split; [done|]. unfold IsLockedUTXO in Hl.
  by apply bool_decide_eq_false, eq_None_not_Some in Hl.
Qed.

(** A collateral is pledged once: an accepted STAKE, CHALLENGE commit or
    AUDITOR_VERIFY names a real outpoint that no stake, challenge or
    verification of the cache has locked. *)
Theorem accepted_collateral_is_free (tx : CTransaction) (out : COutPoint) :
  nVersion tx = OPOI_TX_VERSION -> pledged tx = Some out ->
  CheckOPoITransaction params chain false c tx = Accept ->
  COutPoint_IsNull out = false /\ mapLockedUTXOs c !! out = None.
Proof. apply pledge_is_free. Qed.

(** An accepted MODEL_REGISTER describes an executable model of a new
    identifier proposed by an active staker: a known architecture, at least
    one layer, between one and [numLayers] pipeline shards, no experts when
    dense, and otherwise between one and [numExperts] routed experts with one
    proof root each. *)
Theorem accepted_model_register_sound (tx : CTransaction) :
  nVersion tx = OPOI_TX_VERSION -> nType tx = OPOI_MODEL_REGISTER_TX_TYPE ->
  0 <= opoiModelNumLayers tx -> 0 <= opoiModelNumDenseShards tx ->
  0 <= opoiModelNumExperts tx -> 0 <= opoiModelTopKExperts tx ->
  CheckOPoITransaction params chain false c tx = Accept ->
  opoiModelId tx <> "" /\ GetModelManifest (opoiModelId tx) c = None
  /\ IsActiveStaker (opoiRequester tx) c = true /\ opoiPomRoot tx <> 0
  /\ 1 <= opoiModelNumDenseShards tx <= opoiModelNumLayers tx
  /\ ((opoiModelArchType tx = OPOI_ARCH_DENSE /\ opoiModelNumExperts tx = 0 /\ opoiModelTopKExperts tx = 0
        /\ opoiModelExpertPomRoots tx = [])
       \/ ((opoiModelArchType tx = OPOI_ARCH_MOE \/ opoiModelArchType tx = OPOI_ARCH_HYBRID)
          /\ 1 <= opoiModelTopKExperts tx <= opoiModelNumExperts tx
          /\ Z.of_nat (length (opoiModelExpertPomRoots tx)) = opoiModelNumExperts tx)).
Proof.
  intros Hv Ht HL Hn He Hk Ha. apply accepted_by_rule in Ha as [_ Ha]; [|done]. rewrite Ht in Ha.
  do 6 (destruct Ha as [[? _]|Ha]; [done|]). destruct Ha as [[_ Ha]|Ha];
    [|repeat (destruct Ha as [[? _]|Ha]; [done|]); by destruct Ha].
  unfold CheckModelRegister, str_empty, uint256_IsNull in Ha. cbn [negb andb] in Ha. accepted Ha.
  repeat match goal with
  | G : bool_decide _ = false |- _ => apply bool_decide_eq_false in G
  | G : negb _ = false |- _ => apply negb_false_iff in G
  | G : orb _ _ = false |- _ => apply orb_false_iff in G as [? ?]
  end.
  split; [done|]. split; [by apply eq_None_not_Some|]. split; [done|]. split; [by intros E; rewrite E in *|]. split; [lia|].
  destruct (Z.eqb_spec (opoiModelArchType tx) OPOI_ARCH_DENSE) as [Ed|Ed].
  - left. rewrite andb_true_l in *. destruct (opoiModelExpertPomRoots tx); cbn [is_nil] in *;
      repeat split; lia || done.
  - right. cbn [negb andb] in *. lia.
Qed.

(** A shaped manifest never trips the defensive bounds guard: the cross-check
    of a shard result depends only on the index, the hosting stake and the
    router hash. *)
Lemma shard_manifest_check tx manifest next :
  manifest_shape manifest -> 0 <= opoiShardIndex tx ->
  CheckShardAgainstManifest params c tx manifest next = Accept ->
  opoiShardIndex tx < meg_size manifest (ShouldCollapseToTitanSingleNode manifest params c)
  /\ next = Accept
  /\ forall d, BuildModelExecutionGraph manifest (ShouldCollapseToTitanSingleNode manifest params c)
              !! Z.to_nat (opoiShardIndex tx) = Some d -> shardType d = OPOI_SHARD_EXPERT ->
       opoiCommitment tx <> 0 /\
       exists stake, GetStake (opoiMinerAddress tx) c = Some stake /\ HostsExpert stake (expertId d) = true.
Proof.
  intros Hm Hi Ha. unfold CheckShardAgainstManifest in Ha. cbv zeta in Ha.
  pose proof (meg_length manifest (ShouldCollapseToTitanSingleNode manifest params c) Hm) as Hlen.
  destruct (_ !! Z.to_nat (opoiShardIndex tx)) as [d|] eqn:Ed; [|done].
  apply lookup_lt_Some in Ed as Hlt. split; [lia|].
  destruct (Z.eqb_spec (shardType d) OPOI_SHARD_EXPERT) as [Et|Et].
  - unfold DoS in Ha. apply accept_guard in Ha as [_ Ha]. apply accept_guard in Ha as [Hh Ha].
    apply accept_guard in Ha as [Hc Ha]. split; [done|]. intros d' [= <-] _. split.
    { unfold uint256_IsNull in Hc. lia. }
    destruct (GetStake _ c) as [stake|]; [|done]. exists stake. by apply negb_false_iff in Hh.
  - split; [done|]. intros d' [= <-] ?. done.
Qed.

(** An accepted SHARD_RESULT for a request of an active, well-formed
    model comes from an active staker whose VRF proof for this very shard
    verifies under its staked key to an output below the shard threshold;
    its index is a node of the model's execution graph; and when the node is
    an expert, the miner's stake declares that expert and the router hash is
    present. *)
Theorem accepted_shard_result_sound (tx : CTransaction) (req : OPoIRequest) (manifest : ModelManifest) :
  nVersion tx = OPOI_TX_VERSION -> nType tx = OPOI_SHARD_RESULT_TX_TYPE -> 0 <= opoiShardIndex tx ->
  GetRequest (opoiRequestId tx) c = Some req -> GetModelManifest (req_model req) c = Some manifest ->
  Manifest_IsActive manifest = true -> manifest_shape manifest ->
  CheckOPoITransaction params chain false c tx = Accept ->
  let collapse := ShouldCollapseToTitanSingleNode manifest params c in
  opoiShardIndex tx < meg_size manifest collapse /\
  exists stake seedHash vrfOutput,
    GetStake (opoiMinerAddress tx) c = Some stake /\ Stake_IsActive stake = true
    /\ chainActive chain (req_blockHeight req) = Some seedHash
    /\ OPoIVRFVerify (stake_minerPubKey stake)
         (SHA256 (uint256_data seedHash ++ string_bytes (opoiRequestId tx)
                  ++ string_bytes ("SHARD" +:+ dec (opoiShardIndex tx)))) (opoiVrfProof tx) = Some vrfOutput
    /\ le_value vrfOutput < uint256_SetHex (nOPoIShardThreshold params)
    /\ forall d, BuildModelExecutionGraph manifest collapse !! Z.to_nat (opoiShardIndex tx) = Some d ->
         shardType d = OPOI_SHARD_EXPERT -> HostsExpert stake (expertId d) = true /\ opoiCommitment tx <> 0.
Proof.
  intros Hv Ht Hi Hr Hmf Hact Hshape Ha. apply accepted_by_rule in Ha as [_ Ha]; [|done]. rewrite Ht in Ha.
  do 9 (destruct Ha as [[? _]|Ha]; [done|]). destruct Ha as [[_ Ha]|[? _]]; [|done].
  unfold CheckShardResult in Ha. rewrite Hr in Ha. cbv zeta in Ha. unfold DoS in Ha.
  do 4 (apply accept_guard in Ha as [? Ha]).
  unfold GetOPoIRequestSeedHash in Ha. rewrite Hr in Ha. change (Some req ≫= ?f) with (f req) in Ha. cbv beta in Ha.
  destruct (chainActive chain (req_blockHeight req)) as [seedHash|] eqn:Es; [|done].
  destruct (CheckVrfSortition _ _ _ _ _ _ _) eqn:Evrf; [done|].
  apply CheckVrfSortition_ok in Evrf as (stake & out & Hst & Hver & Hlt). rewrite Hmf, Hact in Ha.
  apply shard_manifest_check in Ha as (Hsz & _ & Hx); [|done..]. split; [done|].
  exists stake, seedHash, out. repeat split; try done.
  - apply negb_false_iff in H3. unfold IsActiveStaker in H3. unfold GetStake in Hst. by rewrite Hst in H3.
  - destruct (Hx d) as (? & st & Hst' & ?); [done..|]. congruence.
  - by destruct (Hx d) as (? & _).
Qed.
End acceptance.

(** The block caps: a block passes exactly when each capped kind of
    transaction does not exceed its cap, a cap of zero or less meaning none. *)
Lemma block_caps_spec (params : Params) (vtx : list CTransaction) :
  CheckOPoIBlockCaps params vtx = Accept <->
  (0 < nOPoIMaxRequestsPerBlock params -> count_type OPOI_REQUEST_TX_TYPE vtx <= nOPoIMaxRequestsPerBlock params) /\
  (0 < nOPoIMaxResponsesPerBlock params -> count_type OPOI_RESPONSE_TX_TYPE vtx <= nOPoIMaxResponsesPerBlock params).
Proof.
  unfold CheckOPoIBlockCaps, DoS. rewrite !accept_guard, !andb_false_iff, !Z.ltb_ge. split; [lia|].
  intros [H1 H2]. repeat split; lia.
Qed.

(** * Concrete instances *)

(** A toy instance of the interface: a signature is the address it signs for,
    and every proof verifies to the output zero. *)
#[local] Instance toyCrypto : Crypto := {|
  RecoverCompact _ sig := Some sig;
  GetID pk := pk;
  OPoIVRFVerify _ _ _ := Some (replicate 32 0);
  DecodeDestination address := CKeyID (string_bytes address)
|}.

Definition toyChain : Chain := fun _ => Some 5.

Definition sample_miner : OPoIStake :=
  mkOPoIStake "m" (mkCOutPoint 9 0) 1000 "GEMMA_3_4B" 1 3 4 4 1 7 OPOI_STAKE_ACTIVE 0 0 0 0 0 0 0
    (replicate 33 2) [2] "".

Definition sample_tx (ty : Z) : CTransaction :=
  emptyTx <| nVersion := OPOI_TX_VERSION |> <| nType := ty |> <| opoiRequestId := "r1" |>
    <| opoiMinerAddress := "m" |> <| opoiSig := string_bytes "m" |>.

Definition sample_reveal : CTransaction :=
  (sample_tx OPOI_RESPONSE_TX_TYPE) <| opoiResponsePhase := 1 |> <| opoiResponseHash := 21 |>
    <| opoiCommitment := 22 |> <| opoiTokenCount := 50 |> <| opoiResponseNonce := [1; 2; 3] |>
    <| opoiVrfProof := replicate 81 0 |>.

(** The state in which [sample_reveal] is due: committed, window closed. *)
Definition sample_open : OPoICache :=
  AddRequest ((sample_request 100 2) <| req_commitWindowClosed := true |>)
    (AddResponseCommit "r1" "m" (HexStr (response_commitment sample_reveal)) 101 33
      (AddStake sample_miner emptyCache)).

Lemma accepted_tx_is_signed_witness :
  let tx := sample_tx OPOI_RENEW_TX_TYPE in
  exists pk, DecodeDestination (actor tx) = CKeyID (GetID pk)
    /\ RecoverCompact (message_hash (signed_message tx)) (opoiSig tx) = Some pk
    /\ vin tx = [] /\ vout tx = [] /\ vJoinSplit tx = [].
Proof. apply (accepted_tx_is_signed mainParams toyChain emptyCache true); vm_compute; reflexivity. Defined.

Lemma sample_reveal_accepted :
  CheckOPoITransaction mainParams toyChain false sample_open sample_reveal = Accept.
Proof. vm_compute. reflexivity. Qed.

Lemma accepted_reveal_sound_witness :
  exists req stake seedHash vrfOutput,
    reveal_facts mainParams toyChain sample_open sample_reveal req stake seedHash vrfOutput.
Proof.
  apply accepted_reveal_sound; [reflexivity|reflexivity|discriminate|apply sample_reveal_accepted].
Defined.

Lemma commit_reveal_anti_copy_witness :
  opoiResponsePhase sample_reveal <> 0 /\
  (opoiMinerAddress sample_reveal = opoiMinerAddress sample_reveal ->
   response_commitment sample_reveal = response_commitment sample_reveal).
Proof.
  apply (commit_reveal_anti_copy mainParams toyChain sample_open);
    [reflexivity..|discriminate|apply sample_reveal_accepted|apply sample_reveal_accepted].
Defined.

Definition sample_pledge : CTransaction :=
  (sample_tx OPOI_STAKE_TX_TYPE) <| opoiCollateralIn := mkCOutPoint 0xabcd 1 |> <| opoiPayment := 1000 |>.

Lemma accepted_collateral_is_free_witness :
  COutPoint_IsNull (mkCOutPoint 0xabcd 1) = false /\ mapLockedUTXOs sample_open !! mkCOutPoint 0xabcd 1 = None.
Proof. apply (accepted_collateral_is_free mainParams toyChain sample_open sample_pledge); concrete. Defined.

Definition sample_register : CTransaction :=
  (sample_tx OPOI_MODEL_REGISTER_TX_TYPE) <| opoiModelId := "MIXTRAL" |> <| opoiRequester := "m" |>
    <| opoiModelArchType := OPOI_ARCH_MOE |> <| opoiModelNumLayers := 5 |> <| opoiModelNumDenseShards := 2 |>
    <| opoiModelNumExperts := 3 |> <| opoiModelTopKExperts := 1 |> <| opoiModelExpertPomRoots := [1; 2; 3] |>
    <| opoiPomRoot := 1 |>.

Lemma accepted_model_register_sound_witness :
  1 <= opoiModelNumDenseShards sample_register <= opoiModelNumLayers sample_register.
Proof. apply (accepted_model_register_sound mainParams toyChain sample_open sample_register); concrete. Defined.

Definition sample_shard_result : CTransaction :=
  (sample_tx OPOI_SHARD_RESULT_TX_TYPE) <| opoiShardIndex := 4 |> <| opoiResponseHash := 21 |>
    <| opoiCommitment := 22 |> <| opoiVrfProof := replicate 81 0 |>.

Definition sample_serving : OPoICache :=
  AddModelManifest sample_moe
    (AddRequest ((sample_request 100 2) <| req_model := "MIXTRAL" |>) (AddStake sample_miner emptyCache)).

Lemma accepted_shard_result_sound_witness :
  opoiShardIndex sample_shard_result < meg_size sample_moe false.
Proof.
  apply (accepted_shard_result_sound mainParams toyChain sample_serving sample_shard_result
           ((sample_request 100 2) <| req_model := "MIXTRAL" |>) sample_moe);
    [concrete..|split; vm_compute; repeat split; discriminate|concrete].
Defined.
