(* ===== verification/ProcessTx.v ===== *)
(** [ProcessOPoITransaction] (opoi/opoi.cpp): what a connected transaction does
    to the cache, and what disconnecting it undoes, one definition per branch.

    The theorems relate the two directions.  Undoing leaves empty lists where
    the map had no entry, so they hold up to [cache_equiv], the equivalence
    that no operation of the cache can tell from equality. *)

From stdpp Require Import gmap strings list.
From Stdlib Require Import ZArith Lia.
From S2P Require Import Prelude Params Uint256 Sha256 Serialize Transaction Platform Shard.
From S2P Require Import Records Majority Cache Sortition CheckTx.

Definition NO_SHARD : Z := OPOI_AUDITOR_VERIFY_NO_SHARD.

(** * Undo *)

Definition UndoResponseCommit (tx : CTransaction) (c : OPoICache) : OPoICache :=
  let key := CommitKey (opoiRequestId tx) (opoiMinerAddress tx) in
  c <| mapResponseCommits ::= delete key |>
    <| mapResponseCommitTxHash ::= delete key |>
    <| mapResponseCommitHeight ::= delete key |>
    <| mapRequests ::= alter (fun r => r <| req_responseCommits ::= delete (opoiMinerAddress tx) |>)
                         (opoiRequestId tx) |>.

Definition UndoResponseReveal (tx : CTransaction) (c : OPoICache) : OPoICache :=
  let c := c <| mapResponses ::= delete (opoiRequestId tx) |>
             <| mapRequests ::= alter (fun r => r <| req_status := OPOI_STATUS_PENDING |>
                  <| req_responseReveals ::= delete (opoiMinerAddress tx) |>) (opoiRequestId tx) |> in
  let c := UnmarkResponsePaid (opoiRequestId tx) c in
  c <| mapStakes ::= alter (fun s => if 0 <? stake_responsesTotal s
         then s <| stake_responsesTotal ::= fun n => n - 1 |> else s) (opoiMinerAddress tx) |>.

Definition UndoUnstake (tx : CTransaction) (c : OPoICache) : OPoICache :=
  c <| mapStakes ::= alter (fun s => s <| stake_stakeStatus := OPOI_STAKE_ACTIVE |>
         <| stake_unstakeHeight := 0 |> <| stake_unstakeTxHash := 0 |>) (opoiMinerAddress tx) |>.

Definition UndoChallengeReveal (tx : CTransaction) (c : OPoICache) : OPoICache :=
  match mapChallenges c !! opoiRequestId tx with
  | None => c
  | Some ch =>
    let c :=
      if ch_challengeStatus ch =? OPOI_CHALLENGE_SLASHED then
        let c :=
          match mapResponses c !! opoiRequestId tx with
          | Some resp => c <| mapStakes ::= alter (fun s => s <| stake_stakeStatus := OPOI_STAKE_ACTIVE |>)
                                              (resp_minerAddress resp) |>
          | None => c
          end in
        let c := LockUTXO (ch_challengerCollateral ch) (ch_challengerAddress ch) (ch_txHash ch) c in
        UnmarkChallengerRewardPaid (opoiRequestId tx) c
      else if ch_challengeStatus ch =? OPOI_CHALLENGE_RESOLVED_NO_ORACLE then
        LockUTXO (ch_challengerCollateral ch) (ch_challengerAddress ch) (ch_txHash ch) c
      else c in
    c <| mapChallenges ::= <[opoiRequestId tx := ch <| ch_phase := 0 |> <| ch_fraudProof := [] |>
           <| ch_challengeStatus := OPOI_CHALLENGE_OPEN |> <| ch_revealTxHash := 0 |>]> |>
  end.

(** The status of the first vote of an auditor, PENDING when there is none. *)
Fixpoint vote_status (auditor : string) (verifs : list AuditorVerification) : Z :=
  match verifs with
  | [] => OPOI_AUDITOR_STATUS_PENDING
  | v :: verifs' => if bool_decide (fv_auditorAddress v = auditor) then fv_status v else vote_status auditor verifs'
  end.

Definition without_vote (auditor : string) : list AuditorVerification -> list AuditorVerification :=
  List.filter (fun v => negb (bool_decide (fv_auditorAddress v = auditor))).

Definition UndoAuditorVerify (tx : CTransaction) (c : OPoICache) : OPoICache :=
  let isShardScoped := negb (opoiShardIndex tx =? NO_SHARD) in
  let key := if isShardScoped then ShardKey (opoiRequestId tx) (opoiShardIndex tx) else opoiRequestId tx in
  let verifMap := if isShardScoped then mapShardAuditorVerifications c else mapAuditorVerifications c in
  let status := vote_status (opoiAuditorAddress tx) (default [] (verifMap !! key)) in
  let c := if isShardScoped
           then c <| mapShardAuditorVerifications ::= alter (without_vote (opoiAuditorAddress tx)) key |>
           else c <| mapAuditorVerifications ::= alter (without_vote (opoiAuditorAddress tx)) key |> in
  let c := if negb (status =? OPOI_AUDITOR_STATUS_SLASHED) then UnlockUTXO (opoiAuditorCollateralIn tx) c else c in
  if negb isShardScoped then UnmarkAuditorResolved (opoiRequestId tx) c
  else UnmarkShardAuditorResolved (opoiRequestId tx) (opoiShardIndex tx) c.

Definition UndoShardResult (tx : CTransaction) (c : OPoICache) : OPoICache :=
  UnmarkShardPaid (opoiRequestId tx) (opoiShardIndex tx)
    (c <| mapShardResults ::= alter (List.filter (fun s =>
            negb (bool_decide (sub_minerAddress s = opoiMinerAddress tx))))
            (ShardKey (opoiRequestId tx) (opoiShardIndex tx)) |>).

Definition UndoCoordinatorClaim (tx : CTransaction) (c : OPoICache) : OPoICache :=
  c <| mapCoordinatorClaims ::= alter (List.filter (fun cl =>
         negb (bool_decide (claim_minerAddress cl = opoiMinerAddress tx)))) (opoiRequestId tx) |>.

Definition UndoOPoITransaction (tx : CTransaction) (c : OPoICache) : OPoICache :=
  if nType tx =? OPOI_REQUEST_TX_TYPE then c <| mapRequests ::= delete (opoiRequestId tx) |>
  else if nType tx =? OPOI_RESPONSE_TX_TYPE then
    (if opoiResponsePhase tx =? 0 then UndoResponseCommit tx c else UndoResponseReveal tx c)
  else if nType tx =? OPOI_STAKE_TX_TYPE then
    UnlockUTXO (opoiCollateralIn tx) (c <| mapStakes ::= delete (opoiMinerAddress tx) |>)
  else if nType tx =? OPOI_UNSTAKE_TX_TYPE then UndoUnstake tx c
  else if nType tx =? OPOI_RENEW_TX_TYPE then c
  else if nType tx =? OPOI_CHALLENGE_TX_TYPE then
    (if opoiChallengePhase tx =? 0
     then UnlockUTXO (opoiChallengerCollateralIn tx) c <| mapChallenges ::= delete (opoiRequestId tx) |>
     else UndoChallengeReveal tx c)
  else if nType tx =? OPOI_MODEL_REGISTER_TX_TYPE then
    c <| mapModelManifests ::= delete (opoiModelId tx) |> <| mapModelVotes ::= delete (opoiModelId tx) |>
  else if nType tx =? OPOI_MODEL_VOTE_TX_TYPE then
    c <| mapModelVotes ::= alter (delete (opoiRequester tx)) (opoiModelId tx) |>
  else if nType tx =? OPOI_COORDINATOR_CLAIM_TX_TYPE then UndoCoordinatorClaim tx c
  else if nType tx =? OPOI_SHARD_RESULT_TX_TYPE then UndoShardResult tx c
  else if nType tx =? OPOI_AUDITOR_VERIFY_TX_TYPE then UndoAuditorVerify tx c
  else c.

(** * Apply *)

Section apply.
Context `{Crypto} (pparams : option Params) (chain : Chain) (blockHeight : Z).

Definition request_of (tx : CTransaction) (c : OPoICache) : OPoIRequest := {|
  req_requestId := opoiRequestId tx;
  req_requester := opoiRequester tx;
  req_model := opoiModel tx;
  req_promptHash := opoiPromptHash tx;
  req_maxTokens := opoiMaxTokens tx;
  req_payment := opoiPayment tx;
  req_feePerToken := opoiFeePerToken tx;
  req_taskType := opoiTaskType tx;
  req_taskClass := opoiTaskClass tx;
  req_promptTokenCount := opoiPromptTokenCount tx;
  req_isCanary := opoiIsCanary tx;
  req_testSuite := opoiTestSuite tx;
  req_blockHeight := blockHeight;
  req_sigTime := opoiSigTime tx;
  req_txHash := GetHash tx;
  req_status := OPOI_STATUS_PENDING;
  req_responseCommits := ∅;
  req_responseReveals := ∅;
  req_commitWindowClosed := false;
  req_vrfActiveStakers := u32 (CountActiveStakers c);
|}.

Definition response_of (tx : CTransaction) (c : OPoICache) : OPoIResponse :=
  let '(selected, deadline) :=
    match pparams with
    | Some params => audit_sample chain c (opoiRequestId tx) (opoiMinerAddress tx) blockHeight params
    | None => (false, 0)
    end in {|
  resp_requestId := opoiRequestId tx;
  resp_minerAddress := opoiMinerAddress tx;
  resp_responseHash := opoiResponseHash tx;
  resp_commitment := opoiCommitment tx;
  resp_tokenCount := opoiTokenCount tx;
  resp_responsePhase := 1;
  resp_blockHeight := blockHeight;
  resp_sigTime := opoiSigTime tx;
  resp_txHash := GetHash tx;
  resp_auditSelected := (if selected then 1 else 0);
  resp_auditDeadline := deadline;
|}.

Definition ApplyResponseReveal (tx : CTransaction) (c : OPoICache) : OPoICache :=
  let c := AddResponse (response_of tx c) c in
  c <| mapStakes ::= alter (fun s => s <| stake_responsesTotal ::= fun n => u32 (n + 1) |>) (opoiMinerAddress tx) |>
    <| mapRequests ::= alter (fun r => r <| req_responseReveals ::=
         <[opoiMinerAddress tx := uint256_GetHex (opoiResponseHash tx)]> |>) (opoiRequestId tx) |>.

Definition stake_of (tx : CTransaction) : OPoIStake := {|
  stake_minerAddress := opoiMinerAddress tx;
  stake_collateralIn := opoiCollateralIn tx;
  stake_amount := opoiPayment tx;
  stake_modelId := opoiModelId tx;
  stake_tier := opoiTier tx;
  stake_pomRoot := opoiPomRoot tx;
  stake_blockHeight := blockHeight;
  stake_lastRenewalHeight := 0;
  stake_sigTime := opoiSigTime tx;
  stake_txHash := GetHash tx;
  stake_stakeStatus := OPOI_STAKE_ACTIVE;
  stake_unstakeHeight := 0;
  stake_unstakeTxHash := 0;
  stake_responsesTotal := 0;
  stake_responsesChallenged := 0;
  stake_responsesSlashed := 0;
  stake_canaryStrikes := 0;
  stake_canaryObligationDeadline := 0;
  stake_minerPubKey := default [] (VerifyOPoISig (opoiMinerAddress tx) (stake_sigMsg tx) (opoiSig tx));
  stake_hostedExpertIds := opoiHostedExpertIds tx;
  stake_endpoint := opoiEndpoint tx;
|}.

Definition ApplyRenew (tx : CTransaction) (c : OPoICache) : OPoICache :=
  c <| mapStakes ::= alter (fun s => s <| stake_lastRenewalHeight := blockHeight |>
         <| stake_canaryStrikes := 0 |> <| stake_stakeStatus := OPOI_STAKE_ACTIVE |>) (opoiMinerAddress tx) |>.

Definition challenge_of (tx : CTransaction) : OPoIChallenge := {|
  ch_requestId := opoiRequestId tx;
  ch_challengerAddress := opoiRequester tx;
  ch_fraudProof := [];
  ch_challengerCollateral := opoiChallengerCollateralIn tx;
  ch_phase := 0;
  ch_commitHash := HexStr (opoiCommitHash tx);
  ch_commitHeight := blockHeight;
  ch_blockHeight := blockHeight;
  ch_sigTime := opoiSigTime tx;
  ch_txHash := GetHash tx;
  ch_challengeStatus := OPOI_CHALLENGE_OPEN;
  ch_revealTxHash := 0;
|}.

(** The stake of the miner whose response a request got, updated. *)
Definition update_responder (requestId : string) (f : OPoIStake -> OPoIStake) (c : OPoICache) : OPoICache :=
  match mapResponses c !! requestId with
  | Some resp => c <| mapStakes ::= alter f (resp_minerAddress resp) |>
  | None => c
  end.

Definition ApplyChallengeCommit (tx : CTransaction) (c : OPoICache) : OPoICache :=
  let c := AddChallenge (challenge_of tx) c in
  let c := LockUTXO (opoiChallengerCollateralIn tx) (opoiRequester tx) (GetHash tx) c in
  update_responder (opoiRequestId tx)
    (fun s => s <| stake_responsesChallenged ::= fun n => u32 (n + 1) |>) c.

(** The slash of an active stake. *)
Definition slash_active (s : OPoIStake) : OPoIStake :=
  if Stake_IsActive s
  then s <| stake_stakeStatus := OPOI_STAKE_SLASHED |> <| stake_responsesSlashed ::= fun n => u32 (n + 1) |>
  else s.

Definition ApplyChallengeReveal (tx : CTransaction) (c : OPoICache) : OPoICache :=
  match mapChallenges c !! opoiRequestId tx with
  | None => c
  | Some ch =>
    let ch := ch <| ch_phase := 1 |> <| ch_fraudProof := opoiProofData tx |> <| ch_revealTxHash := GetHash tx |> in
    let oracle :=
      match GetRequest (opoiRequestId tx) c, pparams with
      | Some req, Some params => if IsVerifiable req then Some params else None
      | _, _ => None
      end in
    match oracle with
    | Some params =>
      let majority := GetAuditorMajorityResult (opoiRequestId tx) (nOPoIMinAuditors params) c in
      if majority =? AUDITOR_VERIFY_FAIL then
        let c := update_responder (opoiRequestId tx) slash_active c in
        let c := UnlockUTXO (ch_challengerCollateral ch) c in
        c <| mapChallenges ::= <[opoiRequestId tx := ch <| ch_challengeStatus := OPOI_CHALLENGE_SLASHED |>]> |>
      else if majority =? AUDITOR_VERIFY_PASS then
        c <| mapChallenges ::= <[opoiRequestId tx := ch <| ch_challengeStatus := OPOI_CHALLENGE_EXPIRED |>]> |>
      else
        c <| mapChallenges ::= <[opoiRequestId tx :=
               ch <| ch_challengeStatus := OPOI_CHALLENGE_REVEALED_PENDING |>]> |>
    | None =>
      (UnlockUTXO (ch_challengerCollateral ch) c) <| mapChallenges ::=
         <[opoiRequestId tx := ch <| ch_challengeStatus := OPOI_CHALLENGE_RESOLVED_NO_ORACLE |>]> |>
    end
  end.

Definition manifest_of (tx : CTransaction) : ModelManifest :=
  let voteWindow := match pparams with Some params => nOPoIModelVoteWindowBlocks params | None => 200 end in
  let m := {|
    modelId := opoiModelId tx;
    archType := opoiModelArchType tx;
    totalParams := opoiModelTotalParams tx;
    activeParamsPerToken := opoiModelActiveParamsPerToken tx;
    numLayers := opoiModelNumLayers tx;
    numDenseShards := opoiModelNumDenseShards tx;
    numExperts := opoiModelNumExperts tx;
    topKExperts := opoiModelTopKExperts tx;
    backbonePomRoot := opoiPomRoot tx;
    expertPomRoots := opoiModelExpertPomRoots tx;
    minRewardPerToken := opoiModelMinRewardPerToken tx;
    totalSizeBytes := opoiModelTotalSizeBytes tx;
    proposer := opoiRequester tx;
    proposedHeight := blockHeight;
    voteWindowEndHeight := u32 (blockHeight + u32 voteWindow);
    activationHeight := 0;
    mf_txHash := GetHash tx;
    mf_status := OPOI_MODEL_STATUS_VOTING;
    shardTopologyHash := 0 |} in
  m <| shardTopologyHash := ComputeShardTopologyHash m |>.

Definition vote_of (tx : CTransaction) (c : OPoICache) : ModelVoteRecord := {|
  voterAddress := opoiRequester tx;
  approve := negb (opoiModelVoteApprove tx =? 0);
  weight := match GetStake (opoiRequester tx) c with
            | Some s => if Stake_IsActive s then stake_amount s else 0
            | None => 0
            end;
  vote_blockHeight := blockHeight;
  vote_txHash := GetHash tx;
|}.

Definition claim_of (tx : CTransaction) : ShardCoordinatorClaim :=
  mkShardCoordinatorClaim (opoiRequestId tx) (opoiMinerAddress tx) blockHeight (GetHash tx).

Definition submission_of (tx : CTransaction) : ShardResultSubmission :=
  mkShardResultSubmission (opoiMinerAddress tx) (opoiResponseHash tx) (opoiCommitment tx) (opoiTokenCount tx)
    blockHeight (GetHash tx).

Definition verification_of (tx : CTransaction) : AuditorVerification :=
  mkAuditorVerification (opoiRequestId tx) (opoiAuditorAddress tx) (opoiAuditorVerifyResult tx)
    (opoiAuditorCollateralIn tx) blockHeight (GetHash tx) OPOI_AUDITOR_STATUS_PENDING (opoiShardIndex tx).

Definition ApplyOPoITransaction (tx : CTransaction) (c : OPoICache) : OPoICache :=
  if nType tx =? OPOI_REQUEST_TX_TYPE then AddRequest (request_of tx c) c
  else if (nType tx =? OPOI_RESPONSE_TX_TYPE) && (opoiResponsePhase tx =? 0) then
    AddResponseCommit (opoiRequestId tx) (opoiMinerAddress tx) (HexStr (opoiResponseCommitHash tx))
      blockHeight (GetHash tx) c
  else if nType tx =? OPOI_RESPONSE_TX_TYPE then ApplyResponseReveal tx c
  else if nType tx =? OPOI_STAKE_TX_TYPE then
    LockUTXO (opoiCollateralIn tx) (opoiMinerAddress tx) (GetHash tx) (AddStake (stake_of tx) c)
  else if nType tx =? OPOI_UNSTAKE_TX_TYPE then StartUnstake (opoiMinerAddress tx) blockHeight (GetHash tx) c
  else if nType tx =? OPOI_RENEW_TX_TYPE then ApplyRenew tx c
  else if (nType tx =? OPOI_CHALLENGE_TX_TYPE) && (opoiChallengePhase tx =? 0) then ApplyChallengeCommit tx c
  else if nType tx =? OPOI_CHALLENGE_TX_TYPE then ApplyChallengeReveal tx c
  else if nType tx =? OPOI_MODEL_REGISTER_TX_TYPE then AddModelManifest (manifest_of tx) c
  else if nType tx =? OPOI_MODEL_VOTE_TX_TYPE then AddModelVote (opoiModelId tx) (vote_of tx c) c
  else if nType tx =? OPOI_COORDINATOR_CLAIM_TX_TYPE then AddCoordinatorClaim (claim_of tx) c
  else if nType tx =? OPOI_SHARD_RESULT_TX_TYPE then
    AddShardResult (opoiRequestId tx) (opoiShardIndex tx) (submission_of tx) c
  else if nType tx =? OPOI_AUDITOR_VERIFY_TX_TYPE then
    (if opoiShardIndex tx =? NO_SHARD then AddAuditorVerification (verification_of tx) c
     else AddShardAuditorVerification (opoiRequestId tx) (opoiShardIndex tx) (verification_of tx) c)
  else c.

(** [ProcessOPoITransaction(tx, blockHeight, fUndo, pparams)]. *)
Definition ProcessOPoITransaction (fUndo : bool) (tx : CTransaction) (c : OPoICache) : OPoICache :=
  if negb (nVersion tx =? OPOI_TX_VERSION) then c
  else if fUndo then UndoOPoITransaction tx c
  else ApplyOPoITransaction tx c.
End apply.

(** * Undo inverts apply *)

(** Dropping the empty entries a map of lists may keep. *)
Definition drop_nil {A} : gmap string (list A) -> gmap string (list A) :=
  omap (fun l => match l with [] => None | _ => Some l end).
Definition drop_empty {A} : gmap string (gmap string A) -> gmap string (gmap string A) :=
  omap (fun m => if decide (m = ∅) then None else Some m).

Definition normalize (c : OPoICache) : OPoICache :=
  c <| mapAuditorVerifications ::= drop_nil |> <| mapShardAuditorVerifications ::= drop_nil |>
    <| mapCoordinatorClaims ::= drop_nil |> <| mapShardResults ::= drop_nil |>
    <| mapModelVotes ::= drop_empty |>.

(** Two caches that differ only in empty lists and empty ballots. *)
Definition cache_equiv (c c' : OPoICache) : Prop := normalize c = normalize c'.

#[global] Instance cache_equiv_equivalence : Equivalence cache_equiv.
Proof. unfold cache_equiv. split; repeat intro; congruence. Qed.

Lemma eq_cache_equiv c c' : c = c' -> cache_equiv c c'.
Proof. by intros ->. Qed.

Lemma remove_fresh (s : gset string) x : x ∉ s -> s ∖ {[x]} = s.
Proof. set_solver. Qed.

Lemma drop_nil_restore {A} (P : A -> bool) (m : gmap string (list A)) k x :
  P x = false -> (forall y, y ∈ default [] (m !! k) -> P y = true) ->
  drop_nil (alter (List.filter P) k (<[k := default [] (m !! k) ++ [x]]> m)) = drop_nil m.
Proof.
  intros Hx HP. apply map_eq. intros i. unfold drop_nil. rewrite !lookup_omap.
  destruct (decide (i = k)) as [->|Hi]; [|by rewrite lookup_alter_ne, lookup_insert_ne].
  rewrite lookup_alter_eq, lookup_insert_eq. cbn. rewrite List.filter_app. cbn. rewrite Hx, app_nil_r.
  replace (List.filter P (default [] (m !! k))) with (default [] (m !! k)).
  - by destruct (m !! k) as [[|]|].
  - induction (default [] (m !! k)) as [|y l IH]; [done|]. cbn. rewrite HP by left. f_equal. apply IH.
    intros z Hz. apply HP. by right.
Qed.

(** When a transaction leaves nothing behind after being undone: it is the
    first of its kind for its key.  RENEW and CHALLENGE are not listed, except
    for the reveals that end without a slash. *)
Definition fresh_lock (out : COutPoint) (c : OPoICache) : Prop :=
  mapLockedUTXOs c !! out = None /\ mapLockingTxHash c !! out = None.

Definition undoable (tx : CTransaction) (c : OPoICache) : Prop :=
  let id := opoiRequestId tx in let miner := opoiMinerAddress tx in
  (nType tx = OPOI_REQUEST_TX_TYPE /\ mapRequests c !! id = None)
  \/ (nType tx = OPOI_RESPONSE_TX_TYPE /\ opoiResponsePhase tx = 0
      /\ mapResponseCommits c !! CommitKey id miner = None
      /\ mapResponseCommitTxHash c !! CommitKey id miner = None
      /\ mapResponseCommitHeight c !! CommitKey id miner = None
      /\ forall r, mapRequests c !! id = Some r -> req_responseCommits r !! miner = None)
  \/ (nType tx = OPOI_RESPONSE_TX_TYPE /\ opoiResponsePhase tx <> 0
      /\ mapResponses c !! id = None /\ (id ∉ setPaidResponses c)
      /\ (forall r, mapRequests c !! id = Some r -> IsPending r = true /\ req_responseReveals r !! miner = None)
      /\ (forall s, mapStakes c !! miner = Some s -> 0 <= stake_responsesTotal s < 2 ^ 32 - 1))
  \/ (nType tx = OPOI_STAKE_TX_TYPE /\ mapStakes c !! miner = None /\ fresh_lock (opoiCollateralIn tx) c)
  \/ (nType tx = OPOI_UNSTAKE_TX_TYPE
      /\ exists s, mapStakes c !! miner = Some s /\ Stake_IsActive s = true
           /\ stake_unstakeHeight s = 0 /\ stake_unstakeTxHash s = 0)
  \/ (nType tx = OPOI_MODEL_REGISTER_TX_TYPE
      /\ mapModelManifests c !! opoiModelId tx = None /\ mapModelVotes c !! opoiModelId tx = None)
  \/ (nType tx = OPOI_MODEL_VOTE_TX_TYPE
      /\ (default ∅ (mapModelVotes c !! opoiModelId tx)) !! opoiRequester tx = None)
  \/ (nType tx = OPOI_COORDINATOR_CLAIM_TX_TYPE /\ IsClaimedCoordinator id miner c = false)
  \/ (nType tx = OPOI_SHARD_RESULT_TX_TYPE /\ IsShardPaid id (opoiShardIndex tx) c = false
      /\ forall s, s ∈ ListShardResults id (opoiShardIndex tx) c -> sub_minerAddress s <> miner)
  \/ (nType tx = OPOI_AUDITOR_VERIFY_TX_TYPE
      /\ COutPoint_IsNull (opoiAuditorCollateralIn tx) = false /\ fresh_lock (opoiAuditorCollateralIn tx) c
      /\ (if opoiShardIndex tx =? NO_SHARD
          then has_voted (opoiAuditorAddress tx) (GetAuditorVerifications id c) = false
               /\ IsAuditorResolved id c = false
          else has_voted (opoiAuditorAddress tx) (GetShardAuditorVerifications id (opoiShardIndex tx) c) = false
               /\ IsShardAuditorResolved id (opoiShardIndex tx) c = false)).

Section roundtrip.
Context `{Crypto} (pparams : option Params) (chain : Chain) (height : Z).

Lemma undo_response_commit tx c :
  mapResponseCommits c !! CommitKey (opoiRequestId tx) (opoiMinerAddress tx) = None ->
  mapResponseCommitTxHash c !! CommitKey (opoiRequestId tx) (opoiMinerAddress tx) = None ->
  mapResponseCommitHeight c !! CommitKey (opoiRequestId tx) (opoiMinerAddress tx) = None ->
  (forall r, mapRequests c !! opoiRequestId tx = Some r -> req_responseCommits r !! opoiMinerAddress tx = None) ->
  forall h txh d, UndoResponseCommit tx (AddResponseCommit (opoiRequestId tx) (opoiMinerAddress tx) d h txh c) = c.
Proof.
  intros H1 H2 H3 Hr h txh d. destruct c. unfold UndoResponseCommit, AddResponseCommit. cbn in *.
  rewrite !delete_insert_id by done. rewrite alter_alter_eq, alter_id; [done|].
  intros r Hk. destruct r. cbn. rewrite delete_insert_id; [done|]. by apply (Hr _ Hk).
Qed.

Lemma undo_response_reveal tx c :
  mapResponses c !! opoiRequestId tx = None -> opoiRequestId tx ∉ setPaidResponses c ->
  (forall r, mapRequests c !! opoiRequestId tx = Some r ->
     IsPending r = true /\ req_responseReveals r !! opoiMinerAddress tx = None) ->
  (forall s, mapStakes c !! opoiMinerAddress tx = Some s -> 0 <= stake_responsesTotal s < 2 ^ 32 - 1) ->
  UndoResponseReveal tx (ApplyResponseReveal pparams chain height tx c) = c.
Proof.
  intros Hresp Hpaid Hr Hs. unfold ApplyResponseReveal, UndoResponseReveal, AddResponse, UnmarkResponsePaid.
  assert (Hrev : IsRevealed (response_of pparams chain height tx c) = true /\
                 resp_requestId (response_of pparams chain height tx c) = opoiRequestId tx).
  { unfold response_of. by destruct (match pparams with Some _ => _ | None => _ end). }
  destruct Hrev as [-> ->]. generalize (response_of pparams chain height tx c) as resp. intros resp.
  destruct c. cbn in *. rewrite delete_insert_id, remove_fresh by done.
  rewrite !alter_alter_eq, !alter_id; [done|..].
  - intros s Hk. specialize (Hs _ Hk). destruct s. cbn in *. rewrite u32_small by (unfold in_u32; lia).
    rewrite (proj2 (Z.ltb_lt 0 (stake_responsesTotal + 1))) by lia. f_equal. lia.
  - intros r Hk. destruct (Hr _ Hk) as [Hp Hn]. destruct r. unfold IsPending in Hp. cbn in *.
    rewrite delete_insert_id by done. f_equal. lia.
Qed.

Lemma undo_stake tx c :
  mapStakes c !! opoiMinerAddress tx = None -> fresh_lock (opoiCollateralIn tx) c -> forall h,
  UnlockUTXO (opoiCollateralIn tx)
    ((LockUTXO (opoiCollateralIn tx) (opoiMinerAddress tx) h (AddStake (stake_of height tx) c))
       <| mapStakes ::= delete (opoiMinerAddress tx) |>) = c.
Proof.
  intros Hs [Hl1 Hl2] h. destruct c. unfold UnlockUTXO, LockUTXO, AddStake. cbn in *.
  by rewrite !delete_insert_id by done.
Qed.

Lemma undo_unstake tx c s h :
  mapStakes c !! opoiMinerAddress tx = Some s -> Stake_IsActive s = true ->
  stake_unstakeHeight s = 0 -> stake_unstakeTxHash s = 0 ->
  UndoUnstake tx (StartUnstake (opoiMinerAddress tx) height h c) = c.
Proof.
  intros Hs Ha Hh Ht. unfold StartUnstake, IsActiveStaker. rewrite Hs, Ha. destruct c. unfold UndoUnstake. cbn in *.
  rewrite alter_alter_eq, alter_id; [done|]. intros s' Hk. simplify_eq. unfold Stake_IsActive in Ha. destruct s. cbn in *.
  subst. f_equal. lia.
Qed.

Lemma undo_model_register tx m c :
  mapModelManifests c !! modelId m = None -> mapModelVotes c !! modelId m = None -> opoiModelId tx = modelId m ->
  (AddModelManifest m c) <| mapModelManifests ::= delete (opoiModelId tx) |>
                        <| mapModelVotes ::= delete (opoiModelId tx) |> = c.
Proof.
  intros Hm Hv ->. destruct c. unfold AddModelManifest. cbn in *. rewrite delete_insert_id, delete_id by done. done.
Qed.

Lemma drop_empty_restore {A} (m : gmap string (gmap string A)) k j v :
  (default ∅ (m !! k)) !! j = None ->
  drop_empty (alter (delete j) k (<[k := <[j := v]> (default ∅ (m !! k))]> m)) = drop_empty m.
Proof.
  intros Hj. apply map_eq. intros i. unfold drop_empty. rewrite !lookup_omap.
  destruct (decide (i = k)) as [->|Hi]; [|by rewrite lookup_alter_ne, lookup_insert_ne].
  rewrite lookup_alter_eq, lookup_insert_eq. cbn. rewrite delete_insert_id by done.
  destruct (m !! k) as [v'|]; cbn; [done|]. by rewrite decide_True.
Qed.

Lemma undo_model_vote tx rec c :
  voterAddress rec = opoiRequester tx ->
  (default ∅ (mapModelVotes c !! opoiModelId tx)) !! opoiRequester tx = None ->
  cache_equiv ((AddModelVote (opoiModelId tx) rec c)
                 <| mapModelVotes ::= alter (delete (opoiRequester tx)) (opoiModelId tx) |>) c.
Proof.
  intros Hv Hn. unfold cache_equiv, AddModelVote. destruct (mapModelManifests c !! opoiModelId tx).
  - destruct c. unfold normalize. cbn in *. rewrite Hv, drop_empty_restore by done. done.
  - destruct c. unfold normalize. cbn in *. do 2 f_equal. apply alter_id. intros vs Hk. rewrite Hk in Hn.
    by apply delete_id.
Qed.

Lemma existsb_false_elem {A} (f : A -> bool) l : existsb f l = false -> forall x, x ∈ l -> f x = false.
Proof.
  intros He x Hx. apply not_true_is_false. intros Hf. apply not_true_iff_false in He. apply He.
  apply existsb_exists. exists x. by rewrite <- list_elem_of_In.
Qed.

Lemma undo_coordinator_claim tx c h :
  IsClaimedCoordinator (opoiRequestId tx) (opoiMinerAddress tx) c = false ->
  cache_equiv (UndoCoordinatorClaim tx
    (AddCoordinatorClaim (mkShardCoordinatorClaim (opoiRequestId tx) (opoiMinerAddress tx) height h) c)) c.
Proof.
  intros Hn. unfold cache_equiv, AddCoordinatorClaim, UndoCoordinatorClaim. cbn [claim_requestId claim_minerAddress].
  unfold IsClaimedCoordinator in Hn. rewrite Hn. destruct c. unfold normalize. cbn in *.
  rewrite drop_nil_restore; [done|by rewrite bool_decide_eq_true_2|].
  intros y Hy. by rewrite (existsb_false_elem _ _ Hn).
Qed.

Lemma undo_shard_result tx c sub :
  sub_minerAddress sub = opoiMinerAddress tx ->
  IsShardPaid (opoiRequestId tx) (opoiShardIndex tx) c = false ->
  (forall s, s ∈ ListShardResults (opoiRequestId tx) (opoiShardIndex tx) c -> sub_minerAddress s <> opoiMinerAddress tx) ->
  cache_equiv (UndoShardResult tx (AddShardResult (opoiRequestId tx) (opoiShardIndex tx) sub c)) c.
Proof.
  intros Hsub Hp Hn. unfold cache_equiv, UndoShardResult, AddShardResult, UnmarkShardPaid. rewrite Hsub.
  unfold ListShardResults in Hn. unfold IsShardPaid in Hp. apply bool_decide_eq_false in Hp.
  destruct (existsb _ _) eqn:E.
  { apply existsb_exists in E as (s & Hs & Heq). apply list_elem_of_In in Hs. apply bool_decide_eq_true in Heq.
    by destruct (Hn s Hs). }
  clear E. destruct c. unfold normalize. cbn in *. rewrite remove_fresh by done. rewrite drop_nil_restore; [done|..].
  - by rewrite bool_decide_eq_true_2.
  - intros y Hy. rewrite bool_decide_eq_false_2; [done|]. by apply Hn.
Qed.

Lemma vote_status_fresh a verifs fv :
  has_voted a verifs = false -> fv_auditorAddress fv = a -> vote_status a (verifs ++ [fv]) = fv_status fv.
Proof.
  intros Hn Ha. induction verifs as [|v verifs IH]; cbn in *.
  - by rewrite bool_decide_eq_true_2.
  - apply orb_false_iff in Hn as [-> Hn]. by apply IH.
Qed.

Lemma undo_auditor_verify tx c :
  COutPoint_IsNull (opoiAuditorCollateralIn tx) = false -> fresh_lock (opoiAuditorCollateralIn tx) c ->
  (if opoiShardIndex tx =? NO_SHARD
   then has_voted (opoiAuditorAddress tx) (GetAuditorVerifications (opoiRequestId tx) c) = false
        /\ IsAuditorResolved (opoiRequestId tx) c = false
   else has_voted (opoiAuditorAddress tx)
          (GetShardAuditorVerifications (opoiRequestId tx) (opoiShardIndex tx) c) = false
        /\ IsShardAuditorResolved (opoiRequestId tx) (opoiShardIndex tx) c = false) ->
  cache_equiv (UndoAuditorVerify tx
    (if opoiShardIndex tx =? NO_SHARD then AddAuditorVerification (verification_of height tx) c
     else AddShardAuditorVerification (opoiRequestId tx) (opoiShardIndex tx) (verification_of height tx) c)) c.
Proof.
  intros Hnull [Hl1 Hl2] Hv.
  unfold cache_equiv, UndoAuditorVerify, AddAuditorVerification, AddShardAuditorVerification, lock_auditor,
    UnlockUTXO, UnmarkAuditorResolved, UnmarkShardAuditorResolved, without_vote.
  unfold GetAuditorVerifications, GetShardAuditorVerifications, IsAuditorResolved, IsShardAuditorResolved in Hv.
  unfold verification_of. generalize (GetHash tx) as txh. intros txh.
  cbn [fv_requestId fv_auditorAddress fv_auditorCollateral fv_txHash]. rewrite Hnull.
  destruct (opoiShardIndex tx =? NO_SHARD); destruct Hv as [Hv Hr]; rewrite Hv; cbn [negb];
    apply bool_decide_eq_false in Hr; destruct c; unfold normalize; cbn in *;
    rewrite lookup_insert_eq; cbn [from_option id]; rewrite vote_status_fresh by done; cbn;
    rewrite !delete_insert_id, remove_fresh by done; (rewrite drop_nil_restore; [done|by rewrite bool_decide_eq_true_2|]);
    intros y Hy; by rewrite (existsb_false_elem _ _ Hv).
Qed.

Lemma undo_after_apply (pparams' : option Params) (tx : CTransaction) (c : OPoICache) :
  (nVersion tx = OPOI_TX_VERSION -> undoable tx c) ->
  cache_equiv (ProcessOPoITransaction pparams' chain height true tx
                 (ProcessOPoITransaction pparams chain height false tx c)) c.
Proof.
  unfold ProcessOPoITransaction. destruct (Z.eqb_spec (nVersion tx) OPOI_TX_VERSION) as [Hv8|]; [|done].
  cbn [negb]. intros Hu. specialize (Hu Hv8). revert Hu.
  unfold UndoOPoITransaction, ApplyOPoITransaction.
  intros [[-> Hf]|[(-> & Hp & H1 & H2 & H3 & Hf)|[(-> & Hp & H1 & H2 & H3 & Hf)|[(-> & Hs & Hl)|[(-> & s & Hs & Ha & Hh & Ht)
    |[(-> & Hm & Hv)|[(-> & Hv)|[(-> & Hc)|[(-> & Hp & Hn)|(-> & Hnull & Hl & Hv)]]]]]]]]]; cbn.
  - apply eq_cache_equiv. unfold AddRequest. destruct c. cbn in *. by rewrite delete_insert_id.
  - rewrite Hp. cbn. by apply eq_cache_equiv, undo_response_commit.
  - rewrite (proj2 (Z.eqb_neq _ _) Hp). by apply eq_cache_equiv, undo_response_reveal.
  - by apply eq_cache_equiv, (undo_stake tx c).
  - by apply eq_cache_equiv, (undo_unstake tx c s).
  - by apply eq_cache_equiv, (undo_model_register tx (manifest_of pparams height tx) c).
  - by apply (undo_model_vote tx (vote_of height tx c) c).
  - by apply undo_coordinator_claim.
  - by apply undo_shard_result.
  - by apply undo_auditor_verify.
Qed.

(** Disconnecting what was connected: for every transaction that is the
    first of its kind for its key (a new request, a first commit, a first
    reveal of a pending request, a stake of a new miner, an unstake, a model
    registration, a first vote, a first coordinator claim, a first shard
    result, a first verification), undoing it right after applying it
    restores the cache, up to entries left as empty lists. *)
Theorem undo_inverts_apply (tx : CTransaction) (c : OPoICache) :
  undoable tx c ->
  cache_equiv (ProcessOPoITransaction pparams chain height true tx
                 (ProcessOPoITransaction pparams chain height false tx c)) c.
Proof. intros Hu. by apply undo_after_apply. Qed.

(** Whether the auditors' verdict proves fraud at the time of a reveal. *)
Definition fraud_proven (requestId : string) (c : OPoICache) : bool :=
  match GetRequest requestId c, pparams with
  | Some req, Some params =>
    IsVerifiable req && (GetAuditorMajorityResult requestId (nOPoIMinAuditors params) c =? AUDITOR_VERIFY_FAIL)
  | _, _ => false
  end.

(** A challenge as its commit left it, with its collateral locked. *)
Definition committed_challenge (requestId : string) (ch : OPoIChallenge) (c : OPoICache) : Prop :=
  mapChallenges c !! requestId = Some ch /\ IsOpen ch = true /\ ch_phase ch = 0 /\ ch_fraudProof ch = []
  /\ ch_revealTxHash ch = 0 /\ (requestId ∉ setPaidChallengerRewards c)
  /\ mapLockedUTXOs c !! ch_challengerCollateral ch = Some (ch_challengerAddress ch)
  /\ mapLockingTxHash c !! ch_challengerCollateral ch = Some (ch_txHash ch).

(** What the reveal writes into the challenge, and what its undo resets. *)
Definition revealed_challenge (tx : CTransaction) (txh st : Z) (ch : OPoIChallenge) : OPoIChallenge :=
  ch <| ch_phase := 1 |> <| ch_fraudProof := opoiProofData tx |> <| ch_revealTxHash := txh |>
     <| ch_challengeStatus := st |>.
Definition reset_challenge (ch : OPoIChallenge) : OPoIChallenge :=
  ch <| ch_phase := 0 |> <| ch_fraudProof := [] |> <| ch_challengeStatus := OPOI_CHALLENGE_OPEN |>
     <| ch_revealTxHash := 0 |>.

Lemma reset_revealed tx txh st ch requestId c :
  committed_challenge requestId ch c -> reset_challenge (revealed_challenge tx txh st ch) = ch.
Proof.
  intros (_ & Ho & Hph & Hfp & Hrt & _). apply Z.eqb_eq in Ho. destruct ch. cbn in *. by subst.
Qed.

Lemma restore_challenge tx txh st ch requestId c :
  committed_challenge requestId ch c ->
  <[requestId := reset_challenge (revealed_challenge tx txh st ch)]> (mapChallenges c) = mapChallenges c.
Proof. intros Hc. rewrite (reset_revealed _ _ _ _ _ _ Hc). apply insert_id, Hc. Qed.

Lemma undo_challenge_reveal tx ch c :
  committed_challenge (opoiRequestId tx) ch c ->
  UndoChallengeReveal tx (ApplyChallengeReveal pparams tx c) =
  (if fraud_proven (opoiRequestId tx) c
   then update_responder (opoiRequestId tx) (fun s => (slash_active s) <| stake_stakeStatus := OPOI_STAKE_ACTIVE |>) c
   else c).
Proof.
  intros Hc. pose proof Hc as (Hch & _ & _ & _ & _ & Hpaid & Hl1 & Hl2).
  pose proof (fun txh st => restore_challenge tx txh st ch _ c Hc) as Hr. unfold reset_challenge, revealed_challenge in Hr.
  unfold ApplyChallengeReveal, fraud_proven. rewrite Hch. generalize (GetHash tx) as txh. intros txh. cbv zeta.
  assert (Hno : UndoChallengeReveal tx ((UnlockUTXO (ch_challengerCollateral ch) c) <| mapChallenges ::=
    <[opoiRequestId tx := revealed_challenge tx txh OPOI_CHALLENGE_RESOLVED_NO_ORACLE ch]> |>) = c).
  { unfold UndoChallengeReveal, LockUTXO, UnlockUTXO. destruct c. cbn in *. rewrite lookup_insert_eq.
    cbn. rewrite !insert_delete_eq, !insert_insert_eq. f_equal; [apply (Hr 0 0)|by apply insert_id..]. }
  destruct (GetRequest (opoiRequestId tx) c) as [req|], pparams as [params|]; try exact Hno.
  destruct (IsVerifiable req); [|exact Hno]. cbn [andb]. clear Hno.
  destruct (_ =? AUDITOR_VERIFY_FAIL); [|destruct (_ =? AUDITOR_VERIFY_PASS)].
  - unfold UndoChallengeReveal, update_responder, LockUTXO, UnlockUTXO, UnmarkChallengerRewardPaid.
    destruct (mapResponses c !! opoiRequestId tx) as [resp|] eqn:Eresp; destruct c; cbn in *;
      rewrite lookup_insert_eq; cbn; rewrite Eresp; cbn;
      rewrite ?alter_alter_eq, !insert_delete_eq, !insert_insert_eq, remove_fresh by done;
      (f_equal; [apply (Hr 0 0)|by apply insert_id..]).
  - unfold UndoChallengeReveal. destruct c. cbn in *. rewrite lookup_insert_eq. cbn. rewrite insert_insert_eq.
    f_equal. apply (Hr 0 0).
  - unfold UndoChallengeReveal. destruct c. cbn in *. rewrite lookup_insert_eq. cbn. rewrite insert_insert_eq.
    f_equal. apply (Hr 0 0).
Qed.

Lemma undo_challenge_commit tx c :
  mapChallenges c !! opoiRequestId tx = None -> fresh_lock (opoiChallengerCollateralIn tx) c ->
  UnlockUTXO (opoiChallengerCollateralIn tx)
    ((ApplyChallengeCommit height tx c) <| mapChallenges ::= delete (opoiRequestId tx) |>) =
  update_responder (opoiRequestId tx) (fun s => s <| stake_responsesChallenged ::= fun n => u32 (n + 1) |>) c.
Proof.
  intros Hch [Hl1 Hl2]. unfold ApplyChallengeCommit, update_responder, UnlockUTXO, LockUTXO, AddChallenge, challenge_of.
  generalize (GetHash tx) as txh. intros txh. destruct c. cbn in *.
  destruct (mapResponses !! opoiRequestId tx); cbn; by rewrite !delete_insert_id.
Qed.

(** Disconnecting a challenge restores the cache except for one stake.
    Undoing a commit leaves the responder's challenge counter raised.
    Undoing a reveal leaves nothing behind unless the auditors had proven
    fraud; in that case the responder keeps the slash in its counter, and
    becomes ACTIVE whatever its status was before. *)
Theorem challenge_undo_residue (tx : CTransaction) (ch : OPoIChallenge) (c : OPoICache) :
  nVersion tx = OPOI_TX_VERSION -> nType tx = OPOI_CHALLENGE_TX_TYPE ->
  (if opoiChallengePhase tx =? 0
   then mapChallenges c !! opoiRequestId tx = None /\ fresh_lock (opoiChallengerCollateralIn tx) c
   else committed_challenge (opoiRequestId tx) ch c) ->
  ProcessOPoITransaction pparams chain height true tx (ProcessOPoITransaction pparams chain height false tx c) =
  (if opoiChallengePhase tx =? 0
   then update_responder (opoiRequestId tx) (fun s => s <| stake_responsesChallenged ::= fun n => u32 (n + 1) |>) c
   else if fraud_proven (opoiRequestId tx) c
   then update_responder (opoiRequestId tx) (fun s => (slash_active s) <| stake_stakeStatus := OPOI_STAKE_ACTIVE |>) c
   else c).
Proof.
  intros Hv Ht Hc. unfold ProcessOPoITransaction, UndoOPoITransaction, ApplyOPoITransaction. rewrite Hv, Ht.
  destruct (opoiChallengePhase tx =? 0); known_types.
  - destruct Hc. by apply undo_challenge_commit.
  - by apply (undo_challenge_reveal tx ch).
Qed.
End roundtrip.

(** * Undo respects the equivalence *)

Lemma drop_nil_alter {A} (P : A -> bool) k (m : gmap string (list A)) :
  drop_nil (alter (List.filter P) k (drop_nil m)) = drop_nil (alter (List.filter P) k m).
Proof.
  apply map_eq. intros i. unfold drop_nil. rewrite !lookup_omap.
  destruct (decide (i = k)) as [->|Hi].
  - rewrite !lookup_alter_eq, lookup_omap. by destruct (m !! k) as [[|x l]|].
  - rewrite !lookup_alter_ne, lookup_omap by done. by destruct (m !! i) as [[|x l]|].
Qed.

Lemma drop_nil_idemp {A} (m : gmap string (list A)) : drop_nil (drop_nil m) = drop_nil m.
Proof. apply map_eq. intros i. unfold drop_nil. rewrite !lookup_omap. by destruct (m !! i) as [[|x l]|]. Qed.

Lemma default_drop_nil {A} (m : gmap string (list A)) k : default [] (drop_nil m !! k) = default [] (m !! k).
Proof. unfold drop_nil. rewrite lookup_omap. by destruct (m !! k) as [[|x l]|]. Qed.

Lemma drop_empty_alter {A} j k (m : gmap string (gmap string A)) :
  drop_empty (alter (delete j) k (drop_empty m)) = drop_empty (alter (delete j) k m).
Proof.
  apply map_eq. intros i. unfold drop_empty. rewrite !lookup_omap.
  destruct (decide (i = k)) as [->|Hi].
  - rewrite !lookup_alter_eq, lookup_omap. destruct (m !! k) as [v|]; [|done]. cbn.
    destruct (decide (v = ∅)) as [->|Hv]; [|done]. cbn. rewrite delete_empty. by rewrite decide_True.
  - rewrite !lookup_alter_ne, lookup_omap by done. destruct (m !! i) as [v|]; [|done]. cbn.
    by destruct (decide (v = ∅)) as [->|Hv]; cbn; [|rewrite decide_False].
Qed.

Lemma drop_empty_idemp {A} (m : gmap string (gmap string A)) : drop_empty (drop_empty m) = drop_empty m.
Proof.
  apply map_eq. intros i. unfold drop_empty. rewrite !lookup_omap. destruct (m !! i) as [v|]; [|done]. cbn.
  by destruct (decide (v = ∅)) as [->|Hv]; cbn; [|rewrite decide_False].
Qed.

Lemma drop_empty_delete {A} k (m : gmap string (gmap string A)) :
  drop_empty (delete k (drop_empty m)) = drop_empty (delete k m).
Proof.
  unfold drop_empty. rewrite !omap_delete. f_equal. apply (drop_empty_idemp m).
Qed.

(** Compares two normal forms field by field. *)
Ltac same_normal_form :=
  match goal with c : OPoICache |- _ => destruct c end; unfold normalize; cbn;
  rewrite ?drop_nil_alter, ?drop_nil_idemp, ?default_drop_nil, ?drop_empty_alter, ?drop_empty_idemp,
    ?drop_empty_delete; reflexivity.

Lemma undo_challenge_normalize tx c :
  normalize (UndoChallengeReveal tx (normalize c)) = normalize (UndoChallengeReveal tx c).
Proof.
  unfold UndoChallengeReveal. change (mapChallenges (normalize c)) with (mapChallenges c).
  destruct (mapChallenges c !! opoiRequestId tx) as [ch|]; [|same_normal_form]. cbv zeta.
  change (mapResponses (normalize c)) with (mapResponses c).
  destruct (_ =? OPOI_CHALLENGE_SLASHED); [|destruct (_ =? OPOI_CHALLENGE_RESOLVED_NO_ORACLE); same_normal_form].
  destruct (mapResponses c !! opoiRequestId tx); same_normal_form.
Qed.

Lemma undo_auditor_normalize tx c :
  normalize (UndoAuditorVerify tx (normalize c)) = normalize (UndoAuditorVerify tx c).
Proof.
  unfold UndoAuditorVerify, without_vote. destruct (opoiShardIndex tx =? NO_SHARD); cbn [negb].
  - change (mapAuditorVerifications (normalize c)) with (drop_nil (mapAuditorVerifications c)).
    rewrite default_drop_nil. destruct (_ =? OPOI_AUDITOR_STATUS_SLASHED); same_normal_form.
  - change (mapShardAuditorVerifications (normalize c)) with (drop_nil (mapShardAuditorVerifications c)).
    rewrite default_drop_nil. destruct (_ =? OPOI_AUDITOR_STATUS_SLASHED); same_normal_form.
Qed.

Lemma undo_normalize tx c : normalize (UndoOPoITransaction tx (normalize c)) = normalize (UndoOPoITransaction tx c).
Proof.
  unfold UndoOPoITransaction.
  repeat match goal with |- normalize (if ?b then _ else _) = normalize (if ?b then _ else _) => destruct b end;
    lazymatch goal with
    | |- context [UndoChallengeReveal] => apply undo_challenge_normalize
    | |- context [UndoAuditorVerify] => apply undo_auditor_normalize
    | _ => same_normal_form
    end.
Qed.

#[global] Instance undo_proper tx : Proper (cache_equiv ==> cache_equiv) (UndoOPoITransaction tx).
Proof. intros c c' Hc. unfold cache_equiv in *. by rewrite <- (undo_normalize tx c), Hc, undo_normalize. Qed.

(** * Blocks *)

Section block.
Context `{Crypto} (params : Params) (chain : Chain) (height : Z).

(** The apply loop of ConnectBlock over a block's transactions. *)
Definition ApplyBlock (vtx : list CTransaction) (c : OPoICache) : OPoICache :=
  foldl (fun c tx => ProcessOPoITransaction (Some params) chain height false tx c) c vtx.

(** The undo loop of DisconnectBlock and of ConnectBlock's guard, from the
    last transaction to the first; no parameters are passed. *)
Definition UndoBlock (vtx : list CTransaction) (c : OPoICache) : OPoICache :=
  foldl (fun c tx => ProcessOPoITransaction None chain height true tx c) c (rev vtx).

(** Every transaction of a block is undoable where it is applied. *)
Fixpoint undoable_block (vtx : list CTransaction) (c : OPoICache) : Prop :=
  match vtx with
  | [] => True
  | tx :: vtx' =>
    (nVersion tx = OPOI_TX_VERSION -> undoable tx c) /\
    undoable_block vtx' (ProcessOPoITransaction (Some params) chain height false tx c)
  end.

#[local] Instance process_undo_proper pparams tx :
  Proper (cache_equiv ==> cache_equiv) (ProcessOPoITransaction pparams chain height true tx).
Proof.
  intros c c' Hc. unfold ProcessOPoITransaction. destruct (negb _); [done|]. by apply undo_proper.
Qed.

Lemma undo_block_restores (vtx : list CTransaction) (c : OPoICache) :
  undoable_block vtx c -> cache_equiv (UndoBlock vtx (ApplyBlock vtx c)) c.
Proof.
  revert c. induction vtx as [|tx vtx IH]; intros c; [done|]. cbn [undoable_block]. intros [Hu Hb].
  unfold UndoBlock, ApplyBlock in *. cbn [foldl rev]. rewrite foldl_app. cbn [foldl].
  rewrite (IH _ Hb). apply undo_after_apply. done.
Qed.

(** C24. A block whose transactions are each undoable where they are applied
    leaves the cache as it was when it is rejected half-way or disconnected:
    undoing its transactions in reverse order restores the state before it,
    up to empty lists. *)
Theorem undo_block_inverts_apply (vtx : list CTransaction) (c : OPoICache) :
  undoable_block vtx c -> cache_equiv (UndoBlock vtx (ApplyBlock vtx c)) c.
Proof. apply undo_block_restores. Qed.
End block.

(** * Concrete instances *)

#[local] Existing Instance toyCrypto.

Lemma undo_inverts_apply_witness :
  cache_equiv (ProcessOPoITransaction (Some mainParams) toyChain 200 true sample_pledge
                 (ProcessOPoITransaction (Some mainParams) toyChain 200 false sample_pledge emptyCache)) emptyCache.
Proof.
  apply undo_inverts_apply. right; right; right; left. concrete.
Defined.

Definition sample_challenge : CTransaction :=
  (sample_tx OPOI_CHALLENGE_TX_TYPE) <| opoiRequester := "v" |> <| opoiChallengePhase := 0 |>
    <| opoiCommitHash := replicate 32 1 |> <| opoiChallengerCollateralIn := mkCOutPoint 0xbeef 0 |>.

Definition sample_answered : OPoICache :=
  ProcessOPoITransaction (Some mainParams) toyChain 110 false sample_reveal sample_open.

Lemma challenge_undo_residue_witness :
  ProcessOPoITransaction (Some mainParams) toyChain 120 true sample_challenge
    (ProcessOPoITransaction (Some mainParams) toyChain 120 false sample_challenge sample_answered)
  = update_responder "r1" (fun s => s <| stake_responsesChallenged ::= fun n => u32 (n + 1) |>) sample_answered.
Proof.
  apply (challenge_undo_residue (Some mainParams) toyChain 120 sample_challenge (challenge_of 0 sample_challenge));
    concrete.
Defined.

Lemma undo_block_inverts_apply_witness :
  cache_equiv (UndoBlock toyChain 200 [sample_pledge; sample_register]
                 (ApplyBlock mainParams toyChain 200 [sample_pledge; sample_register] emptyCache)) emptyCache.
Proof.
  apply undo_block_inverts_apply. split; [intros _; right; right; right; left; concrete|].
  split; [intros _; do 5 right; left; concrete|done].
Defined.
