(* ===== verification/BlockOps.v ===== *)
(** The per-block transitions of the cache (opoi/opoi.cpp): what
    [ConnectBlock] and [RebuildOPoICache] run after the transactions of a
    block.  A loop that only rewrites each entry on its own is a map over the
    container; a loop that touches other containers is a fold over the
    entries in key order. *)

From stdpp Require Import gmap strings list.
From Stdlib Require Import ZArith Lia SpecFloat.
From S2P Require Import Prelude Params Uint256 Transaction Platform Shard Records Majority.
From S2P Require Import Cache Sortition CheckTx ProcessTx.

(** [(int)(blockHeight - h)] on [uint32_t] heights. *)
Definition age (blockHeight h : Z) : Z := i32 (u32 (blockHeight - h)).

(** * Challenges and unstaking *)

Section transitions.
Context (blockHeight : Z) (params : Params).

Definition expire_challenge (c : OPoICache) (kv : string * OPoIChallenge) : OPoICache :=
  let '(key, ch) := kv in
  if IsOpen ch then
    if age blockHeight (ch_commitHeight ch) <? nOPoIChallengeCommitRevealBlocks params then c
    else c <| mapChallenges ::= <[key := ch <| ch_challengeStatus := OPOI_CHALLENGE_EXPIRED |>]> |>
  else if IsPendingResolution ch then
    let majority := GetAuditorMajorityResult (ch_requestId ch) (nOPoIMinAuditors params) c in
    if majority =? AUDITOR_VERIFY_FAIL then
      (UnlockUTXO (ch_challengerCollateral ch) (update_responder (ch_requestId ch) slash_active c))
        <| mapChallenges ::= <[key := ch <| ch_challengeStatus := OPOI_CHALLENGE_SLASHED |>]> |>
    else if majority =? AUDITOR_VERIFY_PASS then
      c <| mapChallenges ::= <[key := ch <| ch_challengeStatus := OPOI_CHALLENGE_EXPIRED |>]> |>
    else c
  else c.

Definition release_due (s : OPoIStake) : bool :=
  IsUnstaking s && (nOPoIUnstakeCooldownBlocks params <=? age blockHeight (stake_unstakeHeight s)).

Definition release_stake (c : OPoICache) (kv : string * OPoIStake) : OPoICache :=
  let '(key, s) := kv in
  if release_due s then
    c <| mapStakes ::= <[key := s <| stake_stakeStatus := OPOI_STAKE_RELEASED |>]> |>
      <| mapLockedUTXOs ::= delete (stake_collateralIn s) |>
  else c.

Definition ProcessExpiredChallenges (c : OPoICache) : OPoICache :=
  let c := foldl expire_challenge c (items (mapChallenges c)) in
  foldl release_stake c (items (mapStakes c)).

(** * Requests *)

Definition expire_request (r : OPoIRequest) : OPoIRequest :=
  if negb (IsPending r) then r
  else if age blockHeight (req_blockHeight r) <? nOPoIRequestExpiryBlocks params then r
  else r <| req_status := OPOI_STATUS_EXPIRED |>.

Definition ProcessExpiredRequests (c : OPoICache) : OPoICache :=
  if nOPoIRequestExpiryBlocks params <=? 0 then c
  else c <| mapRequests ::= fmap expire_request |>.

Definition close_window (r : OPoIRequest) : OPoIRequest :=
  if req_commitWindowClosed r then r
  else if u32 (blockHeight - req_blockHeight r) <? u32 (nOPoIResponseCommitWindowBlocks params) then r
  else r <| req_commitWindowClosed := true |>.

Definition ProcessResponseCommitWindows (c : OPoICache) : OPoICache :=
  if nOPoIResponseCommitWindowBlocks params <=? 0 then c
  else c <| mapRequests ::= fmap close_window |>.

(** * Stakes *)

Definition suspend_overdue (s : OPoIStake) : OPoIStake :=
  if negb (Stake_IsActive s) then s
  else
    let sinceHeight := Z.max (stake_blockHeight s) (stake_lastRenewalHeight s) in
    if u32 (blockHeight - sinceHeight) <? u32 (nOPoIStakeRenewalBlocks params) then s
    else s <| stake_stakeStatus := OPOI_STAKE_SUSPENDED |>.

Definition ProcessStakeRenewals (c : OPoICache) : OPoICache :=
  if nOPoIStakeRenewalBlocks params <=? 0 then c
  else c <| mapStakes ::= fmap suspend_overdue |>.

(** A canary strike: the third suspends an active stake. *)
Definition canary_strike (s : OPoIStake) : OPoIStake :=
  let s := s <| stake_canaryObligationDeadline := 0 |> <| stake_canaryStrikes ::= fun n => u8 (n + 1) |> in
  if (OPOI_MAX_CANARY_STRIKES <=? stake_canaryStrikes s) && Stake_IsActive s
  then s <| stake_stakeStatus := OPOI_STAKE_SUSPENDED |> else s.

Definition expire_obligation (s : OPoIStake) : OPoIStake :=
  if stake_canaryObligationDeadline s =? 0 then s
  else if blockHeight <=? stake_canaryObligationDeadline s then s
  else canary_strike s.

Definition active_addresses (c : OPoICache) : list string :=
  (List.filter (fun kv => Stake_IsActive kv.2) (items (mapStakes c))).*1.

Definition select_canary (c : OPoICache) : OPoICache :=
  let frequency := u32 (nOPoICanaryAuditFrequency params) in
  if negb (blockHeight mod frequency =? 0) then c
  else
    let activeAddrs := active_addresses c in
    let idx := (blockHeight / frequency) mod Z.of_nat (length activeAddrs) in
    match activeAddrs with
    | [] => c
    | _ =>
      match activeAddrs !! Z.to_nat idx with
      | Some chosen =>
        c <| mapStakes ::= alter (fun s => s <| stake_canaryObligationDeadline :=
               u32 (blockHeight + u32 (Z.max 1 (nOPoICanaryResponseWindow params))) |>) chosen |>
      | None => c
      end
    end.

Definition ProcessCanaryAudits (c : OPoICache) : OPoICache :=
  if nOPoICanaryAuditFrequency params <=? 0 then c
  else select_canary (c <| mapStakes ::= fmap expire_obligation |>).

(** * Model governance *)

(** The approval test, in [double] arithmetic. *)
Definition model_approved (yesWeight totalActiveStake : Z) : bool :=
  (0 <? totalActiveStake) &&
  double_ge (double_mul (double_of_int yesWeight) (double_of_int 100))
            (double_mul (double_of_int totalActiveStake) (double_of_int (nOPoIModelApprovalPct params))).

Definition tally_model (c : OPoICache) (m : ModelManifest) : OPoICache :=
  let '(yesWeight, _) := TallyModelVotes (modelId m) c in
  if model_approved yesWeight (TotalActiveStake c)
  then SetModelManifestStatus (modelId m) OPOI_MODEL_STATUS_APPROVED
         (u32 (blockHeight + nOPoIModelActivationDelayBlocks params)) c
  else SetModelManifestStatus (modelId m) OPOI_MODEL_STATUS_REJECTED 0 c.

Definition activate_model (c : OPoICache) (m : ModelManifest) : OPoICache :=
  if (0 <? activationHeight m) && (activationHeight m <=? blockHeight)
  then SetModelManifestStatus (modelId m) OPOI_MODEL_STATUS_ACTIVE 0 c
  else c.

Definition ProcessModelVotingWindows (c : OPoICache) : OPoICache :=
  let c := foldl tally_model c (ListManifestsDueForTally blockHeight c) in
  foldl activate_model c (ListModelManifests OPOI_MODEL_STATUS_APPROVED c).

(** * Auditor verdicts *)

Definition settle_vote (majority : Z) (fv : AuditorVerification) : AuditorVerification :=
  fv <| fv_status := if fv_result fv =? majority then OPOI_AUDITOR_STATUS_COMPLETE
                     else OPOI_AUDITOR_STATUS_SLASHED |>.

(** The collaterals of the majority are unlocked. *)
Definition unlock_majority (majority : Z) (verifs : list AuditorVerification) (c : OPoICache) : OPoICache :=
  foldl (fun c fv => if fv_result fv =? majority then UnlockUTXO (fv_auditorCollateral fv) c else c) c verifs.

(** The effect of a decided canary request on its responder. *)
Definition settle_canary (requestId : string) (majority : Z) (c : OPoICache) : OPoICache :=
  match GetRequest requestId c with
  | Some req =>
    if req_isCanary req =? 0 then c
    else if majority =? AUDITOR_VERIFY_FAIL then update_responder requestId canary_strike c
    else if majority =? AUDITOR_VERIFY_PASS then
      update_responder requestId (fun s => s <| stake_canaryObligationDeadline := 0 |>) c
    else c
  | None => c
  end.

Definition resolve_response (c : OPoICache) (kv : string * list AuditorVerification) : OPoICache :=
  let '(requestId, verifs) := kv in
  if IsAuditorResolved requestId c then c
  else
    let majority := GetAuditorMajorityResult requestId (nOPoIMinAuditors params) c in
    if majority <? 0 then c
    else
      let c := unlock_majority majority verifs c in
      let c := c <| mapAuditorVerifications ::= <[requestId := settle_vote majority <$> verifs]> |> in
      settle_canary requestId majority (MarkAuditorResolved requestId c).

Definition resolve_shard (c : OPoICache) (kv : string * list AuditorVerification) : OPoICache :=
  let '(key, verifs) := kv in
  match verifs with
  | [] => c
  | front :: _ =>
    if IsShardAuditorResolved (fv_requestId front) (fv_shardIndex front) c then c
    else
      let majority := ComputeAuditorMajority verifs (nOPoIMinAuditors params) in
      if majority <? 0 then c
      else
        let c := unlock_majority majority verifs c in
        let c := c <| mapShardAuditorVerifications ::= <[key := settle_vote majority <$> verifs]> |> in
        MarkShardAuditorResolved (fv_requestId front) (fv_shardIndex front) c
  end.

Definition ProcessAuditorVerifications (c : OPoICache) : OPoICache :=
  let c := foldl resolve_response c (items (mapAuditorVerifications c)) in
  foldl resolve_shard c (items (mapShardAuditorVerifications c)).
End transitions.

(** * The life of a request *)

Lemma age_small blockHeight h :
  0 <= h <= blockHeight -> blockHeight < 2 ^ 31 -> age blockHeight h = blockHeight - h.
Proof.
  intros Hh Hb. unfold age. rewrite u32_small by (unfold in_u32; lia). apply i32_small. unfold in_i32. lia.
Qed.

(** The two transitions that touch requests, at one height and over the
    [n + 1] heights from [h]. *)
Definition request_ticks (params : Params) (heights : list Z) (c : OPoICache) : OPoICache :=
  foldl (fun c h => ProcessResponseCommitWindows h params (ProcessExpiredRequests h params c)) c heights.

Definition request_after (params : Params) (age : Z) (r : OPoIRequest) : OPoIRequest :=
  r <| req_status := if nOPoIRequestExpiryBlocks params <=? age then OPOI_STATUS_EXPIRED else OPOI_STATUS_PENDING |>
    <| req_commitWindowClosed := nOPoIResponseCommitWindowBlocks params <=? age |>.

Lemma request_tick_after params r h :
  0 < nOPoIRequestExpiryBlocks params < 2 ^ 31 -> 0 < nOPoIResponseCommitWindowBlocks params < 2 ^ 31 ->
  0 <= req_blockHeight r <= h -> h < 2 ^ 31 ->
  close_window h params (expire_request h params (request_after params (h - 1 - req_blockHeight r) r)) =
  request_after params (h - req_blockHeight r) r.
Proof.
  intros HE HW Hr Hh. unfold expire_request, close_window, request_after, IsPending.
  cbn [set req_status req_commitWindowClosed req_blockHeight] in *. rewrite age_small by lia.
  destruct (Z.leb_spec (nOPoIRequestExpiryBlocks params) (h - 1 - req_blockHeight r));
    destruct (Z.leb_spec (nOPoIRequestExpiryBlocks params) (h - req_blockHeight r));
    destruct (Z.ltb_spec (h - req_blockHeight r) (nOPoIRequestExpiryBlocks params)); try lia;
    cbn [negb Z.eqb Pos.eqb OPOI_STATUS_EXPIRED OPOI_STATUS_PENDING set req_status req_commitWindowClosed req_blockHeight];
    rewrite !u32_small by (unfold in_u32; lia);
    destruct (Z.leb_spec (nOPoIResponseCommitWindowBlocks params) (h - 1 - req_blockHeight r));
    destruct (Z.leb_spec (nOPoIResponseCommitWindowBlocks params) (h - req_blockHeight r));
    destruct (Z.ltb_spec (h - req_blockHeight r) (nOPoIResponseCommitWindowBlocks params)); try lia; done.
Qed.

Lemma lookup_request_tick params h c k :
  0 < nOPoIRequestExpiryBlocks params -> 0 < nOPoIResponseCommitWindowBlocks params ->
  mapRequests (ProcessResponseCommitWindows h params (ProcessExpiredRequests h params c)) !! k =
  (fun r => close_window h params (expire_request h params r)) <$> mapRequests c !! k.
Proof.
  intros HE HW. unfold ProcessResponseCommitWindows, ProcessExpiredRequests.
  rewrite (proj2 (Z.leb_gt (nOPoIRequestExpiryBlocks params) 0)), (proj2 (Z.leb_gt (nOPoIResponseCommitWindowBlocks params) 0)) by lia.
  cbn. rewrite !lookup_fmap. by destruct (mapRequests c !! k).
Qed.

(** A request that nobody answers lives through its phases at the same
    heights on every node: connected at height [h0], it takes commits until
    its age reaches the commit window, only reveals from then on, and is
    expired once its age reaches the expiry bound; nothing else of it changes. *)
Theorem request_lifecycle (params : Params) (c : OPoICache) (id : string) (r : OPoIRequest) (n : nat) :
  0 < nOPoIRequestExpiryBlocks params < 2 ^ 31 -> 0 < nOPoIResponseCommitWindowBlocks params < 2 ^ 31 ->
  0 <= req_blockHeight r -> req_blockHeight r + Z.of_nat n < 2 ^ 31 ->
  mapRequests c !! id = Some r -> IsPending r = true -> req_commitWindowClosed r = false ->
  mapRequests (request_ticks params (seqZ (req_blockHeight r) (Z.of_nat n + 1)) c) !! id =
  Some (request_after params (Z.of_nat n) r).
Proof.
  intros HE HW H0 Hn Hr Hp Hw. apply Z.eqb_eq in Hp.
  assert (Hstart : r = request_after params (-1) r).
  { unfold request_after. destruct r. cbn in *. subst.
    rewrite (proj2 (Z.leb_gt (nOPoIRequestExpiryBlocks params) (-1))), (proj2 (Z.leb_gt (nOPoIResponseCommitWindowBlocks params) (-1))) by lia.
    done. }
  assert (Hm : forall m, (m <= S n)%nat ->
    mapRequests (request_ticks params (seqZ (req_blockHeight r) (Z.of_nat m)) c) !! id =
    Some (request_after params (Z.of_nat m - 1) r)).
  { induction m as [|m IH]; intros Hmn.
    { change (mapRequests c !! id = Some (request_after params (-1) r)). by rewrite Hr, <- Hstart. }
    rewrite seqZ_S. unfold request_ticks in *. rewrite foldl_app. cbn [foldl].
    rewrite lookup_request_tick, IH by lia. cbn [fmap option_fmap option_map]. f_equal.
    transitivity (request_after params (req_blockHeight r + Z.of_nat m - req_blockHeight r) r);
      [rewrite <- request_tick_after by lia; do 3 f_equal; lia|f_equal; lia]. }
  replace (Z.of_nat n + 1) with (Z.of_nat (S n)) by lia. rewrite Hm by lia. do 2 f_equal. lia.
Qed.

(** * Slashing *)

(** Whether the stake of an address is slashed. *)
Definition slashed (k : string) (c : OPoICache) : bool :=
  match mapStakes c !! k with Some s => stake_stakeStatus s =? OPOI_STAKE_SLASHED | None => false end.

(** The auditors' majority failed a response of this miner. *)
Definition verdict_against (params : Params) (k : string) (c : OPoICache) : Prop :=
  exists id resp, mapResponses c !! id = Some resp /\ resp_minerAddress resp = k
    /\ GetAuditorMajorityResult id (nOPoIMinAuditors params) c = AUDITOR_VERIFY_FAIL.

(** An update of one stake that never slashes by itself. *)
Lemma slashed_alter f k k0 c c' :
  mapStakes c' = alter f k0 (mapStakes c) ->
  (forall s, stake_stakeStatus (f s) = OPOI_STAKE_SLASHED -> stake_stakeStatus s = OPOI_STAKE_SLASHED) ->
  slashed k c' = true -> slashed k c = true.
Proof.
  intros E Hf. unfold slashed. rewrite E. destruct (decide (k0 = k)) as [->|Hk].
  - rewrite lookup_alter_eq. destruct (mapStakes c !! k) as [s|]; [|done]. cbn. rewrite !Z.eqb_eq. apply Hf.
  - by rewrite lookup_alter_ne.
Qed.

Lemma slashed_same k c c' : mapStakes c' = mapStakes c -> slashed k c' = slashed k c.
Proof. intros E. unfold slashed. by rewrite E. Qed.

(** Slashing the responder of a request needs that the responder is [k]. *)
Lemma slashed_responder k id c :
  slashed k (update_responder id slash_active c) = true ->
  slashed k c = true \/ exists resp, mapResponses c !! id = Some resp /\ resp_minerAddress resp = k.
Proof.
  unfold update_responder. destruct (mapResponses c !! id) as [resp|] eqn:E; [|by left].
  intros Hs. destruct (decide (resp_minerAddress resp = k)) as [<-|Hk]; [right; by exists resp|left].
  unfold slashed in *. cbn in Hs. by rewrite lookup_alter_ne in Hs.
Qed.

Lemma apply_reveal_slash params k tx c :
  slashed k (ApplyChallengeReveal (Some params) tx c) = true -> slashed k c = true \/ verdict_against params k c.
Proof.
  unfold ApplyChallengeReveal. destruct (mapChallenges c !! opoiRequestId tx) as [ch|]; [|by left]. cbv zeta.
  destruct (GetRequest (opoiRequestId tx) c) as [req|]; [|by left]. destruct (IsVerifiable req); [|by left].
  destruct (Z.eqb_spec (GetAuditorMajorityResult (opoiRequestId tx) (nOPoIMinAuditors params) c) AUDITOR_VERIFY_FAIL)
    as [Hm|Hm]; [|destruct (_ =? AUDITOR_VERIFY_PASS); by left].
  intros Hs. rewrite (slashed_same k (update_responder (opoiRequestId tx) slash_active c)) in Hs by done.
  destruct (slashed_responder _ _ _ Hs) as [?|(resp & ? & ?)]; [by left|right]. by exists (opoiRequestId tx), resp.
Qed.

(** Closes goals about operations that leave the stakes alone. *)
Ltac stakes_untouched :=
  left; match goal with |- slashed ?k ?c = true => erewrite <- slashed_same; [eassumption|] end;
  unfold AddModelVote, AddCoordinatorClaim, AddShardResult, AddAuditorVerification, AddShardAuditorVerification,
    lock_auditor; repeat case_match; reflexivity.

Lemma slashed_add_stake k s c :
  stake_stakeStatus s = OPOI_STAKE_ACTIVE -> slashed k (AddStake s c) = true -> slashed k c = true.
Proof.
  intros Hs. unfold slashed, AddStake. cbn. destruct (decide (stake_minerAddress s = k)) as [<-|Hk].
  - rewrite lookup_insert_eq, Hs. done.
  - by rewrite lookup_insert_ne.
Qed.

Lemma slashed_response_reveal k pparams chain h tx c :
  slashed k (ApplyResponseReveal pparams chain h tx c) = true -> slashed k c = true.
Proof.
  unfold ApplyResponseReveal, AddResponse. destruct (IsRevealed _);
    (eapply slashed_alter; [reflexivity|by intros s]).
Qed.

Lemma slashed_unstake k m h txh c : slashed k (StartUnstake m h txh c) = true -> slashed k c = true.
Proof.
  unfold StartUnstake. destruct (IsActiveStaker m c); [|done]. eapply slashed_alter; [reflexivity|by intros s].
Qed.

Lemma slashed_challenge_commit k h tx c : slashed k (ApplyChallengeCommit h tx c) = true -> slashed k c = true.
Proof.
  unfold ApplyChallengeCommit, update_responder. cbn [mapResponses LockUTXO AddChallenge set].
  destruct (mapResponses c !! opoiRequestId tx); [|done]. eapply slashed_alter; [reflexivity|by intros s].
Qed.

Lemma apply_stake_slash `{Crypto} params chain h k tx c :
  slashed k (ApplyOPoITransaction (Some params) chain h tx c) = true -> slashed k c = true \/ verdict_against params k c.
Proof.
  unfold ApplyOPoITransaction.
  repeat match goal with |- slashed _ (if ?b then _ else _) = true -> _ => destruct b end; intros Hs;
    try (left; exact Hs); try stakes_untouched.
  - left. by eapply slashed_response_reveal.
  - left. by apply (slashed_add_stake k (stake_of h tx)).
  - left. by eapply slashed_unstake.
  - left. revert Hs. eapply slashed_alter; [reflexivity|by intros s].
  - left. by eapply slashed_challenge_commit.
  - by eapply apply_reveal_slash.
Qed.

Lemma expire_challenges_slash h params k c :
  slashed k (ProcessExpiredChallenges h params c) = true -> slashed k c = true \/ verdict_against params k c.
Proof.
  unfold ProcessExpiredChallenges. intros Hs.
  set (inv := fun c' => mapResponses c' = mapResponses c /\ mapAuditorVerifications c' = mapAuditorVerifications c
    /\ (slashed k c' = true -> slashed k c = true \/ verdict_against params k c)).
  assert (Hrel : forall l c0, slashed k (foldl (release_stake h params) c0 l) = true -> slashed k c0 = true).
  { induction l as [|[key s] l IH]; intros c0; [done|]. cbn [foldl]. intros Hl. apply IH in Hl. revert Hl.
    unfold release_stake. destruct (release_due h params s) eqn:Ed; [|done]. unfold slashed. cbn.
    destruct (decide (key = k)) as [->|Hk]; [by rewrite lookup_insert_eq|by rewrite lookup_insert_ne]. }
  apply Hrel in Hs. revert Hs. apply (foldl_inv inv); [by repeat split; auto|].
  intros c0 [key ch] _ (H1 & H2 & H3). unfold expire_challenge. 
  destruct (IsOpen ch); [destruct (_ <? _); by repeat split|].
  destruct (IsPendingResolution ch); [|by repeat split].
  destruct (Z.eqb_spec (GetAuditorMajorityResult (ch_requestId ch) (nOPoIMinAuditors params) c0) AUDITOR_VERIFY_FAIL)
    as [Hm|Hm]; [|destruct (_ =? AUDITOR_VERIFY_PASS); by repeat split].
  assert (Hu : mapResponses (update_responder (ch_requestId ch) slash_active c0) = mapResponses c0 /\
               mapAuditorVerifications (update_responder (ch_requestId ch) slash_active c0) = mapAuditorVerifications c0).
  { unfold update_responder. by destruct (mapResponses c0 !! ch_requestId ch). }
  split; [cbn; by rewrite (proj1 Hu)|]. split; [cbn; by rewrite (proj2 Hu)|].
  rewrite (slashed_same k (update_responder (ch_requestId ch) slash_active c0)) by done. intros Hs.
  destruct (slashed_responder _ _ _ Hs) as [Hc|(resp & Hr & Hk)]; [by apply H3|].
  right. exists (ch_requestId ch), resp. rewrite <- H1. unfold GetAuditorMajorityResult in *. by rewrite <- H2.
Qed.

(** C25. No griefing: neither connecting a transaction nor the challenge
    transition at the end of a block slashes a stake, unless the auditors'
    majority has failed a response of that very miner. *)
Theorem slash_requires_auditor_verdict `{Crypto} (params : Params) (chain : Chain) (h : Z) (k : string) (c : OPoICache) :
  slashed k c = false ->
  (forall tx, slashed k (ProcessOPoITransaction (Some params) chain h false tx c) = true -> verdict_against params k c) /\
  (slashed k (ProcessExpiredChallenges h params c) = true -> verdict_against params k c).
Proof.
  intros Hn. split.
  - intros tx. unfold ProcessOPoITransaction. destruct (negb _); [congruence|]. intros Hs.
    destruct (apply_stake_slash params chain h k tx c Hs); [congruence|done].
  - intros Hs. destruct (expire_challenges_slash h params k c Hs); [congruence|done].
Qed.

(** * Auditor verdicts *)

Lemma unlock_majority_frame m verifs c :
  mapAuditorVerifications (unlock_majority m verifs c) = mapAuditorVerifications c
  /\ mapShardAuditorVerifications (unlock_majority m verifs c) = mapShardAuditorVerifications c
  /\ setResolvedAuditorVerifications (unlock_majority m verifs c) = setResolvedAuditorVerifications c
  /\ mapRequests (unlock_majority m verifs c) = mapRequests c.
Proof.
  unfold unlock_majority. apply (foldl_inv (fun c' => mapAuditorVerifications c' = mapAuditorVerifications c
    /\ mapShardAuditorVerifications c' = mapShardAuditorVerifications c
    /\ setResolvedAuditorVerifications c' = setResolvedAuditorVerifications c /\ mapRequests c' = mapRequests c));
    [done|]. intros c' fv _ H. by destruct (fv_result fv =? m).
Qed.

Lemma lookup_unlock_majority m verifs c out :
  mapLockedUTXOs (unlock_majority m verifs c) !! out =
  if existsb (fun fv => (fv_result fv =? m) && bool_decide (fv_auditorCollateral fv = out)) verifs
  then None else mapLockedUTXOs c !! out.
Proof.
  unfold unlock_majority. revert c. induction verifs as [|fv verifs IH]; intros c; [done|]. cbn [foldl existsb].
  rewrite IH. destruct (fv_result fv =? m); cbn [andb orb]; [|done].
  destruct (existsb _ verifs); [by rewrite orb_true_r|]. rewrite orb_false_r. cbn.
  case_bool_decide as E; [by rewrite E, lookup_delete_eq|by rewrite lookup_delete_ne].
Qed.

Lemma settle_canary_frame id m c :
  mapAuditorVerifications (settle_canary id m c) = mapAuditorVerifications c
  /\ setResolvedAuditorVerifications (settle_canary id m c) = setResolvedAuditorVerifications c
  /\ mapLockedUTXOs (settle_canary id m c) = mapLockedUTXOs c
  /\ mapShardAuditorVerifications (settle_canary id m c) = mapShardAuditorVerifications c.
Proof. unfold settle_canary, update_responder. repeat case_match; done. Qed.

(** The verdict that resolves the votes of a request now, if any. *)
Definition decided (params : Params) (c : OPoICache) (id : string) (verifs : list AuditorVerification) : option Z :=
  if IsAuditorResolved id c then None
  else let m := ComputeAuditorMajority verifs (nOPoIMinAuditors params) in if m <? 0 then None else Some m.

(** The votes, the resolved mark and the locks after one request is visited. *)
Lemma resolve_response_step params c id verifs :
  mapAuditorVerifications c !! id = Some verifs ->
  let c' := resolve_response params c (id, verifs) in
  match decided params c id verifs with
  | None => c' = c
  | Some m => mapAuditorVerifications c' = <[id := settle_vote m <$> verifs]> (mapAuditorVerifications c)
      /\ setResolvedAuditorVerifications c' = {[id]} ∪ setResolvedAuditorVerifications c
      /\ mapLockedUTXOs c' = mapLockedUTXOs (unlock_majority m verifs c)
      /\ mapShardAuditorVerifications c' = mapShardAuditorVerifications c
  end.
Proof.
  intros Hv. unfold resolve_response, decided, GetAuditorMajorityResult. rewrite Hv.
  destruct (IsAuditorResolved id c); [done|]. set (m := ComputeAuditorMajority _ _). destruct (m <? 0); [done|].
  cbv zeta. set (c1 := MarkAuditorResolved _ _). destruct (settle_canary_frame id m c1) as (-> & -> & -> & ->).
  subst c1. destruct (unlock_majority_frame m verifs c) as (E1 & E2 & E3 & _). cbn. by rewrite E1, E2, E3.
Qed.

Lemma decided_same params c c' id verifs :
  (id ∈ setResolvedAuditorVerifications c <-> id ∈ setResolvedAuditorVerifications c') ->
  decided params c' id verifs = decided params c id verifs.
Proof.
  intros E. unfold decided, IsAuditorResolved. by rewrite (bool_decide_ext _ _ E).
Qed.

(** What the loop over a set of distinct requests establishes. *)
Record resolution (params : Params) (l : list (string * list AuditorVerification)) (c c' : OPoICache) : Prop := {
  rs_other : forall k, (k ∉ l.*1) -> mapAuditorVerifications c' !! k = mapAuditorVerifications c !! k
               /\ (k ∈ setResolvedAuditorVerifications c' <-> k ∈ setResolvedAuditorVerifications c);
  rs_decided : forall k v m, (k, v) ∈ l -> decided params c k v = Some m ->
    mapAuditorVerifications c' !! k = Some (settle_vote m <$> v) /\ k ∈ setResolvedAuditorVerifications c'
    /\ forall fv, fv ∈ v -> fv_result fv = m -> mapLockedUTXOs c' !! fv_auditorCollateral fv = None;
  rs_undecided : forall k v, (k, v) ∈ l -> decided params c k v = None ->
    mapAuditorVerifications c' !! k = Some v
    /\ (k ∈ setResolvedAuditorVerifications c' <-> k ∈ setResolvedAuditorVerifications c);
  rs_locks : forall out, mapLockedUTXOs c' !! out = mapLockedUTXOs c !! out
    \/ (mapLockedUTXOs c' !! out = None /\
        exists k v m fv, (k, v) ∈ l /\ decided params c k v = Some m /\ fv ∈ v /\ fv_result fv = m
                         /\ fv_auditorCollateral fv = out);
  rs_shards : mapShardAuditorVerifications c' = mapShardAuditorVerifications c;
}.

Lemma resolution_nil params c : resolution params [] c c.
Proof. split; [done|..|intros; by left|done]; intros; by apply elem_of_nil in H. Qed.

Lemma resolution_cons_undecided params id verifs l c c' :
  (id ∉ l.*1) -> mapAuditorVerifications c !! id = Some verifs -> decided params c id verifs = None ->
  resolution params l c c' -> resolution params ((id, verifs) :: l) c c'.
Proof.
  intros Hid Hv Hd [Ho Hdec Hund Hlk Hsh]. split; [..|done].
  - intros k Hk. apply Ho. set_solver.
  - intros k v m [[= -> ->]|Hin]%elem_of_cons Hm; [congruence|by apply Hdec].
  - intros k v [[= -> ->]|Hin]%elem_of_cons Hm; [|by apply Hund]. rewrite <- Hv. by apply Ho.
  - intros out. destruct (Hlk out) as [?|(? & k & v & m & fv & ? & ?)]; [by left|right].
    split; [done|]. exists k, v, m, fv. split; [by right|done].
Qed.

Lemma resolution_cons_decided params id verifs m l c c1 c' :
  (id ∉ l.*1) -> decided params c id verifs = Some m ->
  mapAuditorVerifications c1 = <[id := settle_vote m <$> verifs]> (mapAuditorVerifications c) ->
  setResolvedAuditorVerifications c1 = {[id]} ∪ setResolvedAuditorVerifications c ->
  mapLockedUTXOs c1 = mapLockedUTXOs (unlock_majority m verifs c) ->
  mapShardAuditorVerifications c1 = mapShardAuditorVerifications c ->
  resolution params l c1 c' -> resolution params ((id, verifs) :: l) c c'.
Proof.
  intros Hid Hd E1 E2 E3 E4 [Ho Hdec Hund Hlk Hsh].
  assert (Hs : forall k v, (k, v) ∈ l -> k <> id /\ decided params c1 k v = decided params c k v).
  { intros k v Hin. assert (k <> id) by (intros ->; apply Hid, (list_elem_of_fmap_2 fst _ _ Hin)).
    split; [done|]. apply decided_same. rewrite E2. set_solver. }
  split; [..|congruence].
  - intros k Hk. rewrite fmap_cons, not_elem_of_cons in Hk. destruct Hk as [Hk1 Hk2].
    destruct (Ho k Hk2) as [-> ->]. rewrite E1, E2. split; [by rewrite lookup_insert_ne|set_solver].
  - intros k v m' [[= -> ->]|Hin]%elem_of_cons Hm.
    + rewrite Hd in Hm. injection Hm as <-. destruct (Ho id Hid) as [-> ->].
      rewrite E1, E2, lookup_insert_eq. split; [done|]. split; [set_solver|]. intros fv Hfv Hr.
      assert (Hn : mapLockedUTXOs c1 !! fv_auditorCollateral fv = None).
      { rewrite E3, lookup_unlock_majority. rewrite (proj2 (existsb_exists _ _)); [done|]. exists fv.
        rewrite <- list_elem_of_In. split; [done|]. by rewrite Hr, Z.eqb_refl, bool_decide_eq_true_2. }
      destruct (Hlk (fv_auditorCollateral fv)) as [->|[? _]]; done.
    + destruct (Hs k v Hin) as [_ Hds]. apply Hdec; [done|congruence].
  - intros k v [[= -> ->]|Hin]%elem_of_cons Hm; [congruence|]. destruct (Hs k v Hin) as [Hne Hds].
    destruct (Hund k v Hin) as [? ->]; [congruence|]. split; [done|]. rewrite E2. set_solver.
  - intros out. destruct (Hlk out) as [->|(Hn & k & v & m' & fv & Hin & Hm & Hrest)].
    + rewrite E3, lookup_unlock_majority. destruct (existsb _ verifs) eqn:Ex; [right|by left]. split; [done|].
      apply existsb_exists in Ex as (fv & Hfv & Hb). apply list_elem_of_In in Hfv. apply andb_true_iff in Hb as [Hb1 Hb2].
      apply Z.eqb_eq in Hb1. apply bool_decide_eq_true in Hb2. exists id, verifs, m, fv. split; [left|done].
    + right. split; [done|]. exists k, v, m', fv. split; [by right|]. rewrite <- (proj2 (Hs k v Hin)). done.
Qed.

Lemma resolve_loop params l c :
  NoDup l.*1 -> (forall k v, (k, v) ∈ l -> mapAuditorVerifications c !! k = Some v) ->
  resolution params l c (foldl (resolve_response params) c l).
Proof.
  revert c. induction l as [|[id verifs] l IH]; intros c Hnd Hl; [apply resolution_nil|].
  rewrite fmap_cons, NoDup_cons in Hnd. destruct Hnd as [Hid Hnd]. cbn [foldl].
  pose proof (Hl id verifs ltac:(left)) as Hv. pose proof (resolve_response_step params c id verifs Hv) as Hst.
  destruct (decided params c id verifs) as [m|] eqn:Hd; cbv zeta in Hst.
  - destruct Hst as (E1 & E2 & E3 & E4). eapply resolution_cons_decided; try done. apply IH; [done|].
    intros k v Hin. rewrite E1, lookup_insert_ne; [by apply Hl; right|].
    intros <-. apply Hid, (list_elem_of_fmap_2 fst _ _ Hin).
  - rewrite Hst. apply resolution_cons_undecided; try done. apply IH; [done|]. intros k v Hin. apply Hl. by right.
Qed.

(** The verdict that resolves the votes on a shard now, if any. *)
Definition shard_decided (params : Params) (c : OPoICache) (verifs : list AuditorVerification) : option Z :=
  match verifs with
  | [] => None
  | front :: _ =>
    if IsShardAuditorResolved (fv_requestId front) (fv_shardIndex front) c then None
    else let m := ComputeAuditorMajority verifs (nOPoIMinAuditors params) in if m <? 0 then None else Some m
  end.

(** A vote of a majority that decides now pledged this outpoint. *)
Definition majority_pledge (params : Params) (c : OPoICache) (out : COutPoint) : Prop :=
  (exists k v m fv, mapAuditorVerifications c !! k = Some v /\ decided params c k v = Some m
     /\ fv ∈ v /\ fv_result fv = m /\ fv_auditorCollateral fv = out) \/
  (exists k v m fv, mapShardAuditorVerifications c !! k = Some v /\ shard_decided params c v = Some m
     /\ fv ∈ v /\ fv_result fv = m /\ fv_auditorCollateral fv = out).

Lemma settle_canary_shards id m c :
  setResolvedShardAuditorVerifications (settle_canary id m c) = setResolvedShardAuditorVerifications c.
Proof. unfold settle_canary, update_responder. by repeat case_match. Qed.

Lemma unlock_majority_shards m verifs c :
  setResolvedShardAuditorVerifications (unlock_majority m verifs c) = setResolvedShardAuditorVerifications c.
Proof.
  unfold unlock_majority.
  apply (foldl_inv (fun c' => setResolvedShardAuditorVerifications c' = setResolvedShardAuditorVerifications c)); [done|].
  intros c' fv _ Hc. by destruct (fv_result fv =? m).
Qed.

Lemma resolve_loop_shards params l c :
  setResolvedShardAuditorVerifications (foldl (resolve_response params) c l) = setResolvedShardAuditorVerifications c.
Proof.
  apply (foldl_inv (fun c' => setResolvedShardAuditorVerifications c' = setResolvedShardAuditorVerifications c)); [done|].
  intros c' [k v] _ Hc. unfold resolve_response. destruct (IsAuditorResolved k c'); [done|]. cbv zeta.
  destruct (_ <? 0); [done|]. rewrite settle_canary_shards. cbn. by rewrite unlock_majority_shards.
Qed.

(** The loop over the shards touches the shard votes and locks only, and the
    locks it removes were pledged for votes of a deciding majority. *)
Lemma resolve_shards_frame params l c :
  (forall k v, (k, v) ∈ l -> mapShardAuditorVerifications c !! k = Some v) ->
  let c' := foldl (resolve_shard params) c l in
  mapAuditorVerifications c' = mapAuditorVerifications c
  /\ setResolvedAuditorVerifications c' = setResolvedAuditorVerifications c
  /\ setResolvedShardAuditorVerifications c ⊆ setResolvedShardAuditorVerifications c'
  /\ forall out, mapLockedUTXOs c' !! out = mapLockedUTXOs c !! out
      \/ (mapLockedUTXOs c' !! out = None /\ exists k v m fv, mapShardAuditorVerifications c !! k = Some v
          /\ shard_decided params c v = Some m /\ fv ∈ v /\ fv_result fv = m /\ fv_auditorCollateral fv = out).
Proof.
  intros Hl. apply (foldl_inv (fun c' => mapAuditorVerifications c' = mapAuditorVerifications c
    /\ setResolvedAuditorVerifications c' = setResolvedAuditorVerifications c
    /\ setResolvedShardAuditorVerifications c ⊆ setResolvedShardAuditorVerifications c'
    /\ forall out, mapLockedUTXOs c' !! out = mapLockedUTXOs c !! out
      \/ (mapLockedUTXOs c' !! out = None /\ exists k v m fv, mapShardAuditorVerifications c !! k = Some v
          /\ shard_decided params c v = Some m /\ fv ∈ v /\ fv_result fv = m /\ fv_auditorCollateral fv = out))).
  { split_and!; [done..|]. intros out. by left. }
  intros c' [k v] Hin (E1 & E2 & E3 & E4). unfold resolve_shard. destruct v as [|front v']; [done|].
  destruct (IsShardAuditorResolved _ _ c') eqn:Er; [done|]. set (m := ComputeAuditorMajority _ _).
  destruct (m <? 0) eqn:Em; [done|].
  destruct (unlock_majority_frame m (front :: v') c') as (F1 & F2 & F3 & _). cbn [set mapAuditorVerifications
    setResolvedAuditorVerifications setResolvedShardAuditorVerifications mapLockedUTXOs MarkShardAuditorResolved].
  split; [congruence|]. split; [congruence|]. split; [rewrite unlock_majority_shards; set_solver|].
  intros out. rewrite lookup_unlock_majority. destruct (existsb _ _) eqn:Ex; [|apply E4]. right. split; [done|].
  apply existsb_exists in Ex as (fv & Hfv & Hb). apply list_elem_of_In in Hfv. apply andb_true_iff in Hb as [Hb1 Hb2].
  apply Z.eqb_eq in Hb1. apply bool_decide_eq_true in Hb2. exists k, (front :: v'), m, fv.
  split; [by apply Hl|]. split; [|done]. unfold shard_decided. fold m. rewrite Em.
  unfold IsShardAuditorResolved in *. apply bool_decide_eq_false in Er. rewrite bool_decide_eq_false_2; [done|]. set_solver.
Qed.

(** C26. Resolution of verdicts.  After the auditor transition of a block,
    every unresolved request whose votes reached a quorum with a majority [m]
    is marked resolved, each of its votes is COMPLETE when it agrees with [m]
    and SLASHED otherwise, and the collateral of every agreeing vote is
    unlocked; a request is resolved afterwards exactly when it was before or is
    such a request, and the votes of every other request are as before; no
    request is left to be resolved a second time; and a locked outpoint stays
    locked unless a vote of a majority that decides a request or a shard now
    pledged it. *)
Theorem auditor_resolution (params : Params) (c : OPoICache) :
  let c' := ProcessAuditorVerifications params c in
  (forall id votes m, mapAuditorVerifications c !! id = Some votes -> decided params c id votes = Some m ->
     mapAuditorVerifications c' !! id = Some (settle_vote m <$> votes)
     /\ forall fv, fv ∈ votes -> fv_result fv = m -> mapLockedUTXOs c' !! fv_auditorCollateral fv = None)
  /\ (forall id, IsAuditorResolved id c' = true <->
       IsAuditorResolved id c = true \/
       exists votes m, mapAuditorVerifications c !! id = Some votes /\ decided params c id votes = Some m)
  /\ (forall id, (forall votes, mapAuditorVerifications c !! id = Some votes -> decided params c id votes = None) ->
       mapAuditorVerifications c' !! id = mapAuditorVerifications c !! id)
  /\ (forall id votes, mapAuditorVerifications c' !! id = Some votes -> decided params c' id votes = None)
  /\ (forall out owner, mapLockedUTXOs c !! out = Some owner -> ~ majority_pledge params c out ->
     mapLockedUTXOs c' !! out = Some owner).
Proof.
  unfold ProcessAuditorVerifications. cbv zeta. set (l := items (mapAuditorVerifications c)).
  destruct (resolve_loop params l c) as [Ho Hdec Hund Hlk Hsh];
    [apply NoDup_items_keys|by intros k v ?%elem_of_items|].
  pose proof (resolve_loop_shards params l c) as Hss. set (c1 := foldl (resolve_response params) c l) in *.
  destruct (resolve_shards_frame params (items (mapShardAuditorVerifications c1)) c1) as (E1 & E2 & _ & E3);
    [by intros k v ?%elem_of_items|]. cbv zeta in *. set (c' := foldl _ c1 _) in *.
  assert (Hno : forall id, mapAuditorVerifications c !! id = None -> id ∉ l.*1).
  { intros id Hn [[k v] [-> Hin]]%list_elem_of_fmap. apply elem_of_items in Hin. cbn in Hn. congruence. }
  assert (Hres : forall id, id ∈ setResolvedAuditorVerifications c1 <-> id ∈ setResolvedAuditorVerifications c \/
    exists votes m, mapAuditorVerifications c !! id = Some votes /\ decided params c id votes = Some m).
  { intros id. destruct (mapAuditorVerifications c !! id) as [votes|] eqn:Hv.
    - destruct (decided params c id votes) as [m|] eqn:Hd.
      + split; [intros _; right; eauto|]. intros _. by apply (Hdec id votes m); [apply elem_of_items|].
      + destruct (Hund id votes) as [_ ->]; [by apply elem_of_items|done|]. split; [by left|]. intros [?|(? & ? & [= <-] & ?)]; congruence.
    - destruct (Ho id (Hno _ Hv)) as [_ ->]. split; [by left|]. by intros [?|(? & ? & ? & _)]. }
  split_and!.
  - intros id votes m Hv Hd. destruct (Hdec id votes m) as (Hv1 & _ & Hl1); [by apply elem_of_items|done|]. rewrite E1. split; [done|].
    intros fv Hfv Hr. destruct (E3 (fv_auditorCollateral fv)) as [->|[-> _]]; [by apply Hl1|done].
  - intros id. unfold IsAuditorResolved. rewrite !bool_decide_eq_true, E2. apply Hres.
  - intros id Hn. rewrite E1. destruct (mapAuditorVerifications c !! id) as [votes|] eqn:Hv.
    + apply Hund; [by apply elem_of_items|by apply Hn].
    + rewrite <- Hv. by apply Ho, Hno.
  - intros id votes. rewrite E1. rewrite (decided_same params c1 c') by (by rewrite E2). clearbody c' c1. intros Hv.
    destruct (mapAuditorVerifications c !! id) as [votes0|] eqn:Hv0.
    + assert (Hin : (id, votes0) ∈ l) by by apply elem_of_items.
      destruct (decided params c id votes0) as [m|] eqn:Hd.
      * destruct (Hdec _ _ _ Hin Hd) as (_ & Hr & _). unfold decided, IsAuditorResolved. by rewrite bool_decide_eq_true_2.
      * destruct (Hund _ _ Hin Hd) as (Hv1 & Hr). rewrite Hv in Hv1. injection Hv1 as ->.
        rewrite (decided_same params c c1); [done|]. by rewrite Hr.
    + destruct (Ho id (Hno _ Hv0)) as [Hc _]. congruence.
  - intros out owner Hl Hn. destruct (E3 out) as [->|(_ & k & v & m & fv & Hv & Hd & Hrest)].
    + destruct (Hlk out) as [->|(_ & k & v & m & fv & Hin & Hrest)]; [done|]. destruct Hn.
      left. exists k, v, m, fv. split; [by apply elem_of_items|done].
    + destruct Hn. right. exists k, v, m, fv. rewrite <- Hsh. split; [done|]. split; [|done].
      rewrite <- Hd. unfold shard_decided, IsShardAuditorResolved. by rewrite Hss.
Qed.

(** * Model governance *)

Definition set_status (status activation : Z) (m : ModelManifest) : ModelManifest :=
  let m := m <| mf_status := status |> in
  if 0 <? activation then m <| activationHeight := activation |> else m.

(** A loop that decides each manifest of a list on its own. *)
Definition status_loop (upd : ModelManifest -> option (Z * Z)) (c : OPoICache) (l : list ModelManifest) : OPoICache :=
  foldl (fun c m => match upd m with
                    | Some (status, activation) => SetModelManifestStatus (modelId m) status activation c
                    | None => c
                    end) c l.

Definition decide_status (upd : ModelManifest -> option (Z * Z)) (m m0 : ModelManifest) : ModelManifest :=
  match upd m with Some (status, activation) => set_status status activation m0 | None => m0 end.

Lemma lookup_status_loop upd l c k :
  NoDup (modelId <$> l) ->
  (forall m, m ∈ l -> modelId m = k ->
     mapModelManifests (status_loop upd c l) !! k = decide_status upd m <$> mapModelManifests c !! k) /\
  ((k ∉ modelId <$> l) -> mapModelManifests (status_loop upd c l) !! k = mapModelManifests c !! k).
Proof.
  revert c. induction l as [|m l IH]; intros c Hnd.
  { split; [by intros m ?%elem_of_nil|done]. }
  rewrite fmap_cons, NoDup_cons in Hnd. destruct Hnd as [Hm Hnd]. unfold status_loop in *. cbn [foldl].
  set (c1 := match upd m with Some _ => _ | None => _ end). destruct (IH c1 Hnd) as [IH1 IH2].
  assert (Hc1 : mapModelManifests c1 !! k =
    if decide (modelId m = k) then decide_status upd m <$> mapModelManifests c !! k else mapModelManifests c !! k).
  { subst c1. unfold decide_status. destruct (upd m) as [[st a]|]; cbn.
    - case_decide as E; [by rewrite E, lookup_alter_eq|by rewrite lookup_alter_ne].
    - case_decide; [|done]. by destruct (mapModelManifests c !! k). }
  split.
  - intros m' [->|Hin]%elem_of_cons Hk.
    + rewrite IH2 by (by rewrite <- Hk). by rewrite Hc1, decide_True.
    + rewrite (IH1 m' Hin Hk), Hc1, decide_False; [done|]. intros E. apply Hm. rewrite E, <- Hk.
      by apply list_elem_of_fmap_2.
  - rewrite fmap_cons, not_elem_of_cons. intros [Hk1 Hk2]. by rewrite IH2, Hc1, decide_False.
Qed.

Lemma status_loop_frame upd c l :
  mapModelVotes (status_loop upd c l) = mapModelVotes c /\ mapStakes (status_loop upd c l) = mapStakes c.
Proof.
  unfold status_loop. apply (foldl_inv (fun c' => mapModelVotes c' = mapModelVotes c /\ mapStakes c' = mapStakes c)); [done|].
  intros c' m _ H. by destruct (upd m) as [[st a]|].
Qed.

(** What the tally decides for a manifest, and what activation does. *)
Definition tally_decision (h : Z) (params : Params) (c : OPoICache) (m : ModelManifest) : option (Z * Z) :=
  Some (if model_approved params (TallyModelVotes (modelId m) c).1 (TotalActiveStake c)
        then (OPOI_MODEL_STATUS_APPROVED, u32 (h + nOPoIModelActivationDelayBlocks params))
        else (OPOI_MODEL_STATUS_REJECTED, 0)).
Definition activation_decision (h : Z) (m : ModelManifest) : option (Z * Z) :=
  if (0 <? activationHeight m) && (activationHeight m <=? h) then Some (OPOI_MODEL_STATUS_ACTIVE, 0) else None.

Lemma tally_loop h params c l :
  foldl (tally_model h params) c l = status_loop (tally_decision h params c) c l.
Proof.
  assert (Hgen : forall l c', mapModelVotes c' = mapModelVotes c -> mapStakes c' = mapStakes c ->
    foldl (tally_model h params) c' l = status_loop (tally_decision h params c) c' l); [|by apply Hgen].
  clear l. induction l as [|m l IH]; intros c' Hv Hs; [done|]. unfold status_loop in *. cbn [foldl].
  assert (E : tally_model h params c' m = match tally_decision h params c m with
      | Some (status, activation) => SetModelManifestStatus (modelId m) status activation c' | None => c' end).
  { unfold tally_model, tally_decision, TallyModelVotes, TotalActiveStake, ListStakes. rewrite Hv, Hs.
    destruct (foldl _ (0, 0) _) as [y n]. cbn [fst]. by destruct (model_approved _ _ _). }
  rewrite E. apply IH; by destruct (tally_decision h params c m) as [[st a]|].
Qed.

Lemma activate_loop h c l : foldl (activate_model h) c l = status_loop (activation_decision h) c l.
Proof.
  revert c. induction l as [|m l IH]; intros c; [done|]. unfold status_loop in *. cbn [foldl]. rewrite <- IH.
  f_equal. unfold activate_model, activation_decision. by destruct (_ && _).
Qed.

(** The manifest of every key names that key. *)
Definition manifests_keyed (c : OPoICache) : Prop :=
  forall k m, mapModelManifests c !! k = Some m -> modelId m = k.

Lemma listed_manifests (P : ModelManifest -> bool) c :
  manifests_keyed c ->
  NoDup (modelId <$> List.filter P (items (mapModelManifests c)).*2) /\
  (forall m, m ∈ List.filter P (items (mapModelManifests c)).*2 <->
             P m = true /\ mapModelManifests c !! modelId m = Some m).
Proof.
  intros Hk. split.
  - assert (Hkeys : modelId <$> (items (mapModelManifests c)).*2 = (items (mapModelManifests c)).*1).
    { rewrite <- list_fmap_compose. apply list_fmap_ext. intros i [k m] Hi. cbn.
      apply Hk, elem_of_items, (list_elem_of_lookup_2 _ _ _ Hi). }
    pose proof (NoDup_items_keys (mapModelManifests c)) as Hnd. rewrite <- Hkeys in Hnd.
    revert Hnd. generalize (items (mapModelManifests c)).*2. clear. induction l as [|m l IH]; [done|].
    rewrite fmap_cons, NoDup_cons. intros [Hm Hnd]. cbn [List.filter]. destruct (P m); [|by apply IH].
    rewrite fmap_cons, NoDup_cons. split; [|by apply IH].
    intros [m' [E Hin]]%list_elem_of_fmap. apply Hm. rewrite E. apply list_elem_of_fmap_2. apply list_elem_of_In, filter_In in Hin.
    apply list_elem_of_In, Hin.
  - intros m. rewrite list_elem_of_In, filter_In, <- list_elem_of_In, list_elem_of_fmap. split.
    + intros [[[k m'] [-> Hin]] HP]. apply elem_of_items in Hin. cbn. by rewrite (Hk _ _ Hin).
    + intros [HP Hm]. split; [|done]. exists (modelId m, m). by rewrite elem_of_items.
Qed.

(** The state of a manifest after the governance transition of a block. *)
Definition manifest_after (h : Z) (params : Params) (c : OPoICache) (m : ModelManifest) : ModelManifest :=
  let m := if IsVoting m && (voteWindowEndHeight m <=? h) then decide_status (tally_decision h params c) m m else m in
  if mf_status m =? OPOI_MODEL_STATUS_APPROVED then decide_status (activation_decision h) m m else m.

Lemma set_status_modelId st a m : modelId (set_status st a m) = modelId m.
Proof. unfold set_status. by destruct (0 <? a). Qed.

Lemma decide_status_modelId upd m m0 : modelId (decide_status upd m m0) = modelId m0.
Proof. unfold decide_status. destruct (upd m) as [[st a]|]; [apply set_status_modelId|done]. Qed.

(** Governance of models.  In one block, a manifest whose voting window
    has ended is APPROVED, with its activation delayed, when the tally passes
    the approval test and REJECTED otherwise; an APPROVED manifest becomes
    ACTIVE exactly when its activation height is reached; every other manifest
    keeps its state, and each is decided on the votes and stakes before the
    transition, whatever the order. *)
Theorem model_governance_step (h : Z) (params : Params) (c : OPoICache) (k : string) (m : ModelManifest) :
  manifests_keyed c -> mapModelManifests c !! k = Some m ->
  mapModelManifests (ProcessModelVotingWindows h params c) !! k = Some (manifest_after h params c m).
Proof.
  intros Hk Hm. unfold ProcessModelVotingWindows, ListManifestsDueForTally, ListModelManifests, manifest_after.
  rewrite tally_loop, activate_loop. set (due := fun m => IsVoting m && (voteWindowEndHeight m <=? h)).
  destruct (listed_manifests due c Hk) as [Hnd Hin]. pose proof (Hk _ _ Hm) as Hid.
  set (m1 := if due m then decide_status (tally_decision h params c) m m else m).
  set (c1 := status_loop _ c _).
  assert (Hloop : forall k0 m0, mapModelManifests c !! k0 = Some m0 ->
    mapModelManifests c1 !! k0 = Some (if due m0 then decide_status (tally_decision h params c) m0 m0 else m0)).
  { intros k0 m0 Hm0. destruct (lookup_status_loop (tally_decision h params c) _ c k0 Hnd) as [H1 H2].
    destruct (due m0) eqn:Hd.
    - subst c1. rewrite (H1 m0), Hm0; [done| |by apply Hk]. apply Hin. by rewrite (Hk _ _ Hm0).
    - subst c1. rewrite H2; [done|]. intros [m' [Ek Hm']]%list_elem_of_fmap. apply Hin in Hm' as [? Hm'].
      rewrite <- Ek in Hm'. congruence. }
  assert (Hk1 : manifests_keyed c1).
  { intros k0 m0 Hm0. destruct (mapModelManifests c !! k0) as [m'|] eqn:E.
    - rewrite (Hloop _ _ E) in Hm0. injection Hm0 as <-. rewrite <- (Hk _ _ E).
      destruct (due m'); [apply decide_status_modelId|done].
    - destruct (lookup_status_loop (tally_decision h params c) _ c k0 Hnd) as [_ H2]. subst c1. rewrite H2 in Hm0.
      { congruence. } intros [m' [Ek [_ Hm']%Hin]]%list_elem_of_fmap. congruence. }
  set (app := fun m => (OPOI_MODEL_STATUS_APPROVED <? 0) || (mf_status m =? OPOI_MODEL_STATUS_APPROVED)).
  destruct (listed_manifests app c1 Hk1) as [Hnd1 Hin1].
  destruct (lookup_status_loop (activation_decision h) _ c1 k Hnd1) as [H1 H2].
  pose proof (Hloop _ _ Hm) as Hm1. fold m1 in Hm1. cbv zeta. change (if IsVoting m && _ then _ else m) with m1.
  change (mf_status m1 =? OPOI_MODEL_STATUS_APPROVED) with (app m1).
  destruct (app m1) eqn:Ha.
  - rewrite (H1 m1), Hm1; [done|apply Hin1; by rewrite (Hk1 _ _ Hm1)|by apply Hk1].
  - rewrite H2; [done|]. intros [m' [Ek [? Hm']%Hin1]]%list_elem_of_fmap. congruence.
Qed.

(** * Unstaking *)

Definition after_release (h : Z) (params : Params) (s : OPoIStake) : OPoIStake :=
  if release_due h params s then s <| stake_stakeStatus := OPOI_STAKE_RELEASED |> else s.

Lemma release_locks h params l c out :
  mapLockedUTXOs c !! out = None -> mapLockedUTXOs (foldl (release_stake h params) c l) !! out = None.
Proof.
  intros Hn. apply (foldl_inv (fun c' => mapLockedUTXOs c' !! out = None)); [done|].
  intros c' [k s] _ Hc. unfold release_stake. destruct (release_due h params s); [|done]. cbn.
  rewrite lookup_delete_None. by right.
Qed.

Lemma release_loop h params l c k :
  NoDup l.*1 ->
  ((k ∉ l.*1) -> mapStakes (foldl (release_stake h params) c l) !! k = mapStakes c !! k) /\
  (forall s, (k, s) ∈ l -> mapStakes c !! k = Some s ->
     mapStakes (foldl (release_stake h params) c l) !! k = Some (after_release h params s)
     /\ (release_due h params s = true ->
         mapLockedUTXOs (foldl (release_stake h params) c l) !! stake_collateralIn s = None)).
Proof.
  revert c. induction l as [|[k0 s0] l IH]; intros c Hnd; [split; [done|by intros s ?%elem_of_nil]|].
  rewrite fmap_cons, NoDup_cons in Hnd. destruct Hnd as [Hk0 Hnd]. cbn [foldl].
  destruct (IH (release_stake h params c (k0, s0)) Hnd) as [IH1 IH2].
  assert (Hne : k <> k0 -> mapStakes (release_stake h params c (k0, s0)) !! k = mapStakes c !! k).
  { intros Hne. unfold release_stake. destruct (release_due h params s0); [|done]. cbn. by rewrite lookup_insert_ne. }
  split.
  - rewrite fmap_cons, not_elem_of_cons. intros [? ?]. by rewrite IH1, Hne.
  - intros s [[= -> ->]|Hin]%elem_of_cons Hs.
    + rewrite IH1 by done. unfold release_stake at 1, after_release. destruct (release_due h params s0) eqn:Ed.
      * split; [cbn; by rewrite lookup_insert_eq|]. intros _. apply release_locks. unfold release_stake. rewrite Ed.
        cbn. apply lookup_delete_eq.
      * by split.
    + apply IH2; [done|]. rewrite Hne; [done|]. intros ->. apply Hk0, (list_elem_of_fmap_2 fst _ _ Hin).
Qed.

Lemma expire_challenges_unstaking h params l c k s :
  IsUnstaking s = true -> mapStakes c !! k = Some s ->
  mapStakes (foldl (expire_challenge h params) c l) !! k = Some s.
Proof.
  intros Hu Hs. apply (foldl_inv (fun c' => mapStakes c' !! k = Some s)); [done|].
  intros c' [k0 ch] _ Hc. unfold expire_challenge.
  destruct (IsOpen ch); [by destruct (_ <? _)|]. destruct (IsPendingResolution ch); [|done].
  destruct (_ =? AUDITOR_VERIFY_FAIL); [|by destruct (_ =? AUDITOR_VERIFY_PASS)]. cbn. unfold update_responder.
  destruct (mapResponses c' !! ch_requestId ch) as [resp|]; [|done]. cbn.
  destruct (decide (resp_minerAddress resp = k)) as [->|Hk]; [|by rewrite lookup_alter_ne].
  rewrite lookup_alter_eq, Hc. cbn. unfold slash_active, Stake_IsActive. apply Z.eqb_eq in Hu. by rewrite Hu.
Qed.

(** Unstaking takes exactly the cooldown: the block transition turns an
    unstaking stake into a released one, and unlocks its collateral, when and
    only when the cooldown has elapsed since the unstake was connected; before
    that the stake is untouched. *)
Theorem unstake_releases_after_cooldown (h : Z) (params : Params) (c : OPoICache) (k : string) (s : OPoIStake) :
  mapStakes c !! k = Some s -> IsUnstaking s = true -> 0 <= stake_unstakeHeight s <= h -> h < 2 ^ 31 ->
  let c' := ProcessExpiredChallenges h params c in
  (h - stake_unstakeHeight s < nOPoIUnstakeCooldownBlocks params -> mapStakes c' !! k = Some s) /\
  (nOPoIUnstakeCooldownBlocks params <= h - stake_unstakeHeight s ->
   mapStakes c' !! k = Some (s <| stake_stakeStatus := OPOI_STAKE_RELEASED |>)
   /\ mapLockedUTXOs c' !! stake_collateralIn s = None).
Proof.
  intros Hs Hu Hh Hb. unfold ProcessExpiredChallenges. cbv zeta.
  set (c1 := foldl (expire_challenge h params) c _).
  assert (Hs1 : mapStakes c1 !! k = Some s) by by apply expire_challenges_unstaking.
  destruct (release_loop h params (items (mapStakes c1)) c1 k (NoDup_items_keys _)) as [_ Hr].
  destruct (Hr s ltac:(by apply elem_of_items) Hs1) as [-> Hl]. unfold after_release.
  assert (Hd : release_due h params s = (nOPoIUnstakeCooldownBlocks params <=? h - stake_unstakeHeight s)).
  { unfold release_due. by rewrite Hu, age_small. }
  rewrite Hd in *. destruct (Z.leb_spec (nOPoIUnstakeCooldownBlocks params) (h - stake_unstakeHeight s)); split; try lia; auto.
Qed.

(** * Canary rotation *)

Lemma select_canary_spec h params c a s :
  0 <= h < 2 ^ 32 -> 0 < nOPoICanaryAuditFrequency params < 2 ^ 32 ->
  (nOPoICanaryAuditFrequency params | h) ->
  active_addresses c !! Z.to_nat ((h / nOPoICanaryAuditFrequency params) mod Z.of_nat (length (active_addresses c))) = Some a ->
  mapStakes c !! a = Some s ->
  mapStakes (select_canary h params c) !! a =
    Some (s <| stake_canaryObligationDeadline := u32 (h + u32 (Z.max 1 (nOPoICanaryResponseWindow params))) |>)
  /\ forall b, b <> a -> mapStakes (select_canary h params c) !! b = mapStakes c !! b.
Proof.
  intros Hh Hf Hd Ha Hs. unfold select_canary. rewrite (u32_small (nOPoICanaryAuditFrequency params)) by (unfold in_u32; lia).
  apply Z.mod_divide in Hd; [|lia]. rewrite Hd. cbn [Z.eqb negb]. cbv zeta. rewrite Ha.
  destruct (active_addresses c); [by rewrite lookup_nil in Ha|]. cbn [mapStakes set].
  split; [by rewrite lookup_alter_eq, Hs|]. intros b Hb. by rewrite lookup_alter_ne.
Qed.

Lemma elem_of_active_addresses a c : a ∈ active_addresses c <-> IsActiveStaker a c = true.
Proof.
  unfold active_addresses, IsActiveStaker. rewrite list_elem_of_fmap. split.
  - intros [[k s] [-> Hin]]. apply list_elem_of_In, filter_In in Hin as [Hin Ha]. apply list_elem_of_In in Hin.
    apply elem_of_items in Hin. cbn in *. by rewrite Hin.
  - destruct (mapStakes c !! a) as [s|] eqn:E; [|done]. intros Ha. exists (a, s). split; [done|].
    apply list_elem_of_In, filter_In. split; [apply list_elem_of_In; by apply elem_of_items|done].
Qed.

(** The canary rotation is fair: while the set of active stakers does not
    change, every active staker is put under a canary obligation within any
    stretch of as many audit cycles as there are active stakers, and each
    selection leaves every other stake alone. *)
Theorem canary_rotation_fair (params : Params) (c : OPoICache) (a : string) (q : Z) :
  let n := Z.of_nat (length (active_addresses c)) in let f := nOPoICanaryAuditFrequency params in
  IsActiveStaker a c = true -> 0 < f < 2 ^ 32 -> 0 <= q -> (q + n) * f < 2 ^ 32 ->
  exists j s, 0 <= j < n /\ mapStakes c !! a = Some s /\
    let h := (q + j) * f in
    mapStakes (select_canary h params c) !! a =
      Some (s <| stake_canaryObligationDeadline := u32 (h + u32 (Z.max 1 (nOPoICanaryResponseWindow params))) |>)
    /\ forall b, b <> a -> mapStakes (select_canary h params c) !! b = mapStakes c !! b.
Proof.
  cbv zeta. intros Ha Hf Hq Hb. set (n := Z.of_nat (length (active_addresses c))) in *.
  pose proof Ha as Hin. apply elem_of_active_addresses, list_elem_of_lookup in Hin as [i Hi].
  pose proof (lookup_lt_Some _ _ _ Hi) as Hlt. assert (Hn : 0 < n) by lia.
  unfold IsActiveStaker in Ha. destruct (mapStakes c !! a) as [s|] eqn:Hs; [|done].
  set (j := (Z.of_nat i - q) mod n). pose proof (Z.mod_pos_bound (Z.of_nat i - q) n Hn) as Hj. fold j in Hj.
  assert (Hidx : (q + j) mod n = Z.of_nat i).
  { unfold j. rewrite Z.add_mod_idemp_r by lia. replace (q + (Z.of_nat i - q)) with (Z.of_nat i) by lia.
    apply Z.mod_small. lia. }
  exists j, s. split; [done|]. split; [done|].
  apply (select_canary_spec _ params c a s); [nia|done|by apply Z.divide_factor_r| |done].
  rewrite Z.div_mul by lia. fold n. by rewrite Hidx, Nat2Z.id.
Qed.

(** * Concrete instances *)

#[local] Existing Instance toyCrypto.

Lemma request_lifecycle_witness :
  mapRequests (request_ticks regTestParams (seqZ 100 11) (AddRequest (sample_request 100 2) emptyCache)) !! "r1" =
  Some (request_after regTestParams 10 (sample_request 100 2)) /\
  req_commitWindowClosed (request_after regTestParams 10 (sample_request 100 2)) = true.
Proof.
  split; [|reflexivity].
  apply (request_lifecycle regTestParams (AddRequest (sample_request 100 2) emptyCache) "r1" (sample_request 100 2) 10);
    concrete.
Defined.

Definition sample_vote (auditor : string) (n : Z) : AuditorVerification :=
  mkAuditorVerification "r1" auditor AUDITOR_VERIFY_FAIL (mkCOutPoint 500 n) 120 7 OPOI_AUDITOR_STATUS_PENDING
    OPOI_AUDITOR_VERIFY_NO_SHARD.

(** A revealed challenge that three auditors have just decided. *)
Definition sample_disputed : OPoICache :=
  foldl (fun c fv => AddAuditorVerification fv c)
    (AddChallenge ((challenge_of 120 sample_challenge) <| ch_challengeStatus := OPOI_CHALLENGE_REVEALED_PENDING |>)
       sample_answered)
    [sample_vote "a1" 1; sample_vote "a2" 2; sample_vote "a3" 3].

Lemma slash_requires_auditor_verdict_witness : verdict_against mainParams "m" sample_disputed.
Proof. apply (slash_requires_auditor_verdict mainParams toyChain 121 "m" sample_disputed); vm_compute; reflexivity. Defined.

Lemma model_governance_step_witness :
  mapModelManifests (ProcessModelVotingWindows 20 mainParams (AddModelManifest sample_moe emptyCache)) !! "MIXTRAL" =
  Some (manifest_after 20 mainParams (AddModelManifest sample_moe emptyCache) sample_moe).
Proof.
  apply model_governance_step; [|vm_compute; reflexivity]. intros k m Hm. unfold AddModelManifest in Hm.
  cbn in Hm. apply lookup_insert_Some in Hm as [[<- <-]|[_ Hm]]; [reflexivity|by rewrite lookup_empty in Hm].
Defined.

Lemma unstake_releases_after_cooldown_witness :
  let s := sample_miner <| stake_stakeStatus := OPOI_STAKE_UNSTAKING |> <| stake_unstakeHeight := 50 |> in
  let c := AddStake s emptyCache in
  mapStakes (ProcessExpiredChallenges 60 regTestParams c) !! "m" =
  Some (s <| stake_stakeStatus := OPOI_STAKE_RELEASED |>).
Proof.
  apply (unstake_releases_after_cooldown 60 regTestParams (AddStake (sample_miner
    <| stake_stakeStatus := OPOI_STAKE_UNSTAKING |> <| stake_unstakeHeight := 50 |>) emptyCache)); concrete.
Defined.

Lemma canary_rotation_fair_witness :
  exists j s, 0 <= j < 1 /\ mapStakes (AddStake sample_miner emptyCache) !! "m" = Some s /\
    let h := (7 + j) * 14 in
    mapStakes (select_canary h regTestParams (AddStake sample_miner emptyCache)) !! "m" =
      Some (s <| stake_canaryObligationDeadline := u32 (h + u32 (Z.max 1 12)) |>)
    /\ forall b, b <> "m" -> mapStakes (select_canary h regTestParams (AddStake sample_miner emptyCache)) !! b
         = mapStakes (AddStake sample_miner emptyCache) !! b.
Proof. apply (canary_rotation_fair regTestParams (AddStake sample_miner emptyCache) "m" 7); concrete. Defined.

(** The approval test rounds: with a billion coins and one unit staked, votes
    worth 66% of a billion coins pass although they are below 66% of the stake. *)
Theorem model_approval_rounds :
  let total := 1000000000 * COIN + 1 in let yes := 660000000 * COIN in
  yes * 100 < total * nOPoIModelApprovalPct mainParams /\ MoneyRange total = true /\
  model_approved mainParams yes total = true.
Proof. vm_compute. repeat split; reflexivity. Qed.
