(* ===== verification/Payments.v ===== *)
(** Payments (opoi/opoi.cpp): what the coinbase of a block owes to the miners
    of responses, shards and verified answers and to challengers, and the
    checks [CheckOPoIPayments] and [CheckOPoIChallengerRewards] run on it.

    The obligations of a block do not depend on what has been checked so far,
    so each kind is computed as a list; [CheckOPoIPayments] walks the four
    lists in order with the set of used outputs and the running total. *)

From stdpp Require Import gmap strings list sorting.
From Stdlib Require Import ZArith Lia.
From S2P Require Import Prelude Params Uint256 Transaction Platform Shard Records Majority.
From S2P Require Import Cache Sortition CheckTx ProcessTx.

Open Scope verdict_scope.

Record OPoIShardPayment := mkOPoIShardPayment {
  sp_requestId : string;
  sp_shardIndex : Z;
  sp_minerAddress : string;
  sp_amount : Z;
}.

Record OPoIResponsePayment := mkOPoIResponsePayment {
  rp_requestId : string;
  rp_minerAddress : string;
  rp_amount : Z;
}.

Record OPoIChallengerReward := mkOPoIChallengerReward {
  challengerAddress : string;
  rewardAmount : Z;
  rw_requestId : string;
  treasuryAmount : Z;
}.

(** Whether a transaction of a block is an OPoI transaction of a type. *)
Definition is_type (t : Z) (tx : CTransaction) : bool := (nVersion tx =? OPOI_TX_VERSION) && (nType tx =? t).

(** [payment + tokenCount * feePerToken]. *)
Definition total_payment (req : OPoIRequest) (tokenCount : Z) : Z :=
  if (0 <? req_feePerToken req) && (0 <? tokenCount)
  then i64 (req_payment req + i64 (tokenCount * req_feePerToken req))
  else req_payment req.

(** * Shard payments *)

Section shard_payments.
Context (params : Params) (c : OPoICache).

(** [GetEffectiveShardMinSubmissions]. *)
Definition GetEffectiveShardMinSubmissions (req : OPoIRequest) (shardIndex : Z) : Z :=
  let configuredMin := nOPoIShardMinSubmissions params in
  match GetModelManifest (req_model req) c with
  | None => configuredMin
  | Some manifest =>
    if negb (Manifest_IsActive manifest) then configuredMin
    else
      let meg := BuildModelExecutionGraph manifest (ShouldCollapseToTitanSingleNode manifest params c) in
      match meg !! Z.to_nat shardIndex with
      | None => configuredMin
      | Some d =>
        let available := if shardType d =? OPOI_SHARD_EXPERT then CountActiveExpertHosts (expertId d) c
                         else CountActiveStakers c in
        if (0 <? available) && (available <? configuredMin) then available else configuredMin
      end
  end.

(** Whether a transaction submits a result for this shard. *)
Definition submits (requestId : string) (shardIndex : Z) (tx : CTransaction) : bool :=
  is_type OPOI_SHARD_RESULT_TX_TYPE tx && bool_decide (opoiRequestId tx = requestId)
  && (opoiShardIndex tx =? shardIndex).

(** The submissions of the cache joined with those of the block, the first
    of each miner counting. *)
Definition merge_submission (requestId : string) (shardIndex : Z) (subs : list ShardResultSubmission)
    (tx : CTransaction) : list ShardResultSubmission :=
  if submits requestId shardIndex tx
     && negb (existsb (fun s => bool_decide (sub_minerAddress s = opoiMinerAddress tx)) subs)
  then subs ++ [mkShardResultSubmission (opoiMinerAddress tx) (opoiResponseHash tx) 0 (opoiTokenCount tx) 0 0]
  else subs.

Definition combined_submissions (requestId : string) (shardIndex : Z) (txs : list CTransaction)
    : list ShardResultSubmission :=
  foldl (merge_submission requestId shardIndex) (ListShardResults requestId shardIndex c) txs.

Definition shard_weight (d : ShardDescriptor) : Z :=
  if shardType d =? OPOI_SHARD_DENSE then u64 (u32 (layerEnd d - layerStart d)) else 1.

(** The share of a shard in the base payment; [None] when the shard is not
    part of the model. *)
Definition shard_share (req : OPoIRequest) (shardIndex_ : Z) : option Z :=
  match GetModelManifest (req_model req) c with
  | Some manifest =>
    if Manifest_IsActive manifest then
      let meg := BuildModelExecutionGraph manifest (ShouldCollapseToTitanSingleNode manifest params c) in
      let totalWeight := foldl (fun w d => u64 (w + shard_weight d)) 0 meg in
      let mine := foldl (fun acc d => if shardIndex d =? shardIndex_ then Some (shard_weight d) else acc) None meg in
      match mine with
      | None => None
      | Some myWeight =>
        if totalWeight =? 0 then None
        else Some (Z.quot (i64 (req_payment req * i64 myWeight)) (i64 totalWeight))
      end
    else Some (req_payment req)
  | None => Some (req_payment req)
  end.

(** The payments of one touched shard. *)
Definition shard_payments (txs : list CTransaction) (key : string * Z) : list OPoIShardPayment :=
  let '(requestId, shardIndex) := key in
  if IsShardPaid requestId shardIndex c then []
  else
    match GetRequest requestId c with
    | None => []
    | Some req =>
      if req_payment req <=? 0 then []
      else
        match ComputeShardMajority (combined_submissions requestId shardIndex txs)
                (GetEffectiveShardMinSubmissions req shardIndex) with
        | None => []
        | Some maj =>
          if is_nil (agreeing maj) then []
          else
            match shard_share req shardIndex with
            | None => []
            | Some shardShare =>
              if shardShare <=? 0 then []
              else
                let perShardTotal :=
                  if (0 <? req_feePerToken req) && (0 <? majorityTokenCount maj)
                  then i64 (shardShare + i64 (majorityTokenCount maj * req_feePerToken req))
                  else shardShare in
                let perMiner := Z.quot perShardTotal (Z.of_nat (length (agreeing maj))) in
                if perMiner <=? 0 then []
                else map (fun addr => mkOPoIShardPayment requestId shardIndex addr perMiner) (agreeing maj)
            end
        end
    end.

(** The distinct shards the block touches, in the order of
    [std::set<std::pair<std::string, uint32_t>>]. *)
Definition shard_key_le (p q : string * Z) : Prop :=
  if decide (p.1 = q.1) then p.2 <= q.2 else String.le p.1 q.1.

#[global] Instance shard_key_le_dec : RelDecision shard_key_le.
Proof. intros p q. unfold shard_key_le. destruct (decide (p.1 = q.1)); apply _. Defined.

Definition touched_shards (txs : list CTransaction) : list (string * Z) :=
  merge_sort shard_key_le (remove_dups (map (fun tx => (opoiRequestId tx, opoiShardIndex tx))
    (List.filter (is_type OPOI_SHARD_RESULT_TX_TYPE) txs))).

(** [GetShardPaymentsForBlock]; the coinbase, [vtx[0]], is skipped. *)
Definition GetShardPaymentsForBlock (vtx : list CTransaction) : list OPoIShardPayment :=
  flat_map (shard_payments (tail vtx)) (touched_shards (tail vtx)).

(** [ProcessShardPayments]. *)
Definition ProcessShardPayments (vtx : list CTransaction) : OPoICache :=
  foldl (fun c p => MarkShardPaid (sp_requestId p) (sp_shardIndex p) c) c (GetShardPaymentsForBlock vtx).

(** * Verified responses *)

Definition merge_verification (requestId : string) (verifs : list AuditorVerification) (tx : CTransaction)
    : list AuditorVerification :=
  if is_type OPOI_AUDITOR_VERIFY_TX_TYPE tx && bool_decide (opoiRequestId tx = requestId)
     && negb (has_voted (opoiAuditorAddress tx) verifs)
  then verifs ++ [mkAuditorVerification "" (opoiAuditorAddress tx) (opoiAuditorVerifyResult tx) COutPoint_null 0 0 0 0]
  else verifs.

Definition combined_verifications (requestId : string) (txs : list CTransaction) : list AuditorVerification :=
  foldl (merge_verification requestId) (GetAuditorVerifications requestId c) txs.

Definition verifiable_payment (txs : list CTransaction) (resp : OPoIResponse) : list OPoIResponsePayment :=
  if IsResponsePaid (resp_requestId resp) c then []
  else
    match GetRequest (resp_requestId resp) c with
    | None => []
    | Some req =>
      if negb (IsVerifiable req) || (req_payment req <=? 0) then []
      else if negb (ComputeAuditorMajority (combined_verifications (resp_requestId resp) txs)
                      (nOPoIMinAuditors params) =? AUDITOR_VERIFY_PASS) then []
      else [mkOPoIResponsePayment (resp_requestId resp) (resp_minerAddress resp)
              (total_payment req (resp_tokenCount resp))]
    end.

(** [GetVerifiablePaymentsForBlock]. *)
Definition GetVerifiablePaymentsForBlock (vtx : list CTransaction) : list OPoIResponsePayment :=
  flat_map (verifiable_payment (tail vtx)) (ListResponses c).

Definition mark_responses (ps : list OPoIResponsePayment) (c : OPoICache) : OPoICache :=
  foldl (fun c p => MarkResponsePaid (rp_requestId p) c) c ps.

(** [ProcessVerifiableResponsePayments]. *)
Definition ProcessVerifiableResponsePayments (vtx : list CTransaction) : OPoICache :=
  mark_responses (GetVerifiablePaymentsForBlock vtx) c.

(** * Audit-sampled responses *)

Definition sampled_payment (txs : list CTransaction) (currentHeight : Z) (resp : OPoIResponse)
    : list OPoIResponsePayment :=
  if negb (auditSelected resp) then []
  else if IsResponsePaid (resp_requestId resp) c then []
  else
    match GetRequest (resp_requestId resp) c with
    | None => []
    | Some req =>
      if IsVerifiable req || (req_payment req <=? 0) then []
      else
        let majority := ComputeAuditorMajority (combined_verifications (resp_requestId resp) txs)
                          (nOPoIMinAuditors params) in
        let payNow :=
          if majority =? AUDITOR_VERIFY_PASS then true
          else (majority <? 0) && (0 <? resp_auditDeadline resp) && (resp_auditDeadline resp <? currentHeight) in
        if payNow then [mkOPoIResponsePayment (resp_requestId resp) (resp_minerAddress resp)
                          (total_payment req (resp_tokenCount resp))]
        else []
    end.

(** [GetAuditSampledOpenPaymentsForBlock]. *)
Definition GetAuditSampledOpenPaymentsForBlock (vtx : list CTransaction) (currentHeight : Z)
    : list OPoIResponsePayment :=
  flat_map (sampled_payment (tail vtx) currentHeight) (ListResponses c).

(** [ProcessAuditSampledOpenResponsePayments]. *)
Definition ProcessAuditSampledOpenResponsePayments (vtx : list CTransaction) (currentHeight : Z) : OPoICache :=
  mark_responses (GetAuditSampledOpenPaymentsForBlock vtx currentHeight) c.

(** * Challenger rewards *)

Definition tryReward (requestId challenger : string) : list OPoIChallengerReward :=
  if IsChallengerRewardPaid requestId c then []
  else
    match mapResponses c !! requestId with
    | None => []
    | Some resp =>
      match mapStakes c !! resp_minerAddress resp with
      | None => []
      | Some stake =>
        let reward := Z.quot (i64 (stake_amount stake * nOPoIChallengerRewardPct params)) 100 in
        let treasuryReward := Z.quot (i64 (stake_amount stake * nOPoITreasuryRewardPct params)) 100 in
        if (reward <=? 0) && (treasuryReward <=? 0) then []
        else [mkOPoIChallengerReward challenger reward requestId treasuryReward]
      end
    end.

(** A REVEAL of this block that resolves against the miner right now. *)
Definition reveal_reward (tx : CTransaction) : list OPoIChallengerReward :=
  if negb (is_type OPOI_CHALLENGE_TX_TYPE tx) || negb (opoiChallengePhase tx =? 1) then []
  else
    match GetChallenge (opoiRequestId tx) c, GetRequest (opoiRequestId tx) c with
    | Some ch, Some req =>
      if IsOpen ch && IsVerifiable req
         && (GetAuditorMajorityResult (opoiRequestId tx) (nOPoIMinAuditors params) c =? AUDITOR_VERIFY_FAIL)
      then tryReward (opoiRequestId tx) (opoiRequester tx)
      else []
    | _, _ => []
    end.

(** [GetChallengerRewardsAtHeight]; the height is only logged. *)
Definition GetChallengerRewardsAtHeight (vtx : list CTransaction) : list OPoIChallengerReward :=
  if (nOPoIChallengerRewardPct params <=? 0) && (nOPoITreasuryRewardPct params <=? 0) then []
  else
    flat_map (fun ch => if ch_challengeStatus ch =? OPOI_CHALLENGE_SLASHED
                        then tryReward (ch_requestId ch) (ch_challengerAddress ch) else [])
      (items (mapChallenges c)).*2
    ++ flat_map reveal_reward (tail vtx).

(** [ProcessChallengerRewardPayments]. *)
Definition ProcessChallengerRewardPayments (vtx : list CTransaction) : OPoICache :=
  foldl (fun c r => MarkChallengerRewardPaid (rw_requestId r) c) c (GetChallengerRewardsAtHeight vtx).
End shard_payments.

(** * The check of the coinbase *)

(** A payment the coinbase must make, with the rejections of its kind. *)
Record Obligation := mkObligation {
  ob_address : string;
  ob_amount : Z;
  ob_bad_address : string;
  ob_missing : string;
}.

Section check_payments.
Context `{Crypto} (params : Params) (chain : Chain) (nHeight : Z) (c : OPoICache).

(** A RESPONSE of the block, when it is payable at once. *)
Definition response_obligation (tx : CTransaction) : list Obligation :=
  if negb (is_type OPOI_RESPONSE_TX_TYPE tx) || negb (opoiResponsePhase tx =? 1) then []
  else
    match GetRequest (opoiRequestId tx) c with
    | None => []
    | Some req =>
      if (req_payment req <=? 0) || IsVerifiable req then []
      else if fst (audit_sample chain c (opoiRequestId tx) (opoiMinerAddress tx) (u32 nHeight) params) then []
      else [mkObligation (opoiMinerAddress tx) (total_payment req (opoiTokenCount tx))
              "bad-cb-opoi-invalid-miner-addr" "bad-cb-opoi-missing-payment"]
    end.

(** The shard payments summed per miner, in the order of the addresses. *)
Definition aggregate (ps : list OPoIShardPayment) : gmap string Z :=
  foldl (fun m p => <[sp_minerAddress p := i64 (default 0 (m !! sp_minerAddress p) + sp_amount p)]> m) ∅ ps.

Definition shard_obligations (vtx : list CTransaction) : list Obligation :=
  map (fun kv => mkObligation kv.1 kv.2 "bad-cb-opoi-invalid-shard-miner-addr" "bad-cb-opoi-missing-shard-payment")
    (items (aggregate (GetShardPaymentsForBlock params c vtx))).

Definition verifiable_obligations (vtx : list CTransaction) : list Obligation :=
  map (fun p => mkObligation (rp_minerAddress p) (rp_amount p) "bad-cb-opoi-invalid-verifiable-miner-addr"
                  "bad-cb-opoi-missing-verifiable-payment")
    (GetVerifiablePaymentsForBlock params c vtx).

Definition sampled_obligations (vtx : list CTransaction) : list Obligation :=
  map (fun p => mkObligation (rp_minerAddress p) (rp_amount p) "bad-cb-opoi-invalid-audit-sample-miner-addr"
                  "bad-cb-opoi-missing-audit-sample-payment")
    (GetAuditSampledOpenPaymentsForBlock params c vtx (u32 nHeight)).

Definition obligations (vtx : list CTransaction) : list Obligation :=
  flat_map response_obligation (tail vtx) ++ shard_obligations vtx ++ verifiable_obligations vtx
  ++ sampled_obligations vtx.

(** [findAndClaimOutput]: the first unused output with this script and
    amount is used up. *)
Fixpoint findAndClaimOutput (outs : list (bool * CTxOut)) (expectedScript : bytes) (amount : Z)
    : option (list (bool * CTxOut)) :=
  match outs with
  | [] => None
  | (used, out) :: outs' =>
    if negb used && bool_decide (scriptPubKey out = expectedScript) && (nValue out =? amount)
    then Some ((true, out) :: outs')
    else cons (used, out) <$> findAndClaimOutput outs' expectedScript amount
  end.

(** The loop over the obligations: the outputs with their marks and
    [totalPaymentsChecked]. *)
Fixpoint claim_all (budget : Z) (obs : list Obligation) (outs : list (bool * CTxOut)) (total : Z) : Verdict :=
  match obs with
  | [] => Accept
  | ob :: obs' =>
    if budget <? i64 (total + ob_amount ob) then claim_all budget obs' outs total
    else
      reject DoS 100 (ob_bad_address ob) when negb (IsValidDestination (DecodeDestination (ob_address ob)));
      match findAndClaimOutput outs (GetScriptForDestination (DecodeDestination (ob_address ob))) (ob_amount ob) with
      | None => DoS 100 (ob_missing ob)
      | Some outs' => claim_all budget obs' outs' (i64 (total + ob_amount ob))
      end
  end.

(** [CheckOPoIPayments]. *)
Definition CheckOPoIPayments (vtx : list CTransaction) : Verdict :=
  match vtx with
  | [] => Accept
  | coinbase :: _ =>
    claim_all (opoiBudget nHeight params) (obligations vtx) (map (pair false) (vout coinbase)) 0
  end.

(** [CheckOPoIChallengerRewards]; outputs are not used up here. *)
Definition has_output (outs : list CTxOut) (expectedScript : bytes) (amount : Z) : bool :=
  existsb (fun out => bool_decide (scriptPubKey out = expectedScript) && (nValue out =? amount)) outs.

Fixpoint check_rewards (outs : list CTxOut) (totalCoinbaseValue : Z) (rewards : list OPoIChallengerReward)
    (checkedTotal : Z) (next : Z -> Verdict) : Verdict :=
  match rewards with
  | [] => next checkedTotal
  | r :: rewards' =>
    if totalCoinbaseValue <? i64 (checkedTotal + rewardAmount r)
    then check_rewards outs totalCoinbaseValue rewards' checkedTotal next
    else
      let dest := DecodeDestination (challengerAddress r) in
      reject DoS 100 "bad-cb-opoi-invalid-challenger-addr" when negb (IsValidDestination dest);
      reject DoS 100 "bad-cb-opoi-missing-challenger-reward"
        when negb (has_output outs (GetScriptForDestination dest) (rewardAmount r));
      check_rewards outs totalCoinbaseValue rewards' (i64 (checkedTotal + rewardAmount r)) next
  end.

Definition CheckOPoIChallengerRewards (treasuryAddress : string) (vtx : list CTransaction) : Verdict :=
  match vtx with
  | [] => Accept
  | coinbase :: _ =>
    let outs := vout coinbase in
    let totalCoinbaseValue := foldl (fun t out => i64 (t + nValue out)) 0 outs in
    let rewards := GetChallengerRewardsAtHeight params c vtx in
    check_rewards outs totalCoinbaseValue rewards 0 (fun checkedTotal =>
      let totalTreasuryReward := foldl (fun t r => i64 (t + treasuryAmount r)) 0 rewards in
      if totalTreasuryReward <=? 0 then Accept
      else if totalCoinbaseValue <? i64 (checkedTotal + totalTreasuryReward) then Accept
      else
        let dest := DecodeDestination treasuryAddress in
        reject DoS 100 "bad-cb-opoi-invalid-treasury-addr" when negb (IsValidDestination dest);
        reject DoS 100 "bad-cb-opoi-missing-treasury-reward"
          when negb (has_output outs (GetScriptForDestination dest) totalTreasuryReward);
        Accept)
  end.
End check_payments.

(** * What the check of the payments decides *)

(** The obligations that fit the budget, in the order of the block. *)
Fixpoint payable (budget : Z) (obs : list Obligation) (total : Z) : list Obligation :=
  match obs with
  | [] => []
  | ob :: obs' =>
    if budget <? i64 (total + ob_amount ob) then payable budget obs' total
    else ob :: payable budget obs' (i64 (total + ob_amount ob))
  end.

Definition sum_amounts (obs : list Obligation) : Z := foldr Z.add 0 (map ob_amount obs).

(** The outputs not used up yet. *)
Definition unused (outs : list (bool * CTxOut)) : list CTxOut :=
  map snd (List.filter (fun p => negb p.1) outs).

Section payments_check.
Context `{Crypto}.

(** The output an obligation asks for. *)
Definition output_of (ob : Obligation) : CTxOut :=
  mkCTxOut (ob_amount ob) (GetScriptForDestination (DecodeDestination (ob_address ob))).

Definition payee_valid (ob : Obligation) : Prop := IsValidDestination (DecodeDestination (ob_address ob)) = true.

Lemma claim_found outs script amount outs' :
  findAndClaimOutput outs script amount = Some outs' ->
  unused outs ≡ₚ mkCTxOut amount script :: unused outs'.
Proof.
  revert outs'. induction outs as [|[used out] outs IH]; intros outs' Hf; [done|]. cbn [findAndClaimOutput] in Hf.
  destruct (negb used && _ && _) eqn:Em.
  - injection Hf as <-. apply andb_true_iff in Em as [[Hu Hs]%andb_true_iff Ha].
    destruct used; [done|]. apply bool_decide_eq_true in Hs. apply Z.eqb_eq in Ha. subst. by destruct out.
  - destruct (findAndClaimOutput outs script amount) as [rest|]; [|done]. injection Hf as <-.
    specialize (IH _ eq_refl). unfold unused in *. cbn. destruct used; cbn; [done|]. rewrite IH. constructor.
Qed.

Lemma claim_missing outs script amount :
  findAndClaimOutput outs script amount = None -> ~ mkCTxOut amount script ∈ unused outs.
Proof.
  induction outs as [|[used out] outs IH]; intros Hf; [apply not_elem_of_nil|]. cbn [findAndClaimOutput] in Hf.
  destruct (negb used && _ && _) eqn:Em; [done|].
  destruct (findAndClaimOutput outs script amount); [done|]. specialize (IH eq_refl).
  unfold unused in *. cbn. destruct used; cbn; [done|]. intros [<-|Hin]%elem_of_cons; [|done].
  cbn in Em. by rewrite bool_decide_eq_true_2, Z.eqb_refl in Em.
Qed.

Lemma claim_all_iff budget obs outs total :
  claim_all budget obs outs total = Accept <->
  Forall payee_valid (payable budget obs total) /\ map output_of (payable budget obs total) ⊆+ unused outs.
Proof.
  revert outs total. induction obs as [|ob obs IH]; intros outs total; cbn [claim_all payable].
  { split; [|done]. intros _. split; [constructor|apply submseteq_nil_l]. }
  destruct (budget <? i64 (total + ob_amount ob)); [apply IH|]. cbn [map]. rewrite Forall_cons. unfold DoS at 1.
  rewrite accept_guard, negb_false_iff. fold (payee_valid ob).
  destruct (findAndClaimOutput outs _ (ob_amount ob)) as [outs'|] eqn:Ef.
  - rewrite IH, (claim_found _ _ _ _ Ef). fold (output_of ob).
    split; [|intros [[? ?] Hs]; split; [done|]; split; [done|by apply (submseteq_app_inv_l _ _ [output_of ob])]].
    intros (? & ? & ?). split; [done|]. by apply submseteq_skip.
  - split; [by intros [_ ?]|]. intros [_ Hs]. destruct (claim_missing _ _ _ Ef).
    apply (elem_of_submseteq _ _ _ (list_elem_of_here _ _) Hs).
Qed.

Lemma unused_fresh outs : unused (map (pair false) outs) = outs.
Proof. unfold unused. induction outs as [|o outs IH]; [done|]. cbn. by rewrite IH. Qed.

(** C22. The payment check is exact: a block passes if and only if, of the
    obligations of its transactions, those that fit the budget in block
    order all name a valid destination and all have an output of their own,
    with the same script and amount, in the coinbase.  No output satisfies
    two obligations, and no better assignment of outputs is missed. *)
Theorem payments_check_exact (params : Params) (chain : Chain) (nHeight : Z) (c : OPoICache)
    (coinbase : CTransaction) (txs : list CTransaction) :
  let due := payable (opoiBudget nHeight params) (obligations params chain nHeight c (coinbase :: txs)) 0 in
  CheckOPoIPayments params chain nHeight c (coinbase :: txs) = Accept <->
  Forall payee_valid due /\ map output_of due ⊆+ vout coinbase.
Proof. cbv zeta. unfold CheckOPoIPayments. by rewrite claim_all_iff, unused_fresh. Qed.
End payments_check.

Lemma payable_bound budget obs total :
  0 <= total <= budget -> budget < 2 ^ 62 -> Forall (fun ob => 0 <= ob_amount ob < 2 ^ 62) obs ->
  0 <= sum_amounts (payable budget obs total) <= budget - total.
Proof.
  intros Ht Hb Hobs. revert total Ht. induction Hobs as [|ob obs Ha Hobs IH]; intros total Ht; [cbn; lia|].
  cbn [payable]. assert (E : i64 (total + ob_amount ob) = total + ob_amount ob).
  { apply i64_small. unfold in_i64. lia. }
  rewrite E. destruct (Z.ltb_spec budget (total + ob_amount ob)); [by apply IH|].
  specialize (IH (total + ob_amount ob) ltac:(lia)). unfold sum_amounts in *. cbn [map foldr]. lia.
Qed.

(** The payments a block owes never exceed a tenth of its subsidy, on any
    network where the subsystem is active, as long as the amounts are
    non-negative and below 2^62. *)
Theorem payments_within_budget (params : Params) (nHeight : Z) (obs : list Obligation) :
  params ∈ networks -> 0 <= nHeight -> NetworkUpgradeActive nHeight params UPGRADE_OPOI = true ->
  Forall (fun ob => 0 <= ob_amount ob < 2 ^ 62) obs ->
  0 <= sum_amounts (payable (opoiBudget nHeight params) obs 0) <= GetBlockSubsidy nHeight params / 10.
Proof.
  intros Hp Hh Hact Hobs. destruct (opoi_budget_tenth params nHeight Hp Hh Hact) as [E Hb].
  pose proof (payable_bound (opoiBudget nHeight params) obs 0 ltac:(lia) ltac:(lia) Hobs). lia.
Qed.

Lemma payments_within_budget_witness :
  let obs := [mkObligation "a" 500000000 "" ""; mkObligation "b" 900000000 "" ""] in
  0 <= sum_amounts (payable (opoiBudget 700000 mainParams) obs 0) <= GetBlockSubsidy 700000 mainParams / 10.
Proof.
  apply payments_within_budget; [left|lia|vm_compute; reflexivity|].
  repeat constructor; vm_compute; discriminate || reflexivity.
Defined.

(** * Marked and unmarked obligations *)

(** A loop that marks the key of each element leaves every key marked. *)
Lemma foldl_marks {A} (marked : OPoICache -> gset string) (mark : A -> OPoICache -> OPoICache) (key : A -> string)
    (ps : list A) (c : OPoICache) (p : A) :
  (forall a c, marked (mark a c) = {[key a]} ∪ marked c) -> p ∈ ps ->
  key p ∈ marked (foldl (fun c a => mark a c) c ps).
Proof.
  intros Hm Hp. enough (Hset : forall c, marked (foldl (fun c a => mark a c) c ps) = list_to_set (key <$> ps) ∪ marked c).
  { rewrite Hset. apply elem_of_union_l, elem_of_list_to_set. by apply list_elem_of_fmap_2. }
  clear Hp c. induction ps as [|q ps IH]; intros c; cbn [foldl]; [set_solver|]. rewrite IH, Hm. set_solver.
Qed.

Lemma marked_shards_paid ps c p :
  p ∈ ps -> IsShardPaid (sp_requestId p) (sp_shardIndex p)
    (foldl (fun c p => MarkShardPaid (sp_requestId p) (sp_shardIndex p) c) c ps) = true.
Proof.
  intros Hp. apply bool_decide_eq_true.
  by apply (foldl_marks setPaidShards (fun p => MarkShardPaid (sp_requestId p) (sp_shardIndex p))
              (fun p => ShardKey (sp_requestId p) (sp_shardIndex p))).
Qed.

Lemma marked_responses_paid ps c p : p ∈ ps -> IsResponsePaid (rp_requestId p) (mark_responses ps c) = true.
Proof.
  intros Hp. apply bool_decide_eq_true.
  by apply (foldl_marks setPaidResponses (fun p => MarkResponsePaid (rp_requestId p)) rp_requestId).
Qed.

Lemma marked_rewards_paid rs c r :
  r ∈ rs -> IsChallengerRewardPaid (rw_requestId r)
    (foldl (fun c r => MarkChallengerRewardPaid (rw_requestId r) c) c rs) = true.
Proof.
  intros Hr. apply bool_decide_eq_true.
  by apply (foldl_marks setPaidChallengerRewards (fun r => MarkChallengerRewardPaid (rw_requestId r)) rw_requestId).
Qed.

Lemma shard_payment_unpaid params c vtx p :
  p ∈ GetShardPaymentsForBlock params c vtx -> IsShardPaid (sp_requestId p) (sp_shardIndex p) c = false.
Proof.
  unfold GetShardPaymentsForBlock. rewrite list_elem_of_In, in_flat_map. intros [[id i] [_ Hp]].
  unfold shard_payments in Hp. destruct (IsShardPaid id i c) eqn:E; [done|].
  repeat (case_match; try done); by apply in_map_iff in Hp as [addr [<- _]].
Qed.

Lemma verifiable_payment_unpaid params c vtx p :
  p ∈ GetVerifiablePaymentsForBlock params c vtx -> IsResponsePaid (rp_requestId p) c = false.
Proof.
  unfold GetVerifiablePaymentsForBlock. rewrite list_elem_of_In, in_flat_map. intros [resp [_ Hp]].
  unfold verifiable_payment in Hp. destruct (IsResponsePaid (resp_requestId resp) c) eqn:E; [done|].
  repeat (case_match; try done); by destruct Hp as [<-|[]].
Qed.

Lemma sampled_payment_unpaid params c vtx h p :
  p ∈ GetAuditSampledOpenPaymentsForBlock params c vtx h -> IsResponsePaid (rp_requestId p) c = false.
Proof.
  unfold GetAuditSampledOpenPaymentsForBlock. rewrite list_elem_of_In, in_flat_map. intros [resp [_ Hp]].
  unfold sampled_payment in Hp. destruct (negb (auditSelected resp)); [done|].
  destruct (IsResponsePaid (resp_requestId resp) c) eqn:E; [done|]. destruct (GetRequest _ c); [|done].
  destruct (_ || _); [done|]. cbv zeta in Hp.
  match type of Hp with In _ (if ?b then _ else _) => destruct b end; [|done]. by destruct Hp as [<-|[]].
Qed.

Lemma tryReward_unpaid params c id ch r :
  In r (tryReward params c id ch) -> rw_requestId r = id /\ IsChallengerRewardPaid id c = false.
Proof.
  unfold tryReward. destruct (IsChallengerRewardPaid id c); [done|].
  repeat (case_match; try done); by intros [<-|[]].
Qed.

Lemma reward_unpaid params c vtx r :
  r ∈ GetChallengerRewardsAtHeight params c vtx -> IsChallengerRewardPaid (rw_requestId r) c = false.
Proof.
  unfold GetChallengerRewardsAtHeight. destruct (_ && _); [by intros ?%elem_of_nil|].
  rewrite elem_of_app, !list_elem_of_In, !in_flat_map. intros [[ch [_ Hr]]|[tx [_ Hr]]].
  - destruct (_ =? _); [|done]. by apply tryReward_unpaid in Hr as [-> ?].
  - unfold reveal_reward in Hr. repeat (case_match; try done); by apply tryReward_unpaid in Hr as [-> ?].
Qed.
