(* ===== verification/Connect.v ===== *)
(** Connecting blocks (main.cpp, coins.cpp): the coins view, [ConnectBlock]
    with every check and effect that touches the inference cache, the guard
    that undoes a rejected block, [ConnectTip]'s view of its own and
    [DisconnectBlock]'s loop.  The theorems: a dry run changes nothing, and
    what a rejected block leaves behind. *)

From stdpp Require Import gmap strings list.
From Stdlib Require Import ZArith Lia.
From S2P Require Import Prelude Params Uint256 Transaction Platform Shard Records.
From S2P Require Import Majority Cache Sortition CheckTx ProcessTx BlockOps Payments.

Open Scope verdict_scope.

(** * The coins view

    The unspent outputs by outpoint: what [CCoinsViewCache::GetCoins],
    [IsAvailable] and [Spend] present of the per-transaction records.  A spent,
    null or unspendable output has no entry. *)

Definition Coins : Type := gmap COutPoint CTxOut.

Definition HaveInputs (view : Coins) (tx : CTransaction) : bool :=
  IsCoinBase tx || forallb (fun txin => bool_decide (is_Some (view !! prevout txin))) (vin tx).

(** [CCoins::FromTx] and [ClearUnspendable]: the outputs of a transaction that
    enter the view, from position [n] on. *)
Fixpoint FromTx (txid n : Z) (outs : list CTxOut) (view : Coins) : Coins :=
  match outs with
  | [] => view
  | out :: outs' =>
    FromTx txid (n + 1) outs'
      (if IsUnspendable (scriptPubKey out) || CTxOut_IsNull out then view else <[mkCOutPoint txid n := out]> view)
  end.

Definition SpendInputs (tx : CTransaction) (view : Coins) : Coins :=
  if IsCoinBase tx then view else foldl (fun v txin => delete (prevout txin) v) view (vin tx).

(** [UpdateCoins]: the inputs are marked spent, then the outputs are added. *)
Definition UpdateCoins (tx : CTransaction) (view : Coins) : Coins :=
  FromTx (GetHash tx) 0 (vout tx) (SpendInputs tx view).

(** * ConnectBlock *)

(** Where the checks that do not read the inference cache run: proofs, sizes,
    anchors and csnode payouts before the transactions; for each transaction
    its legacy signature operations, the csnode rules before it is processed,
    the shielded requirements and the remaining signature operations after,
    and its inputs and scripts; and the final roots, the reward and the queued
    script checks. *)
Inductive Stage :=
  | BeforeTxs
  | SigOps (i : nat)
  | BeforeApply (i : nat)
  | AfterApply (i : nat)
  | CheckInputs (i : nat)
  | AfterTxs.

Section connect.
Context `{Crypto} (params : Params) (chain : Chain) (nHeight : Z) (fIsVerifying fJustCheck : bool)
  (treasuryAddress : string).
Context (other : Stage -> list CTransaction -> Verdict).

Definition opoiActive : bool := NetworkUpgradeActive nHeight params UPGRADE_OPOI.

(** The cache and view while a block is being connected, with
    [vAppliedOPoITxs]. *)
Record Connecting := mkConnecting {
  cx_cache : OPoICache;
  cx_view : Coins;
  cx_applied : list CTransaction;
}.

(** The inference part of [CheckTransaction], which [CheckBlock] runs. *)
Definition CheckTransactionOPoI (c : OPoICache) (tx : CTransaction) : Verdict :=
  if IsOPoITx tx then CheckOPoITransaction params chain fIsVerifying c tx else Accept.

(** The inference part of [ContextualCheckTransaction]. *)
Definition ContextualCheckTransactionOPoI (tx : CTransaction) : Verdict :=
  reject DoS 100 "tx-opoi-not-active" when IsOPoITx tx && negb opoiActive; Accept.

(** The first check of a list that rejects. *)
Fixpoint first_reject (checks : list Verdict) : Verdict :=
  match checks with
  | [] => Accept
  | Accept :: checks' => first_reject checks'
  | v :: _ => v
  end.

Definition overwrites (view : Coins) (tx : CTransaction) : bool :=
  existsb (fun kv => op_hash kv.1 =? GetHash tx) (map_to_list view).

(** The checks before the transactions are processed. *)
Definition CheckBeforeTxs (vtx : list CTransaction) (c : OPoICache) (view : Coins) : Verdict :=
  first_reject (
    map (CheckTransactionOPoI c) vtx ++ map ContextualCheckTransactionOPoI vtx ++
    [other BeforeTxs vtx;
     reject DoS 100 "bad-txns-BIP30" when existsb (overwrites view) vtx; Accept;
     if opoiActive then CheckOPoIBlockCaps params vtx else Accept;
     if negb fIsVerifying && opoiActive then CheckOPoIPayments params chain nHeight c vtx else Accept;
     if negb fIsVerifying && opoiActive then CheckOPoIChallengerRewards params c treasuryAddress vtx else Accept]).

(** [state.DoS(100, .., "bad-txns-spends-opoi-collateral")]. *)
Definition spends_locked (c : OPoICache) (tx : CTransaction) : bool :=
  negb fIsVerifying && opoiActive && existsb (fun txin => IsLockedUTXO (prevout txin) c) (vin tx).

Definition apply_tx (tx : CTransaction) (s : Connecting) : Connecting :=
  if negb fJustCheck && negb fIsVerifying && IsOPoITx tx
  then mkConnecting (ProcessOPoITransaction (Some params) chain (u32 nHeight) false tx (cx_cache s)) (cx_view s)
         (cx_applied s ++ [tx])
  else s.

(** The collateral of a STAKE must be unspent and large enough. *)
Definition CheckStakeCollateral (tx : CTransaction) (view : Coins) : Verdict :=
  if negb fIsVerifying && negb fJustCheck && IsOPoITx tx && (nType tx =? OPOI_STAKE_TX_TYPE) && opoiActive then
    match view !! opoiCollateralIn tx with
    | None => DoS 100 "bad-txns-opoi-stake-no-utxo"
    | Some out => reject DoS 100 "bad-txns-opoi-stake-amount-too-low" when nValue out <? nOPoIMinStake params; Accept
    end
  else Accept.

(** One round of the loop over the transactions; a rejection is returned with
    the state at that point. *)
Definition connect_tx (vtx : list CTransaction) (i : nat) (tx : CTransaction) (s : Connecting) : Verdict * Connecting :=
  let unless_coinbase checks := if IsCoinBase tx then [] else checks in
  let before := first_reject (other (SigOps i) vtx :: unless_coinbase
      [reject DoS 100 "bad-txns-inputs-missingorspent" when negb (HaveInputs (cx_view s) tx); Accept;
       reject DoS 100 "bad-txns-spends-opoi-collateral" when spends_locked (cx_cache s) tx; Accept;
       other (BeforeApply i) vtx]) in
  match before with
  | Reject _ _ _ => (before, s)
  | Accept =>
    let s1 := if IsCoinBase tx then s else apply_tx tx s in
    match first_reject (unless_coinbase [other (AfterApply i) vtx] ++ CheckStakeCollateral tx (cx_view s1)
                          :: unless_coinbase [other (CheckInputs i) vtx]) with
    | Accept => (Accept, mkConnecting (cx_cache s1) (UpdateCoins tx (cx_view s1)) (cx_applied s1))
    | v => (v, s1)
    end
  end.

Fixpoint connect_txs (vtx : list CTransaction) (i : nat) (txs : list CTransaction) (s : Connecting)
    : Verdict * Connecting :=
  match txs with
  | [] => (Accept, s)
  | tx :: txs' =>
    match connect_tx vtx i tx s with
    | (Accept, s') => connect_txs vtx (S i) txs' s'
    | r => r
    end
  end.

(** The transitions at the end of a connected block. *)
Definition BlockTransitions (vtx : list CTransaction) (c : OPoICache) : OPoICache :=
  let h := u32 nHeight in
  let c := ProcessChallengerRewardPayments params c vtx in
  let c := ProcessExpiredChallenges h params c in
  let c := ProcessExpiredRequests h params c in
  let c := PruneExpiredPendingDeliveries c in
  let c := ProcessResponseCommitWindows h params c in
  let c := ProcessStakeRenewals h params c in
  let c := ProcessCanaryAudits h params c in
  let c := ProcessModelVotingWindows h params c in
  let c := ProcessShardPayments params c vtx in
  let c := ProcessVerifiableResponsePayments params c vtx in
  let c := ProcessAuditSampledOpenResponsePayments params c vtx h in
  ProcessAuditorVerifications params c.

(** [ConnectBlock] for a block other than the genesis.  The second component
    is the global cache afterwards and the caller's view, which a rejected block
    leaves as far as [UpdateCoins] had got. *)
Definition ConnectBlock (vtx : list CTransaction) (c : OPoICache) (view : Coins) : Verdict * (OPoICache * Coins) :=
  match CheckBeforeTxs vtx c view with
  | Reject l k r => (Reject l k r, (c, view))
  | Accept =>
    let '(v, s) := connect_txs vtx 0 vtx (mkConnecting c view []) in
    let guard := UndoBlock chain (u32 nHeight) (cx_applied s) (cx_cache s) in
    match first_reject [v; other AfterTxs vtx] with
    | Reject l k r => (Reject l k r, (guard, cx_view s))
    | Accept =>
      if fJustCheck then (Accept, (guard, cx_view s))
      else if negb fIsVerifying && opoiActive
      then (Accept, (BlockTransitions vtx (cx_cache s), cx_view s))
      else (Accept, (cx_cache s, cx_view s))
    end
  end.

(** The inference part of [DisconnectBlock]. *)
Definition DisconnectBlockOPoI (vtx : list CTransaction) (c : OPoICache) : OPoICache :=
  if fIsVerifying then c else UndoBlock chain (u32 nHeight) vtx c.

(** * Dry runs and rejected blocks *)

Lemma first_reject_accept checks : first_reject checks = Accept <-> Forall (eq Accept) checks.
Proof.
  induction checks as [|v checks IH]; [by split|]. destruct v; cbn.
  - rewrite IH, Forall_cons. naive_solver.
  - split; [done|]. by intros [? _]%Forall_cons.
Qed.

Lemma first_reject_cons v checks :
  first_reject (v :: checks) = Accept <-> v = Accept /\ first_reject checks = Accept.
Proof. rewrite !first_reject_accept, Forall_cons. naive_solver. Qed.

Lemma reject_when (b : bool) v : v <> Accept -> (if b then v else Accept) = Accept <-> b = false.
Proof. destruct b; naive_solver. Qed.

(** What the checks before the transactions guarantee of each of them. *)
Lemma checked_before vtx c view :
  CheckBeforeTxs vtx c view = Accept ->
  (forall tx, tx ∈ vtx -> IsOPoITx tx = true -> CheckOPoITransaction params chain fIsVerifying c tx = Accept) /\
  (forall tx out, tx ∈ vtx -> is_Some (view !! out) -> op_hash out <> GetHash tx).
Proof.
  unfold CheckBeforeTxs. rewrite first_reject_accept, !Forall_app, Forall_map. intros (Htx & _ & Hrest). split.
  - intros tx Hin Hop. rewrite Forall_forall in Htx. specialize (Htx tx Hin). cbn in Htx.
    unfold CheckTransactionOPoI in Htx. by rewrite Hop in Htx.
  - rewrite !Forall_cons in Hrest. destruct Hrest as (_ & Hbip & _).
    assert (Hb : existsb (overwrites view) vtx = false) by (by destruct (existsb _ _)).
    intros tx out Hin [o Ho] Hh. apply not_true_iff_false in Hb. apply Hb, existsb_exists. exists tx.
    split; [by apply list_elem_of_In|]. apply existsb_exists. exists (out, o).
    split; [by apply list_elem_of_In, elem_of_map_to_list|by apply Z.eqb_eq].
Qed.

(** The transactions the apply loop hands to the inference cache. *)
Definition connects_opoi (tx : CTransaction) : bool :=
  negb (IsCoinBase tx) && negb fJustCheck && negb fIsVerifying && IsOPoITx tx.

(** The state after the transaction has been handed over. *)
Definition applied (tx : CTransaction) (s : Connecting) : Connecting :=
  if connects_opoi tx
  then mkConnecting (ProcessOPoITransaction (Some params) chain (u32 nHeight) false tx (cx_cache s))
         (cx_view s) (cx_applied s ++ [tx])
  else s.

Lemma applied_spec tx s : (if IsCoinBase tx then s else apply_tx tx s) = applied tx s.
Proof. unfold applied, apply_tx, connects_opoi. by destruct (IsCoinBase tx), fJustCheck, fIsVerifying, (IsOPoITx tx). Qed.

Lemma applied_view tx s : cx_view (applied tx s) = cx_view s.
Proof. unfold applied. by case_match. Qed.

(** One round of the loop: a rejection leaves the state, or the state with the
    transaction applied; success has passed the three checks. *)
Lemma connect_tx_spec vtx i tx s v s' :
  connect_tx vtx i tx s = (v, s') ->
  (v <> Accept /\ (s' = s \/ s' = applied tx s)) \/
  (v = Accept /\ s' = mkConnecting (cx_cache (applied tx s)) (UpdateCoins tx (cx_view s)) (cx_applied (applied tx s))
   /\ (IsCoinBase tx = false -> HaveInputs (cx_view s) tx = true /\ spends_locked (cx_cache s) tx = false)
   /\ CheckStakeCollateral tx (cx_view s) = Accept).
Proof.
  unfold connect_tx. rewrite applied_spec, applied_view. cbv zeta.
  destruct (first_reject (_ :: _)) eqn:Eb; [|intros Heq; injection Heq as <- <-; left; split; [done|by left]].
  destruct (first_reject (_ ++ _)) eqn:Ea; [|intros Heq; injection Heq as <- <-; left; split; [done|by right]].
  intros Heq. injection Heq as <- <-. right. rewrite first_reject_accept, Forall_app, Forall_cons in Ea.
  split_and!; [done..| |symmetry; apply Ea]. intros Hcb. rewrite Hcb in Eb.
  rewrite !first_reject_cons in Eb. destruct Eb as (_ & E1 & E2 & _).
  apply reject_when in E1; [|done]. apply reject_when in E2; [|done]. by apply negb_false_iff in E1.
Qed.

(** The loop keeps the cache equal to what the applied transactions make of
    the cache it started from, and applies them in block order. *)
Lemma connect_txs_applied vtx txs i s v s' c0 :
  connect_txs vtx i txs s = (v, s') -> cx_cache s = ApplyBlock params chain (u32 nHeight) (cx_applied s) c0 ->
  cx_cache s' = ApplyBlock params chain (u32 nHeight) (cx_applied s') c0 /\
  cx_applied s' `prefix_of` cx_applied s ++ List.filter connects_opoi txs /\
  (v = Accept -> cx_applied s' = cx_applied s ++ List.filter connects_opoi txs).
Proof.
  revert i s. induction txs as [|tx txs IH]; intros i s Hr Hs.
  { cbn in Hr. injection Hr as <- <-. cbn. rewrite app_nil_r. naive_solver. }
  assert (Ha : cx_cache (applied tx s) = ApplyBlock params chain (u32 nHeight) (cx_applied (applied tx s)) c0 /\
               cx_applied (applied tx s) = cx_applied s ++ List.filter connects_opoi [tx]).
  { unfold applied. cbn. destruct (connects_opoi tx); cbn; [|by rewrite app_nil_r].
    unfold ApplyBlock in *. by rewrite foldl_app, <- Hs. }
  destruct Ha as [Hc Ht]. change (tx :: txs) with ([tx] ++ txs) in *. rewrite List.filter_app, (assoc_L (++)), <- Ht.
  cbn [app connect_txs] in Hr. destruct (connect_tx vtx i tx s) as [v1 s1] eqn:E1.
  destruct (connect_tx_spec _ _ _ _ _ _ E1) as [[Hv Hs1]|(-> & -> & _)].
  - assert (v1 = v /\ s1 = s') as [-> ->] by (destruct v1; [done|]; by simplify_eq).
    destruct Hs1 as [-> | ->]; (split; [done|]); (split; [|done]).
    + rewrite Ht. apply prefix_app_r. by exists (List.filter connects_opoi [tx]).
    + by exists (List.filter connects_opoi txs).
  - apply IH in Hr; [|done]. exact Hr.
Qed.

Lemma undoable_block_prefix txs txs' c :
  txs `prefix_of` txs' -> undoable_block params chain (u32 nHeight) txs' c ->
  undoable_block params chain (u32 nHeight) txs c.
Proof.
  intros [k ->]. revert c. induction txs as [|tx txs IH]; intros c; cbn; [done|]. intros [? ?]. eauto.
Qed.

(** What is left when the block is refused: the guard has undone exactly the
    transactions that had been applied. *)
Lemma connect_rejected vtx c view l k r c' view' :
  ConnectBlock vtx c view = (Reject l k r, (c', view')) ->
  exists txs, txs `prefix_of` List.filter connects_opoi vtx /\
    c' = UndoBlock chain (u32 nHeight) txs (ApplyBlock params chain (u32 nHeight) txs c).
Proof.
  unfold ConnectBlock. destruct (CheckBeforeTxs vtx c view).
  2:{ intros Hr. simplify_eq. exists []. split; [apply prefix_nil|done]. }
  destruct (connect_txs vtx 0 vtx _) as [v s] eqn:E.
  apply (connect_txs_applied _ _ _ _ _ _ c) in E as (Hc & Hp & _); [|done]. cbn in Hp.
  destruct (first_reject [v; _]); intros Hr; [destruct fJustCheck; [|destruct (negb fIsVerifying && opoiActive)]|]; simplify_eq.
  exists (cx_applied s). by rewrite <- Hc.
Qed.
End connect.

(** [ConnectTip] on the cache and the coins of the tip: the block is connected in
    a view of its own ([CCoinsViewCache view(pcoinsTip)]), which is flushed when
    [ConnectBlock] succeeds and dropped when it fails; the inference cache is
    global and is left as [ConnectBlock] leaves it. *)
Definition ConnectTipOPoI `{Crypto} (params : Params) (chain : Chain) (nHeight : Z) (fIsVerifying : bool) (treasury : string)
    (other : Stage -> list CTransaction -> Verdict) (vtx : list CTransaction) (c : OPoICache) (pcoinsTip : Coins)
    : Verdict * (OPoICache * Coins) :=
  match ConnectBlock params chain nHeight fIsVerifying false treasury other vtx c pcoinsTip with
  | (Accept, (c', view)) => (Accept, (c', view))
  | (rejected, (c', _)) => (rejected, (c', pcoinsTip))
  end.

(** C3. What a rejected block leaves behind.  Whatever check refuses the block
    and however far the loop had come, the coins of the tip are what they were,
    and there is an initial part of the block's inference transactions, those
    that had been applied, such that the cache is what undoing these in reverse
    order makes of applying them; and when each of them is undoable where it was
    applied ([undoable]: the first of its kind for its key, and neither a RENEW
    nor a CHALLENGE), the cache is the one before the block, up to empty
    lists. *)
Theorem rejected_block_leaves_no_trace `{Crypto} (params : Params) (chain : Chain) (nHeight : Z) (fIsVerifying : bool)
    (treasury : string) (other : Stage -> list CTransaction -> Verdict) (vtx : list CTransaction) (c : OPoICache)
    (pcoinsTip : Coins) (l k : Z) (r : string) (c' : OPoICache) (pcoinsTip' : Coins) :
  ConnectTipOPoI params chain nHeight fIsVerifying treasury other vtx c pcoinsTip = (Reject l k r, (c', pcoinsTip')) ->
  pcoinsTip' = pcoinsTip /\
  exists txs, txs `prefix_of` List.filter (connects_opoi fIsVerifying false) vtx /\
    c' = UndoBlock chain (u32 nHeight) txs (ApplyBlock params chain (u32 nHeight) txs c) /\
    (undoable_block params chain (u32 nHeight) txs c -> cache_equiv c' c).
Proof.
  unfold ConnectTipOPoI. destruct (ConnectBlock _ _ _ _ _ _ _ _ _ _) as [[|l' k' r'] [c1 view1]] eqn:E; [done|].
  intros [= <- <- <- <- <-]. split; [done|]. apply connect_rejected in E as (txs & Hp & ->).
  exists txs. split_and!; [done..|]. apply undo_block_restores.
Qed.

Lemma dry_run_pure `{Crypto} (params : Params) (chain : Chain) (nHeight : Z) (fIsVerifying fJustCheck : bool)
    (treasury : string) (other : Stage -> list CTransaction -> Verdict) (vtx : list CTransaction) (c : OPoICache)
    (view : Coins) :
  fJustCheck || fIsVerifying = true ->
  fst (snd (ConnectBlock params chain nHeight fIsVerifying fJustCheck treasury other vtx c view)) = c.
Proof.
  intros Hdry. assert (Hno : forall txs, List.filter (connects_opoi fIsVerifying fJustCheck) txs = []).
  { induction txs as [|tx txs IH]; [done|]. cbn. unfold connects_opoi at 1.
    by destruct (IsCoinBase tx), fJustCheck, fIsVerifying. }
  unfold ConnectBlock. destruct (CheckBeforeTxs _ _ _ _ _ _ _ _ _); [|done].
  destruct (connect_txs _ _ _ _ _ _ _ _ _ _) as [v s] eqn:E.
  apply (connect_txs_applied _ _ _ _ _ _ _ _ _ _ _ _ c) in E as (Hc & Hp & _); [|done].
  cbn in Hp. rewrite Hno in Hp. apply prefix_nil_inv in Hp. rewrite Hp in *.
  destruct (first_reject [v; _]), fJustCheck, fIsVerifying; done.
Qed.

(** Only a real connection changes the inference cache: a dry run
    ([TestBlockValidity]) and the start-up verification leave it exactly as it
    was, whatever the block and whatever the outcome. *)
Theorem dry_run_changes_nothing `{Crypto} (params : Params) (chain : Chain) (nHeight : Z) (fIsVerifying fJustCheck : bool)
    (treasury : string) (other : Stage -> list CTransaction -> Verdict) (vtx : list CTransaction) (c : OPoICache)
    (view : Coins) :
  fJustCheck || fIsVerifying = true ->
  fst (snd (ConnectBlock params chain nHeight fIsVerifying fJustCheck treasury other vtx c view)) = c.
Proof. apply dry_run_pure. Qed.

(** * Concrete instances *)

#[local] Existing Instance toyCrypto.

Definition no_other : Stage -> list CTransaction -> Verdict := fun _ _ => Accept.

Definition sample_coinbase : CTransaction :=
  emptyTx <| nVersion := 4 |> <| hash := 1 |> <| vin := [mkCTxIn COutPoint_null [] 0] |>
    <| vout := [mkCTxOut 7500000000 [1]] |>.

Definition sample_spend (out : COutPoint) : CTransaction :=
  emptyTx <| nVersion := 4 |> <| hash := 2 |> <| vin := [mkCTxIn out [] 0] |> <| vout := [mkCTxOut 5 [1]] |>.

Definition sample_view : Coins := {[mkCOutPoint 0xabcd 1 := mkCTxOut (200 * COIN) [1]]}.

(** A block that stakes an output and spends it right after. *)
Definition sample_block : list CTransaction :=
  [sample_coinbase; sample_pledge; sample_spend (mkCOutPoint 0xabcd 1)].

Lemma rejected_block_leaves_no_trace_witness :
  let r := ConnectTipOPoI mainParams toyChain 100001 false "t" no_other sample_block emptyCache sample_view in
  fst r = DoS 100 "bad-txns-spends-opoi-collateral" /\
  cache_equiv (fst (snd r)) emptyCache /\ snd (snd r) = sample_view.
Proof.
  cbv zeta. destruct (ConnectTipOPoI _ _ _ _ _ _ _ _ _) as [v [c' view']] eqn:E.
  assert (Hv : v = DoS 100 "bad-txns-spends-opoi-collateral").
  { apply (f_equal fst) in E. cbn [fst] in E. rewrite <- E. vm_compute. reflexivity. }
  subst v. cbn [fst snd]. split; [reflexivity|].
  destruct (rejected_block_leaves_no_trace mainParams toyChain 100001 false "t" no_other sample_block emptyCache sample_view _ _ _ _ _ E)
    as (-> & txs & Hp & _ & Hu).
  split; [|reflexivity]. apply Hu. eapply undoable_block_prefix; [exact Hp|].
  split; [|done]. intros _. right; right; right; left. concrete.
Defined.

Lemma dry_run_changes_nothing_witness :
  fst (snd (ConnectBlock mainParams toyChain 100001 false true "t" no_other sample_block emptyCache sample_view))
  = emptyCache.
Proof. apply dry_run_changes_nothing. reflexivity. Defined.

(** The dry run is weaker than the connection it stands for: it does not
    apply the block's own stakes, so it accepts a block that stakes an output
    and spends it in a later transaction, which connecting then refuses. *)
Theorem dry_run_misses_staked_spend :
  fst (ConnectBlock mainParams toyChain 100001 false true "t" no_other sample_block emptyCache sample_view) = Accept /\
  fst (ConnectBlock mainParams toyChain 100001 false false "t" no_other sample_block emptyCache sample_view)
  = DoS 100 "bad-txns-spends-opoi-collateral".
Proof. split; vm_compute; reflexivity. Qed.
