(* ===== verification/Paid.v ===== *)
(** What a block settles (opoi/opoi.cpp, main.cpp): the marks that
    [ConnectBlock] sets at the end of a block, on the cache its transactions
    have left, and what they mean for the payments the checks of later blocks
    demand.  The marks only grow while blocks are connected. *)

From stdpp Require Import gmap strings list.
From Stdlib Require Import ZArith Lia.
From S2P Require Import Prelude Params Uint256 Transaction Platform Shard Records Majority.
From S2P Require Import Cache Sortition CheckTx ProcessTx BlockOps Payments Connect.

(** * The marks of the cache *)

(** The shards, responses and challenger rewards that are marked paid. *)
Definition marks (c : OPoICache) : gset string * gset string * gset string :=
  (setPaidShards c, setPaidResponses c, setPaidChallengerRewards c).

Definition marks_le (c c' : OPoICache) : Prop :=
  setPaidShards c ⊆ setPaidShards c' /\ setPaidResponses c ⊆ setPaidResponses c' /\
  setPaidChallengerRewards c ⊆ setPaidChallengerRewards c'.

#[global] Instance marks_le_preorder : PreOrder marks_le.
Proof. split; unfold marks_le; repeat intro; naive_solver (set_solver). Qed.

Lemma same_marks_le c c' : marks c' = marks c -> marks_le c c'.
Proof. unfold marks, marks_le. intros [= -> -> ->]. done. Qed.

(** A loop whose rounds keep something keeps it. *)
Lemma foldl_same {A B} (g : OPoICache -> B) (f : OPoICache -> A -> OPoICache) (l : list A) c :
  (forall c a, g (f c a) = g c) -> g (foldl f c l) = g c.
Proof. intros Hf. revert c. induction l as [|a l IH]; intros c; [done|]. cbn. by rewrite IH, Hf. Qed.

Ltac unchanged := intros; repeat (case_match || done).

Lemma reveal_marks pparams tx c : marks (ApplyChallengeReveal pparams tx c) = marks c.
Proof. unfold ApplyChallengeReveal, update_responder. cbv zeta. unchanged. Qed.

(** No transaction touches the marks. *)
Lemma apply_marks `{Crypto} pparams chain h tx c : marks (ProcessOPoITransaction pparams chain h false tx c) = marks c.
Proof.
  unfold ProcessOPoITransaction, ApplyOPoITransaction, AddRequest, ApplyResponseReveal, AddResponse, AddStake, StartUnstake,
    ApplyChallengeCommit, update_responder, AddModelManifest, AddModelVote, AddCoordinatorClaim, AddShardResult, AddAuditorVerification,
    AddShardAuditorVerification, lock_auditor.
  repeat (case_match; try done); apply reveal_marks.
Qed.

Lemma apply_block_marks `{Crypto} params chain h txs c : marks (ApplyBlock params chain h txs c) = marks c.
Proof. apply (foldl_same marks). intros. apply apply_marks. Qed.

Lemma auditor_verdicts_marks params c : marks (ProcessAuditorVerifications params c) = marks c.
Proof.
  assert (Hu : forall m verifs c, marks (unlock_majority m verifs c) = marks c) by (intros; apply (foldl_same marks); unchanged).
  unfold ProcessAuditorVerifications. rewrite !(foldl_same marks); [done|..]; intros c' [k verifs].
  - unfold resolve_response, settle_canary, update_responder. repeat (case_match; try done); apply Hu.
  - unfold resolve_shard. repeat (case_match; try done); apply Hu.
Qed.

(** * What the payments of responses read *)

(** The terms of a request that a payment depends on. *)
Definition terms (r : OPoIRequest) : Z * Z * bool := (req_payment r, req_feePerToken r, IsVerifiable r).

Definition ledger (c : OPoICache) : gset string * gset string * gset string * gmap string OPoIResponse *
    gmap string (list AuditorVerification) * gmap string (Z * Z * bool) :=
  (marks c, mapResponses c, mapAuditorVerifications c, terms <$> mapRequests c).

Lemma ledger_marks c c' : ledger c' = ledger c -> marks c' = marks c.
Proof. unfold ledger. congruence. Qed.

(** The transitions that run between the challenger rewards and the payments
    keep all of it. *)
Lemma expired_challenges_ledger h params c : ledger (ProcessExpiredChallenges h params c) = ledger c.
Proof.
  unfold ProcessExpiredChallenges. rewrite !(foldl_same ledger); [done|..].
  - intros c' [k ch]. unfold expire_challenge, update_responder. cbv zeta. unchanged.
  - intros c' [k s]. unfold release_stake. unchanged.
Qed.

Lemma requests_ledger (f : OPoIRequest -> OPoIRequest) c :
  (forall r, terms (f r) = terms r) -> ledger (c <| mapRequests ::= fmap f |>) = ledger c.
Proof.
  intros Hf. unfold ledger. cbn. f_equal. rewrite <- map_fmap_compose. apply map_fmap_ext. intros k r _. apply Hf.
Qed.

Lemma expired_requests_ledger h params c : ledger (ProcessExpiredRequests h params c) = ledger c.
Proof. unfold ProcessExpiredRequests. case_match; [done|]. apply requests_ledger. intros r. unfold expire_request. unchanged. Qed.

Lemma commit_windows_ledger h params c : ledger (ProcessResponseCommitWindows h params c) = ledger c.
Proof. unfold ProcessResponseCommitWindows. case_match; [done|]. apply requests_ledger. intros r. unfold close_window. unchanged. Qed.

Lemma canary_ledger h params c : ledger (ProcessCanaryAudits h params c) = ledger c.
Proof. unfold ProcessCanaryAudits, select_canary. cbv zeta. unchanged. Qed.

Lemma model_windows_ledger h params c : ledger (ProcessModelVotingWindows h params c) = ledger c.
Proof.
  unfold ProcessModelVotingWindows. rewrite !(foldl_same ledger); [done|..]; intros c' m.
  - unfold tally_model. unchanged.
  - unfold activate_model. unchanged.
Qed.

Section settle.
Context (params : Params) (nHeight : Z) (vtx : list CTransaction).

(** The transitions of [BlockTransitions] before the payments are marked. *)
Definition before_payments (c : OPoICache) : OPoICache :=
  let h := u32 nHeight in
  ProcessModelVotingWindows h params (ProcessCanaryAudits h params (ProcessStakeRenewals h params
    (ProcessResponseCommitWindows h params (PruneExpiredPendingDeliveries (ProcessExpiredRequests h params
      (ProcessExpiredChallenges h params c)))))).

Lemma before_payments_ledger c : ledger (before_payments c) = ledger c.
Proof.
  unfold before_payments. rewrite model_windows_ledger, canary_ledger.
  transitivity (ledger (ProcessResponseCommitWindows (u32 nHeight) params (PruneExpiredPendingDeliveries
    (ProcessExpiredRequests (u32 nHeight) params (ProcessExpiredChallenges (u32 nHeight) params c))))).
  { unfold ProcessStakeRenewals. unchanged. }
  rewrite commit_windows_ledger.
  transitivity (ledger (ProcessExpiredRequests (u32 nHeight) params (ProcessExpiredChallenges (u32 nHeight) params c))); [done|].
  by rewrite expired_requests_ledger, expired_challenges_ledger.
Qed.

(** The four caches the marks of a block are computed on, from the cache its
    transactions have left: for the rewards, the shards, the verified and the
    audited responses. *)
Definition at_shards (c : OPoICache) : OPoICache := before_payments (ProcessChallengerRewardPayments params c vtx).
Definition at_verifiable (c : OPoICache) : OPoICache := ProcessShardPayments params (at_shards c) vtx.
Definition at_sampled (c : OPoICache) : OPoICache := ProcessVerifiableResponsePayments params (at_verifiable c) vtx.

Lemma transitions_at c :
  BlockTransitions params nHeight vtx c =
  ProcessAuditorVerifications params (ProcessAuditSampledOpenResponsePayments params (at_sampled c) vtx (u32 nHeight)).
Proof. done. Qed.
End settle.

(** * The marks grow *)

Lemma foldl_mark_le {A} (mark : OPoICache -> A -> OPoICache) (l : list A) c :
  (forall c a, marks_le c (mark c a)) -> marks_le c (foldl mark c l).
Proof. intros Hm. revert c. induction l as [|a l IH]; intros c; [done|]. cbn. etransitivity; [apply Hm|apply IH]. Qed.

Ltac mark_le := apply foldl_mark_le; intros; unfold marks_le; cbn; set_solver.

Lemma rewards_le params c vtx : marks_le c (ProcessChallengerRewardPayments params c vtx).
Proof. mark_le. Qed.
Lemma shards_le params c vtx : marks_le c (ProcessShardPayments params c vtx).
Proof. mark_le. Qed.
Lemma verifiable_le params c vtx : marks_le c (ProcessVerifiableResponsePayments params c vtx).
Proof. mark_le. Qed.
Lemma sampled_le params c vtx h : marks_le c (ProcessAuditSampledOpenResponsePayments params c vtx h).
Proof. mark_le. Qed.

Lemma at_shards_le params nHeight vtx c : marks_le (ProcessChallengerRewardPayments params c vtx) (at_shards params nHeight vtx c).
Proof. apply same_marks_le, ledger_marks, before_payments_ledger. Qed.

Lemma verdicts_le params c : marks_le c (ProcessAuditorVerifications params c).
Proof. apply same_marks_le, auditor_verdicts_marks. Qed.

Lemma transitions_le params nHeight vtx c : marks_le c (BlockTransitions params nHeight vtx c).
Proof.
  rewrite transitions_at. unfold at_sampled, at_verifiable. etransitivity; [apply rewards_le|]. etransitivity; [apply at_shards_le|].
  etransitivity; [apply shards_le|]. etransitivity; [apply verifiable_le|]. etransitivity; [apply sampled_le|]. apply verdicts_le.
Qed.

(** What an accepted block does to the cache. *)
Lemma accepted_tip `{Crypto} params chain nHeight treasury other vtx c view c' view' :
  ConnectTipOPoI params chain nHeight false treasury other vtx c view = (Accept, (c', view')) ->
  let a := ApplyBlock params chain (u32 nHeight) (List.filter (connects_opoi false false) vtx) c in
  CheckBeforeTxs params chain nHeight false treasury other vtx c view = Accept /\
  c' = if opoiActive params nHeight then BlockTransitions params nHeight vtx a else a.
Proof.
  unfold ConnectTipOPoI, ConnectBlock. destruct (CheckBeforeTxs _ _ _ _ _ _ _ _ _); [|done].
  destruct (connect_txs _ _ _ _ _ _ _ _ _ _) as [v s] eqn:E. apply (connect_txs_applied _ _ _ _ _ _ _ _ _ _ _ _ c) in E as (Hc & _ & Ha); [|done].
  destruct (first_reject [v; _]) eqn:Ef; [|done]. apply first_reject_cons in Ef as [-> _]. specialize (Ha eq_refl). cbn in Ha.
  rewrite Ha in Hc. intros Hr. split; [done|]. rewrite <- Hc. cbn in Hr. destruct (opoiActive params nHeight); by injection Hr as <- <-.
Qed.

(** The states reached from one by connecting blocks. *)
Inductive extends `{Crypto} (params : Params) (treasury : string) (s : OPoICache * Coins) : OPoICache * Coins -> Prop :=
  | extends_none : extends params treasury s s
  | extends_block chain nHeight other vtx c view s' :
      extends params treasury s (c, view) ->
      ConnectTipOPoI params chain nHeight false treasury other vtx c view = (Accept, s') ->
      extends params treasury s s'.

Lemma extends_le `{Crypto} params treasury s s' : extends params treasury s s' -> marks_le s.1 s'.1.
Proof.
  induction 1 as [|chain nHeight other vtx c view [c' view'] _ IH Hc]; [done|]. etransitivity; [exact IH|].
  apply accepted_tip in Hc as [_ ->]. cbn. etransitivity; [apply same_marks_le, apply_block_marks|].
  case_match; [apply transitions_le|done].
Qed.

(** * Demanded responses are settled *)

(** The vote a block casts on a response, by auditor and result. *)
Definition vote (v : AuditorVerification) : string * Z := (fv_auditorAddress v, fv_result v).

Definition merge_vote (id : string) (votes : list (string * Z)) (tx : CTransaction) : list (string * Z) :=
  if is_type OPOI_AUDITOR_VERIFY_TX_TYPE tx && bool_decide (opoiRequestId tx = id)
     && negb (existsb (fun v => bool_decide (v.1 = opoiAuditorAddress tx)) votes)
  then votes ++ [(opoiAuditorAddress tx, opoiAuditorVerifyResult tx)]
  else votes.

Lemma has_voted_votes a verifs : has_voted a verifs = existsb (fun v => bool_decide (v.1 = a)) (vote <$> verifs).
Proof. induction verifs as [|v verifs IH]; [done|]. cbn. by rewrite <- IH. Qed.

Lemma merge_verification_vote id verifs tx : vote <$> merge_verification id verifs tx = merge_vote id (vote <$> verifs) tx.
Proof.
  unfold merge_verification, merge_vote. rewrite has_voted_votes. case_match; [|done]. by rewrite fmap_app.
Qed.

Lemma combined_votes c id txs : vote <$> combined_verifications c id txs = foldl (merge_vote id) (vote <$> GetAuditorVerifications id c) txs.
Proof.
  unfold combined_verifications. generalize (GetAuditorVerifications id c). induction txs as [|tx txs IH]; intros l; [done|]. cbn.
  by rewrite IH, merge_verification_vote.
Qed.

(** Merging a block's votes a second time adds nothing. *)
Lemma merge_vote_incl id votes txs : votes ⊆ foldl (merge_vote id) votes txs.
Proof.
  revert votes. induction txs as [|tx txs IH]; intros votes; [done|]. cbn. etransitivity; [|apply IH]. unfold merge_vote. case_match; set_solver.
Qed.

Lemma merge_vote_present id votes tx : forall more, merge_vote id votes tx ⊆ more -> merge_vote id more tx = more.
Proof.
  intros more Hin. unfold merge_vote in *. destruct (is_type _ _ && bool_decide _) eqn:E; [|done]. cbn in *.
  rewrite (proj2 (existsb_exists _ more)); [done|].
  destruct (existsb _ votes) eqn:Ev; cbn in Hin.
  - apply existsb_exists in Ev as (v & Hv & Hb). exists v. split; [|done]. apply list_elem_of_In, Hin, list_elem_of_In, Hv.
  - exists (opoiAuditorAddress tx, opoiAuditorVerifyResult tx). split; [|by apply bool_decide_eq_true_2].
    apply list_elem_of_In, Hin. set_solver.
Qed.

Lemma merge_votes_twice id votes txs :
  foldl (merge_vote id) (foldl (merge_vote id) votes txs) txs = foldl (merge_vote id) votes txs.
Proof.
  assert (Hone : Forall (fun tx => merge_vote id (foldl (merge_vote id) votes txs) tx = foldl (merge_vote id) votes txs) txs).
  { apply Forall_forall. intros tx Hin. apply list_elem_of_split in Hin as (l1 & l2 & ->). rewrite foldl_app. cbn.
    apply (merge_vote_present id (foldl (merge_vote id) votes l1)), merge_vote_incl. }
  revert Hone. generalize (foldl (merge_vote id) votes txs). clear votes. induction txs as [|tx txs IH]; intros l Hl; [done|].
  apply Forall_cons in Hl as [H1 Hl]. cbn. rewrite H1. by apply IH.
Qed.

Lemma count_votes r verifs : count_result r verifs = Z.of_nat (length (List.filter (fun v => v.2 =? r) (vote <$> verifs))).
Proof. unfold count_result. f_equal. induction verifs as [|v verifs IH]; [done|]. cbn. case_match; cbn; by rewrite IH. Qed.

Lemma majority_votes verifs verifs' n : vote <$> verifs = vote <$> verifs' -> ComputeAuditorMajority verifs n = ComputeAuditorMajority verifs' n.
Proof. intros E. unfold ComputeAuditorMajority. by rewrite !count_votes, E. Qed.

(** What the payment of a response reads of the cache: the response, the terms
    of its request and the votes on it. *)
Definition resp_view (id : string) (c : OPoICache) : option OPoIResponse * option (Z * Z * bool) * list (string * Z) :=
  (mapResponses c !! id, terms <$> mapRequests c !! id, vote <$> GetAuditorVerifications id c).

(** A transaction that is not a reveal for this identifier, nor a vote on one of
    its shards. *)
Definition plain (id : string) (tx : CTransaction) : Prop :=
  opoiRequestId tx = id ->
  (nType tx = OPOI_RESPONSE_TX_TYPE -> opoiResponsePhase tx = 0) /\
  (nType tx = OPOI_AUDITOR_VERIFY_TX_TYPE -> opoiShardIndex tx = NO_SHARD).

Lemma terms_alter f k id (m : gmap string OPoIRequest) : (forall r, terms (f r) = terms r) -> terms <$> alter f k m !! id = terms <$> m !! id.
Proof.
  intros Hf. destruct (decide (id = k)) as [->|]; [|by rewrite lookup_alter_ne]. rewrite lookup_alter_eq. destruct (m !! k); [|done]. cbn. by rewrite Hf.
Qed.

Definition reads (c : OPoICache) := (mapResponses c, mapRequests c, mapAuditorVerifications c).

Lemma reads_view id c c' : reads c' = reads c -> resp_view id c' = resp_view id c.
Proof. unfold reads, resp_view, GetAuditorVerifications. by intros [= -> -> ->]. Qed.

Lemma merge_vote_other id votes tx : nType tx <> OPOI_AUDITOR_VERIFY_TX_TYPE -> merge_vote id votes tx = votes.
Proof. intros Ht. unfold merge_vote, is_type. apply Z.eqb_neq in Ht. by rewrite Ht, andb_false_r. Qed.

Lemma verification_view id h tx c :
  nVersion tx = OPOI_TX_VERSION -> nType tx = OPOI_AUDITOR_VERIFY_TX_TYPE ->
  resp_view id (AddAuditorVerification (verification_of h tx) c) =
  (mapResponses c !! id, terms <$> mapRequests c !! id, merge_vote id (vote <$> GetAuditorVerifications id c) tx).
Proof.
  intros Hv Ht. unfold merge_vote, is_type. rewrite Hv, Ht. cbn [Z.eqb andb]. rewrite <- has_voted_votes.
  unfold AddAuditorVerification. cbn [verification_of fv_requestId fv_auditorAddress]. fold (GetAuditorVerifications (opoiRequestId tx) c).
  destruct (decide (opoiRequestId tx = id)) as [->|Hne].
  - rewrite bool_decide_eq_true_2 by done. change (OPOI_TX_VERSION =? OPOI_TX_VERSION) with true. 
    change (OPOI_AUDITOR_VERIFY_TX_TYPE =? OPOI_AUDITOR_VERIFY_TX_TYPE) with true. cbn [andb].
    destruct (has_voted _ _); cbn [negb].
    + unfold resp_view, GetAuditorVerifications. cbn. by rewrite lookup_insert_eq.
    + unfold lock_auditor, resp_view, GetAuditorVerifications. case_match; cbn; rewrite lookup_insert_eq; cbn; by rewrite fmap_app.
  - rewrite bool_decide_eq_false_2, andb_false_r by done. cbn [andb].
    unfold lock_auditor, resp_view, GetAuditorVerifications. repeat case_match; cbn; by rewrite lookup_insert_ne.
Qed.

(** A plain transaction changes of this only the votes, by its own. *)
Lemma apply_view `{Crypto} pparams chain h id tx c :
  nVersion tx = OPOI_TX_VERSION -> plain id tx -> (nType tx = OPOI_REQUEST_TX_TYPE -> opoiRequestId tx <> id) ->
  resp_view id (ProcessOPoITransaction pparams chain h false tx c) =
  (mapResponses c !! id, terms <$> mapRequests c !! id, merge_vote id (vote <$> GetAuditorVerifications id c) tx).
Proof.
  intros Hv Hp Hq. unfold ProcessOPoITransaction. rewrite Hv. cbn [negb]. unfold ApplyOPoITransaction.
  change (OPOI_TX_VERSION =? OPOI_TX_VERSION) with true. cbn [negb].
  destruct (Z.eqb_spec (nType tx) OPOI_AUDITOR_VERIFY_TX_TYPE) as [Et|Et].
  { rewrite Et. destruct (opoiShardIndex tx =? NO_SHARD) eqn:Es; known_types; [by apply verification_view|].
    assert (Hne : opoiRequestId tx <> id) by (intros E; apply Z.eqb_neq in Es; by apply Es, Hp).
    unfold merge_vote. rewrite (bool_decide_eq_false_2 (opoiRequestId tx = id)), andb_false_r by done. cbn [andb].
    apply reads_view. unfold AddShardAuditorVerification, lock_auditor. unchanged. }
  rewrite merge_vote_other by done. fold (resp_view id c).
  destruct (Z.eqb_spec (nType tx) OPOI_REQUEST_TX_TYPE) as [E1|E1].
  { unfold resp_view. cbn. rewrite lookup_insert_ne; [done|]. by apply Hq. }
  destruct (Z.eqb_spec (nType tx) OPOI_RESPONSE_TX_TYPE) as [E2|E2]; cbn [andb].
  { destruct (Z.eqb_spec (opoiResponsePhase tx) 0) as [E3|E3].
    - unfold AddResponseCommit, resp_view. cbn. by rewrite terms_alter.
    - assert (Hne : opoiRequestId tx <> id) by (intros E; apply E3; by apply Hp).
      unfold ApplyResponseReveal, AddResponse, resp_view. case_match; cbn; rewrite ?lookup_alter_ne, ?lookup_insert_ne; try done;
        unfold response_of; case_match; cbn; done. }
  apply reads_view. unfold AddStake, StartUnstake, ApplyRenew, ApplyChallengeCommit, ApplyChallengeReveal,
    AddModelManifest, AddModelVote, AddCoordinatorClaim, AddShardResult, update_responder. cbv zeta. repeat (case_match; try done).
Qed.

Lemma apply_block_view `{Crypto} params chain h id txs c :
  Forall (fun tx => nVersion tx = OPOI_TX_VERSION /\ plain id tx /\ (nType tx = OPOI_REQUEST_TX_TYPE -> opoiRequestId tx <> id)) txs ->
  resp_view id (ApplyBlock params chain h txs c) =
  (mapResponses c !! id, terms <$> mapRequests c !! id, foldl (merge_vote id) (vote <$> GetAuditorVerifications id c) txs).
Proof.
  intros Hf. revert c. induction Hf as [|tx txs (Hv & Hp & Hq) _ IH]; intros c; [done|].
  change (ApplyBlock params chain h (tx :: txs) c) with (ApplyBlock params chain h txs (ProcessOPoITransaction (Some params) chain h false tx c)).
  rewrite IH.
  pose proof (apply_view (Some params) chain h id tx c Hv Hp Hq) as E. unfold resp_view in E. injection E as -> -> ->. done.
Qed.

(** The votes of a block's inference transactions are those of its
    transactions after the coinbase. *)
Lemma merge_vote_filter id votes (P : CTransaction -> bool) txs :
  (forall tx, tx ∈ txs -> is_type OPOI_AUDITOR_VERIFY_TX_TYPE tx = true -> P tx = true) ->
  foldl (merge_vote id) votes (List.filter P txs) = foldl (merge_vote id) votes txs.
Proof.
  revert votes. induction txs as [|tx txs IH]; intros votes HP; [done|]. cbn. destruct (P tx) eqn:E; cbn.
  - apply IH. intros tx' Hin. apply HP. by right.
  - rewrite IH by (intros tx' Hin; apply HP; by right). f_equal. unfold merge_vote.
    destruct (is_type OPOI_AUDITOR_VERIFY_TX_TYPE tx) eqn:Et; [|done]. rewrite HP in E; [done|left|done].
Qed.

(** Payments of responses depend on the mark, the terms and the votes only. *)
Lemma verifiable_payment_reads params c c1 txs resp :
  IsResponsePaid (resp_requestId resp) c1 = IsResponsePaid (resp_requestId resp) c ->
  terms <$> mapRequests c1 !! resp_requestId resp = terms <$> mapRequests c !! resp_requestId resp ->
  vote <$> combined_verifications c1 (resp_requestId resp) txs = vote <$> combined_verifications c (resp_requestId resp) txs ->
  verifiable_payment params c1 txs resp = verifiable_payment params c txs resp.
Proof.
  intros Hm Ht Hv. unfold verifiable_payment, GetRequest, total_payment. rewrite Hm, (majority_votes _ _ _ Hv). case_match; [done|].
  destruct (mapRequests c1 !! _) as [r1|], (mapRequests c !! _) as [r|]; try done. unfold terms in Ht. cbn in Ht. by injection Ht as -> -> ->.
Qed.

Lemma sampled_payment_reads params c c1 txs h resp :
  IsResponsePaid (resp_requestId resp) c1 = IsResponsePaid (resp_requestId resp) c ->
  terms <$> mapRequests c1 !! resp_requestId resp = terms <$> mapRequests c !! resp_requestId resp ->
  vote <$> combined_verifications c1 (resp_requestId resp) txs = vote <$> combined_verifications c (resp_requestId resp) txs ->
  sampled_payment params c1 txs h resp = sampled_payment params c txs h resp.
Proof.
  intros Hm Ht Hv. unfold sampled_payment, GetRequest, total_payment. rewrite Hm, (majority_votes _ _ _ Hv). case_match; [done|]. case_match; [done|].
  destruct (mapRequests c1 !! _) as [r1|], (mapRequests c !! _) as [r|]; try done. unfold terms in Ht. cbn in Ht. by injection Ht as -> -> ->.
Qed.

(** Every response is stored under its identifier. *)
Definition responses_keyed (c : OPoICache) : Prop := map_Forall (fun id resp => resp_requestId resp = id) (mapResponses c).

Lemma listed_response c resp : responses_keyed c -> resp ∈ ListResponses c -> mapResponses c !! resp_requestId resp = Some resp.
Proof.
  intros Hk. unfold ListResponses. rewrite list_elem_of_fmap. intros ([k r] & -> & Hin). apply elem_of_items in Hin. cbn. by rewrite (Hk _ _ Hin).
Qed.

Lemma response_listed c id resp : mapResponses c !! id = Some resp -> resp ∈ ListResponses c.
Proof. intros Hr. unfold ListResponses. apply list_elem_of_fmap. exists (id, resp). by rewrite elem_of_items. Qed.

(** Whom a payment of a response is for. *)
Lemma verifiable_payment_for params c txs resp p :
  In p (verifiable_payment params c txs resp) -> rp_requestId p = resp_requestId resp /\ is_Some (mapRequests c !! resp_requestId resp).
Proof.
  unfold verifiable_payment, GetRequest. destruct (IsResponsePaid _ _); [done|]. destruct (mapRequests c !! _); [|done].
  destruct (_ || _); [done|]. destruct (negb _); [done|]. by intros [<-|[]].
Qed.

Lemma sampled_payment_for params c txs h resp p :
  In p (sampled_payment params c txs h resp) ->
  rp_requestId p = resp_requestId resp /\ is_Some (mapRequests c !! resp_requestId resp) /\ IsResponsePaid (resp_requestId resp) c = false.
Proof.
  unfold sampled_payment, GetRequest. destruct (negb _); [done|]. destruct (IsResponsePaid _ _); [done|]. destruct (mapRequests c !! _); [|done].
  destruct (_ || _); [done|]. cbv zeta. intros Hp. match type of Hp with In _ (if ?b then _ else _) => destruct b end; [|done]. by destruct Hp as [<-|[]].
Qed.

(** What the marks of responses are computed from. *)
Definition pays (c : OPoICache) := (setPaidResponses c, reads c).

Lemma pays_view id c c' : pays c' = pays c -> IsResponsePaid id c' = IsResponsePaid id c /\ resp_view id c' = resp_view id c.
Proof.
  intros E. split; [|apply reads_view; by apply (f_equal snd) in E]. apply (f_equal fst) in E. cbn in E. unfold IsResponsePaid. by rewrite E.
Qed.

Lemma ledger_view id c c' : ledger c' = ledger c -> IsResponsePaid id c' = IsResponsePaid id c /\ resp_view id c' = resp_view id c.
Proof.
  unfold ledger, marks. intros [= _ Hs _ Hr Hv Hq]. unfold IsResponsePaid, resp_view, GetAuditorVerifications. rewrite Hs, Hr, Hv.
  apply (f_equal (lookup id)) in Hq. rewrite !lookup_fmap in Hq. by rewrite Hq.
Qed.

Lemma at_verifiable_view params nHeight vtx id c :
  IsResponsePaid id (at_verifiable params nHeight vtx c) = IsResponsePaid id c /\
  resp_view id (at_verifiable params nHeight vtx c) = resp_view id c.
Proof.
  assert (H1 : pays (ProcessChallengerRewardPayments params c vtx) = pays c)
    by (unfold ProcessChallengerRewardPayments; by rewrite (foldl_same pays)).
  assert (H2 : pays (at_verifiable params nHeight vtx c) = pays (at_shards params nHeight vtx c))
    by (unfold at_verifiable, ProcessShardPayments; by rewrite (foldl_same pays)).
  destruct (pays_view id _ _ H1) as [<- <-], (pays_view id _ _ H2) as [-> ->]. apply ledger_view, before_payments_ledger.
Qed.

Lemma at_sampled_view params nHeight vtx id c :
  resp_view id (at_sampled params nHeight vtx c) = resp_view id (at_verifiable params nHeight vtx c).
Proof.
  apply reads_view. unfold at_sampled, ProcessVerifiableResponsePayments, mark_responses. by rewrite (foldl_same reads).
Qed.

Section demanded.
Context `{Crypto} (params : Params) (chain : Chain) (nHeight : Z) (treasury : string) (other : Stage -> list CTransaction -> Verdict).
Context (coinbase : CTransaction) (txs : list CTransaction) (c : OPoICache) (view : Coins).

Abbreviation vtx := (coinbase :: txs).
Abbreviation after := (ApplyBlock params chain (u32 nHeight) (List.filter (connects_opoi false false) vtx) c).

Hypothesis Hchecked : CheckBeforeTxs params chain nHeight false treasury other vtx c view = Accept.
Hypothesis Hcoinbase : IsOPoITx coinbase = false.

(** The inference transactions of an accepted block are all handed to the cache,
    and no REQUEST reuses an identifier. *)
Lemma checked_opoi tx : tx ∈ txs -> IsOPoITx tx = true ->
  connects_opoi false false tx = true /\ (nType tx = OPOI_REQUEST_TX_TYPE -> mapRequests c !! opoiRequestId tx = None).
Proof.
  intros Hin Hop. destruct (checked_before _ _ _ _ _ _ _ _ _ Hchecked) as [Hck _].
  assert (Ha : CheckOPoITransaction params chain false c tx = Accept) by (apply Hck; [by right|done]).
  apply Z.eqb_eq in Hop as Hv. split.
  - apply accepted_by_rule in Ha as [Hnil _]; [|done]. unfold connects_opoi, IsCoinBase. rewrite Hop. destruct Hnil as [-> _]. done.
  - intros Ht. destruct (accepted_by_rule _ _ _ _ _ Ha Hv) as [_ [[_ Hr]|Hr]].
    + unfold CheckRequest in Hr. accepted Hr. fold (GetRequest (opoiRequestId tx) c). by destruct (GetRequest (opoiRequestId tx) c).
    + exfalso. rewrite Ht in Hr. repeat (destruct Hr as [[? _]|Hr]; [done|]). by destruct Hr as [? _].
Qed.

Lemma after_view id :
  is_Some (mapRequests c !! id) -> Forall (plain id) txs ->
  resp_view id after = (mapResponses c !! id, terms <$> mapRequests c !! id, vote <$> combined_verifications c id txs).
Proof.
  intros [r Hr] Hp. rewrite combined_votes. cbn [List.filter].
  replace (connects_opoi false false coinbase) with false by (unfold connects_opoi; by rewrite Hcoinbase, andb_false_r).
  rewrite apply_block_view.
  - f_equal. apply merge_vote_filter. intros tx Hin Ht. apply checked_opoi; [done|]. by apply andb_prop in Ht as [? _].
  - apply Forall_forall. intros tx Hin%list_elem_of_In. apply filter_In in Hin as [Hin%list_elem_of_In Hc].
    assert (Hop : IsOPoITx tx = true) by (by apply andb_prop in Hc as [_ ?]). destruct (checked_opoi tx Hin Hop) as [_ Hq].
    rewrite Forall_forall in Hp. split_and!; [by apply Z.eqb_eq|by apply Hp|]. intros Ht E. rewrite <- E, Hq in Hr; done.
Qed.

(** A cache that keeps what the payment reads owes the same payments. *)
Lemma same_votes id c1 :
  is_Some (mapRequests c !! id) -> Forall (plain id) txs -> resp_view id c1 = resp_view id after ->
  mapResponses c1 !! id = mapResponses c !! id /\ terms <$> mapRequests c1 !! id = terms <$> mapRequests c !! id /\
  vote <$> combined_verifications c1 id txs = vote <$> combined_verifications c id txs.
Proof.
  intros Hr Hp E. rewrite (after_view id Hr Hp) in E. unfold resp_view in E. injection E as E1 E2 E3. split_and!; [done..|].
  by rewrite combined_votes, E3, combined_votes, merge_votes_twice.
Qed.

(** A response the check of the coinbase demands is marked by the end of the
    block. *)
Lemma demanded_marked p :
  responses_keyed c -> Forall (plain (rp_requestId p)) txs ->
  p ∈ GetVerifiablePaymentsForBlock params c vtx ++ GetAuditSampledOpenPaymentsForBlock params c vtx (u32 nHeight) ->
  IsResponsePaid (rp_requestId p) (BlockTransitions params nHeight vtx after) = true.
Proof.
  intros Hk Hp. rewrite transitions_at, elem_of_app.
  assert (Hle : forall c1 c2, marks_le c1 c2 -> IsResponsePaid (rp_requestId p) c1 = true -> IsResponsePaid (rp_requestId p) c2 = true).
  { unfold IsResponsePaid. intros c1 c2 (_ & H2 & _) H1. apply bool_decide_eq_true in H1. apply bool_decide_eq_true. set_solver. }
  destruct (at_verifiable_view params nHeight vtx (rp_requestId p) after) as [Hm Hv].
  assert (Hm' : IsResponsePaid (rp_requestId p) after = IsResponsePaid (rp_requestId p) c).
  { unfold IsResponsePaid. pose proof (apply_block_marks params chain (u32 nHeight) (List.filter (connects_opoi false false) vtx) c) as E.
    apply (f_equal (fun m => m.1.2)) in E. cbn [marks fst snd] in E. by rewrite E. }
  intros [Hin|Hin]; apply list_elem_of_In, in_flat_map in Hin as (resp & Hl%list_elem_of_In & Hin); apply listed_response in Hl; [|done|..|done].
  - destruct (verifiable_payment_for _ _ _ _ _ Hin) as [Hid Hreq]. rewrite <- Hid in *.
    eapply Hle; [etransitivity; [apply sampled_le|apply verdicts_le]|]. apply marked_responses_paid.
    destruct (same_votes (rp_requestId p) (at_verifiable params nHeight vtx after) Hreq Hp Hv) as (Hr & Ht & Hvotes).
    apply list_elem_of_In, in_flat_map. exists resp. split; [apply list_elem_of_In, (response_listed _ (rp_requestId p)); by rewrite Hr|].
    cbn [tail] in *. rewrite Hid in *. by rewrite (verifiable_payment_reads params c) by congruence.
  - destruct (sampled_payment_for _ _ _ _ _ _ Hin) as (Hid & Hreq & Hun). rewrite <- Hid in *. eapply Hle; [apply verdicts_le|].
    destruct (IsResponsePaid (rp_requestId p) (at_sampled params nHeight vtx after)) eqn:Em; [eapply Hle; [apply sampled_le|done]|].
    apply marked_responses_paid. rewrite <- at_sampled_view in Hv.
    destruct (same_votes (rp_requestId p) (at_sampled params nHeight vtx after) Hreq Hp Hv) as (Hr & Ht & Hvotes).
    apply list_elem_of_In, in_flat_map. exists resp. split; [apply list_elem_of_In, (response_listed _ (rp_requestId p)); by rewrite Hr|].
    cbn [tail] in *. rewrite Hid in *. rewrite (sampled_payment_reads params c); [done|congruence|done..].
Qed.
End demanded.

(** * Paid once *)

Lemma IsResponsePaid_le c c' id : marks_le c c' -> IsResponsePaid id c = true -> IsResponsePaid id c' = true.
Proof. unfold marks_le, IsResponsePaid. rewrite !bool_decide_eq_true. set_solver. Qed.

(** A response that is paid is not demanded. *)
Lemma paid_not_demanded params c vtx h p p' :
  IsResponsePaid (rp_requestId p) c = true ->
  p' ∈ GetVerifiablePaymentsForBlock params c vtx ++ GetAuditSampledOpenPaymentsForBlock params c vtx h ->
  rp_requestId p <> rp_requestId p'.
Proof.
  intros Hp. rewrite elem_of_app. intros [H%verifiable_payment_unpaid|H%sampled_payment_unpaid] E; congruence.
Qed.

(** What a block settles is marked when it has been connected. *)
Lemma settled_marked params nHeight vtx a :
  (forall r, r ∈ GetChallengerRewardsAtHeight params a vtx ->
     rw_requestId r ∈ setPaidChallengerRewards (BlockTransitions params nHeight vtx a)) /\
  (forall p, p ∈ GetShardPaymentsForBlock params (at_shards params nHeight vtx a) vtx ->
     ShardKey (sp_requestId p) (sp_shardIndex p) ∈ setPaidShards (BlockTransitions params nHeight vtx a)) /\
  (forall p, p ∈ GetVerifiablePaymentsForBlock params (at_verifiable params nHeight vtx a) vtx ++
                 GetAuditSampledOpenPaymentsForBlock params (at_sampled params nHeight vtx a) vtx (u32 nHeight) ->
     rp_requestId p ∈ setPaidResponses (BlockTransitions params nHeight vtx a)).
Proof.
  rewrite transitions_at. destruct (verdicts_le params (ProcessAuditSampledOpenResponsePayments params (at_sampled params nHeight vtx a) vtx (u32 nHeight)))
    as (V1 & V2 & V3). destruct (sampled_le params (at_sampled params nHeight vtx a) vtx (u32 nHeight)) as (S1 & S2 & S3).
  destruct (verifiable_le params (at_verifiable params nHeight vtx a) vtx) as (W1 & W2 & W3). destruct (shards_le params (at_shards params nHeight vtx a) vtx) as (T1 & T2 & T3).
  destruct (at_shards_le params nHeight vtx a) as (R1 & R2 & R3). split_and!.
  - intros r Hr%(marked_rewards_paid _ a)%bool_decide_eq_true. by apply V3, S3, W3, T3, R3.
  - intros p Hp%(marked_shards_paid _ (at_shards params nHeight vtx a))%bool_decide_eq_true. by apply V1, S1, W1.
  - intros p [Hp|Hp]%elem_of_app.
    + apply (marked_responses_paid _ (at_verifiable params nHeight vtx a)), bool_decide_eq_true in Hp. by apply V2, S2.
    + apply (marked_responses_paid _ (at_sampled params nHeight vtx a)), bool_decide_eq_true in Hp. by apply V2.
Qed.

(** C23. Paid once.  What a connected block marks as settled (the challenger
    rewards, shards and verified or audited responses owed on the cache its
    transactions have left) is not demanded of any later block, however many
    blocks are connected in between.  For responses this covers what the check
    of the block's own coinbase demanded, on the cache before the block: it is
    settled by the end of the block, provided the block has no further reveal
    and no vote on a single shard for the same request.  Blocks that are
    rejected or disconnected are not among the blocks in between (see
    [rejected_block_unmarks]), and a shard demanded before the block need not be
    owed after it (see [demanded_shard_not_marked]). *)
Theorem no_double_payment `{Crypto} (params : Params) (chain : Chain) (nHeight : Z) (treasury : string)
    (other : Stage -> list CTransaction -> Verdict) (coinbase : CTransaction) (txs : list CTransaction) (c c' c'' : OPoICache)
    (view view' view'' : Coins) (vtx' : list CTransaction) (h' : Z) :
  let vtx := coinbase :: txs in
  let a := ApplyBlock params chain (u32 nHeight) (List.filter (connects_opoi false false) vtx) c in
  let owed := GetVerifiablePaymentsForBlock params c'' vtx' ++ GetAuditSampledOpenPaymentsForBlock params c'' vtx' h' in
  opoiActive params nHeight = true ->
  ConnectTipOPoI params chain nHeight false treasury other vtx c view = (Accept, (c', view')) ->
  extends params treasury (c', view') (c'', view'') ->
  (forall r r', r ∈ GetChallengerRewardsAtHeight params a vtx -> r' ∈ GetChallengerRewardsAtHeight params c'' vtx' ->
     rw_requestId r <> rw_requestId r') /\
  (forall p p', p ∈ GetShardPaymentsForBlock params (at_shards params nHeight vtx a) vtx -> p' ∈ GetShardPaymentsForBlock params c'' vtx' ->
     (sp_requestId p, sp_shardIndex p) <> (sp_requestId p', sp_shardIndex p')) /\
  (forall p p', p ∈ GetVerifiablePaymentsForBlock params (at_verifiable params nHeight vtx a) vtx ++
                    GetAuditSampledOpenPaymentsForBlock params (at_sampled params nHeight vtx a) vtx (u32 nHeight) ->
     p' ∈ owed -> rp_requestId p <> rp_requestId p') /\
  (IsOPoITx coinbase = false -> responses_keyed c ->
   forall p p', Forall (plain (rp_requestId p)) txs ->
     p ∈ GetVerifiablePaymentsForBlock params c vtx ++ GetAuditSampledOpenPaymentsForBlock params c vtx (u32 nHeight) ->
     p' ∈ owed -> rp_requestId p <> rp_requestId p').
Proof.
  cbv zeta. intros Hact Hc He. apply accepted_tip in Hc as [Hck Hc']. rewrite Hact in Hc'. apply extends_le in He as Hle. cbn [fst] in Hle.
  destruct (settled_marked params nHeight (coinbase :: txs) (ApplyBlock params chain (u32 nHeight) (List.filter (connects_opoi false false) (coinbase :: txs)) c))
    as (Hr & Hs & Hp). rewrite <- Hc' in Hr, Hs, Hp. split_and!.
  - intros r r' H1%Hr H2%reward_unpaid E. apply bool_decide_eq_false in H2. apply H2. rewrite <- E. by apply Hle.
  - intros p p' H1%Hs H2%shard_payment_unpaid [= E1 E2]. apply bool_decide_eq_false in H2. apply H2. rewrite <- E1, <- E2. by apply Hle.
  - intros p p' H1%Hp. apply paid_not_demanded. eapply IsResponsePaid_le; [exact Hle|]. by apply bool_decide_eq_true.
  - intros Hcb Hk p p' Hpl Hin. apply paid_not_demanded. eapply IsResponsePaid_le; [exact Hle|]. rewrite Hc'.
    by apply (demanded_marked params chain nHeight treasury other coinbase txs c view).
Qed.

(** * Concrete instances *)

#[local] Existing Instance toyCrypto.

Definition pay_to (address : string) (amount : Z) : CTxOut := mkCTxOut amount (GetScriptForDestination (DecodeDestination address)).

Definition paying_coinbase (h : Z) (outs : list CTxOut) : CTransaction :=
  emptyTx <| nVersion := 4 |> <| hash := h |> <| vin := [mkCTxIn COutPoint_null [] 0] |> <| vout := mkCTxOut 7500000000 [1] :: outs |>.

Definition connect_at (h : Z) (vtx : list CTransaction) (s : OPoICache * Coins) : Verdict * (OPoICache * Coins) :=
  ConnectTipOPoI mainParams toyChain h false "t" no_other vtx s.1 s.2.

(** A block that pays an audited answer whose deadline has passed
    ([sample_answered]), and an empty block after it. *)
Definition paying_block : list CTransaction := [paying_coinbase 1 [pay_to "m" 500500]].
Definition after_paying : OPoICache * Coins := snd (connect_at 700000 paying_block (sample_answered, ∅)).
Definition after_next : OPoICache * Coins := snd (connect_at 700001 [paying_coinbase 2 []] after_paying).

Lemma no_double_payment_witness :
  mkOPoIResponsePayment "r1" "m" 500500 ∈ GetAuditSampledOpenPaymentsForBlock mainParams sample_answered paying_block 700000 /\
  forall p', p' ∈ GetVerifiablePaymentsForBlock mainParams (fst after_next) [paying_coinbase 3 []] ++
               GetAuditSampledOpenPaymentsForBlock mainParams (fst after_next) [paying_coinbase 3 []] 700002 ->
    "r1"%string <> rp_requestId p'.
Proof.
  assert (Hin : mkOPoIResponsePayment "r1" "m" 500500 ∈ GetAuditSampledOpenPaymentsForBlock mainParams sample_answered paying_block 700000)
    by (vm_compute; left).
  split; [exact Hin|]. intros p'.
  apply (no_double_payment mainParams toyChain 700000 "t" no_other (paying_coinbase 1 [pay_to "m" 500500]) [] sample_answered
    (fst after_paying) (fst after_next) ∅ (snd after_paying) (snd after_next) [paying_coinbase 3 []] 700002) with (p := mkOPoIResponsePayment "r1" "m" 500500).
  - vm_compute. reflexivity.
  - vm_compute. reflexivity.
  - apply (extends_block mainParams "t" _ toyChain 700001 no_other [paying_coinbase 2 []] (fst after_paying) (snd after_paying)); [constructor|].
    vm_compute. reflexivity.
  - reflexivity.
  - apply map_Forall_to_list. vm_compute. repeat constructor.
  - constructor.
  - apply elem_of_app. right. exact Hin.
Defined.

(** ** Marks that are missed or lost *)

Definition other_stake : CTransaction :=
  (sample_tx OPOI_STAKE_TX_TYPE) <| hash := 50 |> <| opoiMinerAddress := "n" |> <| opoiSig := string_bytes "n" |>
    <| opoiCollateralIn := mkCOutPoint 0xabcd 1 |> <| opoiPayment := 1000 |> <| opoiHostedExpertIds := [2] |>.
Definition other_result : CTransaction :=
  sample_shard_result <| hash := 51 |> <| opoiMinerAddress := "n" |> <| opoiSig := string_bytes "n" |>.

Definition staking_block : list CTransaction := [paying_coinbase 1 [pay_to "m" 45454]; sample_shard_result; other_stake].
Definition serving : OPoICache := sample_serving <| mapStakes ::= fmap (fun s => s <| stake_blockHeight := 99000 |>) |>.
Definition after_staking : Verdict * (OPoICache * Coins) := connect_at 100001 staking_block (serving, sample_view).

(** A shard the check of the coinbase demands may be left unmarked: the check
    counts on the cache before the block, where one host is enough for a
    majority; a STAKE in the same block adds a host, so on the cache after it the
    shard is not decided.  The miner paid by this block is owed for the shard
    again in a later one. *)
Theorem demanded_shard_not_marked :
  map sp_minerAddress (GetShardPaymentsForBlock mainParams serving staking_block) = ["m"] /\
  fst after_staking = Accept /\ IsShardPaid "r1" 4 (fst (snd after_staking)) = false /\
  map sp_minerAddress (GetShardPaymentsForBlock mainParams (fst (snd after_staking)) [paying_coinbase 4 []; other_result]) = ["m"; "n"].
Proof. by vm_compute. Qed.

Definition serving_block : list CTransaction := [paying_coinbase 1 [pay_to "m" 45454]; sample_shard_result].
Definition after_serving : Verdict * (OPoICache * Coins) := connect_at 100001 serving_block (serving, sample_view).
Definition repeated_result : CTransaction := sample_shard_result <| hash := 52 |>.
Definition bad_block : list CTransaction := [paying_coinbase 2 []; repeated_result; sample_spend (mkCOutPoint 0xdead 0)].
Definition after_bad : Verdict * (OPoICache * Coins) := connect_at 100002 bad_block (snd after_serving).

(** A rejected block may unmark a payment: a result for a shard that is already
    paid is accepted and applied, and when the block fails later its undo removes
    the mark of the earlier payment, so this node demands the payment again. *)
Theorem rejected_block_unmarks :
  fst after_serving = Accept /\ IsShardPaid "r1" 4 (fst (snd after_serving)) = true /\
  fst after_bad = DoS 100 "bad-txns-inputs-missingorspent" /\ IsShardPaid "r1" 4 (fst (snd after_bad)) = false /\
  map sp_amount (GetShardPaymentsForBlock mainParams (fst (snd after_bad)) [paying_coinbase 4 []; repeated_result]) = [45454].
Proof. by vm_compute. Qed.
