(* ===== verification/Collateral.v ===== *)
(** Collateral safety: while blocks are connected, every stake that has not
    been released, every challenge that awaits its resolution and every vote
    that has not been settled holds an outpoint of its own, that outpoint is
    locked, and the output behind a stake is unspent and worth the minimum.

    [held] names the outpoint each holder has pledged; [sheds] relates two
    caches when a lock disappears only together with its holder.  Every
    transition of a block sheds; the transactions of a block pledge fresh
    outpoints or shed.  The invariant needs two facts about a block that
    validation does not check, because it compares transactions with the state
    before the block only: that no outpoint is pledged twice in the block, and
    that no challenge is revealed twice in it.  [double_pledge_unlocks_stake]
    shows what happens without the first. *)

From stdpp Require Import gmap strings list.
From Stdlib Require Import ZArith Lia.
From S2P Require Import Prelude Params Uint256 Transaction Platform Shard Records Majority.
From S2P Require Import Cache Sortition CheckTx ProcessTx BlockOps Payments Connect.

Create HintDb collateral.

(** * Holders *)

Inductive Holder :=
  | HStake (miner : string)
  | HChallenge (requestId : string)
  | HVote (requestId : string) (i : nat)
  | HShardVote (key : string) (i : nat).

#[global] Instance Holder_eq_dec : EqDecision Holder.
Proof. solve_decision. Defined.

Definition stake_live (s : OPoIStake) : bool := negb (stake_stakeStatus s =? OPOI_STAKE_RELEASED).
Definition challenge_live (ch : OPoIChallenge) : bool := IsOpen ch || IsPendingResolution ch.

(** The outpoint a holder has pledged and not got back. *)
Definition held (c : OPoICache) (h : Holder) : option COutPoint :=
  match h with
  | HStake k => s ← mapStakes c !! k; if stake_live s then Some (stake_collateralIn s) else None
  | HChallenge k => ch ← mapChallenges c !! k; if challenge_live ch then Some (ch_challengerCollateral ch) else None
  | HVote id i =>
    if bool_decide (id ∈ setResolvedAuditorVerifications c) then None
    else votes ← mapAuditorVerifications c !! id; fv_auditorCollateral <$> votes !! i
  | HShardVote key i =>
    if bool_decide (key ∈ setResolvedShardAuditorVerifications c) then None
    else votes ← mapShardAuditorVerifications c !! key; fv_auditorCollateral <$> votes !! i
  end.

Definition locked (c : OPoICache) (out : COutPoint) : Prop := is_Some (mapLockedUTXOs c !! out).

(** The votes of a shard are stored under the key of that shard. *)
Definition shard_votes_keyed (c : OPoICache) : Prop :=
  forall key votes fv, mapShardAuditorVerifications c !! key = Some votes -> fv ∈ votes ->
    ShardKey (fv_requestId fv) (fv_shardIndex fv) = key.

Record collateral_safe (c : OPoICache) : Prop := {
  cs_locked : forall h out, held c h = Some out -> locked c out;
  cs_unique : forall h h' out, held c h = Some out -> held c h' = Some out -> h = h';
  cs_keyed : shard_votes_keyed c;
}.

(** * Letting go *)

Record sheds (c c' : OPoICache) : Prop := {
  sh_held : forall h out, held c' h = Some out -> held c h = Some out;
  sh_locked : forall out, locked c out -> locked c' out \/ exists h, held c h = Some out /\ held c' h = None;
  sh_keyed : shard_votes_keyed c';
}.

(** [sheds] between caches whose shard votes are keyed. *)
Definition lets_go (c c' : OPoICache) : Prop := shard_votes_keyed c -> sheds c c'.

#[global] Instance lets_go_preorder : PreOrder lets_go.
Proof.
  split.
  - intros c Hk. split; [done| |done]. intros out Ho. by left.
  - intros c1 c2 c3 H12 H23 Hk. specialize (H12 Hk). specialize (H23 (sh_keyed _ _ H12)).
    destruct H12 as [A1 A2 A3], H23 as [B1 B2 B3]. split; [eauto| |done].
    intros out [Ho|(h & H1 & H2)]%A2.
    + apply B2 in Ho as [|(h & H1 & H2)]; [by left|right]. exists h. eauto.
    + right. exists h. split; [done|]. destruct (held c3 h) eqn:E; [|done]. apply B1 in E. congruence.
Qed.

Lemma lets_go_safe c c' : lets_go c c' -> collateral_safe c -> collateral_safe c'.
Proof.
  intros Hs [Hl Hu Hk]. destruct (Hs Hk) as [A1 A2 A3]. split; [| |done].
  - intros h out Hh. pose proof (A1 _ _ Hh) as Hc. destruct (A2 out) as [|(h' & H1 & H2)]; [by eapply Hl|done|].
    rewrite (Hu h h' out Hc H1) in Hh. congruence.
  - intros h h' out Hh Hh'. eapply Hu; by apply A1.
Qed.

(** A change that moves no pledge and no lock. *)
Record same_pledges (c c' : OPoICache) : Prop := {
  sp_held : forall h, held c' h = held c h;
  sp_locks : mapLockedUTXOs c' = mapLockedUTXOs c;
  sp_shards : mapShardAuditorVerifications c' = mapShardAuditorVerifications c;
}.

Lemma same_lets_go c c' : same_pledges c c' -> lets_go c c'.
Proof.
  intros [A1 A2 A3] Hk. split.
  - intros h out. by rewrite A1.
  - intros out Ho. left. unfold locked in *. by rewrite A2.
  - unfold shard_votes_keyed in *. by rewrite A3.
Qed.

#[global] Instance same_pledges_preorder : PreOrder same_pledges.
Proof.
  split; [done|]. intros c1 c2 c3 [A1 A2 A3] [B1 B2 B3]. split; [|congruence..]. intros h. by rewrite B1.
Qed.

(** Fields the pledges do not depend on. *)
Lemma same_other c c' :
  mapStakes c' = mapStakes c -> mapChallenges c' = mapChallenges c ->
  mapAuditorVerifications c' = mapAuditorVerifications c ->
  mapShardAuditorVerifications c' = mapShardAuditorVerifications c ->
  setResolvedAuditorVerifications c' = setResolvedAuditorVerifications c ->
  setResolvedShardAuditorVerifications c' = setResolvedShardAuditorVerifications c ->
  mapLockedUTXOs c' = mapLockedUTXOs c -> same_pledges c c'.
Proof.
  intros E1 E2 E3 E4 E5 E6 E7. split; [|done..]. destruct c, c'. cbn in *. subst. by intros [].
Qed.

(** Stakes rewritten without moving their collateral or ending their life. *)
Definition keeps_pledge (s s' : OPoIStake) : Prop :=
  stake_collateralIn s' = stake_collateralIn s /\ stake_live s' = stake_live s.

Lemma same_stakes c m :
  (forall k, match mapStakes c !! k, m !! k with
             | Some s, Some s' => keeps_pledge s s' | None, None => True | _, _ => False end) ->
  same_pledges c (c <| mapStakes := m |>).
Proof.
  intros Hm. split; [|done..]. intros []; cbn; try done. specialize (Hm miner).
  destruct (mapStakes c !! miner), (m !! miner); cbn; try done. by destruct Hm as [-> ->].
Qed.

Lemma same_alter_stake c f k :
  (forall s, mapStakes c !! k = Some s -> keeps_pledge s (f s)) ->
  same_pledges c (c <| mapStakes ::= alter f k |>).
Proof.
  intros Hf. apply same_stakes. intros k'. destruct (decide (k = k')) as [<-|Hne].
  - rewrite lookup_alter_eq. destruct (mapStakes c !! k) eqn:E; [by apply Hf|done].
  - rewrite lookup_alter_ne by done. by destruct (mapStakes c !! k').
Qed.

Lemma same_fmap_stakes c f :
  (forall s, keeps_pledge s (f s)) -> same_pledges c (c <| mapStakes ::= fmap f |>).
Proof.
  intros Hf. apply same_stakes. intros k. rewrite lookup_fmap. destruct (mapStakes c !! k); cbn; [apply Hf|done].
Qed.

Lemma same_update_responder c id f :
  (forall s, keeps_pledge s (f s)) -> same_pledges c (update_responder id f c).
Proof.
  intros Hf. unfold update_responder. destruct (mapResponses c !! id); [|reflexivity].
  apply same_alter_stake. intros s _. apply Hf.
Qed.

(** One holder lets go, and at most its own lock disappears. *)
Lemma lets_go_release c c' h0 :
  (forall h, h <> h0 -> held c' h = held c h) -> held c' h0 = None ->
  (forall out, locked c out -> locked c' out \/ held c h0 = Some out) ->
  mapShardAuditorVerifications c' = mapShardAuditorVerifications c -> lets_go c c'.
Proof.
  intros Hh H0 Hl Hs Hk. split.
  - intros h out Ho. destruct (decide (h = h0)) as [->|Hne]; [congruence|]. by rewrite <- Hh.
  - intros out [|Ho]%Hl; [by left|right]. by exists h0.
  - unfold shard_votes_keyed in *. by rewrite Hs.
Qed.

Lemma unlock_locked c out out' :
  locked c out' -> out' <> out -> locked (UnlockUTXO out c) out'.
Proof. intros Hl Hne. unfold locked, UnlockUTXO in *. cbn. by rewrite lookup_delete_ne. Qed.

(** A challenge is resolved, with or without its collateral coming back. *)
Lemma lets_go_challenge c key ch ch' :
  mapChallenges c !! key = Some ch -> challenge_live ch' = false ->
  lets_go c (c <| mapChallenges ::= <[key := ch']> |>).
Proof.
  intros Hch Hl. apply (lets_go_release _ _ (HChallenge key)); [|cbn|..|done].
  - intros [] Hne; cbn; try done. by rewrite lookup_insert_ne by congruence.
  - rewrite lookup_insert_eq. cbn. by rewrite Hl.
  - intros out Ho. by left.
Qed.

Lemma lets_go_challenge_unlock c key ch ch' :
  mapChallenges c !! key = Some ch -> challenge_live ch = true -> challenge_live ch' = false ->
  lets_go c ((UnlockUTXO (ch_challengerCollateral ch) c) <| mapChallenges ::= <[key := ch']> |>).
Proof.
  intros Hch Hl Hl'. apply (lets_go_release _ _ (HChallenge key)); [|cbn|..|done].
  - intros [] Hne; cbn; try done. by rewrite lookup_insert_ne by congruence.
  - rewrite lookup_insert_eq. cbn. by rewrite Hl'.
  - intros out Ho. destruct (decide (out = ch_challengerCollateral ch)) as [->|Hne].
    + right. cbn. rewrite Hch. cbn. by rewrite Hl.
    + left. by apply unlock_locked.
Qed.

Ltac keeps :=
  unfold keeps_pledge, stake_live, slash_active, suspend_overdue, canary_strike, expire_obligation, Stake_IsActive,
    OPOI_STAKE_ACTIVE, OPOI_STAKE_SLASHED, OPOI_STAKE_SUSPENDED, OPOI_STAKE_RELEASED in *; intros; cbv zeta;
  repeat case_match; cbn in *; split; try done;
  repeat match goal with
  | H : _ && _ = true |- _ => apply andb_true_iff in H as [? ?]
  | H : negb _ = false |- _ => apply negb_false_iff in H
  | H : (_ =? _) = true |- _ => apply Z.eqb_eq in H
  end;
  match goal with E : stake_stakeStatus _ = _ |- _ => by rewrite E end.

Lemma slash_keeps s : keeps_pledge s (slash_active s).
Proof. keeps. Qed.
Lemma suspend_keeps h params s : keeps_pledge s (suspend_overdue h params s).
Proof. keeps. Qed.
Lemma strike_keeps s : keeps_pledge s (canary_strike s).
Proof. keeps. Qed.
Lemma obligation_keeps h s : keeps_pledge s (expire_obligation h s).
Proof. unfold expire_obligation. repeat case_match; [done..|apply strike_keeps]. Qed.

(** * The transitions at the end of a block *)

Lemma expire_challenge_lets_go h params c key ch :
  mapChallenges c !! key = Some ch -> lets_go c (expire_challenge h params c (key, ch)).
Proof.
  intros Hch. unfold expire_challenge. destruct (IsOpen ch) eqn:Eo.
  { destruct (_ <? _); [reflexivity|]. by eapply lets_go_challenge. }
  destruct (IsPendingResolution ch) eqn:Ep; [|reflexivity]. cbv zeta. destruct (_ =? AUDITOR_VERIFY_FAIL).
  - pose proof (same_update_responder c (ch_requestId ch) slash_active slash_keeps) as Hs.
    transitivity (update_responder (ch_requestId ch) slash_active c); [by apply same_lets_go|].
    apply lets_go_challenge_unlock; [|unfold challenge_live; by rewrite Eo, Ep|done].
    unfold update_responder. by case_match.
  - destruct (_ =? AUDITOR_VERIFY_PASS); [|reflexivity]. by eapply lets_go_challenge.
Qed.

Lemma release_stake_lets_go h params c key s :
  mapStakes c !! key = Some s -> lets_go c (release_stake h params c (key, s)).
Proof.
  intros Hs. unfold release_stake. destruct (release_due h params s) eqn:Ed; [|reflexivity].
  apply (lets_go_release _ _ (HStake key)); [|cbn|..|done].
  - intros [] Hne; cbn; try done. by rewrite lookup_insert_ne by congruence.
  - by rewrite lookup_insert_eq.
  - intros out Ho. destruct (decide (out = stake_collateralIn s)) as [->|Hne].
    + right. cbn. rewrite Hs. cbn. unfold release_due, IsUnstaking in Ed. apply andb_true_iff in Ed as [Ed _].
      apply Z.eqb_eq in Ed. unfold stake_live. by rewrite Ed.
    + left. unfold locked in *. cbn. by rewrite lookup_delete_ne.
Qed.

Lemma expired_challenges_lets_go h params c : lets_go c (ProcessExpiredChallenges h params c).
Proof.
  unfold ProcessExpiredChallenges. etransitivity.
  - apply (foldl_items lets_go mapChallenges). intros c1 k ch Hch. split; [by apply expire_challenge_lets_go|].
    intros k' Hne. unfold expire_challenge, update_responder. repeat case_match; cbn; rewrite ?lookup_insert_ne; done.
  - apply (foldl_items lets_go mapStakes). intros c1 k s Hs. split; [by apply release_stake_lets_go|].
    intros k' Hne. unfold release_stake. case_match; cbn; rewrite ?lookup_insert_ne; done.
Qed.

Lemma unlock_majority_locks m verifs c :
  let c' := unlock_majority m verifs c in
  c' = c <| mapLockedUTXOs := mapLockedUTXOs c' |> <| mapLockingTxHash := mapLockingTxHash c' |>.
Proof.
  unfold unlock_majority. apply (foldl_inv (fun c' =>
    c' = c <| mapLockedUTXOs := mapLockedUTXOs c' |> <| mapLockingTxHash := mapLockingTxHash c' |>)); [by destruct c|].
  intros c' fv _ ->. by destruct (fv_result fv =? m).
Qed.

(** A lock that the settlement of a list of votes removes was taken by one of
    them. *)
Lemma unlock_majority_lost m verifs c out :
  locked c out -> locked (unlock_majority m verifs c) out \/
  exists i, fv_auditorCollateral <$> verifs !! i = Some out.
Proof.
  intros Ho. unfold locked. rewrite lookup_unlock_majority. destruct (existsb _ verifs) eqn:E; [right|by left].
  apply existsb_exists in E as (fv & [i Hi]%list_elem_of_In%list_elem_of_lookup & [_ Hb]%andb_true_iff).
  apply bool_decide_eq_true in Hb. exists i. by rewrite Hi, <- Hb.
Qed.

Lemma settle_vote_collateral m (verifs : list AuditorVerification) i :
  fv_auditorCollateral <$> (settle_vote m <$> verifs) !! i = fv_auditorCollateral <$> verifs !! i.
Proof. rewrite list_lookup_fmap. by destruct (verifs !! i). Qed.

Lemma settle_canary_same id m c : same_pledges c (settle_canary id m c).
Proof.
  unfold settle_canary. repeat case_match; try reflexivity; apply same_update_responder; [apply strike_keeps|done].
Qed.

Lemma resolve_response_lets_go params c id verifs :
  mapAuditorVerifications c !! id = Some verifs -> lets_go c (resolve_response params c (id, verifs)).
Proof.
  intros Hv. unfold resolve_response, IsAuditorResolved. case_bool_decide as Hr; [reflexivity|]. cbv zeta.
  set (m := GetAuditorMajorityResult _ _ _). destruct (m <? 0); [reflexivity|].
  etransitivity; [|apply same_lets_go, settle_canary_same].
  pose proof (unlock_majority_locks m verifs c) as Hu. intros Hk. cbv zeta in Hu. rewrite Hu. split.
  - intros [] out; cbn; try done. destruct (decide (requestId = id)) as [->|Hne].
    + rewrite bool_decide_eq_true_2 by set_solver. done.
    + rewrite lookup_insert_ne by done. case_bool_decide; [done|]. rewrite bool_decide_eq_false_2 by set_solver. done.
  - intros out Ho. apply (unlock_majority_lost m verifs) in Ho as [|[i Hi]]; [by left|right]. exists (HVote id i). cbn.
    rewrite bool_decide_eq_false_2, Hv by done. split; [done|]. by rewrite bool_decide_eq_true_2 by set_solver.
  - done.
Qed.

Lemma resolve_shard_lets_go params c key verifs :
  mapShardAuditorVerifications c !! key = Some verifs -> lets_go c (resolve_shard params c (key, verifs)).
Proof.
  intros Hv Hk. unfold resolve_shard. destruct verifs as [|front rest] eqn:Ev; [by apply lets_go_preorder|].
  assert (Hkey : ShardKey (fv_requestId front) (fv_shardIndex front) = key) by (eapply Hk; [done|left]).
  unfold IsShardAuditorResolved, MarkShardAuditorResolved. rewrite Hkey, <- Ev in *.
  case_bool_decide as Hr; [by apply lets_go_preorder|]. cbv zeta. set (m := ComputeAuditorMajority _ _).
  destruct (m <? 0); [by apply lets_go_preorder|].
  pose proof (unlock_majority_locks m verifs c) as Hu. cbv zeta in Hu. rewrite Hu. split.
  - intros [] out; cbn; try done. destruct (decide (key0 = key)) as [->|Hne].
    + rewrite bool_decide_eq_true_2 by set_solver. done.
    + rewrite lookup_insert_ne by done. case_bool_decide; [done|]. rewrite bool_decide_eq_false_2 by set_solver. done.
  - intros out Ho. apply (unlock_majority_lost m verifs) in Ho as [|[i Hi]]; [by left|right]. exists (HShardVote key i). cbn.
    rewrite bool_decide_eq_false_2, Hv by done. split; [done|]. by rewrite bool_decide_eq_true_2 by set_solver.
  - intros key' votes fv. cbn. destruct (decide (key' = key)) as [->|Hne].
    + rewrite lookup_insert_eq. intros [= <-] (fv' & -> & Hin)%list_elem_of_fmap. cbn. by eapply Hk.
    + rewrite lookup_insert_ne by done. by apply Hk.
Qed.

Lemma auditor_verifications_let_go params c : lets_go c (ProcessAuditorVerifications params c).
Proof.
  unfold ProcessAuditorVerifications. etransitivity.
  - apply (foldl_items lets_go mapAuditorVerifications). intros c1 k v Hv. split; [by apply resolve_response_lets_go|].
    intros k' Hne. pose proof (resolve_response_step params c1 k v Hv) as Hst. cbv zeta in Hst.
    destruct (decided params c1 k v); [destruct Hst as (-> & _)|by rewrite Hst]. by rewrite lookup_insert_ne.
  - apply (foldl_items lets_go mapShardAuditorVerifications). intros c1 k v Hv.
    split; [by apply resolve_shard_lets_go|]. intros k' Hne. unfold resolve_shard. repeat case_match; try done.
    cbn -[unlock_majority]. rewrite (proj1 (proj2 (unlock_majority_frame _ _ _))). by rewrite lookup_insert_ne.
Qed.

Lemma same_foldl {A} (f : OPoICache -> A -> OPoICache) l c :
  (forall c x, same_pledges c (f c x)) -> same_pledges c (foldl f c l).
Proof.
  intros Hf. apply (foldl_inv (fun c' => same_pledges c c')); [reflexivity|].
  intros c1 x _ H1. etransitivity; [exact H1|apply Hf].
Qed.

Lemma canary_audits_same h params c : same_pledges c (ProcessCanaryAudits h params c).
Proof.
  unfold ProcessCanaryAudits. destruct (_ <=? 0); [reflexivity|]. etransitivity.
  - apply same_fmap_stakes, obligation_keeps.
  - unfold select_canary. repeat case_match; try reflexivity. apply same_alter_stake. done.
Qed.

Lemma model_windows_same h params c : same_pledges c (ProcessModelVotingWindows h params c).
Proof.
  unfold ProcessModelVotingWindows. etransitivity; [eapply (same_foldl (tally_model h params))|apply same_foldl]; intros c1 m.
  - unfold tally_model. repeat case_match; by apply same_other.
  - unfold activate_model. case_match; [by apply same_other|reflexivity].
Qed.

(** The payment transitions only mark what is paid. *)
Lemma reward_marks_same params c vtx : same_pledges c (ProcessChallengerRewardPayments params c vtx).
Proof. apply same_foldl. intros. by apply same_other. Qed.
Lemma shard_marks_same params c vtx : same_pledges c (ProcessShardPayments params c vtx).
Proof. apply same_foldl. intros. by apply same_other. Qed.
Lemma verifiable_marks_same params c vtx : same_pledges c (ProcessVerifiableResponsePayments params c vtx).
Proof. apply same_foldl. intros. by apply same_other. Qed.
Lemma sampled_marks_same params c vtx h : same_pledges c (ProcessAuditSampledOpenResponsePayments params c vtx h).
Proof. apply same_foldl. intros. by apply same_other. Qed.

Lemma expired_requests_same h params c : same_pledges c (ProcessExpiredRequests h params c).
Proof. unfold ProcessExpiredRequests. case_match; by apply same_other. Qed.
Lemma commit_windows_same h params c : same_pledges c (ProcessResponseCommitWindows h params c).
Proof. unfold ProcessResponseCommitWindows. case_match; by apply same_other. Qed.
Lemma prune_same c : same_pledges c (PruneExpiredPendingDeliveries c).
Proof. by apply same_other. Qed.
Lemma renewals_same h params c : same_pledges c (ProcessStakeRenewals h params c).
Proof. unfold ProcessStakeRenewals. case_match; [reflexivity|]. apply same_fmap_stakes, suspend_keeps. Qed.

#[local] Hint Resolve reward_marks_same shard_marks_same verifiable_marks_same sampled_marks_same
  expired_requests_same commit_windows_same prune_same renewals_same canary_audits_same model_windows_same
  same_lets_go expired_challenges_lets_go auditor_verifications_let_go : collateral.

(** Every transition of a connected block, in order, lets go at most. *)
Lemma transitions_let_go params nHeight vtx c : lets_go c (BlockTransitions params nHeight vtx c).
Proof.
  unfold BlockTransitions. cbv zeta. do 12 (etransitivity; [|solve [eauto with collateral]]). reflexivity.
Qed.

(** * The transactions of a block *)

Section block_txs.
Context `{Crypto} (params : Params) (chain : Chain) (height : Z).

(** The challenge a transaction reveals. *)
Definition reveals (tx : CTransaction) : option string :=
  if (nType tx =? OPOI_CHALLENGE_TX_TYPE) && negb (opoiChallengePhase tx =? 0) then Some (opoiRequestId tx) else None.

Abbreviation Apply tx c := (ApplyOPoITransaction (Some params) chain height tx c).

(** What validation against the cache [c0] before the block guarantees. *)
Lemma accepted_renew c0 tx :
  nVersion tx = OPOI_TX_VERSION -> CheckOPoITransaction params chain false c0 tx = Accept ->
  nType tx = OPOI_RENEW_TX_TYPE -> exists s, mapStakes c0 !! opoiMinerAddress tx = Some s /\ stake_live s = true.
Proof.
  intros Hv Ha Ht. apply accepted_by_rule in Ha as [_ Ha]; [|done]. rewrite Ht in Ha. known_type Ha.
  destruct_or! Ha; destruct Ha as [E Ha]; try discriminate. unfold CheckRenew, GetStake in Ha.
  destruct (mapStakes c0 !! opoiMinerAddress tx) as [s|]; [|by accepted Ha]. exists s. split; [done|].
  accepted Ha. unfold stake_live. cbn in G0. destruct (Z.eqb_spec (stake_stakeStatus s) OPOI_STAKE_RELEASED) as [Er|]; [|done].
  by rewrite Er in G0.
Qed.

Lemma accepted_challenge c0 tx :
  nVersion tx = OPOI_TX_VERSION -> CheckOPoITransaction params chain false c0 tx = Accept ->
  nType tx = OPOI_CHALLENGE_TX_TYPE ->
  if opoiChallengePhase tx =? 0
  then forall ch, mapChallenges c0 !! opoiRequestId tx = Some ch -> IsOpen ch = false
  else exists ch, mapChallenges c0 !! opoiRequestId tx = Some ch /\ IsOpen ch = true.
Proof.
  intros Hv Ha Ht. apply accepted_by_rule in Ha as [_ Ha]; [|done]. rewrite Ht in Ha. known_type Ha.
  destruct_or! Ha; destruct Ha as [E Ha]; try discriminate. unfold CheckChallenge in Ha.
  destruct (opoiChallengePhase tx =? 0); accepted Ha.
  - unfold CheckChallengeCommit, CheckCollateral, GetChallenge in Ha. intros ch Hch. rewrite Hch in Ha. by accepted Ha.
  - unfold CheckChallengeReveal, GetChallenge in Ha. accepted Ha. eexists. split; [done|]. by apply negb_false_iff.
Qed.

(** How a stake may look after a transaction: it is the one the transaction
    makes, or it was there with the same collateral and the same life, unless
    the transaction renews it. *)
Definition stake_frame (tx : CTransaction) (k : string) (old : option OPoIStake) (s' : OPoIStake) : Prop :=
  (nType tx = OPOI_STAKE_TX_TYPE /\ stake_collateralIn s' = opoiCollateralIn tx /\ stake_live s' = true) \/
  exists s, old = Some s /\ stake_collateralIn s' = stake_collateralIn s /\
    (stake_live s' = stake_live s \/
     (nType tx = OPOI_RENEW_TX_TYPE /\ k = opoiMinerAddress tx /\ stake_live s' = true)).

(** What applying a transaction can change of the locks, the stakes and the
    challenges. *)
Record framed (tx : CTransaction) (c c' : OPoICache) : Prop := {
  fr_locks : forall out, locked c' out -> locked c out \/ pledged tx = Some out;
  fr_stakes : forall k s', mapStakes c' !! k = Some s' -> stake_frame tx k (mapStakes c !! k) s';
  fr_challenges : forall id, mapChallenges c' !! id = mapChallenges c !! id \/
    (nType tx = OPOI_CHALLENGE_TX_TYPE /\ id = opoiRequestId tx);
}.

Lemma stake_frame_same tx k s : stake_frame tx k (Some s) s.
Proof. right. exists s. eauto. Qed.

Lemma framed_other tx c c' :
  mapLockedUTXOs c' = mapLockedUTXOs c -> mapStakes c' = mapStakes c -> mapChallenges c' = mapChallenges c ->
  framed tx c c'.
Proof. 
  intros E1 E2 E3. split; unfold locked; rewrite ?E1, ?E2, ?E3; eauto. intros k s' ->. apply stake_frame_same.
Qed.

Lemma framed_alter_stake tx c c' f k :
  mapLockedUTXOs c' = mapLockedUTXOs c -> mapStakes c' = alter f k (mapStakes c) ->
  mapChallenges c' = mapChallenges c ->
  (forall s, mapStakes c !! k = Some s -> stake_frame tx k (Some s) (f s)) -> framed tx c c'.
Proof.
  intros E1 E2 E3 Hf. split; unfold locked; rewrite ?E1, ?E2, ?E3; eauto. intros k' s'.
  rewrite lookup_alter_Some. intros [(-> & s & E & ->)|[_ ->]]; [rewrite E; by apply Hf|apply stake_frame_same].
Qed.

Lemma stake_frame_keeps tx k s s' : keeps_pledge s s' -> stake_frame tx k (Some s) s'.
Proof. intros [? ?]. right. exists s. eauto. Qed.

#[local] Instance framed_preorder tx : PreOrder (framed tx).
Proof.
  split; [intros c; by apply framed_other|]. intros c1 c2 c3 [A1 A2 A3] [B1 B2 B3]. split.
  - intros out [Ho|]%B1; [by apply A1|by right].
  - intros k s3 [?|(s2 & H2 & E2 & L2)]%B2; [by left|]. apply A2 in H2 as [(? & ? & ?)|(s1 & H1 & E1 & L1)].
    + left. destruct L2 as [L2|(? & ? & ?)]; split_and!; congruence.
    + right. exists s1. split_and!; [done|congruence|]. destruct L1 as [L1|(? & ? & ?)], L2 as [L2|(? & ? & ?)];
        first [left; congruence|right; split_and!; congruence].
  - intros id. destruct (B3 id) as [->|]; [apply A3|by right].
Qed.

Lemma framed_responder tx c id f : (forall s, keeps_pledge s (f s)) -> framed tx c (update_responder id f c).
Proof.
  intros Hf. unfold update_responder. case_match; [|reflexivity]. eapply framed_alter_stake; [done..|].
  intros s _. apply stake_frame_keeps, Hf.
Qed.

Lemma framed_lock tx c out owner h : pledged tx = Some out -> framed tx c (LockUTXO out owner h c).
Proof.
  intros Hp. split; cbn; eauto; [|intros k s' ->; apply stake_frame_same]. intros out'. unfold locked. cbn. rewrite lookup_insert_is_Some.
  intros [<-|[_ ?]]; eauto.
Qed.

Lemma framed_unlock tx c out : framed tx c (UnlockUTXO out c).
Proof.
  split; cbn; eauto; [|intros k s' ->; apply stake_frame_same].
  intros out'. unfold locked. cbn. rewrite lookup_delete_is_Some. intros [_ ?]. by left.
Qed.

Lemma framed_challenge tx c ch :
  nType tx = OPOI_CHALLENGE_TX_TYPE -> framed tx c (c <| mapChallenges ::= <[opoiRequestId tx := ch]> |>).
Proof.
  intros Ht. split; cbn; eauto; [intros k s' ->; apply stake_frame_same|].
  intros id. destruct (decide (id = opoiRequestId tx)) as [->|]; [by right|left].
  by rewrite lookup_insert_ne.
Qed.

Lemma framed_audit tx c fv m :
  pledged tx = Some (fv_auditorCollateral fv) ->
  framed tx c (lock_auditor fv (c <| mapAuditorVerifications := m |>))
  /\ framed tx c (lock_auditor fv (c <| mapShardAuditorVerifications := m |>)).
Proof.
  intros Hp. unfold lock_auditor. destruct (COutPoint_IsNull _); [split; by apply framed_other|].
  split; (split; cbn; eauto; [|intros k s' ->; apply stake_frame_same]);
    intros out; unfold locked; cbn; rewrite lookup_insert_is_Some; intros [<-|[_ ?]]; eauto.
Qed.

(** [StartUnstake] is for an active stake. *)
Lemma unstake_keeps c k s s' :
  IsActiveStaker k c = true -> mapStakes c !! k = Some s -> stake_collateralIn s' = stake_collateralIn s ->
  stake_stakeStatus s' = OPOI_STAKE_UNSTAKING -> keeps_pledge s s'.
Proof.
  unfold IsActiveStaker, Stake_IsActive. intros Ha E Hc Hst. rewrite E in Ha. apply Z.eqb_eq in Ha.
  split; [done|]. unfold stake_live. by rewrite Ha, Hst.
Qed.

Lemma apply_framed tx c : nVersion tx = OPOI_TX_VERSION -> framed tx c (Apply tx c).
Proof.
  intros _. unfold ApplyOPoITransaction.
  destruct (Z.eqb_spec (nType tx) OPOI_REQUEST_TX_TYPE); [by apply framed_other|].
  destruct (_ && _); [by apply framed_other|].
  destruct (Z.eqb_spec (nType tx) OPOI_RESPONSE_TX_TYPE).
  { unfold ApplyResponseReveal, AddResponse. case_match; (eapply framed_alter_stake; [done..|]); intros s _;
      by apply stake_frame_keeps. }
  destruct (Z.eqb_spec (nType tx) OPOI_STAKE_TX_TYPE) as [Es|].
  { transitivity (AddStake (stake_of height tx) c).
    - split; cbn; eauto. intros k s'. rewrite lookup_insert_Some.
      intros [[<- <-]|[_ ->]]; [by left|apply stake_frame_same].
    - apply framed_lock. unfold pledged. by rewrite Es. }
  destruct (Z.eqb_spec (nType tx) OPOI_UNSTAKE_TX_TYPE).
  { unfold StartUnstake. case_match eqn:Ea; [|reflexivity]. eapply framed_alter_stake; [done..|]. intros s E.
    by apply stake_frame_keeps, (unstake_keeps c (opoiMinerAddress tx)). }
  destruct (Z.eqb_spec (nType tx) OPOI_RENEW_TX_TYPE).
  { eapply framed_alter_stake; [done..|]. intros s _. right. exists s. split_and!; [done..|]. by right. }
  destruct (Z.eqb_spec (nType tx) OPOI_CHALLENGE_TX_TYPE) as [Ec|]; cbn [andb].
  { destruct (opoiChallengePhase tx =? 0) eqn:Ep.
    - unfold ApplyChallengeCommit. etransitivity; [|by apply framed_responder].
      etransitivity; [by apply framed_challenge|]. apply framed_lock. unfold pledged. rewrite Ec. by rewrite Ep.
    - unfold ApplyChallengeReveal. destruct (mapChallenges c !! _) as [ch|]; [|reflexivity]. cbv zeta.
      destruct (match GetRequest _ _ with Some _ => _ | None => _ end) as [p|].
      + destruct (_ =? AUDITOR_VERIFY_FAIL); [|destruct (_ =? AUDITOR_VERIFY_PASS); by apply framed_challenge].
        etransitivity; [|by apply framed_challenge]. etransitivity; [|apply framed_unlock].
        apply framed_responder, slash_keeps.
      + etransitivity; [|by apply framed_challenge]. apply framed_unlock. }
  destruct (_ =? OPOI_MODEL_REGISTER_TX_TYPE); [by apply framed_other|].
  destruct (_ =? OPOI_MODEL_VOTE_TX_TYPE); [unfold AddModelVote; case_match; by apply framed_other|].
  destruct (_ =? OPOI_COORDINATOR_CLAIM_TX_TYPE); [unfold AddCoordinatorClaim; case_match; by apply framed_other|].
  destruct (_ =? OPOI_SHARD_RESULT_TX_TYPE); [unfold AddShardResult; case_match; by apply framed_other|].
  destruct (Z.eqb_spec (nType tx) OPOI_AUDITOR_VERIFY_TX_TYPE) as [Et|]; [|reflexivity].
  assert (Hp : pledged tx = Some (opoiAuditorCollateralIn tx)) by (unfold pledged; by rewrite Et).
  destruct (_ =? NO_SHARD); unfold AddAuditorVerification, AddShardAuditorVerification; case_match;
    try (by apply framed_other); by apply framed_audit.
Qed.

(** A fresh outpoint is pledged by a new holder (or by nobody). *)
Lemma safe_pledge c c' h0 out0 :
  collateral_safe c -> mapLockedUTXOs c !! out0 = None -> locked c' out0 ->
  (forall out, locked c out -> locked c' out) ->
  (forall h out, held c' h = Some out -> (h = h0 /\ out = out0) \/ held c h = Some out) ->
  shard_votes_keyed c' -> collateral_safe c'.
Proof.
  intros [Hl Hu Hk] Hfree H0 Hmono Hheld Hk'.
  assert (Hno : forall h, held c h <> Some out0) by (intros h Hh; apply Hl in Hh as [? ?]; congruence).
  split; [| |done].
  - intros h out [[-> ->]|Hh]%Hheld; eauto.
  - intros h h' out Hh Hh'. apply Hheld in Hh as [[-> ->]|Hh], Hh' as [[-> Ho]|Hh']; subst; try done; [..|eauto];
      exfalso; by eapply Hno.
Qed.

Lemma locked_lock c out owner h out' : locked c out' -> locked (LockUTXO out owner h c) out'.
Proof. intros Hl. unfold locked, LockUTXO in *. cbn. rewrite lookup_insert_is_Some. destruct (decide (out = out')); eauto. Qed.

Lemma safe_stake tx c :
  collateral_safe c -> mapLockedUTXOs c !! opoiCollateralIn tx = None ->
  collateral_safe (LockUTXO (opoiCollateralIn tx) (opoiMinerAddress tx) (GetHash tx) (AddStake (stake_of height tx) c)).
Proof.
  intros Hs Hf. eapply (safe_pledge c _ (HStake (opoiMinerAddress tx)) _ Hs Hf).
  - unfold locked. cbn. by rewrite lookup_insert_eq.
  - intros out Ho. by apply locked_lock.
  - intros [k| | |] out; cbn; eauto. destruct (decide (k = opoiMinerAddress tx)) as [->|Hne].
    + rewrite lookup_insert_eq. cbn. intros [= <-]. by left.
    + rewrite lookup_insert_ne by done. eauto.
  - apply Hs.
Qed.

Lemma safe_challenge_commit tx c :
  collateral_safe c -> mapLockedUTXOs c !! opoiChallengerCollateralIn tx = None ->
  collateral_safe (ApplyChallengeCommit height tx c).
Proof.
  intros Hs Hf. unfold ApplyChallengeCommit. eapply lets_go_safe; [by apply same_lets_go, same_update_responder|].
  eapply (safe_pledge c _ (HChallenge (opoiRequestId tx)) _ Hs Hf).
  - unfold locked. cbn. by rewrite lookup_insert_eq.
  - intros out Ho. by apply locked_lock.
  - intros [|k| |] out; cbn; eauto. destruct (decide (k = opoiRequestId tx)) as [->|Hne].
    + rewrite lookup_insert_eq. cbn. intros [= <-]. by left.
    + rewrite lookup_insert_ne by done. eauto.
  - apply Hs.
Qed.

(** Appending a vote to its list, or touching the list, in a map of votes. *)
Lemma lookup_touched_votes (m : gmap string (list AuditorVerification)) k0 k i :
  (votes ← <[k0 := default [] (m !! k0)]> m !! k; fv_auditorCollateral <$> votes !! i) =
  (votes ← m !! k; fv_auditorCollateral <$> votes !! i).
Proof.
  destruct (decide (k = k0)) as [->|]; [|by rewrite lookup_insert_ne]. rewrite lookup_insert_eq. by destruct (m !! k0).
Qed.

Lemma lookup_appended_vote (m : gmap string (list AuditorVerification)) k0 fv k i out :
  (votes ← <[k0 := default [] (m !! k0) ++ [fv]]> m !! k; fv_auditorCollateral <$> votes !! i) = Some out ->
  (k = k0 /\ i = length (default [] (m !! k0)) /\ out = fv_auditorCollateral fv) \/
  (votes ← m !! k; fv_auditorCollateral <$> votes !! i) = Some out.
Proof.
  destruct (decide (k = k0)) as [->|]; [|rewrite lookup_insert_ne by done; by right].
  rewrite lookup_insert_eq. cbn. intros (v & Hv & ->)%fmap_Some. apply lookup_app_Some in Hv as [Hv|[Hlen Hv]].
  - right. destruct (m !! k0); [|done]. cbn in *. by rewrite Hv.
  - left. apply list_lookup_singleton_Some in Hv as [Hi <-]. split_and!; [done|lia|done].
Qed.

Lemma locked_audit fv c out : locked c out -> locked (lock_auditor fv c) out.
Proof.
  intros Ho. unfold lock_auditor. case_match; [done|]. unfold locked in *. cbn. rewrite lookup_insert_is_Some.
  destruct (decide (fv_auditorCollateral fv = out)); eauto.
Qed.

Lemma lock_auditor_locks fv c :
  COutPoint_IsNull (fv_auditorCollateral fv) = false -> locked (lock_auditor fv c) (fv_auditorCollateral fv).
Proof. intros Hn. unfold lock_auditor, locked. rewrite Hn. cbn. by rewrite lookup_insert_eq. Qed.

Lemma held_lock_auditor fv c h : held (lock_auditor fv c) h = held c h.
Proof. unfold lock_auditor. by case_match. Qed.

Lemma safe_vote fv c :
  collateral_safe c -> COutPoint_IsNull (fv_auditorCollateral fv) = false ->
  mapLockedUTXOs c !! fv_auditorCollateral fv = None -> collateral_safe (AddAuditorVerification fv c).
Proof.
  intros Hs Hn Hf. unfold AddAuditorVerification. destruct (has_voted _ _) eqn:Ev.
  { eapply lets_go_safe; [|exact Hs]. apply same_lets_go. split; [|done..]. intros [| |id i|]; cbn; try done.
    by rewrite lookup_touched_votes. }
  eapply (safe_pledge c _ (HVote (fv_requestId fv) (length (default [] (mapAuditorVerifications c !! fv_requestId fv)))) _ Hs Hf).
  - by apply lock_auditor_locks.
  - intros out Ho. by apply locked_audit.
  - intros h out. rewrite held_lock_auditor. destruct h as [| |id i|]; cbn; eauto. case_bool_decide; [done|].
    intros [(-> & -> & ->)|]%lookup_appended_vote; eauto.
  - unfold lock_auditor. rewrite Hn. apply Hs.
Qed.

Lemma safe_shard_vote requestId shardIndex fv c :
  fv_requestId fv = requestId -> fv_shardIndex fv = shardIndex ->
  collateral_safe c -> COutPoint_IsNull (fv_auditorCollateral fv) = false ->
  mapLockedUTXOs c !! fv_auditorCollateral fv = None ->
  collateral_safe (AddShardAuditorVerification requestId shardIndex fv c).
Proof.
  intros Hid Hix Hs Hn Hf. unfold AddShardAuditorVerification. cbv zeta. set (key := ShardKey requestId shardIndex).
  destruct (has_voted _ _) eqn:Ev.
  { eapply lets_go_safe; [|exact Hs]. intros Hk. split.
    - intros [| | |k i] out; cbn; try done. by rewrite lookup_touched_votes.
    - intros out Ho. by left.
    - intros k votes v. cbn. destruct (decide (k = key)) as [->|]; [|rewrite lookup_insert_ne by done; by apply Hk].
      rewrite lookup_insert_eq. intros [= <-] Hv. destruct (mapShardAuditorVerifications c !! key) eqn:E; [by eapply Hk|].
      by apply elem_of_nil in Hv. }
  eapply (safe_pledge c _ (HShardVote key (length (default [] (mapShardAuditorVerifications c !! key)))) _ Hs Hf).
  - by apply lock_auditor_locks.
  - intros out Ho. by apply locked_audit.
  - intros h out. rewrite held_lock_auditor. destruct h as [| | |k i]; cbn; eauto. case_bool_decide; [done|].
    intros [(-> & -> & ->)|]%lookup_appended_vote; eauto.
  - unfold lock_auditor. rewrite Hn. intros k votes v. cbn. pose proof (cs_keyed _ Hs) as Hk.
    destruct (decide (k = key)) as [->|]; [|rewrite lookup_insert_ne by done; by apply Hk].
    rewrite lookup_insert_eq. intros [= <-] [Hv|Hv]%elem_of_app; [|by apply list_elem_of_singleton in Hv as ->; rewrite Hid, Hix].
    destruct (mapShardAuditorVerifications c !! key) eqn:E; [by eapply Hk|by apply elem_of_nil in Hv].
Qed.

Lemma challenge_reveal_lets_go tx c ch :
  mapChallenges c !! opoiRequestId tx = Some ch -> IsOpen ch = true ->
  lets_go c (ApplyChallengeReveal (Some params) tx c).
Proof.
  intros Hch Ho. assert (Hl : challenge_live ch = true) by (unfold challenge_live; by rewrite Ho).
  unfold ApplyChallengeReveal. rewrite Hch. cbv zeta.
  destruct (match GetRequest _ _ with Some _ => _ | None => _ end) as [p|].
  - destruct (_ =? AUDITOR_VERIFY_FAIL); [|destruct (_ =? AUDITOR_VERIFY_PASS)].
    + transitivity (update_responder (opoiRequestId tx) slash_active c);
        [by apply same_lets_go, same_update_responder, slash_keeps|].
      apply (lets_go_challenge_unlock _ _ ch); [unfold update_responder; by case_match|done..].
    + by eapply lets_go_challenge.
    + apply same_lets_go. split; [|done..]. intros [|k| |]; cbn; try done.
      destruct (decide (k = opoiRequestId tx)) as [->|]; [|by rewrite lookup_insert_ne].
      rewrite lookup_insert_eq, Hch. cbn. by rewrite Hl.
  - by apply (lets_go_challenge_unlock _ _ ch).
Qed.

(** Applying a transaction keeps the collaterals safe, when what it pledges is
    free, what it renews is live and what it reveals is open. *)
Lemma apply_safe tx c :
  (forall out, pledged tx = Some out -> COutPoint_IsNull out = false /\ mapLockedUTXOs c !! out = None) ->
  (nType tx = OPOI_RENEW_TX_TYPE -> forall s, mapStakes c !! opoiMinerAddress tx = Some s -> stake_live s = true) ->
  (forall id, reveals tx = Some id -> exists ch, mapChallenges c !! id = Some ch /\ IsOpen ch = true) ->
  collateral_safe c -> collateral_safe (Apply tx c).
Proof.
  intros Hp Hr Hch Hs. unfold ApplyOPoITransaction.
  assert (Hsame : forall c', same_pledges c c' -> collateral_safe c') by (intros; by eapply lets_go_safe; [apply same_lets_go|]).
  destruct (Z.eqb_spec (nType tx) OPOI_REQUEST_TX_TYPE); [by apply Hsame, same_other|].
  destruct (_ && _); [by apply Hsame, same_other|].
  destruct (Z.eqb_spec (nType tx) OPOI_RESPONSE_TX_TYPE).
  { apply Hsame. unfold ApplyResponseReveal. cbv zeta. set (c1 := AddResponse _ c).
    transitivity c1; [unfold c1, AddResponse; case_match; by apply same_other|].
    transitivity (c1 <| mapStakes ::= alter (fun s => s <| stake_responsesTotal ::= fun n => u32 (n + 1) |>)
                                        (opoiMinerAddress tx) |>); [by apply same_alter_stake|by apply same_other]. }
  destruct (Z.eqb_spec (nType tx) OPOI_STAKE_TX_TYPE) as [Es|].
  { apply safe_stake; [done|]. apply Hp. unfold pledged. by rewrite Es. }
  destruct (Z.eqb_spec (nType tx) OPOI_UNSTAKE_TX_TYPE).
  { apply Hsame. unfold StartUnstake. case_match eqn:Ea; [|reflexivity].
    apply same_alter_stake. intros s E. by apply (unstake_keeps c (opoiMinerAddress tx)). }
  destruct (Z.eqb_spec (nType tx) OPOI_RENEW_TX_TYPE).
  { apply Hsame, same_alter_stake. intros s E. split; [done|]. symmetry. by apply Hr. }
  destruct (Z.eqb_spec (nType tx) OPOI_CHALLENGE_TX_TYPE) as [Ec|]; cbn [andb].
  { destruct (opoiChallengePhase tx =? 0) eqn:Ep.
    - apply safe_challenge_commit; [done|]. apply Hp. unfold pledged. rewrite Ec. by rewrite Ep.
    - destruct (Hch (opoiRequestId tx)) as (ch & E & Ho); [unfold reveals; by rewrite Ec, Ep|].
      by eapply lets_go_safe; [eapply challenge_reveal_lets_go|]. }
  destruct (_ =? OPOI_MODEL_REGISTER_TX_TYPE); [by apply Hsame, same_other|].
  destruct (_ =? OPOI_MODEL_VOTE_TX_TYPE); [unfold AddModelVote; case_match; by apply Hsame, same_other|].
  destruct (_ =? OPOI_COORDINATOR_CLAIM_TX_TYPE); [unfold AddCoordinatorClaim; case_match; by apply Hsame, same_other|].
  destruct (_ =? OPOI_SHARD_RESULT_TX_TYPE); [unfold AddShardResult; case_match; by apply Hsame, same_other|].
  destruct (Z.eqb_spec (nType tx) OPOI_AUDITOR_VERIFY_TX_TYPE) as [Et|]; [|done].
  destruct (Hp (opoiAuditorCollateralIn tx)) as [Hn Hf]; [unfold pledged; by rewrite Et|].
  destruct (_ =? NO_SHARD); [by apply safe_vote|by apply safe_shard_vote].
Qed.
End block_txs.

(** * A block *)

Section block_loop.
Context `{Crypto} (params : Params) (chain : Chain) (height : Z).

(** The cache [c] while the block is applied to [c0], after the transactions
    [done]. *)
Record in_block (c0 : OPoICache) (done : list CTransaction) (c : OPoICache) : Prop := {
  ib_safe : collateral_safe c;
  ib_locks : forall out, locked c out -> locked c0 out \/ out ∈ omap pledged done;
  ib_released : forall k s, mapStakes c !! k = Some s -> stake_live s = false ->
    exists s0, mapStakes c0 !! k = Some s0 /\ stake_live s0 = false;
  ib_open : forall id ch, mapChallenges c0 !! id = Some ch -> IsOpen ch = true -> (id ∉ omap reveals done) ->
    mapChallenges c !! id = Some ch;
}.

Lemma in_block_start c0 : collateral_safe c0 -> in_block c0 [] c0.
Proof. intros Hs. split; [done|by left|eauto|done]. Qed.

(** The outpoints a block pledges and the challenges it reveals are distinct. *)
Definition disjoint_block (txs : list CTransaction) : Prop :=
  NoDup (omap pledged txs) /\ NoDup (omap reveals txs).

Lemma in_block_free c0 done tx c :
  disjoint_block (done ++ [tx]) -> nVersion tx = OPOI_TX_VERSION ->
  CheckOPoITransaction params chain false c0 tx = Accept -> in_block c0 done c ->
  forall out, pledged tx = Some out -> COutPoint_IsNull out = false /\ mapLockedUTXOs c !! out = None.
Proof.
  intros [Hd _] Hv Ha Hb out Hp. destruct (pledge_is_free params chain c0 tx out Hv Hp Ha) as [Hn Hf]. split; [done|].
  apply eq_None_not_Some. intros Hl. destruct (ib_locks _ _ _ Hb out Hl) as [[? ?]|Hin]; [congruence|].
  rewrite omap_app in Hd. cbn in Hd. rewrite Hp in Hd. apply NoDup_app in Hd as (_ & Hd & _).
  apply (Hd out Hin). left.
Qed.

Lemma in_block_revealed c0 done tx c id :
  disjoint_block (done ++ [tx]) -> nVersion tx = OPOI_TX_VERSION ->
  CheckOPoITransaction params chain false c0 tx = Accept -> in_block c0 done c ->
  reveals tx = Some id -> exists ch, mapChallenges c !! id = Some ch /\ IsOpen ch = true.
Proof.
  intros [_ Hd] Hv Ha Hb Hr. rewrite omap_app in Hd. cbn in Hd. rewrite Hr in Hd. apply NoDup_app in Hd as (_ & Hd & _).
  unfold reveals in Hr. destruct (Z.eqb_spec (nType tx) OPOI_CHALLENGE_TX_TYPE) as [Ht|]; [|done].
  pose proof (accepted_challenge params chain c0 tx Hv Ha Ht) as Hc.
  destruct (opoiChallengePhase tx =? 0); [done|]. cbn in Hr. injection Hr as <-. destruct Hc as (ch & E & Ho).
  exists ch. split; [|done]. eapply (ib_open _ _ _ Hb); [done..|]. intros Hin. apply (Hd _ Hin). left.
Qed.

Lemma in_block_renew c0 done tx c :
  nVersion tx = OPOI_TX_VERSION -> CheckOPoITransaction params chain false c0 tx = Accept -> in_block c0 done c ->
  nType tx = OPOI_RENEW_TX_TYPE -> forall s, mapStakes c !! opoiMinerAddress tx = Some s -> stake_live s = true.
Proof.
  intros Hv Ha Hb Ht s E. destruct (accepted_renew params chain c0 tx Hv Ha Ht) as (s0 & E0 & Hl0).
  destruct (stake_live s) eqn:Hl; [done|]. destruct (ib_released _ _ _ Hb _ _ E Hl) as (s1 & E1 & Hl1). congruence.
Qed.

Lemma in_block_apply c0 done tx c :
  disjoint_block (done ++ [tx]) -> nVersion tx = OPOI_TX_VERSION ->
  CheckOPoITransaction params chain false c0 tx = Accept -> in_block c0 done c ->
  in_block c0 (done ++ [tx]) (ApplyOPoITransaction (Some params) chain height tx c).
Proof.
  intros Hd Hv Ha Hb. destruct (apply_framed params chain height tx c Hv) as [Fl Fs Fc].
  split.
  - apply apply_safe; [by eapply in_block_free|by eapply in_block_renew|intros id; by eapply in_block_revealed|apply Hb].
  - intros out [Ho|Hp]%Fl; rewrite omap_app, elem_of_app.
    + destruct (ib_locks _ _ _ Hb out Ho); eauto.
    + right. right. cbn. rewrite Hp. left.
  - intros k s' Hs' Hl. destruct (Fs k s' Hs') as [(_ & _ & ?)|(s & E & _ & [L|(_ & _ & ?)])]; try congruence.
    apply (ib_released _ _ _ Hb k s); [done|congruence].
  - intros id ch E Ho Hnr. rewrite omap_app, elem_of_app in Hnr. destruct (Fc id) as [->|[Ht ->]].
    { apply (ib_open _ _ _ Hb); [done..|]. tauto. }
    exfalso. pose proof (accepted_challenge params chain c0 tx Hv Ha Ht) as Hc.
    destruct (opoiChallengePhase tx =? 0) eqn:Ep; [rewrite (Hc ch E) in Ho; done|].
    apply Hnr. right. unfold reveals. cbn. rewrite Ht, Ep. left.
Qed.
End block_loop.

(** * Connected blocks *)

(** Every stake that is not released is backed by an unspent output of at
    least the minimum. *)
Definition stakes_backed (params : Params) (view : Coins) (c : OPoICache) : Prop :=
  forall k out, held c (HStake k) = Some out -> exists o, view !! out = Some o /\ nOPoIMinStake params <= nValue o.

Lemma lets_go_backed params view c c' :
  shard_votes_keyed c -> lets_go c c' -> stakes_backed params view c -> stakes_backed params view c'.
Proof. intros Hk Hs Hb k out Hh. apply (Hb k out), (sh_held _ _ (Hs Hk)), Hh. Qed.

Lemma lookup_FromTx txid n outs view out :
  op_hash out <> txid -> FromTx txid n outs view !! out = view !! out.
Proof.
  intros Hne. revert n view. induction outs as [|o outs IH]; intros n view; [done|]. cbn. rewrite IH.
  case_match; [done|]. apply lookup_insert_ne. intros <-. done.
Qed.

Lemma FromTx_fresh txid n outs view out :
  is_Some (FromTx txid n outs view !! out) -> is_Some (view !! out) \/ op_hash out = txid.
Proof. destruct (decide (op_hash out = txid)); [by right|]. rewrite lookup_FromTx by done. by left. Qed.

Lemma lookup_SpendInputs tx view out :
  (IsCoinBase tx = false -> forall txin, txin ∈ vin tx -> prevout txin <> out) ->
  SpendInputs tx view !! out = view !! out.
Proof.
  intros Hn. unfold SpendInputs. destruct (IsCoinBase tx); [done|]. specialize (Hn eq_refl). revert view Hn.
  induction (vin tx) as [|txin l IH]; intros view Hn; [done|]. cbn [foldl]. rewrite IH.
  - apply lookup_delete_ne. intros E. apply (Hn txin); [left|done].
  - intros i Hi. apply Hn. by right.
Qed.

Lemma SpendInputs_sub tx view out : is_Some (SpendInputs tx view !! out) -> is_Some (view !! out).
Proof.
  unfold SpendInputs. destruct (IsCoinBase tx); [done|]. revert view.
  induction (vin tx) as [|txin l IH]; intros view; [done|]. cbn [foldl]. intros Hs%IH.
  by apply lookup_delete_is_Some in Hs as [_ ?].
Qed.

Section connected.
Context `{Crypto} (params : Params) (chain : Chain) (nHeight : Z) (treasury : string).
Context (other : Stage -> list CTransaction -> Verdict).
Hypothesis active : NetworkUpgradeActive nHeight params UPGRADE_OPOI = true.

(** The loop of [ConnectBlock] before the transactions [rest]. *)
Record connecting_ok (c0 : OPoICache) (rest : list CTransaction) (s : Connecting) : Prop := {
  co_block : in_block c0 (cx_applied s) (cx_cache s);
  co_backed : stakes_backed params (cx_view s) (cx_cache s);
  co_fresh : forall tx out, tx ∈ rest -> is_Some (cx_view s !! out) -> op_hash out <> GetHash tx;
}.

(** The output behind a stake survives [UpdateCoins]. *)
Lemma update_coins_keeps tx c view out o :
  collateral_safe c -> (IsCoinBase tx = false -> spends_locked params nHeight false c tx = false) ->
  (forall out, is_Some (view !! out) -> op_hash out <> GetHash tx) ->
  locked c out -> view !! out = Some o -> UpdateCoins tx view !! out = Some o.
Proof.
  intros Hs Hsp Hfresh Hl Ho. unfold UpdateCoins. rewrite lookup_FromTx by (apply Hfresh; by exists o).
  rewrite lookup_SpendInputs; [done|]. intros Hcb txin Hin <-. specialize (Hsp Hcb).
  unfold spends_locked, opoiActive in Hsp. rewrite active in Hsp. cbn in Hsp.
  apply not_true_iff_false in Hsp. apply Hsp, existsb_exists. exists txin. split; [by apply list_elem_of_In|].
  unfold IsLockedUTXO. by apply bool_decide_eq_true.
Qed.

(** A stake the transaction makes has just been checked against the view. *)
Lemma applied_stake_backed c0 tx c view k out :
  nVersion tx = OPOI_TX_VERSION -> CheckStakeCollateral params nHeight false false tx view = Accept ->
  (nType tx = OPOI_RENEW_TX_TYPE -> forall s, mapStakes c !! opoiMinerAddress tx = Some s -> stake_live s = true) ->
  stakes_backed params view c ->
  held (ApplyOPoITransaction (Some params) chain c0 tx c) (HStake k) = Some out ->
  exists o, view !! out = Some o /\ nOPoIMinStake params <= nValue o.
Proof.
  intros Hv Hck Hr Hb Hh. cbn in Hh. apply bind_Some in Hh as (s' & Hs' & Hl).
  destruct (stake_live s') eqn:El; [|done]. injection Hl as <-.
  destruct (fr_stakes _ _ _ (apply_framed params chain c0 tx c Hv) k s' Hs') as [(Ht & -> & _)|(s & E & -> & L)].
  - unfold CheckStakeCollateral, opoiActive, IsOPoITx in Hck. rewrite Ht, Hv, active in Hck. cbn in Hck.
    destruct (view !! opoiCollateralIn tx) as [o|]; [|done]. exists o. split; [done|].
    destruct (Z.ltb_spec (nValue o) (nOPoIMinStake params)); [done|lia].
  - apply (Hb k). cbn. rewrite E. cbn. replace (stake_live s) with true; [done|].
    destruct L as [L|(Ht & -> & _)]; [congruence|]. symmetry. by apply Hr.
Qed.

Abbreviation connects := (connects_opoi false false).

Lemma UpdateCoins_no_inputs tx view out :
  vin tx = [] -> op_hash out <> GetHash tx -> UpdateCoins tx view !! out = view !! out.
Proof.
  intros Hv Hne. unfold UpdateCoins. rewrite lookup_FromTx by done. apply lookup_SpendInputs. rewrite Hv.
  intros _ txin Hin. by apply elem_of_nil in Hin.
Qed.

Lemma UpdateCoins_fresh tx tx' view out :
  (forall out, is_Some (view !! out) -> op_hash out <> GetHash tx') -> GetHash tx <> GetHash tx' ->
  is_Some (UpdateCoins tx view !! out) -> op_hash out <> GetHash tx'.
Proof. intros Hf Hne [Hs| ->]%FromTx_fresh; [|done]. by apply Hf, (SpendInputs_sub tx). Qed.

Lemma connect_step c0 vtx i tx rest s s' :
  connect_tx params chain nHeight false false other vtx i tx s = (Accept, s') ->
  (IsOPoITx tx = true -> CheckOPoITransaction params chain false c0 tx = Accept) ->
  disjoint_block (cx_applied s ++ List.filter connects (tx :: rest)) -> NoDup (GetHash <$> tx :: rest) ->
  connecting_ok c0 (tx :: rest) s -> connecting_ok c0 rest s'.
Proof.
  intros Hc Ha Hd Hnd [Hblk Hbk Hfr]. apply connect_tx_spec in Hc as [[? _]|(_ & -> & Hsp & Hst)]; [done|].
  assert (Hfr' : forall tx' out, tx' ∈ rest -> is_Some (UpdateCoins tx (cx_view s) !! out) -> op_hash out <> GetHash tx').
  { intros tx' out Hin. apply UpdateCoins_fresh.
    - intros out'. apply Hfr. by right.
    - apply NoDup_cons in Hnd as [Hnd _]. intros E. apply Hnd. rewrite E. by apply list_elem_of_fmap_2. }
  assert (Hfresh : forall out, is_Some (cx_view s !! out) -> op_hash out <> GetHash tx) by (intros out; apply Hfr; left).
  unfold applied. cbn [List.filter] in Hd. destruct (connects tx) eqn:Ec; (split; [..|exact Hfr']); cbn in *; [| |done|].
  1,2: unfold connects_opoi in Ec; rewrite !andb_true_iff in Ec; destruct Ec as [_ Hop]; specialize (Ha Hop);
    unfold IsOPoITx in Hop; apply Z.eqb_eq in Hop; unfold ProcessOPoITransaction; rewrite Hop; cbn [negb Z.eqb Pos.eqb].
  - apply in_block_apply; try done. rewrite cons_middle, (assoc_L (++)) in Hd. destruct Hd as [Hd1 Hd2].
    rewrite omap_app in Hd1. rewrite omap_app in Hd2.
    split; [by apply NoDup_app in Hd1 as [? _]|by apply NoDup_app in Hd2 as [? _]].
  - intros k out Hh. eapply applied_stake_backed in Hh as (o & Ho & Hmin); [|done..|by eapply in_block_renew|done].
    exists o. split; [|done]. rewrite UpdateCoins_no_inputs; [done| |apply Hfresh; by exists o].
    by apply (accepted_by_rule _ _ _ _ _ Ha).
  - intros k out Hh. destruct (Hbk k out Hh) as (o & Ho & Hmin). exists o. split; [|done].
    apply (update_coins_keeps tx (cx_cache s)); [apply Hblk|intros Hcb; by apply Hsp|done| |done].
    eapply (cs_locked _ (ib_safe _ _ _ Hblk)), Hh.
Qed.

Lemma applied_txs tx s : cx_applied (applied params chain nHeight false false tx s) = cx_applied s ++ List.filter connects [tx].
Proof. unfold applied. cbn. destruct (connects tx); [done|]. by rewrite app_nil_r. Qed.

Lemma connect_loop c0 vtx i txs s s' :
  connect_txs params chain nHeight false false other vtx i txs s = (Accept, s') ->
  (forall tx, tx ∈ txs -> IsOPoITx tx = true -> CheckOPoITransaction params chain false c0 tx = Accept) ->
  disjoint_block (cx_applied s ++ List.filter connects txs) -> NoDup (GetHash <$> txs) ->
  connecting_ok c0 txs s -> connecting_ok c0 [] s'.
Proof.
  revert i s. induction txs as [|tx txs IH]; intros i s Hc Ha Hd Hnd Hok; [by injection Hc as <-|].
  cbn [connect_txs] in Hc. destruct (connect_tx _ _ _ _ _ _ _ _ _ _) as [v s1] eqn:E1.
  assert (v = Accept) as -> by (by destruct v).
  eapply connect_step in Hok; [|done|apply Ha; left|done|done].
  apply connect_tx_spec in E1 as [[? _]|(_ & -> & _)]; [done|]. apply IH in Hc; [done|..|done].
  - intros tx' Hin. apply Ha. by right.
  - cbn. rewrite applied_txs, <- (assoc_L (++)), <- List.filter_app. done.
  - by apply NoDup_cons in Hnd as [_ ?].
Qed.

Lemma connected_block_safe vtx c view c' view' :
  ConnectBlock params chain nHeight false false treasury other vtx c view = (Accept, (c', view')) ->
  disjoint_block (List.filter connects vtx) -> NoDup (GetHash <$> vtx) ->
  collateral_safe c -> stakes_backed params view c ->
  collateral_safe c' /\ stakes_backed params view' c'.
Proof.
  intros Hc Hd Hnd Hs Hb. unfold ConnectBlock in Hc. destruct (CheckBeforeTxs _ _ _ _ _ _ _ _ _) eqn:Eb; [|done].
  apply checked_before in Eb as [Ha Hf]. destruct (connect_txs _ _ _ _ _ _ _ _ _ _) as [v s] eqn:Ec.
  destruct (first_reject [v; _]) eqn:Ef; [|done]. apply first_reject_cons in Ef as [-> _].
  apply (connect_loop c) in Ec as [Hblk Hbk _]; [|done..|].
  - unfold opoiActive in Hc. rewrite active in Hc. cbn in Hc. injection Hc as <- <-.
    pose proof (ib_safe _ _ _ Hblk) as Hs1. split.
    + eapply lets_go_safe; [apply transitions_let_go|done].
    + eapply lets_go_backed; [apply Hs1|apply transitions_let_go|done].
  - split; [by apply in_block_start|done|done].
Qed.
End connected.

(** Where the upgrade is not active a block does not touch the inference
    cache: its inference transactions are refused and no transition runs. *)
Lemma inactive_block_ignored `{Crypto} params chain nHeight treasury other vtx c view c' view' :
  NetworkUpgradeActive nHeight params UPGRADE_OPOI = false ->
  ConnectBlock params chain nHeight false false treasury other vtx c view = (Accept, (c', view')) -> c' = c.
Proof.
  intros Hoff. unfold ConnectBlock. destruct (CheckBeforeTxs _ _ _ _ _ _ _ _ _) eqn:Eb; [|done].
  assert (Hno : List.filter (connects_opoi false false) vtx = []).
  { unfold CheckBeforeTxs in Eb. rewrite first_reject_accept, !Forall_app, !Forall_map in Eb. destruct Eb as (_ & Hctx & _).
    induction Hctx as [|tx vtx Htx _ IH]; [done|]. cbn. rewrite IH. unfold connects_opoi.
    unfold ContextualCheckTransactionOPoI, opoiActive in Htx. rewrite Hoff in Htx. cbn in Htx.
    destruct (IsOPoITx tx); [done|]. by rewrite !andb_false_r. }
  destruct (connect_txs _ _ _ _ _ _ _ _ _ _) as [v s] eqn:Ec.
  apply (connect_txs_applied _ _ _ _ _ _ _ _ _ _ _ _ c) in Ec as (Hc & Hp & _); [|done]. cbn in Hp. rewrite Hno in Hp.
  apply prefix_nil_inv in Hp. rewrite Hp in Hc. cbn in Hc. unfold opoiActive. rewrite Hoff. cbn.
  destruct v; [|done]. destruct (other AfterTxs vtx); [|done]. by intros [= <- _].
Qed.

(** Empty lists hold nothing. *)
Lemma drop_nil_lookup {A B} (f : A -> B) (m m' : gmap string (list A)) k i :
  drop_nil m = drop_nil m' -> (votes ← m !! k; f <$> votes !! i) = (votes ← m' !! k; f <$> votes !! i).
Proof.
  intros Hm. apply (f_equal (lookup k)) in Hm. unfold drop_nil in Hm. rewrite !lookup_omap in Hm.
  destruct (m !! k) as [[|x l]|], (m' !! k) as [[|x' l']|]; cbn in Hm; by simplify_eq.
Qed.

Lemma equiv_held c c' h : cache_equiv c c' -> held c h = held c' h.
Proof.
  intros He. assert (Hf : forall {A} (f : OPoICache -> A), f (normalize c) = f (normalize c')) by (intros; by rewrite He).
  destruct h; cbn.
  - pose proof (Hf _ mapStakes) as E. cbn in E. by rewrite E.
  - pose proof (Hf _ mapChallenges) as E. cbn in E. by rewrite E.
  - pose proof (Hf _ setResolvedAuditorVerifications) as E. cbn in E. rewrite E. case_bool_decide; [done|].
    apply drop_nil_lookup. exact (Hf _ mapAuditorVerifications).
  - pose proof (Hf _ setResolvedShardAuditorVerifications) as E. cbn in E. rewrite E. case_bool_decide; [done|].
    apply drop_nil_lookup. exact (Hf _ mapShardAuditorVerifications).
Qed.

Lemma equiv_safe c c' : cache_equiv c c' -> collateral_safe c -> collateral_safe c'.
Proof.
  intros He [Hl Hu Hk]. assert (Hlk : mapLockedUTXOs c' = mapLockedUTXOs c).
  { apply (f_equal mapLockedUTXOs) in He. by cbn in He. }
  split.
  - intros h out. rewrite <- (equiv_held c c') by done. intros Hh. unfold locked. rewrite Hlk. by eapply Hl.
  - intros h h' out. rewrite <- !(equiv_held c c') by done. apply Hu.
  - intros key votes fv Hv [i Hi]%list_elem_of_lookup. pose proof (f_equal mapShardAuditorVerifications He) as E. cbn in E.
    apply (drop_nil_lookup id _ _ key i) in E. rewrite Hv in E. cbn in E. rewrite Hi in E.
    apply bind_Some in E as (votes' & Hv' & Hi'%fmap_Some_1). destruct Hi' as (? & Hi' & [= <-]). apply (Hk _ _ _ Hv'). by eapply list_elem_of_lookup_2.
Qed.

(** * Reachable states *)

Record Node := mkNode { node_height : Z; node_cache : OPoICache; node_view : Coins }.

(** What validation does not check of a block by itself: no outpoint is pledged
    twice in it, no challenge revealed twice, and no two transactions have the
    same hash. *)
Definition separate (vtx : list CTransaction) : Prop :=
  disjoint_block (List.filter (connects_opoi false false) vtx) /\ NoDup (GetHash <$> vtx).

(** What happens to a node between reorganisations: it connects the next block;
    it is given a block that it rejects, whose inference transactions are
    undoable as far as they are applied; it dry-runs or verifies a block; it
    relays data. *)
Inductive step `{Crypto} (params : Params) : Node -> Node -> Prop :=
  | step_connect chain treasury other vtx h c view c' view' :
      separate vtx ->
      ConnectTipOPoI params chain (h + 1) false treasury other vtx c view = (Accept, (c', view')) ->
      step params (mkNode h c view) (mkNode (h + 1) c' view')
  | step_reject chain treasury other vtx h c view l k r c' view' :
      undoable_block params chain (u32 (h + 1)) (List.filter (connects_opoi false false) vtx) c ->
      ConnectTipOPoI params chain (h + 1) false treasury other vtx c view = (Reject l k r, (c', view')) ->
      step params (mkNode h c view) (mkNode h c' view')
  | step_dry_run chain nHeight fIsVerifying fJustCheck treasury other vtx h c view :
      fJustCheck || fIsVerifying = true ->
      step params (mkNode h c view)
        (mkNode h (ConnectBlock params chain nHeight fIsVerifying fJustCheck treasury other vtx c view).2.1 view)
  | step_deliver dest d h c view : step params (mkNode h c view) (mkNode h (AddPendingDelivery dest d c) view)
  | step_drain dest h c view : step params (mkNode h c view) (mkNode h (GetAndDrainPendingDeliveries dest c).2 view)
  | step_known hash h c view : step params (mkNode h c view) (mkNode h (MarkOPoIDataHashKnown hash c) view)
  | step_content id kind payload h c view : step params (mkNode h c view) (mkNode h (AddContent id kind payload c) view).

(** From an empty cache, at any height and with any coins. *)
Definition reachable `{Crypto} (params : Params) (n : Node) : Prop :=
  exists h view, rtc (step params) (mkNode h emptyCache view) n.

Lemma emptyCache_holds h : held emptyCache h = None.
Proof. destruct h; cbn; by rewrite ?lookup_empty. Qed.

(** The invariant of the steps; before activation nothing is held. *)
Record node_ok (params : Params) (n : Node) : Prop := {
  no_safe : collateral_safe (node_cache n);
  no_backed : stakes_backed params (node_view n) (node_cache n);
  no_early : NetworkUpgradeActive (node_height n) params UPGRADE_OPOI = false -> forall h, held (node_cache n) h = None;
}.

Lemma emptyCache_ok params h view : node_ok params (mkNode h emptyCache view).
Proof.
  split; [split; [intros h' out|intros h1 h2 out|]|intros k out|intros _]; rewrite ?emptyCache_holds; cbn; try done.
  - apply emptyCache_holds.
Qed.

Lemma active_mono params h h' :
  h <= h' -> NetworkUpgradeActive h' params UPGRADE_OPOI = false -> NetworkUpgradeActive h params UPGRADE_OPOI = false.
Proof.
  intros Hle. unfold NetworkUpgradeActive, NetworkUpgradeState. cbv zeta. destruct (_ =? NO_ACTIVATION_HEIGHT); [done|].
  destruct (Z.leb_spec (nActivationHeight params UPGRADE_OPOI) h'); [done|].
  destruct (Z.leb_spec (nActivationHeight params UPGRADE_OPOI) h); [lia|done].
Qed.

(** A change of the cache alone that lets go of pledges at most. *)
Lemma ok_same params h c c' view : same_pledges c c' -> node_ok params (mkNode h c view) -> node_ok params (mkNode h c' view).
Proof.
  intros Hs [H1 H2 H3]. pose proof (same_lets_go _ _ Hs) as Hl. split; cbn in *.
  - by eapply lets_go_safe.
  - eapply lets_go_backed; [apply H1|done|done].
  - intros Hoff h'. rewrite (sp_held _ _ Hs). by apply H3.
Qed.

Lemma ok_equiv params h c c' view : cache_equiv c' c -> node_ok params (mkNode h c view) -> node_ok params (mkNode h c' view).
Proof.
  intros He [H1 H2 H3]. symmetry in He. split; cbn in *.
  - by eapply equiv_safe.
  - intros k out. rewrite <- (equiv_held c c') by done. apply H2.
  - intros Hoff h'. rewrite <- (equiv_held c c') by done. by apply H3.
Qed.

Lemma ok_connect `{Crypto} params chain treasury other vtx h c view c' view' :
  separate vtx -> ConnectBlock params chain (h + 1) false false treasury other vtx c view = (Accept, (c', view')) ->
  node_ok params (mkNode h c view) -> node_ok params (mkNode (h + 1) c' view').
Proof.
  intros [Hd Hnd] Hc [H1 H2 H3]. cbn in *. destruct (NetworkUpgradeActive (h + 1) params UPGRADE_OPOI) eqn:Ha.
  - destruct (connected_block_safe params chain (h + 1) treasury other Ha _ _ _ _ _ Hc Hd Hnd H1 H2) as [? ?].
    split; cbn; [done..|]. intros Hoff. congruence.
  - pose proof (inactive_block_ignored _ _ _ _ _ _ _ _ _ _ Ha Hc) as ->.
    assert (Hno : forall h', held c h' = None) by (apply H3; eapply active_mono; [|exact Ha]; lia).
    split; cbn; [done| |done]. intros k out. by rewrite Hno.
Qed.

Lemma step_ok `{Crypto} params n n' : step params n n' -> node_ok params n -> node_ok params n'.
Proof.
  intros [chain treasury other vtx h c view c' view' Hsep Hc|chain treasury other vtx h c view l k r c' view' Hu Hc
         |chain nHeight fV fJ treasury other vtx h c view Hdry| | | | ].
  - unfold ConnectTipOPoI in Hc. destruct (ConnectBlock _ _ _ _ _ _ _ _ _ _) as [[] [c1 view1]] eqn:E; [|done].
    injection Hc as <- <-. by eapply ok_connect.
  - unfold ConnectTipOPoI in Hc. destruct (ConnectBlock _ _ _ _ _ _ _ _ _ _) as [[] [c1 view1]] eqn:E; [done|].
    injection Hc as <- <- <- <- <-. apply connect_rejected in E as (txs & Hp & ->). apply ok_equiv, undo_block_restores.
    by eapply undoable_block_prefix.
  - by rewrite dry_run_pure.
  - by apply ok_same, same_other.
  - apply ok_same. unfold GetAndDrainPendingDeliveries. case_match; by apply same_other.
  - by apply ok_same, same_other.
  - by apply ok_same, same_other.
Qed.

(** C1. Collateral is safe between reorganisations.  From an empty cache, while
    a node connects the next blocks (before and after the activation of the
    subsystem), rejects others, dry-runs blocks and relays data, each unreleased
    stake, unresolved challenge and unsettled vote holds an outpoint no other of
    them holds, each of these outpoints is locked, and the collateral of every
    unreleased stake is an unspent output worth at least the minimum stake.  Two
    things are asked that validation does not enforce: a connected block is
    [separate] (it pledges no outpoint twice, reveals no challenge twice and
    repeats no transaction), and the transactions of a rejected block are
    undoable ([undoable_block]). *)
Theorem reachable_collateral_safe `{Crypto} (params : Params) (n : Node) :
  reachable params n ->
  collateral_safe (node_cache n) /\ stakes_backed params (node_view n) (node_cache n).
Proof.
  intros (h & view & Hr). enough (node_ok params n) as [? ? _] by done.
  pose proof (emptyCache_ok params h view) as H0. induction Hr as [n|n1 n2 n3 Hs Hr IH]; [done|].
  apply IH. by eapply step_ok.
Qed.

(** * Concrete runs *)

#[local] Existing Instance toyCrypto.

(** Connecting one block after the other; [None] when one is rejected. *)
Fixpoint connect_chain (params : Params) (blocks : list (list CTransaction)) (n : Node) : option Node :=
  match blocks with
  | [] => Some n
  | vtx :: blocks' =>
    match ConnectTipOPoI params toyChain (node_height n + 1) false "t" no_other vtx (node_cache n) (node_view n) with
    | (Accept, (c, view)) => connect_chain params blocks' (mkNode (node_height n + 1) c view)
    | _ => None
    end
  end.

Definition staked_out : COutPoint := mkCOutPoint 0xabcd 1.

(** A staked output is safe after the block that stakes it has been connected and
    one that stakes it and spends it has been rejected. *)
Lemma reachable_collateral_safe_witness :
  match connect_chain mainParams [[sample_coinbase; sample_pledge]] (mkNode 100000 emptyCache sample_view) with
  | Some n => held (node_cache n) (HStake "m") = Some staked_out /\ IsLockedUTXO staked_out (node_cache n) = true
              /\ exists o, node_view n !! staked_out = Some o /\ 100 * COIN <= nValue o
  | None => False
  end.
Proof.
  cbn [connect_chain node_cache node_view node_height]. change (100000 + 1) with 100001.
  destruct (ConnectTipOPoI _ _ _ _ _ _ _ _ _) as [v [c view]] eqn:E.
  assert (Hv : v = Accept) by (apply (f_equal fst) in E; cbn [fst] in E; rewrite <- E; vm_compute; reflexivity). subst v.
  assert (Hh : held c (HStake "m") = Some staked_out).
  { apply (f_equal (fun r => held r.2.1 (HStake "m"))) in E. cbn [fst snd] in E. rewrite <- E. vm_compute. reflexivity. }
  destruct (ConnectTipOPoI mainParams toyChain 100001 false "t" no_other sample_block emptyCache sample_view) as [v0 [c0 view0]] eqn:E0.
  assert (Hv0 : v0 = DoS 100 "bad-txns-spends-opoi-collateral").
  { apply (f_equal fst) in E0. cbn [fst] in E0. rewrite <- E0. vm_compute. reflexivity. }
  assert (H00 : c0 = emptyCache /\ view0 = sample_view).
  { apply (f_equal snd) in E0. cbn [snd] in E0. split; [apply (f_equal fst) in E0|apply (f_equal snd) in E0]; cbn [fst snd] in E0;
      rewrite <- E0; vm_compute; reflexivity. }
  destruct H00 as [-> ->]. subst v0.
  destruct (reachable_collateral_safe mainParams (mkNode 100001 c view)) as [Hs Hb].
  { exists 100000, sample_view. eapply rtc_l; [|apply rtc_once].
    - eapply (step_reject _ toyChain "t" no_other sample_block); [|exact E0].
      split; [|done]. intros _. right; right; right; left. concrete.
    - apply (step_connect _ toyChain "t" no_other [sample_coinbase; sample_pledge] 100000); [|exact E].
      split; [split|]; apply (bool_decide_unpack _); vm_compute; exact I. }
  split; [done|]. split; [apply bool_decide_eq_true, (cs_locked _ Hs _ _ Hh)|exact (Hb _ _ Hh)].
Defined.

Definition stake_by (miner : string) : CTransaction :=
  sample_pledge <| opoiMinerAddress := miner |> <| opoiSig := string_bytes miner |>.
Definition act_by (ty : Z) (miner : string) : CTransaction :=
  (sample_tx ty) <| opoiMinerAddress := miner |> <| opoiSig := string_bytes miner |>.
Definition coinbase_at (h : Z) : CTransaction := sample_coinbase <| hash := 1000 + h |>.

(** On the regression network: two miners stake one output in one block, one of
    them leaves, the other renews, and after the cooldown the output is spent. *)
Definition double_pledge_blocks : list (list CTransaction) :=
  [[coinbase_at 1; stake_by "m"; stake_by "n"];
   [coinbase_at 2; act_by OPOI_UNSTAKE_TX_TYPE "m"];
   [coinbase_at 3]; [coinbase_at 4]; [coinbase_at 5]; [coinbase_at 6];
   [coinbase_at 7; act_by OPOI_RENEW_TX_TYPE "n"];
   [coinbase_at 8]; [coinbase_at 9]; [coinbase_at 10]; [coinbase_at 11]; [coinbase_at 12];
   [coinbase_at 13; sample_spend staked_out]].

(** Without distinct pledges the guarantee is lost.  Validation compares
    the stakes of a block with the state before it, so two miners may pledge
    one output in one block; when one of them has left, the output is
    unlocked and can be spent while the other stake is still active. *)
Theorem double_pledge_unlocks_stake :
  match connect_chain regTestParams double_pledge_blocks (mkNode 0 emptyCache sample_view) with
  | Some n => IsActiveStaker "n" (node_cache n) = true /\ held (node_cache n) (HStake "n") = Some staked_out
              /\ node_view n !! staked_out = None
  | None => False
  end.
Proof. vm_compute. repeat split. Qed.
