(* ===== verification/Rebuild.v ===== *)
(** Restarting a node: [RebuildOPoICache] (opoi.cpp) replays the blocks of the
    active chain into an empty cache.  It runs the transactions and the
    transitions of every block as connecting did, except that it never marks
    challenger rewards as paid, and that relayed data is not on the chain.
    [same_consensus] is the equality of two caches up to those; every operation
    respects it, so the rebuilt cache and the live one agree on all the rest. *)

From stdpp Require Import gmap strings list.
From Stdlib Require Import ZArith Lia.
From S2P Require Import Prelude Params Uint256 Sha256 Transaction Platform Shard Records.
From S2P Require Import Majority Cache Sortition CheckTx ProcessTx BlockOps Payments Connect.

(** * RebuildOPoICache *)

Section rebuild.
Context `{Crypto} (params : Params) (chain : Chain).

(** The transitions that are replayed for a block. *)
Definition ReplayTransitions (nHeight : Z) (vtx : list CTransaction) (c : OPoICache) : OPoICache :=
  let h := u32 nHeight in
  let c := ProcessExpiredChallenges h params c in
  let c := ProcessExpiredRequests h params c in
  let c := ProcessResponseCommitWindows h params c in
  let c := ProcessStakeRenewals h params c in
  let c := ProcessCanaryAudits h params c in
  let c := ProcessModelVotingWindows h params c in
  let c := ProcessShardPayments params c vtx in
  let c := ProcessVerifiableResponsePayments params c vtx in
  let c := ProcessAuditSampledOpenResponsePayments params c vtx h in
  ProcessAuditorVerifications params c.

(** One block; a block that cannot be read from disk is skipped. *)
Definition ReplayBlock (c : OPoICache) (b : Z * option (list CTransaction)) : OPoICache :=
  match b.2 with
  | None => c
  | Some vtx =>
    let c := ApplyBlock params chain (u32 b.1) vtx c in
    if NetworkUpgradeActive b.1 params UPGRADE_OPOI then ReplayTransitions b.1 vtx c else c
  end.

(** [RebuildOPoICache] over the blocks of the active chain from the genesis. *)
Definition RebuildOPoICache (blocks : list (Z * option (list CTransaction))) (c : OPoICache) : OPoICache :=
  foldl ReplayBlock (SetNull c) blocks.
End rebuild.

(** * The part of the cache the chain determines *)

Definition consensus_part (c : OPoICache) : OPoICache :=
  c <| setPaidChallengerRewards := ∅ |> <| mapPendingDeliveries := ∅ |> <| setKnownOPoIDataHashes := ∅ |>
    <| mapContentByKey := ∅ |> <| mapLockingTxHash := ∅ |>.

Definition same_consensus (c c' : OPoICache) : Prop := consensus_part c = consensus_part c'.

#[global] Instance same_consensus_equivalence : Equivalence same_consensus.
Proof. unfold same_consensus. split; repeat intro; congruence. Qed.

(** Two caches of the same consensus part, field by field. *)
Ltac split_consensus :=
  repeat intro; unfold same_consensus, consensus_part in *;
  repeat match goal with
  | c : OPoICache |- _ => destruct c
  end; cbn in *;
  repeat match goal with
  | E : mkOPoICache _ _ _ _ _ _ _ _ _ _ _ _ _ _ _ _ _ _ _ _ _ _ _ _ _ _ = _ |- _ => injection E; clear E; intros; subst
  end.

Lemma foldl_proper {A} (f : OPoICache -> A -> OPoICache) l :
  (forall x, Proper (same_consensus ==> same_consensus) (fun c => f c x)) ->
  Proper (same_consensus ==> same_consensus) (fun c => foldl f c l).
Proof.
  intros Hf. induction l as [|x l IH]; intros c c' Hc; [done|]. cbn. apply IH. by apply Hf.
Qed.

Section respects.
Context `{Crypto}.

Lemma update_responder_proper id f : Proper (same_consensus ==> same_consensus) (update_responder id f).
Proof. split_consensus. unfold update_responder. cbn. by case_match. Qed.

Lemma response_of_proper pparams chain h tx c c' :
  same_consensus c c' -> response_of pparams chain h tx c = response_of pparams chain h tx c'.
Proof. split_consensus. reflexivity. Qed.

Lemma reveal_proper pparams chain h tx :
  Proper (same_consensus ==> same_consensus) (ApplyResponseReveal pparams chain h tx).
Proof.
  intros c c' Hc. unfold ApplyResponseReveal. rewrite (response_of_proper _ _ _ _ _ _ Hc).
  generalize (response_of pparams chain h tx c'). intros r. split_consensus. unfold AddResponse. cbn.
  by destruct (IsRevealed r).
Qed.

Lemma challenge_reveal_proper pparams tx :
  Proper (same_consensus ==> same_consensus) (ApplyChallengeReveal pparams tx).
Proof.
  split_consensus. unfold ApplyChallengeReveal, update_responder, GetRequest, GetAuditorMajorityResult. cbn.
  case_match; [|done]. destruct (match _ !! _ with Some _ => _ | None => _ end); [|done]. cbn.
  destruct (_ =? AUDITOR_VERIFY_FAIL); [by case_match|]. by destruct (_ =? AUDITOR_VERIFY_PASS).
Qed.

Lemma audit_vote_proper fv : Proper (same_consensus ==> same_consensus) (AddAuditorVerification fv).
Proof.
  split_consensus. unfold AddAuditorVerification, lock_auditor. cbn. by repeat case_match.
Qed.

Lemma shard_vote_proper id i fv : Proper (same_consensus ==> same_consensus) (AddShardAuditorVerification id i fv).
Proof.
  split_consensus. unfold AddShardAuditorVerification, lock_auditor. cbn. by repeat case_match.
Qed.

Lemma apply_proper pparams chain h tx :
  Proper (same_consensus ==> same_consensus) (ApplyOPoITransaction pparams chain h tx).
Proof.
  intros c c' Hc. unfold ApplyOPoITransaction.
  destruct (_ =? OPOI_REQUEST_TX_TYPE); [by split_consensus|].
  destruct (_ && _); [by split_consensus|].
  destruct (_ =? OPOI_RESPONSE_TX_TYPE); [by apply reveal_proper|].
  destruct (_ =? OPOI_STAKE_TX_TYPE); [by split_consensus|].
  destruct (_ =? OPOI_UNSTAKE_TX_TYPE).
  { split_consensus. unfold StartUnstake, IsActiveStaker. cbn. by repeat case_match. }
  destruct (_ =? OPOI_RENEW_TX_TYPE); [by split_consensus|].
  destruct (_ && _); [apply update_responder_proper; by split_consensus|].
  destruct (_ =? OPOI_CHALLENGE_TX_TYPE); [by apply challenge_reveal_proper|].
  destruct (_ =? OPOI_MODEL_REGISTER_TX_TYPE); [by split_consensus|].
  destruct (_ =? OPOI_MODEL_VOTE_TX_TYPE).
  { split_consensus. unfold AddModelVote. cbn. by case_match. }
  destruct (_ =? OPOI_COORDINATOR_CLAIM_TX_TYPE).
  { split_consensus. unfold AddCoordinatorClaim. cbn. by case_match. }
  destruct (_ =? OPOI_SHARD_RESULT_TX_TYPE).
  { split_consensus. unfold AddShardResult. cbn. by case_match. }
  destruct (_ =? OPOI_AUDITOR_VERIFY_TX_TYPE); [|done].
  destruct (_ =? NO_SHARD); [by apply audit_vote_proper|by apply shard_vote_proper].
Qed.
End respects.

Section transitions_respect.
Context (params : Params) (h : Z).

Lemma expire_challenge_proper kv :
  Proper (same_consensus ==> same_consensus) (fun c => expire_challenge h params c kv).
Proof.
  destruct kv as [key ch]. intros c c' Hc. unfold expire_challenge.
  destruct (IsOpen ch); [destruct (_ <? _); [done|by split_consensus]|].
  destruct (IsPendingResolution ch); [|done]. cbv zeta.
  replace (GetAuditorMajorityResult (ch_requestId ch) (nOPoIMinAuditors params) c)
    with (GetAuditorMajorityResult (ch_requestId ch) (nOPoIMinAuditors params) c') by (by split_consensus).
  destruct (_ =? AUDITOR_VERIFY_FAIL); [|destruct (_ =? AUDITOR_VERIFY_PASS); [by split_consensus|done]].
  pose proof (update_responder_proper (ch_requestId ch) slash_active c c' Hc) as Hu.
  revert Hu. generalize (update_responder (ch_requestId ch) slash_active c).
  generalize (update_responder (ch_requestId ch) slash_active c'). clear. by split_consensus.
Qed.

Lemma release_stake_proper kv :
  Proper (same_consensus ==> same_consensus) (fun c => release_stake h params c kv).
Proof. destruct kv. split_consensus. unfold release_stake. by case_match. Qed.

Lemma expired_challenges_proper : Proper (same_consensus ==> same_consensus) (ProcessExpiredChallenges h params).
Proof.
  intros c c' Hc. unfold ProcessExpiredChallenges. cbv zeta.
  replace (mapChallenges c) with (mapChallenges c') by (by split_consensus).
  pose proof (foldl_proper _ (items (mapChallenges c')) expire_challenge_proper c c' Hc) as H1. cbn in H1.
  set (d := foldl _ c _) in *. set (d' := foldl _ c' _) in *.
  replace (mapStakes d) with (mapStakes d') by (clearbody d d'; by split_consensus).
  by apply (foldl_proper _ _ release_stake_proper).
Qed.

Lemma tally_proper m : Proper (same_consensus ==> same_consensus) (fun c => tally_model h params c m).
Proof.
  intros c c' Hc. unfold tally_model.
  replace (TallyModelVotes (modelId m) c) with (TallyModelVotes (modelId m) c') by (by split_consensus).
  replace (TotalActiveStake c) with (TotalActiveStake c') by (by split_consensus).
  destruct (TallyModelVotes (modelId m) c'). case_match; by split_consensus.
Qed.

Lemma activate_proper m : Proper (same_consensus ==> same_consensus) (fun c => activate_model h c m).
Proof. split_consensus. unfold activate_model. by case_match. Qed.

Lemma model_windows_proper : Proper (same_consensus ==> same_consensus) (ProcessModelVotingWindows h params).
Proof.
  intros c c' Hc. unfold ProcessModelVotingWindows. cbv zeta.
  replace (ListManifestsDueForTally h c) with (ListManifestsDueForTally h c') by (by split_consensus).
  pose proof (foldl_proper _ (ListManifestsDueForTally h c') tally_proper c c' Hc) as H1. cbn in H1.
  set (d := foldl _ c _) in *. set (d' := foldl _ c' _) in *.
  replace (ListModelManifests OPOI_MODEL_STATUS_APPROVED d) with (ListModelManifests OPOI_MODEL_STATUS_APPROVED d')
    by (clearbody d d'; by split_consensus).
  by apply (foldl_proper _ _ activate_proper).
Qed.

Lemma renewals_proper : Proper (same_consensus ==> same_consensus) (ProcessStakeRenewals h params).
Proof. split_consensus. unfold ProcessStakeRenewals. by case_match. Qed.
Lemma expired_requests_proper : Proper (same_consensus ==> same_consensus) (ProcessExpiredRequests h params).
Proof. split_consensus. unfold ProcessExpiredRequests. by case_match. Qed.
Lemma commit_windows_proper : Proper (same_consensus ==> same_consensus) (ProcessResponseCommitWindows h params).
Proof. split_consensus. unfold ProcessResponseCommitWindows. by case_match. Qed.

Lemma canary_proper : Proper (same_consensus ==> same_consensus) (ProcessCanaryAudits h params).
Proof.
  split_consensus. unfold ProcessCanaryAudits. case_match; [done|]. unfold select_canary, active_addresses. cbn.
  by repeat case_match.
Qed.

Lemma shard_payments_proper vtx : Proper (same_consensus ==> same_consensus) (fun c => ProcessShardPayments params c vtx).
Proof.
  intros c c' Hc. unfold ProcessShardPayments.
  replace (GetShardPaymentsForBlock params c vtx) with (GetShardPaymentsForBlock params c' vtx) by (by split_consensus).
  apply (foldl_proper (fun c p => MarkShardPaid (sp_requestId p) (sp_shardIndex p) c)); [|done].
  intros p. by split_consensus.
Qed.

Lemma mark_responses_proper ps :
  Proper (same_consensus ==> same_consensus) (fun c => foldl (fun c p => MarkResponsePaid (rp_requestId p) c) c ps).
Proof. apply foldl_proper. intros p. by split_consensus. Qed.

Lemma verifiable_payments_proper vtx :
  Proper (same_consensus ==> same_consensus) (fun c => ProcessVerifiableResponsePayments params c vtx).
Proof.
  intros c c' Hc. unfold ProcessVerifiableResponsePayments, mark_responses.
  replace (GetVerifiablePaymentsForBlock params c vtx) with (GetVerifiablePaymentsForBlock params c' vtx)
    by (by split_consensus).
  by apply mark_responses_proper.
Qed.

Lemma sampled_payments_proper vtx :
  Proper (same_consensus ==> same_consensus) (fun c => ProcessAuditSampledOpenResponsePayments params c vtx h).
Proof.
  intros c c' Hc. unfold ProcessAuditSampledOpenResponsePayments, mark_responses.
  replace (GetAuditSampledOpenPaymentsForBlock params c vtx h) with (GetAuditSampledOpenPaymentsForBlock params c' vtx h)
    by (by split_consensus).
  by apply mark_responses_proper.
Qed.

Lemma unlock_majority_proper m verifs : Proper (same_consensus ==> same_consensus) (unlock_majority m verifs).
Proof.
  apply (foldl_proper (fun c fv => if fv_result fv =? m then UnlockUTXO (fv_auditorCollateral fv) c else c)).
  intros fv c c' Hc. case_match; [by split_consensus|done].
Qed.

Lemma settle_canary_proper id m : Proper (same_consensus ==> same_consensus) (settle_canary id m).
Proof.
  intros c c' Hc. unfold settle_canary. replace (GetRequest id c) with (GetRequest id c') by (by split_consensus).
  repeat case_match; try done; by apply update_responder_proper.
Qed.

Lemma resolve_response_proper kv : Proper (same_consensus ==> same_consensus) (fun c => resolve_response params c kv).
Proof.
  destruct kv as [id verifs]. intros c c' Hc. unfold resolve_response.
  replace (IsAuditorResolved id c) with (IsAuditorResolved id c') by (by split_consensus).
  replace (GetAuditorMajorityResult id (nOPoIMinAuditors params) c)
    with (GetAuditorMajorityResult id (nOPoIMinAuditors params) c') by (by split_consensus).
  case_match; [done|]. cbv zeta. set (m := GetAuditorMajorityResult _ _ _). case_match; [done|].
  apply settle_canary_proper. pose proof (unlock_majority_proper m verifs c c' Hc) as Hu. clear -Hu. revert Hu.
  generalize (unlock_majority m verifs c), (unlock_majority m verifs c'). by split_consensus.
Qed.

Lemma resolve_shard_proper kv : Proper (same_consensus ==> same_consensus) (fun c => resolve_shard params c kv).
Proof.
  destruct kv as [key verifs]. intros c c' Hc. unfold resolve_shard. destruct verifs as [|front rest]; [done|].
  replace (IsShardAuditorResolved (fv_requestId front) (fv_shardIndex front) c)
    with (IsShardAuditorResolved (fv_requestId front) (fv_shardIndex front) c') by (by split_consensus).
  case_match; [done|]. cbv zeta. set (m := ComputeAuditorMajority _ _). case_match; [done|].
  pose proof (unlock_majority_proper m (front :: rest) c c' Hc) as Hu. clear -Hu. revert Hu.
  generalize (unlock_majority m (front :: rest) c), (unlock_majority m (front :: rest) c'). by split_consensus.
Qed.

Lemma auditor_verifications_proper : Proper (same_consensus ==> same_consensus) (ProcessAuditorVerifications params).
Proof.
  intros c c' Hc. unfold ProcessAuditorVerifications. cbv zeta.
  replace (mapAuditorVerifications c) with (mapAuditorVerifications c') by (by split_consensus).
  pose proof (foldl_proper _ (items (mapAuditorVerifications c')) resolve_response_proper c c' Hc) as H1. cbn in H1.
  set (d := foldl _ c _) in *. set (d' := foldl _ c' _) in *.
  replace (mapShardAuditorVerifications d) with (mapShardAuditorVerifications d') by (clearbody d d'; by split_consensus).
  by apply (foldl_proper _ _ resolve_shard_proper).
Qed.
End transitions_respect.

(** The transitions of connecting that are not replayed change nothing the
    chain determines. *)
Lemma reward_marks_consensus params c vtx : same_consensus (ProcessChallengerRewardPayments params c vtx) c.
Proof.
  unfold ProcessChallengerRewardPayments.
  apply (foldl_inv (fun d => same_consensus d c)); [done|]. intros d r _. by split_consensus.
Qed.

Lemma prune_consensus c : same_consensus (PruneExpiredPendingDeliveries c) c.
Proof. by split_consensus. Qed.

Lemma replay_transitions params nHeight vtx c c' :
  same_consensus c c' ->
  same_consensus (BlockTransitions params nHeight vtx c) (ReplayTransitions params nHeight vtx c').
Proof.
  intros Hc. unfold BlockTransitions, ReplayTransitions. cbv zeta.
  apply auditor_verifications_proper, sampled_payments_proper, verifiable_payments_proper, shard_payments_proper,
    model_windows_proper, canary_proper, renewals_proper, commit_windows_proper.
  rewrite prune_consensus. apply expired_requests_proper, expired_challenges_proper. by rewrite reward_marks_consensus.
Qed.

(** * A live node and a rebuilt one *)

Section live.
Context `{Crypto} (params : Params) (chain : Chain).

Lemma apply_block_proper h vtx : Proper (same_consensus ==> same_consensus) (ApplyBlock params chain h vtx).
Proof.
  unfold ApplyBlock. apply (foldl_proper (fun c tx => ProcessOPoITransaction (Some params) chain h false tx c)).
  intros tx c c' Hc. unfold ProcessOPoITransaction. case_match; [done|]. by apply apply_proper.
Qed.

(** Of an accepted block, the apply loop hands over every OPoI transaction. *)
Lemma apply_block_connects (chain' : Chain) h vtx c :
  (forall tx, tx ∈ vtx -> IsOPoITx tx = true -> IsCoinBase tx = false) ->
  ApplyBlock params chain' h (List.filter (connects_opoi false false) vtx) c = ApplyBlock params chain' h vtx c.
Proof.
  revert c. induction vtx as [|tx vtx IH]; intros c Hcb; [done|].
  assert (Hrest : forall c, ApplyBlock params chain' h (List.filter (connects_opoi false false) vtx) c = ApplyBlock params chain' h vtx c).
  { intros d. apply IH. intros tx' Hin. apply Hcb. by right. }
  cbn [List.filter]. unfold connects_opoi at 1. destruct (IsOPoITx tx) eqn:Eo.
  - rewrite (Hcb tx) by (done || left). cbn. apply Hrest.
  - rewrite andb_false_r, Hrest. cbn. f_equal. unfold ProcessOPoITransaction. unfold IsOPoITx in Eo. by rewrite Eo.
Qed.

Lemma connected_cache (chain' : Chain) nHeight treasury other vtx c view c' view' :
  ConnectBlock params chain' nHeight false false treasury other vtx c view = (Accept, (c', view')) ->
  c' = (if NetworkUpgradeActive nHeight params UPGRADE_OPOI then BlockTransitions params nHeight vtx else id)
         (ApplyBlock params chain' (u32 nHeight) vtx c).
Proof.
  unfold ConnectBlock. destruct (CheckBeforeTxs _ _ _ _ _ _ _ _ _) eqn:Eb; [|done].
  apply checked_before in Eb as [Ha _]. destruct (connect_txs _ _ _ _ _ _ _ _ _ _) as [v s] eqn:Ec.
  destruct (first_reject [v; _]) eqn:Ef; [|done]. apply first_reject_cons in Ef as [-> _].
  apply (connect_txs_applied _ _ _ _ _ _ _ _ _ _ _ _ c) in Ec as (Hc & _ & Happ); [|done].
  cbn in Happ. rewrite Happ in Hc by done. rewrite apply_block_connects in Hc.
  - unfold opoiActive. cbn. destruct (NetworkUpgradeActive _ _ _); intros Hr; injection Hr as <- _; by rewrite Hc.
  - intros tx Hin Hop. specialize (Ha tx Hin Hop). apply accepted_by_rule in Ha as [(Hv & _) _]; [|by apply Z.eqb_eq].
    unfold IsCoinBase. by rewrite Hv.
Qed.

(** While the block at height [h] is being connected, [chainActive] ends below
    it; during the replay it is complete. *)
Definition below (h : Z) : Chain := fun height => if height <? h then chain height else None.

(** The seed of the audit lottery of a reveal, the block after its commit, is
    on the chain that block connection sees. *)
Definition seed_known (h : Z) (tx : CTransaction) (c : OPoICache) : Prop :=
  nType tx = OPOI_RESPONSE_TX_TYPE -> opoiResponsePhase tx <> 0 ->
  forall commitHeight, GetResponseCommitHeight (opoiRequestId tx) (opoiMinerAddress tx) c = Some commitHeight ->
  i32 (u32 (commitHeight + 1)) < h.

Fixpoint seeds_known (h : Z) (txs : list CTransaction) (c : OPoICache) : Prop :=
  match txs with
  | [] => True
  | tx :: txs' =>
    seed_known h tx c /\ seeds_known h txs' (ProcessOPoITransaction (Some params) (below h) (u32 h) false tx c)
  end.

Lemma audit_sample_below h c requestId miner height :
  (forall commitHeight, GetResponseCommitHeight requestId miner c = Some commitHeight -> i32 (u32 (commitHeight + 1)) < h) ->
  audit_sample (below h) c requestId miner height params = audit_sample chain c requestId miner height params.
Proof.
  intros Hk. unfold audit_sample, EvaluateOPoIAuditSample. f_equal. destruct (GetRequest requestId c); [|done]. cbn.
  case_match; [done|]. destruct (GetResponseCommitHeight _ _ _) as [ch|]; [|done]. cbn.
  unfold GetOPoIAuditSampleSeedHash, chainActive, below. by rewrite (proj2 (Z.ltb_lt _ _) (Hk ch eq_refl)).
Qed.

Lemma process_below h tx c :
  seed_known h tx c ->
  ProcessOPoITransaction (Some params) (below h) (u32 h) false tx c =
  ProcessOPoITransaction (Some params) chain (u32 h) false tx c.
Proof.
  intros Hk. unfold ProcessOPoITransaction. case_match; [done|]. unfold ApplyOPoITransaction.
  destruct (nType tx =? OPOI_REQUEST_TX_TYPE); [done|].
  destruct (Z.eqb_spec (nType tx) OPOI_RESPONSE_TX_TYPE) as [Ht|Ht]; [|done].
  destruct (Z.eqb_spec (opoiResponsePhase tx) 0) as [Hp|Hp]; [done|]. cbn [andb].
  unfold ApplyResponseReveal, response_of. by rewrite audit_sample_below by (by apply Hk).
Qed.

Lemma apply_block_below h txs c :
  seeds_known h txs c -> ApplyBlock params (below h) (u32 h) txs c = ApplyBlock params chain (u32 h) txs c.
Proof.
  revert c. induction txs as [|tx txs IH]; intros c; [done|]. intros [Hk Hr]. cbn.
  rewrite process_below in Hr |- * by done. by apply IH.
Qed.

(** The life of a node on a growing chain: it connects blocks, each on top of
    the blocks below it, and in between its cache changes only in what the
    chain does not determine (relayed data arrives, is delivered or
    forgotten). *)
Inductive live : list (Z * list CTransaction) -> OPoICache -> Coins -> OPoICache -> Coins -> Prop :=
  | live_start c view : live [] c view c view
  | live_connect nHeight treasury other vtx blocks c view c1 view1 c2 view2 :
      ConnectBlock params (below nHeight) nHeight false false treasury other vtx c view = (Accept, (c1, view1)) ->
      seeds_known nHeight vtx c ->
      live blocks c1 view1 c2 view2 -> live ((nHeight, vtx) :: blocks) c view c2 view2
  | live_relay blocks c view c1 c2 view2 :
      same_consensus c c1 -> live blocks c1 view c2 view2 -> live blocks c view c2 view2.

(** The blocks of a chain as the replay reads them back from disk. *)
Definition on_disk (blocks : list (Z * list CTransaction)) : list (Z * option (list CTransaction)) :=
  map (fun b => (b.1, Some b.2)) blocks.

Lemma replay_live blocks c view c' view' :
  live blocks c view c' view' -> forall d, same_consensus d c ->
  same_consensus (foldl (ReplayBlock params chain) d (on_disk blocks)) c'.
Proof.
  induction 1 as [c view|nHeight treasury other vtx blocks c view c1 view1 c2 view2 Hc Hk _ IH|blocks c view c1 c2 view2 Hs _ IH];
    intros d Hd; [done| |apply IH; by rewrite Hd].
  cbn. apply IH. apply connected_cache in Hc as ->. rewrite apply_block_below by done. unfold ReplayBlock. cbn.
  pose proof (apply_block_proper (u32 nHeight) vtx d c Hd) as Ha. destruct (NetworkUpgradeActive _ _ _); [|exact Ha].
  symmetry. apply replay_transitions. by symmetry.
Qed.

(** C13. A restart loses nothing the chain determines: replaying the blocks
    into an emptied cache gives the cache of the node that connected them one
    by one, each seeing only the blocks below it, provided that every reveal
    was committed at least two blocks before it; they agree in every
    field but the rewards already paid to challengers, the relayed
    data and the hashes of the locking transactions. *)
Theorem rebuild_matches_live (blocks : list (Z * list CTransaction)) (view view' : Coins) (c c0 : OPoICache) :
  live blocks emptyCache view c view' ->
  same_consensus (RebuildOPoICache params chain (on_disk blocks) c0) c.
Proof. intros Hl. eapply replay_live; [exact Hl|]. by split_consensus. Qed.
End live.

(** * What the replay forgets *)

Abbreviation paid_rewards := setPaidChallengerRewards.

Lemma responder_rewards id f c : paid_rewards (update_responder id f c) = paid_rewards c.
Proof. unfold update_responder. by case_match. Qed.

Lemma foldl_rewards {A} (f : OPoICache -> A -> OPoICache) l c :
  (forall c x, paid_rewards (f c x) = paid_rewards c) -> paid_rewards (foldl f c l) = paid_rewards c.
Proof. intros Hf. apply (foldl_inv (fun d => paid_rewards d = paid_rewards c)); [done|]. intros d x _ <-. apply Hf. Qed.

Lemma apply_rewards `{Crypto} pparams chain h tx c : paid_rewards (ApplyOPoITransaction pparams chain h tx c) = paid_rewards c.
Proof.
  unfold ApplyOPoITransaction.
  repeat (destruct (nType tx =? _) || destruct (_ && _)); try reflexivity.
  all: unfold ApplyResponseReveal, AddResponse, StartUnstake, ApplyChallengeCommit, AddModelVote, AddCoordinatorClaim,
    AddShardResult, AddAuditorVerification, AddShardAuditorVerification, lock_auditor; cbv zeta; rewrite ?responder_rewards;
    try (by repeat case_match).
  unfold ApplyChallengeReveal. cbv zeta. case_match; [|done].
  destruct (match GetRequest _ _ with Some _ => _ | None => _ end); [|done].
  destruct (_ =? AUDITOR_VERIFY_FAIL); [|by destruct (_ =? AUDITOR_VERIFY_PASS)]. cbn. apply responder_rewards.
Qed.

Lemma expired_challenges_rewards h params c : paid_rewards (ProcessExpiredChallenges h params c) = paid_rewards c.
Proof.
  unfold ProcessExpiredChallenges. rewrite foldl_rewards, foldl_rewards; [done|..].
  - intros d [key ch]. unfold expire_challenge. repeat case_match; try done. cbn. apply responder_rewards.
  - intros d [key s]. unfold release_stake. by case_match.
Qed.

Lemma auditor_verifications_rewards params c : paid_rewards (ProcessAuditorVerifications params c) = paid_rewards c.
Proof.
  assert (Hu : forall m v d, paid_rewards (unlock_majority m v d) = paid_rewards d).
  { intros m v d. apply foldl_rewards. intros e fv. by case_match. }
  unfold ProcessAuditorVerifications. rewrite foldl_rewards, foldl_rewards; [done|..].
  - intros d [id v]. unfold resolve_response, settle_canary. cbv zeta.
    destruct (IsAuditorResolved id d); [done|]. destruct (_ <? 0); [done|].
    repeat case_match; rewrite ?responder_rewards; cbn -[unlock_majority]; apply Hu.
  - intros d [key v]. unfold resolve_shard. repeat case_match; try done. cbn -[unlock_majority]. apply Hu.
Qed.

Lemma replay_transitions_rewards params nHeight vtx c : paid_rewards (ReplayTransitions params nHeight vtx c) = paid_rewards c.
Proof.
  unfold ReplayTransitions. cbv zeta. rewrite auditor_verifications_rewards.
  unfold ProcessAuditSampledOpenResponsePayments, ProcessVerifiableResponsePayments, mark_responses, ProcessShardPayments,
    ProcessModelVotingWindows.
  rewrite !foldl_rewards; try done.
  - unfold ProcessCanaryAudits, ProcessStakeRenewals, ProcessResponseCommitWindows, ProcessExpiredRequests, select_canary.
    etransitivity; [|apply (expired_challenges_rewards (u32 nHeight) params c)]. by repeat case_match.
  - intros d m. unfold tally_model, activate_model. by repeat case_match.
  - intros d m. unfold tally_model, activate_model. by repeat case_match.
Qed.

Lemma replay_rewards `{Crypto} params chain b c : paid_rewards (ReplayBlock params chain c b) = paid_rewards c.
Proof.
  assert (Ha : forall h vtx, paid_rewards (ApplyBlock params chain h vtx c) = paid_rewards c).
  { intros h vtx. apply foldl_rewards. intros d tx. unfold ProcessOPoITransaction. case_match; [done|]. apply apply_rewards. }
  unfold ReplayBlock. case_match; [|done]. cbv zeta. case_match; [rewrite replay_transitions_rewards|]; apply Ha.
Qed.

(** A restart forgets which rewards were paid: whatever the chain, the
    rebuilt cache counts every challenger reward as unpaid. *)
Theorem rebuild_forgets_paid_rewards `{Crypto} (params : Params) (chain : Chain)
    (blocks : list (Z * option (list CTransaction))) (c : OPoICache) (requestId : string) :
  IsChallengerRewardPaid requestId (RebuildOPoICache params chain blocks c) = false.
Proof.
  unfold IsChallengerRewardPaid, RebuildOPoICache. apply bool_decide_eq_false.
  rewrite foldl_rewards by (intros; apply replay_rewards). apply not_elem_of_empty.
Qed.

(** * Concrete instances *)

#[local] Existing Instance toyCrypto.

Lemma rebuild_matches_live_witness :
  exists c, same_consensus (RebuildOPoICache mainParams toyChain (on_disk [(100001, [sample_coinbase; sample_pledge])]) emptyCache) c
            /\ IsActiveStaker "m" c = true.
Proof.
  destruct (ConnectBlock mainParams (below toyChain 100001) 100001 false false "t" no_other [sample_coinbase; sample_pledge]
              emptyCache sample_view) as [v [c view]] eqn:E.
  assert (v = Accept) as -> by (apply (f_equal fst) in E; cbn [fst] in E; rewrite <- E; vm_compute; reflexivity).
  exists c. split.
  - apply (rebuild_matches_live mainParams toyChain _ sample_view view). eapply live_connect; [exact E| |constructor].
    split; [intros Ht; vm_compute in Ht; discriminate Ht|].
    split; [intros Ht; vm_compute in Ht; discriminate Ht|exact I].
  - apply (f_equal (fun r => IsActiveStaker "m" r.2.1)) in E. cbn [fst snd] in E. rewrite <- E. vm_compute. reflexivity.
Defined.
