(* ===== verification/Template.v ===== *)
(** The block template (miner.cpp, [CreateNewBlock]): the caps on inference
    transactions while transactions are selected, and the coinbase outputs
    added for them.  The theorems relate it to validation: what the template
    builds, [CheckOPoIBlockCaps], [CheckOPoIPayments] and
    [CheckOPoIChallengerRewards] accept, and the outputs are carved out of the
    miner's own share, so the coinbase creates no coins. *)

From stdpp Require Import gmap strings list.
From Stdlib Require Import ZArith Lia.
From S2P Require Import Prelude Params Uint256 Transaction Platform Shard Records.
From S2P Require Import Majority Cache Sortition CheckTx ProcessTx BlockOps Payments.

Open Scope verdict_scope.

(** * Selecting transactions *)

Section select.
Context (params : Params).
(** The limits that do not concern inference: block size, signature
    operations, fees and inputs, for the transactions selected so far. *)
Context (fits : list CTransaction -> CTransaction -> bool).

Definition capped (nOPoIRequestsIncluded nOPoIResponsesIncluded : Z) (tx : CTransaction) : bool :=
  (nVersion tx =? OPOI_TX_VERSION) &&
  (((nType tx =? OPOI_REQUEST_TX_TYPE) && (0 <? nOPoIMaxRequestsPerBlock params)
    && (nOPoIMaxRequestsPerBlock params <=? nOPoIRequestsIncluded))
   || ((nType tx =? OPOI_RESPONSE_TX_TYPE) && (0 <? nOPoIMaxResponsesPerBlock params)
       && (nOPoIMaxResponsesPerBlock params <=? nOPoIResponsesIncluded))).

(** The loop over the candidates in priority order. *)
Fixpoint select_txs (candidates : list CTransaction) (nRequests nResponses : Z) (block : list CTransaction)
    : list CTransaction :=
  match candidates with
  | [] => block
  | tx :: candidates' =>
    if capped nRequests nResponses tx || negb (fits block tx) then select_txs candidates' nRequests nResponses block
    else
      let opoi := nVersion tx =? OPOI_TX_VERSION in
      let isRequest := opoi && (nType tx =? OPOI_REQUEST_TX_TYPE) in
      let isResponse := opoi && (nType tx =? OPOI_RESPONSE_TX_TYPE) in
      select_txs candidates' (if isRequest then nRequests + 1 else nRequests)
        (if isResponse then nResponses + 1 else nResponses) (block ++ [tx])
  end.
End select.

(** * The coinbase *)

Section coinbase.
Context `{Crypto} (params : Params) (chain : Chain) (nHeight : Z) (c : OPoICache) (treasuryAddress : string).

(** [txNew.vout[0].nValue], and taking an amount out of it. *)
Definition vout0 (outs : list CTxOut) : Z := match outs with out :: _ => nValue out | [] => 0 end.
Definition take_from_vout0 (amount : Z) (outs : list CTxOut) : list CTxOut :=
  match outs with out :: outs' => mkCTxOut (i64 (nValue out - amount)) (scriptPubKey out) :: outs' | [] => [] end.

(** One payment: skipped when the payee is invalid, when it exceeds the budget
    or when it exceeds the miner's own output. *)
Definition pay_obligation (budget : Z) (st : list CTxOut * Z) (ob : Obligation) : list CTxOut * Z :=
  let '(outs, total) := st in
  if negb (IsValidDestination (DecodeDestination (ob_address ob))) then st
  else if budget <? i64 (total + ob_amount ob) then st
  else if vout0 outs <? i64 (total + ob_amount ob) then st
  else (outs ++ [output_of ob], i64 (total + ob_amount ob)).

Definition pay_reward (st : list CTxOut * Z) (r : OPoIChallengerReward) : list CTxOut * Z :=
  let '(outs, total) := st in
  if vout0 outs <? i64 (total + rewardAmount r) then st
  else
    let dest := DecodeDestination (challengerAddress r) in
    if negb (IsValidDestination dest) then st
    else (outs ++ [mkCTxOut (rewardAmount r) (GetScriptForDestination dest)], i64 (total + rewardAmount r)).

Definition total_treasury (rewards : list OPoIChallengerReward) : Z :=
  foldl (fun t r => i64 (t + treasuryAmount r)) 0 rewards.

Definition pay_treasury (amount : Z) (outs : list CTxOut) : list CTxOut :=
  let dest := DecodeDestination treasuryAddress in
  if (0 <? amount) && (amount <=? vout0 outs) && IsValidDestination dest
  then take_from_vout0 amount (outs ++ [mkCTxOut amount (GetScriptForDestination dest)])
  else outs.

(** The inference part of the coinbase: [outs] holds the miner's output and
    those of the nodes and funds, [vtx] the block with its coinbase still to
    be filled in. *)
Definition AddOPoIOutputs (vtx : list CTransaction) (outs : list CTxOut) : list CTxOut :=
  if negb (NetworkUpgradeActive nHeight params UPGRADE_OPOI) then outs
  else
    let '(outs, totalOPoIPayment) :=
      foldl (pay_obligation (opoiBudget nHeight params)) (outs, 0) (obligations params chain nHeight c vtx) in
    let outs := take_from_vout0 totalOPoIPayment outs in
    let rewards := GetChallengerRewardsAtHeight params c vtx in
    let '(outs, totalChallengerRewards) := foldl pay_reward (outs, 0) rewards in
    let outs := take_from_vout0 totalChallengerRewards outs in
    pay_treasury (total_treasury rewards) outs.

(** The finished coinbase of the template. *)
Definition FillCoinbase (txNew : CTransaction) (nFees : Z) (txs : list CTransaction) : CTransaction :=
  txNew <| vout := take_from_vout0 (- nFees) (AddOPoIOutputs (txNew :: txs) (vout txNew)) |>.
End coinbase.

(** * The caps *)

Lemma count_type_app t l l' : count_type t (l ++ l') = count_type t l + count_type t l'.
Proof. unfold count_type. rewrite List.filter_app, length_app. lia. Qed.

Lemma count_type_one t tx :
  count_type t [tx] = if (nVersion tx =? OPOI_TX_VERSION) && (nType tx =? t) then 1 else 0.
Proof. unfold count_type. cbn [List.filter]. by destruct (_ && _). Qed.

(** The counters of the loop are the counts of the block so far. *)
Lemma select_txs_counts params fits candidates block :
  let within block :=
    (0 < nOPoIMaxRequestsPerBlock params -> count_type OPOI_REQUEST_TX_TYPE block <= nOPoIMaxRequestsPerBlock params) /\
    (0 < nOPoIMaxResponsesPerBlock params -> count_type OPOI_RESPONSE_TX_TYPE block <= nOPoIMaxResponsesPerBlock params) in
  within block ->
  within (select_txs params fits candidates (count_type OPOI_REQUEST_TX_TYPE block)
            (count_type OPOI_RESPONSE_TX_TYPE block) block).
Proof.
  intros within. revert block. induction candidates as [|tx candidates IH]; intros block Hb; [done|]. cbn [select_txs].
  destruct (capped _ _ _ tx) eqn:Ec; [by apply IH|]. destruct (negb (fits block tx)); [by apply IH|]. cbn [orb].
  assert (Hq : forall t, count_type t (block ++ [tx]) =
    if (nVersion tx =? OPOI_TX_VERSION) && (nType tx =? t) then count_type t block + 1 else count_type t block).
  { intros t. rewrite count_type_app, count_type_one. case_match; lia. }
  cbv zeta. rewrite <- !Hq. apply IH. unfold within in *. rewrite !Hq. unfold capped in Ec.
  destruct (nVersion tx =? OPOI_TX_VERSION); cbn [andb] in *; [|done].
  destruct (nType tx =? OPOI_REQUEST_TX_TYPE) eqn:E1, (nType tx =? OPOI_RESPONSE_TX_TYPE) eqn:E2; cbn [andb orb] in *;
    rewrite ?orb_false_iff, ?andb_false_iff, ?Z.ltb_ge, ?Z.leb_gt in Ec; lia.
Qed.

(** * The outputs *)

Section outputs.
Context `{Crypto}.

Lemma vout0_app outs outs' : outs <> [] -> vout0 (outs ++ outs') = vout0 outs.
Proof. by destruct outs. Qed.

(** [totalOPoIPayment] after the payments. *)
Fixpoint paid_total (budget : Z) (obs : list Obligation) (total : Z) : Z :=
  match obs with
  | [] => total
  | ob :: obs' =>
    if budget <? i64 (total + ob_amount ob) then paid_total budget obs' total
    else paid_total budget obs' (i64 (total + ob_amount ob))
  end.

Lemma pay_all_due budget obs outs total :
  outs <> [] -> budget <= vout0 outs -> Forall payee_valid (payable budget obs total) ->
  foldl (pay_obligation budget) (outs, total) obs =
  (outs ++ map output_of (payable budget obs total), paid_total budget obs total).
Proof.
  revert outs total. induction obs as [|ob obs IH]; intros outs total Hne Hb Hv; [by rewrite app_nil_r|].
  cbn [foldl payable paid_total pay_obligation] in *. destruct (Z.ltb_spec budget (i64 (total + ob_amount ob))) as [Hlt|Hle].
  - destruct (negb _); by apply IH.
  - apply Forall_cons in Hv as [Hv1 Hv]. rewrite Hv1. cbn [negb].
    rewrite (proj2 (Z.ltb_ge (vout0 outs) _)) by lia. rewrite IH; [|by destruct outs|by rewrite vout0_app|done].
    cbn [map]. by rewrite <- (assoc_L (++)).
Qed.

Lemma paid_total_sum budget obs total :
  0 <= total <= budget -> budget < 2 ^ 62 -> Forall (fun ob => 0 <= ob_amount ob < 2 ^ 62) obs ->
  paid_total budget obs total = total + sum_amounts (payable budget obs total).
Proof.
  intros Ht Hb Hobs. revert total Ht. induction Hobs as [|ob obs Ha Hobs IH]; intros total Ht; [cbn; lia|].
  cbn [payable paid_total]. rewrite i64_small by (unfold in_i64; lia).
  destruct (Z.ltb_spec budget (total + ob_amount ob)); [by apply IH|]. rewrite IH by lia. unfold sum_amounts. cbn. lia.
Qed.

Definition reward_output (r : OPoIChallengerReward) : CTxOut :=
  mkCTxOut (rewardAmount r) (GetScriptForDestination (DecodeDestination (challengerAddress r))).
Definition sum_rewards (rs : list OPoIChallengerReward) : Z := foldr Z.add 0 (map rewardAmount rs).
Definition sum_treasury (rs : list OPoIChallengerReward) : Z := foldr Z.add 0 (map treasuryAmount rs).

Definition reward_ok (r : OPoIChallengerReward) : Prop :=
  IsValidDestination (DecodeDestination (challengerAddress r)) = true /\ 0 <= rewardAmount r /\ 0 <= treasuryAmount r.

Lemma sum_rewards_nonneg rs : Forall reward_ok rs -> 0 <= sum_rewards rs /\ 0 <= sum_treasury rs.
Proof. unfold sum_rewards, sum_treasury. induction 1 as [|r rs (? & ? & ?) _ IH]; cbn; lia. Qed.

Lemma pay_all_rewards rs outs total :
  outs <> [] -> Forall reward_ok rs -> 0 <= total -> total + sum_rewards rs <= vout0 outs -> vout0 outs < 2 ^ 62 ->
  foldl pay_reward (outs, total) rs = (outs ++ map reward_output rs, total + sum_rewards rs).
Proof.
  intros Hne Hok. revert outs total Hne. induction Hok as [|r rs (Hv & Hr & _) Hok IH]; intros outs total Hne Ht Hs Hb.
  { unfold sum_rewards. cbn. by rewrite app_nil_r, Z.add_0_r. }
  pose proof (sum_rewards_nonneg rs Hok) as [Hnn _]. unfold sum_rewards in *. cbn [foldl map foldr pay_reward] in *.
  rewrite i64_small by (unfold in_i64; lia). rewrite (proj2 (Z.ltb_ge (vout0 outs) _)) by lia. rewrite Hv. cbn [negb].
  rewrite IH; [|by destruct outs|lia|rewrite vout0_app by done; lia|by rewrite vout0_app].
  unfold reward_output at 2. rewrite <- (assoc_L (++)). f_equal. lia.
Qed.

Lemma foldl_treasury_sum rs t :
  Forall reward_ok rs -> 0 <= t -> t + sum_treasury rs < 2 ^ 62 ->
  foldl (fun t r => i64 (t + treasuryAmount r)) t rs = t + sum_treasury rs.
Proof.
  intros Hok. revert t. induction Hok as [|r rs (Hv & Hr0 & Hr) Hok IH]; intros t Ht Hb; unfold sum_treasury in *.
  { cbn. lia. }
  pose proof (sum_rewards_nonneg rs Hok) as [_ Hnn]. unfold sum_treasury in Hnn. cbn [foldl map foldr] in *.
  rewrite i64_small by (unfold in_i64; lia). rewrite IH by lia. lia.
Qed.

Lemma total_treasury_sum rs : Forall reward_ok rs -> sum_treasury rs < 2 ^ 62 -> total_treasury rs = sum_treasury rs.
Proof. intros. unfold total_treasury. rewrite foldl_treasury_sum; [done|done|lia|lia]. Qed.

Lemma check_rewards_found outs total rs checked next :
  Forall reward_ok rs -> (forall r, r ∈ rs -> reward_output r ∈ outs) ->
  (forall n, next n = Accept) -> check_rewards outs total rs checked next = Accept.
Proof.
  intros Hok. revert checked. induction Hok as [|r rs (Hv & _) Hok IH]; intros checked Hin Hn; [apply Hn|].
  cbn [check_rewards]. case_match; [apply IH; [|done]; intros r' Hr'; apply Hin; by right|].
  unfold DoS. rewrite !accept_guard. split_and!; [by rewrite Hv| |apply IH; [|done]; intros r' Hr'; apply Hin; by right].
  apply negb_false_iff. unfold has_output. apply existsb_exists. exists (reward_output r).
  split; [apply list_elem_of_In, Hin; left|]. unfold reward_output. cbn. by rewrite bool_decide_eq_true_2, Z.eqb_refl.
Qed.
End outputs.

(** * The template is valid *)

Section template.
Context `{Crypto} (params : Params) (chain : Chain) (nHeight : Z) (c : OPoICache) (treasuryAddress : string).
Context (txNew : CTransaction) (out0 : CTxOut) (outs : list CTxOut) (nFees : Z) (txs : list CTransaction).

Let due := payable (opoiBudget nHeight params) (obligations params chain nHeight c (txNew :: txs)) 0.
Let rewards := GetChallengerRewardsAtHeight params c (txNew :: txs).

(** The situation of the theorem: the miner's output is the first of the
    coinbase and covers the budget and the rewards, and every payee exists. *)
Record template_ready : Prop := {
  tr_active : NetworkUpgradeActive nHeight params UPGRADE_OPOI = true;
  tr_vout : vout txNew = out0 :: outs;
  tr_budget : 0 <= opoiBudget nHeight params <= nValue out0;
  tr_range : nValue out0 < 2 ^ 62;
  tr_amounts : Forall (fun ob => 0 <= ob_amount ob < 2 ^ 62) (obligations params chain nHeight c (txNew :: txs));
  tr_payees : Forall payee_valid due;
  tr_rewards : Forall reward_ok rewards;
  tr_treasury : IsValidDestination (DecodeDestination treasuryAddress) = true;
  tr_fit : sum_amounts due + sum_rewards rewards + sum_treasury rewards <= nValue out0;
}.

Definition treasury_output : list CTxOut :=
  if 0 <? total_treasury rewards
  then [mkCTxOut (total_treasury rewards) (GetScriptForDestination (DecodeDestination treasuryAddress))] else [].

(** The coinbase of the template, output by output. *)
Lemma template_outputs :
  template_ready ->
  exists out, vout (FillCoinbase params chain nHeight c treasuryAddress txNew nFees txs) =
    out :: outs ++ map output_of due ++ map reward_output rewards ++ treasury_output.
Proof.
  intros [Hact Hv Hb Hr Ha Hp Hrw Ht Hfit]. unfold FillCoinbase, AddOPoIOutputs. rewrite Hact, Hv. cbn [negb].
  pose proof (payable_bound (opoiBudget nHeight params) _ 0 ltac:(lia) ltac:(lia) Ha) as Hsum. fold due in Hsum.
  pose proof (sum_rewards_nonneg _ Hrw) as [Hnr Hnt].
  rewrite pay_all_due; [|done|cbn [vout0]; lia|exact Hp]. rewrite paid_total_sum; [|lia|lia|exact Ha]. fold due rewards.
  rewrite Z.add_0_l. cbn [app take_from_vout0]. rewrite (i64_small (nValue out0 - _)) by (unfold in_i64; lia).
  rewrite pay_all_rewards; [|done|done|lia|cbn [vout0 nValue]; lia|cbn [vout0 nValue]; lia]. rewrite Z.add_0_l. cbn [app take_from_vout0].
  rewrite (i64_small (_ - sum_rewards rewards)) by (cbn [nValue]; unfold in_i64; lia).
  rewrite <- !(assoc_L (++)). unfold pay_treasury, treasury_output. rewrite Ht, andb_true_r.
  assert (Ett : total_treasury rewards = sum_treasury rewards) by (apply total_treasury_sum; [done|lia]).
  destruct (0 <? total_treasury rewards); cbn [andb]; [|rewrite app_nil_r; eexists; reflexivity].
  rewrite (proj2 (Z.leb_le _ _)) by (cbn [vout0 nValue]; lia). eexists. cbn. by rewrite <- !(assoc_L (++)).
Qed.

(** C15. The template agrees with validation: when the miner's output covers
    the budget and the rewards and every payee exists, the coinbase built for
    a block makes [CheckOPoIPayments] and [CheckOPoIChallengerRewards] accept
    the block it completes. *)
Theorem template_passes_checks :
  template_ready ->
  let block := FillCoinbase params chain nHeight c treasuryAddress txNew nFees txs :: txs in
  CheckOPoIPayments params chain nHeight c block = Accept /\
  CheckOPoIChallengerRewards params c treasuryAddress block = Accept.
Proof.
  intros Hready. destruct (template_outputs Hready) as [out Hout]. destruct Hready as [_ _ _ _ _ Hp Hrw Ht _].
  cbv zeta. unfold CheckOPoIPayments, CheckOPoIChallengerRewards. rewrite Hout. split.
  - rewrite claim_all_iff, unused_fresh. split; [exact Hp|]. apply submseteq_cons, submseteq_inserts_l, submseteq_inserts_r.
    reflexivity.
  - change (GetChallengerRewardsAtHeight params c (_ :: txs)) with rewards. apply check_rewards_found; [exact Hrw| |].
    { intros r Hr. apply elem_of_cons. right. rewrite !elem_of_app. right. right. left. by apply list_elem_of_fmap_2. }
    intros n. fold (total_treasury rewards). unfold treasury_output. destruct (Z.leb_spec (total_treasury rewards) 0); [done|].
    case_match; [done|]. unfold DoS. rewrite !accept_guard. split_and!; [by rewrite Ht| |done].
    apply negb_false_iff, existsb_exists. eexists. rewrite (proj2 (Z.ltb_lt 0 _)) by lia. split.
    + apply list_elem_of_In. rewrite elem_of_cons, !elem_of_app. do 4 right. by left.
    + cbn. by rewrite bool_decide_eq_true_2, Z.eqb_refl.
Qed.
End template.

(** * No coins are created *)

Section conservation.
Context `{Crypto}.

Definition sum_values (outs : list CTxOut) : Z := foldr Z.add 0 (map nValue outs).

Lemma sum_values_app outs outs' : sum_values (outs ++ outs') = sum_values outs + sum_values outs'.
Proof. unfold sum_values. rewrite map_app. induction outs as [|o outs IH]; cbn; lia. Qed.

(** A step that appends outputs and adds them to a running total that stays
    below the first output. *)
Definition advances (outs : list CTxOut) (total : Z) (st : list CTxOut * Z) : Prop :=
  exists new, st = (outs ++ new, total + sum_values new) /\ 0 <= total + sum_values new <= vout0 outs.

Lemma advances_nothing outs total : 0 <= total <= vout0 outs -> advances outs total (outs, total).
Proof. exists []. by rewrite app_nil_r, Z.add_0_r. Qed.

Lemma advances_one outs total out t :
  t = total + nValue out -> 0 <= t <= vout0 outs -> advances outs total (outs ++ [out], t).
Proof. intros -> Ht. exists [out]. unfold sum_values. cbn [map foldr]. by rewrite Z.add_0_r. Qed.

Lemma advances_all {A} (pay : list CTxOut * Z -> A -> list CTxOut * Z) (ok : A -> Prop) (limit : Z) (xs : list A) :
  (forall outs total x, ok x -> vout0 outs = limit -> 0 <= total <= limit -> advances outs total (pay (outs, total) x)) ->
  Forall ok xs -> forall outs total, vout0 outs = limit -> outs <> [] -> 0 <= total <= limit ->
  advances outs total (foldl pay (outs, total) xs).
Proof.
  intros Hstep. induction 1 as [|x xs Hx _ IH]; intros outs total Hl Hne Ht; cbn [foldl].
  { apply advances_nothing. lia. }
  destruct (Hstep outs total x Hx Hl Ht) as (new & -> & Hb).
  destruct (IH (outs ++ new) (total + sum_values new)) as (new' & -> & Hb');
    [by rewrite vout0_app|by destruct outs|lia|]. rewrite vout0_app in Hb' by done.
  exists (new ++ new'). by rewrite sum_values_app, (assoc_L (++)), Z.add_assoc.
Qed.

Lemma pay_obligation_advances budget outs total ob :
  0 <= ob_amount ob < 2 ^ 62 -> vout0 outs < 2 ^ 62 -> 0 <= total <= vout0 outs ->
  advances outs total (pay_obligation budget (outs, total) ob).
Proof.
  intros Ha Hl Ht. unfold pay_obligation. rewrite i64_small by (unfold in_i64; lia).
  pose proof (advances_nothing outs total Ht). destruct (negb _); [done|]. destruct (budget <? _); [done|].
  destruct (Z.ltb_spec (vout0 outs) (total + ob_amount ob)); [done|]. apply advances_one; [done|lia].
Qed.

Lemma pay_reward_advances outs total r :
  0 <= rewardAmount r < 2 ^ 62 -> vout0 outs < 2 ^ 62 -> 0 <= total <= vout0 outs ->
  advances outs total (pay_reward (outs, total) r).
Proof.
  intros Ha Hl Ht. unfold pay_reward. rewrite i64_small by (unfold in_i64; lia).
  pose proof (advances_nothing outs total Ht). destruct (Z.ltb_spec (vout0 outs) (total + rewardAmount r)); [done|].
  cbv zeta. destruct (negb _); [done|]. apply advances_one; [done|lia].
Qed.

Lemma take_within amount outs :
  outs <> [] -> 0 <= amount <= vout0 outs -> vout0 outs < 2 ^ 62 ->
  take_from_vout0 amount outs <> [] /\ vout0 (take_from_vout0 amount outs) = vout0 outs - amount /\
  sum_values (take_from_vout0 amount outs) = sum_values outs - amount.
Proof.
  destruct outs as [|out outs]; [done|]. cbn [vout0 take_from_vout0 nValue]. intros _ Ha Hl.
  rewrite i64_small by (unfold in_i64; lia). unfold sum_values. cbn [map foldr nValue]. split_and!; [done|done|lia].
Qed.

Lemma pay_treasury_within treasuryAddress amount outs :
  outs <> [] -> 0 <= vout0 outs < 2 ^ 62 ->
  let outs' := pay_treasury treasuryAddress amount outs in
  sum_values outs' = sum_values outs /\ 0 <= vout0 outs' <= vout0 outs /\ outs' <> [].
Proof.
  intros Hne Hl. unfold pay_treasury. cbv zeta. destruct (_ && _ && _) eqn:E; [|split_and!; [done|lia|lia|done]].
  apply andb_true_iff in E as [[H0%Z.ltb_lt Hle%Z.leb_le]%andb_true_iff _].
  set (new := mkCTxOut amount _). destruct (take_within amount (outs ++ [new])) as (Hn & Hv & Hs);
    [by destruct outs|rewrite vout0_app by done; lia|rewrite vout0_app by done; lia|]. rewrite vout0_app in Hv by done.
  rewrite sum_values_app in Hs. change (sum_values [new]) with (amount + 0) in Hs. split_and!; [lia|lia|lia|done].
Qed.

(** A round of payments: the total is then taken out of the first output. *)
Lemma round_conserves outs st :
  outs <> [] -> 0 <= vout0 outs < 2 ^ 62 -> advances outs 0 st ->
  let outs' := take_from_vout0 st.2 st.1 in
  outs' <> [] /\ sum_values outs' = sum_values outs /\ 0 <= vout0 outs' <= vout0 outs.
Proof.
  intros Hne Hl (new & -> & Hb). cbn [fst snd]. destruct (take_within (0 + sum_values new) (outs ++ new)) as (Hn & Hv & Hs);
    rewrite ?vout0_app in * by done; [by destruct outs|lia|lia|]. rewrite sum_values_app in Hs. split_and!; [done|lia..].
Qed.

(** The template creates no coins: whatever is owed, and whichever
    payees are invalid or do not fit, the outputs of the finished coinbase sum
    to those it started with plus the fees, and the miner's output, from
    which every payment is carved, never falls below the fees. *)
Theorem template_conserves_value (params : Params) (chain : Chain) (nHeight : Z) (c : OPoICache)
    (treasuryAddress : string) (txNew : CTransaction) (nFees : Z) (txs : list CTransaction) :
  vout txNew <> [] -> 0 <= vout0 (vout txNew) < 2 ^ 62 -> 0 <= nFees < 2 ^ 62 ->
  Forall (fun ob => 0 <= ob_amount ob < 2 ^ 62) (obligations params chain nHeight c (txNew :: txs)) ->
  Forall (fun r => 0 <= rewardAmount r < 2 ^ 62) (GetChallengerRewardsAtHeight params c (txNew :: txs)) ->
  let coinbase := FillCoinbase params chain nHeight c treasuryAddress txNew nFees txs in
  sum_values (vout coinbase) = sum_values (vout txNew) + nFees /\
  nFees <= vout0 (vout coinbase) <= vout0 (vout txNew) + nFees.
Proof.
  intros Hne Hl Hf Hobs Hrs. unfold FillCoinbase, AddOPoIOutputs.
  enough (Hmid : forall outs, outs <> [] -> sum_values outs = sum_values (vout txNew) ->
    0 <= vout0 outs <= vout0 (vout txNew) ->
    sum_values (take_from_vout0 (- nFees) outs) = sum_values (vout txNew) + nFees /\
    nFees <= vout0 (take_from_vout0 (- nFees) outs) <= vout0 (vout txNew) + nFees).
  - destruct (NetworkUpgradeActive _ _ _); cbn [negb]; [|apply Hmid; [done|done|lia]].
    pose proof (advances_all (pay_obligation (opoiBudget nHeight params)) _ (vout0 (vout txNew)) _
      ltac:(intros o t ob Hx Hlim Ht; apply pay_obligation_advances; [exact Hx|lia|lia]) Hobs (vout txNew) 0
      eq_refl Hne ltac:(lia)) as Hpaid.
    destruct (foldl (pay_obligation _) _ _) as [outs total]. apply round_conserves in Hpaid as (Hn1 & Hs1 & Hv1); [|done..].
    cbn [fst snd] in *. remember (take_from_vout0 total outs) as outs1 eqn:E1. clear E1.
    pose proof (advances_all pay_reward _ (vout0 outs1) _
      ltac:(intros o t r Hx Hlim Ht; apply pay_reward_advances; [exact Hx|lia|lia]) Hrs outs1 0
      eq_refl Hn1 ltac:(lia)) as Hpaid.
    destruct (foldl pay_reward _ _) as [outs' total']. apply round_conserves in Hpaid as (Hn2 & Hs2 & Hv2); [|done|lia].
    cbn [fst snd] in *.
    edestruct (pay_treasury_within treasuryAddress) as (Ht1 & Ht2 & Ht3); [exact Hn2|lia|apply Hmid; [exact Ht3|lia|lia]].
  - intros [|out outs] Ho Hs Hv; [done|]. cbn [take_from_vout0 vout0] in *. unfold sum_values in *.
    cbn [map foldr nValue] in *. rewrite i64_small by (unfold in_i64; lia). lia.
Qed.
End conservation.

(** The template keeps within the caps on inference transactions:
    whatever the candidates, their order and the other limits, the block it
    selects passes [CheckOPoIBlockCaps]. *)
Theorem template_within_caps (params : Params) (fits : list CTransaction -> CTransaction -> bool)
    (candidates : list CTransaction) (coinbase : CTransaction) :
  nVersion coinbase <> OPOI_TX_VERSION ->
  CheckOPoIBlockCaps params (select_txs params fits candidates 0 0 [coinbase]) = Accept.
Proof.
  intros Hv. apply block_caps_spec.
  assert (Hc : forall t, count_type t [coinbase] = 0).
  { intros t. rewrite count_type_one. by rewrite (proj2 (Z.eqb_neq _ _) Hv). }
  pose proof (select_txs_counts params fits candidates [coinbase]) as Hs. cbv zeta in Hs. rewrite !Hc in Hs. apply Hs. lia.
Qed.

(** * Concrete instances *)

#[local] Existing Instance toyCrypto.

(** A block subsidy to the miner, an audited answer whose payment falls due
    and a challenge of the same answer that was upheld. *)
Definition sample_base : CTransaction := emptyTx <| vout := [mkCTxOut 7500000000 []] |>.

Definition sample_due : OPoICache :=
  sample_answered <| mapChallenges :=
    {[ "r1" := (challenge_of 120 sample_challenge) <| ch_challengeStatus := OPOI_CHALLENGE_SLASHED |> ]} |>.

Lemma sample_due_obligations coinbase :
  obligations mainParams toyChain 700000 sample_due [coinbase; sample_reveal] =
  [mkObligation "m" 500500 "bad-cb-opoi-invalid-audit-sample-miner-addr" "bad-cb-opoi-missing-audit-sample-payment"].
Proof. vm_compute. reflexivity. Qed.

Lemma sample_due_rewards coinbase :
  GetChallengerRewardsAtHeight mainParams sample_due [coinbase; sample_reveal] =
  [mkOPoIChallengerReward "v" 500 "r1" 500].
Proof. vm_compute. reflexivity. Qed.

Lemma sample_due_payable :
  payable (opoiBudget 700000 mainParams) (obligations mainParams toyChain 700000 sample_due [sample_base; sample_reveal]) 0 =
  [mkObligation "m" 500500 "bad-cb-opoi-invalid-audit-sample-miner-addr" "bad-cb-opoi-missing-audit-sample-payment"].
Proof. rewrite sample_due_obligations. vm_compute. reflexivity. Qed.

Lemma template_passes_checks_witness :
  let coinbase := FillCoinbase mainParams toyChain 700000 sample_due "t" sample_base 1000 [sample_reveal] in
  map nValue (vout coinbase) = [7499499500; 500500; 500; 500] /\
  CheckOPoIPayments mainParams toyChain 700000 sample_due [coinbase; sample_reveal] = Accept /\
  CheckOPoIChallengerRewards mainParams sample_due "t" [coinbase; sample_reveal] = Accept.
Proof.
  split; [vm_compute; reflexivity|]. apply (template_passes_checks _ _ _ _ _ _ (mkCTxOut 7500000000 []) []).
  constructor.
  - concrete.
  - reflexivity.
  - concrete.
  - concrete.
  - rewrite sample_due_obligations. repeat constructor; concrete.
  - rewrite sample_due_payable. repeat constructor; concrete.
  - rewrite sample_due_rewards. repeat constructor; concrete.
  - concrete.
  - rewrite sample_due_payable, sample_due_rewards. concrete.
Defined.

Lemma template_conserves_value_witness :
  let coinbase := FillCoinbase mainParams toyChain 700000 sample_due "t" sample_base 1000 [sample_reveal] in
  sum_values (vout coinbase) = sum_values (vout sample_base) + 1000 /\
  1000 <= vout0 (vout coinbase) <= vout0 (vout sample_base) + 1000.
Proof.
  apply template_conserves_value.
  - discriminate.
  - concrete.
  - concrete.
  - rewrite sample_due_obligations. repeat constructor; concrete.
  - rewrite sample_due_rewards. repeat constructor; concrete.
Defined.

Lemma template_within_caps_witness :
  CheckOPoIBlockCaps mainParams
    (select_txs mainParams (fun _ _ => true) (replicate 300 (sample_tx OPOI_REQUEST_TX_TYPE)) 0 0 [sample_base]) = Accept.
Proof. apply template_within_caps. discriminate. Defined.
