(* ===== verification/Compact.v ===== *)
(** The compact form of a 256-bit target (arith_uint256.cpp), an exponent and
    a 23-bit mantissa, and the work a target stands for (pow.cpp). *)

From stdpp Require Import list.
From Stdlib Require Import ZArith Lia.
From S2P Require Import Prelude Uint256.

(** * Shifts and the compact form *)

(** [operator<<=], [operator>>=]. *)
Definition arith_shl (x shift : Z) : Z := Z.shiftl x shift mod 2 ^ 256.
Definition arith_shr (x shift : Z) : Z := Z.shiftr x shift.

(** [operator+=], [operator-=]. *)
Definition arith_add (x y : Z) : Z := (x + y) mod 2 ^ 256.
Definition arith_sub (x y : Z) : Z := (x - y) mod 2 ^ 256.

(** [SetCompact]: the value with [*pfNegative] and [*pfOverflow]. *)
Definition SetCompact (nCompact : Z) : Z * bool * bool :=
  let nSize := Z.shiftr nCompact 24 in
  let nWord := Z.land nCompact 0x007fffff in
  let nWord := if nSize <=? 3 then Z.shiftr nWord (8 * (3 - nSize)) else nWord in
  let value := if nSize <=? 3 then nWord else arith_shl nWord (8 * (nSize - 3)) in
  (value,
   negb (nWord =? 0) && negb (Z.land nCompact 0x00800000 =? 0),
   negb (nWord =? 0) && ((34 <? nSize) || ((0xff <? nWord) && (33 <? nSize)) || ((0xffff <? nWord) && (32 <? nSize)))).

Definition target_of (nCompact : Z) : Z := (SetCompact nCompact).1.1.

(** The mantissa and the number of bytes, before the source asserts that the
    mantissa has 23 bits and that the number of bytes fits a byte. *)
Definition compact_parts (x : Z) : Z * Z :=
  let nSize := (arith_bits x + 7) / 8 in
  let nCompact := if nSize <=? 3 then u32 (u64 (Z.shiftl (u64 x) (8 * (3 - nSize))))
                  else u32 (u64 (arith_shr x (8 * (nSize - 3)))) in
  if negb (Z.land nCompact 0x00800000 =? 0) then (Z.shiftr nCompact 8, nSize + 1) else (nCompact, nSize).

(** [GetCompact(fNegative = false)]; [compact_asserts] proves its assertions. *)
Definition GetCompact (x : Z) : Z :=
  let '(nCompact, nSize) := compact_parts x in Z.lor nCompact (Z.shiftl nSize 24).

(** [GetBlockProof], for the [nBits] of a block. *)
Definition GetBlockProof (nBits : Z) : option Z :=
  let '(bnTarget, fNegative, fOverflow) := SetCompact nBits in
  if fNegative || fOverflow || (bnTarget =? 0) then Some 0
  else q ← arith_div (arith_not bnTarget) (arith_add bnTarget 1); Some (arith_add q 1).

(** * Encoding and decoding *)

Lemma mantissa_bit m : 0 <= m < 2 ^ 24 -> (Z.land m 0x00800000 =? 0) = (m <? 2 ^ 23).
Proof. apply (land_top_bit m 23). lia. Qed.

Lemma lor_exponent m s : 0 <= m < 2 ^ 24 -> 0 <= s -> Z.lor m (Z.shiftl s 24) = s * 2 ^ 24 + m.
Proof. intros Hm Hs. rewrite Z.shiftl_mul_pow2, lor_above by lia. lia. Qed.

(** The number of bytes of a positive number. *)
Lemma size_bytes x :
  0 < x -> let s := (arith_bits x + 7) / 8 in 1 <= s /\ 2 ^ (8 * (s - 1)) <= x < 2 ^ (8 * s).
Proof.
  intros Hx. cbv zeta. pose proof (arith_bits_pow x Hx) as [Hlo Hhi].
  assert (Hb : 1 <= arith_bits x).
  { unfold arith_bits. destruct (Z.eqb_spec x 0); [lia|]. pose proof (Z.log2_nonneg x). lia. }
  pose proof (Z.div_mod (arith_bits x + 7) 8 ltac:(done)) as Hdm.
  pose proof (Z.mod_pos_bound (arith_bits x + 7) 8 ltac:(done)) as Hm. set (s := (arith_bits x + 7) / 8) in *.
  split; [lia|]. split.
  - etransitivity; [|exact Hlo]. apply Z.pow_le_mono_r; lia.
  - eapply Z.lt_le_trans; [exact Hhi|]. apply Z.pow_le_mono_r; lia.
Qed.

(** A number is determined to be of [s] bytes by its bounds. *)
Lemma size_bytes_unique x s :
  1 <= s -> 2 ^ (8 * (s - 1)) <= x < 2 ^ (8 * s) -> (arith_bits x + 7) / 8 = s.
Proof.
  intros Hs Hx. assert (0 < x) by (pose proof (Z.pow_pos_nonneg 2 (8 * (s - 1)) ltac:(done) ltac:(lia)); lia).
  destruct (size_bytes x) as (H1 & H2 & H3); [done|]. set (s' := (arith_bits x + 7) / 8) in *.
  assert (8 * (s' - 1) < 8 * s) by (apply (Z.pow_lt_mono_r_iff 2); lia).
  assert (8 * (s - 1) < 8 * s') by (apply (Z.pow_lt_mono_r_iff 2); lia). lia.
Qed.

(** The three most significant bytes, and the exponent and mantissa they give. *)
Definition mantissa (x : Z) : Z :=
  let s := (arith_bits x + 7) / 8 in if s <=? 3 then x * 2 ^ (8 * (3 - s)) else x / 2 ^ (8 * (s - 3)).

Lemma mantissa_range x : 0 < x -> 2 ^ 16 <= mantissa x < 2 ^ 24.
Proof.
  intros Hx. destruct (size_bytes x Hx) as (H1 & H2 & H3). unfold mantissa. set (s := (arith_bits x + 7) / 8) in *.
  cbv zeta. destruct (Z.leb_spec s 3).
  - replace (2 ^ 16) with (2 ^ (8 * (s - 1)) * 2 ^ (8 * (3 - s))) by (rewrite <- Z.pow_add_r by lia; f_equal; lia).
    replace (2 ^ 24) with (2 ^ (8 * s) * 2 ^ (8 * (3 - s))) by (rewrite <- Z.pow_add_r by lia; f_equal; lia).
    pose proof (Z.pow_pos_nonneg 2 (8 * (3 - s)) ltac:(done) ltac:(lia)). nia.
  - pose proof (Z.pow_pos_nonneg 2 (8 * (s - 3)) ltac:(done) ltac:(lia)). split.
    + apply Z.div_le_lower_bound; [lia|]. rewrite <- Z.pow_add_r by lia.
      replace (8 * (s - 3) + 16) with (8 * (s - 1)) by lia. lia.
    + apply Z.div_lt_upper_bound; [lia|]. rewrite <- Z.pow_add_r by lia.
      replace (8 * (s - 3) + 24) with (8 * s) by lia. lia.
Qed.

Lemma compact_parts_value x :
  0 < x < 2 ^ 256 ->
  let s := (arith_bits x + 7) / 8 in
  compact_parts x = if mantissa x <? 2 ^ 23 then (mantissa x, s) else (mantissa x / 2 ^ 8, s + 1).
Proof.
  intros Hx. cbv zeta. pose proof (mantissa_range x ltac:(lia)) as Hm.
  destruct (size_bytes x ltac:(lia)) as (H1 & H2 & H3). unfold compact_parts.
  set (s := (arith_bits x + 7) / 8) in *.
  assert (E : (if s <=? 3 then u32 (u64 (Z.shiftl (u64 x) (8 * (3 - s)))) else u32 (u64 (arith_shr x (8 * (s - 3))))) = mantissa x).
  { revert Hm. unfold mantissa. cbv zeta. fold s. unfold u32, u64, arith_shr. destruct (Z.leb_spec s 3); intros Hm.
    - assert (x < 2 ^ 24) by (eapply Z.lt_le_trans; [exact H3|]; apply Z.pow_le_mono_r; lia).
      rewrite Z.shiftl_mul_pow2 by lia. rewrite (Z.mod_small x) by lia.
      rewrite (Z.mod_small (x * _)) by lia. apply Z.mod_small. lia.
    - rewrite Z.shiftr_div_pow2 by lia. rewrite (Z.mod_small (x / _)) by lia. apply Z.mod_small. lia. }
  rewrite E, mantissa_bit by lia. destruct (Z.ltb_spec (mantissa x) (2 ^ 23)); cbn [negb]; [done|].
  by rewrite Z.shiftr_div_pow2 by lia.
Qed.

Lemma GetCompact_value x :
  0 < x < 2 ^ 256 ->
  let s := (arith_bits x + 7) / 8 in
  GetCompact x = if mantissa x <? 2 ^ 23 then s * 2 ^ 24 + mantissa x else (s + 1) * 2 ^ 24 + mantissa x / 2 ^ 8.
Proof.
  intros Hx. cbv zeta. pose proof (mantissa_range x ltac:(lia)) as Hm. destruct (size_bytes x ltac:(lia)) as (H1 & _).
  unfold GetCompact. rewrite compact_parts_value by done. set (s := (arith_bits x + 7) / 8) in *. cbv zeta.
  destruct (Z.ltb_spec (mantissa x) (2 ^ 23)); apply lor_exponent; try lia.
  split; [apply Z.div_pos; lia|apply Z.div_lt_upper_bound; lia].
Qed.

(** The assertions of [GetCompact] hold of every 256-bit number. *)
Lemma compact_asserts x :
  0 <= x < 2 ^ 256 -> Z.land (compact_parts x).1 (Z.lnot 0x007fffff) = 0 /\ (compact_parts x).2 < 256.
Proof.
  intros Hx. destruct (decide (x = 0)) as [->|Hx0]; [done|]. rewrite compact_parts_value by lia. cbv zeta.
  pose proof (mantissa_range x ltac:(lia)) as Hm. destruct (size_bytes x ltac:(lia)) as (H1 & H2 & _).
  set (s := (arith_bits x + 7) / 8) in *.
  assert (Hs : 8 * (s - 1) < 256) by (apply (Z.pow_lt_mono_r_iff 2); lia).
  assert (Hland : forall m, 0 <= m < 2 ^ 23 -> Z.land m (Z.lnot 0x007fffff) = 0).
  { intros m Hm'. change 0x007fffff with (Z.ones 23). rewrite <- Z.ldiff_land, Z.ldiff_ones_r by lia.
    rewrite Z.shiftr_div_pow2, Z.div_small, Z.shiftl_0_l by lia. done. }
  destruct (Z.ltb_spec (mantissa x) (2 ^ 23)); cbn [fst snd]; (split; [|lia]); apply Hland; [lia|].
  split; [apply Z.div_pos; lia|apply Z.div_lt_upper_bound; lia].
Qed.

(** Decoding an exponent and a mantissa without the sign bit. *)
Lemma SetCompact_value s m :
  0 <= s -> 0 <= m < 2 ^ 23 ->
  target_of (s * 2 ^ 24 + m) =
    (if s <=? 3 then m / 2 ^ (8 * (3 - s)) else (m * 2 ^ (8 * (s - 3))) mod 2 ^ 256) /\
  ((SetCompact (s * 2 ^ 24 + m)).1.2 = false) /\
  (s <= 33 -> m < 2 ^ 16 \/ s <= 32 -> (SetCompact (s * 2 ^ 24 + m)).2 = false).
Proof.
  intros Hs Hm. unfold target_of, SetCompact, arith_shl. cbn [fst snd].
  assert (E1 : Z.shiftr (s * 2 ^ 24 + m) 24 = s).
  { rewrite Z.shiftr_div_pow2 by lia. rewrite Z.div_add_l by lia. rewrite Z.div_small; lia. }
  assert (E2 : Z.land (s * 2 ^ 24 + m) 0x007fffff = m).
  { change 0x007fffff with (Z.ones 23). rewrite Z.land_ones by lia.
    replace (s * 2 ^ 24 + m) with (m + (s * 2) * 2 ^ 23) by lia. rewrite Z.mod_add by lia. apply Z.mod_small. lia. }
  assert (E3 : Z.land (s * 2 ^ 24 + m) 0x00800000 = 0).
  { change 0x00800000 with (2 ^ 23). apply Z.bits_inj'. intros i Hi. rewrite Z.land_spec, Z.bits_0.
    destruct (Z.eq_dec i 23) as [->|Hne]; [|by rewrite Z.pow2_bits_false, andb_false_r by lia].
    rewrite Z.testbit_eqb by lia. replace (s * 2 ^ 24 + m) with ((s * 2) * 2 ^ 23 + m) by lia.
    rewrite Z.div_add_l, (Z.div_small m), Z.add_0_r by lia. rewrite Z.mod_mul by lia. done. }
  rewrite E1, E2, E3. split; [|split].
  - destruct (Z.leb_spec s 3); [by rewrite Z.shiftr_div_pow2 by lia|by rewrite Z.shiftl_mul_pow2 by lia].
  - by rewrite andb_false_r.
  - intros H33 Hov. set (w := if s <=? 3 then _ else _). assert (Hw : 0 <= w <= m).
    { unfold w. destruct (Z.leb_spec s 3); [|lia]. rewrite Z.shiftr_div_pow2 by lia.
      pose proof (Z.pow_pos_nonneg 2 (8 * (3 - s)) ltac:(done) ltac:(lia)).
      split; [apply Z.div_pos; lia|]. apply Z.div_le_upper_bound; nia. }
    rewrite (proj2 (Z.ltb_ge 34 s)), (proj2 (Z.ltb_ge 33 s)), andb_false_r by lia. cbn [orb].
    destruct Hov as [Hov|Hov]; [rewrite (proj2 (Z.ltb_ge 0xffff w)) by lia; by rewrite andb_false_r|].
    rewrite (proj2 (Z.ltb_ge 32 s)) by lia. by rewrite !andb_false_r.
Qed.

(** A canonical compact number: a mantissa of 16 to 23 bits. *)
Lemma GetCompact_canonical s m :
  3 <= s -> 2 ^ 15 <= m < 2 ^ 23 -> m * 2 ^ (8 * (s - 3)) < 2 ^ 256 ->
  GetCompact (m * 2 ^ (8 * (s - 3))) = s * 2 ^ 24 + m.
Proof.
  intros Hs Hm Hx. pose proof (Z.pow_pos_nonneg 2 (8 * (s - 3)) ltac:(done) ltac:(lia)) as Hp.
  rewrite GetCompact_value by nia. unfold mantissa. cbv zeta. destruct (Z.lt_ge_cases m (2 ^ 16)) as [Hlt|Hge].
  - rewrite (size_bytes_unique _ (s - 1)).
    2: lia.
    2: { replace (8 * (s - 1)) with (16 + 8 * (s - 3)) by lia. rewrite Z.pow_add_r by lia.
         replace (8 * (s - 1 - 1)) with (8 + 8 * (s - 3)) by lia. rewrite Z.pow_add_r by lia. nia. }
    assert (E : (if s - 1 <=? 3 then m * 2 ^ (8 * (s - 3)) * 2 ^ (8 * (3 - (s - 1)))
                 else m * 2 ^ (8 * (s - 3)) / 2 ^ (8 * (s - 1 - 3))) = m * 2 ^ 8).
    { destruct (Z.leb_spec (s - 1) 3).
      - rewrite <- Z.mul_assoc, <- Z.pow_add_r by lia. do 2 f_equal. lia.
      - replace (8 * (s - 3)) with (8 + 8 * (s - 1 - 3)) by lia. rewrite Z.pow_add_r, Z.mul_assoc, Z.div_mul; lia. }
    rewrite E, (proj2 (Z.ltb_ge _ _)) by lia. rewrite Z.div_mul by lia. lia.
  - rewrite (size_bytes_unique _ s).
    2: lia.
    2: { replace (8 * (s - 1)) with (16 + 8 * (s - 3)) by lia. rewrite Z.pow_add_r by lia.
         replace (8 * s) with (24 + 8 * (s - 3)) by lia. rewrite Z.pow_add_r by lia. nia. }
    assert (E : (if s <=? 3 then m * 2 ^ (8 * (s - 3)) * 2 ^ (8 * (3 - s))
                 else m * 2 ^ (8 * (s - 3)) / 2 ^ (8 * (s - 3))) = m).
    { destruct (Z.leb_spec s 3); [replace s with 3 by lia; cbn; lia|]. apply Z.div_mul. lia. }
    by rewrite E, (proj2 (Z.ltb_lt _ _)) by lia.
Qed.

(** The exponent and mantissa of a number with at least three bytes. *)
Lemma GetCompact_form x :
  2 ^ 16 <= x < 2 ^ 256 ->
  exists s m, 3 <= s <= 33 /\ 2 ^ 15 <= m < 2 ^ 23 /\ (m < 2 ^ 16 \/ s <= 32) /\
    GetCompact x = s * 2 ^ 24 + m /\ m = x / 2 ^ (8 * (s - 3)).
Proof.
  intros Hx. destruct (size_bytes x ltac:(lia)) as (H1 & H2 & H3). pose proof (mantissa_range x ltac:(lia)) as Hm.
  rewrite GetCompact_value by lia. unfold mantissa in *. set (s := (arith_bits x + 7) / 8) in *. cbv zeta in *.
  assert (Hs3 : 3 <= s).
  { destruct (Z.lt_ge_cases s 3); [|done]. assert (2 ^ (8 * s) <= 2 ^ 16) by (apply Z.pow_le_mono_r; lia). lia. }
  assert (Hs32 : s <= 32).
  { destruct (Z.lt_ge_cases 32 s); [|done]. assert (2 ^ 256 <= 2 ^ (8 * (s - 1))) by (apply Z.pow_le_mono_r; lia). lia. }
  assert (E : (if s <=? 3 then x * 2 ^ (8 * (3 - s)) else x / 2 ^ (8 * (s - 3))) = x / 2 ^ (8 * (s - 3))).
  { destruct (Z.leb_spec s 3); [|done]. replace s with 3 by lia. rewrite Z.div_1_r. cbn. lia. }
  rewrite E in *. destruct (Z.ltb_spec (x / 2 ^ (8 * (s - 3))) (2 ^ 23)) as [Hlt|Hge].
  - exists s, (x / 2 ^ (8 * (s - 3))). split_and!; lia.
  - exists (s + 1), (x / 2 ^ (8 * (s - 3)) / 2 ^ 8).
    assert (2 ^ 15 <= x / 2 ^ (8 * (s - 3)) / 2 ^ 8 < 2 ^ 16).
    { split; [apply Z.div_le_lower_bound; lia|apply Z.div_lt_upper_bound; lia]. }
    split_and!; try lia. rewrite Z.div_div by lia. f_equal. rewrite <- Z.pow_add_r by lia. f_equal. lia.
Qed.

Lemma compact_small x :
  0 <= x < 2 ^ 16 -> SetCompact (GetCompact x) = (x, false, false).
Proof.
  intros Hx. destruct (Z.eq_dec x 0) as [->|Hne]; [reflexivity|].
  destruct (size_bytes x ltac:(lia)) as (H1 & H2 & H3). pose proof (mantissa_range x ltac:(lia)) as Hm.
  rewrite GetCompact_value by lia. revert Hm. unfold mantissa. set (s := (arith_bits x + 7) / 8) in *. cbv zeta.
  assert (Hs : s = 1 \/ s = 2).
  { destruct (Z.lt_ge_cases s 3); [lia|]. assert (2 ^ 16 <= 2 ^ (8 * (s - 1))) by (apply Z.pow_le_mono_r; lia). lia. }
  assert (Hdec : forall s' m, 0 <= s' <= 3 -> 0 <= m < 2 ^ 23 -> m / 2 ^ (8 * (3 - s')) = x ->
    SetCompact (s' * 2 ^ 24 + m) = (x, false, false)).
  { intros s' m Hs' Hm' Hv. destruct (SetCompact_value s' m) as (Ev & En & Eo); [lia..|].
    unfold target_of in Ev. rewrite (proj2 (Z.leb_le _ _)), Hv in Ev by lia.
    destruct (SetCompact _) as [[v neg] ovf]. cbn in *. rewrite Ev, En, Eo by lia. done. }
  intros Hm. rewrite (proj2 (Z.leb_le s 3)) in * by lia.
  destruct (Z.ltb_spec (x * 2 ^ (8 * (3 - s))) (2 ^ 23)).
  - apply Hdec; [lia|nia|]. apply Z.div_mul. destruct Hs as [-> | ->]; done.
  - apply Hdec; [lia| |].
    + split; [apply Z.div_pos; lia|apply Z.div_lt_upper_bound; lia].
    + destruct Hs as [Hs|Hs]; rewrite Hs in *; cbn [Z.sub Z.mul] in *.
      * change (2 ^ (8 * (3 - 1))) with (2 ^ 8 * 2 ^ 8). rewrite Z.mul_assoc, Z.div_mul by lia.
        change (2 ^ (8 * (3 - (1 + 1)))) with (2 ^ 8). by rewrite Z.div_mul by lia.
      * change (2 ^ (8 * (3 - 2))) with (2 ^ 8). change (2 ^ (8 * (3 - (2 + 1)))) with 1.
        by rewrite Z.div_mul, Z.div_1_r by lia.
Qed.

(** Decoding a compact number gives the number up to the bits its mantissa
    has no room for. *)
Lemma compact_decode x :
  0 <= x < 2 ^ 256 ->
  exists v, SetCompact (GetCompact x) = (v, false, false) /\ 0 <= v <= x /\ (x - v) * 2 ^ 15 <= v /\
    GetCompact v = GetCompact x.
Proof.
  intros Hx. destruct (Z.lt_ge_cases x (2 ^ 16)) as [Hs|Hb].
  { exists x. rewrite compact_small by lia. split_and!; [done|lia|lia|lia|done]. }
  destruct (GetCompact_form x) as (s & m & Hs & Hm & Hlim & E & Em); [lia|].
  pose proof (Z.pow_pos_nonneg 2 (8 * (s - 3)) ltac:(done) ltac:(lia)) as Hp.
  pose proof (Z.div_mod x (2 ^ (8 * (s - 3))) ltac:(lia)) as Hdm. rewrite <- Em in Hdm.
  pose proof (Z.mod_pos_bound x (2 ^ (8 * (s - 3))) Hp) as Hmod.
  set (v := m * 2 ^ (8 * (s - 3))) in *. assert (Hv : 0 <= v <= x) by nia. exists v. split_and!; [|lia|lia|nia|].
  - rewrite E. destruct (SetCompact_value s m) as (Ev & En & Eo); [lia..|]. unfold target_of in Ev.
    assert (Hval : (SetCompact (s * 2 ^ 24 + m)).1.1 = v).
    { rewrite Ev. destruct (Z.leb_spec s 3).
      - unfold v. replace s with 3 by lia. cbn. rewrite Z.div_1_r. lia.
      - apply Z.mod_small. unfold v in *. lia. }
    destruct (SetCompact _) as [[v' neg] ovf]. cbn in *. rewrite Hval, En, Eo by lia. done.
  - rewrite E. apply GetCompact_canonical; [lia|lia|]. fold v. lia.
Qed.

(** C35. The compact form of a target loses nothing but precision: what is
    encoded decodes, without a sign or an overflow, to a target that is never
    larger, smaller by less than one part in 2^15, and has the same compact
    form, so encoding again changes nothing. *)
Theorem compact_roundtrip (x : Z) :
  0 <= x < 2 ^ 256 ->
  exists v, SetCompact (GetCompact x) = (v, false, false) /\ 0 <= v <= x /\ (x - v) * 2 ^ 15 <= v /\
    GetCompact v = GetCompact x.
Proof. apply compact_decode. Qed.

Lemma compact_roundtrip_witness :
  let x := 0x0f0f0f0f0f0f0f0f0f0f0f0f0f0f0f0f0f0f0f0f0f0f0f0f0f0f0f0f0f0f0f0f in
  GetCompact x = 0x200f0f0f /\
  exists v, SetCompact 0x200f0f0f = (v, false, false) /\ 0 <= v <= x /\ (x - v) * 2 ^ 15 <= v /\ GetCompact v = 0x200f0f0f.
Proof.
  split; [reflexivity|].
  change 0x200f0f0f with (GetCompact 0x0f0f0f0f0f0f0f0f0f0f0f0f0f0f0f0f0f0f0f0f0f0f0f0f0f0f0f0f0f0f0f0f).
  apply compact_roundtrip. lia.
Defined.

Lemma target_of_GetCompact x : 0 <= x < 2 ^ 256 -> 0 <= target_of (GetCompact x) <= x.
Proof. intros Hx. destruct (compact_decode x Hx) as (v & E & Hv & _). unfold target_of. by rewrite E. Qed.

Lemma target_of_range nBits : 0 <= nBits -> 0 <= target_of nBits < 2 ^ 256 - 1.
Proof.
  intros Hn. unfold target_of, SetCompact, arith_shl. cbn [fst].
  assert (Hs : 0 <= Z.shiftr nBits 24) by (by apply Z.shiftr_nonneg). set (s := Z.shiftr nBits 24) in *.
  assert (Hw : 0 <= Z.land nBits 0x7fffff < 2 ^ 23).
  { change 0x7fffff with (Z.ones 23). rewrite Z.land_ones by lia. by apply Z.mod_pos_bound. }
  destruct (Z.leb_spec s 3).
  - rewrite Z.shiftr_div_pow2 by lia. pose proof (Z.pow_pos_nonneg 2 (8 * (3 - s)) ltac:(done) ltac:(lia)).
    split; [apply Z.div_pos; lia|]. apply Z.div_lt_upper_bound; [lia|]. nia.
  - set (w := Z.land _ _) in *. pose proof (Z.mod_pos_bound (Z.shiftl w (8 * (s - 3))) (2 ^ 256) ltac:(lia)) as Hb.
    enough (Hodd : Z.odd (Z.shiftl w (8 * (s - 3)) mod 2 ^ 256) = false).
    { split; [lia|]. destruct (Z.eq_dec (Z.shiftl w (8 * (s - 3)) mod 2 ^ 256) (2 ^ 256 - 1)) as [E|]; [|lia].
      by rewrite E in Hodd. }
    rewrite <- Z.bit0_odd, Z.mod_pow2_bits_low by lia. apply Z.shiftl_spec_low. lia.
Qed.

(** * Work *)

Lemma block_proof_value nBits v :
  SetCompact nBits = (v, false, false) -> 0 < v < 2 ^ 256 - 1 -> GetBlockProof nBits = Some (2 ^ 256 / (v + 1)).
Proof.
  intros E Hv. unfold GetBlockProof. rewrite E. cbn [orb]. rewrite (proj2 (Z.eqb_neq v 0)) by lia.
  unfold arith_not, arith_add. rewrite (Z.mod_small (v + 1)), arith_div_spec by lia. cbn [mbind option_bind]. f_equal.
  rewrite <- (Z.div_add _ 1) by lia. replace (2 ^ 256 - 1 - v + 1 * (v + 1)) with (2 ^ 256) by lia.
  apply Z.mod_small. split; [apply Z.div_pos; lia|]. apply Z.div_lt_upper_bound; lia.
Qed.

(** The computation never divides by zero. *)
Lemma block_proof_total nBits : 0 <= nBits -> exists proof, GetBlockProof nBits = Some proof.
Proof.
  intros Hn. pose proof (target_of_range nBits Hn) as Hv. unfold target_of in Hv.
  destruct (SetCompact nBits) as [[v neg] ovf] eqn:E. cbn in Hv. destruct (neg || ovf || (v =? 0)) eqn:Eb.
  - exists 0. unfold GetBlockProof. by rewrite E, Eb.
  - apply orb_false_iff in Eb as [[-> ->]%orb_false_iff Hz%Z.eqb_neq].
    exists (2 ^ 256 / (v + 1)). apply block_proof_value; [done|lia].
Qed.

(** The work of a block is total: for every [nBits] the computation
    divides by a non-zero number, an invalid target counts nothing, and a valid
    one counts 2^256 / (target + 1), between 1 and 2^255, although 2^256 itself
    does not fit the machine type. *)
Theorem block_proof_spec (nBits : Z) :
  0 <= nBits ->
  let '(v, fNegative, fOverflow) := SetCompact nBits in
  if fNegative || fOverflow || (v =? 0) then GetBlockProof nBits = Some 0
  else GetBlockProof nBits = Some (2 ^ 256 / (v + 1)) /\ 1 <= 2 ^ 256 / (v + 1) <= 2 ^ 255.
Proof.
  intros Hn. pose proof (target_of_range nBits Hn) as Hv. unfold target_of in Hv.
  destruct (SetCompact nBits) as [[v neg] ovf] eqn:E. cbn in Hv. destruct (neg || ovf || (v =? 0)) eqn:Eb.
  - unfold GetBlockProof. by rewrite E, Eb.
  - apply orb_false_iff in Eb as [[-> ->]%orb_false_iff Hz%Z.eqb_neq].
    split; [apply block_proof_value; [done|lia]|].
    split; [apply Z.div_le_lower_bound; lia|apply Z.div_le_upper_bound; lia].
Qed.

Lemma block_proof_spec_witness : GetBlockProof 0x200f0f0f = Some 17.
Proof.
  assert (H0 : 0 <= 0x200f0f0f) by lia. pose proof (block_proof_spec 0x200f0f0f H0) as Hp.
  destruct (SetCompact 0x200f0f0f) as [[v n] o] eqn:E. vm_compute in E. injection E as <- <- <-.
  cbn [orb] in Hp. rewrite (proj2 (Z.eqb_neq _ 0)) in Hp by lia. destruct Hp as [-> _]. reflexivity.
Defined.
