(* ===== verification/BlockIndex.v ===== *)
(** The tree of block headers and the active chain (chain.h, chain.cpp, and
    [AddToBlockIndex] of main.cpp).  A [CBlockIndex*] is the hash its entry is
    stored under in [mapBlockIndex]; every dereference is a lookup.  The walk
    back through the skip pointers is shown to reach the same block as one
    that follows the parents, in at most as many steps. *)

From stdpp Require Import gmap list sorting.
From Stdlib Require Import ZArith Lia.
From S2P Require Import Prelude Uint256 Compact.

(** * The index *)

Record CBlockIndex := mkCBlockIndex {
  pprev : option Z;
  pskip : option Z;
  bi_nHeight : Z;
  nChainWork : Z;
  nTime : Z;
  nBits : Z;
}.

Abbreviation BlockMap := (gmap Z CBlockIndex).

(** [InvertLowestOne], [GetSkipHeight]. *)
Definition InvertLowestOne (n : Z) : Z := Z.land n (n - 1).

Definition GetSkipHeight (height : Z) : Z :=
  if height <? 2 then 0
  else if negb (Z.land height 1 =? 0) then InvertLowestOne (InvertLowestOne (height - 1)) + 1
  else InvertLowestOne height.

(** The loop of [GetAncestor]; [None] is a failed assertion, a null
    dereference or more than [fuel] rounds. *)
Fixpoint GetAncestor_loop (fuel : nat) (index : BlockMap) (pindexWalk heightWalk height : Z) : option Z :=
  if heightWalk <=? height then Some pindexWalk
  else
    match fuel with
    | O => None
    | S fuel' =>
      node ← index !! pindexWalk;
      let heightSkip := GetSkipHeight heightWalk in
      let heightSkipPrev := GetSkipHeight (heightWalk - 1) in
      let follow_prev :=
        prev ← pprev node; GetAncestor_loop fuel' index prev (heightWalk - 1) height in
      match pskip node with
      | Some skip =>
        if (heightSkip =? height)
           || ((height <? heightSkip) && negb ((heightSkipPrev <? heightSkip - 2) && (height <=? heightSkipPrev)))
        then GetAncestor_loop fuel' index skip heightSkip height
        else follow_prev
      | None => follow_prev
      end
    end.

(** [CBlockIndex::GetAncestor]: [Some None] is the null pointer. *)
Definition GetAncestor (index : BlockMap) (pindex height : Z) : option (option Z) :=
  node ← index !! pindex;
  if (bi_nHeight node <? height) || (height <? 0) then Some None
  else Some <$> GetAncestor_loop (Z.to_nat (bi_nHeight node - height)) index pindex (bi_nHeight node) height.

(** [mapBlockIndex] and [pindexBestHeader]. *)
Record BlockTree := mkBlockTree { mapBlockIndex : BlockMap; pindexBestHeader : option Z }.

(** [pindexBestHeader] after an entry has been added. *)
Definition best_header (t : BlockTree) (hash work : Z) : option Z :=
  match pindexBestHeader t ≫= fun b => mapBlockIndex t !! b with
  | Some best => if nChainWork best <? work then Some hash else pindexBestHeader t
  | None => Some hash
  end.

(** [AddToBlockIndex] with [BuildSkip]: the new tree and the entry.  The parent is
    looked up in the tree without the new entry; the code inserts the entry
    first, which matters only for a header whose hash is that of its own
    parent.  Heights are not bounded here ([nHeight] is an [int]). *)
Definition AddToBlockIndex (hash hashPrevBlock time bits : Z) (t : BlockTree) : option (BlockTree * Z) :=
  let index := mapBlockIndex t in
  if bool_decide (is_Some (index !! hash)) then Some (t, hash)
  else
    proof ← GetBlockProof bits;
    node ← match index !! hashPrevBlock with
           | Some prev =>
             let height := bi_nHeight prev + 1 in
             skip ← GetAncestor index hashPrevBlock (GetSkipHeight height);
             Some (mkCBlockIndex (Some hashPrevBlock) skip height (arith_add (nChainWork prev) proof) time bits)
           | None => Some (mkCBlockIndex None None 0 (arith_add 0 proof) time bits)
           end;
    Some (mkBlockTree (<[hash := node]> index) (best_header t hash (nChainWork node)), hash).

(** * The reference: following the parents *)

Fixpoint parent (index : BlockMap) (k : nat) (p : Z) : option Z :=
  match k with
  | O => Some p
  | S k' => q ← (index !! p ≫= pprev); parent index k' q
  end.

(** The ancestor of [p] at a height. *)
Definition ancestor (index : BlockMap) (p height : Z) : option Z :=
  node ← index !! p;
  if (bi_nHeight node <? height) || (height <? 0) then None
  else parent index (Z.to_nat (bi_nHeight node - height)) p.

(** The invariant of the index: heights count the parents down to a root at
    height 0, and a skip pointer is the ancestor at the skip height. *)
Definition entry_ok (index : BlockMap) (p : Z) (node : CBlockIndex) : Prop :=
  0 <= bi_nHeight node /\
  match pprev node with
  | None => bi_nHeight node = 0
  | Some q => exists prev, index !! q = Some prev /\ bi_nHeight node = bi_nHeight prev + 1
  end /\
  (forall s, pskip node = Some s -> ancestor index p (GetSkipHeight (bi_nHeight node)) = Some s).

Definition index_ok (index : BlockMap) : Prop := forall p node, index !! p = Some node -> entry_ok index p node.

(** * Skip heights *)

Lemma InvertLowestOne_lt n : 0 < n -> 0 <= InvertLowestOne n < n.
Proof.
  intros Hn. unfold InvertLowestOne. split; [apply Z.land_nonneg; lia|].
  enough (0 <= Z.land n (n - 1) <= n - 1) by lia. apply Z.ldiff_le; [lia|].
  apply Z.bits_inj'. intros i Hi. rewrite Z.ldiff_spec, Z.land_spec, Z.bits_0.
  by destruct (Z.testbit n i), (Z.testbit (n - 1) i).
Qed.

Lemma GetSkipHeight_lt h : 1 <= h -> 0 <= GetSkipHeight h < h.
Proof.
  intros Hh. unfold GetSkipHeight. destruct (Z.ltb_spec h 2); [lia|]. case_match.
  - pose proof (InvertLowestOne_lt (h - 1) ltac:(lia)) as Hi. set (m := InvertLowestOne (h - 1)) in *.
    destruct (Z.eq_dec m 0) as [E|]; [rewrite E; change (InvertLowestOne 0) with 0; lia|].
    pose proof (InvertLowestOne_lt m ltac:(lia)). lia.
  - pose proof (InvertLowestOne_lt h ltac:(lia)). lia.
Qed.

(** * Parents *)

Section walks.
Context (index : BlockMap).

Lemma parent_add k k' p : parent index (k + k') p = parent index k p ≫= parent index k'.
Proof.
  revert p. induction k as [|k IH]; intros p; [done|]. cbn. destruct (index !! p ≫= pprev); [apply IH|done].
Qed.

Lemma ancestor_step p node q prev h :
  index !! p = Some node -> pprev node = Some q -> index !! q = Some prev ->
  bi_nHeight node = bi_nHeight prev + 1 -> h < bi_nHeight node -> ancestor index q h = ancestor index p h.
Proof.
  intros Hp Hq Hprev Hh Hlt. unfold ancestor. rewrite Hp, Hprev. cbn.
  rewrite (proj2 (Z.ltb_ge (bi_nHeight node) h)), (proj2 (Z.ltb_ge (bi_nHeight prev) h)) by lia. cbn.
  destruct (Z.ltb_spec h 0); [done|].
  replace (Z.to_nat (bi_nHeight node - h)) with (S (Z.to_nat (bi_nHeight prev - h))) by lia. cbn.
  by rewrite Hp; cbn; rewrite Hq.
Qed.

Context (Hok : index_ok index).

Lemma parent_height k p node :
  index !! p = Some node -> Z.of_nat k <= bi_nHeight node ->
  exists q node', parent index k p = Some q /\ index !! q = Some node' /\ bi_nHeight node' = bi_nHeight node - Z.of_nat k.
Proof.
  revert p node. induction k as [|k IH]; intros p node Hp Hk.
  { exists p, node. split_and!; [done..|lia]. }
  destruct (Hok p node Hp) as (H0 & Hprev & _). cbn. rewrite Hp. cbn. destruct (pprev node) as [q|]; [|lia]. cbn.
  destruct Hprev as (prev & Hq & Hh). destruct (IH q prev Hq) as (r & node' & Hr & Hn & Hhr); [lia|].
  exists r, node'. split_and!; [done..|lia].
Qed.

Lemma ancestor_some p node h :
  index !! p = Some node -> 0 <= h <= bi_nHeight node ->
  exists q node', ancestor index p h = Some q /\ index !! q = Some node' /\ bi_nHeight node' = h.
Proof.
  intros Hp Hh. unfold ancestor. rewrite Hp. cbn. rewrite (proj2 (Z.ltb_ge _ _)), (proj2 (Z.ltb_ge h 0)) by lia. cbn.
  destruct (parent_height (Z.to_nat (bi_nHeight node - h)) p node Hp) as (q & n' & ? & ? & ?); [lia|].
  exists q, n'. split_and!; [done..|lia].
Qed.

(** An ancestor of an ancestor. *)
Lemma ancestor_trans p node q h h' :
  index !! p = Some node -> h' <= h -> ancestor index p h = Some q -> ancestor index q h' = ancestor index p h'.
Proof.
  intros Hp Hle Hq. unfold ancestor in Hq at 1. rewrite Hp in Hq. cbn in Hq.
  destruct (Z.ltb_spec (bi_nHeight node) h), (Z.ltb_spec h 0); try done. cbn in Hq.
  destruct (parent_height (Z.to_nat (bi_nHeight node - h)) p node Hp) as (q' & n' & Hq' & Hn' & Hh'); [lia|].
  rewrite Hq in Hq'. injection Hq' as <-. unfold ancestor. rewrite Hn', Hp. cbn.
  rewrite (proj2 (Z.ltb_ge (bi_nHeight n') _)), (proj2 (Z.ltb_ge (bi_nHeight node) _)) by lia. cbn.
  destruct (Z.ltb_spec h' 0); [done|].
  replace (Z.to_nat (bi_nHeight node - h')) with (Z.to_nat (bi_nHeight node - h) + Z.to_nat (bi_nHeight n' - h'))%nat by lia.
  by rewrite parent_add, Hq.
Qed.

Lemma ancestor_prev p node q h :
  index !! p = Some node -> pprev node = Some q -> h < bi_nHeight node -> ancestor index q h = ancestor index p h.
Proof.
  intros Hp Hq Hh. destruct (Hok p node Hp) as (H0 & Hprev & _). rewrite Hq in Hprev.
  destruct Hprev as (prev & Hpq & Hhq). by apply (ancestor_step p node q prev).
Qed.

(** The loop: with as much fuel as there are blocks in between, it ends at the
    ancestor. *)
Lemma GetAncestor_loop_spec fuel p node h :
  index !! p = Some node -> 0 <= h <= bi_nHeight node -> bi_nHeight node - h <= Z.of_nat fuel ->
  GetAncestor_loop fuel index p (bi_nHeight node) h = ancestor index p h.
Proof.
  revert p node. induction fuel as [|fuel IH]; intros p node Hp Hh Hf; cbn [GetAncestor_loop].
  all: destruct (Z.leb_spec (bi_nHeight node) h) as [Hle|Hgt]; [|try lia].
  1,2: unfold ancestor; rewrite Hp; cbn; rewrite (proj2 (Z.ltb_ge _ _)), (proj2 (Z.ltb_ge _ 0)) by lia; cbn;
    by replace (Z.to_nat _) with 0%nat by lia.
  rewrite Hp. cbn [mbind option_bind]. destruct (Hok p node Hp) as (H0 & Hprev & Hskip).
  assert (Hfollow : (pprev node ≫= fun prev => GetAncestor_loop fuel index prev (bi_nHeight node - 1) h) = ancestor index p h).
  { destruct (pprev node) as [q|] eqn:Eq; [|lia]. destruct Hprev as (prev & Hq & Hhq). cbn.
    replace (bi_nHeight node - 1) with (bi_nHeight prev) by lia. rewrite (IH q prev) by (done || lia).
    by apply (ancestor_prev p node). }
  destruct (pskip node) as [s|] eqn:Es; [|exact Hfollow]. destruct (_ || _) eqn:Ec; [|exact Hfollow].
  specialize (Hskip s eq_refl). pose proof (GetSkipHeight_lt (bi_nHeight node) ltac:(lia)) as Hsk.
  assert (Hge : h <= GetSkipHeight (bi_nHeight node)).
  { apply orb_true_iff in Ec as [?%Z.eqb_eq|[?%Z.ltb_lt _]%andb_true_iff]; lia. }
  destruct (ancestor_some p node (GetSkipHeight (bi_nHeight node)) Hp ltac:(lia)) as (s' & n' & Hs' & Hn' & Hh').
  rewrite Hskip in Hs'. injection Hs' as <-. rewrite <- Hh' at 1. rewrite (IH s n') by (done || lia).
  by apply (ancestor_trans p node s (GetSkipHeight (bi_nHeight node))).
Qed.
End walks.

(** Looking up an ancestor in an index that satisfies the invariant. *)
Lemma GetAncestor_spec index p node h :
  index_ok index -> index !! p = Some node -> GetAncestor index p h = Some (ancestor index p h).
Proof.
  intros Hok Hp. unfold GetAncestor. rewrite Hp. cbn. destruct (_ || _) eqn:E.
  - unfold ancestor. rewrite Hp. cbn. by rewrite E.
  - apply orb_false_iff in E as [?%Z.ltb_ge ?%Z.ltb_ge]. rewrite (GetAncestor_loop_spec index Hok) by (done || lia).
    destruct (ancestor_some index Hok p node h Hp ltac:(lia)) as (q & ? & -> & _). done.
Qed.

(** * Growing the index *)

(** Entries are never changed, so ancestors are stable. *)
Lemma parent_mono index index' k p q :
  index ⊆ index' -> parent index k p = Some q -> parent index' k p = Some q.
Proof.
  intros Hsub. revert p. induction k as [|k IH]; intros p; [done|]. cbn. destruct (index !! p) as [n|] eqn:E; [|done].
  rewrite (lookup_weaken _ _ _ _ E Hsub). cbn. destruct (pprev n); [apply IH|done].
Qed.

Lemma ancestor_mono index index' p h q : index ⊆ index' -> ancestor index p h = Some q -> ancestor index' p h = Some q.
Proof.
  intros Hsub. unfold ancestor. destruct (index !! p) as [n|] eqn:E; [|done].
  rewrite (lookup_weaken _ _ _ _ E Hsub). cbn. case_match; [done|]. by apply parent_mono.
Qed.

Lemma entry_ok_mono index index' p node : index ⊆ index' -> entry_ok index p node -> entry_ok index' p node.
Proof.
  intros Hsub (H0 & Hprev & Hskip). split; [done|]. split.
  - destruct (pprev node); [|done]. destruct Hprev as (prev & ? & ?). exists prev. split; [by eapply lookup_weaken|done].
  - intros s Hs. eapply ancestor_mono; [done|by apply Hskip].
Qed.

(** The best header has the most work. *)
Definition best_ok (t : BlockTree) : Prop :=
  match pindexBestHeader t with
  | None => mapBlockIndex t = ∅
  | Some b => exists best, mapBlockIndex t !! b = Some best /\
      forall p node, mapBlockIndex t !! p = Some node -> nChainWork node <= nChainWork best
  end.

Record tree_ok (t : BlockTree) : Prop := {
  tree_index : index_ok (mapBlockIndex t);
  tree_best : best_ok t;
}.

Lemma best_header_ok t hash node :
  mapBlockIndex t !! hash = None -> best_ok t ->
  best_ok (mkBlockTree (<[hash := node]> (mapBlockIndex t)) (best_header t hash (nChainWork node))).
Proof.
  intros Hnew Hbest. unfold best_ok, best_header in *. cbn in *. destruct (pindexBestHeader t) as [b|]; cbn.
  - destruct Hbest as (best & Hb & Hmax). rewrite Hb.
    assert (Hne : hash <> b) by (intros ->; by rewrite Hb in Hnew). destruct (Z.ltb_spec (nChainWork best) (nChainWork node)).
    + exists node. rewrite lookup_insert_eq. split; [done|]. intros p n [[<- <-]|[_ Hp]]%lookup_insert_Some; [lia|].
      specialize (Hmax _ _ Hp). lia.
    + exists best. rewrite lookup_insert_ne by done. split; [done|].
      intros p n [[<- <-]|[_ Hp]]%lookup_insert_Some; [lia|by apply (Hmax p)].
  - rewrite Hbest. exists node. rewrite lookup_insert_eq. split; [done|].
    intros p n [[<- <-]|[_ Hp]]%lookup_insert_Some; [lia|by rewrite lookup_empty in Hp].
Qed.

Lemma AddToBlockIndex_spec hash hashPrev time bits t :
  0 <= bits -> tree_ok t -> exists t', AddToBlockIndex hash hashPrev time bits t = Some (t', hash) /\ tree_ok t'.
Proof.
  intros Hbits [Hok Hbest]. unfold AddToBlockIndex. cbv zeta. set (index := mapBlockIndex t) in *.
  case_bool_decide as Hin; [by exists t|].
  assert (Hnew : index !! hash = None) by (by apply eq_None_not_Some).
  assert (Hsub : forall n, index ⊆ <[hash := n]> index) by (intros n; by apply insert_subseteq).
  assert (Hins : forall n, entry_ok (<[hash := n]> index) hash n ->
    tree_ok (mkBlockTree (<[hash := n]> index) (best_header t hash (nChainWork n)))).
  { intros n Hn. split; [|by apply best_header_ok]. cbn. intros p node [[<- <-]|[_ Hp]]%lookup_insert_Some; [done|].
    eapply entry_ok_mono; [apply Hsub|by apply Hok]. }
  destruct (block_proof_total bits Hbits) as [proof Hproof]. rewrite Hproof. cbn [mbind option_bind].
  destruct (index !! hashPrev) as [prev|] eqn:Ep.
  - rewrite (GetAncestor_spec index hashPrev prev) by done. cbn [mbind option_bind]. eexists. split; [done|].
    apply Hins. destruct (Hok _ _ Ep) as (H0 & _). split; [cbn; lia|]. split.
    + cbn. exists prev. split; [by eapply lookup_weaken|done].
    + cbn. intros s Hs. set (n := mkCBlockIndex _ _ _ _ _ _). pose proof (GetSkipHeight_lt (bi_nHeight prev + 1) ltac:(lia)).
      rewrite <- (ancestor_step (<[hash := n]> index) hash n hashPrev prev);
        [eapply ancestor_mono; [apply Hsub|exact Hs]|by rewrite lookup_insert_eq|done|by eapply lookup_weaken|done|cbn; lia].
  - eexists. split; [done|]. apply Hins. split; [cbn; lia|]. by split.
Qed.

(** The tree a node builds from a sequence of headers. *)
Record Header := mkHeader { hd_hash : Z; hd_hashPrevBlock : Z; hd_nTime : Z; hd_nBits : Z }.

Definition add_header (t : option BlockTree) (h : Header) : option BlockTree :=
  t ← t; fst <$> AddToBlockIndex (hd_hash h) (hd_hashPrevBlock h) (hd_nTime h) (hd_nBits h) t.

Definition build_tree (headers : list Header) : option BlockTree := foldl add_header (Some (mkBlockTree ∅ None)) headers.

Lemma build_tree_ok headers :
  Forall (fun h => 0 <= hd_nBits h) headers -> exists t, build_tree headers = Some t /\ tree_ok t.
Proof.
  intros Hh. unfold build_tree.
  assert (Hgo : forall t, tree_ok t -> exists t', foldl add_header (Some t) headers = Some t' /\ tree_ok t').
  { induction Hh as [|h headers Hb _ IH]; intros t Hok; [by exists t|]. cbn [foldl add_header].
    destruct (AddToBlockIndex_spec (hd_hash h) (hd_hashPrevBlock h) (hd_nTime h) (hd_nBits h) t Hb Hok)
      as (t' & E & Hok'). unfold add_header at 2. cbn. rewrite E. cbn. by apply IH. }
  apply Hgo. split; [|done]. cbn. intros p node Hp. by rewrite lookup_empty in Hp.
Qed.

(** C27. Skip pointers are sound: in the tree built from any headers, in any
    order, [GetAncestor] always returns, without a failed assertion and within
    as many rounds as there are blocks in between, and the block it returns is
    the one reached by following the parents; and the best header has the most
    work of all. *)
Theorem get_ancestor_follows_parents (headers : list Header) :
  Forall (fun h => 0 <= hd_nBits h) headers ->
  exists t, build_tree headers = Some t /\ best_ok t /\
  forall p node h, mapBlockIndex t !! p = Some node ->
    GetAncestor (mapBlockIndex t) p h = Some (ancestor (mapBlockIndex t) p h) /\
    (0 <= h <= bi_nHeight node ->
     exists q n, ancestor (mapBlockIndex t) p h = Some q /\ mapBlockIndex t !! q = Some n /\ bi_nHeight n = h).
Proof.
  intros Hh. destruct (build_tree_ok headers Hh) as (t & E & [Hok Hbest]). exists t. split; [done|]. split; [done|].
  intros p node h Hp. split; [by apply GetAncestor_spec with node|]. by apply ancestor_some.
Qed.

(** * The active chain *)

(** [CChain::vChain]; a null entry is [None]. *)
Abbreviation CChain := (list (option Z)).

Definition Tip (chain : CChain) : option Z := default None (last chain).
Definition Height (chain : CChain) : Z := Z.of_nat (length chain) - 1.
Definition at_height (chain : CChain) (h : Z) : option Z :=
  if (h <? 0) || (Z.of_nat (length chain) <=? h) then None else default None (chain !! Z.to_nat h).

(** [Contains]; the outer [None] is a null dereference. *)
Definition Contains (index : BlockMap) (chain : CChain) (p : Z) : option bool :=
  node ← index !! p; Some (bool_decide (at_height chain (bi_nHeight node) = Some p)).

Fixpoint SetTip_loop (fuel : nat) (index : BlockMap) (chain : CChain) (pindex : option Z) : option CChain :=
  match pindex with
  | None => Some chain
  | Some p =>
    node ← index !! p;
    if bool_decide (chain !! Z.to_nat (bi_nHeight node) = Some (Some p)) then Some chain
    else
      match fuel with
      | O => None
      | S fuel' => SetTip_loop fuel' index (<[Z.to_nat (bi_nHeight node) := Some p]> chain) (pprev node)
      end
  end.

(** [CChain::SetTip]. *)
Definition SetTip (index : BlockMap) (pindex : option Z) (chain : CChain) : option CChain :=
  match pindex with
  | None => Some []
  | Some p =>
    node ← index !! p;
    let size := Z.to_nat (bi_nHeight node + 1) in
    SetTip_loop size index (resize size None chain) pindex
  end.

Fixpoint FindFork_loop (fuel : nat) (index : BlockMap) (chain : CChain) (pindex : option Z) : option (option Z) :=
  match pindex with
  | None => Some None
  | Some p =>
    inside ← Contains index chain p;
    if (inside : bool) then Some (Some p)
    else match fuel with
         | O => None
         | S fuel' => node ← index !! p; FindFork_loop fuel' index chain (pprev node)
         end
  end.

(** [CChain::FindFork]. *)
Definition FindFork (index : BlockMap) (chain : CChain) (pindex : Z) : option (option Z) :=
  node ← index !! pindex;
  start ← (if Height chain <? bi_nHeight node then GetAncestor index pindex (Height chain) else Some (Some pindex));
  FindFork_loop (S (Z.to_nat (bi_nHeight node))) index chain start.

Fixpoint GetLocator_loop (fuel : nat) (index : BlockMap) (chain : CChain) (pindex : option Z) (nStep : Z)
    (vHave : list Z) : option (list Z) :=
  match pindex with
  | None => Some vHave
  | Some p =>
    node ← index !! p;
    let vHave := vHave ++ [p] in
    if bi_nHeight node =? 0 then Some vHave
    else
      let nHeight := Z.max (i32 (bi_nHeight node - nStep)) 0 in
      inside ← Contains index chain p;
      next ← (if (inside : bool) then Some (at_height chain nHeight) else GetAncestor index p nHeight);
      match fuel with
      | O => None
      | S fuel' =>
        GetLocator_loop fuel' index chain next (if (10 <? length vHave)%nat then i32 (nStep * 2) else nStep) vHave
      end
  end.

(** [CChain::GetLocator]; the locator holds hashes, which are the pointers. *)
Definition GetLocator (index : BlockMap) (chain : CChain) (pindex : option Z) : option (list Z) :=
  let pindex := match pindex with Some p => Some p | None => Tip chain end in
  let height := match pindex with Some p => default 0 (bi_nHeight <$> index !! p) | None => 0 end in
  GetLocator_loop (Z.to_nat height) index chain pindex 1 [].

(** The chain of a block: every position holds the ancestor at that height. *)
Definition chain_of (index : BlockMap) (p : Z) (chain : CChain) : Prop :=
  exists node, index !! p = Some node /\ Z.of_nat (length chain) = bi_nHeight node + 1 /\
  forall j, (j < length chain)%nat -> chain !! j = Some (ancestor index p (Z.of_nat j)).

Definition chain_ok (index : BlockMap) (chain : CChain) : Prop :=
  chain = [] \/ exists p, chain_of index p chain.

Section chain.
Context (index : BlockMap) (Hok : index_ok index).

Lemma ancestor_self p node : index !! p = Some node -> ancestor index p (bi_nHeight node) = Some p.
Proof.
  intros Hp. destruct (Hok p node Hp) as (H0 & _). unfold ancestor. rewrite Hp. cbn.
  rewrite Z.ltb_irrefl, (proj2 (Z.ltb_ge _ 0)) by lia. cbn. by replace (Z.to_nat _) with 0%nat by lia.
Qed.

(** What the loop may find below the height it has reached: nothing, or a block
    above all its ancestors. *)
Definition closed_below (chain : CChain) (k : nat) : Prop :=
  forall i q, (i <= k)%nat -> chain !! i = Some (Some q) ->
  forall j, (j <= i)%nat -> chain !! j = Some (ancestor index q (Z.of_nat j)).

Lemma SetTip_loop_spec fuel chain p node :
  index !! p = Some node -> bi_nHeight node < Z.of_nat fuel -> bi_nHeight node < Z.of_nat (length chain) ->
  closed_below chain (Z.to_nat (bi_nHeight node)) ->
  exists chain', SetTip_loop fuel index chain (Some p) = Some chain' /\ length chain' = length chain /\
    (forall j, Z.of_nat j <= bi_nHeight node -> chain' !! j = Some (ancestor index p (Z.of_nat j))) /\
    (forall j, bi_nHeight node < Z.of_nat j -> chain' !! j = chain !! j).
Proof.
  revert chain p node. induction fuel as [|fuel IH]; intros chain p node Hp Hf Hlen Hcl;
    destruct (Hok p node Hp) as (H0 & Hprev & _); [lia|].
  cbn. rewrite Hp. cbn. case_bool_decide as Hstop.
  { exists chain. split_and!; [done|done| |done]. intros j Hj. apply (Hcl _ _ (le_n _) Hstop). lia. }
  set (k := Z.to_nat (bi_nHeight node)) in *. set (chain1 := <[k := Some p]> chain).
  assert (Hk : chain1 !! k = Some (ancestor index p (Z.of_nat k))).
  { unfold chain1. rewrite list_lookup_insert_eq by lia. unfold k. rewrite Z2Nat.id by lia. by rewrite ancestor_self. }
  destruct (pprev node) as [q|] eqn:Eq.
  - destruct Hprev as (prev & Hq & Hh). destruct (Hok q prev Hq) as (Hq0 & _).
    destruct (IH chain1 q prev Hq) as (chain' & Hrun & Hl & Hlo & Hhi).
    + lia.
    + unfold chain1. rewrite length_insert. lia.
    + intros i r Hi Hr j Hj. unfold chain1 in *. rewrite list_lookup_insert_ne in Hr |- * by lia.
      apply (Hcl i); [lia|done|lia].
    + exists chain'. split; [done|]. split; [rewrite Hl; apply length_insert|]. split.
      * intros j Hj. destruct (Z.eq_dec (Z.of_nat j) (bi_nHeight node)) as [E|Hne].
        -- rewrite Hhi by lia. by replace j with k by lia.
        -- rewrite Hlo by lia. f_equal. by apply (ancestor_prev index Hok p node); [..|lia].
      * intros j Hj. rewrite Hhi by lia. unfold chain1. by rewrite list_lookup_insert_ne by lia.
  - exists chain1. destruct fuel; cbn. all: split_and!; [done|apply length_insert|intros j Hj; by replace j with k by lia|].
    all: intros j Hj; unfold chain1; by rewrite list_lookup_insert_ne by lia.
Qed.

Lemma chain_of_closed p chain k : chain_of index p chain -> (k < length chain)%nat -> closed_below chain k.
Proof.
  intros (node & Hp & Hlen & Hch) Hk i q Hi Hq j Hj. rewrite Hch in Hq |- * by lia. injection Hq as Hq. f_equal.
  symmetry. apply (ancestor_trans index Hok p node q (Z.of_nat i)); [done|lia|done].
Qed.

Lemma SetTip_spec p node chain :
  index !! p = Some node -> chain_ok index chain ->
  exists chain', SetTip index (Some p) chain = Some chain' /\ chain_of index p chain'.
Proof.
  intros Hp Hc. destruct (Hok p node Hp) as (H0 & _). unfold SetTip. rewrite Hp. cbn.
  set (size := Z.to_nat (bi_nHeight node + 1)). set (chain0 := resize size None chain).
  assert (Hlen : length chain0 = size) by apply length_resize.
  destruct (SetTip_loop_spec size chain0 p node Hp) as (chain' & Hrun & Hl & Hlo & _); [lia|lia| |].
  - intros i q Hi Hq j Hj. destruct Hc as [->|[tip Htip]].
    { unfold chain0 in Hq. rewrite resize_nil, lookup_replicate in Hq. by destruct Hq. }
    destruct (decide (i < length chain)%nat) as [Hlt|Hge].
    + unfold chain0 in *. rewrite lookup_resize in Hq by lia. rewrite lookup_resize by lia.
      by apply (chain_of_closed tip chain i Htip Hlt i q).
    + unfold chain0 in Hq. rewrite lookup_resize_new in Hq by lia. done.
  - exists chain'. split; [done|]. exists node. split_and!; [done|lia|]. intros j Hj. apply Hlo. lia.
Qed.

Lemma at_height_chain p chain h :
  chain_of index p chain -> at_height chain h = if (h <? 0) || (Height chain <? h) then None else ancestor index p h.
Proof.
  intros (node & Hp & Hlen & Hch). unfold at_height, Height.
  destruct (Z.ltb_spec h 0), (Z.leb_spec (Z.of_nat (length chain)) h), (Z.ltb_spec (Z.of_nat (length chain) - 1) h); try (done || lia).
  cbn. rewrite Hch by lia. cbn. by rewrite Z2Nat.id by lia.
Qed.

(** The heights at which two blocks have the same ancestor. *)
Definition common (p tip h : Z) : Prop := exists q, ancestor index p h = Some q /\ ancestor index tip h = Some q.

Lemma Contains_spec p node tip chain :
  index !! p = Some node -> chain_of index tip chain ->
  Contains index chain p = Some (bool_decide (ancestor index tip (bi_nHeight node) = Some p)).
Proof.
  intros Hp Hc. unfold Contains. rewrite Hp. cbn. f_equal. apply bool_decide_ext. rewrite (at_height_chain tip) by done.
  destruct (Hok p node Hp) as (H0 & _). rewrite (proj2 (Z.ltb_ge (bi_nHeight node) 0)) by lia. cbn.
  destruct (Z.ltb_spec (Height chain) (bi_nHeight node)) as [Hlt|]; [|done]. split; [done|]. intros Ha.
  destruct Hc as (ntip & Htip & Hlen & _). unfold Height in Hlt. unfold ancestor in Ha. rewrite Htip in Ha. cbn in Ha.
  by rewrite (proj2 (Z.ltb_lt _ _)) in Ha by lia.
Qed.

Lemma ancestor_range p node h q : index !! p = Some node -> ancestor index p h = Some q -> 0 <= h <= bi_nHeight node.
Proof.
  intros Hp. unfold ancestor. rewrite Hp. cbn. destruct (Z.ltb_spec (bi_nHeight node) h), (Z.ltb_spec h 0); done || lia.
Qed.

(** The outcome of the search from [p]: the highest common ancestor. *)
Definition fork_of (p tip : Z) (r : option Z) : Prop :=
  match r with
  | Some f => exists n, index !! f = Some n /\ ancestor index p (bi_nHeight n) = Some f /\
      ancestor index tip (bi_nHeight n) = Some f /\ forall h, bi_nHeight n < h -> ~ common p tip h
  | None => forall h, ~ common p tip h
  end.

Lemma FindFork_loop_spec fuel tip chain p node :
  chain_of index tip chain -> index !! p = Some node -> bi_nHeight node < Z.of_nat fuel ->
  exists r, FindFork_loop fuel index chain (Some p) = Some r /\ fork_of p tip r.
Proof.
  intros Hc. revert p node. induction fuel as [|fuel IH]; intros p node Hp Hf;
    destruct (Hok p node Hp) as (H0 & Hprev & _); [lia|].
  cbn. rewrite (Contains_spec p node tip) by done. cbn. case_bool_decide as Hin.
  { exists (Some p). split; [done|]. exists node. split_and!; [done|by apply ancestor_self|done|].
    intros h Hh [q [Hq _]]. apply (ancestor_range p node) in Hq; [lia|done]. }
  assert (Hself : ~ common p tip (bi_nHeight node)) by (intros [q [Hq1 Hq2]]; rewrite ancestor_self in Hq1 by done; naive_solver).
  rewrite Hp. cbn. destruct (pprev node) as [q|] eqn:Eq.
  - destruct Hprev as (prev & Hq & Hh). destruct (IH q prev Hq) as (r & Hr & Hfork); [lia|]. exists r. split; [done|].
    assert (Hup : forall h, common p tip h -> common q tip h).
    { intros h Hcom. destruct Hcom as [a [Ha1 Ha2]]. pose proof (ancestor_range p node h a Hp Ha1) as Hrange.
      destruct (Z.eq_dec h (bi_nHeight node)) as [->|]; [destruct Hself; by exists a|].
      exists a. split; [|done]. rewrite <- Ha1. apply (ancestor_prev index Hok p node); [done|done|lia]. }
    destruct r as [f|]; cbn in *; [|intros h Hcom; by apply (Hfork h), Hup].
    destruct Hfork as (n & Hn & Ha & Ht & Hmax). exists n. split_and!; [done| |done|].
    + rewrite <- Ha. symmetry. apply (ancestor_prev index Hok p node); [done..|].
      apply (ancestor_range q prev) in Ha; [lia|done].
    + intros h Hlt Hcom. by apply (Hmax h Hlt), Hup.
  - exists None. destruct fuel; cbn; (split; [done|]); intros h [a [Ha1 Ha2]];
      pose proof (ancestor_range p node h a Hp Ha1); apply Hself; exists a; by replace (bi_nHeight node) with h by lia.
Qed.

Lemma FindFork_spec tip chain p node :
  chain_of index tip chain -> index !! p = Some node ->
  exists r, FindFork index chain p = Some r /\ fork_of p tip r.
Proof.
  intros Hc Hp. destruct (Hok p node Hp) as (H0 & _). unfold FindFork. rewrite Hp. cbn [mbind option_bind].
  destruct (Z.ltb_spec (Height chain) (bi_nHeight node)) as [Hlt|Hge]; cbn [mbind option_bind].
  2: { apply (FindFork_loop_spec _ tip chain p node); [done|done|lia]. }
  rewrite (GetAncestor_spec index p node) by done. cbn [mbind option_bind].
  pose proof Hc as (ntip & Htip & Hlen & _). destruct (Hok tip ntip Htip) as (Ht0 & _). unfold Height in *.
  destruct (ancestor_some index Hok p node (Z.of_nat (length chain) - 1) Hp ltac:(lia)) as (q & nq & Ha & Hq & Hhq).
  rewrite Ha. destruct (FindFork_loop_spec (S (Z.to_nat (bi_nHeight node))) tip chain q nq) as (r & Hr & Hfork); [done..|lia|].
  exists r. split; [done|]. assert (Hsame : forall h, h <= bi_nHeight nq -> ancestor index q h = ancestor index p h).
  { intros h Hh. by apply (ancestor_trans index Hok p node q (bi_nHeight nq)); [done|lia|rewrite Hhq]. }
  assert (Hup : forall h, common p tip h -> common q tip h).
  { intros h [a [Ha1 Ha2]]. exists a. split; [|done]. rewrite Hsame; [done|]. apply (ancestor_range tip ntip) in Ha2; [lia|done]. }
  destruct r as [f|]; cbn in *; [|intros h Hcom; by apply (Hfork h), Hup].
  destruct Hfork as (n & Hn & Hfa & Ht & Hmax). exists n. split_and!; [done| |done|intros h Hh Hcom; by apply (Hmax h Hh), Hup].
  rewrite <- Hsame; [done|]. apply (ancestor_range q nq) in Hfa; [lia|done].
Qed.

(** The heights a locator visits from [h] on, after [n] entries. *)
Fixpoint locator_heights (fuel : nat) (h nStep : Z) (n : nat) : list Z :=
  h :: if h =? 0 then []
       else match fuel with
            | O => []
            | S fuel' => locator_heights fuel' (Z.max (h - nStep) 0) (if (10 <? S n)%nat then nStep * 2 else nStep) (S n)
            end.

Lemma locator_heights_sorted fuel h nStep n :
  0 <= h <= Z.of_nat fuel -> 1 <= nStep ->
  let hs := locator_heights fuel h nStep n in
  StronglySorted Z.gt hs /\ last hs = Some 0 /\ Forall (fun x => 0 <= x <= h) hs.
Proof.
  revert h nStep n. induction fuel as [|fuel IH]; intros h nStep n Hh Hs; cbn [locator_heights].
  - replace h with 0 by lia. cbn. split_and!; repeat constructor; lia.
  - destruct (Z.eqb_spec h 0) as [->|Hne]; [split_and!; repeat constructor; lia|].
    destruct (IH (Z.max (h - nStep) 0) (if (10 <? S n)%nat then nStep * 2 else nStep) (S n)) as (Hsort & Hlast & Hall);
      [lia|case_match; lia|]. cbv zeta. split_and!.
    + constructor; [done|]. eapply Forall_impl; [done|]. cbn. lia.
    + destruct (locator_heights fuel _ _ _); [done|]. by rewrite last_cons_cons.
    + constructor; [lia|]. eapply Forall_impl; [done|]. cbn. lia.
Qed.

Lemma GetLocator_loop_spec fuel tip chain p node nStep vHave :
  chain_of index tip chain -> index !! p = Some node -> bi_nHeight node <= Z.of_nat fuel ->
  1 <= nStep -> bi_nHeight node + nStep <= 2 ^ 31 ->
  exists hs, GetLocator_loop fuel index chain (Some p) nStep vHave = Some (vHave ++ hs) /\
    map Some hs = map (ancestor index p) (locator_heights fuel (bi_nHeight node) nStep (length vHave)).
Proof.
  intros Hc. revert p node nStep vHave. induction fuel as [|fuel IH]; intros p node nStep vHave Hp Hf Hs Hb;
    destruct (Hok p node Hp) as (H0 & _); cbn [GetLocator_loop locator_heights]; rewrite Hp; cbn [mbind option_bind].
  { assert (Hz : bi_nHeight node = 0) by lia. pose proof (ancestor_self p node Hp) as Ha. rewrite Hz in *.
    exists [p]. split; [done|]. cbn. by rewrite Ha. }
  destruct (Z.eqb_spec (bi_nHeight node) 0) as [Hz|Hne].
  { exists [p]. split; [done|]. cbn. by rewrite ancestor_self. }
  rewrite (Contains_spec p node tip) by done. cbn [mbind option_bind]. rewrite (i32_small (bi_nHeight node - nStep)) by (unfold in_i32; lia).
  set (h := Z.max (bi_nHeight node - nStep) 0).
  destruct (ancestor_some index Hok p node h Hp ltac:(lia)) as (q & nq & Ha & Hq & Hhq).
  assert (Hnext : (if bool_decide (ancestor index tip (bi_nHeight node) = Some p)
                   then Some (at_height chain h) else GetAncestor index p h) = Some (Some q)).
  { case_bool_decide as Hin; [|by rewrite (GetAncestor_spec index p node), Ha].
    pose proof Hc as (ntip & Htip & Hlen & _). f_equal. rewrite (at_height_chain tip) by done.
    pose proof (ancestor_range tip ntip _ _ Htip Hin) as Hr. unfold Height.
    rewrite (proj2 (Z.ltb_ge h 0)), (proj2 (Z.ltb_ge _ h)) by lia. cbn. rewrite <- Ha. symmetry.
    apply (ancestor_trans index Hok tip ntip p (bi_nHeight node)); [done|lia|done]. }
  rewrite Hnext. cbn [mbind option_bind]. rewrite length_app, Nat.add_1_r.
  set (nStep' := if (10 <? S (length vHave))%nat then nStep * 2 else nStep).
  assert (Hs' : 1 <= nStep' <= nStep * 2) by (unfold nStep'; destruct (10 <? S (length vHave))%nat; lia).
  destruct (Z.eq_dec h 0) as [Eh|Hh].
  { exists [p; q]. assert (Hstop : forall st, GetLocator_loop fuel index chain (Some q) st (vHave ++ [p]) = Some ((vHave ++ [p]) ++ [q])).
    { intros st. destruct fuel; cbn; rewrite Hq; cbn; by rewrite Hhq, Eh. }
    rewrite Hstop, <- (assoc_L (++)). split; [done|]. cbn [map]. rewrite ancestor_self by done. f_equal.
    replace (locator_heights fuel h nStep' (S (length vHave))) with [0] by (rewrite Eh; by destruct fuel).
    cbn. by rewrite <- Ha, Eh. }
  replace (if (10 <? S (length vHave))%nat then i32 (nStep * 2) else nStep) with nStep'.
  2: { unfold nStep'. destruct (10 <? S (length vHave))%nat; [|done]. symmetry. apply i32_small. unfold in_i32. lia. }
  destruct (IH q nq nStep' (vHave ++ [p])) as (hs & Hrun & Hmap); [done|lia|lia|lia|].
  exists (p :: hs). rewrite Hrun, <- (assoc_L (++)). split; [done|]. cbn [map]. rewrite ancestor_self, Hmap by done. f_equal.
  rewrite Hhq, length_app, Nat.add_1_r. apply List.map_ext_in. intros x Hx%list_elem_of_In.
  destruct (locator_heights_sorted fuel h nStep' (S (length vHave))) as (_ & _ & Hall); [lia|lia|].
  rewrite Forall_forall in Hall. specialize (Hall x Hx).
  apply (ancestor_trans index Hok p node q h); [done|lia|done].
Qed.
End chain.

Lemma build_tree_inv headers t :
  Forall (fun h => 0 <= hd_nBits h) headers -> build_tree headers = Some t -> index_ok (mapBlockIndex t).
Proof. intros Hh E. destruct (build_tree_ok headers Hh) as (t' & E' & [Hok _]). rewrite E in E'. by injection E' as <-. Qed.

(** The compact targets of the entries are those of the headers. *)
Lemma build_tree_bits headers t :
  Forall (fun h => 0 <= hd_nBits h) headers -> build_tree headers = Some t ->
  forall p node, mapBlockIndex t !! p = Some node -> 0 <= nBits node.
Proof.
  set (bits_ok t := forall p node, mapBlockIndex t !! p = Some node -> 0 <= nBits node). intros Hh. fold (bits_ok t).
  assert (Hgo : forall t0, bits_ok t0 -> foldl add_header (Some t0) headers = Some t -> bits_ok t).
  { induction Hh as [|h headers Hb _ IH]; intros t0 H0 Hr; [by injection Hr as <-|].
    cbn [foldl] in Hr. destruct (add_header (Some t0) h) as [t1|] eqn:E1.
    2: { exfalso. clear -Hr. induction headers; [done|]. auto. }
    apply (IH t1); [|exact Hr]. unfold add_header, AddToBlockIndex in E1. cbn -[GetBlockProof GetAncestor] in E1. case_bool_decide; [by injection E1 as <-|].
    destruct (GetBlockProof (hd_nBits h)); [|done]. cbn -[GetBlockProof GetAncestor] in E1.
    assert (Hins : forall n b, nBits n = hd_nBits h -> bits_ok (mkBlockTree (<[hd_hash h := n]> (mapBlockIndex t0)) b)).
    { intros n b Hn q node. cbn. intros [[_ <-]|[_ Hq]]%lookup_insert_Some; [by rewrite Hn|by apply (H0 q)]. }
    destruct (mapBlockIndex t0 !! hd_hashPrevBlock h); cbn -[GetBlockProof GetAncestor] in E1; [destruct (GetAncestor _ _ _); [|done]|];
      cbn -[GetBlockProof GetAncestor] in E1; injection E1 as <-; by apply Hins. }
  apply Hgo. intros p node. cbn. by rewrite lookup_empty.
Qed.

(** The active chain after moving the tip a number of times. *)
Definition set_tips (index : BlockMap) (tips : list Z) : option CChain :=
  foldl (fun chain p => c ← chain; SetTip index (Some p) c) (Some []) tips.

Lemma set_tips_spec index tips tip :
  index_ok index -> Forall (fun p => is_Some (index !! p)) (tips ++ [tip]) ->
  exists chain, set_tips index (tips ++ [tip]) = Some chain /\ chain_of index tip chain.
Proof.
  intros Hok. revert tip. induction tips as [|t tips IH] using rev_ind; intros tip Htips.
  - cbn in *. apply Forall_cons in Htips as [[node Hp] _]. apply (SetTip_spec index Hok tip node []); [done|by left].
  - apply Forall_app in Htips as [Htips [[node Hp] _]%Forall_cons]. destruct (IH t Htips) as (chain & Hc & Hof).
    unfold set_tips in *. rewrite foldl_app, Hc. cbn [foldl mbind option_bind].
    apply (SetTip_spec index Hok tip node chain); [done|right; by exists t].
Qed.

(** C28. Reorganisations keep the active chain exact: however often the tip is
    moved between branches, [SetTip], which stops at the first block it finds in
    place, leaves at every height the ancestor of the new tip and nothing above
    it. *)
Theorem reorganisation_keeps_chain (headers : list Header) (t : BlockTree) (tips : list Z) (tip : Z) :
  Forall (fun h => 0 <= hd_nBits h) headers -> build_tree headers = Some t ->
  Forall (fun p => is_Some (mapBlockIndex t !! p)) (tips ++ [tip]) ->
  exists chain, set_tips (mapBlockIndex t) (tips ++ [tip]) = Some chain /\ chain_of (mapBlockIndex t) tip chain.
Proof. intros Hh E. apply set_tips_spec. by apply (build_tree_inv headers). Qed.

(** [FindFork] returns the last common block: the block returned is an
    ancestor of the given block and on the active chain, and at no greater
    height do the two agree; it returns none exactly when they share nothing. *)
Theorem find_fork_is_last_common (headers : list Header) (t : BlockTree) (tip : Z) (chain : CChain) (p : Z) :
  Forall (fun h => 0 <= hd_nBits h) headers -> build_tree headers = Some t ->
  chain_of (mapBlockIndex t) tip chain -> is_Some (mapBlockIndex t !! p) ->
  exists r, FindFork (mapBlockIndex t) chain p = Some r /\ fork_of (mapBlockIndex t) p tip r.
Proof. intros Hh E Hc [node Hp]. apply (FindFork_spec (mapBlockIndex t) (build_tree_inv headers t Hh E) tip chain p node Hc Hp). Qed.

(** Locators end at the genesis block: for a block below height 2^31 - 1
    [GetLocator] returns, the step never overflows, and the locator lists
    ancestors of the block at strictly decreasing heights, from the block itself
    down to height 0. *)
Theorem locator_reaches_genesis (headers : list Header) (t : BlockTree) (tip : Z) (chain : CChain) (p : Z)
    (node : CBlockIndex) :
  Forall (fun h => 0 <= hd_nBits h) headers -> build_tree headers = Some t ->
  chain_of (mapBlockIndex t) tip chain -> mapBlockIndex t !! p = Some node -> bi_nHeight node < 2 ^ 31 - 1 ->
  exists hs heights, GetLocator (mapBlockIndex t) chain (Some p) = Some hs /\ map Some hs = map (ancestor (mapBlockIndex t) p) heights /\
    head heights = Some (bi_nHeight node) /\ last heights = Some 0 /\ StronglySorted Z.gt heights.
Proof.
  intros Hh E Hc Hp Hb. pose proof (build_tree_inv headers t Hh E) as Hok. destruct (Hok p node Hp) as (H0 & _).
  unfold GetLocator. rewrite Hp. cbn [fmap option_fmap option_map default]. set (fuel := Z.to_nat (bi_nHeight node)).
  destruct (GetLocator_loop_spec (mapBlockIndex t) Hok fuel tip chain p node 1 []) as (hs & Hrun & Hmap); [done|done|lia|lia|lia|].
  destruct (locator_heights_sorted fuel (bi_nHeight node) 1 0) as (Hs & Hl & _); [lia|lia|].
  exists hs, (locator_heights fuel (bi_nHeight node) 1 0). split_and!; [done|done| |done|done]. by destruct fuel.
Qed.

(** * Concrete instances *)

(** A trunk 1, 2, 3 that forks into 4, 5 and 14, 15, 16. *)
Definition sample_headers : list Header :=
  map (fun '(h, p) => mkHeader h p (100 * h) 0x200f0f0f)
    [(1, 0); (2, 1); (3, 2); (4, 3); (14, 3); (5, 4); (15, 14); (16, 15)].
Definition sample_tree : BlockTree := default (mkBlockTree ∅ None) (build_tree sample_headers).
Definition sample_index : BlockMap := mapBlockIndex sample_tree.

Lemma sample_bits : Forall (fun h => 0 <= hd_nBits h) sample_headers.
Proof. repeat constructor; cbn; lia. Qed.

Lemma sample_tree_built : build_tree sample_headers = Some sample_tree.
Proof. vm_compute. reflexivity. Qed.

Lemma get_ancestor_follows_parents_witness :
  exists t, build_tree sample_headers = Some t /\ best_ok t /\
  forall p node h, mapBlockIndex t !! p = Some node ->
    GetAncestor (mapBlockIndex t) p h = Some (ancestor (mapBlockIndex t) p h) /\
    (0 <= h <= bi_nHeight node ->
     exists q n, ancestor (mapBlockIndex t) p h = Some q /\ mapBlockIndex t !! q = Some n /\ bi_nHeight n = h).
Proof. apply get_ancestor_follows_parents. apply sample_bits. Defined.

Lemma reorganisation_keeps_chain_witness :
  exists chain, set_tips sample_index ([5; 16; 4] ++ [16]) = Some chain /\ chain_of sample_index 16 chain.
Proof.
  apply (reorganisation_keeps_chain sample_headers sample_tree); [apply sample_bits|apply sample_tree_built|].
  repeat constructor; vm_compute; eauto.
Defined.

Lemma sample_chain : chain_of sample_index 5 (map Some [1; 2; 3; 4; 5]).
Proof.
  eexists. split; [vm_compute; reflexivity|]. split; [reflexivity|]. intros j Hj. cbn in Hj.
  do 5 (destruct j as [|j]; [vm_compute; reflexivity|]). lia.
Qed.

Lemma find_fork_is_last_common_witness :
  FindFork sample_index (map Some [1; 2; 3; 4; 5]) 16 = Some (Some 3) /\
  exists r, FindFork sample_index (map Some [1; 2; 3; 4; 5]) 16 = Some r /\ fork_of sample_index 16 5 r.
Proof.
  split; [vm_compute; reflexivity|].
  apply (find_fork_is_last_common sample_headers sample_tree 5); [apply sample_bits|apply sample_tree_built|apply sample_chain|].
  vm_compute. eauto.
Defined.

Lemma locator_reaches_genesis_witness :
  GetLocator sample_index (map Some [1; 2; 3; 4; 5]) (Some 16) = Some [16; 15; 14; 3; 2; 1] /\
  exists hs heights, GetLocator sample_index (map Some [1; 2; 3; 4; 5]) (Some 16) = Some hs /\
    map Some hs = map (ancestor sample_index 16) heights /\ head heights = Some 5 /\ last heights = Some 0 /\
    StronglySorted Z.gt heights.
Proof.
  split; [vm_compute; reflexivity|].
  destruct (sample_index !! 16) as [node|] eqn:E; [|vm_compute in E; discriminate].
  assert (Hh : bi_nHeight node = 5) by (vm_compute in E; by injection E as <-).
  replace (Some 5) with (Some (bi_nHeight node)) by (by rewrite Hh).
  apply (locator_reaches_genesis sample_headers sample_tree 5);
    [apply sample_bits|apply sample_tree_built|apply sample_chain|exact E|lia].
Defined.
