(* ===== verification/Pow.v ===== *)
(** The difficulty of the proof of work (pow.cpp): the averages over recent
    blocks, the three retargeting rules, [GetNextWorkRequired] and
    [CheckProofOfWork].  Equihash itself is not modelled.  [None] is a failed
    assertion, a null dereference or a division by zero. *)

From stdpp Require Import gmap list sorting.
From Stdlib Require Import ZArith Lia.
From S2P Require Import Prelude Uint256 Params Compact BlockIndex.

(** * Parameters *)

(** The part of [Consensus::Params] that pow.cpp reads. *)
Record PowParams := mkPowParams {
  powLimit : Z;
  nDigishieldAveragingWindow : Z;
  nDigishieldMaxAdjustDown : Z;
  nDigishieldMaxAdjustUp : Z;
  nPowAllowMinDifficultyBlocksAfterHeight : option Z;
  nPowTargetSpacing : Z;
  nZawyLWMAAveragingWindow : Z;
  eh_epoch_fade_length : Z;
  vUpgrades : UpgradeIndex -> Z;
  isRegtest : bool;
}.

Definition mainPow : PowParams :=
  mkPowParams 0x0f0f0f0f0f0f0f0f0f0f0f0f0f0f0f0f0f0f0f0f0f0f0f0f0f0f0f0f0f0f0f0f 17 32 16 None (2 * 60) 60 11
    (nActivationHeight mainParams) false.
Definition testPow : PowParams :=
  mkPowParams 0x0effffffffffffffffffffffffffffffffffffffffffffffffffffffffffffff 17 32 16 (Some 0) 60 60 10
    (nActivationHeight testNetParams) false.
Definition regTestPow : PowParams :=
  mkPowParams 0x0f0f0f0f0f0f0f0f0f0f0f0f0f0f0f0f0f0f0f0f0f0f0f0f0f0f0f0f0f0f0f0f 17 0 0 (Some 0) (2 * 60) 60 11
    (nActivationHeight regTestParams) true.

Definition pow_networks : list PowParams := [mainPow; testPow; regTestPow].

Definition DigishieldAveragingWindowTimespan (params : PowParams) : Z :=
  nDigishieldAveragingWindow params * nPowTargetSpacing params.
Definition DigishieldMinActualTimespan (params : PowParams) : Z :=
  Z.quot (DigishieldAveragingWindowTimespan params * (100 - nDigishieldMaxAdjustUp params)) 100.
Definition DigishieldMaxActualTimespan (params : PowParams) : Z :=
  Z.quot (DigishieldAveragingWindowTimespan params * (100 + nDigishieldMaxAdjustDown params)) 100.

(** Epoch ends are [unsigned long]. *)
Definition eh_epoch_1_end (params : PowParams) : Z :=
  u64 (vUpgrades params UPGRADE_EQUI144_5 + eh_epoch_fade_length params - 1).
Definition eh_epoch_2_end (params : PowParams) : Z :=
  u64 (vUpgrades params UPGRADE_KAMIOOKA + eh_epoch_fade_length params - 1).

(** * Blocks *)

(** [operator*=(uint32_t b32)]. *)
Definition arith_mul32 (x b32 : Z) : Z := of_limbs (mul_row b32 0 (limbs x) (replicate 8 0)).

Section pow.
Context (params : PowParams) (index : BlockMap).

Definition ancestor_at (pindex height : Z) : option Z := a ← GetAncestor index pindex height; a.
Definition block_at (pindex height : Z) : option CBlockIndex := q ← ancestor_at pindex height; index !! q.

(** The block times from a block back, at most [n] of them. *)
Fixpoint times_back (n : nat) (pindex : option Z) : option (list Z) :=
  match n, pindex with
  | S n', Some p => node ← index !! p; rest ← times_back n' (pprev node); Some (nTime node :: rest)
  | _, _ => Some []
  end.

(** [CBlockIndex::GetMedianTimePast]. *)
Definition GetMedianTimePast (pindex : Z) : option Z :=
  times ← times_back 11 (Some pindex); merge_sort Z.le times !! (length times / 2)%nat.

(** * Digishield *)

Definition DigishieldCalculateNextWorkRequired (bnAvg nLastBlockTime nFirstBlockTime : Z) : option Z :=
  let window := DigishieldAveragingWindowTimespan params in
  let nActualTimespan := window + Z.quot (nLastBlockTime - nFirstBlockTime - window) 4 in
  let nActualTimespan := Z.max nActualTimespan (DigishieldMinActualTimespan params) in
  let nActualTimespan := Z.min nActualTimespan (DigishieldMaxActualTimespan params) in
  bnNew ← arith_div bnAvg (u64 window);
  let bnNew := arith_mul32 bnNew (u32 nActualTimespan) in
  Some (GetCompact (Z.min bnNew (powLimit params))).

(** * LWMA *)

Definition lwma_k : Z := Z.quot (nZawyLWMAAveragingWindow params * (nZawyLWMAAveragingWindow params + 1) * nPowTargetSpacing params) 2.

(** [target / (k * N)], the share of one block in the average. *)
Definition target_share (block : CBlockIndex) : option Z :=
  arith_div (target_of (nBits block)) (u64 (lwma_k * nZawyLWMAAveragingWindow params)).

Fixpoint lwma_loop (n : nat) (pindexLast i j t sum_target : Z) : option (Z * Z) :=
  match n with
  | O => Some (t, sum_target)
  | S n' =>
    pblock ← ancestor_at pindexLast i;
    block ← index !! pblock;
    block_Prev ← block_at pblock (i - 1);
    share ← target_share block;
    let solvetime := Z.max (-360) (Z.min (nTime block - nTime block_Prev) (6 * nPowTargetSpacing params)) in
    lwma_loop n' pindexLast (i + 1) (j + 1) (t + solvetime * (j + 1)) (arith_add sum_target share)
  end.

Definition LWMACalculateNextWorkRequired (pindexLast : Z) : option Z :=
  last ← index !! pindexLast;
  let N := nZawyLWMAAveragingWindow params in
  if bi_nHeight last <=? N then None
  else
    r ← lwma_loop (Z.to_nat N) pindexLast (bi_nHeight last - N + 1) 0 0 0;
    let '(t, sum_target) := r in
    let t := Z.max t (Z.quot lwma_k 10) in
    Some (GetCompact (Z.min (arith_mul (u64 t) sum_target) (powLimit params))).

(** The loop of LWMA3: the weighted solve times and the average target, with
    the timestamp of the previous round. *)
Fixpoint lwma3_loop (n : nat) (pindexLast i j previousTimestamp t sumTarget : Z) : option (Z * Z) :=
  match n with
  | O => Some (t, sumTarget)
  | S n' =>
    block ← block_at pindexLast i;
    share ← target_share block;
    let thisTimestamp := if previousTimestamp <? nTime block then nTime block else previousTimestamp + 1 in
    let solvetime := Z.min (6 * nPowTargetSpacing params) (thisTimestamp - previousTimestamp) in
    lwma3_loop n' pindexLast (i + 1) (j + 1) thisTimestamp (t + solvetime * (j + 1)) (arith_add sumTarget share)
  end.

(** [(previousDiff * percent) / 100]. *)
Definition percent_of (previousDiff percent : Z) : option Z := arith_div (arith_mul32 previousDiff percent) 100.

Definition lwma3_clamp (previousDiff nextTarget : Z) : option Z :=
  upper ← percent_of previousDiff 150;
  lower ← percent_of previousDiff 67;
  let nextTarget := if upper <? nextTarget then upper else nextTarget in
  let nextTarget := if nextTarget <? lower then lower else nextTarget in
  Some (if powLimit params <? nextTarget then powLimit params else nextTarget).

(** [previousDiff] is the target of the last block: the loop, which has at
    least one round, sets it in the round [i == height]. *)
Definition Lwma3CalculateNextWorkRequired (pindexLast : Z) : option Z :=
  last ← index !! pindexLast;
  let N := nZawyLWMAAveragingWindow params in
  if bi_nHeight last <? N then Some (GetCompact (powLimit params))
  else
    first ← block_at pindexLast (bi_nHeight last - N);
    r ← lwma3_loop (Z.to_nat N) pindexLast (bi_nHeight last - N + 1) 0 (nTime first) 0 0;
    let '(t, sumTarget) := r in
    nextTarget ← lwma3_clamp (target_of (nBits last)) (arith_mul (u64 t) sumTarget);
    Some (GetCompact nextTarget).

(** * GetNextWorkRequired *)

(** The sum of the targets of [n] blocks back from [pindex], and the block
    before them. *)
Fixpoint sum_targets (n : nat) (pindex : option Z) (bnTot : Z) : option (Z * option Z) :=
  match n, pindex with
  | S n', Some p => node ← index !! p; sum_targets n' (pprev node) (arith_add bnTot (target_of (nBits node)))
  | _, _ => Some (bnTot, pindex)
  end.

(** Whether the height lies in the window after an epoch end. *)
Definition after_epoch (epoch_end window nHeight : Z) : bool :=
  (u64 (epoch_end - 1) <? u64 nHeight) && (u64 nHeight <? u64 (epoch_end + window)).

(** [pblock] is the time of the new block, when there is one. *)
Definition GetNextWorkRequired (pindexLast : option Z) (pblock : option Z) : option Z :=
  let nProofOfWorkLimit := GetCompact (powLimit params) in
  match pindexLast with
  | None => Some nProofOfWorkLimit
  | Some p =>
    last ← index !! p;
    if after_epoch (eh_epoch_1_end params) 61 (bi_nHeight last) then Some nProofOfWorkLimit
    else if after_epoch (eh_epoch_2_end params) 64 (bi_nHeight last) then
      bits ← Lwma3CalculateNextWorkRequired p;
      let fullTarget := target_of bits in
      let targetStep := arith_mul32 (arith_shr fullTarget 5) (u32 (u64 (eh_epoch_2_end params + 61 - bi_nHeight last))) in
      let fullTarget := arith_add fullTarget targetStep in
      Some (GetCompact (if powLimit params <? fullTarget then powLimit params else fullTarget))
    else if match nPowAllowMinDifficultyBlocksAfterHeight params, pblock with
            | Some h, Some time => (h <=? bi_nHeight last) && (nTime last + nPowTargetSpacing params * 2 <? time)
            | _, _ => false
            end
    then Some nProofOfWorkLimit
    else
      r ← sum_targets (Z.to_nat (nDigishieldAveragingWindow params)) (Some p) 0;
      let '(bnTot, pindexFirst) := r in
      match pindexFirst with
      | None => Some nProofOfWorkLimit
      | Some first =>
        bnAvg ← arith_div bnTot (u64 (nDigishieldAveragingWindow params));
        let nHeight := bi_nHeight last + 1 in
        if nHeight <? vUpgrades params UPGRADE_LWMA then
          lastTime ← GetMedianTimePast p;
          firstTime ← GetMedianTimePast first;
          DigishieldCalculateNextWorkRequired bnAvg lastTime firstTime
        else if nHeight <? vUpgrades params UPGRADE_ACADIA then LWMACalculateNextWorkRequired p
        else Lwma3CalculateNextWorkRequired p
      end
  end.

(** [CheckProofOfWork]. *)
Definition CheckProofOfWork (hash bits : Z) : bool :=
  let '(bnTarget, fNegative, fOverflow) := SetCompact bits in
  if isRegtest params then true
  else if fNegative || (bnTarget =? 0) || fOverflow || (powLimit params <? bnTarget) then false
  else negb (bnTarget <? hash).
End pow.

(** * The targets are computed *)

Lemma arith_mul32_spec x b : uint256_ok x -> 0 <= b < 2 ^ 32 -> arith_mul32 x b = (x * b) mod 2 ^ 256.
Proof.
  intros Hx Hb. unfold arith_mul32.
  destruct (mul_row_value b 0 (limbs x) (replicate 8 0)) as (HF & HL & q & Hv);
    [done|lia|apply limbs_ok|repeat constructor; lia|unfold limbs; rewrite length_digits; cbn; lia|].
  rewrite of_limbs_limbs in Hv by done. change (of_limbs (replicate 8 0)) with 0 in Hv.
  change (Z.of_nat (length (replicate 8 0))) with 8 in Hv. apply (Z.mod_unique _ _ q).
  - left. pose proof (undigits_range (2 ^ 32) _ ltac:(lia) HF) as Hr. by rewrite HL in Hr.
  - change (2 ^ 256) with ((2 ^ 32) ^ 8). lia.
Qed.

Lemma percent_of_spec x percent :
  uint256_ok x -> 0 <= percent < 2 ^ 32 -> percent_of x percent = Some ((x * percent) mod 2 ^ 256 / 100).
Proof.
  intros Hx Hp. unfold percent_of. rewrite arith_mul32_spec by done. apply arith_div_spec; [|lia].
  apply Z.mod_pos_bound. lia.
Qed.

(** What the retargeting needs of the index and of the parameters. *)
Record pow_ready (params : PowParams) (index : BlockMap) : Prop := {
  pr_index : index_ok index;
  pr_bits : forall p node, index !! p = Some node -> 0 <= nBits node;
  pr_limit : 0 <= powLimit params < 2 ^ 256;
  pr_window : 1 <= nZawyLWMAAveragingWindow params < 2 ^ 10;
  pr_spacing : 1 <= nPowTargetSpacing params < 2 ^ 10;
  pr_digishield : 1 <= nDigishieldAveragingWindow params < 2 ^ 10;
}.

Section ready.
Context (params : PowParams) (index : BlockMap) (Hready : pow_ready params index).

Lemma ready_target p node : index !! p = Some node -> uint256_ok (target_of (nBits node)).
Proof. intros Hp. pose proof (target_of_range (nBits node) (pr_bits _ _ Hready p node Hp)). unfold uint256_ok. lia. Qed.

Lemma block_at_some p node h :
  index !! p = Some node -> 0 <= h <= bi_nHeight node ->
  exists q block, ancestor_at index p h = Some q /\ index !! q = Some block /\ block_at index p h = Some block
    /\ bi_nHeight block = h.
Proof.
  intros Hp Hh. destruct (ancestor_some index (pr_index _ _ Hready) p node h Hp Hh) as (q & block & Ha & Hq & Hb).
  exists q, block. unfold block_at, ancestor_at. rewrite (GetAncestor_spec index p node) by (done || apply Hready).
  cbn. rewrite Ha. by cbn.
Qed.

Lemma target_share_some p node : index !! p = Some node -> exists share, target_share params node = Some share /\ 0 <= share.
Proof.
  intros Hp. pose proof (ready_target p node Hp) as Ht. pose proof (pr_window _ _ Hready) as HN.
  pose proof (pr_spacing _ _ Hready) as HT. unfold target_share, lwma_k, uint256_ok in *.
  set (N := nZawyLWMAAveragingWindow params) in *. set (T := nPowTargetSpacing params) in *.
  assert (Hk : 1 <= Z.quot (N * (N + 1) * T) 2 < 2 ^ 31).
  { rewrite Z.quot_div_nonneg by nia. split; [apply Z.div_le_lower_bound; nia|apply Z.div_lt_upper_bound; nia]. }
  assert (HkN : u64 (Z.quot (N * (N + 1) * T) 2 * N) = Z.quot (N * (N + 1) * T) 2 * N) by (apply Z.mod_small; nia).
  rewrite HkN, arith_div_spec by nia. eexists. split; [done|]. apply Z.div_pos; nia.
Qed.

Lemma lwma3_loop_some n pindexLast last i j ts t sum :
  index !! pindexLast = Some last -> 0 <= i -> i + Z.of_nat n <= bi_nHeight last + 1 ->
  0 <= sum < 2 ^ 256 ->
  exists t' sum', lwma3_loop params index n pindexLast i j ts t sum = Some (t', sum') /\ 0 <= sum' < 2 ^ 256.
Proof.
  intros Hp. revert i j ts t sum. induction n as [|n IH]; intros i j ts t sum Hi Hn Hs; cbn [lwma3_loop]; [eauto|].
  destruct (block_at_some pindexLast last i Hp ltac:(lia)) as (q & block & _ & Hq & -> & _). cbn [mbind option_bind].
  destruct (target_share_some q block Hq) as (share & -> & Hsh). cbn [mbind option_bind].
  apply IH; [lia|lia|]. apply Z.mod_pos_bound. lia.
Qed.

(** The clamped target. *)
Lemma lwma3_clamp_some prev x :
  uint256_ok prev -> 0 <= x ->
  exists y, lwma3_clamp params prev x = Some y /\ 0 <= y <= powLimit params /\
    y <= Z.max ((prev * 150) mod 2 ^ 256 / 100) ((prev * 67) mod 2 ^ 256 / 100) /\
    Z.min ((prev * 67) mod 2 ^ 256 / 100) (powLimit params) <= y.
Proof.
  intros Hprev Hx. pose proof (pr_limit _ _ Hready) as Hl. unfold lwma3_clamp. rewrite !percent_of_spec by (done || lia).
  cbn [mbind option_bind]. assert (Hnn : forall z, 0 <= z mod 2 ^ 256 / 100).
  { intros z. apply Z.div_pos; [|lia]. apply Z.mod_pos_bound. lia. }
  pose proof (Hnn (prev * 150)) as Hu. pose proof (Hnn (prev * 67)) as Hlo.
  set (u := _ / 100) in *. set (l := (prev * 67) mod _ / 100) in *. eexists. split; [done|].
  destruct (Z.ltb_spec u x), (Z.ltb_spec u l), (Z.ltb_spec x l); try lia;
    match goal with |- context [if ?a <? ?b then _ else _] => destruct (Z.ltb_spec a b) end; lia.
Qed.

(** LWMA3 past its window: the clamp of some average. *)
Lemma lwma3_some p last :
  index !! p = Some last -> nZawyLWMAAveragingWindow params <= bi_nHeight last ->
  exists x y, 0 <= x /\ lwma3_clamp params (target_of (nBits last)) x = Some y /\
    Lwma3CalculateNextWorkRequired params index p = Some (GetCompact y).
Proof.
  intros Hp Hh. pose proof (pr_window _ _ Hready) as HN. unfold Lwma3CalculateNextWorkRequired. rewrite Hp.
  cbn [mbind option_bind]. rewrite (proj2 (Z.ltb_ge _ _)) by lia. set (N := nZawyLWMAAveragingWindow params) in *.
  destruct (block_at_some p last (bi_nHeight last - N) Hp ltac:(lia)) as (_ & first & _ & _ & -> & _). cbn [mbind option_bind].
  destruct (lwma3_loop_some (Z.to_nat N) p last (bi_nHeight last - N + 1) 0 (nTime first) 0 0 Hp) as (t & sum & -> & Hsum);
    [lia..|]. cbn [mbind option_bind].
  assert (Hx : 0 <= arith_mul (u64 t) sum).
  { pose proof (Z.mod_pos_bound t (2 ^ 64) ltac:(lia)) as Ht. unfold u64. rewrite arith_mul_spec by (unfold uint256_ok; lia).
    apply Z.mod_pos_bound. lia. }
  destruct (lwma3_clamp_some (target_of (nBits last)) (arith_mul (u64 t) sum) (ready_target p last Hp) Hx) as (y & Hy & _).
  exists (arith_mul (u64 t) sum), y. split_and!; [done|done|]. by rewrite Hy.
Qed.

(** A valid compact target within the limit. *)
Definition valid_bits (bits : Z) : Prop := exists v, SetCompact bits = (v, false, false) /\ 0 <= v <= powLimit params.

Lemma valid_compact x : 0 <= x <= powLimit params -> valid_bits (GetCompact x).
Proof.
  intros Hx. pose proof (pr_limit _ _ Hready). destruct (compact_decode x) as (v & E & Hv & _); [lia|]. exists v. split; [done|lia].
Qed.

Lemma lwma3_valid p last :
  index !! p = Some last -> exists bits, Lwma3CalculateNextWorkRequired params index p = Some bits /\ valid_bits bits.
Proof.
  intros Hp. pose proof (pr_limit _ _ Hready) as Hl.
  destruct (Z.lt_ge_cases (bi_nHeight last) (nZawyLWMAAveragingWindow params)) as [Hlt|Hge].
  - eexists. unfold Lwma3CalculateNextWorkRequired. rewrite Hp. cbn [mbind option_bind].
    rewrite (proj2 (Z.ltb_lt _ _)) by done. split; [done|]. apply valid_compact. lia.
  - destruct (lwma3_some p last Hp Hge) as (x & y & Hx & Hy & E). exists (GetCompact y). split; [done|]. apply valid_compact.
    destruct (lwma3_clamp_some (target_of (nBits last)) x (ready_target p last Hp) Hx) as (y' & Hy' & Hb & _).
    rewrite Hy in Hy'. injection Hy' as <-. lia.
Qed.

Lemma sum_targets_some n p node tot :
  index !! p = Some node -> 0 <= tot < 2 ^ 256 ->
  exists tot' first, sum_targets index n (Some p) tot = Some (tot', first) /\ 0 <= tot' < 2 ^ 256.
Proof.
  revert p node tot. induction n as [|n IH]; intros p node tot Hp Ht; cbn [sum_targets]; [eauto|].
  rewrite Hp. cbn [mbind option_bind]. set (tot' := arith_add _ _).
  assert (Ht' : 0 <= tot' < 2 ^ 256) by (apply Z.mod_pos_bound; lia).
  destruct (pr_index _ _ Hready p node Hp) as (_ & Hprev & _).
  destruct (pprev node) as [q|]; [destruct Hprev as (prev & Hq & _); by apply (IH q prev)|]. destruct n; cbn; eauto.
Qed.
End ready.

Lemma networks_ready params t headers :
  params ∈ pow_networks -> Forall (fun h => 0 <= hd_nBits h) headers -> build_tree headers = Some t ->
  pow_ready params (mapBlockIndex t).
Proof.
  intros Hp Hh Ht. split.
  - by apply (build_tree_inv headers).
  - by apply (build_tree_bits headers).
  - repeat (apply elem_of_cons in Hp as [->|Hp]; [cbn; lia|]). by apply elem_of_nil in Hp.
  - repeat (apply elem_of_cons in Hp as [->|Hp]; [cbn; lia|]). by apply elem_of_nil in Hp.
  - repeat (apply elem_of_cons in Hp as [->|Hp]; [cbn; lia|]). by apply elem_of_nil in Hp.
  - repeat (apply elem_of_cons in Hp as [->|Hp]; [cbn; lia|]). by apply elem_of_nil in Hp.
Qed.

(** On the networks of the program LWMA3 is the rule at every height. *)
Lemma networks_lwma3 params h :
  params ∈ pow_networks -> 0 <= h -> vUpgrades params UPGRADE_LWMA <= h /\ vUpgrades params UPGRADE_ACADIA <= h.
Proof.
  intros Hp Hh. repeat (apply elem_of_cons in Hp as [->|Hp]; [vm_compute in Hh |- *; destruct h; naive_solver|]).
  by apply elem_of_nil in Hp.
Qed.

Lemma next_work_valid params index pindexLast pblock :
  params ∈ pow_networks -> pow_ready params index -> is_Some (index !! pindexLast) ->
  exists bits, GetNextWorkRequired params index (Some pindexLast) pblock = Some bits /\ valid_bits params bits.
Proof.
  intros Hnet Hready [last Hp]. pose proof (pr_limit _ _ Hready) as Hl. pose proof (pr_digishield _ _ Hready) as Hd.
  assert (Hlimit : valid_bits params (GetCompact (powLimit params))) by (apply (valid_compact params index Hready); lia).
  destruct (pr_index _ _ Hready _ _ Hp) as (H0 & _).
  unfold GetNextWorkRequired. rewrite Hp. cbn [mbind option_bind]. destruct (after_epoch _ 61 _); [eauto|].
  destruct (lwma3_valid params index Hready pindexLast last Hp) as (bits & Hbits & Hv).
  destruct (after_epoch _ 64 _).
  { rewrite Hbits. cbn [mbind option_bind]. eexists. split; [done|]. apply (valid_compact params index Hready).
    set (full := arith_add _ _). assert (0 <= full < 2 ^ 256) by (apply Z.mod_pos_bound; lia).
    destruct (Z.ltb_spec (powLimit params) full); lia. }
  case_match; [eauto|].
  destruct (sum_targets_some params index Hready (Z.to_nat (nDigishieldAveragingWindow params)) pindexLast last 0 Hp)
    as (tot & first & -> & Htot); [lia|]. cbn [mbind option_bind]. destruct first as [first|]; [|eauto].
  rewrite arith_div_spec; [|lia|unfold u64; rewrite Z.mod_small; lia]. cbn [mbind option_bind].
  destruct (networks_lwma3 params (bi_nHeight last + 1) Hnet ltac:(lia)) as [H1 H2].
  rewrite (proj2 (Z.ltb_ge _ (vUpgrades params UPGRADE_LWMA))), (proj2 (Z.ltb_ge _ (vUpgrades params UPGRADE_ACADIA))) by lia. eauto.
Qed.

(** C31. The difficulty is always defined and never below the minimum: on every
    network, for every tree of headers and every block in it,
    [GetNextWorkRequired] returns, and what it returns decodes, without sign or
    overflow, to a target within [powLimit]. *)
Theorem next_work_within_limit (params : PowParams) (headers : list Header) (t : BlockTree) (pindexLast : Z)
    (pblock : option Z) :
  params ∈ pow_networks -> Forall (fun h => 0 <= hd_nBits h) headers -> build_tree headers = Some t ->
  is_Some (mapBlockIndex t !! pindexLast) ->
  exists bits v, GetNextWorkRequired params (mapBlockIndex t) (Some pindexLast) pblock = Some bits /\
    SetCompact bits = (v, false, false) /\ 0 <= v <= powLimit params.
Proof.
  intros Hnet Hh Ht Hp.
  destruct (next_work_valid params (mapBlockIndex t) pindexLast pblock) as (bits & E & v & Ev & Hv);
    [done|by apply (networks_ready params t headers)|done|]. by exists bits, v.
Qed.

(** LWMA3 changes the target by bounded steps: past the first window, as long
    as 150 times the last target fits 256 bits, the new target lies between 67
    and 150 hundredths of the last one, within the limit. *)
Theorem lwma3_step_bounded (params : PowParams) (headers : list Header) (t : BlockTree) (p : Z) (last : CBlockIndex) :
  params ∈ pow_networks -> Forall (fun h => 0 <= hd_nBits h) headers -> build_tree headers = Some t ->
  mapBlockIndex t !! p = Some last -> nZawyLWMAAveragingWindow params <= bi_nHeight last ->
  let previous := target_of (nBits last) in
  previous * 150 < 2 ^ 256 ->
  exists next, Lwma3CalculateNextWorkRequired params (mapBlockIndex t) p = Some (GetCompact next) /\
    Z.min (previous * 67 / 100) (powLimit params) <= next <= Z.min (previous * 150 / 100) (powLimit params).
Proof.
  intros Hnet Hh Ht Hp Hge previous Hfit. pose proof (networks_ready params t headers Hnet Hh Ht) as Hready.
  destruct (lwma3_some params _ Hready p last Hp Hge) as (x & y & Hx & Hy & E). exists y. split; [done|].
  pose proof (ready_target params _ Hready p last Hp) as Hprev. fold previous in Hy, Hprev.
  destruct (lwma3_clamp_some params _ Hready previous x Hprev Hx) as (y' & Hy' & Hb & Hu & Hl).
  rewrite Hy in Hy'. injection Hy' as <-. unfold uint256_ok in Hprev.
  rewrite (Z.mod_small (previous * 150)), (Z.mod_small (previous * 67)) in Hu by lia.
  rewrite (Z.mod_small (previous * 67)) in Hl by lia.
  assert (previous * 67 / 100 <= previous * 150 / 100) by (apply Z.div_le_mono; lia). lia.
Qed.

(** At the minimum difficulty the step bounds wrap around: 150 and 67 times
    the easiest target of the main network exceed 256 bits, and after a block at
    that target LWMA3 demands one and the same target, less than a sixth of it,
    whatever the timestamps of the chain are. *)
Theorem lwma3_wraps_at_limit (headers : list Header) (t : BlockTree) (p : Z) (last : CBlockIndex) :
  Forall (fun h => 0 <= hd_nBits h) headers -> build_tree headers = Some t ->
  mapBlockIndex t !! p = Some last -> nZawyLWMAAveragingWindow mainPow <= bi_nHeight last ->
  nBits last = GetCompact (powLimit mainPow) ->
  exists bits, Lwma3CalculateNextWorkRequired mainPow (mapBlockIndex t) p = Some bits /\
    target_of bits * 6 < target_of (nBits last).
Proof.
  intros Hh Ht Hp Hge Hbits. assert (Hnet : mainPow ∈ pow_networks) by (by left).
  pose proof (networks_ready mainPow t headers Hnet Hh Ht) as Hready.
  destruct (lwma3_some mainPow _ Hready p last Hp Hge) as (x & y & Hx & Hy & E). exists (GetCompact y). split; [done|].
  pose proof (ready_target mainPow _ Hready p last Hp) as Hprev.
  destruct (lwma3_clamp_some mainPow _ Hready (target_of (nBits last)) x Hprev Hx) as (y' & Hy' & Hb & Hu & _).
  rewrite Hy in Hy'. injection Hy' as <-. pose proof (target_of_GetCompact y) as Hc.
  rewrite Hbits in *. change (target_of (GetCompact (powLimit mainPow))) with (0x0f0f0f * 2 ^ 232) in *.
  match type of Hu with _ <= ?b => let v := eval vm_compute in b in change b with v in Hu end. cbn [powLimit mainPow] in Hb. lia.
Qed.

(** * Concrete instances *)

(** A chain of blocks two minutes apart, all with the same target. *)
Definition steady_headers (n : nat) (bits : Z) : list Header :=
  map (fun i => mkHeader (i + 1) i (120 * i) bits) (Z.of_nat <$> seq 0 n).
Definition steady_tree (n : nat) (bits : Z) : BlockTree :=
  default (mkBlockTree ∅ None) (build_tree (steady_headers n bits)).

Lemma steady_bits n bits : 0 <= bits -> Forall (fun h => 0 <= hd_nBits h) (steady_headers n bits).
Proof. intros Hb. unfold steady_headers. apply Forall_map, Forall_true. done. Qed.

Lemma steady_last_1f07ffff :
  exists last, mapBlockIndex (steady_tree 61 0x1f07ffff) !! 61 = Some last /\ nBits last = 0x1f07ffff /\ bi_nHeight last = 60.
Proof. eexists. split; [vm_compute; reflexivity|by split]. Qed.

Lemma steady_last_200f0f0f :
  exists last, mapBlockIndex (steady_tree 61 0x200f0f0f) !! 61 = Some last /\ nBits last = 0x200f0f0f /\ bi_nHeight last = 60.
Proof. eexists. split; [vm_compute; reflexivity|by split]. Qed.

Lemma next_work_within_limit_witness :
  exists bits v, GetNextWorkRequired mainPow (mapBlockIndex (steady_tree 61 0x1f07ffff)) (Some 61) None = Some bits /\
    SetCompact bits = (v, false, false) /\ 0 <= v <= powLimit mainPow.
Proof.
  apply (next_work_within_limit mainPow (steady_headers 61 0x1f07ffff)).
  - left.
  - apply steady_bits. lia.
  - vm_compute. reflexivity.
  - vm_compute. eauto.
Defined.

Lemma lwma3_step_bounded_witness :
  exists next, Lwma3CalculateNextWorkRequired mainPow (mapBlockIndex (steady_tree 61 0x1f07ffff)) 61 = Some (GetCompact next) /\
    Z.min (target_of 0x1f07ffff * 67 / 100) (powLimit mainPow) <= next
      <= Z.min (target_of 0x1f07ffff * 150 / 100) (powLimit mainPow).
Proof.
  destruct steady_last_1f07ffff as (last & E & Hb & Hh). replace (target_of 0x1f07ffff) with (target_of (nBits last)) by (by rewrite Hb).
  apply (lwma3_step_bounded mainPow (steady_headers 61 0x1f07ffff)).
  - left.
  - apply steady_bits. lia.
  - vm_compute. reflexivity.
  - exact E.
  - rewrite Hh. cbn. lia.
  - rewrite Hb. vm_compute. reflexivity.
Defined.

Lemma lwma3_wraps_at_limit_witness :
  exists bits, Lwma3CalculateNextWorkRequired mainPow (mapBlockIndex (steady_tree 61 0x200f0f0f)) 61 = Some bits /\
    target_of bits * 6 < target_of 0x200f0f0f.
Proof.
  destruct steady_last_200f0f0f as (last & E & Hb & Hh). replace (target_of 0x200f0f0f) with (target_of (nBits last)) by (by rewrite Hb).
  apply (lwma3_wraps_at_limit (steady_headers 61 0x200f0f0f)).
  - apply steady_bits. lia.
  - vm_compute. reflexivity.
  - exact E.
  - rewrite Hh. cbn. lia.
  - rewrite Hb. vm_compute. reflexivity.
Defined.
