(* ===== verification/Relay.v ===== *)
(** The relay of off-chain data (opoi.cpp, [ProcessOPoIDataMessage] and
    [ProcessOPoIContentMessage], and the message handlers of main.cpp): prompts,
    shard tensors and model chunks addressed to one miner, and the content
    auditors read, flooded from node to node. *)

From stdpp Require Import gmap strings list.
From Stdlib Require Import ZArith Lia.
From S2P Require Import Prelude Uint256 Params Sha256 Serialize Transaction Platform Shard.
From S2P Require Import Records Majority Cache Sortition CheckTx ProcessTx.

(** * Messages *)

Definition OPOI_DELIVERY_PROMPT : Z := 0.
Definition OPOI_DELIVERY_SHARD_ASSIGN : Z := 1.
Definition OPOI_DELIVERY_SHARD_RESULT : Z := 2.
Definition OPOI_DELIVERY_MODEL_CHUNK_REQUEST : Z := 3.
Definition OPOI_DELIVERY_MODEL_CHUNK : Z := 4.
Definition OPOI_DELIVERY_MAX_PAYLOAD_HEX : Z := 131072.
Definition OPOI_CONTENT_TEST_SUITE : Z := 0.
Definition OPOI_CONTENT_RESPONSE : Z := 1.

Record COPoIDataMsg := mkCOPoIDataMsg {
  dm_destStakeAddress : string;
  dm_requestId : string;
  dm_kind : Z;
  dm_senderAddress : string;
  dm_payloadHex : string;
  dm_sigTime : Z;
  dm_sig : bytes;
}.

Definition COPoIDataMsg_GetHash (msg : COPoIDataMsg) : Z :=
  le_value (Hash256 (enc string_codec (dm_destStakeAddress msg) ++ enc string_codec (dm_requestId msg)
    ++ enc u8_codec (dm_kind msg) ++ enc string_codec (dm_senderAddress msg) ++ enc string_codec (dm_payloadHex msg)
    ++ enc u32_codec (dm_sigTime msg) ++ enc vch_codec (dm_sig msg))).

Record COPoIContentMsg := mkCOPoIContentMsg {
  cm_requestId : string;
  cm_kind : Z;
  cm_payloadHex : string;
}.

Definition COPoIContentMsg_GetHash (msg : COPoIContentMsg) : Z :=
  le_value (Hash256 (enc string_codec (cm_requestId msg) ++ enc u8_codec (cm_kind msg)
    ++ enc string_codec (cm_payloadHex msg))).

Definition too_large (payloadHex : string) : bool :=
  OPOI_DELIVERY_MAX_PAYLOAD_HEX <? Z.of_nat (String.length payloadHex).

(** * Processing *)

(** The outcome: the reason of a rejection, or the cache with the message
    stored. *)
Abbreviation outcome := (string + OPoICache)%type.

Section process.
Context `{Crypto}.

(** The address whose signature a delivery needs. *)
Definition expected_signer (msg : COPoIDataMsg) (req : OPoIRequest) (c : OPoICache) : string + string :=
  if dm_kind msg =? OPOI_DELIVERY_PROMPT then inr (req_requester req)
  else if dm_kind msg =? OPOI_DELIVERY_SHARD_ASSIGN then
    if str_empty (dm_senderAddress msg) || negb (IsClaimedCoordinator (dm_requestId msg) (dm_senderAddress msg) c)
    then inl "not-a-coordinator" else inr (dm_senderAddress msg)
  else if (dm_kind msg =? OPOI_DELIVERY_SHARD_RESULT) || (dm_kind msg =? OPOI_DELIVERY_MODEL_CHUNK_REQUEST)
          || (dm_kind msg =? OPOI_DELIVERY_MODEL_CHUNK) then
    if str_empty (dm_senderAddress msg) || negb (IsActiveStaker (dm_senderAddress msg) c)
    then inl "not-an-active-staker" else inr (dm_senderAddress msg)
  else inl "bad-kind".

Definition data_message (msg : COPoIDataMsg) : string :=
  "OPOIDATA" +:+ dm_requestId msg +:+ dm_destStakeAddress msg +:+ dec (dm_kind msg) +:+ dm_senderAddress msg
    +:+ dm_payloadHex msg.

Definition delivery_of (msg : COPoIDataMsg) : PendingDelivery :=
  mkPendingDelivery (dm_requestId msg) (dm_kind msg) (dm_payloadHex msg) (dm_sigTime msg) (dm_senderAddress msg).

Definition ProcessOPoIDataMessage (msg : COPoIDataMsg) (c : OPoICache) : outcome :=
  if str_empty (dm_destStakeAddress msg) || str_empty (dm_requestId msg) then inl "missing-fields"
  else if too_large (dm_payloadHex msg) then inl "payload-too-large"
  else
    match GetRequest (dm_requestId msg) c with
    | None => inl "unknown-request"
    | Some req =>
      if negb (IsPending req) then inl "request-not-pending"
      else
        match expected_signer msg req c with
        | inl reason => inl reason
        | inr signer =>
          if negb (signed_by signer (data_message msg) (dm_sig msg)) then inl "bad-sig"
          else inr (AddPendingDelivery (dm_destStakeAddress msg) (delivery_of msg) c)
        end
    end.

(** The hash the chain has committed to for a content. *)
Definition expected_hash (requestId : string) (kind : Z) (c : OPoICache) : string + Z :=
  if kind =? OPOI_CONTENT_TEST_SUITE then
    match GetRequest requestId c with
    | Some req => if req_taskType req =? OPOI_TASK_VERIFIABLE then inr (req_testSuite req)
                  else inl "unknown-or-not-verifiable-request"
    | None => inl "unknown-or-not-verifiable-request"
    end
  else if kind =? OPOI_CONTENT_RESPONSE then
    match GetResponse requestId c with
    | Some resp => if IsRevealed resp then inr (resp_responseHash resp) else inl "no-revealed-response"
    | None => inl "no-revealed-response"
    end
  else inl "bad-kind".

Definition ProcessOPoIContentMessage (msg : COPoIContentMsg) (c : OPoICache) : outcome :=
  if str_empty (cm_requestId msg) then inl "missing-fields"
  else if too_large (cm_payloadHex msg) then inl "payload-too-large"
  else if HasContent (cm_requestId msg) (cm_kind msg) c then inl "already-known"
  else
    match expected_hash (cm_requestId msg) (cm_kind msg) c with
    | inl reason => inl reason
    | inr expectedHash =>
      if uint256_IsNull expectedHash then inl "no-expected-hash"
      else if negb (bool_decide (HexStr (SHA256 (ParseHex (cm_payloadHex msg))) = uint256_GetHex expectedHash))
      then inl "hash-mismatch"
      else inr (AddContent (cm_requestId msg) (cm_kind msg) (cm_payloadHex msg) c)
    end.

(** * Flooding *)

(** A node: its cache and, for each peer of [vNodes], [setKnown]. *)
Record Relay := mkRelay { rl_cache : OPoICache; setKnown : gmap Z (gset Z) }.

(** [pnode->setKnown.insert(h).second] over [vNodes]: the peers the message is
    pushed to. *)
Definition unaware (h : Z) (known : gmap Z (gset Z)) : gset Z := dom (filter (fun p => h ∉ p.2) known).
Definition all_know (h : Z) (known : gmap Z (gset Z)) : gmap Z (gset Z) := (fun s => {[h]} ∪ s) <$> known.

(** The handler of "opoidata": the node afterwards and the peers the message
    is pushed to. *)
Definition HandleOPoIData (pfrom : Z) (msg : COPoIDataMsg) (n : Relay) : Relay * gset Z :=
  let msgHash := COPoIDataMsg_GetHash msg in
  let known := alter (fun s => {[msgHash]} ∪ s) pfrom (setKnown n) in
  if HasKnownOPoIDataHash msgHash (rl_cache n) then (mkRelay (rl_cache n) known, ∅)
  else
    match ProcessOPoIDataMessage msg (rl_cache n) with
    | inl _ => (mkRelay (rl_cache n) known, ∅)
    | inr c => (mkRelay (MarkOPoIDataHashKnown msgHash c) (all_know msgHash known), unaware msgHash known)
    end.

(** The handler of "opoicontent". *)
Definition HandleOPoIContent (pfrom : Z) (msg : COPoIContentMsg) (n : Relay) : Relay * gset Z :=
  let msgHash := COPoIContentMsg_GetHash msg in
  let known := alter (fun s => {[msgHash]} ∪ s) pfrom (setKnown n) in
  match ProcessOPoIContentMessage msg (rl_cache n) with
  | inl _ => (mkRelay (rl_cache n) known, ∅)
  | inr c => (mkRelay c (all_know msgHash known), unaware msgHash known)
  end.
End process.

(** * Who may deliver *)

(** The roles the chain gives for each kind of delivery. *)
Definition may_send (msg : COPoIDataMsg) (req : OPoIRequest) (c : OPoICache) (signer : string) : Prop :=
  (dm_kind msg = OPOI_DELIVERY_PROMPT /\ signer = req_requester req)
  \/ (dm_kind msg = OPOI_DELIVERY_SHARD_ASSIGN /\ signer = dm_senderAddress msg
      /\ IsClaimedCoordinator (dm_requestId msg) signer c = true)
  \/ (2 <= dm_kind msg <= 4 /\ signer = dm_senderAddress msg /\ IsActiveStaker signer c = true).

Section delivery.
Context `{Crypto}.

Lemma expected_signer_role msg req c signer : expected_signer msg req c = inr signer -> may_send msg req c signer.
Proof.
  unfold expected_signer, may_send. destruct (Z.eqb_spec (dm_kind msg) OPOI_DELIVERY_PROMPT); [intros [= <-]; by left|].
  destruct (Z.eqb_spec (dm_kind msg) OPOI_DELIVERY_SHARD_ASSIGN).
  - destruct (_ || _) eqn:E; [done|]. intros [= <-]. apply orb_false_iff in E as [_ E%negb_false_iff]. right. by left.
  - destruct (_ || _ || _) eqn:Ek; [|done]. destruct (str_empty _ || _) eqn:E; [done|]. intros [= <-].
    apply orb_false_iff in E as [_ E%negb_false_iff]. right. right. split; [|done].
    apply orb_true_iff in Ek as [[?%Z.eqb_eq|?%Z.eqb_eq]%orb_true_iff|?%Z.eqb_eq];
      unfold OPOI_DELIVERY_SHARD_RESULT, OPOI_DELIVERY_MODEL_CHUNK_REQUEST, OPOI_DELIVERY_MODEL_CHUNK in *; lia.
Qed.

Lemma data_accepted msg c c' :
  ProcessOPoIDataMessage msg c = inr c' ->
  c' = AddPendingDelivery (dm_destStakeAddress msg) (delivery_of msg) c /\ too_large (dm_payloadHex msg) = false /\
  exists req signer, GetRequest (dm_requestId msg) c = Some req /\ IsPending req = true /\
    may_send msg req c signer /\ signed_by signer (data_message msg) (dm_sig msg) = true.
Proof.
  unfold ProcessOPoIDataMessage. destruct (_ || _); [done|]. destruct (too_large _) eqn:El; [done|].
  destruct (GetRequest _ c) as [req|] eqn:Er; [|done]. destruct (IsPending req) eqn:Ep; [|done]. cbn [negb].
  destruct (expected_signer msg req c) as [|signer] eqn:Es; [done|]. destruct (signed_by _ _ _) eqn:Esig; [|done].
  intros [= <-]. split_and!; [done|done|]. exists req, signer. split_and!; [done|done|by apply expected_signer_role|done].
Qed.

(** C30. A delivery is stored only for a request that is still pending and only
    with the signature of the address the chain gives the role to: the requester
    for a prompt, a claimed coordinator for an assignment, an active staker for
    a result or a model chunk.  It changes the mailbox of the addressee and
    nothing else. *)
Theorem delivery_is_authorised (msg : COPoIDataMsg) (c c' : OPoICache) :
  ProcessOPoIDataMessage msg c = inr c' ->
  c' = AddPendingDelivery (dm_destStakeAddress msg) (delivery_of msg) c /\
  Z.of_nat (String.length (dm_payloadHex msg)) <= OPOI_DELIVERY_MAX_PAYLOAD_HEX /\
  exists req signer pk, GetRequest (dm_requestId msg) c = Some req /\ IsPending req = true /\
    may_send msg req c signer /\ DecodeDestination signer = CKeyID (GetID pk) /\
    RecoverCompact (message_hash (data_message msg)) (dm_sig msg) = Some pk.
Proof.
  intros Hp. apply data_accepted in Hp as (-> & Hl & req & signer & Hr & Hpend & Hrole & Hs).
  split; [done|]. split; [unfold too_large in Hl; lia|].
  unfold signed_by in Hs. destruct (VerifyOPoISig _ _ _) as [pk|] eqn:Ev; [|done].
  apply VerifyOPoISig_spec in Ev as (_ & Hd & Hrec). by exists req, signer, pk.
Qed.

(** The deduplication can be evaded: the signature does not cover the
    time stamp, so a message that was accepted is accepted again with any other
    time stamp, which gives it another hash, and the addressee's mailbox grows
    each time. *)
Theorem delivery_can_be_replayed (msg : COPoIDataMsg) (sigTime : Z) (c c' : OPoICache) :
  ProcessOPoIDataMessage msg c = inr c' ->
  let replay := mkCOPoIDataMsg (dm_destStakeAddress msg) (dm_requestId msg) (dm_kind msg) (dm_senderAddress msg)
                  (dm_payloadHex msg) sigTime (dm_sig msg) in
  exists c'', ProcessOPoIDataMessage replay c' = inr c'' /\
    length (default [] (mapPendingDeliveries c'' !! dm_destStakeAddress msg)) =
    S (length (default [] (mapPendingDeliveries c' !! dm_destStakeAddress msg))).
Proof.
  intros Hp replay. pose proof (data_accepted _ _ _ Hp) as (-> & _). set (c' := AddPendingDelivery _ _ c).
  exists (AddPendingDelivery (dm_destStakeAddress msg) (delivery_of replay) c'). split.
  - assert (Hes : forall req, expected_signer replay req c' = expected_signer msg req c) by reflexivity.
    revert Hp. unfold ProcessOPoIDataMessage. cbn [replay dm_destStakeAddress dm_requestId dm_payloadHex dm_sig].
    change (GetRequest (dm_requestId msg) c') with (GetRequest (dm_requestId msg) c).
    change (data_message replay) with (data_message msg). destruct (_ || _); [done|]. destruct (too_large _); [done|].
    destruct (GetRequest _ c) as [req|]; [|done]. destruct (negb (IsPending req)); [done|]. rewrite Hes.
    destruct (expected_signer msg req c); [done|]. by destruct (negb _).
  - unfold AddPendingDelivery. cbn. rewrite !lookup_insert_eq. cbn. rewrite !length_app. cbn. lia.
Qed.
End delivery.

(** * The content cache *)

Definition content_ok (c : OPoICache) : Prop :=
  forall requestId kind payload, GetContent requestId kind c = Some payload ->
  exists h, expected_hash requestId kind c = inr h /\ HexStr (SHA256 (ParseHex payload)) = uint256_GetHex h.

Lemma ContentKey_inj id kind id' kind' : ContentKey id kind = ContentKey id' kind' -> id = id' /\ kind = kind'.
Proof. intros [-> E]%composite_key_inj; [split; [done|by apply dec_inj]|apply colon_free_dec..]. Qed.

Lemma GetContent_AddContent id kind id' kind' p q c :
  GetContent id kind (AddContent id' kind' p c) = Some q ->
  (id' = id /\ kind' = kind /\ p = q) \/ GetContent id kind c = Some q.
Proof.
  unfold GetContent, AddContent. cbn [mapContentByKey set]. intros [[E <-]|[_ Hq]]%lookup_insert_Some; [left|by right].
  by apply ContentKey_inj in E as [-> ->].
Qed.

Lemma expected_hash_AddContent id kind id' kind' p c :
  expected_hash id kind (AddContent id' kind' p c) = expected_hash id kind c.
Proof. reflexivity. Qed.

(** What a node receives from its peers. *)
Inductive message := DataMessage (msg : COPoIDataMsg) | ContentMessage (msg : COPoIContentMsg).

Section content.
Context `{Crypto}.

Definition receive (pfrom : Z) (m : message) (n : Relay) : Relay * gset Z :=
  match m with
  | DataMessage msg => HandleOPoIData pfrom msg n
  | ContentMessage msg => HandleOPoIContent pfrom msg n
  end.

Lemma process_content_ok msg c c' : ProcessOPoIContentMessage msg c = inr c' -> content_ok c -> content_ok c'.
Proof.
  unfold ProcessOPoIContentMessage. destruct (str_empty _); [done|]. destruct (too_large _); [done|].
  destruct (HasContent _ _ c); [done|]. destruct (expected_hash _ _ c) as [|h] eqn:Eh; [done|].
  destruct (uint256_IsNull h); [done|]. case_bool_decide as Hhash; [|done]. cbn [negb]. intros [= <-] Hok.
  intros id kind payload [[<- [<- <-]]|Hp]%GetContent_AddContent; rewrite expected_hash_AddContent; [by exists h|by apply Hok].
Qed.

Lemma receive_content_ok pfrom m n : content_ok (rl_cache n) -> content_ok (rl_cache (receive pfrom m n).1).
Proof.
  intros Hok. destruct m as [msg|msg]; cbn.
  - unfold HandleOPoIData. cbv zeta. case_match; [done|].
    destruct (ProcessOPoIDataMessage _ _) as [|c'] eqn:E; [done|]. by apply data_accepted in E as (-> & _).
  - unfold HandleOPoIContent. cbv zeta. destruct (ProcessOPoIContentMessage _ _) as [|c'] eqn:E; [done|].
    by apply process_content_ok in E.
Qed.

(** The content cache cannot be poisoned: whatever messages arrive from
    whatever peers, every content stored hashes to what the chain committed to
    for its request and kind, without any signature. *)
Theorem content_cache_sound (n : Relay) (messages : list (Z * message)) :
  content_ok (rl_cache n) -> content_ok (rl_cache (foldl (fun n pm => (receive pm.1 pm.2 n).1) n messages)).
Proof.
  intros Hok. apply (foldl_inv (fun n => content_ok (rl_cache n))); [done|].
  intros m [pfrom msg] _. apply receive_content_ok.
Qed.
End content.

(** * Flooding ends *)

(** The peers of a node that may still be sent the message. *)
Definition pending_links (h : Z) (n : Relay) : nat := size (unaware h (setKnown n)).

Lemma unaware_all_know h known : unaware h (all_know h known) = ∅.
Proof.
  unfold unaware, all_know. apply dom_empty_iff_L, map_empty. intros p.
  apply map_lookup_filter_None. right. intros s Hs. rewrite lookup_fmap in Hs.
  destruct (known !! p); [|done]. injection Hs as <-. set_solver.
Qed.

Lemma unaware_told h p known : unaware h (alter (fun s => {[h]} ∪ s) p known) ⊆ unaware h known.
Proof.
  intros q. unfold unaware. rewrite !elem_of_dom. intros [s Hs]. apply map_lookup_filter_Some in Hs as [Hs Hn]. cbn in Hn.
  exists s. apply map_lookup_filter_Some. split; [|done]. destruct (decide (p = q)) as [->|Hne].
  - rewrite lookup_alter_eq in Hs. destruct (known !! q); [|done]. injection Hs as <-. set_solver.
  - by rewrite lookup_alter_ne in Hs.
Qed.

Section flood.
Context `{Crypto} (m : message).

Definition message_hash_of : Z :=
  match m with DataMessage msg => COPoIDataMsg_GetHash msg | ContentMessage msg => COPoIContentMsg_GetHash msg end.

(** Every push uses up the link it goes over. *)
Lemma receive_links pfrom n n' sent :
  receive pfrom m n = (n', sent) ->
  (size sent + pending_links message_hash_of n' <= pending_links message_hash_of n)%nat.
Proof.
  assert (Hold : forall h c, (size (∅ : gset Z) + pending_links h (mkRelay c (alter (fun s => {[h]} ∪ s) pfrom (setKnown n)))
    <= pending_links h n)%nat).
  { intros h c. rewrite size_empty. apply subseteq_size, unaware_told. }
  assert (Hpush : forall h c, let known := alter (fun s => {[h]} ∪ s) pfrom (setKnown n) in
    (size (unaware h known) + pending_links h (mkRelay c (all_know h known)) <= pending_links h n)%nat).
  { intros h c known. unfold pending_links at 1. cbn. rewrite unaware_all_know, size_empty, Nat.add_0_r.
    apply subseteq_size, unaware_told. }
  unfold receive, message_hash_of. destruct m as [msg|msg]; [unfold HandleOPoIData|unfold HandleOPoIContent]; cbv zeta.
  - case_match; [intros [= <- <-]; apply Hold|]. case_match; intros [= <- <-]; [apply Hold|apply Hpush].
  - case_match; intros [= <- <-]; [apply Hold|apply Hpush].
Qed.

(** A network: its nodes, and the copies of the message in transit, each
    from one node to another. *)
Record Network := mkNetwork { nodes : list Relay; in_transit : list (nat * nat) }.

(** One copy arrives, in any order. *)
Inductive deliver : Network -> Network -> Prop :=
  | deliver_copy ns before after from to n n' sent :
      ns !! to = Some n -> receive (Z.of_nat from) m n = (n', sent) ->
      deliver (mkNetwork ns (before ++ (from, to) :: after))
        (mkNetwork (<[to := n']> ns) (before ++ after ++ map (fun p => (to, Z.to_nat p)) (elements sent))).

Definition flood_measure (w : Network) : nat :=
  length (in_transit w) + sum_list_with (pending_links message_hash_of) (nodes w).

Lemma sum_list_with_insert {A} (f : A -> nat) (l : list A) i x y :
  l !! i = Some x -> (sum_list_with f (<[i := y]> l) + f x = sum_list_with f l + f y)%nat.
Proof.
  revert i. induction l as [|z l IH]; intros [|i] Hi; [done|done|injection Hi as ->; cbn; lia|].
  change (<[S i := y]> (z :: l)) with (z :: <[i := y]> l). cbn [sum_list_with]. specialize (IH i Hi). lia.
Qed.

Lemma deliver_decreases w w' : deliver w w' -> (flood_measure w' < flood_measure w)%nat.
Proof.
  intros [ns before after from to n n' sent Hn Hr]. apply receive_links in Hr.
  pose proof (sum_list_with_insert (pending_links message_hash_of) ns to n n' Hn) as Hsum.
  unfold flood_measure. cbn. rewrite !length_app, length_map. cbn [length]. unfold size, set_size in Hr. cbn in Hr. lia.
Qed.

(** C29. Flooding ends: on any network of nodes and links, in whatever order the
    copies arrive, a message is delivered at most as often as there are copies
    in transit and links over which it may still be pushed; no loop keeps it
    alive. *)
Theorem flooding_terminates (w w' : Network) (k : nat) :
  nsteps deliver k w w' -> (k <= flood_measure w)%nat.
Proof.
  revert w. induction k as [|k IH]; intros w Hk; [lia|]. inversion Hk as [|? ? w1 ? Hd Hrest]; subst.
  apply IH in Hrest. apply deliver_decreases in Hd. lia.
Qed.
End flood.

(** * Concrete instances *)

#[local] Existing Instance toyCrypto.

Definition sample_prompt : COPoIDataMsg := mkCOPoIDataMsg "m" "r1" OPOI_DELIVERY_PROMPT "" "68690a" 7 (string_bytes "alice").
Definition sample_pending : OPoICache := AddRequest (sample_request 100 2) emptyCache.

Lemma sample_prompt_accepted :
  ProcessOPoIDataMessage sample_prompt sample_pending = inr (AddPendingDelivery "m" (delivery_of sample_prompt) sample_pending).
Proof. vm_compute. reflexivity. Qed.

Lemma delivery_is_authorised_witness :
  exists req signer pk, GetRequest "r1" sample_pending = Some req /\ IsPending req = true /\
    may_send sample_prompt req sample_pending signer /\ DecodeDestination signer = CKeyID (GetID pk) /\
    RecoverCompact (message_hash (data_message sample_prompt)) (dm_sig sample_prompt) = Some pk.
Proof. eapply (delivery_is_authorised sample_prompt). apply sample_prompt_accepted. Defined.

Lemma delivery_can_be_replayed_witness :
  let c' := AddPendingDelivery "m" (delivery_of sample_prompt) sample_pending in
  exists c'', ProcessOPoIDataMessage (mkCOPoIDataMsg "m" "r1" OPOI_DELIVERY_PROMPT "" "68690a" 8 (string_bytes "alice")) c'
              = inr c''
    /\ length (default [] (mapPendingDeliveries c'' !! "m")) = S (length (default [] (mapPendingDeliveries c' !! "m"))).
Proof. apply (delivery_can_be_replayed sample_prompt 8 sample_pending). apply sample_prompt_accepted. Defined.

(** A verifiable request that commits to a test suite. *)
Definition sample_suite : COPoIContentMsg := mkCOPoIContentMsg "r1" OPOI_CONTENT_TEST_SUITE "abcd".
Definition sample_verifiable : OPoICache :=
  AddRequest ((sample_request 100 2) <| req_taskType := OPOI_TASK_VERIFIABLE |>
                <| req_testSuite := uint256_SetHex (HexStr (SHA256 (ParseHex "abcd"))) |>) emptyCache.
Definition sample_relay (c : OPoICache) (peers : list Z) : Relay := mkRelay c (list_to_map (map (fun p => (p, ∅)) peers)).

Lemma content_cache_sound_witness :
  let n := foldl (fun n pm => (receive pm.1 pm.2 n).1) (sample_relay sample_verifiable [1; 2]) [(1, ContentMessage sample_suite)] in
  GetContent "r1" OPOI_CONTENT_TEST_SUITE (rl_cache n) = Some "abcd" /\ content_ok (rl_cache n).
Proof.
  split; [vm_compute; reflexivity|]. apply content_cache_sound. intros id kind payload. unfold GetContent. cbn.
  by rewrite lookup_empty.
Defined.

Lemma flooding_terminates_witness :
  exists w w', deliver (ContentMessage sample_suite) w w' /\ length (in_transit w') = 2%nat /\
    (1 <= flood_measure (ContentMessage sample_suite) w)%nat.
Proof.
  pose (n := sample_relay sample_verifiable [1; 2; 3]).
  destruct (receive 1 (ContentMessage sample_suite) n) as [n' sent] eqn:E.
  assert (Hd : deliver (ContentMessage sample_suite) (mkNetwork [n] ([] ++ (1%nat, 0%nat) :: []))
    (mkNetwork (<[0%nat := n']> [n]) ([] ++ [] ++ map (fun p => (0%nat, Z.to_nat p)) (elements sent)))).
  { apply (deliver_copy _ [n] [] [] 1 0 n n' sent); [done|exact E]. }
  eexists _, _. split; [exact Hd|]. split.
  - assert (Hs : (receive 1 (ContentMessage sample_suite) n).2 = {[2; 3]}) by (vm_compute; reflexivity).
    rewrite E in Hs. cbn in Hs. rewrite Hs. vm_compute. reflexivity.
  - apply (flooding_terminates (ContentMessage sample_suite) _ _ 1%nat (nsteps_once _ _ Hd)).
Defined.
