(* ===== verification/ModelFixed.v ===== *)
(** The deterministic reference network (opoi_model_fixed.cpp): a perceptron
    with three layers over machine integers, whose weights come from a linear
    congruential generator and are kept in static tables filled on the first
    call. *)

From stdpp Require Import list.
From Stdlib Require Import ZArith Lia.
From S2P Require Import Prelude.

(** * Weights *)

Definition OPOI_MF_IN : nat := 32.
Definition OPOI_MF_H1 : nat := 256.
Definition OPOI_MF_H2 : nat := 128.
Definition OPOI_MF_OUT : nat := 32.
Definition OPOI_MODEL_FIXED_SEED : Z := 0xDEADBEEFCAFE.

Definition lcg_next (lcg_state : Z) : Z := u64 (6364136223846793005 * lcg_state + 1442695040888963407).

(** [lcg_weight]: the weight, given the state [lcg_next] left. *)
Definition lcg_weight (v : Z) : Z :=
  let raw := u32 (Z.land (Z.shiftr v 32) 0x7FFFFFFF) in
  if negb (Z.land raw 0x40000000 =? 0) then i32 (Z.lor raw 0x80000000) else i32 raw.

(** A run of [n] weights, and the state after it. *)
Fixpoint weights (n : nat) (s : Z) : list Z * Z :=
  match n with
  | O => ([], s)
  | S n' => let s1 := lcg_next s in let '(ws, s') := weights n' s1 in (lcg_weight s1 :: ws, s')
  end.

(** A table of [rows] rows of [cols] weights. *)
Fixpoint table (rows cols : nat) (s : Z) : list (list Z) * Z :=
  match rows with
  | O => ([], s)
  | S rows' => let '(row, s1) := weights cols s in let '(rest, s') := table rows' cols s1 in (row :: rest, s')
  end.

(** The static variables. *)
Record Statics := mkStatics {
  W1 : list (list Z); b1 : list Z;
  W2 : list (list Z); b2 : list Z;
  W3 : list (list Z); b3 : list Z;
  weights_initialized : bool;
  lcg_state : Z;
}.

(** Before the first call everything is zero. *)
Definition program_start : Statics :=
  mkStatics (replicate OPOI_MF_IN (replicate OPOI_MF_H1 0)) (replicate OPOI_MF_H1 0)
    (replicate OPOI_MF_H1 (replicate OPOI_MF_H2 0)) (replicate OPOI_MF_H2 0)
    (replicate OPOI_MF_H2 (replicate OPOI_MF_OUT 0)) (replicate OPOI_MF_OUT 0) false 0.

Definition ensure_weights (st : Statics) : Statics :=
  if weights_initialized st then st
  else
    let s := OPOI_MODEL_FIXED_SEED in
    let '(w1, s) := table OPOI_MF_IN OPOI_MF_H1 s in
    let '(c1, s) := weights OPOI_MF_H1 s in
    let '(w2, s) := table OPOI_MF_H1 OPOI_MF_H2 s in
    let '(c2, s) := weights OPOI_MF_H2 s in
    let '(w3, s) := table OPOI_MF_H2 OPOI_MF_OUT s in
    let '(c3, s) := weights OPOI_MF_OUT s in
    mkStatics w1 c1 w2 c2 w3 c3 true s.

(** * The forward pass *)

Definition relu32 (x : Z) : Z := if x <? 0 then 0 else x.

(** [acc += (int64_t)W[i][j] * (int64_t)x[i]] over [i], from the bias. *)
Definition accumulate (bias : Z) (products : list (Z * Z)) : Z :=
  foldl (fun acc wx => i64 (acc + i64 (wx.1 * wx.2))) bias products.

Definition column (W : list (list Z)) (j : nat) : list Z := map (fun row => nth j row 0) W.

Definition neuron (W : list (list Z)) (b xs : list Z) (j : nat) : Z := accumulate (nth j b 0) (zip (column W j) xs).

Definition hidden (W : list (list Z)) (b xs : list Z) (n : nat) : list Z :=
  map (fun j => relu32 (i32 (Z.shiftr (neuron W b xs j) 10))) (seq 0 n).

(** The XOR of the eight bytes of a word. *)
Definition fold_bytes (v : Z) : Z :=
  foldl (fun folded b => Z.lxor folded (u8 (Z.shiftr v (Z.of_nat b * 8)))) 0 (seq 0 8).

(** Each output byte is mixed with the one before. *)
Fixpoint mix (prev : Z) (folded : list Z) : list Z :=
  match folded with
  | [] => []
  | f :: folded' => let out := Z.lxor f prev in out :: mix out folded'
  end.

Definition opoi_model_fixed_forward (input : list Z) (st : Statics) : list Z * Statics :=
  let st := ensure_weights st in
  let h1 := hidden (W1 st) (b1 st) input OPOI_MF_H1 in
  let h2 := hidden (W2 st) (b2 st) h1 OPOI_MF_H2 in
  let out64 := map (neuron (W3 st) (b3 st) h2) (seq 0 OPOI_MF_OUT) in
  (mix 0 (map (fun v => fold_bytes (u64 v)) out64), st).

(** * The calls are independent *)

(** The commitment to an input, as a function of the input alone. *)
Definition commitment (input : list Z) : list Z := (opoi_model_fixed_forward input program_start).1.

Lemma ensure_weights_initialized st : weights_initialized (ensure_weights st) = true.
Proof.
  unfold ensure_weights. destruct (weights_initialized st) eqn:E; [done|].
  do 6 (match goal with |- context [let '(_, _) := ?p in _] => destruct p end). done.
Qed.

Lemma ensure_weights_idemp st : ensure_weights (ensure_weights st) = ensure_weights st.
Proof.
  pose proof (ensure_weights_initialized st) as E. set (st' := ensure_weights st) in *.
  unfold ensure_weights. by rewrite E.
Qed.

(** The statics a program can be in. *)
Definition statics_after (inputs : list (list Z)) : Statics :=
  foldl (fun st input => (opoi_model_fixed_forward input st).2) program_start inputs.

Lemma statics_after_weights inputs : ensure_weights (statics_after inputs) = ensure_weights program_start.
Proof.
  apply (foldl_inv (fun st => ensure_weights st = ensure_weights program_start)); [done|].
  intros st input _ IH. unfold opoi_model_fixed_forward. cbn [snd]. by rewrite ensure_weights_idemp.
Qed.

(** The network is a function: whatever calls were made before, a call
    returns the commitment of its input as computed by the first call of a
    fresh program. *)
Theorem forward_is_a_function (inputs : list (list Z)) (input : list Z) :
  (opoi_model_fixed_forward input (statics_after inputs)).1 = commitment input.
Proof.
  unfold commitment, opoi_model_fixed_forward. cbn [fst]. by rewrite statics_after_weights.
Qed.

(** * Ranges *)

Lemma lcg_weight_range v : - 2 ^ 30 <= lcg_weight v < 2 ^ 30.
Proof.
  unfold lcg_weight. change 0x7FFFFFFF with (Z.ones 31). rewrite Z.land_ones by lia.
  pose proof (Z.mod_pos_bound (Z.shiftr v 32) (2 ^ 31) ltac:(lia)) as Hr.
  rewrite u32_small by (unfold in_u32; lia). set (raw := Z.shiftr v 32 mod 2 ^ 31) in *.
  change 0x40000000 with (2 ^ 30). rewrite land_top_bit by lia. cbv zeta. destruct (Z.ltb_spec raw (2 ^ 30)); cbn [negb].
  - rewrite i32_small by (unfold in_i32; lia). lia.
  - change 0x80000000 with (1 * 2 ^ 31). rewrite lor_above by lia.
    replace (i32 (raw + 1 * 2 ^ 31)) with (raw - 2 ^ 31); [lia|]. unfold i32.
    replace (raw + 1 * 2 ^ 31 + 2 ^ 31) with (raw + 1 * 2 ^ 32) by lia. rewrite Z.mod_add, Z.mod_small by lia. lia.
Qed.

Lemma weights_range n s : Forall (fun w => - 2 ^ 30 <= w < 2 ^ 30) (weights n s).1 /\ length (weights n s).1 = n.
Proof.
  revert s. induction n as [|n IH]; intros s; [done|]. cbn. specialize (IH (lcg_next s)).
  destruct (weights n (lcg_next s)) as [ws s']. cbn in *. destruct IH as [IH Hl]. split; [|by rewrite Hl].
  constructor; [apply lcg_weight_range|done].
Qed.

Lemma table_range rows cols s :
  Forall (Forall (fun w => - 2 ^ 30 <= w < 2 ^ 30)) (table rows cols s).1 /\ length (table rows cols s).1 = rows.
Proof.
  revert s. induction rows as [|rows IH]; intros s; [done|]. cbn. pose proof (weights_range cols s) as [Hw _].
  destruct (weights cols s) as [row s1]. specialize (IH s1). destruct (table rows cols s1) as [rest s'].
  cbn in *. destruct IH as [IH Hl]. split; [by constructor|by rewrite Hl].
Qed.

Lemma nth_range (P : Z -> Prop) j l : P 0 -> Forall P l -> P (nth j l 0).
Proof. intros H0 Hl. revert j. induction Hl; intros [|j]; cbn; auto. Qed.

(** The sum without wrapping. *)
Definition exact_sum (bias : Z) (products : list (Z * Z)) : Z := foldl (fun acc wx => acc + wx.1 * wx.2) bias products.

Lemma accumulate_exact B K bias products :
  0 <= B -> 0 <= K -> Forall (fun wx => Z.abs (wx.1 * wx.2) <= B) products ->
  Z.abs bias <= K -> K + B * Z.of_nat (length products) < 2 ^ 63 ->
  accumulate bias products = exact_sum bias products /\
  Z.abs (exact_sum bias products) <= K + B * Z.of_nat (length products).
Proof.
  intros HB HK Hp. revert bias K HK. unfold accumulate, exact_sum.
  induction Hp as [|[w x] products Hwx Hp IH]; intros bias K HK Hb Hlim; cbn [foldl length fst snd] in *.
  { split; [done|]. lia. }
  rewrite (i64_small (w * x)), (i64_small (bias + w * x)) by (unfold in_i64; nia).
  destruct (IH (bias + w * x) (K + B)) as [-> Hs]; [lia|lia|nia|]. split; [done|]. nia.
Qed.

Abbreviation weight_ok := (fun w : Z => - 2 ^ 30 <= w < 2 ^ 30).

Lemma neuron_exact W b input j :
  Forall (Forall weight_ok) W -> Forall weight_ok b ->
  Forall (fun x => 0 <= x < 256) input -> (length input <= OPOI_MF_IN)%nat ->
  neuron W b input j = exact_sum (nth j b 0) (zip (column W j) input) /\ Z.abs (neuron W b input j) < 2 ^ 44.
Proof.
  intros HW Hb Hin Hlen. unfold OPOI_MF_IN in Hlen. unfold neuron. set (products := zip (column W j) input).
  assert (Hpl : (length products <= 32)%nat) by (unfold products; rewrite length_zip; lia).
  assert (Hprod : Forall (fun wx => Z.abs (wx.1 * wx.2) <= 2 ^ 38) products).
  { apply Forall_forall. intros [w x] Hwx. pose proof (elem_of_zip_l _ _ _ _ Hwx) as Hc.
    pose proof (elem_of_zip_r _ _ _ _ Hwx) as Hx. apply list_elem_of_fmap in Hc as (row & -> & Hrow).
    rewrite Forall_forall in HW. rewrite Forall_forall in Hin. specialize (HW row Hrow). specialize (Hin x Hx).
    pose proof (nth_range weight_ok j row ltac:(cbv beta; lia) HW) as Hw. cbv beta in Hw, Hin. cbn [fst snd].
    rewrite Z.abs_mul. transitivity (2 ^ 30 * 256); [|lia]. apply Z.mul_le_mono_nonneg; lia. }
  pose proof (nth_range weight_ok j b ltac:(cbv beta; lia) Hb) as Hbias. cbv beta in Hbias.
  destruct (accumulate_exact (2 ^ 38) (2 ^ 30) (nth j b 0) products) as [E Ha]; [lia|lia|done|lia|lia|].
  rewrite E. split; [done|]. lia.
Qed.

(** The tables of the first layer are in range once they are filled. *)
Lemma first_table_range :
  Forall (Forall weight_ok) (W1 (ensure_weights program_start)) /\ Forall weight_ok (b1 (ensure_weights program_start)).
Proof.
  unfold ensure_weights. change (weights_initialized program_start) with false. cbv iota.
  pose proof (table_range OPOI_MF_IN OPOI_MF_H1 OPOI_MODEL_FIXED_SEED) as [Ht _].
  destruct (table OPOI_MF_IN OPOI_MF_H1 OPOI_MODEL_FIXED_SEED) as [w1 s1].
  pose proof (weights_range OPOI_MF_H1 s1) as [Hb _]. destruct (weights OPOI_MF_H1 s1) as [c1 s2].
  destruct (table OPOI_MF_H1 OPOI_MF_H2 s2) as [w2 s3]. destruct (weights OPOI_MF_H2 s3) as [c2 s4].
  destruct (table OPOI_MF_H2 OPOI_MF_OUT s4) as [w3 s5]. destruct (weights OPOI_MF_OUT s5) as [c3 s6].
  split; [exact Ht|exact Hb].
Qed.

(** The first layer never overflows: for an input of at most 32 bytes every
    accumulator is the exact sum, below 2^44 in absolute value. *)
Theorem first_layer_exact (input : list Z) (j : nat) :
  Forall (fun x => 0 <= x < 256) input -> (length input <= OPOI_MF_IN)%nat ->
  let st := ensure_weights program_start in
  neuron (W1 st) (b1 st) input j = exact_sum (nth j (b1 st) 0) (zip (column (W1 st) j) input) /\
  Z.abs (neuron (W1 st) (b1 st) input j) < 2 ^ 44.
Proof. intros Hin Hlen st. apply neuron_exact; [apply first_table_range..|done|done]. Qed.

(** * The output *)

Fixpoint unmix (prev : Z) (out : list Z) : list Z :=
  match out with
  | [] => []
  | o :: out' => Z.lxor o prev :: unmix o out'
  end.

Lemma unmix_mix prev l : unmix prev (mix prev l) = l.
Proof.
  revert prev. induction l as [|f l IH]; intros prev; [done|]. cbn. rewrite IH. f_equal.
  by rewrite Z.lxor_assoc, Z.lxor_nilpotent, Z.lxor_0_r.
Qed.

Lemma lxor_byte a b : 0 <= a < 256 -> 0 <= b < 256 -> 0 <= Z.lxor a b < 256.
Proof.
  intros Ha Hb. split; [apply Z.lxor_nonneg; lia|].
  enough (Z.lxor a b = Z.lxor a b mod 2 ^ 8) as -> by (apply Z.mod_pos_bound; lia).
  apply Z.bits_inj'. intros i Hi. destruct (Z.lt_ge_cases i 8).
  - by rewrite Z.mod_pow2_bits_low by lia.
  - rewrite Z.mod_pow2_bits_high, Z.lxor_spec by lia.
    rewrite <- (Z.mod_small a (2 ^ 8)), <- (Z.mod_small b (2 ^ 8)) by lia. by rewrite !Z.mod_pow2_bits_high by lia.
Qed.

Lemma fold_bytes_range v : 0 <= fold_bytes v < 256.
Proof.
  unfold fold_bytes. apply (foldl_inv (fun x => 0 <= x < 256)); [lia|]. intros a b _ Ha.
  apply lxor_byte; [done|]. apply Z.mod_pos_bound. lia.
Qed.

Lemma mix_range prev l :
  0 <= prev < 256 -> Forall (fun x => 0 <= x < 256) l -> Forall (fun x => 0 <= x < 256) (mix prev l).
Proof.
  intros Hp Hl. revert prev Hp. induction Hl as [|f l Hf _ IH]; intros prev Hp; cbn; [constructor|].
  constructor; [|apply IH]; by apply lxor_byte.
Qed.

Lemma length_mix prev l : length (mix prev l) = length l.
Proof. revert prev. induction l as [|f l IH]; intros prev; cbn; [done|]. by rewrite IH. Qed.

(** The output is 32 bytes, and the mixing loses nothing: the folded words
    of the last layer can be read back from them, so two commitments are equal
    exactly when all folded words are. *)
Theorem output_mixing_invertible (input : list Z) (st : Statics) :
  let '(output, st') := opoi_model_fixed_forward input st in
  length output = 32%nat /\ Forall (fun x => 0 <= x < 256) output /\
  unmix 0 output =
    map (fun v => fold_bytes (u64 v))
      (map (neuron (W3 st') (b3 st') (hidden (W2 st') (b2 st') (hidden (W1 st') (b1 st') input OPOI_MF_H1) OPOI_MF_H2))
         (seq 0 OPOI_MF_OUT)).
Proof.
  unfold opoi_model_fixed_forward. split_and!.
  - by rewrite length_mix, !length_map, length_seq.
  - apply mix_range; [lia|]. apply Forall_map, Forall_true. intros v. apply fold_bytes_range.
  - apply unmix_mix.
Qed.

Lemma first_layer_exact_witness :
  let st := ensure_weights program_start in
  neuron (W1 st) (b1 st) (replicate 32 255) 7 =
    exact_sum (nth 7 (b1 st) 0) (zip (column (W1 st) 7) (replicate 32 255)) /\
  Z.abs (neuron (W1 st) (b1 st) (replicate 32 255) 7) < 2 ^ 44.
Proof. apply (first_layer_exact (replicate 32 255) 7); [by apply Forall_replicate|unfold OPOI_MF_IN; cbn; lia]. Defined.
