(* ===== verification/CSApp.v ===== *)
(** The application registry (csapp/csapp.h, csapp/csapp.cpp): the in-memory
    cache of deployed applications, how blocks change it when they are connected
    and disconnected (main.cpp), the validity of application transactions
    ([CheckTransaction]) and the rebuild from the chain.

    The theorems: the cache is the product of independent histories, one per
    deployment; a node that only connected blocks has the cache a rebuild
    computes; what disconnecting restores, and what it does not; and what the
    validity rules leave open. *)

From stdpp Require Import gmap strings list.
From Stdlib Require Import ZArith Lia.
From S2P Require Import Prelude Transaction Platform.

Open Scope verdict_scope.

Definition CSAPP_STATUS_RUNNING : Z := 1.
Definition CSAPP_STATUS_STOPPED : Z := 2.
Definition CSAPP_STATUS_EXPIRED : Z := 3.

Record CSAppData := mkCSAppData {
  app_deploymentId : string;
  app_owner : string;
  app_specJson : string;
  app_ip : string;
  app_registeredAt : Z;
  app_updatedAt : Z;
  app_status : Z;
  app_lockedCscoin : Z;
  app_txHash : Z;
  app_lastTxHash : Z;
}.

#[global] Instance eta_CSAppData : Eta CSAppData := fun r =>
  mkCSAppData (app_deploymentId r) (app_owner r) (app_specJson r) (app_ip r) (app_registeredAt r)
    (app_updatedAt r) (app_status r) (app_lockedCscoin r) (app_txHash r) (app_lastTxHash r).

#[global] Instance CSAppData_eq_dec : EqDecision CSAppData.
Proof. solve_decision. Defined.

(** [CSAppCache]: [mapApps]. *)
Abbreviation CSAppCache := (gmap string CSAppData).

(** * The cache *)

Definition AddApp (data : CSAppData) (c : CSAppCache) : bool * CSAppCache := (true, <[app_deploymentId data := data]> c).

(** [haystack.find(needle) != npos]. *)
Fixpoint contains (needle haystack : string) : bool :=
  String.prefix needle haystack || match haystack with EmptyString => false | String _ rest => contains needle rest end.

Definition quote : string := String (Ascii.ascii_of_nat 34) EmptyString.
Definition resume_key : string := quote +:+ "csapp_resume" +:+ quote +:+ ":".

(** The specification asks for the slot to go back to running. *)
Definition asks_resume (specJson : string) : bool :=
  contains (resume_key +:+ "true") specJson || contains (resume_key +:+ " true") specJson.

Definition UpdateApp (deploymentId specJson : string) (blockHeight txHash : Z) (c : CSAppCache) : bool * CSAppCache :=
  match c !! deploymentId with
  | None => (false, c)
  | Some d =>
    let d := d <| app_specJson := specJson |> <| app_updatedAt := blockHeight |> <| app_lastTxHash := txHash |> in
    let d := if asks_resume specJson then d <| app_status := CSAPP_STATUS_RUNNING |> else d in
    (true, <[deploymentId := d]> c)
  end.

Definition StopApp (deploymentId : string) (blockHeight txHash : Z) (expired : bool) (c : CSAppCache) : bool * CSAppCache :=
  match c !! deploymentId with
  | None => (false, c)
  | Some d =>
    (true, <[deploymentId :=
      d <| app_status := if expired then CSAPP_STATUS_EXPIRED else CSAPP_STATUS_STOPPED |>
        <| app_updatedAt := blockHeight |> <| app_lastTxHash := txHash |>]> c)
  end.

Definition GetApp (deploymentId : string) (c : CSAppCache) : option CSAppData := c !! deploymentId.

Definition ListApps (statusFilter : Z) (c : CSAppCache) : list CSAppData :=
  filter (fun d => statusFilter < 0 \/ app_status d = statusFilter) (items c).*2.

Definition Size (c : CSAppCache) : Z := Z.of_nat (size c).

(** * Transactions *)

(** The record a REGISTER creates. *)
Definition registered (tx : CTransaction) (blockHeight : Z) : CSAppData :=
  mkCSAppData (csappDeploymentId tx) (csappOwner tx) (csappSpecJson tx) (csappIp tx) blockHeight blockHeight
    CSAPP_STATUS_RUNNING (csappLockedAmount tx) (GetHash tx) (GetHash tx).

Definition undo_app (tx : CTransaction) (c : CSAppCache) : CSAppCache :=
  if nType tx =? CSAPP_REGISTER_TX_TYPE then delete (csappDeploymentId tx) c
  else if (nType tx =? CSAPP_UPDATE_TX_TYPE) || (nType tx =? CSAPP_STOP_TX_TYPE) then
    match c !! csappDeploymentId tx with
    | Some d => <[csappDeploymentId tx := d <| app_status := CSAPP_STATUS_RUNNING |>]> c
    | None => c
    end
  else c.

Definition apply_app (tx : CTransaction) (blockHeight : Z) (c : CSAppCache) : CSAppCache :=
  if nType tx =? CSAPP_REGISTER_TX_TYPE then (AddApp (registered tx blockHeight) c).2
  else if nType tx =? CSAPP_UPDATE_TX_TYPE then
    (UpdateApp (csappDeploymentId tx) (csappSpecJson tx) blockHeight (GetHash tx) c).2
  else if nType tx =? CSAPP_STOP_TX_TYPE then (StopApp (csappDeploymentId tx) blockHeight (GetHash tx) false c).2
  else c.

Definition ProcessCSAppTransaction (tx : CTransaction) (blockHeight : Z) (fUndo : bool) (c : CSAppCache) : bool * CSAppCache :=
  if negb (nVersion tx =? CSAPP_TX_VERSION) then (false, c)
  else if fUndo then (true, undo_app tx c)
  else (true, apply_app tx blockHeight c).

(** The application rules of [CheckTransaction]. *)
Definition CheckTransactionCSApp (tx : CTransaction) : Verdict :=
  reject DoS 10 "bad-txns-csapp-tx-not-empty"
    when IsCSAppTx tx && (negb (bool_decide (vout tx = [])) || negb (bool_decide (vin tx = []))
                          || negb (bool_decide (vJoinSplit tx = [])));
  if IsCSAppTx tx then
    reject DoS 10 "bad-txns-csapp-tx-no-deployment-id" when bool_decide (csappDeploymentId tx = "");
    reject DoS 10 "bad-txns-csapp-tx-no-owner" when bool_decide (csappOwner tx = "");
    reject DoS 10 "bad-txns-csapp-tx-invalid-type"
      when negb (nType tx =? CSAPP_REGISTER_TX_TYPE) && negb (nType tx =? CSAPP_UPDATE_TX_TYPE)
           && negb (nType tx =? CSAPP_STOP_TX_TYPE);
    Accept
  else Accept.

(** * Blocks *)

(** One round of [ConnectBlock]'s loop; [fJustCheck] and [fIsVerifying] guard
    the inference call after it and not this one. *)
Definition connect_app (nHeight : Z) (c : CSAppCache) (tx : CTransaction) : CSAppCache :=
  if negb (IsCoinBase tx) && IsCSAppTx tx then (ProcessCSAppTransaction tx (u32 nHeight) false c).2 else c.

(** [ConnectBlock] on the registry, for the transactions the loop reaches: all
    of an accepted block, the first ones of a rejected block. *)
Definition ConnectBlockCSApp (fJustCheck fIsVerifying : bool) (nHeight : Z) (reached : list CTransaction)
    (c : CSAppCache) : CSAppCache :=
  foldl (connect_app nHeight) c reached.

(** [DisconnectBlock]'s loop, from the last transaction to the first. *)
Definition DisconnectBlockCSApp (nHeight : Z) (vtx : list CTransaction) (c : CSAppCache) : CSAppCache :=
  foldr (fun tx c => if IsCSAppTx tx then (ProcessCSAppTransaction tx (u32 nHeight) true c).2 else c) c vtx.

(** [RebuildCSAppCache]: the active chain from its genesis; a block that cannot
    be read is skipped. *)
Definition RebuildCSAppCache (chain : list (Z * option (list CTransaction))) (c : CSAppCache) : CSAppCache :=
  foldl (fun c '(nHeight, block) =>
    match block with
    | Some vtx =>
      foldl (fun c tx => if nVersion tx =? CSAPP_TX_VERSION then (ProcessCSAppTransaction tx (u32 nHeight) false c).2 else c) c vtx
    | None => c
    end) ∅ chain.

(** * Histories

    What one transaction does to the record of one deployment, and what a
    history does. *)

Definition app_step (id : string) (o : option CSAppData) (e : Z * CTransaction) : option CSAppData :=
  let '(h, tx) := e in
  if negb (bool_decide (csappDeploymentId tx = id)) then o
  else if nType tx =? CSAPP_REGISTER_TX_TYPE then Some (registered tx h)
  else
    d ← o;
    if nType tx =? CSAPP_UPDATE_TX_TYPE then
      Some (d <| app_specJson := csappSpecJson tx |> <| app_updatedAt := h |> <| app_lastTxHash := hash tx |>
              <| app_status ::= fun s => if asks_resume (csappSpecJson tx) then CSAPP_STATUS_RUNNING else s |>)
    else if nType tx =? CSAPP_STOP_TX_TYPE then
      Some (d <| app_status := CSAPP_STATUS_STOPPED |> <| app_updatedAt := h |> <| app_lastTxHash := hash tx |>)
    else Some d.

Definition app_history (id : string) (events : list (Z * CTransaction)) : option CSAppData :=
  foldl (app_step id) None events.

(** The application transactions of a chain in order, with their heights. *)
Definition app_events (chain : list (Z * list CTransaction)) : list (Z * CTransaction) :=
  concat (map (fun '(h, vtx) => map (pair (u32 h)) (base.filter (fun tx => IsCSAppTx tx = true) vtx)) chain).

(** The registry of a node that connected the blocks of [chain] in order. *)
Definition connected (chain : list (Z * list CTransaction)) : CSAppCache :=
  foldl (fun c '(h, vtx) => ConnectBlockCSApp false false h vtx c) ∅ chain.

(** ** Lemmas *)

Lemma apply_app_lookup tx h c id : apply_app tx h c !! id = app_step id (c !! id) (h, tx).
Proof.
  unfold apply_app, app_step, AddApp, UpdateApp, StopApp, GetHash. cbn [snd].
  case_bool_decide as Hid; cbn [negb].
  - subst id. destruct (nType tx =? CSAPP_REGISTER_TX_TYPE); [by rewrite lookup_insert_eq|].
    destruct (nType tx =? CSAPP_UPDATE_TX_TYPE); [|destruct (nType tx =? CSAPP_STOP_TX_TYPE)].
    + destruct (c !! csappDeploymentId tx) as [d|] eqn:E; cbn [snd mbind option_bind]; [|by rewrite E].
      rewrite lookup_insert_eq. by destruct (asks_resume _).
    + destruct (c !! csappDeploymentId tx) as [d|] eqn:E; cbn [snd mbind option_bind]; [|by rewrite E].
      by rewrite lookup_insert_eq.
    + by destruct (c !! csappDeploymentId tx).
  - repeat case_match; cbn [snd app_deploymentId registered]; rewrite ?lookup_insert_ne by done; done.
Qed.

(** Accepted application transactions are not coinbases. *)
Lemma checked_not_coinbase tx : CheckTransactionCSApp tx = Accept -> IsCSAppTx tx = true -> IsCoinBase tx = false.
Proof.
  unfold CheckTransactionCSApp. intros Hc Ht. rewrite Ht in Hc. apply accept_guard in Hc as [Hc _].
  cbn [andb] in Hc. rewrite !orb_false_iff, !negb_false_iff, !bool_decide_eq_true in Hc.
  destruct Hc as [[_ Hv] _]. unfold IsCoinBase. by rewrite Hv.
Qed.

Abbreviation checked := (Forall (fun tx => CheckTransactionCSApp tx = Accept)).

Definition block_events (h : Z) (vtx : list CTransaction) : list (Z * CTransaction) :=
  map (pair (u32 h)) (base.filter (fun tx => IsCSAppTx tx = true) vtx).

Lemma connect_app_checked h c tx :
  CheckTransactionCSApp tx = Accept -> connect_app h c tx = if IsCSAppTx tx then apply_app tx (u32 h) c else c.
Proof.
  intros Hc. unfold connect_app, ProcessCSAppTransaction. destruct (IsCSAppTx tx) eqn:Et; [|by rewrite andb_false_r].
  rewrite (checked_not_coinbase tx) by done. cbn [negb andb]. change (nVersion tx =? CSAPP_TX_VERSION) with (IsCSAppTx tx).
  by rewrite Et.
Qed.

Lemma connect_block_lookup v1 v2 h vtx c id :
  checked vtx -> ConnectBlockCSApp v1 v2 h vtx c !! id = foldl (app_step id) (c !! id) (block_events h vtx).
Proof.
  intros Hv. unfold ConnectBlockCSApp. revert c. induction Hv as [|tx vtx Ht _ IH]; intros c; [done|].
  cbn [foldl]. rewrite IH, connect_app_checked by done. unfold block_events. rewrite filter_cons.
  destruct (IsCSAppTx tx) eqn:Et.
  - rewrite decide_True by done. cbn [map foldl]. by rewrite apply_app_lookup.
  - by rewrite decide_False by done.
Qed.

Lemma connected_from chain c id :
  Forall (fun b => checked b.2) chain ->
  foldl (fun c '(h, vtx) => ConnectBlockCSApp false false h vtx c) c chain !! id = foldl (app_step id) (c !! id) (app_events chain).
Proof.
  intros Hc. revert c. induction Hc as [|[h vtx] chain Hv _ IH]; intros c; [done|].
  cbn [foldl]. rewrite IH, connect_block_lookup by done. unfold app_events. cbn [map concat]. by rewrite foldl_app.
Qed.

Lemma connected_history chain id :
  Forall (fun b => checked b.2) chain -> connected chain !! id = app_history id (app_events chain).
Proof. intros Hc. unfold connected. by rewrite connected_from, lookup_empty. Qed.

(** * The registry is one history per deployment *)

(** After any accepted chain the record of a deployment is what the
    transactions that name it, in order, make of it: no other application can
    influence it. *)
Theorem registry_is_per_app (chain : list (Z * list CTransaction)) (id : string) :
  Forall (fun b => checked b.2) chain ->
  GetApp id (connected chain) =
  app_history id (base.filter (fun e => csappDeploymentId e.2 = id) (app_events chain)).
Proof.
  intros Hc. unfold GetApp. rewrite connected_history by done. unfold app_history.
  generalize (@None CSAppData). induction (app_events chain) as [|[h tx] es IH]; intros o; [done|].
  rewrite filter_cons. cbn [foldl snd]. case_decide as Hid; cbn [foldl]; [by rewrite IH|].
  rewrite IH. f_equal. cbn. by rewrite bool_decide_eq_false_2.
Qed.

(** ** Rebuilding *)

(** Rebuilding from the chain, whatever the cache held before, gives the
    registry of a node that connected the same blocks. *)
Theorem rebuild_is_connected (chain : list (Z * list CTransaction)) (stale : CSAppCache) :
  Forall (fun b => checked b.2) chain ->
  RebuildCSAppCache (map (fun b => (b.1, Some b.2)) chain) stale = connected chain.
Proof.
  intros Hc. unfold RebuildCSAppCache, connected. generalize (∅ : CSAppCache).
  induction Hc as [|[h vtx] chain Hv _ IH]; intros c; [done|]. cbn [map foldl fst snd].
  rewrite <- IH. f_equal. unfold ConnectBlockCSApp. clear IH. revert c. cbn [snd] in Hv.
  induction Hv as [|tx vtx Ht _ IH]; intros c; [done|]. cbn [foldl]. rewrite IH. f_equal.
  rewrite connect_app_checked by done. unfold IsCSAppTx, ProcessCSAppTransaction. by destruct (nVersion tx =? CSAPP_TX_VERSION).
Qed.

(** * Disconnecting *)

(** When undoing a transaction gives back the registry it was applied to. *)
Definition restorable (tx : CTransaction) (h : Z) (c : CSAppCache) : Prop :=
  if nType tx =? CSAPP_REGISTER_TX_TYPE then c !! csappDeploymentId tx = None
  else
    match c !! csappDeploymentId tx with
    | None => True
    | Some d =>
      if nType tx =? CSAPP_UPDATE_TX_TYPE then
        app_status d = CSAPP_STATUS_RUNNING /\ app_specJson d = csappSpecJson tx /\ app_updatedAt d = h /\
        app_lastTxHash d = hash tx
      else if nType tx =? CSAPP_STOP_TX_TYPE then
        app_status d = CSAPP_STATUS_RUNNING /\ app_updatedAt d = h /\ app_lastTxHash d = hash tx
      else True
    end.

Lemma insert_restores (c : CSAppCache) i x d : c !! i = Some d -> <[i := x]> c = c <-> x = d.
Proof.
  intros Hd. split.
  - intros E. apply (f_equal (lookup i)) in E. rewrite lookup_insert_eq, Hd in E. congruence.
  - intros ->. by apply insert_id.
Qed.

(** Undoing a transaction right after applying it restores the registry
    exactly when it was a REGISTER of a deployment unknown before, named an
    unknown deployment, or changed a running record to what it already was: for
    UPDATE and STOP the previous specification, status, height and hash are not
    kept. *)
Theorem undo_restores_iff (tx : CTransaction) (h : Z) (c : CSAppCache) :
  IsCSAppTx tx = true ->
  (ProcessCSAppTransaction tx h true (ProcessCSAppTransaction tx h false c).2).2 = c <-> restorable tx h c.
Proof.
  intros Ht. unfold ProcessCSAppTransaction. change (nVersion tx =? CSAPP_TX_VERSION) with (IsCSAppTx tx). rewrite Ht.
  cbn [negb snd]. unfold undo_app, apply_app, restorable, AddApp, UpdateApp, StopApp, GetHash. cbn [snd app_deploymentId registered].
  destruct (nType tx =? CSAPP_REGISTER_TX_TYPE).
  { rewrite delete_insert_eq. split; [|apply delete_id]. intros <-. apply lookup_delete_eq. }
  destruct (nType tx =? CSAPP_UPDATE_TX_TYPE); cbn [orb].
  { destruct (c !! csappDeploymentId tx) as [d|] eqn:E; cbn [snd]; [|by rewrite E].
    rewrite lookup_insert_eq, insert_insert_eq, (insert_restores _ _ _ d) by done.
    destruct d, (asks_resume _); cbn; (split; [intros [=]; by subst|intros (? & ? & ? & ?); by subst]). }
  destruct (nType tx =? CSAPP_STOP_TX_TYPE); [|by destruct (c !! _)].
  destruct (c !! csappDeploymentId tx) as [d|] eqn:E; cbn [snd]; [|by rewrite E].
  rewrite lookup_insert_eq, insert_insert_eq, (insert_restores _ _ _ d) by done.
  destruct d; cbn. split; [intros [=]; by subst|intros (? & ? & ?); by subst].
Qed.

(** A block that updates an application, connected and then disconnected by
    a reorganisation, leaves the abandoned specification, height and hash in
    the registry and marks the application running, while a rebuild from the
    chain has the record from before. *)
Theorem reorg_keeps_abandoned_update (chain : list (Z * list CTransaction)) (h : Z) (tx : CTransaction) (d : CSAppData)
    (stale : CSAppCache) :
  Forall (fun b => checked b.2) chain -> CheckTransactionCSApp tx = Accept -> IsCSAppTx tx = true ->
  nType tx = CSAPP_UPDATE_TX_TYPE -> GetApp (csappDeploymentId tx) (connected chain) = Some d ->
  GetApp (csappDeploymentId tx)
    (DisconnectBlockCSApp h [tx] (ConnectBlockCSApp false false h [tx] (connected chain))) =
  Some (d <| app_specJson := csappSpecJson tx |> <| app_updatedAt := u32 h |> <| app_lastTxHash := hash tx |>
          <| app_status := CSAPP_STATUS_RUNNING |>) /\
  GetApp (csappDeploymentId tx) (RebuildCSAppCache (map (fun b => (b.1, Some b.2)) chain) stale) = Some d.
Proof.
  intros Hc Hx Ht Hu Hd. split; [|by rewrite rebuild_is_connected]. unfold GetApp in *.
  unfold DisconnectBlockCSApp, ConnectBlockCSApp. cbn [foldl foldr]. rewrite connect_app_checked by done.
  unfold ProcessCSAppTransaction, undo_app, apply_app, UpdateApp, GetHash. change (nVersion tx =? CSAPP_TX_VERSION) with (IsCSAppTx tx).
  rewrite Ht, Hu. cbn [negb snd Z.eqb CSAPP_UPDATE_TX_TYPE CSAPP_REGISTER_TX_TYPE CSAPP_STOP_TX_TYPE Pos.eqb orb].
  rewrite Hd. cbn [snd]. rewrite lookup_insert_eq, lookup_insert_eq. by destruct (asks_resume _).
Qed.

(** * What the rules leave open *)

Lemma stop_accepted tx :
  nVersion tx = CSAPP_TX_VERSION -> nType tx = CSAPP_STOP_TX_TYPE -> vin tx = [] -> vout tx = [] -> vJoinSplit tx = [] ->
  csappDeploymentId tx <> "" -> csappOwner tx <> "" -> CheckTransactionCSApp tx = Accept.
Proof.
  intros Hv Ht Hi Ho Hj Hid Hw. unfold CheckTransactionCSApp, IsCSAppTx. rewrite Hv, Ht, Hi, Ho, Hj.
  by rewrite (bool_decide_eq_false_2 (csappDeploymentId tx = "")), (bool_decide_eq_false_2 (csappOwner tx = "")) by done.
Qed.

(** Nothing ties an application transaction to the owner of the record: a
    STOP that names any owner and carries any signature is accepted and, in a
    block that is connected or only checked, stops the application. *)
Theorem stop_needs_no_owner (c : CSAppCache) (d : CSAppData) (anyone : string) (anysig : bytes) (txid h : Z)
    (fJustCheck : bool) :
  c !! app_deploymentId d = Some d -> app_deploymentId d <> "" -> anyone <> "" ->
  let tx := emptyTx <| nVersion := CSAPP_TX_VERSION |> <| nType := CSAPP_STOP_TX_TYPE |> <| hash := txid |>
              <| csappDeploymentId := app_deploymentId d |> <| csappOwner := anyone |> <| csappSig := anysig |> in
  CheckTransactionCSApp tx = Accept /\
  app_status <$> GetApp (app_deploymentId d) (ConnectBlockCSApp fJustCheck false h [tx] c) = Some CSAPP_STATUS_STOPPED.
Proof.
  intros Hd Hid Ha tx. assert (Hc : CheckTransactionCSApp tx = Accept) by (by apply stop_accepted).
  split; [done|]. unfold GetApp. rewrite connect_block_lookup by (by constructor).
  change (block_events h [tx]) with [(u32 h, tx)]. cbn [foldl]. unfold app_step.
  change (csappDeploymentId tx) with (app_deploymentId d). rewrite bool_decide_eq_true_2, Hd by done. reflexivity.
Qed.

(** The registries a node can have. *)
Inductive registry_reachable : CSAppCache -> Prop :=
  | registry_start : registry_reachable ∅
  | registry_connect v1 v2 h vtx c : registry_reachable c -> registry_reachable (ConnectBlockCSApp v1 v2 h vtx c)
  | registry_disconnect h vtx c : registry_reachable c -> registry_reachable (DisconnectBlockCSApp h vtx c)
  | registry_rebuild blocks c : registry_reachable c -> registry_reachable (RebuildCSAppCache blocks c).

Definition live_status (c : CSAppCache) : Prop :=
  map_Forall (fun id d => app_deploymentId d = id /\ (app_status d = CSAPP_STATUS_RUNNING \/ app_status d = CSAPP_STATUS_STOPPED)) c.

Lemma apply_app_live tx h c : live_status c -> live_status (apply_app tx h c).
Proof.
  intros Hc. unfold apply_app, AddApp, UpdateApp, StopApp. repeat case_match; cbn [snd]; try done.
  all: apply map_Forall_insert_2; [|done]. all: cbn; auto.
  all: match goal with E : _ !! _ = Some ?d |- _ => destruct (Hc _ _ E) end; auto.
Qed.

Lemma undo_app_live tx c : live_status c -> live_status (undo_app tx c).
Proof.
  intros Hc. unfold undo_app. repeat case_match; try done; [by apply map_Forall_delete|].
  apply map_Forall_insert_2; [|done]. cbn.
  match goal with E : c !! _ = Some ?d |- _ => destruct (Hc _ _ E) end; auto.
Qed.

Lemma process_app_live tx h u c : live_status c -> live_status (ProcessCSAppTransaction tx h u c).2.
Proof. intros Hc. unfold ProcessCSAppTransaction. repeat case_match; cbn [snd]; auto using apply_app_live, undo_app_live. Qed.

Lemma registry_live c : registry_reachable c -> live_status c.
Proof.
  induction 1 as [|v1 v2 h vtx c _ IH|h vtx c _ IH|blocks c _ IH]; [apply map_Forall_empty|..].
  - unfold ConnectBlockCSApp. apply foldl_inv; [done|]. intros a tx _ Ha. unfold connect_app. case_match; auto using process_app_live.
  - unfold DisconnectBlockCSApp. induction vtx as [|tx vtx IHv]; cbn; [done|]. case_match; auto using process_app_live.
  - unfold RebuildCSAppCache. apply foldl_inv; [apply map_Forall_empty|]. intros a [h [vtx|]] _ Ha; [|done].
    apply foldl_inv; [done|]. intros a' tx _ Ha'. case_match; auto using process_app_live.
Qed.

(** No application is ever listed as expired: whatever blocks were
    connected, disconnected or rebuilt from, every record is kept under its own
    identifier and is running or stopped. *)
Theorem no_app_expires (c : CSAppCache) :
  registry_reachable c -> live_status c /\ ListApps CSAPP_STATUS_EXPIRED c = [].
Proof.
  intros Hr. pose proof (registry_live c Hr) as Hl. split; [done|].
  unfold ListApps. destruct (base.filter _ _) as [|d ds] eqn:E; [done|].
  assert (Hd : d ∈ base.filter (fun d => CSAPP_STATUS_EXPIRED < 0 \/ app_status d = CSAPP_STATUS_EXPIRED) (items c).*2)
    by (rewrite E; apply list_elem_of_here).
  apply list_elem_of_filter in Hd as [Hs Hd]. apply list_elem_of_fmap in Hd as ([id d'] & -> & Hin).
  apply elem_of_items in Hin. destruct (Hl _ _ Hin) as [_ Hst]. cbn in *.
  unfold CSAPP_STATUS_EXPIRED, CSAPP_STATUS_RUNNING, CSAPP_STATUS_STOPPED in *. lia.
Qed.

(** * The commands

    rpc/csapp.cpp, on decoded arguments.  The wallet is the function from a key
    hash to the signature of a message with that key; it is the caller's, as is
    whether the transaction could be committed.  [inl] is the error thrown. *)

Section commands.
Context `{Crypto} (wallet_sign : bytes -> string -> option bytes) (commit : CTransaction -> bool).

Definition SignWithAddress (address message : string) : string + bytes :=
  match DecodeDestination address with
  | CNoDestination => inl ("Invalid CSCoin address: " +:+ address)
  | CScriptID _ => inl "Address is not a P2PKH address"
  | CKeyID keyID =>
    match wallet_sign keyID message with
    | None => inl ("Private key not in wallet for address " +:+ address)
    | Some sig => inr sig
    end
  end.

(** Sign, hash and commit. *)
Definition submit (command owner sigMsg : string) (mutTx : CTransaction) : string + CTransaction :=
  match SignWithAddress owner sigMsg with
  | inl errMsg => inl ("Failed to sign tx: " +:+ errMsg)
  | inr sig =>
    let tx := UpdateHash (mutTx <| csappSig := sig |>) in
    if commit tx then inr tx else inl ("CommitTransaction failed for " +:+ command)
  end.

Definition registercsapp (deployId specJson owner : string) (lockedAmount : Z) (ipHint : string) : string + CTransaction :=
  if bool_decide (deployId = "") then inl "deployment_id must not be empty"
  else if bool_decide (specJson = "") then inl "spec_json must not be empty"
  else if lockedAmount <=? 0 then inl "locked_cscoin must be positive"
  else submit "registercsapp" owner (deployId +:+ owner +:+ specJson +:+ ipHint +:+ dec lockedAmount)
    (emptyTx <| nVersion := CSAPP_TX_VERSION |> <| nType := CSAPP_REGISTER_TX_TYPE |> <| csappDeploymentId := deployId |>
       <| csappOwner := owner |> <| csappSpecJson := specJson |> <| csappIp := ipHint |> <| csappLockedAmount := lockedAmount |>).

Definition stopcsapp (deployId owner : string) : string + CTransaction :=
  if bool_decide (deployId = "") then inl "deployment_id must not be empty"
  else submit "stopcsapp" owner (deployId +:+ owner +:+ "stop")
    (emptyTx <| nVersion := CSAPP_TX_VERSION |> <| nType := CSAPP_STOP_TX_TYPE |> <| csappDeploymentId := deployId |>
       <| csappOwner := owner |>).

Definition updatecsapp (deployId specJson owner : string) : string + CTransaction :=
  if bool_decide (deployId = "") then inl "deployment_id must not be empty"
  else if bool_decide (specJson = "") then inl "spec_json must not be empty"
  else submit "updatecsapp" owner (deployId +:+ owner +:+ specJson +:+ "update")
    (emptyTx <| nVersion := CSAPP_TX_VERSION |> <| nType := CSAPP_UPDATE_TX_TYPE |> <| csappDeploymentId := deployId |>
       <| csappOwner := owner |> <| csappSpecJson := specJson |>).

Definition getcsapp (depId : string) (c : CSAppCache) : string + CSAppData :=
  match GetApp depId c with None => inl ("App not found: " +:+ depId) | Some d => inr d end.

(** [listcsapps] with an optional status. *)
Definition listcsapps (status : option string) (c : CSAppCache) : string + list CSAppData :=
  match status with
  | None => inr (ListApps (-1) c)
  | Some s =>
    if bool_decide (s = "RUNNING") then inr (ListApps CSAPP_STATUS_RUNNING c)
    else if bool_decide (s = "STOPPED") then inr (ListApps CSAPP_STATUS_STOPPED c)
    else if bool_decide (s = "EXPIRED") then inr (ListApps CSAPP_STATUS_EXPIRED c)
    else inl "Invalid status. Use RUNNING, STOPPED or EXPIRED."
  end.

Lemma submit_spec command owner sigMsg mutTx tx :
  submit command owner sigMsg mutTx = inr tx ->
  exists keyID s, DecodeDestination owner = CKeyID keyID /\ wallet_sign keyID sigMsg = Some s /\
    tx = UpdateHash (mutTx <| csappSig := s |>).
Proof.
  unfold submit, SignWithAddress. intros Hs. destruct (DecodeDestination owner) as [|keyID|]; try discriminate.
  destruct (wallet_sign keyID sigMsg) as [s|] eqn:Ew; [|discriminate]. destruct (commit _); [|discriminate].
  injection Hs as <-. by exists keyID, s.
Qed.

Lemma check_app_fields tx txid s :
  IsCSAppTx tx = true -> vin tx = [] -> vout tx = [] -> vJoinSplit tx = [] ->
  csappDeploymentId tx <> "" -> csappOwner tx <> "" ->
  nType tx = CSAPP_REGISTER_TX_TYPE \/ nType tx = CSAPP_UPDATE_TX_TYPE \/ nType tx = CSAPP_STOP_TX_TYPE ->
  CheckTransactionCSApp (tx <| csappSig := s |> <| hash := txid |>) = Accept.
Proof.
  intros Hv Hi Ho Hj Hid Hw Ht. unfold CheckTransactionCSApp. set (tx' := tx <| csappSig := s |> <| hash := txid |>).
  change (IsCSAppTx tx') with (IsCSAppTx tx). change (vin tx') with (vin tx). change (vout tx') with (vout tx).
  change (vJoinSplit tx') with (vJoinSplit tx). change (csappDeploymentId tx') with (csappDeploymentId tx).
  change (csappOwner tx') with (csappOwner tx). change (nType tx') with (nType tx).
  rewrite Hv, Hi, Ho, Hj, (bool_decide_eq_false_2 (csappDeploymentId tx = "")), (bool_decide_eq_false_2 (csappOwner tx = "")) by done.
  by destruct Ht as [->|[->| ->]].
Qed.

(** Every transaction the commands submit is valid and carries a signature,
    by a wallet key of the owner's address, of a message that binds the
    deployment and the owner, provided the empty string is not an address. *)
Theorem commands_submit_valid (deployId specJson owner ipHint : string) (lockedAmount : Z) (tx : CTransaction) :
  DecodeDestination "" = CNoDestination ->
  registercsapp deployId specJson owner lockedAmount ipHint = inr tx \/ stopcsapp deployId owner = inr tx \/
  updatecsapp deployId specJson owner = inr tx ->
  CheckTransactionCSApp tx = Accept /\ csappDeploymentId tx = deployId /\ csappOwner tx = owner /\
  exists keyID rest, DecodeDestination owner = CKeyID keyID /\ wallet_sign keyID (deployId +:+ owner +:+ rest) = Some (csappSig tx).
Proof.
  intros Hempty Hc. unfold registercsapp, stopcsapp, updatecsapp in Hc.
  assert (Hown : forall keyID, DecodeDestination owner = CKeyID keyID -> owner <> "") by (intros k Hk ->; congruence).
  assert (Hok : exists mutTx rest command, deployId <> "" /\ submit command owner (deployId +:+ owner +:+ rest) mutTx = inr tx /\
    IsCSAppTx mutTx = true /\ vin mutTx = [] /\ vout mutTx = [] /\ vJoinSplit mutTx = [] /\ csappDeploymentId mutTx = deployId /\
    csappOwner mutTx = owner /\
    (nType mutTx = CSAPP_REGISTER_TX_TYPE \/ nType mutTx = CSAPP_UPDATE_TX_TYPE \/ nType mutTx = CSAPP_STOP_TX_TYPE)).
  { destruct Hc as [Hc|[Hc|Hc]]; repeat (case_bool_decide; [discriminate|]).
    1: destruct (lockedAmount <=? 0); [discriminate|].
    all: do 3 eexists; split; [done|]; split; [exact Hc|]; cbn; auto 10. }
  destruct Hok as (mutTx & rest & command & Hid & Hs & Hv & Hi & Ho & Hj & Hdep & Hw & Ht).
  apply submit_spec in Hs as (keyID & s & Hk & Hsig & ->). unfold UpdateHash.
  split; [apply check_app_fields; rewrite ?Hdep, ?Hw; eauto|]. split; [done|]. split; [done|]. by exists keyID, rest.
Qed.

End commands.

(** * Examples *)

Definition sample_app_register : CTransaction :=
  emptyTx <| nVersion := CSAPP_TX_VERSION |> <| nType := CSAPP_REGISTER_TX_TYPE |> <| hash := 11 |>
    <| csappDeploymentId := "dep" |> <| csappOwner := "t1owner" |> <| csappSpecJson := "v1" |> <| csappLockedAmount := 5 |>.
Definition sample_update : CTransaction :=
  sample_app_register <| nType := CSAPP_UPDATE_TX_TYPE |> <| hash := 12 |> <| csappSpecJson := "v2" |>.
Definition sample_chain : list (Z * list CTransaction) := [(7, [sample_app_register])].

Lemma sample_checked : Forall (fun b => checked b.2) sample_chain.
Proof. repeat constructor. Qed.

Lemma registry_is_per_app_witness :
  GetApp "dep" (connected sample_chain) = Some (registered sample_app_register 7).
Proof. by rewrite (registry_is_per_app sample_chain "dep" sample_checked). Defined.

Lemma rebuild_is_connected_witness : RebuildCSAppCache [(7, Some [sample_app_register])] ∅ = connected sample_chain.
Proof. apply (rebuild_is_connected sample_chain ∅ sample_checked). Defined.

Lemma undo_restores_iff_witness :
  (ProcessCSAppTransaction sample_app_register 7 true (ProcessCSAppTransaction sample_app_register 7 false ∅).2).2 = ∅.
Proof. by apply (undo_restores_iff sample_app_register 7 ∅). Defined.

Lemma reorg_keeps_abandoned_update_witness :
  app_specJson <$> GetApp "dep"
    (DisconnectBlockCSApp 8 [sample_update] (ConnectBlockCSApp false false 8 [sample_update] (connected sample_chain)))
  = Some "v2" /\
  app_specJson <$> GetApp "dep" (RebuildCSAppCache [(7, Some [sample_app_register])] ∅) = Some "v1".
Proof.
  destruct (reorg_keeps_abandoned_update sample_chain 8 sample_update (registered sample_app_register 7) ∅)
    as [H1 H2]; [apply sample_checked|done..|].
  change "dep"%string with (csappDeploymentId sample_update).
  split; [rewrite H1; reflexivity|]. etransitivity; [apply (f_equal _ H2)|reflexivity].
Defined.

Lemma stop_needs_no_owner_witness :
  let tx := emptyTx <| nVersion := CSAPP_TX_VERSION |> <| nType := CSAPP_STOP_TX_TYPE |> <| hash := 13 |>
              <| csappDeploymentId := "dep" |> <| csappOwner := "t1thief" |> <| csappSig := [] |> in
  app_status <$> GetApp "dep" (ConnectBlockCSApp true false 9 [tx] (connected sample_chain)) = Some CSAPP_STATUS_STOPPED.
Proof. by apply (stop_needs_no_owner (connected sample_chain) (registered sample_app_register 7) "t1thief" [] 13 9 true). Defined.

Lemma no_app_expires_witness : ListApps CSAPP_STATUS_EXPIRED (ConnectBlockCSApp false false 7 [sample_app_register] ∅) = [].
Proof. apply (no_app_expires (ConnectBlockCSApp false false 7 [sample_app_register] ∅)). apply registry_connect, registry_start. Defined.

#[local] Instance toy_crypto : Crypto := {|
  RecoverCompact _ _ := None; GetID pk := pk; OPoIVRFVerify _ _ _ := None;
  DecodeDestination s := if bool_decide (s = "") then CNoDestination else CKeyID [1];
|}.

Lemma commands_submit_valid_witness :
  exists tx, stopcsapp (fun _ _ => Some [3]) (fun _ => true) "dep" "t1owner" = inr tx /\ CheckTransactionCSApp tx = Accept.
Proof.
  eexists. split; [reflexivity|].
  apply (commands_submit_valid (fun _ _ => Some [3]) (fun _ => true) "dep" "" "t1owner" "" 0); [done|]. right. left. reflexivity.
Defined.
