(* ===== verification/Csnode.v ===== *)
(** The csnode registry (csnode/csnode.h, csnode/csnode.cpp): nodes that were
    started, timed out or confirmed by a collateral, the payment list of each
    tier, and the two-level cache: while a block is connected or disconnected a
    local [FluxnodeCache] collects the changes, and [Flush] applies them to the
    global one.

    A [std::map] is a [gmap]; where the source iterates over one it does so in
    key order ([out_items], [int_items]).  [Flush] returns [None] where the
    source throws [std::out_of_range] from [map::at] or reads an end of an empty
    list, which has no defined result. *)

From stdpp Require Import gmap sorting strings list.
From Stdlib Require Import ZArith Lia SpecFloat.
From S2P Require Import Prelude Params Uint256 Serialize Transaction Platform.

(** * Constants *)

Definition FLUXNODE_MIN_CONFIRMATION_DETERMINISTIC : Z := 100.
Definition FLUXNODE_START_TX_EXPIRATION_HEIGHT : Z := 60.
Definition FLUXNODE_DOS_REMOVE_AMOUNT : Z := 180.
Definition FLUXNODE_CONFIRM_UPDATE_EXPIRATION_HEIGHT_V1 : Z := 60.
Definition FLUXNODE_CONFIRM_UPDATE_EXPIRATION_HEIGHT_V2 : Z := 80.
Definition FLUXNODE_CONFIRM_UPDATE_EXPIRATION_HEIGHT_V3 : Z := 160.
Definition FLUXNODE_CONFIRM_UPDATE_MIN_HEIGHT_V1 : Z := 40.
Definition FLUXNODE_CONFIRM_UPDATE_MIN_HEIGHT_V2 : Z := 120.
Definition FLUXNODE_CONFIRM_UPDATE_MIN_HEIGHT_IP_CHANGE_V1 : Z := 5.

Definition FLUXNODE_TX_ERROR : Z := 0.
Definition FLUXNODE_TX_STARTED : Z := 1.
Definition FLUXNODE_TX_DOS_PROTECTION : Z := 2.
Definition FLUXNODE_TX_CONFIRMED : Z := 3.

Definition INITIAL_CONFIRM : Z := 0.
Definition UPDATE_CONFIRM : Z := 1.

(** [enum Tier]. *)
Definition NONE : Z := 0.
Definition PROTON : Z := 1.
Definition ELETRON : Z := 2.
Definition NEUTRON : Z := 3.
Definition FOTON : Z := 4.
Definition LAST : Z := 5.

Definition IsTierValid (nTier : Z) : bool := (NONE <? nTier) && (nTier <? LAST).

(** [for (int currentTier = CUMULUS; currentTier != LAST; currentTier++)]. *)
Definition tiers : list Z := [PROTON; ELETRON; NEUTRON; FOTON].

(** A value stored in an [int8_t]. *)
Definition i8 (x : Z) : Z := (x + 2 ^ 7) mod 2 ^ 8 - 2 ^ 7.

(** * Orders *)

Definition out_lt (a b : COutPoint) : bool :=
  uint256_lt (op_hash a) (op_hash b)
  || (bool_decide (uint256_data (op_hash a) = uint256_data (op_hash b)) && (op_n a <? op_n b)).

Definition out_le {V : Type} (p q : COutPoint * V) : Prop := out_lt q.1 p.1 = false.

#[global] Instance out_le_dec {V} : RelDecision (@out_le V).
Proof. intros p q. unfold out_le. apply _. Defined.

(** The entries of a [std::map<COutPoint, V>] and the elements of a
    [std::set<COutPoint>], in order. *)
Definition out_items {V : Type} (m : gmap COutPoint V) : list (COutPoint * V) := merge_sort out_le (map_to_list m).
Definition out_elements (s : gset COutPoint) : list COutPoint :=
  (merge_sort out_le ((fun o => (o, tt)) <$> elements s)).*1.

(** The entries of a [std::map<int, V>]. *)
Definition int_le {V : Type} (p q : Z * V) : Prop := p.1 <= q.1.
#[global] Instance int_le_dec {V} : RelDecision (@int_le V).
Proof. intros p q. unfold int_le. apply _. Defined.
Definition int_items {V : Type} (m : gmap Z V) : list (Z * V) := merge_sort int_le (map_to_list m).

(** * FluxnodeCacheData *)

Record FluxnodeCacheData := mkFluxnodeCacheData {
  fn_nType : Z;
  fn_collateralIn : COutPoint;
  fn_collateralPubkey : bytes;
  fn_pubKey : bytes;
  fn_nAddedBlockHeight : Z;
  fn_nConfirmedBlockHeight : Z;
  fn_nLastConfirmedBlockHeight : Z;
  fn_nLastPaidHeight : Z;
  fn_ip : string;
  fn_nTier : Z;
  fn_nFluxTxVersion : Z;
  fn_P2SHRedeemScript : bytes;
  fn_nTransactionType : Z;
  fn_nStatus : Z;
  fn_nCollateral : Z;
}.

#[global] Instance eta_FluxnodeCacheData : Eta FluxnodeCacheData := fun r =>
  mkFluxnodeCacheData (fn_nType r) (fn_collateralIn r) (fn_collateralPubkey r) (fn_pubKey r) (fn_nAddedBlockHeight r)
    (fn_nConfirmedBlockHeight r) (fn_nLastConfirmedBlockHeight r) (fn_nLastPaidHeight r) (fn_ip r) (fn_nTier r)
    (fn_nFluxTxVersion r) (fn_P2SHRedeemScript r) (fn_nTransactionType r) (fn_nStatus r) (fn_nCollateral r).

(** [FluxnodeCacheData()]. *)
Definition null_data : FluxnodeCacheData :=
  mkFluxnodeCacheData FLUXNODE_NO_TYPE COutPoint_null [] [] 0 0 0 0 "" 0 0 [] FLUXNODE_NO_TYPE FLUXNODE_TX_ERROR 0.

Definition fn_IsNull (d : FluxnodeCacheData) : bool :=
  if Z.land (fn_nType d) FLUXNODE_TX_TYPE_UPGRADED =? FLUXNODE_TX_TYPE_UPGRADED
  then fn_nTransactionType d =? FLUXNODE_NO_TYPE
  else fn_nType d =? FLUXNODE_NO_TYPE.

(** [aComparatorHeight]: last paid, or confirmed. *)
Definition queue_height (paid confirmed : Z) : Z := if 0 <? paid then paid else confirmed.

(** [operator<] of [FluxnodeCacheData], the order of [setUndoExpireConfirm]. *)
Definition fn_lt (a b : FluxnodeCacheData) : bool :=
  let ha := queue_height (fn_nLastPaidHeight a) (fn_nConfirmedBlockHeight a) in
  let hb := queue_height (fn_nLastPaidHeight b) (fn_nConfirmedBlockHeight b) in
  (ha <? hb) || ((ha =? hb) && out_lt (fn_collateralIn a) (fn_collateralIn b)).

(** [std::set<FluxnodeCacheData>::insert]: nothing when an equivalent element
    is there. *)
Fixpoint fn_insert (d : FluxnodeCacheData) (s : list FluxnodeCacheData) : list FluxnodeCacheData :=
  match s with
  | [] => [d]
  | e :: s' => if fn_lt e d then e :: fn_insert d s' else if fn_lt d e then d :: s else s
  end.

(** * The payment lists *)

Record FluxnodeListData := mkFluxnodeListData {
  ld_out : COutPoint;
  ld_nConfirmedBlockHeight : Z;
  ld_nLastPaidHeight : Z;
}.

#[global] Instance FluxnodeListData_eq_dec : EqDecision FluxnodeListData.
Proof. solve_decision. Defined.

(** [FluxnodeListData(p_fluxnodeData)]. *)
Definition list_data (d : FluxnodeCacheData) : FluxnodeListData :=
  mkFluxnodeListData (fn_collateralIn d) (fn_nConfirmedBlockHeight d) (fn_nLastPaidHeight d).

(** [operator<]: by height, a node paid at the height another was confirmed at
    coming after it. *)
Definition ld_lt (a b : FluxnodeListData) : bool :=
  let ha := queue_height (ld_nLastPaidHeight a) (ld_nConfirmedBlockHeight a) in
  let hb := queue_height (ld_nLastPaidHeight b) (ld_nConfirmedBlockHeight b) in
  let paid d := negb (ld_nLastPaidHeight d =? 0) in
  if paid a && paid b then (ha <? hb) || ((ha =? hb) && out_lt (ld_out a) (ld_out b))
  else if paid a then ha <? hb
  else if paid b then (ha <? hb) || (ha =? hb)
  else (ha <? hb) || ((ha =? hb) && out_lt (ld_out a) (ld_out b)).

(** [std::list::sort()], which is stable. *)
Fixpoint ld_insert (d : FluxnodeListData) (l : list FluxnodeListData) : list FluxnodeListData :=
  match l with
  | [] => [d]
  | e :: l' => if ld_lt e d then e :: ld_insert d l' else d :: l
  end.

Definition ld_sort (l : list FluxnodeListData) : list FluxnodeListData := foldr ld_insert [] l.

Record FluxnodeList := mkFluxnodeList {
  setConfirmedTxInList : gset COutPoint;
  listConfirmedFluxnodes : list FluxnodeListData;
}.

(** * FluxnodeCache *)

Record FluxnodeCache := mkFluxnodeCache {
  setDirtyOutPoint : gset COutPoint;
  setUndoStartTx : gset COutPoint;
  mapDosExpiredToRemove : gmap Z (gset COutPoint);
  mapDOSToUndo : gmap Z (gset COutPoint);
  mapAddToConfirm : gmap COutPoint string;
  setAddToConfirmHeight : Z;
  setUndoAddToConfirm : gset COutPoint;
  mapAddToUpdateConfirm : gmap COutPoint string;
  setAddToUpdateConfirmHeight : Z;
  setExpireConfirmOutPoints : gset COutPoint;
  setUndoExpireConfirm : list FluxnodeCacheData;
  mapPaidNodes : gmap Z (Z * COutPoint);
  mapUndoPaidNodes : gmap COutPoint Z;
  mapStartTxTracker : gmap COutPoint FluxnodeCacheData;
  mapStartTxDOSTracker : gmap COutPoint FluxnodeCacheData;
  mapConfirmedFluxnodeData : gmap COutPoint FluxnodeCacheData;
  mapFluxnodeList : gmap Z FluxnodeList;
}.

#[global] Instance eta_FluxnodeCache : Eta FluxnodeCache := fun r =>
  mkFluxnodeCache (setDirtyOutPoint r) (setUndoStartTx r) (mapDosExpiredToRemove r) (mapDOSToUndo r) (mapAddToConfirm r)
    (setAddToConfirmHeight r) (setUndoAddToConfirm r) (mapAddToUpdateConfirm r) (setAddToUpdateConfirmHeight r)
    (setExpireConfirmOutPoints r) (setUndoExpireConfirm r) (mapPaidNodes r) (mapUndoPaidNodes r) (mapStartTxTracker r)
    (mapStartTxDOSTracker r) (mapConfirmedFluxnodeData r) (mapFluxnodeList r).

(** [FluxnodeCache()]. *)
Definition emptyFluxnodeCache : FluxnodeCache := mkFluxnodeCache ∅ ∅ ∅ ∅ ∅ 0 ∅ ∅ 0 ∅ [] ∅ ∅ ∅ ∅ ∅ ∅.

(** [insert] leaves a list that is already there. *)
Definition InitMapFluxnodeList (c : FluxnodeCache) : FluxnodeCache :=
  foldl (fun c t => c <| mapFluxnodeList ::= fun m => if m !! t is Some _ then m else <[t := mkFluxnodeList ∅ []]> m |>) c tiers.

(** ** The local cache *)

Definition AddNewStart (tx : CTransaction) (nHeight nTier nCollateral : Z) (c : FluxnodeCache) : FluxnodeCache :=
  let data := null_data <| fn_nStatus := FLUXNODE_TX_STARTED |> <| fn_collateralIn := collateralIn tx |>
    <| fn_collateralPubkey := collateralPubkey tx |> <| fn_pubKey := pubKey tx |> <| fn_ip := ip tx |>
    <| fn_nLastPaidHeight := 0 |> <| fn_nAddedBlockHeight := nHeight |> <| fn_nTier := i8 nTier |> <| fn_nCollateral := nCollateral |> in
  let data :=
    if nVersion tx =? FLUXNODE_TX_UPGRADEABLE_VERSION then
      data <| fn_nType := i8 FLUXNODE_TX_TYPE_UPGRADED |> <| fn_nFluxTxVersion := nFluxTxVersion tx |>
        <| fn_nTransactionType := FLUXNODE_START_TX_TYPE |> <| fn_P2SHRedeemScript := P2SHRedeemScript tx |>
    else data <| fn_nType := if 0 <? nCollateral then FLUXNODE_HAS_COLLATERAL else FLUXNODE_START_TX_TYPE |> in
  c <| mapStartTxTracker ::= <[collateralIn tx := data]> |> <| setDirtyOutPoint ::= fun s => {[collateralIn tx]} ∪ s |>.

Definition UndoNewStart (tx : CTransaction) (c : FluxnodeCache) : FluxnodeCache :=
  c <| setUndoStartTx ::= fun s => {[collateralIn tx]} ∪ s |>.

Definition AddNewConfirm (tx : CTransaction) (nHeight : Z) (c : FluxnodeCache) : FluxnodeCache :=
  c <| mapAddToConfirm ::= <[collateralIn tx := ip tx]> |> <| setAddToConfirmHeight := nHeight |>.

Definition UndoNewConfirm (tx : CTransaction) (c : FluxnodeCache) : FluxnodeCache :=
  c <| setUndoAddToConfirm ::= fun s => {[collateralIn tx]} ∪ s |>.

Definition AddUpdateConfirm (tx : CTransaction) (nHeight : Z) (c : FluxnodeCache) : FluxnodeCache :=
  c <| mapAddToUpdateConfirm ::= <[collateralIn tx := ip tx]> |> <| setAddToUpdateConfirmHeight := nHeight |>.

Definition AddPaidNode (tier : Z) (out : COutPoint) (nHeight : Z) (c : FluxnodeCache) : FluxnodeCache :=
  c <| mapPaidNodes ::= <[tier := (nHeight, out)]> |>.

(** ** Queries *)

Definition has {K V} `{Countable K} (k : K) (m : gmap K V) : bool := bool_decide (is_Some (m !! k)).

Definition CheckIfStarted (out : COutPoint) (c : FluxnodeCache) : bool := has out (mapStartTxTracker c).
Definition CheckIfConfirmed (out : COutPoint) (c : FluxnodeCache) : bool := has out (mapConfirmedFluxnodeData c).
Definition CheckNewStartTx (out : COutPoint) (c : FluxnodeCache) : bool :=
  negb (has out (mapStartTxTracker c)) && negb (has out (mapStartTxDOSTracker c)).

(** [GetFluxnodeData], with the location it reports. *)
Definition GetFluxnodeData (out : COutPoint) (c : FluxnodeCache) : Z * FluxnodeCacheData :=
  match mapStartTxTracker c !! out, mapStartTxDOSTracker c !! out, mapConfirmedFluxnodeData c !! out with
  | Some d, _, _ => (FLUXNODE_TX_STARTED, d)
  | None, Some d, _ => (FLUXNODE_TX_DOS_PROTECTION, d)
  | None, None, Some d => (FLUXNODE_TX_CONFIRMED, d)
  | None, None, None => (FLUXNODE_TX_ERROR, null_data)
  end.

Definition CheckListSet (out : COutPoint) (c : FluxnodeCache) : bool :=
  existsb (fun t => match mapFluxnodeList c !! t with Some l => bool_decide (out ∈ setConfirmedTxInList l) | None => false end) tiers.

Definition CheckListHas (d : FluxnodeCacheData) (c : FluxnodeCache) : bool :=
  IsTierValid (fn_nTier d) &&
  match mapFluxnodeList c !! fn_nTier d with
  | Some l => bool_decide (fn_collateralIn d ∈ setConfirmedTxInList l)
  | None => false
  end.

Definition CheckConfirmationHeights (params : Params) (nCurrentHeight : Z) (out : COutPoint) (addr : string) (g : FluxnodeCache) : bool :=
  if negb (CheckIfConfirmed out g) then false
  else
    let data := (GetFluxnodeData out g).2 in
    if fn_IsNull data then false
    else
      let age := nCurrentHeight - fn_nLastConfirmedBlockHeight data in
      if NetworkUpgradeActive nCurrentHeight params UPGRADE_FLUX && negb (bool_decide (addr = fn_ip data))
         && (FLUXNODE_CONFIRM_UPDATE_MIN_HEIGHT_IP_CHANGE_V1 <=? age)
      then true
      else if NetworkUpgradeActive nCurrentHeight params UPGRADE_HALVING
      then negb (age <=? FLUXNODE_CONFIRM_UPDATE_MIN_HEIGHT_V2)
      else negb (age <=? FLUXNODE_CONFIRM_UPDATE_MIN_HEIGHT_V1).

(** [CheckUpdateHeight]; a height of 0 stands for the tip's. *)
Definition CheckUpdateHeight (params : Params) (tip : Z) (tx : CTransaction) (nHeight : Z) (g : FluxnodeCache) : bool :=
  let nCurrentHeight := if nHeight =? 0 then tip else nHeight in
  IsFluxnodeTx tx && (nUpdateType tx =? UPDATE_CONFIRM) && CheckListSet (collateralIn tx) g
  && CheckConfirmationHeights params nCurrentHeight (collateralIn tx) (ip tx) g.

Definition GetFluxnodeExpirationCount (params : Params) (nHeight : Z) : Z :=
  if NetworkUpgradeActive nHeight params UPGRADE_HALVING then FLUXNODE_CONFIRM_UPDATE_EXPIRATION_HEIGHT_V3
  else if NetworkUpgradeActive nHeight params UPGRADE_FLUX then FLUXNODE_CONFIRM_UPDATE_EXPIRATION_HEIGHT_V2
  else FLUXNODE_CONFIRM_UPDATE_EXPIRATION_HEIGHT_V1.

(** ** The lists *)

Definition SortList (nTier : Z) (c : FluxnodeCache) : FluxnodeCache :=
  if IsTierValid nTier then
    c <| mapFluxnodeList ::= alter (fun l => mkFluxnodeList (setConfirmedTxInList l) (ld_sort (listConfirmedFluxnodes l))) nTier |>
  else c.

Definition InsertIntoList (d : FluxnodeCacheData) (c : FluxnodeCache) : FluxnodeCache :=
  if IsTierValid (fn_nTier d) then
    c <| mapFluxnodeList ::= alter (fun l => mkFluxnodeList ({[fn_collateralIn d]} ∪ setConfirmedTxInList l)
                                               (list_data d :: listConfirmedFluxnodes l)) (fn_nTier d) |>
  else c.

(** [EraseFromList]: the entries named leave the list, and the set with them. *)
Definition erase_entries (setToRemove : gset COutPoint) (l : FluxnodeList) : FluxnodeList :=
  mkFluxnodeList
    (setConfirmedTxInList l ∖ list_to_set (map ld_out (base.filter (fun e => ld_out e ∈ setToRemove) (listConfirmedFluxnodes l))))
    (base.filter (fun e => ld_out e ∉ setToRemove) (listConfirmedFluxnodes l)).

Definition EraseFromList (setToRemove : gset COutPoint) (nTier : Z) (c : FluxnodeCache) : FluxnodeCache :=
  c <| mapFluxnodeList ::= alter (erase_entries setToRemove) nTier |>.

(** [LoadData]: a record read back from the database. *)
Definition LoadData (d : FluxnodeCacheData) (c : FluxnodeCache) : FluxnodeCache :=
  if fn_nStatus d =? FLUXNODE_TX_STARTED then c <| mapStartTxTracker ::= <[fn_collateralIn d := d]> |>
  else if fn_nStatus d =? FLUXNODE_TX_DOS_PROTECTION then c <| mapStartTxDOSTracker ::= <[fn_collateralIn d := d]> |>
  else if fn_nStatus d =? FLUXNODE_TX_CONFIRMED then InsertIntoList d (c <| mapConfirmedFluxnodeData ::= <[fn_collateralIn d := d]> |>)
  else c.

(** [DumpFluxnodeCache] on the database, a map from outpoints to records. *)
Definition DumpFluxnodeCache (c : FluxnodeCache) (db : gmap COutPoint FluxnodeCacheData) : gmap COutPoint FluxnodeCacheData :=
  foldl (fun db out =>
    match mapStartTxTracker c !! out, mapStartTxDOSTracker c !! out, mapConfirmedFluxnodeData c !! out with
    | Some d, _, _ | None, Some d, _ | None, None, Some d => <[fn_collateralIn d := d]> db
    | None, None, None => delete out db
    end) db (out_elements (setDirtyOutPoint c)).

(** The database iterates in the order of the serialized keys. *)
Definition db_le (p q : COutPoint * FluxnodeCacheData) : Prop :=
  memcmp_lt (enc COutPoint_codec q.1) (enc COutPoint_codec p.1) = false.
#[global] Instance db_le_dec : RelDecision db_le.
Proof. intros p q. unfold db_le. apply _. Defined.

(** [LoadFluxnodeCacheData] at start-up, after the lists are created and before
    each is sorted (init.cpp). *)
Definition LoadFluxnodeCacheData (db : gmap COutPoint FluxnodeCacheData) : FluxnodeCache :=
  foldl (fun c t => SortList t c)
    (foldl (fun c kv => LoadData kv.2 c) (InitMapFluxnodeList emptyFluxnodeCache) (merge_sort db_le (map_to_list db))) tiers.

(** * Payments *)

(** [CPubKey(vch)]: the bytes of a key, none when the length is wrong. *)
Definition CPubKey_Set (vch : bytes) : bytes :=
  match vch with
  | [] => []
  | b :: _ => if (0 <? GetLen b) && (Z.of_nat (length vch) =? GetLen b) then vch else []
  end.

Section payments.
Context `{Crypto}.
(** [Params().GetP2SHFluxnodePublicKeys()], the hash of a redeem script
    ([CScriptID]) and the destination of an unspent output of the tip's coins. *)
Context (p2shKeys : list (string * Z)) (script_hash : bytes -> bytes) (GetFluxNodeP2SHDestination : COutPoint -> option CTxDestination).

Definition IsAP2SHFluxNodePublicKey (key : bytes) : bool :=
  existsb (fun k => bool_decide (CPubKey_Set (ParseHex k.1) = key)) p2shKeys.

(** Whom a confirmed node is paid to; [None] is the failure. *)
Definition payee (fFluxnodeDBRebuild : bool) (out : COutPoint) (d : FluxnodeCacheData) : option CTxDestination :=
  if fn_nFluxTxVersion d =? FLUXNODE_INTERNAL_P2SH_TX_VERSION then Some (CScriptID (script_hash (fn_P2SHRedeemScript d)))
  else if IsAP2SHFluxNodePublicKey (fn_collateralPubkey d) then
    match GetFluxNodeP2SHDestination out with
    | Some dest => Some dest
    | None => if fFluxnodeDBRebuild then Some CNoDestination else None
    end
  else Some (CKeyID (GetID (fn_collateralPubkey d))).

(** The loop of [GetNextPayment]: entries of nodes that are no longer confirmed
    are dropped from the front of the list; [n] rounds, the size of the set when
    it starts. *)
Fixpoint next_payment (n : nat) (rebuild : bool) (nTier : Z) (c : FluxnodeCache) : option (CTxDestination * COutPoint) * FluxnodeCache :=
  match n, mapFluxnodeList c !! nTier with
  | S n', Some l =>
    match listConfirmedFluxnodes l with
    | [] => (None, c)
    | e :: rest =>
      match mapConfirmedFluxnodeData c !! ld_out e with
      | Some d => (dest ← payee rebuild (ld_out e) d; Some (dest, ld_out e), c)
      | None =>
        next_payment n' rebuild nTier
          (c <| mapFluxnodeList ::= <[nTier := mkFluxnodeList (setConfirmedTxInList l ∖ {[ld_out e]}) rest]> |>)
      end
    end
  | _, _ => (None, c)
  end.

Definition GetNextPayment (nTier : Z) (rebuild : bool) (c : FluxnodeCache) : option (CTxDestination * COutPoint) * FluxnodeCache :=
  if (nTier =? NONE) || (nTier =? LAST) then (None, c)
  else
    match mapFluxnodeList c !! nTier with
    | Some l => next_payment (size (setConfirmedTxInList l)) rebuild nTier c
    | None => (None, c)
    end.

(** The literals 0.05, 0.10, 0.20 and 0.30. *)
Definition double_0_05 : spec_float := S754_finite false 7205759403792794 (-57).
Definition double_0_20 : spec_float := S754_finite false 7205759403792794 (-55).
Definition double_0_30 : spec_float := S754_finite false 5404319552844595 (-54).

(** [mapCoinTierPercentages]. *)
Definition GetCoinTierPercentage (nTier : Z) : option spec_float :=
  if nTier =? PROTON then Some double_0_05
  else if nTier =? ELETRON then Some double_0_10
  else if nTier =? NEUTRON then Some double_0_20
  else if nTier =? FOTON then Some double_0_30
  else None.

Definition GetFluxnodeSubsidy (blockValue nNodeTier : Z) : Z :=
  match GetCoinTierPercentage nNodeTier with
  | Some percentage => double_to_int64 (double_mul (double_of_int blockValue) percentage)
  | None => 0
  end.

Record FluxnodePayoutInfo := mkFluxnodePayoutInfo {
  pi_tier : Z;
  pi_dest : CTxDestination;
  pi_outpoint : COutPoint;
  pi_amount : Z;
}.

(** The payouts a block owes, tier by tier. *)
Definition gather_payouts (blockValue : Z) (g : FluxnodeCache) : list FluxnodePayoutInfo * FluxnodeCache :=
  foldl (fun '(infos, g) t =>
    match GetNextPayment t false g with
    | (Some (dest, out), g') => (infos ++ [mkFluxnodePayoutInfo t dest out (GetFluxnodeSubsidy blockValue t)], g')
    | (None, g') => (infos, g')
    end) ([], g) tiers.

(** Some output of the coinbase pays the tier's node. *)
Definition approvedpayout (vout : list CTxOut) (info : FluxnodePayoutInfo) : bool :=
  existsb (fun out => bool_decide (scriptPubKey out = GetScriptForDestination (pi_dest info)) && (nValue out =? pi_amount info)) vout.

(** [CheckFluxnodePayout(coinbase, p_Height, p_fluxnodeCache)]: the result, the
    local cache with the nodes paid, and the global cache. *)
Definition CheckFluxnodePayout (params : Params) (coinbase : CTransaction) (nHeight : Z) (local g : FluxnodeCache)
    : bool * FluxnodeCache * FluxnodeCache :=
  let '(infos, g') := gather_payouts (GetBlockSubsidy nHeight params) g in
  (forallb (approvedpayout (vout coinbase)) infos,
   foldl (fun local info => if approvedpayout (vout coinbase) info then AddPaidNode (pi_tier info) (pi_outpoint info) nHeight local else local)
     local infos,
   g').

(** [FillBlockPayeeWithDeterministicPayouts]: the outputs after the miner's,
    and the miner's value. *)
Definition FillBlockPayeeWithDeterministicPayouts (params : Params) (nHeight : Z) (minerScript : bytes) (g : FluxnodeCache)
    : list CTxOut * FluxnodeCache :=
  let blockValue := GetBlockSubsidy nHeight params in
  let '(infos, g') := gather_payouts blockValue g in
  let nMinerReward := foldl (fun r info => i64 (r - pi_amount info)) blockValue infos in
  (mkCTxOut nMinerReward minerScript :: map (fun info => mkCTxOut (pi_amount info) (GetScriptForDestination (pi_dest info))) infos, g').

End payments.

(** * Flush *)

(** The loops' targets: the global cache and the changes to the lists that are
    collected for the end. *)
Record Flushing := mkFlushing {
  fl_g : FluxnodeCache;
  setRemoveFromList : gset COutPoint;
  vecNodesToAdd : list FluxnodeCacheData;
  removedTiers : gset Z;
  undoExpiredTiers : gset Z;
}.

#[global] Instance eta_Flushing : Eta Flushing := fun r =>
  mkFlushing (fl_g r) (setRemoveFromList r) (vecNodesToAdd r) (removedTiers r) (undoExpiredTiers r).

Definition dirty (out : COutPoint) (g : FluxnodeCache) : FluxnodeCache := g <| setDirtyOutPoint ::= fun s => {[out]} ∪ s |>.

(** A loop that may throw. *)
Definition try_foldl {S A : Type} (f : A -> S -> option S) (s : S) (l : list A) : option S :=
  foldl (fun os a => s ← os; f a s) (Some s) l.

Section flush.
Context (local : FluxnodeCache).

Definition flush_start (f : Flushing) : Flushing :=
  foldl (fun f '(out, d) => f <| fl_g ::= fun g => dirty out (g <| mapStartTxTracker ::= <[out := d]> |>) |>) f
    (out_items (mapStartTxTracker local)).

Definition flush_dos (f : Flushing) : Flushing :=
  foldl (fun f '(out, d) => f <| fl_g ::= fun g =>
      dirty out (g <| mapStartTxDOSTracker ::= <[out := d]> |> <| mapStartTxTracker ::= delete out |>) |>) f
    (out_items (mapStartTxDOSTracker local)).

(** The outpoints of a map from heights to sets, in order. *)
Definition all_outs (m : gmap Z (gset COutPoint)) : list COutPoint := concat (map (fun kv => out_elements kv.2) (int_items m)).

Definition flush_erase_dos (outs : list COutPoint) (f : Flushing) : Flushing :=
  foldl (fun f out => f <| fl_g ::= fun g => dirty out (g <| mapStartTxDOSTracker ::= delete out |>) |>) f outs.

(** [mapConfirmedFluxnodeData[out]] creates a missing record. *)
Definition flush_confirmed (f : Flushing) : Flushing :=
  foldl (fun f '(out, d) => f <| fl_g ::= fun g =>
      dirty out (g <| mapConfirmedFluxnodeData ::= fun m =>
        <[out := (default null_data (m !! out)) <| fn_nLastConfirmedBlockHeight := fn_nLastConfirmedBlockHeight d |>
                   <| fn_ip := fn_ip d |>]> m |>) |>) f
    (out_items (mapConfirmedFluxnodeData local)).

Definition flush_undo_expire (f : Flushing) : Flushing :=
  foldl (fun f d =>
    let f := f <| fl_g ::= fun g => dirty (fn_collateralIn d) (g <| mapConfirmedFluxnodeData ::= <[fn_collateralIn d := d]> |>) |> in
    if CheckListHas d (fl_g f) then f
    else f <| vecNodesToAdd ::= fun v => v ++ [d] |> <| undoExpiredTiers ::= fun s => {[fn_nTier d]} ∪ s |>) f
    (setUndoExpireConfirm local).

Definition flush_undo_start (f : Flushing) : Flushing :=
  foldl (fun f out => f <| fl_g ::= fun g => dirty out (g <| mapStartTxTracker ::= delete out |>) |>) f
    (out_elements (setUndoStartTx local)).

Definition confirm_started (height : Z) (addr : string) (d : FluxnodeCacheData) : FluxnodeCacheData :=
  d <| fn_nStatus := FLUXNODE_TX_CONFIRMED |> <| fn_nConfirmedBlockHeight := height |>
    <| fn_nLastConfirmedBlockHeight := height |> <| fn_nLastPaidHeight := 0 |> <| fn_ip := addr |>.

Definition add_confirm (e : COutPoint * string) (f : Flushing) : option Flushing :=
  let '(out, addr) := e in
  match mapStartTxTracker (fl_g f) !! out with
  | None => Some f
  | Some started =>
    let d := confirm_started (setAddToConfirmHeight local) addr started in
    let f := f <| fl_g ::= fun g => g <| mapStartTxTracker ::= delete out |> <| mapConfirmedFluxnodeData ::= <[fn_collateralIn d := d]> |> |> in
    l ← mapFluxnodeList (fl_g f) !! fn_nTier d;
    let f := if bool_decide (fn_collateralIn d ∈ setConfirmedTxInList l)
             then f <| setRemoveFromList ::= fun s => {[fn_collateralIn d]} ∪ s |> <| removedTiers ::= fun s => {[fn_nTier d]} ∪ s |>
             else f in
    Some (f <| vecNodesToAdd ::= fun v => v ++ [d] |> <| undoExpiredTiers ::= fun s => {[fn_nTier d]} ∪ s |>
            <| fl_g ::= dirty out |>)
  end.

Definition flush_add_confirm (f : Flushing) : option Flushing := try_foldl add_confirm f (out_items (mapAddToConfirm local)).

Definition unconfirm (d : FluxnodeCacheData) : FluxnodeCacheData :=
  d <| fn_nStatus := FLUXNODE_TX_STARTED |> <| fn_nConfirmedBlockHeight := 0 |> <| fn_nLastConfirmedBlockHeight := 0 |>
    <| fn_nLastPaidHeight := 0 |> <| fn_ip := "" |>.

Definition flush_undo_confirm (f : Flushing) : Flushing :=
  foldl (fun f out =>
    match mapConfirmedFluxnodeData (fl_g f) !! out with
    | None => f
    | Some d =>
      f <| fl_g ::= fun g => dirty out (g <| mapConfirmedFluxnodeData ::= delete out |> <| mapStartTxTracker ::= <[out := unconfirm d]> |>) |>
        <| setRemoveFromList ::= fun s => {[fn_collateralIn d]} ∪ s |> <| removedTiers ::= fun s => {[fn_nTier d]} ∪ s |>
    end) f (out_elements (setUndoAddToConfirm local)).

Definition flush_update_confirm (f : Flushing) : Flushing :=
  foldl (fun f '(out, addr) =>
    match mapConfirmedFluxnodeData (fl_g f) !! out with
    | None => f
    | Some d =>
      f <| fl_g ::= fun g => dirty out (g <| mapConfirmedFluxnodeData ::=
             <[out := d <| fn_nLastConfirmedBlockHeight := setAddToUpdateConfirmHeight local |> <| fn_ip := addr |>]> |>) |>
    end) f (out_items (mapAddToUpdateConfirm local)).

Definition flush_expire (f : Flushing) : Flushing :=
  foldl (fun f out =>
    match mapConfirmedFluxnodeData (fl_g f) !! out with
    | None => f
    | Some _ => f <| fl_g ::= fun g => dirty out (g <| mapConfirmedFluxnodeData ::= delete out |>) |>
    end) f (out_elements (setExpireConfirmOutPoints local)).

(** A node paid moves from the front of its list to the end. *)
Definition rotate_list (d : FluxnodeCacheData) (out : COutPoint) (l : FluxnodeList) : option FluxnodeList :=
  if bool_decide (out ∈ setConfirmedTxInList l) then
    match listConfirmedFluxnodes l with
    | [] => None
    | e :: rest =>
      Some (if bool_decide (ld_out e = out) then mkFluxnodeList (setConfirmedTxInList l) (rest ++ [list_data d]) else l)
    end
  else Some l.

Definition add_paid (e : Z * (Z * COutPoint)) (f : Flushing) : option Flushing :=
  let '(tier, (height, out)) := e in
  match mapConfirmedFluxnodeData (fl_g f) !! out with
  | None => Some f
  | Some d =>
    let d := d <| fn_nLastPaidHeight := height |> in
    l ← mapFluxnodeList (fl_g f) !! tier;
    l' ← rotate_list d out l;
    Some (f <| fl_g ::= fun g => dirty out (g <| mapConfirmedFluxnodeData ::= <[out := d]> |> <| mapFluxnodeList ::= <[tier := l']> |>) |>)
  end.

Definition flush_paid (f : Flushing) : option Flushing := try_foldl add_paid f (int_items (mapPaidNodes local)).

(** The search of the undo: from the last entry backwards, the first entry of
    the list not included ([while (--it != begin())]). *)
Fixpoint last_match (out : COutPoint) (l : list FluxnodeListData) : option (list FluxnodeListData * FluxnodeListData * list FluxnodeListData) :=
  match l with
  | [] => None
  | e :: l' =>
    match last_match out l' with
    | Some (before, found, after) => Some (e :: before, found, after)
    | None => if bool_decide (ld_out e = out) then Some ([], e, l') else None
    end
  end.

Definition unrotate (out : COutPoint) (height : Z) (l : list FluxnodeListData) : option (list FluxnodeListData) :=
  match l with
  | [] => None
  | first :: l' =>
    Some match last_match out l' with
    | Some (before, found, after) =>
      mkFluxnodeListData (ld_out found) (ld_nConfirmedBlockHeight found) height :: first :: before ++ after
    | None => l
    end
  end.

Definition undo_paid (e : COutPoint * Z) (f : Flushing) : option Flushing :=
  let '(out, height) := e in
  match mapConfirmedFluxnodeData (fl_g f) !! out with
  | None => Some f
  | Some d =>
    l ← mapFluxnodeList (fl_g f) !! fn_nTier d;
    entries ← (if bool_decide (out ∈ setConfirmedTxInList l) then unrotate out height (listConfirmedFluxnodes l)
               else Some (listConfirmedFluxnodes l));
    Some (f <| fl_g ::= fun g =>
      dirty out (g <| mapConfirmedFluxnodeData ::= <[out := d <| fn_nLastPaidHeight := height |>]> |>
                   <| mapFluxnodeList ::= <[fn_nTier d := mkFluxnodeList (setConfirmedTxInList l) entries]> |>) |>)
  end.

Definition flush_undo_paid (f : Flushing) : option Flushing := try_foldl undo_paid f (out_items (mapUndoPaidNodes local)).

(** The removals, the additions and the sorts at the end. *)
Definition flush_lists (f : Flushing) : FluxnodeCache :=
  let g := if decide (setRemoveFromList f = ∅) then fl_g f
           else foldl (fun g t => EraseFromList (setRemoveFromList f) t g) (fl_g f) (merge_sort Z.le (elements (removedTiers f))) in
  let g := foldl (fun g d => InsertIntoList d g) g (vecNodesToAdd f) in
  foldl (fun g t => if bool_decide (t ∈ removedTiers f) || bool_decide (t ∈ undoExpiredTiers f) || has t (mapPaidNodes local)
                    then SortList t g else g) g tiers.

Definition Flush (g : FluxnodeCache) : option FluxnodeCache :=
  let f := mkFlushing g ∅ [] ∅ ∅ in
  let f := flush_start f in
  let f := flush_dos f in
  let f := flush_erase_dos (all_outs (mapDosExpiredToRemove local)) f in
  let f := flush_erase_dos (all_outs (mapDOSToUndo local)) f in
  let f := flush_confirmed f in
  let f := flush_undo_expire f in
  let f := flush_undo_start f in
  f ← flush_add_confirm f;
  let f := flush_undo_confirm f in
  let f := flush_update_confirm f in
  let f := flush_expire f in
  f ← flush_paid f;
  f ← flush_undo_paid f;
  Some (flush_lists f).

End flush.
