(* ===== verification/CsnodeBlock.v ===== *)
(** Csnode transactions in blocks (main.cpp, coins.cpp, csnode/csnode.cpp): the
    rules of [CheckTransaction] and [ContextualCheckTransaction], the part of
    [ConnectBlock] that collects the changes of a block in a local cache with
    the data to undo it, and the part of [DisconnectBlock] that reverses it;
    [ConnectTip] and [DisconnectTip] flush the local cache into the global one. *)

From stdpp Require Import gmap sorting strings list.
From Stdlib Require Import ZArith Lia.
From S2P Require Import Prelude Params Uint256 Transaction Platform Script Csnode.

Open Scope verdict_scope.

(** * Collateral *)

Definition V1_CSNODE_COLLAT_PROTON : Z := 10000.
Definition V1_CSNODE_COLLAT_ELETRON : Z := 25000.
Definition V1_CSNODE_COLLAT_NEUTRON : Z := 100000.
Definition V1_CSNODE_COLLAT_FOTON : Z := 500000.

(** The set has at most one amount. *)
Definition GetCoinAmountsByTier (nTier : Z) : list Z :=
  if nTier =? PROTON then [V1_CSNODE_COLLAT_PROTON * COIN]
  else if nTier =? ELETRON then [V1_CSNODE_COLLAT_ELETRON * COIN]
  else if nTier =? NEUTRON then [V1_CSNODE_COLLAT_NEUTRON * COIN]
  else if nTier =? FOTON then [V1_CSNODE_COLLAT_FOTON * COIN]
  else [].

(** [mapTempCoinTierAmounts[nAmount]]: the last tier with this amount. *)
Definition GetCoinTierFromAmount (nAmount : Z) : option Z :=
  foldl (fun found t => if bool_decide (nAmount ∈ GetCoinAmountsByTier t) then Some t else found) None tiers.

(** * Undo data *)

Record CFluxnodeTxBlockUndo := mkCFluxnodeTxBlockUndo {
  vecExpiredDosData : list FluxnodeCacheData;
  vecExpiredConfirmedData : list FluxnodeCacheData;
  mapUpdateLastConfirmHeight : gmap COutPoint Z;
  mapLastPaidHeights : gmap COutPoint Z;
  mapLastIpAddress : gmap COutPoint string;
}.

#[global] Instance eta_CFluxnodeTxBlockUndo : Eta CFluxnodeTxBlockUndo := fun r =>
  mkCFluxnodeTxBlockUndo (vecExpiredDosData r) (vecExpiredConfirmedData r) (mapUpdateLastConfirmHeight r)
    (mapLastPaidHeights r) (mapLastIpAddress r).

Definition emptyFluxnodeUndo : CFluxnodeTxBlockUndo := mkCFluxnodeTxBlockUndo [] [] ∅ ∅ ∅.

Definition GetUndoDataForExpiredFluxnodeDosScores (nHeight : Z) (g : FluxnodeCache) (u : CFluxnodeTxBlockUndo) : CFluxnodeTxBlockUndo :=
  let nUndoHeight := nHeight - FLUXNODE_DOS_REMOVE_AMOUNT in
  u <| vecExpiredDosData ::= fun v =>
    v ++ base.filter (fun d => fn_nAddedBlockHeight d = nUndoHeight) (out_items (mapStartTxDOSTracker g)).*2 |>.

(** The amounts that are some tier's collateral. *)
Definition validAmounts : list Z := concat (map GetCoinAmountsByTier tiers).

Definition expires (nHeightToExpire : Z) (u : CFluxnodeTxBlockUndo) (out : COutPoint) (d : FluxnodeCacheData) : bool :=
  if bool_decide (fn_nTier d ∈ tiers) && negb (bool_decide (fn_nCollateral d ∈ validAmounts)) then true
  else if has out (mapUpdateLastConfirmHeight u) then false
  else fn_nLastConfirmedBlockHeight d <? nHeightToExpire.

Definition GetUndoDataForExpiredConfirmFluxnodes (params : Params) (nHeight : Z) (setSpentOuts : gset COutPoint) (g : FluxnodeCache)
    (u : CFluxnodeTxBlockUndo) : CFluxnodeTxBlockUndo :=
  let nHeightToExpire := nHeight - GetFluxnodeExpirationCount params nHeight in
  let expired := base.filter (fun kv => expires nHeightToExpire u kv.1 kv.2 = true) (out_items (mapConfirmedFluxnodeData g)) in
  let spent := omap (fun out => mapConfirmedFluxnodeData g !! out) (out_elements setSpentOuts) in
  u <| vecExpiredConfirmedData ::= fun v => v ++ expired.*2 ++ spent |>.

Definition GetUndoDataForPaidFluxnodes (local g : FluxnodeCache) (u : CFluxnodeTxBlockUndo) : CFluxnodeTxBlockUndo :=
  foldl (fun u '(_, (_, out)) =>
    match mapConfirmedFluxnodeData g !! out with
    | Some d => u <| mapLastPaidHeights ::= <[out := fn_nLastPaidHeight d]> |>
    | None => u
    end) u (int_items (mapPaidNodes local)).

(** ** Collected in the local cache *)

Definition AddExpiredDosTx (u : CFluxnodeTxBlockUndo) (nHeight : Z) (local : FluxnodeCache) : FluxnodeCache :=
  local <| mapDosExpiredToRemove ::= <[nHeight := list_to_set (map fn_collateralIn (vecExpiredDosData u))]> |>.

Definition AddExpiredConfirmTx (u : CFluxnodeTxBlockUndo) (local : FluxnodeCache) : FluxnodeCache :=
  local <| setExpireConfirmOutPoints ::= fun s => list_to_set (map fn_collateralIn (vecExpiredConfirmedData u)) ∪ s |>.

Definition CheckForExpiredStartTx (nHeight : Z) (g local : FluxnodeCache) : FluxnodeCache :=
  let removalHeight := nHeight - FLUXNODE_START_TX_EXPIRATION_HEIGHT in
  foldl (fun local '(out, d) =>
    if (fn_nAddedBlockHeight d =? removalHeight) && negb (has out (mapAddToConfirm local))
    then local <| mapStartTxDOSTracker ::= <[out := d <| fn_nStatus := FLUXNODE_TX_DOS_PROTECTION |>]> |>
    else local) local (out_items (mapStartTxTracker g)).

Definition CheckForUndoExpiredStartTx (nHeight : Z) (g local : FluxnodeCache) : FluxnodeCache :=
  let removalHeight := nHeight - FLUXNODE_START_TX_EXPIRATION_HEIGHT in
  foldl (fun local '(out, d) =>
    if fn_nAddedBlockHeight d =? removalHeight
    then local <| mapStartTxTracker ::= <[out := d <| fn_nStatus := FLUXNODE_TX_STARTED |>]> |>
               <| mapDOSToUndo ::= fun m => <[removalHeight := {[out]} ∪ default ∅ (m !! removalHeight)]> m |>
    else local) local (out_items (mapStartTxDOSTracker g)).

Definition AddBackUndoData (u : CFluxnodeTxBlockUndo) (g local : FluxnodeCache) : FluxnodeCache :=
  let local := foldl (fun local d => local <| mapStartTxDOSTracker ::= <[fn_collateralIn d := d]> |>) local (vecExpiredDosData u) in
  let local := foldl (fun local '(out, h) =>
    match mapConfirmedFluxnodeData g !! out with
    | Some d => local <| mapConfirmedFluxnodeData ::= <[out := d <| fn_nLastConfirmedBlockHeight := h |>]> |>
    | None => local
    end) local (out_items (mapUpdateLastConfirmHeight u)) in
  let local := foldl (fun local '(out, addr) =>
    match mapConfirmedFluxnodeData local !! out, mapConfirmedFluxnodeData g !! out with
    | Some d, _ | None, Some d => local <| mapConfirmedFluxnodeData ::= <[out := d <| fn_ip := addr |>]> |>
    | None, None => local
    end) local (out_items (mapLastIpAddress u)) in
  let local := local <| setUndoExpireConfirm ::= fun s => foldl (fun s d => fn_insert d s) s (vecExpiredConfirmedData u) |> in
  foldl (fun local '(out, h) => local <| mapUndoPaidNodes ::= <[out := h]> |>) local (out_items (mapLastPaidHeights u)).

(** * Validity *)

(** [COutPoint::ToString]. *)
Definition COutPoint_ToString (o : COutPoint) : string :=
  "COutPoint(" +:+ String.substring 0 10 (uint256_GetHex (op_hash o)) +:+ ", " +:+ dec (op_n o) +:+ ")".


Section blocks.
Context `{Crypto} (params : Params).
(** The two lists of keys of the chain parameters, [CScriptID] of a script, and
    the script solver: [ListPubKeysFromMultiSigScript], [IsMultiSigRedeemScript]
    and [ExtractDestination] (script/standard.cpp); the encoder of addresses. *)
Context (p2shKeys benchmarkKeys : list (string * Z)) (script_hash : bytes -> bytes)
  (ListPubKeysFromMultiSigScript : bytes -> option (list bytes)) (IsMultiSigRedeemScript : bytes -> bool)
  (ExtractDestination : bytes -> option CTxDestination) (EncodeDestination : CTxDestination -> string).
Context (fIsVerifying : bool).

(** [CObfuScationSigner::VerifyMessage]. *)
Definition VerifyMessage (key vchSig : bytes) (message : string) : bool :=
  match RecoverCompact (message_hash message) vchSig with
  | Some key2 => bool_decide (GetID key2 = GetID key)
  | None => false
  end.

(** The key in force at a time: the last one that started by then. *)
Definition key_at (keys : list (string * Z)) (time : Z) : string :=
  match keys with
  | [k] => k.1
  | _ =>
    match List.filter (fun k => k.2 <=? time) (rev keys) with
    | k :: _ => k.1
    | [] => match keys with k :: _ => k.1 | [] => "" end
    end
  end.

Definition GetFluxnodeBenchmarkPublicKey (tx : CTransaction) : string := key_at benchmarkKeys (benchmarkSigTime tx).
Definition GetP2SHFluxNodePublicKey (tx : CTransaction) : string := key_at p2shKeys (sigTime tx).

Definition CheckBenchmarkSignature (tx : CTransaction) : bool :=
  VerifyMessage (CPubKey_Set (ParseHex (GetFluxnodeBenchmarkPublicKey tx))) (benchmarkSig tx)
    (Serialize.bytes_string (sig tx) +:+ dec (benchmarkTier tx) +:+ dec (benchmarkSigTime tx) +:+ ip tx).

(** What a confirmation signs. *)
Definition confirm_message (tx : CTransaction) : string :=
  COutPoint_ToString (collateralIn tx) +:+ dec (op_n (collateralIn tx)) +:+ dec (nUpdateType tx) +:+ dec (sigTime tx).

Definition CheckFluxnodeTxSignatures (tx : CTransaction) (g : FluxnodeCache) : bool :=
  if nType tx =? FLUXNODE_START_TX_TYPE then
    let strMessage := uint256_GetHex (GetHash tx) in
    if IsFluxnodeUpgradedP2SHTx tx then
      match ListPubKeysFromMultiSigScript (P2SHRedeemScript tx) with
      | None => false
      | Some pubkeys => existsb (fun key => VerifyMessage key (sig tx) strMessage) pubkeys
      end
    else VerifyMessage (collateralPubkey tx) (sig tx) strMessage
  else if nType tx =? FLUXNODE_CONFIRM_TX_TYPE then
    let data := (GetFluxnodeData (collateralIn tx) g).2 in
    if negb (fn_IsNull data) && negb (VerifyMessage (fn_pubKey data) (sig tx) (confirm_message tx)) && negb fIsVerifying
    then false
    else CheckBenchmarkSignature tx
  else false.

(** The csnode rules of [CheckTransaction]. *)
Definition CheckTransactionFluxnode (tx : CTransaction) (g : FluxnodeCache) : Verdict :=
  if negb (IsFluxnodeTx tx) then Accept
  else
    reject DoS 10 "bad-txns-fluxnode-tx-not-empty"
      when negb (bool_decide (vout tx = [])) || negb (bool_decide (vJoinSplit tx = [])) || negb (bool_decide (vShieldedOutput tx = []))
           || negb (bool_decide (vin tx = [])) || negb (bool_decide (vShieldedSpend tx = []));
    reject DoS 10 "bad-txns-fluxnode-tx-invalid-type"
      when negb (nType tx =? FLUXNODE_START_TX_TYPE) && negb (nType tx =? FLUXNODE_CONFIRM_TX_TYPE);
    reject DoS 10 "bad-txns-fluxnode-tx-null-prevout" when COutPoint_IsNull (collateralIn tx);
    reject DoS 10 "bad-txns-fluxnode-tx-redeemscript-to-large"
      when IsFluxnodeUpgradedP2SHTx tx && (MAX_SCRIPT_SIZE <? Z.of_nat (length (P2SHRedeemScript tx)));
    reject DoS 10 "bad-txns-fluxnode-tx-redeemscript-not-multisig"
      when IsFluxnodeUpgradedP2SHTx tx && negb (IsMultiSigRedeemScript (P2SHRedeemScript tx));
    reject DoS 10 "bad-txns-fluxnode-tx-invalid-signature" when negb (CheckFluxnodeTxSignatures tx g);
    if nType tx =? FLUXNODE_CONFIRM_TX_TYPE then
      reject DoS 10 "bad-txns-fluxnode-tx-invalid-benchmark-tier" when negb (IsTierValid (benchmarkTier tx));
      let MAX_IP_ADDRESS_SIZE := if 1647262800 <=? benchmarkSigTime tx then 60 else 40 in
      reject DoS 100 "bad-txns-fluxnode-tx-ip-address-to-large" when MAX_IP_ADDRESS_SIZE <? Z.of_nat (String.length (ip tx));
      reject DoS 10 "bad-txns-fluxnode-tx-invalid-update-type"
        when negb (nUpdateType tx =? INITIAL_CONFIRM) && negb (nUpdateType tx =? UPDATE_CONFIRM);
      Accept
    else Accept.

(** [pcoinsTip]: the record of a transaction, and its output when unspent. *)
Context (tipCoins : COutPoint -> option (option CTxOut)).

(** [return error(..)] without a reason. *)
Definition fail : Verdict := Reject 0 0 "".

Definition ContextualCheckStart (tx : CTransaction) (g : FluxnodeCache) : Verdict :=
  reject DoS 100 "fluxnode-tx-already-in-chain-or-waiting-for-dos-unban" when negb (CheckNewStartTx (collateralIn tx) g);
  reject DoS 100 "fluxnode-tx-already-in-confirm-chain" when CheckIfConfirmed (collateralIn tx) g;
  match tipCoins (collateralIn tx) with
  | None => DoS 100 "fluxnode-tx-coins-not-found"
  | Some None => DoS 100 "fluxnode-tx-coins-not-available"
  | Some (Some out) =>
    match ExtractDestination (scriptPubKey out) with
    | None => DoS 100 "fluxnode-tx-failed-to-extract-destination"
    | Some destination =>
      reject DoS 100 "fluxnode-tx-normal-version-not-p2pkh-script"
        when IsFluxnodeUpgradedNormalTx tx && negb (IsPayToPublicKeyHash (scriptPubKey out));
      reject DoS 100 "fluxnode-tx-p2sh-version-not-p2sh-script"
        when IsFluxnodeUpgradedP2SHTx tx && negb (IsPayToScriptHash (scriptPubKey out));
      if IsPayToScriptHash (scriptPubKey out) then
        if IsFluxnodeUpgradedP2SHTx tx then
          reject DoS 100 "fluxnode-tx-p2shnodes-destinations-didn't-match"
            when negb (bool_decide (EncodeDestination destination = EncodeDestination (CScriptID (script_hash (P2SHRedeemScript tx)))));
          Accept
        else
          reject DoS 100 "fluxnode-tx-p2sh-publickeys-didn't-match"
            when negb (bool_decide (collateralPubkey tx = CPubKey_Set (ParseHex (GetP2SHFluxNodePublicKey tx))));
          Accept
      else
        reject DoS 100 "fluxnode-tx-destinations-didn't-match"
          when negb (bool_decide (EncodeDestination destination = EncodeDestination (CKeyID (GetID (collateralPubkey tx)))));
        Accept
    end
  end.

Definition ContextualCheckConfirm (tip nHeight : Z) (tx : CTransaction) (g : FluxnodeCache) : Verdict :=
  let data := (GetFluxnodeData (collateralIn tx) g).2 in
  reject DoS 100 "fluxnode-tx-benchmark-tier-to-low-for-collateral" when benchmarkTier tx <? fn_nTier data;
  reject fail when fn_IsNull data;
  reject fail when negb (VerifyMessage (fn_pubKey data) (sig tx) (confirm_message tx)) && negb fIsVerifying;
  if nUpdateType tx =? INITIAL_CONFIRM then
    reject DoS 100 "fluxnode-tx-invalid-confirm-outpoint-not-started" when negb (CheckIfStarted (collateralIn tx) g); Accept
  else if nUpdateType tx =? UPDATE_CONFIRM then
    reject DoS 100 "fluxnode-tx-invalid-update-confirm-outpoint-not-confirmed" when negb (CheckIfConfirmed (collateralIn tx) g);
    reject DoS 100 "fluxnode-tx-invalid-update-confirm-outpoint-not-confirmed-or-too-soon"
      when negb (CheckUpdateHeight params tip tx nHeight g);
    reject DoS 100 "fluxnode-tx-benchmark-tier-to-low-for-collateral" when benchmarkTier tx <? fn_nTier data;
    Accept
  else DoS 100 "fluxnode-tx-malicious-update-type".

(** The csnode part of [ContextualCheckTransaction] as [ConnectBlock] calls it
    (not from [AcceptBlock]). *)
Definition ContextualCheckTransactionFluxnode (tip nHeight : Z) (g : FluxnodeCache) (tx : CTransaction) : Verdict :=
  if negb (IsFluxnodeTx tx) then Accept
  else
    reject DoS 100 "tx-fluxnodes-not-active" when negb (NetworkUpgradeActive nHeight params UPGRADE_KAMATA);
    reject DoS 100 "tx-p2shnodes-not-active"
      when IsFluxnodeUpgradeTx tx && negb (NetworkUpgradeActive nHeight params UPGRADE_P2SHNODES);
    if nType tx =? FLUXNODE_START_TX_TYPE then ContextualCheckStart tx g
    else if nType tx =? FLUXNODE_CONFIRM_TX_TYPE then ContextualCheckConfirm tip nHeight tx g
    else DoS 100 "fluxnode-tx-malicious-type".

(** [CCoinsViewCache::CheckFluxnodeTxInput] on a view that gives an unspent
    output with its height: the error, or the tier and the amount. *)
Definition CheckFluxnodeTxInput (view : COutPoint -> option (CTxOut * Z)) (tx : CTransaction) (nHeight : Z) : string + (Z * Z) :=
  if negb (IsFluxnodeTx tx) then inl "Not a Fluxnode Tx"
  else
    match view (collateralIn tx) with
    | None => inl "Coins not available"
    | Some (out, height) =>
      if nHeight - height <? FLUXNODE_MIN_CONFIRMATION_DETERMINISTIC then inl "Minimum height requirement not met"
      else
        match GetCoinTierFromAmount (nValue out) with
        | None => inl "Couldn't get coin tier from amount"
        | Some nTier =>
          let p2sh := IsAP2SHFluxNodePublicKey p2shKeys (collateralPubkey tx) in
          let fP2SHNodesActive := NetworkUpgradeActive nHeight params UPGRADE_P2SHNODES in
          if p2sh && negb (NetworkUpgradeActive nHeight params UPGRADE_HALVING)
          then inl "Using P2SH collateral key before it is active"
          else if IsFluxnodeUpgradeTx tx && negb fP2SHNodesActive then inl "Using P2SH nodes before it is active"
          else if fP2SHNodesActive && p2sh
          then inl "Old Style P2SH Nodes is no longer available. Please use new transaction version 6 style."
          else if IsTierValid nTier then inr (nTier, nValue out) else inl "Coin Tier Not Valid"
        end
    end.

(** * Connecting *)

(** The local cache, the undo data and the spent outputs while a block's
    transactions are processed. *)
Record Collecting := mkCollecting {
  cl_local : FluxnodeCache;
  cl_undo : CFluxnodeTxBlockUndo;
  setSpentOutPoints : gset COutPoint;
}.

(** One round of [ConnectBlock]'s loop; [view] is the coins view before the
    transaction.  Only the csnode rules are modelled here. *)
Definition collect_tx (nHeight : Z) (view : COutPoint -> option (CTxOut * Z)) (g : FluxnodeCache) (tx : CTransaction) (s : Collecting)
    : Verdict * Collecting :=
  if IsCoinBase tx then (Accept, s)
  else if negb (IsFluxnodeTx tx) then
    (Accept, mkCollecting (cl_local s) (cl_undo s) (list_to_set (map prevout (vin tx)) ∪ setSpentOutPoints s))
  else
    match CheckFluxnodeTxInput view tx nHeight with
    | inl errorMessage => (DoS 100 ("bad-txns-fluxnode-tx-inputs-missingorspent-" +:+ errorMessage), s)
    | inr (nTier, nCollateralAmount) =>
      if nType tx =? FLUXNODE_START_TX_TYPE then
        if negb (CheckNewStartTx (collateralIn tx) g) then (DoS 100 "bad-txns-fluxnode-tx-check-new-start", s)
        else (Accept, mkCollecting (AddNewStart tx nHeight nTier nCollateralAmount (cl_local s)) (cl_undo s) (setSpentOutPoints s))
      else if nType tx =? FLUXNODE_CONFIRM_TX_TYPE then
        if nUpdateType tx =? INITIAL_CONFIRM then
          (Accept, mkCollecting (AddNewConfirm tx nHeight (cl_local s)) (cl_undo s) (setSpentOutPoints s))
        else if nUpdateType tx =? UPDATE_CONFIRM then
          let global_data := (GetFluxnodeData (collateralIn tx) g).2 in
          if fn_IsNull global_data then (DoS 100 "bad-txns-fluxnode-global-data-not-found", s)
          else (Accept, mkCollecting (AddUpdateConfirm tx nHeight (cl_local s))
                  ((cl_undo s) <| mapUpdateLastConfirmHeight ::= <[collateralIn tx := fn_nLastConfirmedBlockHeight global_data]> |>
                             <| mapLastIpAddress ::= <[collateralIn tx := fn_ip global_data]> |>) (setSpentOutPoints s))
        else (Accept, s)
      else (Accept, s)
    end.

Fixpoint collect_txs (nHeight : Z) (views : nat -> COutPoint -> option (CTxOut * Z)) (i : nat) (g : FluxnodeCache)
    (vtx : list CTransaction) (s : Collecting) : Verdict * Collecting :=
  match vtx with
  | [] => (Accept, s)
  | tx :: vtx' =>
    match collect_tx nHeight (views i) g tx s with
    | (Accept, s') => collect_txs nHeight views (S i) g vtx' s'
    | r => r
    end
  end.

(** What follows the loop: the expirations and the payments. *)
Definition collect_end (nHeight : Z) (g : FluxnodeCache) (s : Collecting) : FluxnodeCache * CFluxnodeTxBlockUndo :=
  let u := GetUndoDataForExpiredFluxnodeDosScores nHeight g (cl_undo s) in
  let local := AddExpiredDosTx u nHeight (cl_local s) in
  let u := GetUndoDataForExpiredConfirmFluxnodes params nHeight (setSpentOutPoints s) g u in
  let local := AddExpiredConfirmTx u local in
  let u := GetUndoDataForPaidFluxnodes local g u in
  (CheckForExpiredStartTx nHeight g local, u).

(** The loop of [CheckBlock] over the transactions after the first: no second
    coinbase, and one csnode transaction per collateral. *)
Fixpoint CheckBlockTxs (vtx : list CTransaction) (setFluxnodeTxOuts : gset COutPoint) : Verdict :=
  match vtx with
  | [] => Accept
  | tx :: vtx' =>
    reject DoS 100 "bad-cb-multiple" when IsCoinBase tx;
    if IsFluxnodeTx tx then
      reject DoS 100 "bad-fluxnode-tx-multiple" when bool_decide (collateralIn tx ∈ setFluxnodeTxOuts);
      CheckBlockTxs vtx' ({[collateralIn tx]} ∪ setFluxnodeTxOuts)
    else CheckBlockTxs vtx' setFluxnodeTxOuts
  end.

Definition CheckBlockFluxnode (vtx : list CTransaction) : Verdict :=
  match vtx with
  | [] => DoS 100 "bad-cb-missing"
  | coinbase :: vtx' => reject DoS 100 "bad-cb-missing" when negb (IsCoinBase coinbase); CheckBlockTxs vtx' ∅
  end.

Context (startPayments tip : Z).

(** The csnode part of [ConnectBlock], [CheckBlock] included, with a fresh local cache: the verdict,
    the local cache, the undo data, and the global cache (the payout check
    drops expired entries from its lists). *)
Definition ConnectBlockFluxnode (p2shDestination : COutPoint -> option CTxDestination) (nHeight : Z)
    (views : nat -> COutPoint -> option (CTxOut * Z)) (vtx : list CTransaction) (g : FluxnodeCache)
    : Verdict * (FluxnodeCache * CFluxnodeTxBlockUndo * FluxnodeCache) :=
  let nothing := (emptyFluxnodeCache, emptyFluxnodeUndo) in
  match vtx with
  | [] => (DoS 100 "bad-cb-missing", (nothing, g))
  | coinbase :: _ =>
    match List.find (fun v => negb (bool_decide (v = Accept)))
            (CheckBlockFluxnode vtx :: map (fun tx => CheckTransactionFluxnode tx g) vtx ++ map (ContextualCheckTransactionFluxnode tip nHeight g) vtx) with
    | Some v => (v, (nothing, g))
    | None =>
      let '(paid, local, g) :=
        if startPayments <=? nHeight
        then CheckFluxnodePayout p2shKeys script_hash p2shDestination params coinbase nHeight emptyFluxnodeCache g
        else (true, emptyFluxnodeCache, g) in
      if negb paid then (DoS 1 "bad-txns-not-paying-correct-fluxnodes", (nothing, g))
      else
        match collect_txs nHeight views 0 g vtx (mkCollecting local emptyFluxnodeUndo ∅) with
        | (Accept, s) => (Accept, (collect_end nHeight g s, g))
        | (v, _) => (v, (nothing, g))
        end
    end
  end.

(** [ConnectTip]: an accepted block's local cache is flushed. *)
Definition ConnectTipFluxnode (p2shDestination : COutPoint -> option CTxDestination) (nHeight : Z)
    (views : nat -> COutPoint -> option (CTxOut * Z)) (vtx : list CTransaction) (g : FluxnodeCache)
    : option (FluxnodeCache * CFluxnodeTxBlockUndo) :=
  match ConnectBlockFluxnode p2shDestination nHeight views vtx g with
  | (Accept, ((local, u), g')) => g'' ← Flush local g'; Some (g'', u)
  | _ => None
  end.

(** [DisconnectBlock] with the block's undo data, from the last transaction to
    the first. *)
Definition DisconnectBlockFluxnode (nHeight : Z) (vtx : list CTransaction) (u : CFluxnodeTxBlockUndo) (g : FluxnodeCache) : FluxnodeCache :=
  let local := CheckForUndoExpiredStartTx nHeight g (AddBackUndoData u g emptyFluxnodeCache) in
  foldr (fun tx local =>
    if IsFluxnodeTx tx then
      if nType tx =? FLUXNODE_START_TX_TYPE then UndoNewStart tx local
      else if (nType tx =? FLUXNODE_CONFIRM_TX_TYPE) && (nUpdateType tx =? INITIAL_CONFIRM) then UndoNewConfirm tx local
      else local
    else local) local vtx.

(** [DisconnectTip]. *)
Definition DisconnectTipFluxnode (nHeight : Z) (vtx : list CTransaction) (u : CFluxnodeTxBlockUndo) (g : FluxnodeCache) : option FluxnodeCache :=
  Flush (DisconnectBlockFluxnode nHeight vtx u g) g.

End blocks.
