(* ===== verification/CsnodeQueue.v ===== *)
(** The payment queue of the csnodes: the order of the lists is total, sorting
    sorts, and under the invariant of the global cache [GetNextPayment] pays the
    confirmed node of the tier that has waited longest. *)

From stdpp Require Import gmap sorting strings list.
From Stdlib Require Import ZArith Lia.
From S2P Require Import Prelude Params Uint256 Serialize Transaction Platform Csnode.

(** * The order *)

Lemma memcmp_irrefl a : memcmp_lt a a = false.
Proof. induction a as [|x a IH]; [done|]. cbn. by rewrite Z.eqb_refl. Qed.

Lemma memcmp_asym a b : memcmp_lt a b = true -> memcmp_lt b a = false.
Proof.
  revert b. induction a as [|x a IH]; intros [|y b]; cbn; try done. rewrite (Z.eqb_sym y x).
  destruct (Z.eqb_spec x y); [apply IH|]. intros ?%Z.ltb_lt. apply Z.ltb_ge. lia.
Qed.

Lemma memcmp_le_trans a b c :
  length a = length b -> length b = length c ->
  memcmp_lt b a = false -> memcmp_lt c b = false -> memcmp_lt c a = false.
Proof.
  revert b c. induction a as [|x a IH]; intros [|y b] [|z c]; cbn; try done. intros [= Hab] [= Hbc].
  destruct (Z.eqb_spec y x), (Z.eqb_spec z y), (Z.eqb_spec z x); try lia; subst; try done.
  all: first [by apply IH|rewrite !Z.ltb_ge; lia].
Qed.

Lemma memcmp_app a b x y :
  length a = length b ->
  memcmp_lt (a ++ [x]) (b ++ [y]) = memcmp_lt a b || (bool_decide (a = b) && (x <? y)).
Proof.
  revert b. induction a as [|u a IH]; intros [|v b]; cbn; try done.
  - intros _. destruct (Z.eqb_spec x y); [subst; by rewrite Z.ltb_irrefl|done].
  - intros [= Hl]. rewrite IH by done. destruct (Z.eqb_spec u v) as [->|Hne].
    + f_equal. f_equal. apply bool_decide_ext. naive_solver.
    + rewrite (bool_decide_eq_false_2 (u :: a = v :: b)) by congruence. by rewrite andb_false_l, orb_false_r.
Qed.

(** The sort keys. *)
Definition out_key (o : COutPoint) : list Z := uint256_data (op_hash o) ++ [op_n o].

Definition ld_key (e : FluxnodeListData) : list Z :=
  queue_height (ld_nLastPaidHeight e) (ld_nConfirmedBlockHeight e) :: (if ld_nLastPaidHeight e =? 0 then 0 else 1) :: out_key (ld_out e).

Lemma length_out_key o : length (out_key o) = 33%nat.
Proof. unfold out_key, uint256_data, le_bytes. by rewrite length_app, length_digits. Qed.

Lemma length_ld_key e : length (ld_key e) = 35%nat.
Proof. unfold ld_key. cbn [length]. by rewrite length_out_key. Qed.

Lemma out_lt_key a b : out_lt a b = memcmp_lt (out_key a) (out_key b).
Proof.
  unfold out_lt, out_key, uint256_lt. rewrite memcmp_app; [done|].
  unfold uint256_data, le_bytes. by rewrite !length_digits.
Qed.

Lemma ld_lt_key a b : ld_lt a b = memcmp_lt (ld_key a) (ld_key b).
Proof.
  unfold ld_lt, ld_key. cbn [memcmp_lt]. rewrite <- out_lt_key. cbv zeta.
  set (ha := queue_height (ld_nLastPaidHeight a) _). set (hb := queue_height (ld_nLastPaidHeight b) _).
  destruct (ld_nLastPaidHeight a =? 0), (ld_nLastPaidHeight b =? 0); cbn [negb andb Z.eqb Z.ltb Z.compare];
    destruct (Z.eqb_spec ha hb) as [->|Hne]; rewrite ?Z.ltb_irrefl, ?orb_false_r; done.
Qed.

Definition ld_le (a b : FluxnodeListData) : Prop := ld_lt b a = false.

#[global] Instance ld_le_trans : Transitive ld_le.
Proof. intros a b c. unfold ld_le. rewrite !ld_lt_key. apply memcmp_le_trans; by rewrite !length_ld_key. Qed.

#[global] Instance ld_le_refl : Reflexive ld_le.
Proof. intros a. unfold ld_le. rewrite ld_lt_key. apply memcmp_irrefl. Qed.

Lemma ld_lt_le a b : ld_lt a b = true -> ld_le a b.
Proof. unfold ld_le. rewrite !ld_lt_key. apply memcmp_asym. Qed.

Lemma ld_insert_perm d l : ld_insert d l ≡ₚ d :: l.
Proof. induction l as [|e l IH]; cbn; [done|]. destruct (ld_lt e d); [|done]. rewrite IH. constructor. Qed.

Lemma ld_sort_perm l : ld_sort l ≡ₚ l.
Proof. induction l as [|d l IH]; cbn; [done|]. by rewrite ld_insert_perm, IH. Qed.

Lemma ld_insert_sorted d l : StronglySorted ld_le l -> StronglySorted ld_le (ld_insert d l).
Proof.
  induction 1 as [|e l Hl IH Hall]; cbn; [repeat constructor|]. destruct (ld_lt e d) eqn:E.
  - constructor; [done|]. rewrite ld_insert_perm. constructor; [by apply ld_lt_le|done].
  - constructor; [by constructor|]. constructor; [done|]. eapply Forall_impl; [exact Hall|]. intros x Hx. by transitivity e.
Qed.

Lemma ld_sort_sorted l : StronglySorted ld_le (ld_sort l).
Proof. induction l as [|d l IH]; cbn; [constructor|]. by apply ld_insert_sorted. Qed.

(** * The invariant *)

Section invariant.
(** The tier of an outpoint: outputs do not change their value. *)
Context (tier_of : COutPoint -> Z).

(** A list of a tier against the confirmed nodes: no duplicates, the set is the
    list's, sorted, complete. Entries of nodes no longer confirmed may remain. *)
Record list_ok (conf : gmap COutPoint FluxnodeCacheData) (t : Z) (l : FluxnodeList) : Prop := {
  lo_nodup : NoDup (map ld_out (listConfirmedFluxnodes l));
  lo_set : setConfirmedTxInList l = list_to_set (map ld_out (listConfirmedFluxnodes l));
  lo_sorted : StronglySorted ld_le (listConfirmedFluxnodes l);
  lo_all : forall o d, conf !! o = Some d -> fn_nTier d = t -> list_data d ∈ listConfirmedFluxnodes l;
  lo_tier : Forall (fun e => tier_of (ld_out e) = t) (listConfirmedFluxnodes l);
}.

(** A tracked record is kept under its own outpoint, with the outpoint's tier. *)
Definition keyed (o : COutPoint) (d : FluxnodeCacheData) : Prop :=
  fn_collateralIn d = o /\ fn_nTier d = tier_of o /\ tier_of o ∈ tiers.

(** A record before its confirmation. *)
Definition unconfirmed (status : Z) (d : FluxnodeCacheData) : Prop :=
  fn_nStatus d = status /\ fn_nConfirmedBlockHeight d = 0 /\ fn_nLastConfirmedBlockHeight d = 0 /\
  fn_nLastPaidHeight d = 0 /\ fn_ip d = "".

(** The invariant of the global cache at height [h]: the three trackers are
    disjoint, their records well-formed and not from the future, and the lists
    complete. *)
Record csnode_ok (h : Z) (g : FluxnodeCache) : Prop := {
  ok_start : forall o d, mapStartTxTracker g !! o = Some d ->
    keyed o d /\ unconfirmed FLUXNODE_TX_STARTED d /\ h - FLUXNODE_START_TX_EXPIRATION_HEIGHT < fn_nAddedBlockHeight d <= h;
  ok_dos : forall o d, mapStartTxDOSTracker g !! o = Some d ->
    keyed o d /\ unconfirmed FLUXNODE_TX_DOS_PROTECTION d /\ fn_nAddedBlockHeight d <= h - FLUXNODE_START_TX_EXPIRATION_HEIGHT;
  ok_conf : forall o d, mapConfirmedFluxnodeData g !! o = Some d ->
    keyed o d /\ fn_nStatus d = FLUXNODE_TX_CONFIRMED /\ 0 < fn_nConfirmedBlockHeight d <= h /\ 0 <= fn_nLastPaidHeight d <= h;
  ok_start_dos : mapStartTxTracker g ##ₘ mapStartTxDOSTracker g;
  ok_start_conf : mapStartTxTracker g ##ₘ mapConfirmedFluxnodeData g;
  ok_dos_conf : mapStartTxDOSTracker g ##ₘ mapConfirmedFluxnodeData g;
  ok_lists : forall t, t ∈ tiers -> exists l, mapFluxnodeList g !! t = Some l /\ list_ok (mapConfirmedFluxnodeData g) t l;
}.

(** * The next payment *)

Section next.
Context `{Crypto} (p2shKeys : list (string * Z)) (script_hash : bytes -> bytes) (p2shDestination : COutPoint -> option CTxDestination).

Abbreviation next_payment := (next_payment p2shKeys script_hash p2shDestination).
Abbreviation GetNextPayment := (GetNextPayment p2shKeys script_hash p2shDestination).
Abbreviation payee := (payee p2shKeys script_hash p2shDestination).

(** [g'] is [g] up to entries of nodes that are not confirmed. *)
Definition same_trackers (g g' : FluxnodeCache) : Prop :=
  mapStartTxTracker g' = mapStartTxTracker g /\ mapStartTxDOSTracker g' = mapStartTxDOSTracker g /\
  mapConfirmedFluxnodeData g' = mapConfirmedFluxnodeData g.

#[global] Instance same_trackers_preorder : PreOrder same_trackers.
Proof. split; [done|]. intros a b c (? & ? & ?) (? & ? & ?). repeat split; congruence. Qed.

(** The node at the head of the queue, if any node of the tier is confirmed. *)
Definition oldest (g : FluxnodeCache) (t : Z) (o : COutPoint) (d : FluxnodeCacheData) : Prop :=
  mapConfirmedFluxnodeData g !! o = Some d /\ fn_nTier d = t /\
  forall o' d', mapConfirmedFluxnodeData g !! o' = Some d' -> fn_nTier d' = t -> ld_le (list_data d) (list_data d').

(** What the loop leaves: the trackers, the other lists, and in this one an
    entry of the node returned at the front. *)
Definition next_result (g : FluxnodeCache) (rebuild : bool) (t : Z) (r : option (CTxDestination * COutPoint) * FluxnodeCache) : Prop :=
  same_trackers g r.2 /\ (forall t', t' <> t -> mapFluxnodeList r.2 !! t' = mapFluxnodeList g !! t') /\
  exists l', mapFluxnodeList r.2 !! t = Some l' /\ list_ok (mapConfirmedFluxnodeData g) t l' /\
    ((exists o d rest, oldest g t o d /\ r.1 = (dest ← payee rebuild o d; Some (dest, o)) /\
        listConfirmedFluxnodes l' = list_data d :: rest)
     \/ (r.1 = None /\ forall o d, mapConfirmedFluxnodeData g !! o = Some d -> fn_nTier d <> t)).

Lemma list_data_entry conf t l o d e :
  list_ok conf t l -> conf !! o = Some d -> fn_nTier d = t -> fn_collateralIn d = o ->
  e ∈ listConfirmedFluxnodes l -> ld_out e = o -> e = list_data d.
Proof.
  intros Hl Hc Ht Ho He Heo. pose proof (lo_all _ _ _ Hl o d Hc Ht) as Hd.
  pose proof (lo_nodup _ _ _ Hl) as Hnd. apply list_elem_of_lookup in He as [i He], Hd as [j Hd].
  assert (i = j) as ->; [|congruence].
  eapply (NoDup_lookup (map ld_out (listConfirmedFluxnodes l)) i j o); [done|..]; rewrite list_lookup_fmap.
  - rewrite He. cbn. by rewrite Heo.
  - rewrite Hd. cbn. by rewrite Ho.
Qed.

Lemma list_ok_drop conf t l e rest :
  list_ok conf t l -> listConfirmedFluxnodes l = e :: rest -> conf !! ld_out e = None ->
  (forall o d, conf !! o = Some d -> fn_collateralIn d = o) ->
  list_ok conf t (mkFluxnodeList (setConfirmedTxInList l ∖ {[ld_out e]}) rest).
Proof.
  intros [Hnd Hset Hs Hall Ht] E Hn Hk. rewrite E in *. cbn [map] in *. apply NoDup_cons in Hnd as [Hni Hnd].
  split; cbn [listConfirmedFluxnodes setConfirmedTxInList]; [done| |by inversion Hs| |by inversion Ht].
  - rewrite Hset. cbn [list_to_set]. clear -Hni. set_solver.
  - intros o d Hc Hd. pose proof (Hall o d Hc Hd) as Hin. apply elem_of_cons in Hin as [He|Hin]; [|done].
    rewrite <- He in Hn. cbn in Hn. rewrite (Hk o d Hc) in Hn. congruence.
Qed.

Lemma next_payment_spec n rebuild t g l :
  (forall o d, mapConfirmedFluxnodeData g !! o = Some d -> fn_collateralIn d = o /\ fn_nTier d = tier_of o) ->
  mapFluxnodeList g !! t = Some l -> list_ok (mapConfirmedFluxnodeData g) t l ->
  (length (listConfirmedFluxnodes l) <= n)%nat -> next_result g rebuild t (next_payment n rebuild t g).
Proof.
  intros Hk. revert g l Hk. induction n as [|n IH]; intros g l Hk Hg Hl Hn; cbn [Csnode.next_payment].
  { split; [done|]. split; [done|]. exists l. split; [done|]. split; [done|]. right. split; [done|].
    intros o d Hc Hd. destruct (listConfirmedFluxnodes l) eqn:E; [|cbn in Hn; lia].
    pose proof (lo_all _ _ _ Hl o d Hc Hd) as Hin. rewrite E in Hin. by apply not_elem_of_nil in Hin. }
  rewrite Hg. destruct (listConfirmedFluxnodes l) as [|e rest] eqn:E.
  { split; [done|]. split; [done|]. exists l. split; [done|]. split; [done|]. right. split; [done|].
    intros o d Hc Hd. pose proof (lo_all _ _ _ Hl o d Hc Hd) as Hin. rewrite E in Hin. by apply not_elem_of_nil in Hin. }
  destruct (mapConfirmedFluxnodeData g !! ld_out e) as [d|] eqn:Ed.
  - split; [done|]. split; [done|]. exists l. split; [done|]. split; [done|]. left.
    destruct (Hk _ _ Ed) as [Hko Hkt]. assert (Htier : fn_nTier d = t).
    { pose proof (lo_tier _ _ _ Hl) as Ht. rewrite E in Ht. apply Forall_cons in Ht as [Ht _]. congruence. }
    assert (He : e = list_data d).
    { eapply list_data_entry; [exact Hl|exact Ed|done|done|rewrite E; left|done]. }
    exists (ld_out e), d, rest. split; [|split; [done|congruence]]. split; [done|]. split; [done|].
    intros o' d' Hc' Hd'. pose proof (lo_all _ _ _ Hl o' d' Hc' Hd') as Hin. rewrite E in Hin.
    pose proof (lo_sorted _ _ _ Hl) as Hs. rewrite E in Hs. inversion_clear Hs as [|?? _ Hall].
    apply elem_of_cons in Hin as [->|Hin]; [by rewrite He|]. rewrite <- He. rewrite Forall_forall in Hall. by apply Hall.
  - set (l1 := mkFluxnodeList _ rest).
    set (g1 := g <| mapFluxnodeList ::= <[t := l1]> |>).
    assert (Hok1 : list_ok (mapConfirmedFluxnodeData g1) t l1).
    { apply (list_ok_drop _ _ _ _ _ Hl E Ed). intros o d Hc. by apply Hk. }
    destruct (IH g1 l1) as (Hst & Hoth & Hres); [done|apply lookup_insert_eq|done|cbn in *; lia|].
    split; [done|]. split; [|done]. intros t' Ht'. rewrite Hoth by done. cbn. by rewrite lookup_insert_ne.
Qed.

Lemma get_next_payment_spec t rebuild h g :
  csnode_ok h g -> t ∈ tiers -> next_result g rebuild t (GetNextPayment t rebuild g).
Proof.
  intros Hok Ht. destruct (ok_lists _ _ Hok t Ht) as (l & Hl & Hlok). unfold Csnode.GetNextPayment.
  assert ((t =? NONE) || (t =? LAST) = false) as ->.
  { unfold tiers in Ht. repeat (apply elem_of_cons in Ht as [->|Ht]; [done|]). by apply not_elem_of_nil in Ht. }
  rewrite Hl. eapply next_payment_spec; [|done|done|].
  - intros o d Hc. destruct (ok_conf _ _ Hok o d Hc) as [(? & ? & _) _]. done.
  - rewrite (lo_set _ _ _ Hlok), size_list_to_set by apply (lo_nodup _ _ _ Hlok). by rewrite length_map.
Qed.

Lemma next_result_ok h g rebuild t r :
  csnode_ok h g -> t ∈ tiers -> next_result g rebuild t r -> csnode_ok h r.2.
Proof.
  intros [Hs Hd Hc Hsd Hsc Hdc Hl] Ht ((Es & Ed & Ec) & Hoth & l' & Hl' & Hok' & _).
  split; rewrite ?Es, ?Ed, ?Ec; try done.
  intros t' Ht'. destruct (decide (t' = t)) as [->|Hne]; [by exists l'|].
  destruct (Hl t' Ht') as (l & E & Hlok). exists l. by rewrite Hoth.
Qed.

End next.
End invariant.
