(* ===== verification/CsnodeFlush.v ===== *)
(** [Flush], loop by loop: what it makes of the trackers at each outpoint and of
    the lists of each tier, when the local cache comes from connecting a block. *)

From stdpp Require Import gmap sorting strings list.
From Stdlib Require Import ZArith Lia.
From S2P Require Import Prelude Params Uint256 Transaction Platform Csnode CsnodeQueue.

(** * Loops *)

Lemma out_items_perm {V} (m : gmap COutPoint V) : out_items m ≡ₚ map_to_list m.
Proof. apply merge_sort_Permutation. Qed.

Lemma elem_of_out_items {V} (m : gmap COutPoint V) o v : (o, v) ∈ out_items m <-> m !! o = Some v.
Proof. rewrite out_items_perm. apply elem_of_map_to_list. Qed.

Lemma NoDup_out_items {V} (m : gmap COutPoint V) : NoDup (out_items m).*1.
Proof. rewrite out_items_perm. apply NoDup_fst_map_to_list. Qed.

Lemma out_items_empty {V} : out_items (∅ : gmap COutPoint V) = [].
Proof. unfold out_items. by rewrite map_to_list_empty. Qed.

Lemma int_items_perm {V} (m : gmap Z V) : int_items m ≡ₚ map_to_list m.
Proof. apply merge_sort_Permutation. Qed.

Lemma elem_of_int_items {V} (m : gmap Z V) k v : (k, v) ∈ int_items m <-> m !! k = Some v.
Proof. rewrite int_items_perm. apply elem_of_map_to_list. Qed.

Lemma NoDup_int_items {V} (m : gmap Z V) : NoDup (int_items m).*1.
Proof. rewrite int_items_perm. apply NoDup_fst_map_to_list. Qed.

Lemma int_items_empty {V} : int_items (∅ : gmap Z V) = [].
Proof. unfold int_items. by rewrite map_to_list_empty. Qed.

Lemma out_elements_perm (s : gset COutPoint) : out_elements s ≡ₚ elements s.
Proof.
  unfold out_elements. rewrite merge_sort_Permutation, <- list_fmap_compose. by rewrite list_fmap_id.
Qed.

Lemma elem_of_out_elements (s : gset COutPoint) o : o ∈ out_elements s <-> o ∈ s.
Proof. rewrite out_elements_perm. apply elem_of_elements. Qed.

Lemma out_elements_empty : out_elements ∅ = [].
Proof. apply Permutation_nil_r. by rewrite out_elements_perm, elements_empty. Qed.

(** The loop rule: an invariant over the rounds done. *)
Lemma try_foldl_ind {S A} (Inv : list A -> S -> Prop) (f : A -> S -> option S) (l : list A) (s : S) :
  Inv [] s ->
  (forall pre a post s, l = pre ++ a :: post -> Inv pre s -> exists s', f a s = Some s' /\ Inv (pre ++ [a]) s') ->
  exists s', try_foldl f s l = Some s' /\ Inv l s'.
Proof.
  intros H0 Hs. enough (Hgen : forall post pre s, l = pre ++ post -> Inv pre s ->
    exists s', try_foldl f s post = Some s' /\ Inv l s') by (by apply (Hgen l [])).
  clear s H0. induction post as [|a post IH]; intros pre s Hl Hi.
  - exists s. rewrite app_nil_r in Hl. by subst.
  - destruct (Hs pre a post s Hl Hi) as (s1 & E & Hi1). unfold try_foldl. cbn [foldl mbind option_bind]. rewrite E.
    apply (IH (pre ++ [a])); [by rewrite <- app_assoc|done].
Qed.

Lemma foldl_try {S A} (f : S -> A -> S) (s : S) (l : list A) : try_foldl (fun a s => Some (f s a)) s l = Some (foldl f s l).
Proof. revert s. induction l as [|a l IH]; intros s; [done|]. cbn. apply IH. Qed.

Lemma foldl_ind {S A} (Inv : list A -> S -> Prop) (f : S -> A -> S) (l : list A) (s : S) :
  Inv [] s -> (forall pre a post s, l = pre ++ a :: post -> Inv pre s -> Inv (pre ++ [a]) (f s a)) -> Inv l (foldl f s l).
Proof.
  intros H0 Hs. destruct (try_foldl_ind Inv (fun a s => Some (f s a)) l s H0) as (s' & E & Hi).
  - intros pre a post s1 El Hi. eexists. split; [done|]. by eapply Hs.
  - rewrite foldl_try in E. by injection E as <-.
Qed.

Lemma foldl_ext_in {S A} (f g : S -> A -> S) (l : list A) (s : S) :
  (forall a s, a ∈ l -> f s a = g s a) -> foldl f s l = foldl g s l.
Proof.
  revert s. induction l as [|a l IH]; intros s Hfg; [done|]. cbn. rewrite Hfg by left. apply IH. intros b s' Hb. apply Hfg. by right.
Qed.

(** * The trackers at an outpoint *)

Abbreviation Tracked := (option FluxnodeCacheData * option FluxnodeCacheData * option FluxnodeCacheData)%type.

Definition trk (o : COutPoint) (g : FluxnodeCache) : Tracked :=
  (mapStartTxTracker g !! o, mapStartTxDOSTracker g !! o, mapConfirmedFluxnodeData g !! o).

(** The lists and what is collected for them are as before. *)
Definition kept (s s' : Flushing) : Prop :=
  mapFluxnodeList (fl_g s') = mapFluxnodeList (fl_g s) /\
  (setRemoveFromList s', vecNodesToAdd s', removedTiers s', undoExpiredTiers s') =
  (setRemoveFromList s, vecNodesToAdd s, removedTiers s, undoExpiredTiers s).

(** The trackers at every outpoint are updated by [upd], the lists kept. *)
Definition tracked_by (upd : COutPoint -> Tracked -> Tracked) (s s' : Flushing) : Prop :=
  (forall o, trk o (fl_g s') = upd o (trk o (fl_g s))) /\ kept s s'.

Lemma kept_trans s s1 s2 : kept s s1 -> kept s1 s2 -> kept s s2.
Proof. intros [? ?] [? ?]. split; congruence. Qed.

Lemma tracked_by_trans u1 u2 s s1 s2 :
  tracked_by u1 s s1 -> tracked_by u2 s1 s2 -> tracked_by (fun o t => u2 o (u1 o t)) s s2.
Proof. intros [H1 K1] [H2 K2]. split; [|by eapply kept_trans]. intros o. by rewrite H2, H1. Qed.

Lemma tracked_by_ext u1 u2 s s' : (forall o t, u1 o t = u2 o t) -> tracked_by u1 s s' -> tracked_by u2 s s'.
Proof. intros He [H K]. split; [|done]. intros o. by rewrite <- He. Qed.

(** A round that only changes what is tracked at its own outpoint. *)
Definition local_round {A} (key : A -> COutPoint) (upd : A -> Tracked -> Tracked) (f : Flushing -> A -> Flushing) : Prop :=
  forall s a, tracked_by (fun o t => if decide (key a = o) then upd a t else t) s (f s a).

Lemma local_loop {A} key upd (f : Flushing -> A -> Flushing) l s :
  local_round key upd f ->
  tracked_by (fun o t => foldl (fun t a => upd a t) t (base.filter (fun a => key a = o) l)) s (foldl f s l).
Proof.
  intros Hf.
  apply (foldl_ind (fun pre s' => tracked_by (fun o t => foldl (fun t a => upd a t) t (base.filter (fun a => key a = o) pre)) s s')); [done|].
  intros pre a post s1 _ Ht. eapply tracked_by_ext; [|exact (tracked_by_trans _ _ _ _ _ Ht (Hf s1 a))].
  intros o t. rewrite filter_app, foldl_app, filter_cons, filter_nil. by case_decide.
Qed.

Lemma filter_out_items {V} (m : gmap COutPoint V) o :
  base.filter (fun kv => kv.1 = o) (out_items m) = match m !! o with Some v => [(o, v)] | None => [] end.
Proof.
  pose proof (NoDup_out_items m) as Hnd.
  assert (Hin : forall kv, kv ∈ base.filter (fun kv => kv.1 = o) (out_items m) -> exists v, m !! o = Some v /\ kv = (o, v)).
  { intros [k v] Hkv. apply list_elem_of_filter in Hkv as [Hk Hkv]. cbn in Hk. subst k. apply elem_of_out_items in Hkv. eauto. }
  assert (Hnd' : NoDup (base.filter (fun kv => kv.1 = o) (out_items m))).
  { apply NoDup_filter. by apply (NoDup_fmap_1 fst). }
  destruct (m !! o) as [v|] eqn:E.
  - assert (Hv : (o, v) ∈ base.filter (fun kv => kv.1 = o) (out_items m))
      by (apply list_elem_of_filter; split; [done|by apply elem_of_out_items]).
    destruct (base.filter _ _) as [|a [|b l]].
    + by apply not_elem_of_nil in Hv.
    + destruct (Hin a) as (v' & ? & ->); [left|]. congruence.
    + destruct (Hin a) as (va & ? & ->); [left|]. destruct (Hin b) as (vb & ? & ->); [right; left|].
      assert (va = vb) as -> by congruence. apply NoDup_cons in Hnd' as [Hno _]. exfalso. apply Hno. left.
  - destruct (base.filter _ _) as [|a l]; [done|]. destruct (Hin a) as (v & ? & _); [left|done].
Qed.

Lemma filter_none {A} (P : A -> Prop) `{!forall x, Decision (P x)} (l : list A) : (forall x, x ∈ l -> ~ P x) -> base.filter P l = [].
Proof.
  intros Hn. destruct (base.filter P l) as [|a l'] eqn:E; [done|].
  assert (Ha : a ∈ base.filter P l) by (rewrite E; left). apply list_elem_of_filter in Ha as [Ha Hin]. by destruct (Hn a Hin).
Qed.

(** The loop over a map: one round at each of its keys. *)
Lemma items_loop {V} (f : Flushing -> COutPoint * V -> Flushing) (upd : V -> Tracked -> Tracked) (m : gmap COutPoint V) s :
  local_round fst (fun kv => upd kv.2) f ->
  tracked_by (fun o t => match m !! o with Some v => upd v t | None => t end) s (foldl f s (out_items m)).
Proof.
  intros Hf. eapply tracked_by_ext; [|exact (local_loop _ _ _ (out_items m) s Hf)].
  intros o t. cbn. rewrite filter_out_items. by destruct (m !! o).
Qed.

Lemma foldl_filter_idem {T} (upd : T -> T) (l : list COutPoint) o t :
  (forall t, upd (upd t) = upd t) ->
  foldl (fun t _ => upd t) t (base.filter (fun a => a = o) l) = if decide (o ∈ l) then upd t else t.
Proof.
  intros Hidem. revert t. induction l as [|a l IH]; intros t; [done|].
  rewrite filter_cons. destruct (decide (a = o)) as [->|Hne]; cbn [foldl].
  - rewrite IH. destruct (decide (o ∈ o :: l)) as [_|Hn]; [|exfalso; apply Hn; left].
    rewrite Hidem. by case_decide.
  - rewrite IH. apply decide_ext. rewrite elem_of_cons. naive_solver.
Qed.

(** The loop over outpoints, where a second round at the same outpoint changes
    nothing. *)
Lemma outs_loop (f : Flushing -> COutPoint -> Flushing) (upd : Tracked -> Tracked) (l : list COutPoint) s :
  (forall t, upd (upd t) = upd t) -> local_round id (fun _ => upd) f ->
  tracked_by (fun o t => if decide (o ∈ l) then upd t else t) s (foldl f s l).
Proof.
  intros Hidem Hf. eapply tracked_by_ext; [|exact (local_loop _ _ _ l s Hf)].
  intros o t. by apply (foldl_filter_idem upd l o t).
Qed.

(** * The loops of [Flush] that keep the lists *)

Ltac local_round_tac :=
  intros ?; repeat match goal with |- forall kv : _ * _, _ => intros [? ?] | |- forall _, _ => intros ? end;
  (split; [|done]); intros o; unfold trk; cbn; rewrite ?lookup_insert, ?lookup_delete;
  repeat (case_decide; simplify_eq; try done).

Section loops.
Context (local : FluxnodeCache).

Lemma flush_start_spec s :
  tracked_by (fun o t => match mapStartTxTracker local !! o with Some d => (Some d, t.1.2, t.2) | None => t end) s (flush_start local s).
Proof. apply (items_loop _ (fun d t => (Some d, t.1.2, t.2))). local_round_tac. Qed.

Lemma flush_dos_spec s :
  tracked_by (fun o t => match mapStartTxDOSTracker local !! o with Some d => (None, Some d, t.2) | None => t end) s (flush_dos local s).
Proof. apply (items_loop _ (fun d t => (None, Some d, t.2))). local_round_tac. Qed.

Lemma flush_erase_dos_spec outs s :
  tracked_by (fun o t => if decide (o ∈ outs) then (t.1.1, None, t.2) else t) s (flush_erase_dos outs s).
Proof. apply (outs_loop _ (fun t => (t.1.1, None, t.2))); [done|]. local_round_tac. Qed.

Lemma flush_confirmed_spec s :
  tracked_by (fun o t =>
    match mapConfirmedFluxnodeData local !! o with
    | Some d => (t.1.1, t.1.2, Some ((default null_data t.2) <| fn_nLastConfirmedBlockHeight := fn_nLastConfirmedBlockHeight d |> <| fn_ip := fn_ip d |>))
    | None => t
    end) s (flush_confirmed local s).
Proof.
  apply (items_loop _ (fun d t => (t.1.1, t.1.2,
    Some ((default null_data t.2) <| fn_nLastConfirmedBlockHeight := fn_nLastConfirmedBlockHeight d |> <| fn_ip := fn_ip d |>)))).
  local_round_tac.
Qed.

Lemma flush_undo_start_spec s :
  tracked_by (fun o t => if decide (o ∈ out_elements (setUndoStartTx local)) then (None, t.1.2, t.2) else t) s (flush_undo_start local s).
Proof. apply (outs_loop _ (fun t => (None, t.1.2, t.2))); [done|]. local_round_tac. Qed.

Lemma flush_expire_spec s :
  tracked_by (fun o t => if decide (o ∈ out_elements (setExpireConfirmOutPoints local)) then (t.1.1, t.1.2, None) else t) s (flush_expire local s).
Proof.
  apply (outs_loop _ (fun t => (t.1.1, t.1.2, None))); [done|]. intros s1 a.
  destruct (mapConfirmedFluxnodeData (fl_g s1) !! a) as [d|] eqn:E; (split; [|done]); intros o; unfold trk; cbn;
    rewrite ?lookup_delete; case_decide; simplify_eq; by rewrite ?E.
Qed.

Definition update_data (addr : string) (d : FluxnodeCacheData) : FluxnodeCacheData :=
  d <| fn_nLastConfirmedBlockHeight := setAddToUpdateConfirmHeight local |> <| fn_ip := addr |>.

Lemma flush_update_confirm_spec s :
  tracked_by (fun o t =>
    match mapAddToUpdateConfirm local !! o with
    | Some addr => (t.1.1, t.1.2, update_data addr <$> t.2)
    | None => t
    end) s (flush_update_confirm local s).
Proof.
  apply (items_loop _ (fun addr t => (t.1.1, t.1.2, update_data addr <$> t.2))). intros s1 [a addr].
  destruct (mapConfirmedFluxnodeData (fl_g s1) !! a) as [d|] eqn:E; (split; [|done]); intros o; unfold trk; cbn;
    rewrite ?lookup_insert; case_decide; simplify_eq; by rewrite ?E.
Qed.

End loops.

(** * Confirming *)

Section confirm.
Context (tier_of : COutPoint -> Z) (local : FluxnodeCache).

(** [o] has an entry in the list of tier [t]. *)
Definition listed (lists : gmap Z FluxnodeList) (t : Z) (o : COutPoint) : Prop :=
  exists l, lists !! t = Some l /\ o ∈ setConfirmedTxInList l.

(** What is collected for the lists when the nodes of [vec] are to be added. *)
Record collected (lists : gmap Z FluxnodeList) (vec : list FluxnodeCacheData) (s : Flushing) : Prop := {
  co_vec : vecNodesToAdd s = vec;
  co_remove : forall o, o ∈ setRemoveFromList s <-> exists d, d ∈ vec /\ fn_collateralIn d = o /\ listed lists (fn_nTier d) o;
  co_removed : forall t, t ∈ removedTiers s <-> exists d, d ∈ vec /\ fn_nTier d = t /\ listed lists t (fn_collateralIn d);
  co_tiers : forall t, t ∈ undoExpiredTiers s <-> exists d, d ∈ vec /\ fn_nTier d = t;
}.

Definition new_confirm (start : gmap COutPoint FluxnodeCacheData) (kv : COutPoint * string) : option FluxnodeCacheData :=
  confirm_started (setAddToConfirmHeight local) kv.2 <$> start !! kv.1.

Abbreviation confirm_upd := (fun (kv : COutPoint * string) (t : Tracked) =>
  (None : option FluxnodeCacheData, t.1.2, confirm_started (setAddToConfirmHeight local) kv.2 <$> t.1.1)).

(** One round, for a started node. *)
Lemma add_confirm_step s k addr d vec :
  mapStartTxTracker (fl_g s) !! k = Some d -> keyed tier_of k d ->
  (forall t, t ∈ tiers -> is_Some (mapFluxnodeList (fl_g s) !! t)) -> collected (mapFluxnodeList (fl_g s)) vec s ->
  exists s', add_confirm local (k, addr) s = Some s' /\
    (forall o, trk o (fl_g s') = if decide (k = o) then confirm_upd (k, addr) (trk o (fl_g s)) else trk o (fl_g s)) /\
    mapFluxnodeList (fl_g s') = mapFluxnodeList (fl_g s) /\
    collected (mapFluxnodeList (fl_g s)) (vec ++ [confirm_started (setAddToConfirmHeight local) addr d]) s'.
Proof.
  intros Hd (Hk & Ht & Hv) Hl Hc. unfold add_confirm. rewrite Hd.
  assert (Hcu : confirm_upd (k, addr) (trk k (fl_g s)) =
    (None, mapStartTxDOSTracker (fl_g s) !! k, Some (confirm_started (setAddToConfirmHeight local) addr d))).
  { unfold trk. cbn [fst snd]. by rewrite Hd. }
  assert (Hck : fn_collateralIn (confirm_started (setAddToConfirmHeight local) addr d) = k) by done.
  assert (Hct : fn_nTier (confirm_started (setAddToConfirmHeight local) addr d) = tier_of k) by done.
  generalize dependent (confirm_started (setAddToConfirmHeight local) addr d). intros c Hcu Hck Hct.
  destruct (Hl (tier_of k) Hv) as [l El]. cbv zeta.
  assert (El' : mapFluxnodeList (fl_g s) !! fn_nTier c = Some l) by (by rewrite Hct).
  eexists. split; [cbn; rewrite El'; reflexivity|]. split; [|split].
  - intros o. destruct (decide (k = o)) as [<-|Hne]; [rewrite Hcu|]; unfold trk; destruct (bool_decide _); cbn;
      rewrite Hck, ?lookup_insert_eq, ?lookup_delete_eq, ?lookup_insert_ne, ?lookup_delete_ne by done; done.
  - by destruct (bool_decide _).
  - destruct Hc as [Cv Cr Cd Ct].
    assert (Hnew : forall (P : FluxnodeCacheData -> Prop), (exists x, x ∈ vec ++ [c] /\ P x) <-> (exists x, x ∈ vec /\ P x) \/ P c).
    { intros P. setoid_rewrite elem_of_app. setoid_rewrite list_elem_of_singleton. naive_solver. }
    assert (Hli : bool_decide (fn_collateralIn c ∈ setConfirmedTxInList l) = true <-> listed (mapFluxnodeList (fl_g s)) (fn_nTier c) (fn_collateralIn c)).
    { rewrite bool_decide_eq_true. unfold listed. rewrite El'. naive_solver. }
    split; rewrite ?Hnew.
    + destruct (bool_decide _); cbn; by rewrite Cv.
    + intros o. rewrite Hnew, <- Cr. destruct (bool_decide _); cbn; rewrite ?elem_of_union, ?elem_of_singleton; naive_solver.
    + intros t. rewrite Hnew, <- Cd. destruct (bool_decide _); cbn; rewrite ?elem_of_union, ?elem_of_singleton; naive_solver.
    + intros t. rewrite Hnew, <- Ct. destruct (bool_decide _); cbn; rewrite ?elem_of_union, ?elem_of_singleton; naive_solver.
Qed.

Lemma flush_add_confirm_spec s :
  (forall o addr, mapAddToConfirm local !! o = Some addr -> exists d, mapStartTxTracker (fl_g s) !! o = Some d /\ keyed tier_of o d) ->
  (forall t, t ∈ tiers -> is_Some (mapFluxnodeList (fl_g s) !! t)) -> collected (mapFluxnodeList (fl_g s)) [] s ->
  exists s', flush_add_confirm local s = Some s' /\
    (forall o, trk o (fl_g s') =
       match mapAddToConfirm local !! o with Some addr => confirm_upd (o, addr) (trk o (fl_g s)) | None => trk o (fl_g s) end) /\
    mapFluxnodeList (fl_g s') = mapFluxnodeList (fl_g s) /\
    collected (mapFluxnodeList (fl_g s)) (omap (new_confirm (mapStartTxTracker (fl_g s))) (out_items (mapAddToConfirm local))) s'.
Proof.
  intros Hst Hl Hc. pose proof (NoDup_out_items (mapAddToConfirm local)) as Hnd.
  destruct (try_foldl_ind (fun pre s' =>
    (forall o, trk o (fl_g s') = foldl (fun t kv => confirm_upd kv t) (trk o (fl_g s)) (base.filter (fun kv => kv.1 = o) pre)) /\
    mapFluxnodeList (fl_g s') = mapFluxnodeList (fl_g s) /\
    collected (mapFluxnodeList (fl_g s)) (omap (new_confirm (mapStartTxTracker (fl_g s))) pre) s')
    (add_confirm local) (out_items (mapAddToConfirm local)) s) as (s' & E & Ht & Hl' & Hc'); [done| |].
  - intros pre [k addr] post s1 El (Ht1 & Hl1 & Hc1). rewrite El in Hnd.
    assert (Hk : base.filter (fun kv => kv.1 = k) pre = []).
    { apply filter_none. intros [k' v'] Hin Hk'. cbn in Hk'. subst k'. rewrite fmap_app in Hnd.
      apply NoDup_app in Hnd as (_ & Hnd & _). apply (Hnd k); [by apply (list_elem_of_fmap_2 fst) in Hin|]. cbn. left. }
    destruct (Hst k addr) as (d & Hd & Hkd). { apply elem_of_out_items. rewrite El, elem_of_app. right. left. }
    assert (Hd1 : mapStartTxTracker (fl_g s1) !! k = Some d).
    { pose proof (Ht1 k) as E1. rewrite Hk in E1. cbn in E1. unfold trk in E1. congruence. }
    rewrite <- Hl1 in Hl, Hc1. destruct (add_confirm_step s1 k addr d _ Hd1 Hkd Hl Hc1) as (s2 & -> & Ht2 & Hl2 & Hc2).
    exists s2. split; [done|]. split; [|split].
    + intros o. rewrite Ht2, Ht1, filter_app, foldl_app, filter_cons, filter_nil. cbn [fst]. by case_decide.
    + congruence.
    + rewrite Hl1 in Hc2. rewrite omap_app. cbn [omap list_omap]. unfold new_confirm at 2. cbn [fst snd]. by rewrite Hd.
  - exists s'. split; [exact E|]. split; [|done]. intros o. rewrite Ht, filter_out_items. by destruct (mapAddToConfirm local !! o).
Qed.

End confirm.

(** * Paying *)

Section paying.
Context (tier_of : COutPoint -> Z) (local : FluxnodeCache).

(** The height at which the block pays [o], if it does. *)
Definition paid_at (o : COutPoint) : option Z :=
  match mapPaidNodes local !! tier_of o with
  | Some (h, out) => if decide (out = o) then Some h else None
  | None => None
  end.

Definition set_paid (h : Z) (d : FluxnodeCacheData) : FluxnodeCacheData := d <| fn_nLastPaidHeight := h |>.

(** The list of a tier after its node was paid. *)
Definition paid_list (g : FluxnodeCache) (t : Z) : option FluxnodeList :=
  match mapPaidNodes local !! t with
  | Some (h, out) =>
    match mapConfirmedFluxnodeData g !! out, mapFluxnodeList g !! t with
    | Some d, Some l => Some (mkFluxnodeList (setConfirmedTxInList l) (tail (listConfirmedFluxnodes l) ++ [list_data (set_paid h d)]))
    | _, ol => ol
    end
  | None => mapFluxnodeList g !! t
  end.

(** The node a tier pays is at the front of its list. *)
Definition paid_front (g : FluxnodeCache) : Prop :=
  forall t h out, mapPaidNodes local !! t = Some (h, out) ->
    tier_of out = t /\ exists l e rest, mapFluxnodeList g !! t = Some l /\ out ∈ setConfirmedTxInList l /\
      listConfirmedFluxnodes l = e :: rest /\ ld_out e = out.

(** The state when the tiers of [pre] have been handled. *)
Definition paid_so_far (s : Flushing) (pre : list (Z * (Z * COutPoint))) (s' : Flushing) : Prop :=
  (forall o, trk o (fl_g s') =
     match paid_at o with
     | Some h => if decide (tier_of o ∈ pre.*1) then ((trk o (fl_g s)).1.1, (trk o (fl_g s)).1.2, set_paid h <$> (trk o (fl_g s)).2)
                 else trk o (fl_g s)
     | None => trk o (fl_g s)
     end) /\
  (forall t, mapFluxnodeList (fl_g s') !! t = if decide (t ∈ pre.*1) then paid_list (fl_g s) t else mapFluxnodeList (fl_g s) !! t) /\
  (setRemoveFromList s', vecNodesToAdd s', removedTiers s', undoExpiredTiers s') =
  (setRemoveFromList s, vecNodesToAdd s, removedTiers s, undoExpiredTiers s).

(** Handling one more tier changes nothing at other outpoints and tiers. *)
Lemma paid_so_far_other s pre s1 t h out :
  paid_so_far s pre s1 -> mapPaidNodes local !! t = Some (h, out) ->
  (forall o, o <> out -> trk o (fl_g s1) =
     match paid_at o with
     | Some h' => if decide (tier_of o ∈ (pre ++ [(t, (h, out))]).*1)
                  then ((trk o (fl_g s)).1.1, (trk o (fl_g s)).1.2, set_paid h' <$> (trk o (fl_g s)).2) else trk o (fl_g s)
     | None => trk o (fl_g s)
     end) /\
  (forall t', t' <> t -> mapFluxnodeList (fl_g s1) !! t' =
     if decide (t' ∈ (pre ++ [(t, (h, out))]).*1) then paid_list (fl_g s) t' else mapFluxnodeList (fl_g s) !! t').
Proof.
  intros (Ht & Hl & _) Hin.
  assert (Hmem : forall t', t' <> t -> t' ∈ pre.*1 <-> t' ∈ (pre ++ [(t, (h, out))]).*1).
  { intros t' Hne. rewrite fmap_app, elem_of_app. cbn. rewrite list_elem_of_singleton. naive_solver. }
  split; [|intros t' Hne; rewrite Hl; by apply decide_ext, Hmem].
  intros o Hne. rewrite Ht. destruct (paid_at o) as [h'|] eqn:Ep; [|done]. apply decide_ext, Hmem. intros Ho.
  unfold paid_at in Ep. rewrite Ho, Hin in Ep. case_decide; [congruence|discriminate].
Qed.

Lemma paid_round s pre s1 t h out :
  paid_front (fl_g s) -> paid_so_far s pre s1 -> mapPaidNodes local !! t = Some (h, out) -> t ∉ pre.*1 ->
  exists s2, add_paid (t, (h, out)) s1 = Some s2 /\ paid_so_far s (pre ++ [(t, (h, out))]) s2.
Proof.
  intros Hf Hi Hin Hno. destruct (paid_so_far_other _ _ _ _ _ _ Hi Hin) as [Hoth Hothl]. destruct Hi as (Ht1 & Hl1 & Hc1).
  destruct (Hf t h out Hin) as (Hto & l & e & rest & Hl & Hset & Hle & Heo).
  assert (Hpa : paid_at out = Some h) by (unfold paid_at; by rewrite Hto, Hin, decide_True).
  assert (Hmem : t ∈ (pre ++ [(t, (h, out))]).*1) by (rewrite fmap_app, elem_of_app; right; cbn; left).
  pose proof (Ht1 out) as E1. rewrite Hpa, Hto, decide_False in E1 by done. unfold trk in E1. injection E1 as E1 E2 E3.
  assert (Hl0 : mapFluxnodeList (fl_g s1) !! t = Some l) by (rewrite Hl1, decide_False by done; done).
  unfold add_paid. rewrite E3. destruct (mapConfirmedFluxnodeData (fl_g s) !! out) as [d|] eqn:Ed.
  - rewrite Hl0. cbn [mbind option_bind]. unfold rotate_list. rewrite bool_decide_eq_true_2, Hle by done. cbn [mbind option_bind].
    rewrite bool_decide_eq_true_2 by done. eexists. split; [reflexivity|]. split; [|split; [|done]].
    + intros o. destruct (decide (o = out)) as [->|Hne].
      * rewrite Hpa, Hto, decide_True by done. unfold trk. cbn. by rewrite lookup_insert_eq, E1, E2, Ed.
      * rewrite <- Hoth by done. unfold trk. cbn. by rewrite lookup_insert_ne by done.
    + intros t'. destruct (decide (t' = t)) as [->|Hne].
      * cbn. rewrite lookup_insert_eq, decide_True by done. unfold paid_list. by rewrite Hin, Ed, Hl, Hle.
      * rewrite <- Hothl by done. cbn. by rewrite lookup_insert_ne.
  - exists s1. split; [done|]. split; [|split; [|done]].
    + intros o. destruct (decide (o = out)) as [->|Hne]; [|by apply Hoth].
      rewrite Hpa, Hto, decide_True by done. unfold trk. by rewrite E1, E2, E3, Ed.
    + intros t'. destruct (decide (t' = t)) as [->|Hne]; [|by apply Hothl].
      rewrite decide_True, Hl0 by done. unfold paid_list. by rewrite Hin, Ed.
Qed.

Lemma flush_paid_spec s :
  paid_front (fl_g s) ->
  exists s', flush_paid local s = Some s' /\
    (forall o, trk o (fl_g s') =
       match paid_at o with
       | Some h => ((trk o (fl_g s)).1.1, (trk o (fl_g s)).1.2, set_paid h <$> (trk o (fl_g s)).2)
       | None => trk o (fl_g s)
       end) /\
    (forall t, mapFluxnodeList (fl_g s') !! t = paid_list (fl_g s) t) /\
    (setRemoveFromList s', vecNodesToAdd s', removedTiers s', undoExpiredTiers s') =
    (setRemoveFromList s, vecNodesToAdd s, removedTiers s, undoExpiredTiers s).
Proof.
  intros Hf. pose proof (NoDup_int_items (mapPaidNodes local)) as Hnd.
  assert (Hall : forall t h out, mapPaidNodes local !! t = Some (h, out) -> t ∈ (int_items (mapPaidNodes local)).*1).
  { intros t h out Ep. apply elem_of_int_items in Ep. by apply (list_elem_of_fmap_2 fst) in Ep. }
  destruct (try_foldl_ind (paid_so_far s) add_paid (int_items (mapPaidNodes local)) s) as (s' & E & Ht & Hl & Hc).
  - split; [|done]. intros o. destruct (paid_at o); [|done]. by rewrite decide_False by (cbn; apply not_elem_of_nil).
  - intros pre [t [h out]] post s1 El Hi. apply (paid_round s pre s1); [done|done|..].
    + apply elem_of_int_items. rewrite El, elem_of_app. right. left.
    + rewrite El, fmap_app in Hnd. apply NoDup_app in Hnd as (_ & Hnd & _). intros Hp. apply (Hnd t Hp). cbn. left.
  - exists s'. split; [exact E|]. split; [|split; [|exact Hc]].
    + intros o. rewrite Ht. unfold paid_at. destruct (mapPaidNodes local !! tier_of o) as [[h out]|] eqn:Ep; [|done].
      case_decide; [|done]. by rewrite decide_True by eauto.
    + intros t. rewrite Hl. case_decide as Hin; [done|]. unfold paid_list.
      destruct (mapPaidNodes local !! t) as [[h out]|] eqn:Ep; [|done]. exfalso. eauto.
Qed.

End paying.

(** * The lists at the end *)

Section lists.
Context (tier_of : COutPoint -> Z) (local : FluxnodeCache).

Lemma foldl_trk {A} (f : FluxnodeCache -> A -> FluxnodeCache) (l : list A) g :
  (forall g a o, trk o (f g a) = trk o g) -> forall o, trk o (foldl f g l) = trk o g.
Proof. intros Hf o. apply (foldl_inv (fun g' => trk o g' = trk o g)); [done|]. intros g' a _ <-. apply Hf. Qed.

Lemma SortList_trk t g o : trk o (SortList t g) = trk o g.
Proof. unfold SortList. by destruct (IsTierValid t). Qed.

Lemma flush_lists_trk s o : trk o (flush_lists local s) = trk o (fl_g s).
Proof.
  unfold flush_lists. cbv zeta. rewrite foldl_trk by (intros g t o'; case_match; [apply SortList_trk|done]).
  rewrite foldl_trk by (intros g d o'; unfold InsertIntoList; by destruct (IsTierValid _)).
  case_decide; [done|]. by rewrite foldl_trk.
Qed.

(** A list before it is sorted. *)
Record list_raw (t : Z) (l : FluxnodeList) : Prop := {
  lr_nodup : NoDup (map ld_out (listConfirmedFluxnodes l));
  lr_set : setConfirmedTxInList l = list_to_set (map ld_out (listConfirmedFluxnodes l));
  lr_tier : Forall (fun e => tier_of (ld_out e) = t) (listConfirmedFluxnodes l);
}.

Lemma erase_raw t l R :
  list_raw t l -> list_raw t (erase_entries R l).
Proof.
  intros [Hnd Hset Ht]. unfold erase_entries. split; cbn.
  - change (map ld_out) with (fmap (M := list) ld_out). eapply sublist_NoDup; [exact Hnd|]. apply fmap_sublist, sublist_filter.
  - apply set_eq. intros o. rewrite Hset, elem_of_difference, !elem_of_list_to_set, !list_elem_of_fmap. split.
    + intros [(e & -> & He) Hno]. exists e. split; [done|]. apply list_elem_of_filter. split; [|done].
      intros HR. apply Hno. exists e. split; [done|]. by apply list_elem_of_filter.
    + intros (e & -> & [He Hin]%list_elem_of_filter). split; [by exists e|].
      intros (e' & Heq & [HR _]%list_elem_of_filter). by rewrite <- Heq in HR.
  - rewrite Forall_forall in Ht |- *. intros e [_ He]%list_elem_of_filter. by apply Ht.
Qed.

Lemma insert_raw t l d :
  list_raw t l -> tier_of (fn_collateralIn d) = t -> fn_collateralIn d ∉ map ld_out (listConfirmedFluxnodes l) ->
  list_raw t (mkFluxnodeList ({[fn_collateralIn d]} ∪ setConfirmedTxInList l) (list_data d :: listConfirmedFluxnodes l)).
Proof.
  intros [Hnd Hset Ht] Hd Hno. split; cbn; [by constructor| |by constructor]. by rewrite Hset.
Qed.

Lemma sort_raw t l : list_raw t l -> list_raw t (mkFluxnodeList (setConfirmedTxInList l) (ld_sort (listConfirmedFluxnodes l))).
Proof.
  intros [Hnd Hset Ht]. split; cbn; change (map ld_out) with (fmap (M := list) ld_out) in *.
  - by rewrite ld_sort_perm.
  - rewrite Hset. apply set_eq. intros o. rewrite !elem_of_list_to_set. by rewrite ld_sort_perm.
  - by rewrite ld_sort_perm.
Qed.

(** A loop of changes to single lists, seen from one list. *)
Lemma alter_loop {A} (f : FluxnodeCache -> A -> FluxnodeCache) (key : A -> Z) (F : A -> FluxnodeList -> FluxnodeList) l g t :
  (forall g a, mapFluxnodeList (f g a) = alter (F a) (key a) (mapFluxnodeList g)) ->
  mapFluxnodeList (foldl f g l) !! t = (fun x => foldl (fun x a => F a x) x (base.filter (fun a => key a = t) l)) <$> mapFluxnodeList g !! t.
Proof.
  intros Hf. revert g. induction l as [|a l IH]; intros g; cbn [foldl]; [by destruct (mapFluxnodeList g !! t)|].
  rewrite IH, Hf, filter_cons. case_decide as Hk.
  - subst t. rewrite lookup_alter_eq. by destruct (mapFluxnodeList g !! key a).
  - by rewrite lookup_alter_ne.
Qed.

Lemma filter_one (t : Z) (l : list Z) : NoDup l -> base.filter (fun a => a = t) l = if decide (t ∈ l) then [t] else [].
Proof.
  induction 1 as [|a l Hno Hnd IH]; [done|]. rewrite filter_cons, IH. destruct (decide (a = t)) as [->|Hne].
  - rewrite decide_False by done. rewrite decide_True by left. done.
  - apply decide_ext. rewrite elem_of_cons. naive_solver.
Qed.

Definition insert_entry (d : FluxnodeCacheData) (l : FluxnodeList) : FluxnodeList :=
  mkFluxnodeList ({[fn_collateralIn d]} ∪ setConfirmedTxInList l) (list_data d :: listConfirmedFluxnodes l).

Definition sort_entries (l : FluxnodeList) : FluxnodeList := mkFluxnodeList (setConfirmedTxInList l) (ld_sort (listConfirmedFluxnodes l)).

(** Whether [Flush] sorts the list of a tier. *)
Definition sorts (s : Flushing) (t : Z) : bool :=
  bool_decide (t ∈ removedTiers s) || bool_decide (t ∈ undoExpiredTiers s) || has t (mapPaidNodes local).

Lemma tiers_valid t : t ∈ tiers -> IsTierValid t = true.
Proof. intros Ht. unfold tiers in Ht. repeat (apply elem_of_cons in Ht as [->|Ht]; [done|]). by apply not_elem_of_nil in Ht. Qed.

Lemma NoDup_tiers : NoDup tiers.
Proof. by apply (bool_decide_unpack _). Qed.

Lemma flush_lists_lookup s t :
  t ∈ tiers ->
  mapFluxnodeList (flush_lists local s) !! t =
  (fun l => (if sorts s t then sort_entries else id)
     (foldl (fun l d => insert_entry d l) (if decide (t ∈ removedTiers s /\ setRemoveFromList s <> ∅) then erase_entries (setRemoveFromList s) l else l)
        (base.filter (fun d => fn_nTier d = t) (vecNodesToAdd s)))) <$> mapFluxnodeList (fl_g s) !! t.
Proof.
  intros Ht. pose proof (tiers_valid t Ht) as Hv. unfold flush_lists. cbv zeta.
  rewrite (alter_loop _ id (fun t l => if sorts s t && IsTierValid t then sort_entries l else l)).
  2:{ intros g a. cbv beta. unfold sorts, SortList, id. destruct (_ || _), (IsTierValid a); cbn; [done|by rewrite alter_id..]. }
  assert (base.filter (fun a => id a = t) tiers = [t]) as ->.
  { etransitivity; [apply (filter_one t tiers NoDup_tiers)|]. by rewrite decide_True. }
  rewrite (alter_loop _ fn_nTier (fun d l => if IsTierValid (fn_nTier d) then insert_entry d l else l)).
  2:{ intros g d. cbv beta. unfold InsertIntoList. destruct (IsTierValid (fn_nTier d)); cbn; [reflexivity|]. symmetry. by apply alter_id. }
  assert (He : mapFluxnodeList (if decide (setRemoveFromList s = ∅) then fl_g s else
      foldl (fun g t0 => EraseFromList (setRemoveFromList s) t0 g) (fl_g s) (merge_sort Z.le (elements (removedTiers s)))) !! t =
    (fun l => if decide (t ∈ removedTiers s /\ setRemoveFromList s <> ∅) then erase_entries (setRemoveFromList s) l else l) <$>
    mapFluxnodeList (fl_g s) !! t).
  { destruct (decide (setRemoveFromList s = ∅)) as [E|E].
    - destruct (mapFluxnodeList (fl_g s) !! t) as [l|]; [|done]. cbn. by rewrite decide_False by naive_solver.
    - rewrite (alter_loop _ id (fun _ => erase_entries (setRemoveFromList s))) by done.
      destruct (mapFluxnodeList (fl_g s) !! t) as [l|]; [|done]. cbn [fmap option_fmap option_map]. f_equal.
      assert (base.filter (fun a => id a = t) (merge_sort Z.le (elements (removedTiers s))) =
              if decide (t ∈ removedTiers s) then [t] else []) as ->.
      { etransitivity; [apply filter_one; rewrite merge_sort_Permutation; apply NoDup_elements|].
        apply decide_ext. by rewrite merge_sort_Permutation, elem_of_elements. }
      destruct (decide (t ∈ removedTiers s)); [by rewrite decide_True|by rewrite decide_False by naive_solver]. }
  rewrite He. destruct (mapFluxnodeList (fl_g s) !! t) as [l|]; [|done]. cbn [fmap option_fmap option_map foldl]. f_equal.
  rewrite Hv, andb_true_r.
  assert (Hi : forall l0, foldl (fun x a => if IsTierValid (fn_nTier a) then insert_entry a x else x) l0 (base.filter (fun d => fn_nTier d = t) (vecNodesToAdd s))
    = foldl (fun l d => insert_entry d l) l0 (base.filter (fun d => fn_nTier d = t) (vecNodesToAdd s))).
  { intros l0. apply foldl_ext_in. intros d x Hd. apply list_elem_of_filter in Hd as [-> _]. by rewrite Hv. }
  rewrite Hi. by destruct (sorts s t).
Qed.

End lists.
