(* ===== verification/CsnodeConnect.v ===== *)
(** [Flush] of a local cache that comes from connecting a block: what is tracked
    at an outpoint makes one of nine transitions, the list of each tier is
    rebuilt, and the invariant holds at the block's height. *)

From stdpp Require Import gmap sorting strings list.
From Stdlib Require Import ZArith Lia.
From S2P Require Import Prelude Params Uint256 Transaction Platform Csnode CsnodeQueue CsnodeFlush.

(** The invariant, outpoint by outpoint. *)
Inductive trk_ok (tier_of : COutPoint -> Z) (h : Z) (o : COutPoint) : Tracked -> Prop :=
| to_none : trk_ok tier_of h o (None, None, None)
| to_start d : keyed tier_of o d -> unconfirmed FLUXNODE_TX_STARTED d ->
    h - FLUXNODE_START_TX_EXPIRATION_HEIGHT < fn_nAddedBlockHeight d <= h -> trk_ok tier_of h o (Some d, None, None)
| to_dos d : keyed tier_of o d -> unconfirmed FLUXNODE_TX_DOS_PROTECTION d ->
    fn_nAddedBlockHeight d <= h - FLUXNODE_START_TX_EXPIRATION_HEIGHT -> trk_ok tier_of h o (None, Some d, None)
| to_conf d : keyed tier_of o d -> fn_nStatus d = FLUXNODE_TX_CONFIRMED -> 0 < fn_nConfirmedBlockHeight d <= h ->
    0 <= fn_nLastPaidHeight d <= h -> trk_ok tier_of h o (None, None, Some d).

Lemma csnode_ok_trk tier_of h g o : csnode_ok tier_of h g -> trk_ok tier_of h o (trk o g).
Proof.
  intros Hok. pose proof (ok_start_dos _ _ _ Hok) as H1. pose proof (ok_start_conf _ _ _ Hok) as H2. pose proof (ok_dos_conf _ _ _ Hok) as H3.
  rewrite map_disjoint_spec in H1, H2, H3. unfold trk.
  destruct (mapStartTxTracker g !! o) as [a|] eqn:Ea, (mapStartTxDOSTracker g !! o) as [b|] eqn:Eb, (mapConfirmedFluxnodeData g !! o) as [c|] eqn:Ec;
    try (exfalso; eauto; fail).
  - apply (ok_start _ _ _ Hok) in Ea as (? & ? & ?). by constructor.
  - apply (ok_dos _ _ _ Hok) in Eb as (? & ? & ?). by constructor.
  - apply (ok_conf _ _ _ Hok) in Ec as (? & ? & ? & ?). by constructor.
  - constructor.
Qed.

Lemma trk_csnode_ok tier_of h g :
  (forall o, trk_ok tier_of h o (trk o g)) ->
  (forall t, t ∈ tiers -> exists l, mapFluxnodeList g !! t = Some l /\ list_ok tier_of (mapConfirmedFluxnodeData g) t l) ->
  csnode_ok tier_of h g.
Proof.
  intros Ht Hl. split; [..|done]; try (apply map_disjoint_spec; intros o a b Ea Eb); try intros o d Ed; specialize (Ht o); unfold trk in Ht;
    rewrite ?Ea, ?Eb, ?Ed in Ht; by inversion Ht.
Qed.

Lemma insert_entries_raw tier_of t ds l :
  list_raw tier_of t l -> NoDup (map fn_collateralIn ds) ->
  (forall d, d ∈ ds -> tier_of (fn_collateralIn d) = t /\ fn_collateralIn d ∉ map ld_out (listConfirmedFluxnodes l)) ->
  list_raw tier_of t (foldl (fun l d => insert_entry d l) l ds) /\
  (forall e, e ∈ listConfirmedFluxnodes (foldl (fun l d => insert_entry d l) l ds) <-> e ∈ listConfirmedFluxnodes l \/ exists d, d ∈ ds /\ e = list_data d).
Proof.
  revert l. induction ds as [|d ds IH]; intros l Hl Hnd Hds.
  { split; [done|]. intros e. split; [by left|]. intros [He|(d & Hd & _)]; [done|by apply not_elem_of_nil in Hd]. }
  cbn [foldl map] in *. apply NoDup_cons in Hnd as [Hno Hnd]. destruct (Hds d) as [Hdt Hdo]; [left|].
  destruct (IH (insert_entry d l)) as [H1 H2].
  - by apply insert_raw.
  - done.
  - intros d' Hd'. destruct (Hds d') as [Ht' Ho']; [by right|]. split; [done|]. cbn. rewrite elem_of_cons. intros [E|E]; [|done].
    apply Hno. rewrite <- E. by apply (list_elem_of_fmap_2 fn_collateralIn).
  - split; [done|]. intros e. rewrite H2. cbn [insert_entry listConfirmedFluxnodes]. setoid_rewrite elem_of_cons. naive_solver.
Qed.

Section connect.
Context (tier_of : COutPoint -> Z) (h : Z) (g local : FluxnodeCache).

(** What connecting a block at height [h] collects in the local cache. *)
Record connect_local : Prop := {
  cl_start : forall o d, mapStartTxTracker local !! o = Some d ->
    keyed tier_of o d /\ unconfirmed FLUXNODE_TX_STARTED d /\ fn_nAddedBlockHeight d = h /\ trk o g = (None, None, None);
  cl_dos : forall o, mapStartTxDOSTracker local !! o =
    match mapStartTxTracker g !! o with
    | Some d => if (fn_nAddedBlockHeight d =? h - FLUXNODE_START_TX_EXPIRATION_HEIGHT) && negb (has o (mapAddToConfirm local))
                then Some (d <| fn_nStatus := FLUXNODE_TX_DOS_PROTECTION |>) else None
    | None => None
    end;
  cl_confirm : forall o addr, mapAddToConfirm local !! o = Some addr -> is_Some (mapStartTxTracker g !! o) /\ setAddToConfirmHeight local = h;
  cl_update : forall o addr, mapAddToUpdateConfirm local !! o = Some addr ->
    is_Some (mapConfirmedFluxnodeData g !! o) /\ setAddToUpdateConfirmHeight local = h;
  cl_removed : forall o, o ∈ all_outs (mapDosExpiredToRemove local) -> is_Some (mapStartTxDOSTracker g !! o);
  cl_expired : forall o, o ∈ setExpireConfirmOutPoints local -> is_Some (mapConfirmedFluxnodeData g !! o);
  cl_paid : forall t hp out, mapPaidNodes local !! t = Some (hp, out) -> hp = h /\ is_Some (mapConfirmedFluxnodeData g !! out);
  cl_front : paid_front tier_of local g;
  cl_no_undo : mapDOSToUndo local = ∅ /\ mapConfirmedFluxnodeData local = ∅ /\ setUndoExpireConfirm local = [] /\
    setUndoStartTx local = ∅ /\ setUndoAddToConfirm local = ∅ /\ mapUndoPaidNodes local = ∅;
}.

(** The trackers at an outpoint after the block. *)
Definition connect_trk (o : COutPoint) (t : Tracked) : Tracked :=
  let t := match mapStartTxTracker local !! o with Some d => (Some d, t.1.2, t.2) | None => t end in
  let t := match mapStartTxDOSTracker local !! o with Some d => (None, Some d, t.2) | None => t end in
  let t := if decide (o ∈ all_outs (mapDosExpiredToRemove local)) then (t.1.1, None, t.2) else t in
  let t := match mapAddToConfirm local !! o with
           | Some addr => (None, t.1.2, confirm_started (setAddToConfirmHeight local) addr <$> t.1.1) | None => t end in
  let t := match mapAddToUpdateConfirm local !! o with Some addr => (t.1.1, t.1.2, update_data local addr <$> t.2) | None => t end in
  let t := if decide (o ∈ setExpireConfirmOutPoints local) then (t.1.1, t.1.2, None) else t in
  match paid_at tier_of local o with Some hp => (t.1.1, t.1.2, set_paid hp <$> t.2) | None => t end.

Hypothesis (Hok : csnode_ok tier_of (h - 1) g) (Hlocal : connect_local) (Hh : 0 < h).

Lemma trk_eq o : trk o g = (mapStartTxTracker g !! o, mapStartTxDOSTracker g !! o, mapConfirmedFluxnodeData g !! o).
Proof. done. Qed.

(** What is tracked at an outpoint is in one tracker at most. *)
Lemma trk_cases o :
  trk o g = (None, None, None)
  \/ (exists d, trk o g = (Some d, None, None) /\ mapStartTxTracker g !! o = Some d)
  \/ (exists d, trk o g = (None, Some d, None) /\ mapStartTxDOSTracker g !! o = Some d)
  \/ (exists d, trk o g = (None, None, Some d) /\ mapConfirmedFluxnodeData g !! o = Some d).
Proof.
  pose proof (ok_start_dos _ _ _ Hok) as H1. pose proof (ok_start_conf _ _ _ Hok) as H2. pose proof (ok_dos_conf _ _ _ Hok) as H3.
  rewrite map_disjoint_spec in H1, H2, H3. unfold trk.
  destruct (mapStartTxTracker g !! o) as [a|] eqn:Ea, (mapStartTxDOSTracker g !! o) as [b|] eqn:Eb, (mapConfirmedFluxnodeData g !! o) as [c|] eqn:Ec;
    try (exfalso; eauto; fail); naive_solver.
Qed.

(** A confirmed node the block keeps. *)
Definition refresh (o : COutPoint) (d : FluxnodeCacheData) : FluxnodeCacheData :=
  let d := match mapAddToUpdateConfirm local !! o with Some addr => update_data local addr d | None => d end in
  match paid_at tier_of local o with Some hp => set_paid hp d | None => d end.

(** How the block changes what is tracked at an outpoint. *)
Inductive transition (o : COutPoint) : Tracked -> Tracked -> Prop :=
| tr_none : mapStartTxTracker local !! o = None -> transition o (None, None, None) (None, None, None)
| tr_start d : mapStartTxTracker local !! o = Some d -> transition o (None, None, None) (Some d, None, None)
| tr_wait d : mapAddToConfirm local !! o = None -> fn_nAddedBlockHeight d <> h - FLUXNODE_START_TX_EXPIRATION_HEIGHT ->
    transition o (Some d, None, None) (Some d, None, None)
| tr_timeout d : mapAddToConfirm local !! o = None -> fn_nAddedBlockHeight d = h - FLUXNODE_START_TX_EXPIRATION_HEIGHT ->
    transition o (Some d, None, None) (None, Some (d <| fn_nStatus := FLUXNODE_TX_DOS_PROTECTION |>), None)
| tr_confirm d addr : mapAddToConfirm local !! o = Some addr ->
    transition o (Some d, None, None) (None, None, Some (confirm_started h addr d))
| tr_banned d : o ∉ all_outs (mapDosExpiredToRemove local) -> transition o (None, Some d, None) (None, Some d, None)
| tr_unban d : o ∈ all_outs (mapDosExpiredToRemove local) -> transition o (None, Some d, None) (None, None, None)
| tr_keep d : o ∉ setExpireConfirmOutPoints local -> transition o (None, None, Some d) (None, None, Some (refresh o d))
| tr_expire d : o ∈ setExpireConfirmOutPoints local -> transition o (None, None, Some d) (None, None, None).

(** Outpoints outside a set of changes. *)
Lemma connect_transition o : transition o (trk o g) (connect_trk o (trk o g)).
Proof.
  pose proof (cl_start Hlocal o) as Hs. pose proof (cl_dos Hlocal o) as Hd. pose proof (cl_confirm Hlocal o) as Hc.
  pose proof (cl_update Hlocal o) as Hu. pose proof (cl_removed Hlocal o) as Hr. pose proof (cl_expired Hlocal o) as He.
  assert (Hp : forall hp, paid_at tier_of local o = Some hp -> is_Some (mapConfirmedFluxnodeData g !! o)).
  { intros hp E. unfold paid_at in E. destruct (mapPaidNodes local !! tier_of o) as [[hp' out]|] eqn:Ep; [|done].
    case_decide; [|done]. subst out. by apply (cl_paid Hlocal) in Ep as [_ ?]. }
  unfold connect_trk, refresh. rewrite Hd.
  assert (Hst : trk o g <> (None, None, None) -> mapStartTxTracker local !! o = None).
  { intros Hne. destruct (mapStartTxTracker local !! o) as [d'|]; [|done]. destruct (Hs d' eq_refl) as (_ & _ & _ & E). done. }
  destruct (trk_cases o) as [E|[(d & E & Ed)|[(d & E & Ed)|(d & E & Ed)]]]; rewrite E in Hst |- *; pose proof E as E'; unfold trk in E';
    injection E' as E1 E2 E3; rewrite E1, ?E2, ?E3 in *.
  all: assert (Hx : forall {A} (m : option A), (forall a, m = Some a -> is_Some (None : option FluxnodeCacheData)) -> m = None)
    by (intros A [a|] Hm; [destruct (Hm a eq_refl) as [? ?]|]; done).
  - rewrite (Hx _ (mapAddToConfirm local !! o)) by (intros a Ha; by apply Hc in Ha as [? _]).
    rewrite (Hx _ (mapAddToUpdateConfirm local !! o)) by (intros a Ha; by apply Hu in Ha as [? _]).
    rewrite (Hx _ (paid_at tier_of local o)) by done.
    rewrite ?(decide_False (P := o ∈ all_outs _)) by (intros Hin; by apply Hr, is_Some_None in Hin).
    rewrite ?(decide_False (P := o ∈ setExpireConfirmOutPoints local)) by (intros Hin; by apply He, is_Some_None in Hin).
    destruct (mapStartTxTracker local !! o) eqn:Es; by constructor.
  - rewrite Hst by done. rewrite (Hx _ (mapAddToUpdateConfirm local !! o)) by (intros a Ha; by apply Hu in Ha as [? _]).
    rewrite (Hx _ (paid_at tier_of local o)) by done.
    rewrite ?(decide_False (P := o ∈ all_outs _)) by (intros Hin; by apply Hr, is_Some_None in Hin).
    rewrite ?(decide_False (P := o ∈ setExpireConfirmOutPoints local)) by (intros Hin; by apply He, is_Some_None in Hin).
    unfold has. destruct (mapAddToConfirm local !! o) as [addr|] eqn:Ea.
    + destruct (Hc addr eq_refl) as [_ Hch]. rewrite bool_decide_eq_true_2, andb_false_r by eauto. cbn. rewrite Hch. by apply tr_confirm.
    + rewrite bool_decide_eq_false_2 by (by intros []). cbn. destruct (Z.eqb_spec (fn_nAddedBlockHeight d) (h - FLUXNODE_START_TX_EXPIRATION_HEIGHT));
        by constructor.
  - rewrite Hst by done. rewrite (Hx _ (mapAddToConfirm local !! o)) by (intros a Ha; by apply Hc in Ha as [? _]).
    rewrite (Hx _ (mapAddToUpdateConfirm local !! o)) by (intros a Ha; by apply Hu in Ha as [? _]).
    rewrite (Hx _ (paid_at tier_of local o)) by done.
    rewrite ?(decide_False (P := o ∈ setExpireConfirmOutPoints local)) by (intros Hin; by apply He, is_Some_None in Hin).
    destruct (decide (o ∈ all_outs _)); by constructor.
  - rewrite Hst by done. rewrite (Hx _ (mapAddToConfirm local !! o)) by (intros a Ha; by apply Hc in Ha as [? _]).
    rewrite ?(decide_False (P := o ∈ all_outs _)) by (intros Hin; by apply Hr, is_Some_None in Hin).
    destruct (decide (o ∈ setExpireConfirmOutPoints local)).
    + replace (None, None, None) with ((None, None, None) : Tracked) by done.
      destruct (mapAddToUpdateConfirm local !! o), (paid_at tier_of local o); cbn; by apply tr_expire.
    + pose proof (tr_keep o d) as Hk. unfold refresh in Hk.
      destruct (mapAddToUpdateConfirm local !! o), (paid_at tier_of local o); cbn in *; by apply Hk.
Qed.
(** The nodes the block confirms, in the order they are added to the lists. *)
Definition confirmed_now : list FluxnodeCacheData :=
  omap (new_confirm local (mapStartTxTracker g)) (out_items (mapAddToConfirm local)).

(** The list of a tier after its node was paid, by the record of the node. *)
Definition rotated (conf : gmap COutPoint FluxnodeCacheData) (t : Z) : option FluxnodeList :=
  match mapPaidNodes local !! t with
  | Some (_, out) =>
    match conf !! out, mapFluxnodeList g !! t with
    | Some d, Some l => Some (mkFluxnodeList (setConfirmedTxInList l) (tail (listConfirmedFluxnodes l) ++ [list_data d]))
    | _, ol => ol
    end
  | None => mapFluxnodeList g !! t
  end.

(** The state when [Flush] comes to the lists. *)
Record flushed (s : Flushing) : Prop := {
  fd_trk : forall o, trk o (fl_g s) = connect_trk o (trk o g);
  fd_lists : forall t, mapFluxnodeList (fl_g s) !! t = rotated (mapConfirmedFluxnodeData (fl_g s)) t;
  fd_collected : collected (mapFluxnodeList g) confirmed_now s;
}.

(** The trackers before the confirmations. *)
Lemma start_before_confirm s o addr :
  mapAddToConfirm local !! o = Some addr ->
  trk o (fl_g s) = (let t := match mapStartTxTracker local !! o with Some d => (Some d, (trk o g).1.2, (trk o g).2) | None => trk o g end in
    let t := match mapStartTxDOSTracker local !! o with Some d => (None, Some d, t.2) | None => t end in
    if decide (o ∈ all_outs (mapDosExpiredToRemove local)) then (t.1.1, None, t.2) else t) ->
  mapStartTxTracker (fl_g s) !! o = mapStartTxTracker g !! o.
Proof.
  intros Ha E. destruct (cl_confirm Hlocal o addr Ha) as [[d Hd] _].
  assert (mapStartTxTracker local !! o = None) as Es.
  { destruct (mapStartTxTracker local !! o) as [d'|] eqn:Es; [|done]. apply (cl_start Hlocal) in Es as (_ & _ & _ & Et).
    unfold trk in Et. congruence. }
  assert (mapStartTxDOSTracker local !! o = None) as Ed.
  { rewrite (cl_dos Hlocal), Hd. unfold has. rewrite bool_decide_eq_true_2, andb_false_r by eauto. done. }
  rewrite Es, Ed in E. cbv zeta in E. unfold trk in E. case_decide; cbn in E; congruence.
Qed.

Lemma flush_before_confirm :
  let s := flush_undo_start local (flush_undo_expire local (flush_confirmed local (flush_erase_dos (all_outs (mapDOSToUndo local))
    (flush_erase_dos (all_outs (mapDosExpiredToRemove local)) (flush_dos local (flush_start local (mkFlushing g ∅ [] ∅ ∅))))))) in
  tracked_by (fun o t => let t := match mapStartTxTracker local !! o with Some d => (Some d, t.1.2, t.2) | None => t end in
    let t := match mapStartTxDOSTracker local !! o with Some d => (None, Some d, t.2) | None => t end in
    if decide (o ∈ all_outs (mapDosExpiredToRemove local)) then (t.1.1, None, t.2) else t) (mkFlushing g ∅ [] ∅ ∅) s.
Proof.
  destruct (cl_no_undo Hlocal) as (H1 & H2 & H3 & H4 & _). cbv zeta.
  unfold flush_undo_start, flush_undo_expire, flush_confirmed. rewrite H1, H2, H3, H4.
  assert (Ha : all_outs ∅ = []) by (unfold all_outs; by rewrite int_items_empty).
  rewrite Ha, out_items_empty, out_elements_empty. cbn [foldl]. change (flush_erase_dos [] ?s) with s.
  refine (tracked_by_trans _ _ _ _ _ (tracked_by_trans _ _ _ _ _ (flush_start_spec _ _) (flush_dos_spec _ _)) (flush_erase_dos_spec _ _)).
Qed.

Lemma flush_connect_state : exists s, Flush local g = Some (flush_lists local s) /\ flushed s.
Proof.
  pose proof flush_before_confirm as [Ht1 [Hl1 Hk1]]. unfold Flush.
  set (s1 := flush_undo_start local _) in *. cbv zeta. injection Hk1 as Hr Hv Hrt Hut. cbn in Hl1.
  destruct (flush_add_confirm_spec tier_of local s1) as (s2 & -> & Ht2 & Hl2 & Hc2).
  { intros o addr Ha. rewrite (start_before_confirm _ _ _ Ha (Ht1 o)). destruct (cl_confirm Hlocal o addr Ha) as [[d Hd] _].
    exists d. split; [done|]. by apply (ok_start _ _ _ Hok) in Hd as [? _]. }
  { intros t Ht. rewrite Hl1. destruct (ok_lists _ _ _ Hok t Ht) as (l & -> & _). done. }
  { split; [done|..]; rewrite ?Hr, ?Hrt, ?Hut; intros x; (split; [done|]); intros (d & Hd & _); by apply not_elem_of_nil in Hd. }
  cbn [mbind option_bind]. destruct (cl_no_undo Hlocal) as (_ & _ & _ & _ & H5 & H6).
  assert (flush_undo_confirm local s2 = s2) as -> by (unfold flush_undo_confirm; by rewrite H5, out_elements_empty).
  destruct (tracked_by_trans _ _ _ _ _ (flush_update_confirm_spec local s2) (flush_expire_spec local _)) as [Ht3 [Hl3 Hk3]].
  set (s3 := flush_expire local _) in *.
  assert (Hl : mapFluxnodeList (fl_g s3) = mapFluxnodeList g) by congruence.
  destruct (flush_paid_spec tier_of local s3) as (s4 & -> & Ht4 & Hl4 & Hk4).
  { intros t hp out Hp. rewrite Hl. exact (cl_front Hlocal t hp out Hp). }
  cbn [mbind option_bind].
  assert (flush_undo_paid local s4 = Some s4) as -> by (unfold flush_undo_paid; by rewrite H6, out_items_empty).
  exists s4. split; [done|]. split.
  - intros o. rewrite Ht4, Ht3, Ht2, Ht1. unfold connect_trk. cbv zeta. rewrite (decide_ext (o ∈ out_elements (setExpireConfirmOutPoints local)) (o ∈ setExpireConfirmOutPoints local)) by apply elem_of_out_elements.
    cbn [fl_g]. done.
  - intros t. rewrite Hl4. unfold paid_list, rotated. rewrite Hl.
    destruct (mapPaidNodes local !! t) as [[hp out]|] eqn:Ep; [|done].
    destruct (cl_front Hlocal t hp out Ep) as [Hto _].
    pose proof (Ht4 out) as E. unfold paid_at in E. rewrite Hto, Ep, decide_True in E by done. unfold trk in E. injection E as _ _ ->.
    by destruct (mapConfirmedFluxnodeData (fl_g s3) !! out), (mapFluxnodeList g !! t).
  - injection Hk3 as Ea Eb Ec Ed. injection Hk4 as Fa Fb Fc Fd. rewrite Hl1 in Hc2.
    assert (Hom : omap (new_confirm local (mapStartTxTracker (fl_g s1))) (out_items (mapAddToConfirm local)) = confirmed_now).
    { apply list_omap_ext, Forall_Forall2_diag, Forall_forall. intros [o addr] Hin. apply elem_of_out_items in Hin.
      unfold new_confirm. cbn. by rewrite (start_before_confirm _ _ _ Hin (Ht1 o)). }
    rewrite Hom in Hc2. destruct Hc2 as [Cv Cr Cd Ct]. split; [congruence|..]; intros x; rewrite ?Fa, ?Fc, ?Fd, ?Ea, ?Ec, ?Ed; done.
Qed.

(** ** The lists *)

Lemma confirmed_now_in d :
  d ∈ confirmed_now <-> exists o addr d0, mapAddToConfirm local !! o = Some addr /\ mapStartTxTracker g !! o = Some d0 /\
    d = confirm_started h addr d0.
Proof.
  unfold confirmed_now. rewrite list_elem_of_omap. split.
  - intros ([o addr] & Hin & E). apply elem_of_out_items in Hin. unfold new_confirm in E. cbn in E.
    destruct (cl_confirm Hlocal o addr Hin) as [[d0 Hd0] Hh']. rewrite Hd0, Hh' in E. injection E as <-. by exists o, addr, d0.
  - intros (o & addr & d0 & Ha & Hd & ->). exists (o, addr). split; [by apply elem_of_out_items|].
    unfold new_confirm. cbn. rewrite Hd. by destruct (cl_confirm Hlocal o addr Ha) as [_ ->].
Qed.

Lemma confirmed_now_keyed d : d ∈ confirmed_now -> keyed tier_of (fn_collateralIn d) d /\ is_Some (mapStartTxTracker g !! fn_collateralIn d).
Proof.
  intros (o & addr & d0 & _ & Hd & ->)%confirmed_now_in. destruct (ok_start _ _ _ Hok _ _ Hd) as [(Ho & Ht & Hv) _].
  cbn. rewrite Ho. split; [by split|by exists d0].
Qed.

Lemma confirmed_now_nodup : NoDup (map fn_collateralIn confirmed_now).
Proof.
  assert (E : forall l, (forall kv, kv ∈ l -> exists d, new_confirm local (mapStartTxTracker g) kv = Some d /\ fn_collateralIn d = kv.1) ->
    map fn_collateralIn (omap (new_confirm local (mapStartTxTracker g)) l) = l.*1).
  { induction l as [|kv l IH]; intros Hl; [done|]. destruct (Hl kv) as (d & E & Ek); [left|].
    change (map fn_collateralIn (match new_confirm local (mapStartTxTracker g) kv with Some y => y :: omap (new_confirm local (mapStartTxTracker g)) l | None => omap (new_confirm local (mapStartTxTracker g)) l end) = kv.1 :: l.*1).
    rewrite E. cbn. rewrite Ek, IH; [done|]. intros kv' Hin. apply Hl. by right. }
  unfold confirmed_now. rewrite E; [apply NoDup_out_items|]. intros [o addr] Hin. apply elem_of_out_items in Hin.
  destruct (cl_confirm Hlocal o addr Hin) as [[d Hd] _]. unfold new_confirm. cbn. rewrite Hd. eexists. split; [done|].
  by destruct (ok_start _ _ _ Hok _ _ Hd) as [(Ho & _) _].
Qed.

Lemma conf_cases s o d' :
  flushed s -> mapConfirmedFluxnodeData (fl_g s) !! o = Some d' ->
  (exists d, mapConfirmedFluxnodeData g !! o = Some d /\ o ∉ setExpireConfirmOutPoints local /\ d' = refresh o d)
  \/ (exists d addr, mapStartTxTracker g !! o = Some d /\ mapAddToConfirm local !! o = Some addr /\ d' = confirm_started h addr d).
Proof.
  intros Hs Hd'. pose proof (connect_transition o) as Htr. rewrite <- (fd_trk _ Hs o) in Htr. unfold trk in Htr. rewrite Hd' in Htr.
  inversion Htr; subst; eauto 10.
Qed.

Lemma rotated_spec s t l0 :
  flushed s -> mapFluxnodeList g !! t = Some l0 -> list_ok tier_of (mapConfirmedFluxnodeData g) t l0 ->
  exists l1, mapFluxnodeList (fl_g s) !! t = Some l1 /\ list_raw tier_of t l1 /\ setConfirmedTxInList l1 = setConfirmedTxInList l0 /\
    (forall o d, mapConfirmedFluxnodeData g !! o = Some d -> fn_nTier d = t -> o ∉ setExpireConfirmOutPoints local ->
       list_data (refresh o d) ∈ listConfirmedFluxnodes l1) /\
    (mapPaidNodes local !! t = None -> l1 = l0).
Proof.
  intros Hs Hl0 Hok0. pose proof (fd_lists _ Hs t) as El. unfold rotated in El. rewrite Hl0 in El.
  assert (Hraw : list_raw tier_of t l0) by (destruct Hok0; by split).
  assert (Hkeep : forall o d, mapConfirmedFluxnodeData g !! o = Some d -> fn_nTier d = t ->
    paid_at tier_of local o = None -> list_data (refresh o d) ∈ listConfirmedFluxnodes l0).
  { intros o d Hd Ht Hp. unfold refresh. rewrite Hp. pose proof (lo_all _ _ _ _ Hok0 o d Hd Ht) as Hin.
    by destruct (mapAddToUpdateConfirm local !! o). }
  assert (Htier : forall o d, mapConfirmedFluxnodeData g !! o = Some d -> fn_nTier d = tier_of o)
    by (intros o d Hd; by destruct (ok_conf _ _ _ Hok o d Hd) as [(_ & ? & _) _]).
  destruct (mapPaidNodes local !! t) as [[hp out]|] eqn:Ep.
  2:{ exists l0. split; [done|]. split; [done|]. split; [done|]. split; [|done]. intros o d Hd Ht _. apply Hkeep; [done..|].
      unfold paid_at. rewrite <- (Htier o d Hd), Ht. by rewrite Ep. }
  destruct (cl_front Hlocal t hp out Ep) as (Hto & l & e & rest & Hl & _ & Hle & Heo). assert (l = l0) as -> by congruence.
  assert (Hother : forall o d, mapConfirmedFluxnodeData g !! o = Some d -> fn_nTier d = t -> o <> out -> paid_at tier_of local o = None).
  { intros o d Hd Ht Hne. unfold paid_at. rewrite <- (Htier o d Hd), Ht, Ep. by rewrite decide_False. }
  assert (Hcol : forall o d, mapConfirmedFluxnodeData g !! o = Some d -> fn_collateralIn (refresh o d) = o).
  { intros o d Hd. destruct (ok_conf _ _ _ Hok o d Hd) as [(? & _ & _) _]. unfold refresh.
    by destruct (mapAddToUpdateConfirm local !! o), (paid_at tier_of local o). }
  destruct (mapConfirmedFluxnodeData (fl_g s) !! out) as [dn|] eqn:Edn.
  - destruct (conf_cases s out dn Hs Edn) as [(d & Hd & Hne & Hdn)|(d & addr & Hd & _)].
    2:{ destruct (cl_paid Hlocal t hp out Ep) as [_ [d' Hd']]. pose proof (ok_start_conf _ _ _ Hok) as Hdis.
        rewrite map_disjoint_spec in Hdis. by destruct (Hdis _ _ _ Hd Hd'). }
    eexists. split; [exact El|]. cbn [listConfirmedFluxnodes setConfirmedTxInList]. rewrite Hle. cbn [tail].
    assert (Hperm : map ld_out (rest ++ [list_data dn]) ≡ₚ map ld_out (listConfirmedFluxnodes l0)).
    { rewrite Hle, map_app. cbn. rewrite Hdn, (Hcol _ _ Hd), Heo. symmetry. apply Permutation_cons_append. }
    split; [|split; [done|split; [|done]]].
    + destruct Hraw as [Hnd Hset Htr]. split; cbn [listConfirmedFluxnodes setConfirmedTxInList].
      * by rewrite Hperm.
      * rewrite Hset. apply set_eq. intros o. rewrite !elem_of_list_to_set. by rewrite Hperm.
      * rewrite Hle in Htr. apply Forall_cons in Htr as [_ Htr]. apply Forall_app. split; [done|]. constructor; [|done].
        cbn. by rewrite Hdn, (Hcol _ _ Hd).
    + intros o d1 Hd1 Ht1 _. apply elem_of_app. destruct (decide (o = out)) as [->|Hno].
      * right. assert (d1 = d) as -> by congruence. rewrite <- Hdn. left.
      * left. pose proof (Hkeep o d1 Hd1 Ht1 (Hother _ _ Hd1 Ht1 Hno)) as Hin. rewrite Hle in Hin.
        apply elem_of_cons in Hin as [He|Hin]; [|done]. apply (f_equal ld_out) in He. cbn in He. rewrite Hcol in He by done. congruence.
  - exists l0. split; [done|]. split; [done|]. split; [done|]. split; [|done]. intros o d Hd Ht Hne. apply Hkeep; [done..|].
    apply (Hother o d Hd Ht). intros ->. pose proof (connect_transition out) as Htr. rewrite <- (fd_trk _ Hs out) in Htr.
    unfold trk in Htr. rewrite Edn, Hd in Htr. inversion Htr; subst; done.
Qed.

(** A list once the entries to be replaced are gone. *)
Definition cleared (s : Flushing) (t : Z) (l : FluxnodeList) : FluxnodeList :=
  if decide (t ∈ removedTiers s /\ setRemoveFromList s <> ∅) then erase_entries (setRemoveFromList s) l else l.

Definition added_to (t : Z) : list FluxnodeCacheData := base.filter (fun d => fn_nTier d = t) confirmed_now.

Lemma cleared_raw s t l : list_raw tier_of t l -> list_raw tier_of t (cleared s t l).
Proof. unfold cleared. case_decide; [apply erase_raw|done]. Qed.

Lemma cleared_elem s t l e :
  e ∈ listConfirmedFluxnodes l -> ld_out e ∉ setRemoveFromList s -> e ∈ listConfirmedFluxnodes (cleared s t l).
Proof. intros He Hno. unfold cleared. case_decide; [|done]. apply list_elem_of_filter. by split. Qed.

(** No entry of a node to be added is left. *)
Lemma added_cleared s t l0 l1 d :
  flushed s -> mapFluxnodeList g !! t = Some l0 -> list_raw tier_of t l1 -> setConfirmedTxInList l1 = setConfirmedTxInList l0 ->
  d ∈ added_to t -> tier_of (fn_collateralIn d) = t /\ fn_collateralIn d ∉ map ld_out (listConfirmedFluxnodes (cleared s t l1)).
Proof.
  intros Hs Hl0 Hraw Hset [Hdt Hd]%list_elem_of_filter. destruct (fd_collected _ Hs) as [_ Cr Cd _].
  destruct (confirmed_now_keyed d Hd) as [(_ & Hk & _) _]. split; [congruence|]. intros Hin.
  assert (Hli : listed (mapFluxnodeList g) t (fn_collateralIn d)).
  { exists l0. split; [done|]. rewrite <- Hset, (lr_set _ _ _ Hraw), elem_of_list_to_set. unfold cleared in Hin. case_decide; [|done].
    cbn in Hin. apply list_elem_of_fmap in Hin as (e & -> & [_ He]%list_elem_of_filter). by apply (list_elem_of_fmap_2 ld_out). }
  assert (HR : fn_collateralIn d ∈ setRemoveFromList s) by (apply Cr; exists d; by rewrite Hdt).
  unfold cleared in Hin. rewrite decide_True in Hin; [|split; [apply Cd; by exists d|set_solver]].
  cbn in Hin. apply list_elem_of_fmap in Hin as (e & E & [He _]%list_elem_of_filter). by rewrite <- E in He.
Qed.

Lemma unsorted s t l0 l1 :
  flushed s -> (mapPaidNodes local !! t = None -> l1 = l0) -> sorts local s t = false ->
  foldl (fun l d => insert_entry d l) (cleared s t l1) (added_to t) = l0.
Proof.
  intros Hs Hp E. unfold sorts in E. apply orb_false_iff in E as [[E1 E2]%orb_false_iff E3].
  apply bool_decide_eq_false in E1, E2, E3. destruct (fd_collected _ Hs) as [_ _ _ Ct].
  assert (added_to t = []) as ->.
  { apply filter_none. intros d Hd Hdt. apply E2, Ct. by exists d. }
  cbn. unfold cleared. rewrite decide_False by (by intros [? _]). apply Hp. destruct (mapPaidNodes local !! t); [|done]. exfalso. eauto.
Qed.

Lemma final_list_ok s t :
  flushed s -> t ∈ tiers ->
  exists l, mapFluxnodeList (flush_lists local s) !! t = Some l /\ list_ok tier_of (mapConfirmedFluxnodeData (fl_g s)) t l.
Proof.
  intros Hs Ht. destruct (ok_lists _ _ _ Hok t Ht) as (l0 & Hl0 & Hok0).
  destruct (rotated_spec s t l0 Hs Hl0 Hok0) as (l1 & Hl1 & Hraw1 & Hset1 & Hin1 & Hpaid1).
  destruct (fd_collected _ Hs) as [Cv Cr _ _]. rewrite flush_lists_lookup, Hl1, Cv by done. cbn [fmap option_fmap option_map].
  change (if decide _ then erase_entries _ l1 else l1) with (cleared s t l1).
  change (base.filter _ confirmed_now) with (added_to t).
  destruct (insert_entries_raw tier_of t (added_to t) (cleared s t l1)) as [Hraw3 Hin3].
  { by apply cleared_raw. }
  { eapply sublist_NoDup; [exact confirmed_now_nodup|]. apply fmap_sublist, sublist_filter. }
  { intros d Hd. by apply (added_cleared s t l0 l1). }
  pose proof (unsorted s t l0 l1 Hs Hpaid1) as Hun. set (l3 := foldl _ _ (added_to t)) in *.
  assert (Hraw : list_raw tier_of t ((if sorts local s t then sort_entries else id) l3)) by (destruct (sorts local s t); [by apply sort_raw|done]).
  assert (Hmem : forall e, e ∈ listConfirmedFluxnodes ((if sorts local s t then sort_entries else id) l3) <-> e ∈ listConfirmedFluxnodes l3).
  { intros e. destruct (sorts local s t); [|done]. cbn. by rewrite ld_sort_perm. }
  eexists. split; [done|]. split; [exact (lr_nodup _ _ _ Hraw)|exact (lr_set _ _ _ Hraw)| | |exact (lr_tier _ _ _ Hraw)].
  - destruct (sorts local s t) eqn:E; [apply ld_sort_sorted|]. unfold id. rewrite Hun by done. exact (lo_sorted _ _ _ _ Hok0).
  - intros o d' Hd' Hdt. rewrite Hmem, Hin3. destruct (conf_cases s o d' Hs Hd') as [(d & Hd & Hne & ->)|(d & addr & Hd & Ha & ->)].
    + left. assert (Hrt : fn_nTier (refresh o d) = fn_nTier d /\ fn_collateralIn (refresh o d) = fn_collateralIn d)
        by (unfold refresh; by destruct (mapAddToUpdateConfirm local !! o), (paid_at tier_of local o)).
      destruct Hrt as [Hrt Hrc]. apply cleared_elem; [apply Hin1; congruence|]. cbn. rewrite Hrc.
      destruct (ok_conf _ _ _ Hok o d Hd) as [(-> & _) _]. intros (dn & Hdn & <- & _)%Cr.
      apply confirmed_now_keyed in Hdn as [_ [ds Hst]]. pose proof (ok_start_conf _ _ _ Hok) as Hdis. rewrite map_disjoint_spec in Hdis. eauto.
    + right. eexists. split; [|done]. apply list_elem_of_filter. split; [done|]. apply confirmed_now_in. by exists o, addr, d.
Qed.

Lemma refresh_ok o d :
  mapConfirmedFluxnodeData g !! o = Some d -> trk_ok tier_of h o (None, None, Some (refresh o d)).
Proof.
  intros Hd. destruct (ok_conf _ _ _ Hok o d Hd) as (Hk & Hst & Hc & Hp). unfold refresh.
  destruct (paid_at tier_of local o) as [hp|] eqn:E.
  - assert (hp = h) as ->.
    { unfold paid_at in E. destruct (mapPaidNodes local !! tier_of o) as [[hp' out]|] eqn:Ep; [|done].
      apply (cl_paid Hlocal) in Ep as [-> _]. case_decide; congruence. }
    destruct (mapAddToUpdateConfirm local !! o); constructor; cbn; try done; lia.
  - destruct (mapAddToUpdateConfirm local !! o); constructor; cbn; try done; lia.
Qed.

Lemma transition_ok o t : transition o (trk o g) t -> trk_ok tier_of h o t.
Proof.
  pose proof (csnode_ok_trk _ _ _ o Hok) as Ht. intros Htr. remember (trk o g) as t0 eqn:E0.
  destruct Htr; inversion Ht; subst; try match goal with |- context [refresh] => unfold trk in E0; injection E0 as _ _ E; by apply refresh_ok end;
    try constructor; try done; try (cbn; lia).
  - by destruct (cl_start Hlocal o d) as (? & ? & ? & _).
  - by destruct (cl_start Hlocal o d) as (? & ? & ? & _).
  - destruct (cl_start Hlocal o d) as (? & ? & -> & _); [done|]. unfold FLUXNODE_START_TX_EXPIRATION_HEIGHT. lia.
  - match goal with H : unconfirmed _ _ |- _ => by destruct H as (_ & ? & ? & ? & ?) end.
Qed.

(** The block's local cache can be flushed; the invariant holds at its height. *)
Lemma flush_connect :
  exists g', Flush local g = Some g' /\ csnode_ok tier_of h g' /\ forall o, transition o (trk o g) (trk o g').
Proof.
  destruct flush_connect_state as (s & -> & Hs). eexists. split; [done|].
  assert (Htr : forall o, transition o (trk o g) (trk o (flush_lists local s)))
    by (intros o; rewrite flush_lists_trk, (fd_trk _ Hs); apply connect_transition).
  split; [|done]. apply trk_csnode_ok.
  - intros o. apply transition_ok, Htr.
  - intros t Ht. assert (Hc : mapConfirmedFluxnodeData (flush_lists local s) = mapConfirmedFluxnodeData (fl_g s)).
    { apply map_eq. intros o. pose proof (flush_lists_trk local s o) as E. unfold trk in E. congruence. }
    rewrite Hc. by apply final_list_ok.
Qed.

End connect.
