(* ===== verification/CsnodeCollect.v ===== *)
(** What [ConnectBlock] collects: the payouts owed by a block, and the local cache
    and undo data while its transactions are processed. *)

From stdpp Require Import gmap sorting strings list.
From Stdlib Require Import ZArith Lia.
From S2P Require Import Prelude Params Uint256 Transaction Platform Csnode CsnodeBlock.
From S2P Require Import CsnodeQueue CsnodeFlush CsnodeConnect.

(** * Payouts *)

(** The payments noted for the nodes. *)
Definition note_paid (nHeight : Z) (infos : list FluxnodePayoutInfo) (c : FluxnodeCache) : FluxnodeCache :=
  foldl (fun c info => AddPaidNode (pi_tier info) (pi_outpoint info) nHeight c) c infos.

Lemma note_paid_other nHeight infos c : note_paid nHeight infos c = c <| mapPaidNodes := mapPaidNodes (note_paid nHeight infos c) |>.
Proof. apply (foldl_inv (fun c' => c' = c <| mapPaidNodes := mapPaidNodes c' |>)); [by destruct c|]. intros c' info _ ->. done. Qed.

Lemma note_paid_lookup nHeight infos t :
  NoDup (map pi_tier infos) ->
  forall hp out, mapPaidNodes (note_paid nHeight infos emptyFluxnodeCache) !! t = Some (hp, out) <->
    hp = nHeight /\ exists info, info ∈ infos /\ pi_tier info = t /\ pi_outpoint info = out.
Proof.
  intros Hnd hp out. unfold note_paid.
  apply (foldl_ind (fun pre c => mapPaidNodes c !! t = Some (hp, out) <->
    hp = nHeight /\ exists info, info ∈ pre /\ pi_tier info = t /\ pi_outpoint info = out)).
  - split; [done|]. intros (_ & info & Hi & _). by apply not_elem_of_nil in Hi.
  - intros pre info post c El Hi. cbn. rewrite lookup_insert. setoid_rewrite elem_of_app. setoid_rewrite list_elem_of_singleton.
    case_decide as Et; [|rewrite Hi; naive_solver]. split; [naive_solver|]. intros (-> & info' & [Hp|Hp] & Ht & Ho); [|naive_solver].
    exfalso. rewrite El, map_app in Hnd. apply NoDup_app in Hnd as (_ & Hnd & _). apply (Hnd t).
    + rewrite <- Ht. by apply (list_elem_of_fmap_2 pi_tier).
    + cbn. rewrite Et. left.
Qed.

Section payouts.
Context `{Crypto} (tier_of : COutPoint -> Z) (p2shKeys : list (string * Z)) (script_hash : bytes -> bytes)
  (p2shDestination : COutPoint -> option CTxDestination).

Abbreviation gather_payouts := (gather_payouts p2shKeys script_hash p2shDestination).
Abbreviation payee := (payee p2shKeys script_hash p2shDestination).

(** What a block owes the node at the head of a tier's queue. *)
Definition owes (blockValue : Z) (g : FluxnodeCache) (info : FluxnodePayoutInfo) : Prop :=
  exists d, oldest g (pi_tier info) (pi_outpoint info) d /\ payee false (pi_outpoint info) d = Some (pi_dest info) /\
    pi_amount info = GetFluxnodeSubsidy blockValue (pi_tier info).

(** The node's entry is the first of its list. *)
Definition at_front (g : FluxnodeCache) (info : FluxnodePayoutInfo) : Prop :=
  exists l d rest, mapFluxnodeList g !! pi_tier info = Some l /\ mapConfirmedFluxnodeData g !! pi_outpoint info = Some d /\
    listConfirmedFluxnodes l = list_data d :: rest.

(** The state when the tiers of [pre] have been asked. *)
Record gathered (blockValue h : Z) (g : FluxnodeCache) (pre : list Z) (r : list FluxnodePayoutInfo * FluxnodeCache) : Prop := {
  ga_trackers : same_trackers g r.2;
  ga_ok : csnode_ok tier_of h r.2;
  ga_infos : forall info, info ∈ r.1 -> pi_tier info ∈ pre /\ owes blockValue g info /\ at_front r.2 info;
  ga_tiers : NoDup (map pi_tier r.1);
  ga_all : forall t o d, t ∈ pre -> mapConfirmedFluxnodeData g !! o = Some d -> fn_nTier d = t ->
    (exists info, info ∈ r.1 /\ pi_tier info = t) \/ (exists o' d', oldest g t o' d' /\ payee false o' d' = None);
}.

Lemma same_trackers_oldest g g' t o d : same_trackers g g' -> oldest g t o d <-> oldest g' t o d.
Proof. intros (_ & _ & E). unfold oldest. by rewrite E. Qed.

Lemma gather_step blockValue h g pre t infos g1 :
  t ∈ tiers -> t ∉ pre -> gathered blockValue h g pre (infos, g1) ->
  gathered blockValue h g (pre ++ [t])
    match GetNextPayment p2shKeys script_hash p2shDestination t false g1 with
    | (Some (dest, out), g') => (infos ++ [mkFluxnodePayoutInfo t dest out (GetFluxnodeSubsidy blockValue t)], g')
    | (None, g') => (infos, g')
    end.
Proof.
  intros Ht Hno [Htr Hok Hin Hnd Hall]. cbn [fst snd] in *.
  pose proof (get_next_payment_spec tier_of p2shKeys script_hash p2shDestination t false h g1 Hok Ht) as Hn.
  pose proof (next_result_ok tier_of _ _ _ _ _ _ _ _ Hok Ht Hn) as Hok'.
  destruct (GetNextPayment _ _ _ t false g1) as [r g2]. cbn [fst snd] in *. destruct Hn as (Htr2 & Hoth & l' & Hl' & _ & Hres). cbn [fst snd] in *.
  assert (Htr' : same_trackers g g2) by (by transitivity g1).
  assert (Hfront : forall info, info ∈ infos -> pi_tier info ∈ pre /\ owes blockValue g info /\ at_front g2 info).
  { intros info Hi. destruct (Hin info Hi) as (Hp & Ho & (l & d & rest & E1 & E2 & E3)). split; [done|]. split; [done|].
    exists l, d, rest. rewrite Hoth by (intros E; by rewrite E in Hp). destruct Htr2 as (_ & _ & ->). done. }
  assert (Hpre : forall info, info ∈ infos -> pi_tier info ∈ pre ++ [t] /\ owes blockValue g info /\ at_front g2 info).
  { intros info Hi. destruct (Hfront info Hi) as (? & ? & ?). split; [|done]. apply elem_of_app. by left. }
  assert (Hall' : forall infos' t' o d, infos ⊆ infos' -> t' ∈ pre -> mapConfirmedFluxnodeData g !! o = Some d -> fn_nTier d = t' ->
    (exists info, info ∈ infos' /\ pi_tier info = t') \/ (exists o' d', oldest g t' o' d' /\ payee false o' d' = None)).
  { intros infos' t' o d Hsub Hp Hd Hdt. destruct (Hall t' o d Hp Hd Hdt) as [(info & Hi & E)|?]; [|by right]. left. exists info. eauto. }
  destruct Hres as [(o & d & rest & Hold & -> & Hle)|[-> Hnone]].
  - apply (same_trackers_oldest g g1) in Hold; [|done]. destruct (payee false o d) as [dest|] eqn:Ep; cbn [mbind option_bind].
    + split; cbn [fst snd]; [done|done| |  | ].
      * intros info [Hi|Hi%list_elem_of_singleton]%elem_of_app; [by apply Hpre|]. subst info. cbn [pi_tier]. split; [apply elem_of_app; right; left|].
        split; [by exists d|]. exists l', d, rest. cbn. split; [done|]. split; [|done]. destruct Htr' as (_ & _ & ->). by destruct Hold as [? _].
      * rewrite map_app. apply NoDup_app. split; [done|]. split; [|apply NoDup_singleton]. intros t' Hi Ht'%list_elem_of_singleton. cbn in Ht'. subst t'.
        apply list_elem_of_fmap in Hi as (info & E & Hi). apply Hno. rewrite E. by apply Hfront.
      * intros t' o' d' [Hp|Hp%list_elem_of_singleton]%elem_of_app Hd' Hdt; [eapply Hall'; eauto using submseteq_inserts_r; set_solver|].
        left. eexists. split; [apply elem_of_app; right; left|]. done.
    + split; cbn [fst snd]; [done..|]. intros t' o' d' [Hp|Hp%list_elem_of_singleton]%elem_of_app Hd' Hdt; [eapply Hall'; eauto|].
      right. subst t'. eauto.
  - split; cbn [fst snd]; [done..|]. intros t' o' d' [Hp|Hp%list_elem_of_singleton]%elem_of_app Hd' Hdt; [eapply Hall'; eauto|].
    destruct (Hnone o' d'); [destruct Htr as (_ & _ & ->); done|congruence].
Qed.

Lemma gather_spec blockValue h g :
  csnode_ok tier_of h g -> gathered blockValue h g tiers (gather_payouts blockValue g).
Proof.
  intros Hok. unfold Csnode.gather_payouts. apply (foldl_ind (fun pre r => gathered blockValue h g pre r)).
  - split; cbn; [done|done|..].
    + intros info Hi. by apply not_elem_of_nil in Hi.
    + constructor.
    + intros t o d Hi. by apply not_elem_of_nil in Hi.
  - intros pre t post [infos g1] El Hg. apply gather_step; [rewrite El, elem_of_app; right; left| |done].
    pose proof NoDup_tiers as Hnd. rewrite El in Hnd. apply NoDup_app in Hnd as (_ & Hnd & _). intros Hp. apply (Hnd t Hp). left.
Qed.
Lemma check_payout_spec params coinbase nHeight h g local g' :
  csnode_ok tier_of h g ->
  CheckFluxnodePayout p2shKeys script_hash p2shDestination params coinbase nHeight emptyFluxnodeCache g = (true, local, g') ->
  exists infos, gathered (GetBlockSubsidy nHeight params) h g tiers (infos, g') /\ local = note_paid nHeight infos emptyFluxnodeCache.
Proof.
  intros Hok E. unfold CheckFluxnodePayout in E. pose proof (gather_spec (GetBlockSubsidy nHeight params) h g Hok) as Hg.
  destruct (gather_payouts _ g) as [infos g1]. injection E as Ha <- <-. exists infos. split; [done|].
  apply foldl_ext_in. intros info c Hi. rewrite forallb_forall in Ha. rewrite Ha; [done|]. by apply list_elem_of_In.
Qed.

End payouts.

(** * The transactions of a block *)

(** The transactions that start and that first confirm a node. *)
Definition starts (tx : CTransaction) : Prop := IsFluxnodeTx tx = true /\ nType tx = FLUXNODE_START_TX_TYPE.
Definition confirms (tx : CTransaction) : Prop :=
  IsFluxnodeTx tx = true /\ nType tx = FLUXNODE_CONFIRM_TX_TYPE /\ nUpdateType tx = INITIAL_CONFIRM.

Section collecting.
Context (tier_of : COutPoint -> Z) (h : Z) (g : FluxnodeCache).

(** What the checks before the loop give of a transaction. *)
Record tx_ok (tx : CTransaction) : Prop := {
  tk_coinbase : IsFluxnodeTx tx = true -> IsCoinBase tx = false;
  tk_start : starts tx -> trk (collateralIn tx) g = (None, None, None);
  tk_confirm : confirms tx -> is_Some (mapStartTxTracker g !! collateralIn tx);
  tk_update : IsFluxnodeTx tx = true -> nType tx = FLUXNODE_CONFIRM_TX_TYPE -> nUpdateType tx = UPDATE_CONFIRM ->
    is_Some (mapConfirmedFluxnodeData g !! collateralIn tx);
  tk_wire : starts tx -> ip tx = "";
}.

(** The local cache and the undo data while the transactions of a block at
    height [h] are processed; [paid] are the payments noted before. *)
Record collecting_ok (paid : gmap Z (Z * COutPoint)) (done : list CTransaction) (s : Collecting) : Prop := {
  co_start : forall o d, mapStartTxTracker (cl_local s) !! o = Some d ->
    keyed tier_of o d /\ unconfirmed FLUXNODE_TX_STARTED d /\ fn_nAddedBlockHeight d = h /\ trk o g = (None, None, None);
  co_confirm : forall o addr, mapAddToConfirm (cl_local s) !! o = Some addr ->
    is_Some (mapStartTxTracker g !! o) /\ setAddToConfirmHeight (cl_local s) = h;
  co_update : forall o addr, mapAddToUpdateConfirm (cl_local s) !! o = Some addr ->
    is_Some (mapConfirmedFluxnodeData g !! o) /\ setAddToUpdateConfirmHeight (cl_local s) = h;
  co_starts : forall o, is_Some (mapStartTxTracker (cl_local s) !! o) <-> exists tx, tx ∈ done /\ starts tx /\ collateralIn tx = o;
  co_confirms : forall o, is_Some (mapAddToConfirm (cl_local s) !! o) <-> exists tx, tx ∈ done /\ confirms tx /\ collateralIn tx = o;
  co_rest : (mapStartTxDOSTracker (cl_local s), mapConfirmedFluxnodeData (cl_local s), mapDosExpiredToRemove (cl_local s),
             setExpireConfirmOutPoints (cl_local s), mapPaidNodes (cl_local s)) = (∅, ∅, ∅, ∅, paid);
  co_no_undo : (mapDOSToUndo (cl_local s), setUndoExpireConfirm (cl_local s), setUndoStartTx (cl_local s),
                setUndoAddToConfirm (cl_local s), mapUndoPaidNodes (cl_local s)) = (∅, [], ∅, ∅, ∅);
  co_undo : (vecExpiredDosData (cl_undo s), vecExpiredConfirmedData (cl_undo s), mapLastPaidHeights (cl_undo s)) = ([], [], ∅);
  co_last : forall o, mapUpdateLastConfirmHeight (cl_undo s) !! o =
    (addr ← mapAddToUpdateConfirm (cl_local s) !! o; fn_nLastConfirmedBlockHeight <$> mapConfirmedFluxnodeData g !! o);
  co_ip : forall o, mapLastIpAddress (cl_undo s) !! o =
    (addr ← mapAddToUpdateConfirm (cl_local s) !! o; fn_ip <$> mapConfirmedFluxnodeData g !! o);
}.

Context `{Crypto} (params : Params) (p2shKeys benchmarkKeys : list (string * Z)) (script_hash : bytes -> bytes)
  (ListPubKeysFromMultiSigScript : bytes -> option (list bytes)) (IsMultiSigRedeemScript : bytes -> bool)
  (ExtractDestination : bytes -> option CTxDestination) (EncodeDestination : CTxDestination -> string)
  (fIsVerifying : bool) (tipCoins : COutPoint -> option (option CTxOut)) (tip : Z).

Abbreviation CheckTx := (CheckTransactionFluxnode benchmarkKeys ListPubKeysFromMultiSigScript IsMultiSigRedeemScript fIsVerifying).
Abbreviation ContextualCheckTx :=
  (ContextualCheckTransactionFluxnode params p2shKeys script_hash ExtractDestination EncodeDestination fIsVerifying tipCoins tip h g).

(** A transaction that passed the checks before the loop. *)
Definition admissible (tx : CTransaction) : Prop := CheckTx tx g = Accept /\ ContextualCheckTx tx = Accept.

Lemma admissible_no_vin tx : admissible tx -> IsFluxnodeTx tx = true -> IsCoinBase tx = false.
Proof.
  intros [Hc _] Hf. unfold CheckTransactionFluxnode in Hc. rewrite Hf in Hc. cbn [negb] in Hc.
  destruct (decide (vin tx = [])) as [E|E].
  - unfold IsCoinBase. by rewrite E.
  - rewrite (bool_decide_eq_false_2 _ E) in Hc. cbn [negb] in Hc. rewrite orb_true_r in Hc. done.
Qed.

Lemma admissible_start tx : admissible tx -> starts tx -> trk (collateralIn tx) g = (None, None, None).
Proof.
  intros [_ Hc] [Hf Ht]. unfold ContextualCheckTransactionFluxnode in Hc. rewrite Hf, Ht in Hc. cbn [negb] in Hc.
  destruct (negb (NetworkUpgradeActive h params UPGRADE_KAMATA)); [done|]. destruct (_ && _); [done|]. cbn in Hc.
  unfold ContextualCheckStart in Hc. destruct (CheckNewStartTx _ g) eqn:E1; [|done]. destruct (CheckIfConfirmed _ g) eqn:E2; [done|].
  unfold CheckNewStartTx, CheckIfConfirmed, has in *. apply andb_true_iff in E1 as [E1 E3]. apply negb_true_iff in E1, E3.
  apply bool_decide_eq_false in E1, E2, E3. unfold trk. apply eq_None_not_Some in E1, E2, E3. by rewrite E1, E2, E3.
Qed.

Lemma admissible_confirm tx :
  admissible tx -> IsFluxnodeTx tx = true -> nType tx = FLUXNODE_CONFIRM_TX_TYPE ->
  (nUpdateType tx = INITIAL_CONFIRM -> is_Some (mapStartTxTracker g !! collateralIn tx)) /\
  (nUpdateType tx = UPDATE_CONFIRM -> is_Some (mapConfirmedFluxnodeData g !! collateralIn tx)).
Proof.
  intros [_ Hc] Hf Ht. unfold ContextualCheckTransactionFluxnode in Hc. rewrite Hf, Ht in Hc. cbn [negb] in Hc.
  destruct (negb (NetworkUpgradeActive h params UPGRADE_KAMATA)); [done|]. destruct (_ && _); [done|]. cbn in Hc.
  unfold ContextualCheckConfirm in Hc. destruct (_ <? _); [done|]. destruct (fn_IsNull _); [done|]. destruct (_ && _); [done|].
  split; intros E; rewrite E in Hc; cbn in Hc.
  - destruct (CheckIfStarted _ g) eqn:E1; [|done]. unfold CheckIfStarted, has in E1. by apply bool_decide_eq_true in E1.
  - destruct (CheckIfConfirmed _ g) eqn:E1; [|done]. unfold CheckIfConfirmed, has in E1. by apply bool_decide_eq_true in E1.
Qed.

End collecting.

Section loop.
Context (tier_of : COutPoint -> Z) (h : Z) (g : FluxnodeCache) (params : Params) (p2shKeys : list (string * Z)).

(** An output has one value, so its tier is the tier of its value. *)
Definition tiers_of_view (view : COutPoint -> option (CTxOut * Z)) : Prop :=
  forall o out height t, view o = Some (out, height) -> GetCoinTierFromAmount (nValue out) = Some t -> tier_of o = t.

Lemma tier_from_amount n t : GetCoinTierFromAmount n = Some t -> t ∈ tiers /\ i8 t = t.
Proof.
  unfold GetCoinTierFromAmount, tiers. cbn [foldl]. repeat (destruct (bool_decide _)); intros [= <-]; (split; [|done]); set_solver.
Qed.

Lemma check_input view tx t v :
  tiers_of_view view -> CheckFluxnodeTxInput params p2shKeys view tx h = inr (t, v) ->
  t = tier_of (collateralIn tx) /\ t ∈ tiers /\ i8 t = t.
Proof.
  intros Hv E. unfold CheckFluxnodeTxInput in E. destruct (negb _); [done|]. destruct (view _) as [[out height]|] eqn:Ev; [|done].
  destruct (_ <? _); [done|]. destruct (GetCoinTierFromAmount _) as [t'|] eqn:Et; [|done]. cbv zeta in E.
  repeat (destruct (_ && _); [done|]). destruct (IsTierValid t'); [|done]. injection E as <- _.
  apply tier_from_amount in Et as Et'. split; [|done]. symmetry. by eapply Hv.
Qed.

Abbreviation ok := (collecting_ok tier_of h g).

Lemma exists_snoc {A} (l : list A) (x : A) (P : A -> Prop) : (exists y, y ∈ l ++ [x] /\ P y) <-> (exists y, y ∈ l /\ P y) \/ P x.
Proof. setoid_rewrite elem_of_app. setoid_rewrite list_elem_of_singleton. naive_solver. Qed.

Lemma is_Some_insert {V} (m : gmap COutPoint V) k v o : is_Some (<[k := v]> m !! o) <-> is_Some (m !! o) \/ k = o.
Proof. rewrite lookup_insert_is_Some. destruct (decide (k = o)); naive_solver. Qed.

Lemma collect_start paid txs tx t v s :
  ok paid txs s -> tx_ok g tx -> starts tx -> t = tier_of (collateralIn tx) -> t ∈ tiers -> i8 t = t ->
  ok paid (txs ++ [tx]) (mkCollecting (AddNewStart tx h t v (cl_local s)) (cl_undo s) (setSpentOutPoints s)).
Proof.
  intros [Hs Hc Hu Hst Hct Hr Hn Hun Hl Hi] Hk Htx -> Hin Hi8. split; cbn [cl_local cl_undo]; try done.
  - intros o d. cbn. rewrite lookup_insert. case_decide as E; [|apply Hs]. intros [= <-]. subst o.
    pose proof (tk_start _ _ Hk Htx) as Htr. pose proof (tk_wire _ _ Hk Htx) as Hw.
    destruct (nVersion tx =? FLUXNODE_TX_UPGRADEABLE_VERSION); (split; [|split; [|split; [done|done]]]); unfold keyed, unconfirmed; cbn; rewrite ?Hi8; done.
  - intros o. rewrite exists_snoc, <- Hst. cbn. rewrite is_Some_insert. naive_solver.
  - intros o. rewrite exists_snoc, <- Hct. cbn. split; [by left|]. intros [?|[[_ [E _]] _]]; [done|]. destruct Htx as [_ E']. rewrite E in E'. done.
Qed.

Lemma collect_confirm paid txs tx s :
  ok paid txs s -> tx_ok g tx -> confirms tx ->
  ok paid (txs ++ [tx]) (mkCollecting (AddNewConfirm tx h (cl_local s)) (cl_undo s) (setSpentOutPoints s)).
Proof.
  intros [Hs Hc Hu Hst Hct Hr Hn Hun Hl Hi] Hk Htx. split; cbn [cl_local cl_undo]; try done.
  - intros o addr. cbn. rewrite lookup_insert. case_decide as E; [intros _; subst o; split; [by apply (tk_confirm _ _ Hk)|done]|].
    intros Ha. by apply Hc in Ha as [? _].
  - intros o. rewrite exists_snoc, <- Hst. cbn. split; [by left|]. intros [?|[[_ E] _]]; [done|]. destruct Htx as (_ & E' & _). rewrite E in E'. done.
  - intros o. rewrite exists_snoc, <- Hct. cbn. rewrite is_Some_insert. naive_solver.
Qed.

Lemma collect_update paid txs tx s :
  ok paid txs s -> tx_ok g tx -> csnode_ok tier_of (h - 1) g ->
  IsFluxnodeTx tx = true -> nType tx = FLUXNODE_CONFIRM_TX_TYPE -> nUpdateType tx = UPDATE_CONFIRM ->
  let d := (GetFluxnodeData (collateralIn tx) g).2 in
  ok paid (txs ++ [tx]) (mkCollecting (AddUpdateConfirm tx h (cl_local s))
    ((cl_undo s) <| mapUpdateLastConfirmHeight ::= <[collateralIn tx := fn_nLastConfirmedBlockHeight d]> |>
                 <| mapLastIpAddress ::= <[collateralIn tx := fn_ip d]> |>) (setSpentOutPoints s)).
Proof.
  intros [Hs Hc Hu Hst Hct Hr Hn Hun Hl Hi] Hk Hok Hf Ht Hup. destruct (tk_update _ _ Hk Hf Ht Hup) as [d Hd].
  assert (Hg : (GetFluxnodeData (collateralIn tx) g).2 = d).
  { pose proof (csnode_ok_trk _ _ _ (collateralIn tx) Hok) as Htr. unfold trk, GetFluxnodeData in *. rewrite Hd in *. by inversion Htr. }
  cbv zeta. rewrite Hg. split; cbn [cl_local cl_undo]; try done.
  - intros o addr. cbn. rewrite lookup_insert. case_decide as E; [intros _; subst o; split; [by exists d|done]|].
    intros Ha. by apply Hu in Ha as [? _].
  - intros o. rewrite exists_snoc, <- Hst. cbn. split; [by left|]. intros [?|[[_ E] _]]; [done|]. by rewrite E in Ht.
  - intros o. rewrite exists_snoc, <- Hct. cbn. split; [by left|]. intros [?|[(_ & _ & E) _]]; [done|]. by rewrite E in Hup.
  - intros o. cbn. rewrite !lookup_insert. case_decide as E; [subst o; cbn; by rewrite Hd|apply Hl].
  - intros o. cbn. rewrite !lookup_insert. case_decide as E; [subst o; cbn; by rewrite Hd|apply Hi].
Qed.

Lemma collect_other paid txs tx s spent :
  ok paid txs s -> (starts tx -> False) -> (confirms tx -> False) -> ok paid (txs ++ [tx]) (mkCollecting (cl_local s) (cl_undo s) spent).
Proof.
  intros [Hs Hc Hu Hst Hct Hr Hn Hun Hl Hi] H1 H2. split; cbn [cl_local cl_undo]; try done.
  - intros o. rewrite exists_snoc, <- Hst. naive_solver.
  - intros o. rewrite exists_snoc, <- Hct. naive_solver.
Qed.

Lemma collect_tx_ok paid txs view tx s s' :
  csnode_ok tier_of (h - 1) g -> ok paid txs s -> tx_ok g tx -> tiers_of_view view ->
  collect_tx params p2shKeys h view g tx s = (Accept, s') -> ok paid (txs ++ [tx]) s'.
Proof.
  intros Hok Hs Hk Hv E. unfold collect_tx in E. destruct (IsCoinBase tx) eqn:Ecb.
  { injection E as <-. destruct s. apply (collect_other _ _ _ _ _ Hs).
    - intros [Hf _]. by rewrite (tk_coinbase _ _ Hk Hf) in Ecb.
    - intros [Hf _]. by rewrite (tk_coinbase _ _ Hk Hf) in Ecb. }
  destruct (IsFluxnodeTx tx) eqn:Ef; cbn [negb] in E.
  2:{ injection E as <-. apply (collect_other _ _ _ _ _ Hs); intros [? _]; congruence. }
  destruct (CheckFluxnodeTxInput _ _ _ _ _) as [|[t v]] eqn:Ei; [done|]. destruct (check_input _ _ _ _ Hv Ei) as (Ht & Hin & Hi8).
  destruct (Z.eqb_spec (nType tx) FLUXNODE_START_TX_TYPE) as [Es|Es].
  { destruct (negb _); [done|]. injection E as <-. by apply collect_start. }
  destruct (Z.eqb_spec (nType tx) FLUXNODE_CONFIRM_TX_TYPE) as [Ec|Ec].
  - destruct (Z.eqb_spec (nUpdateType tx) INITIAL_CONFIRM) as [Eu|Eu]; [injection E as <-; by apply collect_confirm|].
    destruct (Z.eqb_spec (nUpdateType tx) UPDATE_CONFIRM) as [Eu'|Eu'].
    + cbv zeta in E. destruct (fn_IsNull _); [done|]. injection E as <-. by apply collect_update.
    + injection E as <-. destruct s. apply (collect_other _ _ _ _ _ Hs); [by intros [_ ?]|by intros (_ & _ & ?)].
  - injection E as <-. destruct s. apply (collect_other _ _ _ _ _ Hs); [by intros [_ ?]|by intros (_ & ? & _)].
Qed.

Lemma collect_txs_ok paid views vtx i txs s s' :
  csnode_ok tier_of (h - 1) g -> ok paid txs s -> Forall (tx_ok g) vtx -> (forall i, tiers_of_view (views i)) ->
  collect_txs params p2shKeys h views i g vtx s = (Accept, s') -> ok paid (txs ++ vtx) s'.
Proof.
  intros Hok Hs Hk Hv E. revert i txs s Hs E. induction Hk as [|tx vtx Hk Hks IH]; intros i txs s Hs E; cbn in E.
  - injection E as <-. by rewrite app_nil_r.
  - destruct (collect_tx _ _ _ _ _ tx s) as [v s1] eqn:E1. destruct v; [|done].
    change (tx :: vtx) with ([tx] ++ vtx). rewrite app_assoc. eapply IH; [|done]. by eapply collect_tx_ok.
Qed.

End loop.
