(* ===== verification/CsnodeAccept.v ===== *)
(** Accepted csnode blocks: what [ConnectBlock] has collected when it accepts,
    the undo data it records, and that [ConnectTip] can always flush it. *)

From stdpp Require Import gmap sorting strings list.
From Stdlib Require Import ZArith Lia.
From S2P Require Import Prelude Params Uint256 Transaction Platform Csnode CsnodeBlock.
From S2P Require Import CsnodeQueue CsnodeFlush CsnodeConnect CsnodeCollect.

(** * The end of the block *)

(** A loop over a map, observed at one key. *)
Lemma observe_items {S T V} (look : S -> T) (f : S -> COutPoint * V -> S) (upd : V -> T -> T) (m : gmap COutPoint V) o s :
  (forall s k v, look (f s (k, v)) = if decide (k = o) then upd v (look s) else look s) ->
  look (foldl f s (out_items m)) = match m !! o with Some v => upd v (look s) | None => look s end.
Proof.
  intros Hf. transitivity (foldl (fun t kv => upd kv.2 t) (look s) (base.filter (fun kv => kv.1 = o) (out_items m))).
  - apply (foldl_ind (fun pre s' => look s' = foldl (fun t kv => upd kv.2 t) (look s) (base.filter (fun kv => kv.1 = o) pre))); [done|].
    intros pre [k v] post s1 _ E. rewrite Hf, E, filter_app, foldl_app, filter_cons, filter_nil. cbn [fst]. by case_decide.
  - rewrite filter_out_items. by destruct (m !! o).
Qed.

Lemma expired_start_lookup h g local o :
  mapStartTxDOSTracker (CheckForExpiredStartTx h g local) !! o =
  match mapStartTxTracker g !! o with
  | Some d => if (fn_nAddedBlockHeight d =? h - FLUXNODE_START_TX_EXPIRATION_HEIGHT) && negb (has o (mapAddToConfirm local))
              then Some (d <| fn_nStatus := FLUXNODE_TX_DOS_PROTECTION |>) else mapStartTxDOSTracker local !! o
  | None => mapStartTxDOSTracker local !! o
  end.
Proof.
  assert (Hg := observe_items (fun c => (mapAddToConfirm c, mapStartTxDOSTracker c !! o))
    (fun c '(out, d) => if (fn_nAddedBlockHeight d =? h - FLUXNODE_START_TX_EXPIRATION_HEIGHT) && negb (has out (mapAddToConfirm c))
       then c <| mapStartTxDOSTracker ::= <[out := d <| fn_nStatus := FLUXNODE_TX_DOS_PROTECTION |>]> |> else c)
    (fun d t => if (fn_nAddedBlockHeight d =? h - FLUXNODE_START_TX_EXPIRATION_HEIGHT) && negb (has o t.1)
       then (t.1, Some (d <| fn_nStatus := FLUXNODE_TX_DOS_PROTECTION |>)) else t) (mapStartTxTracker g) o local).
  cbv beta in Hg. apply (f_equal snd) in Hg.
  - cbn [snd] in Hg. unfold CheckForExpiredStartTx. rewrite Hg. destruct (mapStartTxTracker g !! o) as [d|]; [|done]. cbn [fst].
    by destruct (_ && _).
  - intros c k d. destruct (decide (k = o)) as [->|Hne].
    + cbn [fst]. destruct (_ && _); [|done]. cbn. by rewrite lookup_insert_eq.
    + destruct (_ && _); [|done]. cbn. by rewrite lookup_insert_ne.
Qed.

Lemma expired_start_other h g local :
  CheckForExpiredStartTx h g local = local <| mapStartTxDOSTracker := mapStartTxDOSTracker (CheckForExpiredStartTx h g local) |>.
Proof.
  unfold CheckForExpiredStartTx. apply (foldl_inv (fun c => c = local <| mapStartTxDOSTracker := mapStartTxDOSTracker c |>)); [by destruct local|].
  intros c [k d] _ Hc. destruct (_ && _); [|done]. rewrite Hc. done.
Qed.

(** What the undo data of a block at [h] tells of the cache it was connected to. *)
Record undo_ok (tier_of : COutPoint -> Z) (h : Z) (g local : FluxnodeCache) (u : CFluxnodeTxBlockUndo) : Prop := {
  un_dos : forall d, d ∈ vecExpiredDosData u <-> mapStartTxDOSTracker g !! fn_collateralIn d = Some d /\
    fn_nAddedBlockHeight d = h - FLUXNODE_DOS_REMOVE_AMOUNT;
  un_removed : forall o, o ∈ all_outs (mapDosExpiredToRemove local) <-> exists d, d ∈ vecExpiredDosData u /\ fn_collateralIn d = o;
  un_conf : forall d, d ∈ vecExpiredConfirmedData u -> mapConfirmedFluxnodeData g !! fn_collateralIn d = Some d;
  un_expired : forall o, o ∈ setExpireConfirmOutPoints local <-> exists d, d ∈ vecExpiredConfirmedData u /\ fn_collateralIn d = o;
  un_last : forall o, mapUpdateLastConfirmHeight u !! o =
    (addr ← mapAddToUpdateConfirm local !! o; fn_nLastConfirmedBlockHeight <$> mapConfirmedFluxnodeData g !! o);
  un_ip : forall o, mapLastIpAddress u !! o =
    (addr ← mapAddToUpdateConfirm local !! o; fn_ip <$> mapConfirmedFluxnodeData g !! o);
  un_paid : forall o, mapLastPaidHeights u !! o =
    (_ ← paid_at tier_of local o; fn_nLastPaidHeight <$> mapConfirmedFluxnodeData g !! o);
}.

Section ending.
Context (tier_of : COutPoint -> Z) (params : Params) (h : Z) (g : FluxnodeCache).
Hypothesis (Hok : csnode_ok tier_of (h - 1) g).


Lemma paid_undo_lookup local u o :
  (forall t hp out, mapPaidNodes local !! t = Some (hp, out) -> tier_of out = t) -> mapLastPaidHeights u = ∅ ->
  mapLastPaidHeights (GetUndoDataForPaidFluxnodes local g u) !! o =
  (_ ← paid_at tier_of local o; fn_nLastPaidHeight <$> mapConfirmedFluxnodeData g !! o).
Proof.
  intros Ht Hu. unfold GetUndoDataForPaidFluxnodes.
  assert (Hin : forall t hp out, (t, (hp, out)) ∈ int_items (mapPaidNodes local) -> tier_of out = t).
  { intros t hp out Hin. apply elem_of_int_items in Hin. eauto. }
  assert (Hpaid : is_Some (paid_at tier_of local o) <-> o ∈ map (fun kv => kv.2.2) (int_items (mapPaidNodes local))).
  { unfold paid_at. rewrite list_elem_of_fmap. split.
    - destruct (mapPaidNodes local !! tier_of o) as [[hp out]|] eqn:E; [|by intros []]. case_decide; [|by intros []]. intros _. subst out.
      exists (tier_of o, (hp, o)). split; [done|]. by apply elem_of_int_items.
    - intros ([t [hp out]] & -> & Hi). cbn. rewrite (Hin _ _ _ Hi). apply elem_of_int_items in Hi. rewrite Hi. by rewrite decide_True. }
  transitivity (if decide (o ∈ map (fun kv => kv.2.2) (int_items (mapPaidNodes local))) then fn_nLastPaidHeight <$> mapConfirmedFluxnodeData g !! o else None).
  2:{ destruct (paid_at tier_of local o); cbn; [rewrite decide_True; [done|apply Hpaid; eauto]|].
      rewrite decide_False; [done|]. intros Hi%Hpaid. by apply is_Some_None in Hi. }
  clear Hpaid Hin. pose (Inv := fun (pre : list (Z * (Z * COutPoint))) u' => mapLastPaidHeights u' !! o =
    if decide (o ∈ map (fun kv => kv.2.2) pre) then fn_nLastPaidHeight <$> mapConfirmedFluxnodeData g !! o else None).
  apply (foldl_ind Inv); unfold Inv.
  - by rewrite Hu.
  - intros pre [t [hp out]] post u' _ E. rewrite map_app. destruct (decide (out = o)) as [->|Hne].
    + rewrite decide_True by (apply elem_of_app; right; left). destruct (mapConfirmedFluxnodeData g !! o) as [d|]; cbn.
      * by rewrite lookup_insert_eq.
      * rewrite E. by case_decide.
    + transitivity (mapLastPaidHeights u' !! o).
      * destruct (mapConfirmedFluxnodeData g !! out); [|done]. cbn. by rewrite lookup_insert_ne.
      * rewrite E. apply decide_ext. rewrite elem_of_app. cbn. rewrite list_elem_of_singleton. naive_solver.
Qed.

Lemma paid_undo_other local u :
  GetUndoDataForPaidFluxnodes local g u = u <| mapLastPaidHeights := mapLastPaidHeights (GetUndoDataForPaidFluxnodes local g u) |>.
Proof.
  unfold GetUndoDataForPaidFluxnodes. apply (foldl_inv (fun u' => u' = u <| mapLastPaidHeights := mapLastPaidHeights u' |>)); [by destruct u|].
  intros u' [t [hp out]] _ E. destruct (_ !! out); [|done]. rewrite E. done.
Qed.

Lemma expired_dos_elem u d :
  vecExpiredDosData u = [] ->
  d ∈ vecExpiredDosData (GetUndoDataForExpiredFluxnodeDosScores h g u) <->
  mapStartTxDOSTracker g !! fn_collateralIn d = Some d /\ fn_nAddedBlockHeight d = h - FLUXNODE_DOS_REMOVE_AMOUNT.
Proof.
  intros E. unfold GetUndoDataForExpiredFluxnodeDosScores. cbn. rewrite E. cbn [app]. rewrite list_elem_of_filter, list_elem_of_fmap.
  split; [intros [Hh ([o d'] & -> & Hin)]|intros [Hd Hh]; split; [done|]].
  - apply elem_of_out_items in Hin. cbn in *. by destruct (ok_dos _ _ _ Hok o d' Hin) as [(-> & _) _].
  - exists (fn_collateralIn d, d). split; [done|]. by apply elem_of_out_items.
Qed.

Lemma expired_conf_elem spent u d :
  vecExpiredConfirmedData u = [] ->
  d ∈ vecExpiredConfirmedData (GetUndoDataForExpiredConfirmFluxnodes params h spent g u) -> mapConfirmedFluxnodeData g !! fn_collateralIn d = Some d.
Proof.
  intros E. unfold GetUndoDataForExpiredConfirmFluxnodes. cbn. rewrite E. cbn [app].
  assert (Hk : forall o d, mapConfirmedFluxnodeData g !! o = Some d -> fn_collateralIn d = o)
    by (intros o d' Hd; by destruct (ok_conf _ _ _ Hok o d' Hd) as [(? & _) _]).
  intros [Hin|Hin]%elem_of_app.
  - apply list_elem_of_fmap in Hin as ([o d'] & -> & [_ Hin]%list_elem_of_filter). apply elem_of_out_items in Hin. cbn. by rewrite (Hk _ _ Hin).
  - apply list_elem_of_omap in Hin as (o & _ & Hd). by rewrite (Hk _ _ Hd).
Qed.

Lemma all_outs_singleton k (x : gset COutPoint) o : o ∈ all_outs {[k := x]} <-> o ∈ x.
Proof.
  unfold all_outs, int_items. rewrite map_to_list_singleton. cbn. by rewrite app_nil_r, elem_of_out_elements.
Qed.

(** The local cache and the undo data at the end, field by field. *)
Lemma collect_end_fields s local u :
  collect_end params h g s = (local, u) ->
  let u1 := GetUndoDataForExpiredFluxnodeDosScores h g (cl_undo s) in
  let u2 := GetUndoDataForExpiredConfirmFluxnodes params h (setSpentOutPoints s) g u1 in
  let l2 := AddExpiredConfirmTx u2 (AddExpiredDosTx u1 h (cl_local s)) in
  exists dos paid, local = l2 <| mapStartTxDOSTracker := dos |> /\ u = u2 <| mapLastPaidHeights := paid |> /\
    dos = mapStartTxDOSTracker (CheckForExpiredStartTx h g l2) /\ paid = mapLastPaidHeights (GetUndoDataForPaidFluxnodes l2 g u2).
Proof.
  unfold collect_end. cbv zeta. intros [= <- <-]. do 2 eexists. split; [apply expired_start_other|]. split; [apply paid_undo_other|done].
Qed.

Lemma collect_end_ok paid txs s local u :
  collecting_ok tier_of h g paid txs s -> paid_front tier_of (cl_local s) g ->
  (forall t hp out, paid !! t = Some (hp, out) -> hp = h /\ is_Some (mapConfirmedFluxnodeData g !! out)) ->
  collect_end params h g s = (local, u) ->
  connect_local tier_of h g local /\ undo_ok tier_of h g local u /\
  mapStartTxTracker local = mapStartTxTracker (cl_local s) /\ mapAddToConfirm local = mapAddToConfirm (cl_local s) /\ mapPaidNodes local = paid.
Proof.
  intros [Hs Hc Hu Hst Hct Hr Hn Hun Hl Hi] Hfront Hpaid E. apply collect_end_fields in E as (dos & lp & -> & -> & Edos & Elp).
  injection Hr as R1 R2 R3 R4 R5. injection Hun as U1 U2 U3. injection Hn as N1 N2 N3 N4 N5.
  set (u1 := GetUndoDataForExpiredFluxnodeDosScores h g (cl_undo s)) in *.
  set (u2 := GetUndoDataForExpiredConfirmFluxnodes params h (setSpentOutPoints s) g u1) in *.
  pose proof (fun d => expired_dos_elem (cl_undo s) d U1) as Hdos. fold u1 in Hdos.
  pose proof (fun d => expired_conf_elem (setSpentOutPoints s) u1 d U2) as Hconf. fold u2 in Hconf.
  assert (Hrem : forall o, o ∈ all_outs (<[h := list_to_set (map fn_collateralIn (vecExpiredDosData u1))]> (mapDosExpiredToRemove (cl_local s))) <->
    exists d, d ∈ vecExpiredDosData u1 /\ fn_collateralIn d = o).
  { intros o. rewrite R3. rewrite insert_empty, all_outs_singleton, elem_of_list_to_set, list_elem_of_fmap. naive_solver. }
  assert (Hexp : forall o, o ∈ list_to_set (map fn_collateralIn (vecExpiredConfirmedData u2)) ∪ setExpireConfirmOutPoints (cl_local s) <->
    exists d, d ∈ vecExpiredConfirmedData u2 /\ fn_collateralIn d = o).
  { intros o. rewrite R4, elem_of_union, elem_of_list_to_set, list_elem_of_fmap. set_solver. }
  assert (Hlp : forall o, lp !! o = (_ ← paid_at tier_of (cl_local s) o; fn_nLastPaidHeight <$> mapConfirmedFluxnodeData g !! o)).
  { intros o. rewrite Elp, paid_undo_lookup; [|intros t hp out Hp; by destruct (Hfront t hp out Hp) as [? _]|exact U3]. unfold paid_at. done. }
  assert (Hd : forall o, dos !! o = match mapStartTxTracker g !! o with
    | Some d => if (fn_nAddedBlockHeight d =? h - FLUXNODE_START_TX_EXPIRATION_HEIGHT) && negb (has o (mapAddToConfirm (cl_local s)))
                then Some (d <| fn_nStatus := FLUXNODE_TX_DOS_PROTECTION |>) else None
    | None => None end).
  { intros o. rewrite Edos, expired_start_lookup. cbn [mapStartTxDOSTracker mapAddToConfirm]. 
    change (mapStartTxDOSTracker (AddExpiredConfirmTx _ _)) with (mapStartTxDOSTracker (cl_local s)). by rewrite R1, lookup_empty. }
  split; [split|split; [split|]]; try done.
  - intros o (d & [Hd' _]%Hdos & <-)%Hrem. eauto.
  - intros o (d & Hd'%Hconf & <-)%Hexp. eauto.
  - intros t hp out. cbn. rewrite R5. apply Hpaid.
Qed.
End ending.

(** * Accepted blocks *)

Section block.
Context `{Crypto} (tier_of : COutPoint -> Z) (params : Params) (p2shKeys benchmarkKeys : list (string * Z)) (script_hash : bytes -> bytes)
  (ListPubKeysFromMultiSigScript : bytes -> option (list bytes)) (IsMultiSigRedeemScript : bytes -> bool)
  (ExtractDestination : bytes -> option CTxDestination) (EncodeDestination : CTxDestination -> string)
  (fIsVerifying : bool) (tipCoins : COutPoint -> option (option CTxOut)) (startPayments tip : Z)
  (p2shDestination : COutPoint -> option CTxDestination).

Abbreviation ConnectBlock := (ConnectBlockFluxnode params p2shKeys benchmarkKeys script_hash ListPubKeysFromMultiSigScript IsMultiSigRedeemScript
  ExtractDestination EncodeDestination fIsVerifying tipCoins startPayments tip p2shDestination).
Abbreviation ConnectTip := (ConnectTipFluxnode params p2shKeys benchmarkKeys script_hash ListPubKeysFromMultiSigScript IsMultiSigRedeemScript
  ExtractDestination EncodeDestination fIsVerifying tipCoins startPayments tip p2shDestination).

Context (h : Z) (views : nat -> COutPoint -> option (CTxOut * Z)) (vtx : list CTransaction).
Hypothesis (Hviews : forall i, tiers_of_view tier_of (views i)) (Hwire : Forall (fun tx => starts tx -> ip tx = "") vtx).

(** What connecting an accepted block collects. *)
Record block_collected (g g1 local : FluxnodeCache) (u : CFluxnodeTxBlockUndo) (infos : list FluxnodePayoutInfo) : Prop := {
  bc_gathered : gathered tier_of p2shKeys script_hash p2shDestination (GetBlockSubsidy h params) (h - 1) g
    (if startPayments <=? h then tiers else []) (infos, g1);
  bc_local : connect_local tier_of h g1 local;
  bc_undo : undo_ok tier_of h g1 local u;
  bc_starts : forall o, is_Some (mapStartTxTracker local !! o) <-> exists tx, tx ∈ vtx /\ starts tx /\ collateralIn tx = o;
  bc_confirms : forall o, is_Some (mapAddToConfirm local !! o) <-> exists tx, tx ∈ vtx /\ confirms tx /\ collateralIn tx = o;
  bc_paid : mapPaidNodes local = mapPaidNodes (note_paid h infos emptyFluxnodeCache);
}.

Lemma same_trackers_trk g g1 o : same_trackers g g1 -> trk o g1 = trk o g.
Proof. intros (E1 & E2 & E3). unfold trk. by rewrite E1, E2, E3. Qed.

Lemma find_accept {A} (f : A -> Verdict) (l : list A) :
  List.find (fun v => negb (bool_decide (v = Accept))) (map f l) = None -> forall x, x ∈ l -> f x = Accept.
Proof.
  intros E x Hx. assert (Hin : In (f x) (map f l)) by (apply in_map; by apply list_elem_of_In).
  pose proof (List.find_none _ _ E _ Hin) as Ef. cbn in Ef. by apply negb_false_iff, bool_decide_eq_true in Ef.
Qed.

Lemma admissible_tx_ok g g1 tx :
  admissible h g params p2shKeys benchmarkKeys script_hash ListPubKeysFromMultiSigScript IsMultiSigRedeemScript ExtractDestination EncodeDestination
    fIsVerifying tipCoins tip tx ->
  same_trackers g g1 -> (starts tx -> ip tx = "") -> tx_ok g1 tx.
Proof.
  intros Ha Hst Hw. pose proof (same_trackers_trk _ _ (collateralIn tx) Hst) as Et. destruct Hst as (E1 & E2 & E3). split; [..|done].
  - by eapply admissible_no_vin.
  - intros Hs. rewrite Et. by eapply admissible_start.
  - intros (Hf & Ht & Hu). rewrite E1. by eapply admissible_confirm.
  - intros Hf Ht Hu. rewrite E3. by eapply admissible_confirm.
Qed.

Lemma find_app_none {A} (f : A -> bool) (l l' : list A) : List.find f (l ++ l') = None -> List.find f l = None /\ List.find f l' = None.
Proof. induction l as [|x l IH]; [done|]. cbn. by destruct (f x). Qed.

(** Nothing is gathered before the payments start. *)
Lemma gathered_nothing g : csnode_ok tier_of (h - 1) g ->
  gathered tier_of p2shKeys script_hash p2shDestination (GetBlockSubsidy h params) (h - 1) g [] ([], g).
Proof.
  intros Hok. split; cbn; [done|done|..].
  - intros info Hi. by apply not_elem_of_nil in Hi.
  - constructor.
  - intros t o d Hi. by apply not_elem_of_nil in Hi.
Qed.

Lemma gathered_paid pre g g1 infos :
  csnode_ok tier_of (h - 1) g -> gathered tier_of p2shKeys script_hash p2shDestination (GetBlockSubsidy h params) (h - 1) g pre (infos, g1) ->
  let local := note_paid h infos emptyFluxnodeCache in
  (forall t hp out, mapPaidNodes local !! t = Some (hp, out) -> hp = h /\ is_Some (mapConfirmedFluxnodeData g1 !! out)) /\ paid_front tier_of local g1.
Proof.
  intros Hok [Htr Hok1 Hin Hnd _]. cbn [fst snd] in *. cbv zeta. split.
  - intros t hp out Hp. apply (note_paid_lookup h infos t Hnd) in Hp as (-> & info & Hi & <- & <-). split; [done|].
    destruct (Hin info Hi) as (_ & _ & (l & d & rest & _ & Hd & _)). eauto.
  - intros t hp out Hp. apply (note_paid_lookup h infos t Hnd) in Hp as (-> & info & Hi & <- & <-).
    destruct (Hin info Hi) as (Ht & (d' & (Hd' & Hdt & _) & _) & (l & d & rest & Hl & Hd & Hle)).
    destruct (ok_conf _ _ _ Hok _ _ Hd') as [(Hk & Hkt & Hv) _]. split; [congruence|]. exists l, (list_data d), rest. split; [done|].
    assert (Hld : ld_out (list_data d) = pi_outpoint info) by (cbn; by destruct (ok_conf _ _ _ Hok1 _ _ Hd) as [(-> & _) _]).
    split; [|done]. assert (Hpt : pi_tier info ∈ tiers) by congruence. destruct (ok_lists _ _ _ Hok1 _ Hpt) as (l' & Hl' & Hlok).
    assert (l' = l) as -> by congruence. rewrite (lo_set _ _ _ _ Hlok), elem_of_list_to_set, Hle. cbn [map]. rewrite Hld. left.
Qed.

Lemma collecting_start g c :
  c = emptyFluxnodeCache <| mapPaidNodes := mapPaidNodes c |> ->
  collecting_ok tier_of h g (mapPaidNodes c) [] (mkCollecting c emptyFluxnodeUndo ∅).
Proof.
  intros E. destruct c as [c1 c2 c3 c4 c5 c6 c7 c8 c9 c10 c11 paid c12 c13 c14 c15 c16]. cbn in E. injection E. intros. subst. clear E.
  split; cbn; try done.
  - intros o. rewrite lookup_empty. split; [by intros []|]. intros (tx & Hi & _). by apply not_elem_of_nil in Hi.
  - intros o. rewrite lookup_empty. split; [by intros []|]. intros (tx & Hi & _). by apply not_elem_of_nil in Hi.
Qed.

Lemma connect_block_spec g g1 local u :
  csnode_ok tier_of (h - 1) g -> ConnectBlock h views vtx g = (Accept, ((local, u), g1)) -> exists infos, block_collected g g1 local u infos.
Proof.
  intros Hok E. unfold ConnectBlockFluxnode in E. destruct vtx as [|coinbase rest] eqn:Ev; [done|]. rewrite <- Ev in *.
  destruct (List.find _ _) as [v|] eqn:Ef.
  { apply List.find_some in Ef as [_ Hv]. injection E as -> _. by rewrite bool_decide_eq_true_2 in Hv. }
  cbn [List.find] in Ef. destruct (negb (bool_decide (CheckBlockFluxnode vtx = Accept))); [done|].
  apply find_app_none in Ef as [Ef1 Ef2]. pose proof (find_accept _ _ Ef1) as Ha1. pose proof (find_accept _ _ Ef2) as Ha2. clear Ef1 Ef2.
  destruct (if startPayments <=? h then _ else _) as [[paid local0] g0] eqn:Ep. destruct paid; [|done]. cbn [negb] in E.
  assert (Hp : exists infos, gathered tier_of p2shKeys script_hash p2shDestination (GetBlockSubsidy h params) (h - 1) g
      (if startPayments <=? h then tiers else []) (infos, g0) /\ local0 = note_paid h infos emptyFluxnodeCache).
  { destruct (startPayments <=? h); [by eapply check_payout_spec|]. injection Ep as <- <-. exists []. split; [by apply gathered_nothing|done]. }
  destruct Hp as (infos & Hg & ->). clear Ep. destruct (collect_txs _ _ _ _ _ _ _ _) as [v s] eqn:Ec. destruct v; [|done].
  pose proof (f_equal (fun x => x.2.1) E) as Ee. pose proof (f_equal (fun x => x.2.2) E) as Eg. cbn [fst snd] in Ee, Eg. subst g1. exists infos. pose proof (ga_ok _ _ _ _ _ _ _ _ _ Hg) as Hok0. pose proof (ga_trackers _ _ _ _ _ _ _ _ _ Hg) as Htr. cbn [snd] in Hok0, Htr.
  destruct (gathered_paid _ _ _ _ Hok Hg) as [Hpaid Hfront].
  pose proof (note_paid_other h infos emptyFluxnodeCache) as Eo.
  assert (Hs : collecting_ok tier_of h g0 (mapPaidNodes (note_paid h infos emptyFluxnodeCache)) ([] ++ vtx) s).
  { eapply collect_txs_ok; [done| | |done|exact Ec].
    - by apply collecting_start.
    - apply Forall_forall. intros tx Hi. eapply (admissible_tx_ok g g0); [split; [by apply Ha1|by apply Ha2]|done|].
      rewrite Forall_forall in Hwire. by apply Hwire. }
  pose proof (co_rest _ _ _ _ _ _ Hs) as Hr. injection Hr as _ _ _ _ R5.
  assert (Hfront' : paid_front tier_of (cl_local s) g0) by (intros t hp out; rewrite R5; apply Hfront).
  destruct (collect_end_ok tier_of params h g0 Hok0 _ _ _ _ _ Hs Hfront' Hpaid Ee) as (H1 & H2 & H3 & H4 & H5).
  split; [done|done|done| | |done].
  - intros o. rewrite H3. apply (co_starts _ _ _ _ _ _ Hs).
  - intros o. rewrite H4. apply (co_confirms _ _ _ _ _ _ Hs).
Qed.

(** An accepted block is flushed without a throw, and the invariant holds at its
    height. *)
Lemma connect_tip_ok g g1 local u :
  0 < h -> csnode_ok tier_of (h - 1) g -> ConnectBlock h views vtx g = (Accept, ((local, u), g1)) ->
  exists g' infos, ConnectTip h views vtx g = Some (g', u) /\ csnode_ok tier_of h g' /\ block_collected g g1 local u infos /\
    forall o, transition tier_of h local o (trk o g) (trk o g').
Proof.
  intros Hh Hok E. destruct (connect_block_spec _ _ _ _ Hok E) as [infos Hb]. pose proof (bc_gathered _ _ _ _ _ Hb) as Hg.
  pose proof (ga_ok _ _ _ _ _ _ _ _ _ Hg) as Hok1. pose proof (ga_trackers _ _ _ _ _ _ _ _ _ Hg) as Htr. cbn [snd] in Hok1, Htr.
  destruct (flush_connect tier_of h g1 local Hok1 (bc_local _ _ _ _ _ Hb) Hh) as (g' & Ef & Hok' & Ht).
  exists g', infos. unfold ConnectTipFluxnode. rewrite E, Ef. split; [done|]. split; [done|]. split; [done|].
  intros o. rewrite <- (same_trackers_trk _ _ o Htr). apply Ht.
Qed.

End block.
