(* ===== verification/CsnodeRank.v ===== *)
(** The payment queue over blocks: the nodes ahead of a waiting node get fewer with
    every block. *)

From stdpp Require Import gmap sorting strings list.
From Stdlib Require Import ZArith Lia.
From S2P Require Import Prelude Params Uint256 Transaction Platform Csnode CsnodeBlock.
From S2P Require Import CsnodeQueue CsnodeFlush CsnodeConnect CsnodeCollect CsnodeAccept.

(** * The queue moves *)

(** The confirmed nodes of its tier that are paid before [o] can be. *)
Definition ahead (g : FluxnodeCache) (o : COutPoint) (d : FluxnodeCacheData) : gset COutPoint :=
  dom (base.filter (fun kv => kv.1 <> o /\ fn_nTier kv.2 = fn_nTier d /\ ld_lt (list_data d) (list_data kv.2) = false) (mapConfirmedFluxnodeData g)).

Lemma elem_of_ahead g o d o' :
  o' ∈ ahead g o d <-> o' <> o /\ exists d', mapConfirmedFluxnodeData g !! o' = Some d' /\ fn_nTier d' = fn_nTier d /\ ld_le (list_data d') (list_data d).
Proof.
  unfold ahead. rewrite elem_of_dom. unfold is_Some. setoid_rewrite map_lookup_filter_Some. cbn. naive_solver.
Qed.

Definition waited_since (d : FluxnodeCacheData) : Z := queue_height (fn_nLastPaidHeight d) (fn_nConfirmedBlockHeight d).

Lemma ld_le_heights d d' : ld_le (list_data d) (list_data d') -> waited_since d <= waited_since d'.
Proof.
  unfold ld_le. rewrite ld_lt_key. unfold ld_key, waited_since. cbn [memcmp_lt list_data ld_nLastPaidHeight ld_nConfirmedBlockHeight].
  destruct (Z.eqb_spec (queue_height (fn_nLastPaidHeight d') (fn_nConfirmedBlockHeight d')) (queue_height (fn_nLastPaidHeight d) (fn_nConfirmedBlockHeight d)));
    [lia|]. intros ?%Z.ltb_ge. lia.
Qed.

Section rank.
Context (tier_of : COutPoint -> Z) (h : Z) (g g' local : FluxnodeCache).
Hypothesis (Hh : 0 < h) (Hok : csnode_ok tier_of (h - 1) g) (Hlocal : connect_local tier_of h g local)
  (Htr : forall o, transition tier_of h local o (trk o g) (trk o g')).

Lemma conf_after o d' :
  mapConfirmedFluxnodeData g' !! o = Some d' ->
  (exists d, mapConfirmedFluxnodeData g !! o = Some d /\ d' = refresh tier_of local o d)
  \/ (fn_nConfirmedBlockHeight d' = h /\ fn_nLastPaidHeight d' = 0).
Proof.
  intros Hd. specialize (Htr o). unfold trk in Htr. rewrite Hd in Htr. inversion Htr; subst; [by right|left; eauto].
Qed.

Lemma refresh_list_data o d : paid_at tier_of local o = None -> list_data (refresh tier_of local o d) = list_data d.
Proof. intros E. unfold refresh. rewrite E. by destruct (mapAddToUpdateConfirm local !! o). Qed.

Lemma refresh_paid o d hp : paid_at tier_of local o = Some hp -> hp = h /\ fn_nLastPaidHeight (refresh tier_of local o d) = h.
Proof.
  intros E. unfold refresh. rewrite E. unfold paid_at in E. destruct (mapPaidNodes local !! tier_of o) as [[hp' out]|] eqn:Ep; [|done].
  apply (cl_paid _ _ _ _ Hlocal) in Ep as [-> _]. case_decide; [|done]. injection E as <-. done.
Qed.

Lemma refresh_tier o d : fn_nTier (refresh tier_of local o d) = fn_nTier d.
Proof. unfold refresh. by destruct (mapAddToUpdateConfirm local !! o), (paid_at tier_of local o). Qed.

Lemma waited_before o d : mapConfirmedFluxnodeData g !! o = Some d -> waited_since d <= h - 1.
Proof.
  intros Hd. destruct (ok_conf _ _ _ Hok o d Hd) as (_ & _ & ? & ?). unfold waited_since, queue_height. destruct (0 <? _); lia.
Qed.

Lemma conf_kept o d d' :
  mapConfirmedFluxnodeData g !! o = Some d -> mapConfirmedFluxnodeData g' !! o = Some d' -> d' = refresh tier_of local o d.
Proof. intros Hd Hd'. specialize (Htr o). unfold trk in Htr. rewrite Hd, Hd' in Htr. by inversion Htr. Qed.

(** A node paid or confirmed by the block comes after all that wait. *)
Lemma ahead_shrinks o d d' :
  mapConfirmedFluxnodeData g !! o = Some d -> mapConfirmedFluxnodeData g' !! o = Some d' -> paid_at tier_of local o = None ->
  forall o', o' ∈ ahead g' o d' -> o' ∈ ahead g o d /\ paid_at tier_of local o' = None.
Proof.
  intros Hd Hd' Hp o' (Hne & d1' & Hd1' & Ht & Hle)%elem_of_ahead. pose proof (conf_kept o d d' Hd Hd') as ->.
  rewrite refresh_tier in Ht. rewrite refresh_list_data in Hle by done.
  pose proof (ld_le_heights _ _ Hle) as Hw. pose proof (waited_before o d Hd) as Hw0.
  assert (Hlt : waited_since d1' < h) by lia.
  destruct (conf_after o' d1' Hd1') as [(d1 & Hd1 & ->)|[Hc Hl]].
  - destruct (paid_at tier_of local o') as [hp|] eqn:E1.
    + destruct (refresh_paid o' d1 hp E1) as [_ Hlp]. unfold waited_since, queue_height in Hlt. rewrite Hlp in Hlt.
      destruct (Z.ltb_spec 0 h); lia.
    + split; [|done]. apply elem_of_ahead. split; [done|]. exists d1. rewrite refresh_tier in Ht. rewrite refresh_list_data in Hle by done. done.
  - unfold waited_since, queue_height in Hlt. rewrite Hl, Hc in Hlt. cbn in Hlt. lia.
Qed.

End rank.

Section liveness.
Context `{Crypto} (tier_of : COutPoint -> Z) (params : Params) (p2shKeys benchmarkKeys : list (string * Z)) (script_hash : bytes -> bytes)
  (ListPubKeysFromMultiSigScript : bytes -> option (list bytes)) (IsMultiSigRedeemScript : bytes -> bool)
  (ExtractDestination : bytes -> option CTxDestination) (EncodeDestination : CTxDestination -> string) (startPayments : Z).

(** A block at height [h] connected to the tip: the coins, the tip's height and
    the P2SH lookup are those of the time. *)
Record connected_block (h : Z) (g g' : FluxnodeCache) : Prop := {
  ba_connected : exists fIsVerifying tipCoins tip p2shDestination views vtx u,
    (forall i, tiers_of_view tier_of (views i)) /\ Forall (fun tx => starts tx -> ip tx = "") vtx /\
    (forall o d, mapConfirmedFluxnodeData g !! o = Some d -> is_Some (payee p2shKeys script_hash p2shDestination false o d)) /\
    ConnectTipFluxnode params p2shKeys benchmarkKeys script_hash ListPubKeysFromMultiSigScript IsMultiSigRedeemScript
      ExtractDestination EncodeDestination fIsVerifying tipCoins startPayments tip p2shDestination h views vtx g = Some (g', u);
}.

(** Connected blocks from height [h] on, the states after each. *)
Fixpoint blocks_from (h : Z) (g : FluxnodeCache) (gs : list FluxnodeCache) : Prop :=
  match gs with
  | [] => True
  | g' :: gs' => connected_block (h + 1) g g' /\ blocks_from (h + 1) g' gs'
  end.

Lemma block_moves_queue h g g' o d d' :
  0 <= h -> startPayments <= h + 1 -> csnode_ok tier_of h g -> connected_block (h + 1) g g' ->
  mapConfirmedFluxnodeData g !! o = Some d -> mapConfirmedFluxnodeData g' !! o = Some d' ->
  csnode_ok tier_of (h + 1) g' /\ (fn_nLastPaidHeight d' = h + 1 \/ ahead g' o d' ⊂ ahead g o d).
Proof.
  intros Hh Hsp Hok [(ver & coins & tip & dest & views & vtx & u & Hv & Hw & Hpay & E)] Hd Hd'.
  pose proof E as E0. unfold ConnectTipFluxnode in E.
  destruct (ConnectBlockFluxnode _ _ _ _ _ _ _ _ _ _ _ _ _ _ _ _ g) as [v [[local u1] g1]] eqn:Eb. destruct v; [|done].
  replace h with (h + 1 - 1) in Hok by lia.
  destruct (connect_tip_ok tier_of params p2shKeys benchmarkKeys script_hash ListPubKeysFromMultiSigScript IsMultiSigRedeemScript
    ExtractDestination EncodeDestination ver coins startPayments tip dest (h + 1) views vtx Hv Hw g g1 local u1) as (g2 & infos & E1 & Hok' & Hb & Htr);
    [lia|done|done|].
  rewrite E1 in E0. injection E0 as <- <-. split; [done|].
  destruct Hb as [Hg Hl _ _ _ Hp]. assert (startPayments <=? h + 1 = true) as Esp by lia. rewrite Esp in Hg. destruct Hg as [Hst Hok1 Hin Hnd Hall]. cbn [fst snd] in *.
  pose proof Hst as (_ & _ & Ec). assert (Hah : forall o d, ahead g1 o d = ahead g o d) by (intros; unfold ahead; by rewrite Ec).
  assert (Htr1 : forall o, transition tier_of (h + 1) local o (trk o g1) (trk o g2)) by (intros o'; rewrite (same_trackers_trk _ _ o' Hst); apply Htr).
  rewrite <- Ec in Hd. destruct (ok_conf _ _ _ Hok1 o d Hd) as [(Hko & Hkt & Hkv) _].
  destruct (paid_at tier_of local o) as [hp|] eqn:Epa.
  { left. rewrite (conf_kept _ _ _ _ _ Htr1 o d d' Hd Hd'). by destruct (refresh_paid _ _ _ _ Hl o d hp Epa) as [_ ?]. }
  right. destruct (Hall (fn_nTier d) o d) as [(info & Hi & Hit)|(o' & d1 & (Ho' & _) & Hno)]; [congruence|congruence|done| |].
  2:{ destruct (Hpay _ _ Ho') as [? ?]. congruence. }
  destruct (Hin info Hi) as (_ & (d1 & Hold & _) & _). rewrite Hit in Hold. set (o1 := pi_outpoint info) in *.
  assert (Hpa1 : paid_at tier_of local o1 = Some (h + 1)).
  { destruct Hold as (Ho1 & Ht1 & _). rewrite <- Ec in Ho1. destruct (ok_conf _ _ _ Hok1 _ _ Ho1) as [(_ & Hk1 & _) _]. unfold paid_at.
    rewrite Hp, <- Hk1, Ht1. assert (El : mapPaidNodes (note_paid (h + 1) infos emptyFluxnodeCache) !! fn_nTier d = Some (h + 1, o1)).
    { apply note_paid_lookup; [done|]. split; [done|]. by exists info. }
    by rewrite El, decide_True. }
  assert (Hne : o1 <> o) by congruence. assert (Hh1 : 0 < h + 1) by lia. pose proof (ahead_shrinks _ _ _ _ _ Hh1 Hok1 Hl Htr1 o d d' Hd Hd' Epa) as Hsh. rewrite <- Hah.
  split.
  - intros o' Ho'. by destruct (Hsh o' Ho').
  - intros Hsub. destruct (Hsh o1) as [_ E2]; [|congruence]. apply Hsub. apply elem_of_ahead. split; [done|].
    destruct Hold as (Ho1 & Ht1 & Hmin). exists d1. rewrite Ec in Hd |- *. split; [done|]. split; [done|]. by apply (Hmin o d).
Qed.

(** A node that stays confirmed is paid before it has waited longer than its
    place in the queue. *)
Lemma paid_within h g gs o d :
  0 <= h -> startPayments <= h + 1 -> csnode_ok tier_of h g -> blocks_from h g gs ->
  mapConfirmedFluxnodeData g !! o = Some d -> (forall g', g' ∈ gs -> is_Some (mapConfirmedFluxnodeData g' !! o)) ->
  (size (ahead g o d) < length gs)%nat ->
  exists k g' d', gs !! k = Some g' /\ (k <= size (ahead g o d))%nat /\ mapConfirmedFluxnodeData g' !! o = Some d' /\
    fn_nLastPaidHeight d' = h + Z.of_nat k + 1.
Proof.
  revert h g d. induction gs as [|g' gs IH]; intros h g d Hh Hsp Hok Hbl Hd Hc Hlen; [cbn in Hlen; lia|].
  destruct Hbl as [Hb Hbl]. destruct (Hc g') as [d' Hd']; [left|].
  destruct (block_moves_queue h g g' o d d') as [Hok' [Hpaid|Hlt]]; [done..| |].
  - exists 0%nat, g', d'. split; [done|]. split; [lia|]. split; [done|]. lia.
  - apply subset_size in Hlt. destruct (IH (h + 1) g' d') as (k & gk & dk & Hk & Hle & Hdk & Hp); [lia|lia|done|done|done| |cbn in Hlen; lia|].
    + intros g2 Hg2. apply Hc. by right.
    + exists (S k), gk, dk. split; [done|]. split; [lia|]. split; [done|]. lia.
Qed.

End liveness.
