(* ===== verification/CsnodeUndo.v ===== *)
(** Disconnecting a block: the local cache that [DisconnectBlock] builds from the
    undo data, and that flushing it restores the trackers. *)

From stdpp Require Import gmap sorting strings list.
From Stdlib Require Import ZArith Lia.
From S2P Require Import Prelude Params Uint256 Transaction Platform Csnode CsnodeBlock.
From S2P Require Import CsnodeQueue CsnodeFlush CsnodeConnect CsnodeCollect CsnodeAccept.

(** * The loops of [Flush] that undo *)

(** The trackers at every outpoint are updated by [upd], the payment lists kept. *)
Definition trk_by (upd : COutPoint -> Tracked -> Tracked) (s s' : Flushing) : Prop :=
  (forall o, trk o (fl_g s') = upd o (trk o (fl_g s))) /\ mapFluxnodeList (fl_g s') = mapFluxnodeList (fl_g s).

Lemma tracked_trk_by upd s s' : tracked_by upd s s' -> trk_by upd s s'.
Proof. intros [Ht [Hl _]]. by split. Qed.

Lemma trk_by_trans u1 u2 s s1 s2 : trk_by u1 s s1 -> trk_by u2 s1 s2 -> trk_by (fun o t => u2 o (u1 o t)) s s2.
Proof. intros [H1 L1] [H2 L2]. split; [|congruence]. intros o. by rewrite H2, H1. Qed.

Section loops.
Context (local : FluxnodeCache).

(** The records put back, at most one for each outpoint. *)
Lemma flush_undo_expire_spec (f : COutPoint -> option FluxnodeCacheData) s :
  (forall d, d ∈ setUndoExpireConfirm local -> f (fn_collateralIn d) = Some d) ->
  trk_by (fun o t => if decide (o ∈ map fn_collateralIn (setUndoExpireConfirm local)) then (t.1.1, t.1.2, f o) else t) s (flush_undo_expire local s).
Proof.
  intros Hf. pose (Inv := fun pre => trk_by (fun o t => if decide (o ∈ map fn_collateralIn pre) then (t.1.1, t.1.2, f o) else t) s).
  apply (foldl_ind Inv); unfold Inv; [by split|]. intros pre d post s1 El [Ht Hl].
  cbv zeta beta. set (s2 := if CheckListHas _ _ then _ else _).
  assert (E2 : fl_g s2 = dirty (fn_collateralIn d) ((fl_g s1) <| mapConfirmedFluxnodeData ::= <[fn_collateralIn d := d]> |>)) by (unfold s2; by destruct (CheckListHas _ _)).
  split; [|by rewrite E2]. intros o. specialize (Ht o). rewrite E2. unfold trk in *. cbn. rewrite lookup_insert, map_app.
  destruct (decide (fn_collateralIn d = o)) as [<-|Hne].
  - rewrite decide_True by (apply elem_of_app; right; left). rewrite Hf by (rewrite El; apply elem_of_app; right; left). case_decide; cbn in *; congruence.
  - transitivity (if decide (o ∈ map fn_collateralIn pre) then (mapStartTxTracker (fl_g s) !! o, mapStartTxDOSTracker (fl_g s) !! o, f o)
      else (mapStartTxTracker (fl_g s) !! o, mapStartTxDOSTracker (fl_g s) !! o, mapConfirmedFluxnodeData (fl_g s) !! o)).
    { case_decide; cbn in *; congruence. }
    cbn. apply decide_ext. rewrite elem_of_app. cbn. rewrite list_elem_of_singleton. naive_solver.
Qed.

Lemma flush_undo_confirm_spec s :
  trk_by (fun o t => if decide (o ∈ setUndoAddToConfirm local) then
                       match t.2 with Some d => (Some (unconfirm d), t.1.2, None) | None => t end
                     else t) s (flush_undo_confirm local s).
Proof.
  pose (upd := fun (t : Tracked) => match t.2 with Some d => (Some (unconfirm d), t.1.2, None : option FluxnodeCacheData) | None => t end).
  pose (Inv := fun pre => trk_by (fun o t => foldl (fun t _ => upd t) t (base.filter (fun a => a = o) pre)) s).
  assert (Hl : Inv (out_elements (setUndoAddToConfirm local)) (flush_undo_confirm local s)).
  { apply (foldl_ind Inv); unfold Inv; [by split|]. intros pre a post s1 _ [Ht Hl].
    set (s2 := match mapConfirmedFluxnodeData (fl_g s1) !! a with Some _ => _ | None => _ end).
    assert (E2 : trk_by (fun o t => if decide (a = o) then upd t else t) s1 s2).
    { unfold s2. destruct (mapConfirmedFluxnodeData (fl_g s1) !! a) as [d|] eqn:E; (split; [|done]); intros o; unfold trk, upd; cbn;
        rewrite ?lookup_insert, ?lookup_delete; case_decide; simplify_eq; by rewrite ?E. }
    destruct E2 as [Ht2 Hl2]. split; [|congruence]. intros o. rewrite Ht2, Ht, filter_app, foldl_app, filter_cons, filter_nil. by case_decide. }
  destruct Hl as [Ht Hl]. split; [|done]. intros o. rewrite Ht. rewrite (foldl_filter_idem upd).
  - apply decide_ext. apply elem_of_out_elements.
  - intros [[a b] c]. unfold upd. cbn. by destruct c.
Qed.

(** The lists are there, and not empty while their sets are not. *)
Definition lists_there (g : FluxnodeCache) : Prop :=
  forall t, t ∈ tiers -> exists l, mapFluxnodeList g !! t = Some l /\ (listConfirmedFluxnodes l = [] -> setConfirmedTxInList l = ∅).

Lemma undo_paid_round s out height :
  lists_there (fl_g s) -> (forall d, mapConfirmedFluxnodeData (fl_g s) !! out = Some d -> fn_nTier d ∈ tiers) ->
  exists s', undo_paid (out, height) s = Some s' /\ lists_there (fl_g s') /\
    forall o, trk o (fl_g s') = if decide (out = o) then ((trk o (fl_g s)).1.1, (trk o (fl_g s)).1.2, set_paid height <$> (trk o (fl_g s)).2) else trk o (fl_g s).
Proof.
  intros Hl Ht. unfold undo_paid. destruct (mapConfirmedFluxnodeData (fl_g s) !! out) as [d|] eqn:Ed.
  2:{ exists s. split; [done|]. split; [done|]. intros o. case_decide; [|done]. subst o. unfold trk. by rewrite Ed. }
  destruct (Hl _ (Ht d eq_refl)) as (l & El & Hne). rewrite El. cbn [mbind option_bind].
  assert (Hent : exists entries, (if bool_decide (out ∈ setConfirmedTxInList l) then unrotate out height (listConfirmedFluxnodes l)
      else Some (listConfirmedFluxnodes l)) = Some entries /\ (entries = [] -> setConfirmedTxInList l = ∅)).
  { case_bool_decide as Hin; [|by eexists]. destruct (listConfirmedFluxnodes l) as [|e es]; [rewrite Hne in Hin by done; set_solver|].
    cbn. eexists. split; [done|]. by destruct (last_match out es) as [[[??]?]|]. }
  destruct Hent as (entries & -> & Hent). cbn [mbind option_bind]. eexists. split; [done|]. split.
  - intros t Htt. cbn. rewrite lookup_insert. case_decide; [by eexists|]. by apply Hl.
  - intros o. unfold trk. cbn. rewrite lookup_insert. case_decide; [subst o; by rewrite Ed|done].
Qed.

Definition repay (t : Tracked) (kv : COutPoint * Z) : Tracked := (t.1.1, t.1.2, set_paid kv.2 <$> t.2).

Lemma repaid_tier l t d : (foldl repay t l).2 = Some d -> exists d0, t.2 = Some d0 /\ fn_nTier d = fn_nTier d0.
Proof.
  revert d. induction l as [|kv l IH] using rev_ind; intros d Hd; [by exists d|]. rewrite foldl_snoc in Hd. cbn in Hd.
  destruct (foldl repay t l).2 as [d1|]; [|done]. injection Hd as <-. by apply (IH d1).
Qed.

Lemma flush_undo_paid_spec s :
  lists_there (fl_g s) -> (forall o d, mapConfirmedFluxnodeData (fl_g s) !! o = Some d -> fn_nTier d ∈ tiers) ->
  exists s', flush_undo_paid local s = Some s' /\
    forall o, trk o (fl_g s') = match mapUndoPaidNodes local !! o with
      | Some height => ((trk o (fl_g s)).1.1, (trk o (fl_g s)).1.2, set_paid height <$> (trk o (fl_g s)).2)
      | None => trk o (fl_g s)
      end.
Proof.
  intros Hl Ht.
  pose (Inv := fun pre s' => lists_there (fl_g s') /\ forall o, trk o (fl_g s') =
    foldl repay (trk o (fl_g s)) (base.filter (fun kv => kv.1 = o) pre)).
  destruct (try_foldl_ind Inv undo_paid (out_items (mapUndoPaidNodes local)) s) as (s' & E & _ & Htr).
  - by split.
  - intros pre [k height] post s1 _ [Hl1 Ht1]. destruct (undo_paid_round s1 k height Hl1) as (s2 & E2 & Hl2 & Ht2).
    { intros d Hd. specialize (Ht1 k). unfold trk at 1 in Ht1. rewrite Hd in Ht1. apply (f_equal snd) in Ht1. cbn [snd] in Ht1.
      symmetry in Ht1. apply repaid_tier in Ht1 as (d0 & Hd0 & ->). exact (Ht k d0 Hd0). }
    exists s2. split; [done|]. split; [done|]. intros o. rewrite Ht2, Ht1, filter_app, foldl_app, filter_cons, filter_nil. cbn [fst]. by case_decide.
  - exists s'. split; [done|]. intros o. rewrite Htr, filter_out_items. by destruct (mapUndoPaidNodes local !! o).
Qed.

End loops.

(** * The local cache of [DisconnectBlock] *)

Lemma exists_cons {A} (x : A) (l : list A) (P : A -> Prop) : (exists y, y ∈ x :: l /\ P y) <-> P x \/ exists y, y ∈ l /\ P y.
Proof. setoid_rewrite elem_of_cons. naive_solver. Qed.

Lemma exists_nil {A} (P : A -> Prop) : (exists y, y ∈ [] /\ P y) <-> False.
Proof. split; [|done]. intros (y & Hy & _). by apply not_elem_of_nil in Hy. Qed.

Section disconnect.
Context (h : Z) (vtx : list CTransaction) (u : CFluxnodeTxBlockUndo) (g : FluxnodeCache).

Abbreviation back := (AddBackUndoData u g emptyFluxnodeCache).
Abbreviation timed := (CheckForUndoExpiredStartTx h g back).
Abbreviation dl := (DisconnectBlockFluxnode h vtx u g).

(** The fields the loop over the transactions keeps. *)
Definition apart_from_txs (c : FluxnodeCache) :=
  (mapStartTxTracker c, mapStartTxDOSTracker c, mapConfirmedFluxnodeData c, mapDOSToUndo c, mapDosExpiredToRemove c, setUndoExpireConfirm c,
   mapUndoPaidNodes c, mapAddToConfirm c, mapAddToUpdateConfirm c, setExpireConfirmOutPoints c, mapPaidNodes c).

Lemma dl_apart : apart_from_txs dl = apart_from_txs timed.
Proof.
  unfold DisconnectBlockFluxnode. generalize timed. intros c. induction vtx as [|tx l IH]; [done|]. cbn [foldr].
  rewrite <- IH. destruct (IsFluxnodeTx tx); [|done]. destruct (nType tx =? FLUXNODE_START_TX_TYPE); [done|]. by destruct (_ && _).
Qed.

Lemma dl_undo_start o : o ∈ setUndoStartTx dl <-> o ∈ setUndoStartTx timed \/ exists tx, tx ∈ vtx /\ starts tx /\ collateralIn tx = o.
Proof.
  unfold DisconnectBlockFluxnode. generalize timed. intros c. induction vtx as [|tx l IH]; [cbn; rewrite exists_nil; tauto|].
  rewrite exists_cons. cbn [foldr]. unfold starts at 1. destruct (IsFluxnodeTx tx); [|rewrite IH; naive_solver].
  destruct (Z.eqb_spec (nType tx) FLUXNODE_START_TX_TYPE).
  - cbn. rewrite elem_of_union, elem_of_singleton, IH. naive_solver.
  - destruct (_ && _); cbn; rewrite IH; naive_solver.
Qed.

Lemma dl_undo_confirm o : o ∈ setUndoAddToConfirm dl <-> o ∈ setUndoAddToConfirm timed \/ exists tx, tx ∈ vtx /\ confirms tx /\ collateralIn tx = o.
Proof.
  unfold DisconnectBlockFluxnode. generalize timed. intros c. induction vtx as [|tx l IH]; [cbn; rewrite exists_nil; tauto|].
  rewrite exists_cons. cbn [foldr]. unfold confirms at 1. destruct (IsFluxnodeTx tx); [|rewrite IH; naive_solver].
  destruct (Z.eqb_spec (nType tx) FLUXNODE_START_TX_TYPE) as [E1|E1].
  - cbn. rewrite IH. assert (nType tx <> FLUXNODE_CONFIRM_TX_TYPE) by (by rewrite E1). naive_solver.
  - destruct (Z.eqb_spec (nType tx) FLUXNODE_CONFIRM_TX_TYPE), (Z.eqb_spec (nUpdateType tx) INITIAL_CONFIRM); cbn; rewrite ?elem_of_union, ?elem_of_singleton, IH; naive_solver.
Qed.

(** Timed out starts that come back. *)
Definition timed_out_now (d : FluxnodeCacheData) : bool := fn_nAddedBlockHeight d =? h - FLUXNODE_START_TX_EXPIRATION_HEIGHT.

Lemma timed_start o :
  mapStartTxTracker timed !! o =
  match mapStartTxDOSTracker g !! o with
  | Some d => if timed_out_now d then Some (d <| fn_nStatus := FLUXNODE_TX_STARTED |>) else mapStartTxTracker back !! o
  | None => mapStartTxTracker back !! o
  end.
Proof.
  unfold CheckForUndoExpiredStartTx. generalize back. intros c.
  rewrite (observe_items (fun c => mapStartTxTracker c !! o) _ (fun d t => if timed_out_now d then Some (d <| fn_nStatus := FLUXNODE_TX_STARTED |>) else t)
    (mapStartTxDOSTracker g) o c); [done|].
  intros c' k d. unfold timed_out_now. destruct (_ =? _); [|by case_decide]. cbn. by rewrite lookup_insert.
Qed.

Lemma timed_other :
  (mapStartTxDOSTracker timed, mapConfirmedFluxnodeData timed, mapDosExpiredToRemove timed, setUndoExpireConfirm timed, setUndoStartTx timed, setUndoAddToConfirm timed,
   mapUndoPaidNodes timed, mapAddToConfirm timed, mapAddToUpdateConfirm timed, setExpireConfirmOutPoints timed, mapPaidNodes timed) =
  (mapStartTxDOSTracker back, mapConfirmedFluxnodeData back, mapDosExpiredToRemove back, setUndoExpireConfirm back, setUndoStartTx back, setUndoAddToConfirm back,
   mapUndoPaidNodes back, mapAddToConfirm back, mapAddToUpdateConfirm back, setExpireConfirmOutPoints back, mapPaidNodes back).
Proof.
  unfold CheckForUndoExpiredStartTx. generalize back. intros c.
  pose (f := fun c => (mapStartTxDOSTracker c, mapConfirmedFluxnodeData c, mapDosExpiredToRemove c, setUndoExpireConfirm c, setUndoStartTx c, setUndoAddToConfirm c,
   mapUndoPaidNodes c, mapAddToConfirm c, mapAddToUpdateConfirm c, setExpireConfirmOutPoints c, mapPaidNodes c)).
  change (f (foldl (fun local '(out, d) => if fn_nAddedBlockHeight d =? h - FLUXNODE_START_TX_EXPIRATION_HEIGHT
    then local <| mapStartTxTracker ::= <[out := d <| fn_nStatus := FLUXNODE_TX_STARTED |>]> |>
               <| mapDOSToUndo ::= fun m => <[h - FLUXNODE_START_TX_EXPIRATION_HEIGHT := {[out]} ∪ default ∅ (m !! (h - FLUXNODE_START_TX_EXPIRATION_HEIGHT))]> m |>
    else local) c (out_items (mapStartTxDOSTracker g))) = f c).
  apply (foldl_inv (fun c' => f c' = f c)); [done|]. intros c' [k d] _ <-. by destruct (_ =? _).
Qed.

Lemma timed_undo o :
  mapDOSToUndo back = ∅ ->
  o ∈ all_outs (mapDOSToUndo timed) <-> exists d, mapStartTxDOSTracker g !! o = Some d /\ timed_out_now d = true.
Proof.
  intros Hb. unfold CheckForUndoExpiredStartTx.
  pose (Inv := fun (pre : list (COutPoint * FluxnodeCacheData)) (c : FluxnodeCache) =>
    (mapDOSToUndo c = ∅ /\ forall kv, kv ∈ pre -> timed_out_now kv.2 = false) \/
    exists x : gset COutPoint, mapDOSToUndo c = {[h - FLUXNODE_START_TX_EXPIRATION_HEIGHT := x]} /\
      forall o, o ∈ x <-> exists d, (o, d) ∈ pre /\ timed_out_now d = true).
  assert (Hi : Inv (out_items (mapStartTxDOSTracker g)) timed).
  { apply (foldl_ind Inv); unfold Inv.
    - left. split; [done|]. intros kv Hi. by apply not_elem_of_nil in Hi.
    - intros pre [k d] post c _ Hc. fold (timed_out_now d). destruct (timed_out_now d) eqn:Et.
      + right. cbn. set (r := h - FLUXNODE_START_TX_EXPIRATION_HEIGHT) in *. destruct Hc as [[-> Hno]|(x & -> & Hx)].
        * exists ({[k]} ∪ ∅). split; [by rewrite lookup_empty, insert_empty|]. intros o'. setoid_rewrite elem_of_app. setoid_rewrite list_elem_of_singleton.
          rewrite elem_of_union, elem_of_singleton. split; [intros [->|Hi%elem_of_empty]; [exists d; auto|done]|]. intros (d' & [Hi|Hi] & Ed'); [|left; congruence].
          apply Hno in Hi. cbn in Hi. congruence.
        * exists ({[k]} ∪ x). split; [rewrite lookup_singleton_eq; by rewrite insert_singleton_eq|]. intros o'. setoid_rewrite elem_of_app. setoid_rewrite list_elem_of_singleton.
          rewrite elem_of_union, elem_of_singleton, Hx. split.
          -- intros [->|(d' & Hi & Ed')]; [exists d; auto|exists d'; auto].
          -- intros (d' & [Hi|Hi] & Ed'); [right; by exists d'|left; congruence].
      + destruct Hc as [[-> Hno]|(x & -> & Hx)]; [left|right].
        * split; [done|]. intros kv [Hi|Hi%list_elem_of_singleton]%elem_of_app; [by apply Hno|by subst kv].
        * exists x. split; [done|]. intros o'. rewrite Hx. setoid_rewrite elem_of_app. setoid_rewrite list_elem_of_singleton.
          split; intros (d' & Hi & Ed'); [by exists d'; auto|]. destruct Hi as [Hi|Hi]; [by exists d'|]. congruence. }
  fold timed. setoid_rewrite <- elem_of_out_items. destruct Hi as [[-> Hno]|(x & -> & Hx)].
  - assert (all_outs ∅ = []) as -> by (unfold all_outs; by rewrite int_items_empty). split; [intros Hi; by apply not_elem_of_nil in Hi|].
    intros (d & Hi & Ed). apply Hno in Hi. cbn in Hi. congruence.
  - rewrite all_outs_singleton. apply Hx.
Qed.

End disconnect.

(** * The undo data put back *)

Lemma memcmp_eq a b : length a = length b -> memcmp_lt a b = false -> memcmp_lt b a = false -> a = b.
Proof.
  revert b. induction a as [|x a IH]; intros [|y b]; cbn; try done. intros [= Hl]. rewrite (Z.eqb_sym y x).
  destruct (Z.eqb_spec x y) as [->|]; [intros H1 H2; f_equal; by apply IH|]. rewrite !Z.ltb_ge. lia.
Qed.

Lemma out_lt_total o o' : uint256_ok (op_hash o) -> uint256_ok (op_hash o') -> out_lt o o' = false -> out_lt o' o = false -> o = o'.
Proof.
  intros Ho Ho' H1 H2. rewrite out_lt_key in H1, H2. assert (E : out_key o = out_key o') by (apply memcmp_eq; [by rewrite !length_out_key|done|done]).
  unfold out_key in E. apply app_inj_2 in E as [E1 [= E2]]; [|done]. destruct o as [x n], o' as [y m]. cbn [op_hash op_n] in *. f_equal; [|done].
  unfold uint256_data, le_bytes in E1. apply (f_equal (undigits 256)) in E1. rewrite !undigits_digits in E1 by lia.
  unfold uint256_ok in *. rewrite !Z.mod_small in E1 by (change (256 ^ Z.of_nat 32) with (2 ^ 256); lia). done.
Qed.

Lemma fn_insert_elem d s e : e ∈ fn_insert d s -> e = d \/ e ∈ s.
Proof.
  induction s as [|x s IH]; cbn; [intros Hi%list_elem_of_singleton; by left|]. destruct (fn_lt x d).
  - rewrite !elem_of_cons. naive_solver.
  - destruct (fn_lt d x); rewrite !elem_of_cons; naive_solver.
Qed.

Lemma fn_insert_mono d s e : e ∈ s -> e ∈ fn_insert d s.
Proof.
  induction s as [|x s IH]; cbn; [intros Hi; by apply not_elem_of_nil in Hi|]. destruct (fn_lt x d).
  - rewrite !elem_of_cons. naive_solver.
  - destruct (fn_lt d x); rewrite !elem_of_cons; naive_solver.
Qed.

Lemma fn_insert_there d s : exists e, e ∈ fn_insert d s /\ (e = d \/ (e ∈ s /\ fn_lt e d = false /\ fn_lt d e = false)).
Proof.
  induction s as [|x s IH]; cbn; [exists d; split; [left|by left]|]. destruct (fn_lt x d) eqn:E1.
  - destruct IH as (e & He & Hc). exists e. split; [by right|]. destruct Hc as [?|(? & ?)]; [by left|right; split; [by right|done]].
  - destruct (fn_lt d x) eqn:E2; [exists d; split; [left|by left]|]. exists x. split; [left|]. right. split; [left|done].
Qed.

Lemma fn_lt_equiv a b : fn_lt a b = false -> fn_lt b a = false ->
  out_lt (fn_collateralIn a) (fn_collateralIn b) = false /\ out_lt (fn_collateralIn b) (fn_collateralIn a) = false.
Proof.
  unfold fn_lt. cbv zeta. set (x := queue_height _ _). set (y := queue_height _ _). intros [H1 H2]%orb_false_iff [H3 H4]%orb_false_iff.
  assert (x = y) as E by lia. rewrite E in *. rewrite Z.eqb_refl in *. done.
Qed.

(** The set of records to bring back: an outpoint named is brought back. *)
Lemma fn_insert_all (F : COutPoint -> option FluxnodeCacheData) (l : list FluxnodeCacheData) :
  (forall d, d ∈ l -> F (fn_collateralIn d) = Some d /\ uint256_ok (op_hash (fn_collateralIn d))) ->
  forall d, d ∈ foldl (fun s d => fn_insert d s) [] l <-> d ∈ l.
Proof.
  intros HF. apply (foldl_ind (fun pre s => forall d, d ∈ s <-> d ∈ pre)); [done|]. intros pre a post s El Hs d.
  rewrite elem_of_app, list_elem_of_singleton, <- Hs. split; [intros Hi; apply fn_insert_elem in Hi as [Hi|Hi]; auto|]. intros [Hi|Hi]; [by apply fn_insert_mono|]. subst d.
  destruct (fn_insert_there a s) as (e & He & [Hea|(Hes & H1 & H2)]); [by subst e|]. apply Hs in Hes. apply fn_lt_equiv in H1 as [H3 H4]; [|done].
  assert (Hel : e ∈ l) by (rewrite El; apply elem_of_app; by left). assert (Hal : a ∈ l) by (rewrite El; apply elem_of_app; right; left).
  destruct (HF e Hel) as [Fe Re], (HF a Hal) as [Fa Ra]. assert (E : fn_collateralIn e = fn_collateralIn a) by (by apply out_lt_total).
  rewrite E in Fe. assert (e = a) by congruence. by subst e.
Qed.

Section back.
Context (tier_of : COutPoint -> Z) (h : Z) (g0 local : FluxnodeCache) (u : CFluxnodeTxBlockUndo) (g : FluxnodeCache).
Hypothesis (Hok : csnode_ok tier_of (h - 1) g0) (Hlocal : connect_local tier_of h g0 local) (Hundo : undo_ok tier_of h g0 local u).
Hypothesis (Hwf : forall o d, mapConfirmedFluxnodeData g0 !! o = Some d -> uint256_ok (op_hash o)).

Abbreviation back := (AddBackUndoData u g emptyFluxnodeCache).

(** The first three loops. *)
Definition back_dos : FluxnodeCache :=
  foldl (fun local d => local <| mapStartTxDOSTracker ::= <[fn_collateralIn d := d]> |>) emptyFluxnodeCache (vecExpiredDosData u).
Definition back_heights : FluxnodeCache :=
  foldl (fun local '(out, h) =>
    match mapConfirmedFluxnodeData g !! out with
    | Some d => local <| mapConfirmedFluxnodeData ::= <[out := d <| fn_nLastConfirmedBlockHeight := h |>]> |>
    | None => local
    end) back_dos (out_items (mapUpdateLastConfirmHeight u)).
Definition back_ips : FluxnodeCache :=
  foldl (fun local '(out, addr) =>
    match mapConfirmedFluxnodeData local !! out, mapConfirmedFluxnodeData g !! out with
    | Some d, _ | None, Some d => local <| mapConfirmedFluxnodeData ::= <[out := d <| fn_ip := addr |>]> |>
    | None, None => local
    end) back_heights (out_items (mapLastIpAddress u)).

Lemma back_dos_lookup o :
  mapStartTxDOSTracker back_dos !! o = if decide (o ∈ map fn_collateralIn (vecExpiredDosData u)) then mapStartTxDOSTracker g0 !! o else None.
Proof.
  pose (Inv := fun pre c => mapStartTxDOSTracker c !! o = if decide (o ∈ map fn_collateralIn pre) then mapStartTxDOSTracker g0 !! o else None).
  apply (foldl_ind Inv); unfold Inv; [done|]. intros pre d post c El Hc. cbn. rewrite lookup_insert, map_app.
  destruct (decide (fn_collateralIn d = o)) as [<-|Hne].
  - rewrite decide_True by (apply elem_of_app; right; left). symmetry. apply (un_dos _ _ _ _ _ Hundo). rewrite El. apply elem_of_app. right. left.
  - rewrite Hc. apply decide_ext. rewrite elem_of_app. cbn. rewrite list_elem_of_singleton. naive_solver.
Qed.

(** The confirmed record put back by the heights and addresses. *)
Lemma back_ips_lookup o :
  mapConfirmedFluxnodeData back_ips !! o =
  match mapUpdateLastConfirmHeight u !! o, mapLastIpAddress u !! o, mapConfirmedFluxnodeData g !! o with
  | Some h, Some addr, Some d => Some (d <| fn_nLastConfirmedBlockHeight := h |> <| fn_ip := addr |>)
  | _, _, _ => None
  end.
Proof.
  assert (H0 : mapConfirmedFluxnodeData back_dos !! o = None).
  { assert (E : mapConfirmedFluxnodeData back_dos = ∅) by (apply (foldl_inv (fun c => mapConfirmedFluxnodeData c = ∅)); done). by rewrite E. }
  unfold back_ips. rewrite (observe_items (fun c => mapConfirmedFluxnodeData c !! o) _ (fun addr t =>
    match t, mapConfirmedFluxnodeData g !! o with Some d, _ | None, Some d => Some (d <| fn_ip := addr |>) | None, None => None end) _ o _).
  2:{ intros c k addr. destruct (decide (k = o)) as [->|Hne].
      - destruct (mapConfirmedFluxnodeData c !! o) eqn:Ec; [|destruct (mapConfirmedFluxnodeData g !! o)]; cbn; rewrite ?lookup_insert_eq; done.
      - destruct (mapConfirmedFluxnodeData c !! k); [|destruct (mapConfirmedFluxnodeData g !! k)]; cbn; rewrite ?lookup_insert_ne by done; done. }
  unfold back_heights. rewrite (observe_items (fun c => mapConfirmedFluxnodeData c !! o) _ (fun h t =>
    match mapConfirmedFluxnodeData g !! o with Some d => Some (d <| fn_nLastConfirmedBlockHeight := h |>) | None => t end) _ o _).
  2:{ intros c k hh. destruct (decide (k = o)) as [->|Hne].
      - destruct (mapConfirmedFluxnodeData g !! o); cbn; rewrite ?lookup_insert_eq; done.
      - destruct (mapConfirmedFluxnodeData g !! k); cbn; rewrite ?lookup_insert_ne by done; done. }
  rewrite H0. pose proof (un_last _ _ _ _ _ Hundo o) as Hl. pose proof (un_ip _ _ _ _ _ Hundo o) as Hi.
  destruct (mapAddToUpdateConfirm local !! o) as [a|], (mapConfirmedFluxnodeData g0 !! o) as [d0|]; cbn in Hl, Hi; rewrite Hl, Hi;
    by destruct (mapConfirmedFluxnodeData g !! o).
Qed.

(** The fields the undo data leaves empty. *)
Definition untouched (c : FluxnodeCache) :=
  (mapStartTxTracker c, mapDOSToUndo c, mapDosExpiredToRemove c, setUndoStartTx c, setUndoAddToConfirm c, mapAddToConfirm c, mapAddToUpdateConfirm c,
   setExpireConfirmOutPoints c, mapPaidNodes c).

Lemma back_untouched : untouched back = untouched emptyFluxnodeCache.
Proof.
  unfold AddBackUndoData. cbv zeta. apply (foldl_inv (fun c => untouched c = untouched emptyFluxnodeCache)); [|by intros c [k v] _].
  change (untouched back_ips = untouched emptyFluxnodeCache).
  apply (foldl_inv (fun c => untouched c = untouched emptyFluxnodeCache)); [|intros c [k v] _ <-; by repeat case_match].
  apply (foldl_inv (fun c => untouched c = untouched emptyFluxnodeCache)); [|intros c [k v] _ <-; by repeat case_match].
  by apply (foldl_inv (fun c => untouched c = untouched emptyFluxnodeCache)).
Qed.

Lemma back_paid o : mapUndoPaidNodes back !! o = mapLastPaidHeights u !! o.
Proof.
  unfold AddBackUndoData. cbv zeta. rewrite (observe_items (fun c => mapUndoPaidNodes c !! o) _ (fun v _ => Some v) _ o _).
  2:{ intros c k v. cbn. by rewrite lookup_insert. }
  destruct (mapLastPaidHeights u !! o); [done|]. change (mapUndoPaidNodes back_ips !! o = None).
  assert (E : mapUndoPaidNodes back_ips = ∅); [|by rewrite E].
  apply (foldl_inv (fun c => mapUndoPaidNodes c = ∅)); [|intros c [k v] _ <-; by repeat case_match].
  apply (foldl_inv (fun c => mapUndoPaidNodes c = ∅)); [|intros c [k v] _ <-; by repeat case_match].
  by apply (foldl_inv (fun c => mapUndoPaidNodes c = ∅)).
Qed.
Lemma back_last : (mapStartTxDOSTracker back, mapConfirmedFluxnodeData back, setUndoExpireConfirm back) =
  (mapStartTxDOSTracker back_ips, mapConfirmedFluxnodeData back_ips, foldl (fun s d => fn_insert d s) (setUndoExpireConfirm back_ips) (vecExpiredConfirmedData u)).
Proof.
  unfold AddBackUndoData. cbv zeta.
  apply (foldl_inv (fun c => (mapStartTxDOSTracker c, mapConfirmedFluxnodeData c, setUndoExpireConfirm c) =
    (mapStartTxDOSTracker back_ips, mapConfirmedFluxnodeData back_ips, foldl (fun s d => fn_insert d s) (setUndoExpireConfirm back_ips) (vecExpiredConfirmedData u))));
    [done|by intros c [k v] _].
Qed.

Lemma back_ips_keeps : (mapStartTxDOSTracker back_ips, setUndoExpireConfirm back_ips) = (mapStartTxDOSTracker back_dos, []).
Proof.
  assert (E : setUndoExpireConfirm back_dos = []) by (by apply (foldl_inv (fun c => setUndoExpireConfirm c = []))). rewrite <- E.
  pose (f := fun c => (mapStartTxDOSTracker c, setUndoExpireConfirm c)). change (f back_ips = f back_dos). unfold back_ips, back_heights.
  apply (foldl_inv (fun c => f c = f back_dos)); [|intros c [k v] _ <-; by repeat case_match].
  by apply (foldl_inv (fun c => f c = f back_dos)); [|intros c [k v] _ <-; repeat case_match].
Qed.

Lemma back_expired d : d ∈ setUndoExpireConfirm back <-> d ∈ vecExpiredConfirmedData u.
Proof.
  pose proof back_last as E. injection E as _ _ ->. pose proof back_ips_keeps as E. injection E as _ ->.
  apply (fn_insert_all (fun o => mapConfirmedFluxnodeData g0 !! o)). intros d' Hd'. apply (un_conf _ _ _ _ _ Hundo) in Hd'. eauto.
Qed.

End back.

(** * Connecting and disconnecting *)

Section roundtrip.
Context (tier_of : COutPoint -> Z) (h : Z) (g0 local : FluxnodeCache) (u : CFluxnodeTxBlockUndo) (vtx : list CTransaction) (g : FluxnodeCache).
Hypothesis (Hok0 : csnode_ok tier_of (h - 1) g0) (Hlocal : connect_local tier_of h g0 local) (Hundo : undo_ok tier_of h g0 local u).
Hypothesis (Hwf : forall o d, mapConfirmedFluxnodeData g0 !! o = Some d -> uint256_ok (op_hash o)).
Hypothesis (Hstarts : forall o, is_Some (mapStartTxTracker local !! o) <-> exists tx, tx ∈ vtx /\ starts tx /\ collateralIn tx = o)
  (Hconfirms : forall o, is_Some (mapAddToConfirm local !! o) <-> exists tx, tx ∈ vtx /\ confirms tx /\ collateralIn tx = o).
Hypothesis (Hok : csnode_ok tier_of h g) (Htr : forall o, transition tier_of h local o (trk o g0) (trk o g)).

Abbreviation dl := (DisconnectBlockFluxnode h vtx u g).

(** What the local cache of the disconnection holds at an outpoint. *)
Record undo_local (c : FluxnodeCache) : Prop := {
  ul_start : forall o, mapStartTxTracker c !! o =
    match mapStartTxDOSTracker g !! o with Some d => if timed_out_now h d then Some (d <| fn_nStatus := FLUXNODE_TX_STARTED |>) else None | None => None end;
  ul_dos : forall o, mapStartTxDOSTracker c !! o =
    if decide (o ∈ all_outs (mapDosExpiredToRemove local)) then mapStartTxDOSTracker g0 !! o else None;
  ul_dos_undo : forall o, o ∈ all_outs (mapDOSToUndo c) <-> exists d, mapStartTxDOSTracker g !! o = Some d /\ timed_out_now h d = true;
  ul_conf : forall o, mapConfirmedFluxnodeData c !! o =
    match mapAddToUpdateConfirm local !! o, mapConfirmedFluxnodeData g0 !! o, mapConfirmedFluxnodeData g !! o with
    | Some _, Some d0, Some d => Some (d <| fn_nLastConfirmedBlockHeight := fn_nLastConfirmedBlockHeight d0 |> <| fn_ip := fn_ip d0 |>)
    | _, _, _ => None
    end;
  ul_expired : forall d, d ∈ setUndoExpireConfirm c <-> mapConfirmedFluxnodeData g0 !! fn_collateralIn d = Some d /\ fn_collateralIn d ∈ setExpireConfirmOutPoints local;
  ul_undo_start : forall o, o ∈ setUndoStartTx c <-> is_Some (mapStartTxTracker local !! o);
  ul_undo_confirm : forall o, o ∈ setUndoAddToConfirm c <-> is_Some (mapAddToConfirm local !! o);
  ul_paid : forall o, mapUndoPaidNodes c !! o = (_ ← paid_at tier_of local o; fn_nLastPaidHeight <$> mapConfirmedFluxnodeData g0 !! o);
  ul_rest : (mapDosExpiredToRemove c, mapAddToConfirm c, mapAddToUpdateConfirm c, setExpireConfirmOutPoints c, mapPaidNodes c) = (∅, ∅, ∅, ∅, ∅);
}.

Lemma disconnect_undo_local : undo_local dl.
Proof.
  pose proof (dl_apart h vtx u g) as Ea. unfold apart_from_txs in Ea. injection Ea as A1 A2 A3 A4 A5 A6 A7 A8 A9 A10 A11.
  pose proof (timed_other h u g) as Et. injection Et as T1 T2 T3 T4 T5 T6 T7 T8 T9 T10 T11.
  pose proof (back_untouched u g) as Eb. unfold untouched in Eb. injection Eb as B1 B2 B3 B4 B5 B6 B7 B8 B9.
  pose proof (back_last u g) as El. injection El as L1 L2 L3. pose proof (back_ips_keeps u g) as Ek. injection Ek as K1 K2.
  split.
  - intros o. rewrite A1, timed_start, B1. by rewrite lookup_empty.
  - intros o. rewrite A2, T1, L1, K1. rewrite (back_dos_lookup tier_of h g0 local u Hundo). apply decide_ext.
    rewrite (un_removed _ _ _ _ _ Hundo), list_elem_of_fmap. naive_solver.
  - intros o. rewrite A4. by apply timed_undo.
  - intros o. rewrite A3, T2, L2, (back_ips_lookup tier_of h g0 local u g Hundo).
    rewrite (un_last _ _ _ _ _ Hundo), (un_ip _ _ _ _ _ Hundo). by destruct (mapAddToUpdateConfirm local !! o), (mapConfirmedFluxnodeData g0 !! o).
  - intros d. rewrite A6, T4. rewrite (back_expired tier_of h g0 local u g Hundo Hwf). rewrite (un_expired _ _ _ _ _ Hundo). split.
    + intros Hd. split; [by apply (un_conf _ _ _ _ _ Hundo)|]. by exists d.
    + intros [Hd (d' & Hd' & E)]. pose proof (un_conf _ _ _ _ _ Hundo d' Hd') as Hd2. rewrite E in Hd2. by assert (d' = d) as <- by congruence.
  - intros o. rewrite dl_undo_start, T5, B4, Hstarts. set_solver.
  - intros o. rewrite dl_undo_confirm, T6, B5, Hconfirms. set_solver.
  - intros o. rewrite A7, T7, back_paid. apply (un_paid _ _ _ _ _ Hundo).
  - rewrite A5, A8, A9, A10, A11, T3, T8, T9, T10, T11, B3, B6, B7, B8, B9. done.
Qed.

(** The changes at an outpoint before the payments are undone: what the local
    cache has for it and which of its sets name it. *)
Definition step_start (start : option FluxnodeCacheData) (t : Tracked) : Tracked :=
  match start with Some d => (Some d, t.1.2, t.2) | None => t end.
Definition step_dos (dos : option FluxnodeCacheData) (t : Tracked) : Tracked :=
  match dos with Some d => (None, Some d, t.2) | None => t end.
Definition step_erase (erase : bool) (t : Tracked) : Tracked := if erase then (t.1.1, None, t.2) else t.
Definition step_conf (conf : option FluxnodeCacheData) (t : Tracked) : Tracked :=
  match conf with
  | Some d => (t.1.1, t.1.2, Some ((default null_data t.2) <| fn_nLastConfirmedBlockHeight := fn_nLastConfirmedBlockHeight d |> <| fn_ip := fn_ip d |>))
  | None => t
  end.
Definition step_expired (expired : bool) (orig : option FluxnodeCacheData) (t : Tracked) : Tracked := if expired then (t.1.1, t.1.2, orig) else t.
Definition step_started (started : bool) (t : Tracked) : Tracked := if started then (None, t.1.2, t.2) else t.
Definition step_confirmed (confirmed : bool) (t : Tracked) : Tracked :=
  if confirmed then match t.2 with Some d => (Some (unconfirm d), t.1.2, None) | None => t end else t.

Definition undo_steps (start dos conf orig : option FluxnodeCacheData) (erase expired started confirmed : bool) (t : Tracked) : Tracked :=
  step_confirmed confirmed (step_started started (step_expired expired orig (step_conf conf (step_erase erase (step_dos dos (step_start start t)))))).

Definition undone (c : FluxnodeCache) (o : COutPoint) : Tracked -> Tracked :=
  undo_steps (mapStartTxTracker c !! o) (mapStartTxDOSTracker c !! o) (mapConfirmedFluxnodeData c !! o) (mapConfirmedFluxnodeData g0 !! o)
    (bool_decide (o ∈ all_outs (mapDOSToUndo c))) (bool_decide (o ∈ map fn_collateralIn (setUndoExpireConfirm c)))
    (bool_decide (o ∈ setUndoStartTx c)) (bool_decide (o ∈ setUndoAddToConfirm c)).

(** The record of a confirmed node then: as before the block, but for its
    payment. *)
Definition still_paid (o : COutPoint) (d : FluxnodeCacheData) : FluxnodeCacheData :=
  match paid_at tier_of local o with
  | Some hp => if decide (o ∈ setExpireConfirmOutPoints local) then d else set_paid hp d
  | None => d
  end.

Lemma undone_steps c o :
  undo_local c ->
  undone c o =
  undo_steps
    match mapStartTxDOSTracker g !! o with Some d => if timed_out_now h d then Some (d <| fn_nStatus := FLUXNODE_TX_STARTED |>) else None | None => None end
    (if decide (o ∈ all_outs (mapDosExpiredToRemove local)) then mapStartTxDOSTracker g0 !! o else None)
    match mapAddToUpdateConfirm local !! o, mapConfirmedFluxnodeData g0 !! o, mapConfirmedFluxnodeData g !! o with
    | Some _, Some d0, Some d => Some (d <| fn_nLastConfirmedBlockHeight := fn_nLastConfirmedBlockHeight d0 |> <| fn_ip := fn_ip d0 |>)
    | _, _, _ => None
    end (mapConfirmedFluxnodeData g0 !! o)
    match mapStartTxDOSTracker g !! o with Some d => timed_out_now h d | None => false end
    (bool_decide (o ∈ setExpireConfirmOutPoints local)) (has o (mapStartTxTracker local)) (has o (mapAddToConfirm local)).
Proof.
  intros Hc. unfold undone. rewrite (ul_start _ Hc), (ul_dos _ Hc), (ul_conf _ Hc). f_equal.
  - destruct (mapStartTxDOSTracker g !! o) as [d|] eqn:E.
    + destruct (timed_out_now h d) eqn:Et.
      * apply bool_decide_eq_true, (ul_dos_undo _ Hc). eauto.
      * apply bool_decide_eq_false. rewrite (ul_dos_undo _ Hc). intros (d' & Hd' & Et'). congruence.
    + apply bool_decide_eq_false. rewrite (ul_dos_undo _ Hc). intros (d' & Hd' & Et'). congruence.
  - apply bool_decide_ext. rewrite list_elem_of_fmap. split.
    + intros (d & -> & [_ Hd]%(ul_expired _ Hc)). done.
    + intros Ho. destruct (cl_expired _ _ _ _ Hlocal o Ho) as [d Hd]. pose proof (ok_conf _ _ _ Hok0 o d Hd) as [(Hk & _) _].
      exists d. split; [done|]. apply (ul_expired _ Hc). by rewrite Hk.
  - apply bool_decide_ext, (ul_undo_start _ Hc).
  - apply bool_decide_ext, (ul_undo_confirm _ Hc).
Qed.

Lemma undone_case o t0 t1 :
  transition tier_of h local o t0 t1 -> trk_ok tier_of (h - 1) o t0 ->
  (o ∈ all_outs (mapDosExpiredToRemove local) -> is_Some t0.1.2) -> (o ∈ setExpireConfirmOutPoints local -> is_Some t0.2) ->
  (is_Some (mapStartTxTracker local !! o) -> t0 = (None, None, None)) -> (is_Some (mapAddToConfirm local !! o) -> is_Some t0.1.1) ->
  undo_steps
    match t1.1.2 with Some d => if timed_out_now h d then Some (d <| fn_nStatus := FLUXNODE_TX_STARTED |>) else None | None => None end
    (if decide (o ∈ all_outs (mapDosExpiredToRemove local)) then t0.1.2 else None)
    match mapAddToUpdateConfirm local !! o, t0.2, t1.2 with
    | Some _, Some d0, Some d => Some (d <| fn_nLastConfirmedBlockHeight := fn_nLastConfirmedBlockHeight d0 |> <| fn_ip := fn_ip d0 |>)
    | _, _, _ => None
    end t0.2
    match t1.1.2 with Some d => timed_out_now h d | None => false end
    (bool_decide (o ∈ setExpireConfirmOutPoints local)) (has o (mapStartTxTracker local)) (has o (mapAddToConfirm local)) t1
  = (t0.1.1, t0.1.2, still_paid o <$> t0.2).
Proof.
  intros Ht Hk Hrem Hexp Hst Hcf.
  assert (Hexp' : t0.2 = None -> bool_decide (o ∈ setExpireConfirmOutPoints local) = false).
  { intros E. apply bool_decide_eq_false. intros Hi%Hexp. rewrite E in Hi. by apply is_Some_None in Hi. }
  assert (Hst' : t0 <> (None, None, None) -> has o (mapStartTxTracker local) = false).
  { intros E. apply bool_decide_eq_false. intros Hi%Hst. done. }
  assert (Hcf' : t0.1.1 = None -> has o (mapAddToConfirm local) = false).
  { intros E. apply bool_decide_eq_false. intros Hi%Hcf. rewrite E in Hi. by apply is_Some_None in Hi. }
  assert (Hrem' : t0.1.2 = None -> (if decide (o ∈ all_outs (mapDosExpiredToRemove local)) then t0.1.2 else None) = None).
  { intros E. rewrite E. by destruct (decide _). }
  clear Hrem Hexp Hst Hcf. destruct Ht as [Hs|d Hs|d Ha Hd|d Ha Hd|d addr Ha|d Ho|d Ho|d Ho|d Ho]; cbn [fst snd] in *.
  - rewrite Hrem', Hexp', Hcf' by done. destruct (mapAddToUpdateConfirm local !! o), (has o _); done.
  - assert (has o (mapStartTxTracker local) = true) as -> by (apply bool_decide_eq_true; eauto).
    rewrite Hrem', Hexp', Hcf' by done. destruct (mapAddToUpdateConfirm local !! o); done.
  - assert (has o (mapAddToConfirm local) = false) as -> by (apply bool_decide_eq_false; rewrite Ha; by intros []).
    rewrite Hrem', Hexp', Hst' by done. destruct (mapAddToUpdateConfirm local !! o); done.
  - assert (has o (mapAddToConfirm local) = false) as -> by (apply bool_decide_eq_false; rewrite Ha; by intros []).
    assert (timed_out_now h (d <| fn_nStatus := FLUXNODE_TX_DOS_PROTECTION |>) = true) as -> by (unfold timed_out_now; cbn; lia).
    rewrite Hrem', Hexp', Hst' by done. inversion Hk as [|? _ Hu _ E| |]. subst. destruct Hu as (Hu & _).
    assert (Ed : d <| fn_nStatus := FLUXNODE_TX_DOS_PROTECTION |> <| fn_nStatus := FLUXNODE_TX_STARTED |> = d) by (destruct d; cbn in *; by subst).
    rewrite Ed. destruct (mapAddToUpdateConfirm local !! o); done.
  - assert (has o (mapAddToConfirm local) = true) as -> by (apply bool_decide_eq_true; eauto).
    rewrite Hrem', Hexp', Hst' by done. inversion Hk as [|? _ Hu _ E| |]. subst. destruct Hu as (U1 & U2 & U3 & U4 & U5).
    assert (Ed : unconfirm (confirm_started h addr d) = d) by (destruct d; cbn in *; by subst).
    destruct (mapAddToUpdateConfirm local !! o); cbn; by rewrite Ed.
  - rewrite Hexp', Hst', Hcf' by done. inversion Hk as [| |? _ _ Hadd E|]. subst.
    assert (timed_out_now h d = false) as -> by (unfold timed_out_now; lia). destruct (decide (o ∈ all_outs _)); [done|]. destruct (mapAddToUpdateConfirm local !! o); done.
  - rewrite Hexp', Hst', Hcf' by done. destruct (decide (o ∈ all_outs _)); [|done]. destruct (mapAddToUpdateConfirm local !! o); done.
  - rewrite Hrem', Hst', Hcf', bool_decide_eq_false_2 by done. cbn [fmap option_fmap option_map]. unfold still_paid, refresh.
    destruct (mapAddToUpdateConfirm local !! o), (paid_at tier_of local o); rewrite ?decide_False by done; cbn; by destruct d.
  - rewrite Hrem', Hst', Hcf', bool_decide_eq_true_2 by done. cbn [fmap option_fmap option_map]. unfold still_paid.
    destruct (mapAddToUpdateConfirm local !! o), (paid_at tier_of local o); rewrite ?decide_True by done; done.
Qed.

Lemma undone_trk c o :
  undo_local c -> undone c o (trk o g) = (mapStartTxTracker g0 !! o, mapStartTxDOSTracker g0 !! o, still_paid o <$> mapConfirmedFluxnodeData g0 !! o).
Proof.
  intros Hc. rewrite undone_steps by done. apply (undone_case o (trk o g0) (trk o g)); [done|by apply csnode_ok_trk|..].
  - apply (cl_removed _ _ _ _ Hlocal).
  - apply (cl_expired _ _ _ _ Hlocal).
  - intros [d Hd]. by apply (cl_start _ _ _ _ Hlocal) in Hd as (_ & _ & _ & ?).
  - intros [a Ha]. by apply (cl_confirm _ _ _ _ Hlocal) in Ha as [? _].
Qed.

Lemma flush_before_unpay c :
  undo_local c ->
  let s := flush_undo_start c (flush_undo_expire c (flush_confirmed c (flush_erase_dos (all_outs (mapDOSToUndo c))
    (flush_erase_dos (all_outs (mapDosExpiredToRemove c)) (flush_dos c (flush_start c (mkFlushing g ∅ [] ∅ ∅))))))) in
  trk_by (undone c) (mkFlushing g ∅ [] ∅ ∅) (flush_undo_confirm c s).
Proof.
  intros Hc. pose proof (ul_rest _ Hc) as Hr. injection Hr as R1 _ _ _ _. cbv zeta.
  assert (Ha : all_outs (mapDosExpiredToRemove c) = []) by (rewrite R1; unfold all_outs; by rewrite int_items_empty).
  rewrite Ha. change (flush_erase_dos [] ?s) with s.
  assert (He : forall d, d ∈ setUndoExpireConfirm c -> mapConfirmedFluxnodeData g0 !! fn_collateralIn d = Some d) by (intros d [? _]%(ul_expired _ Hc); done).
  set (s0 := mkFlushing g ∅ [] ∅ ∅).
  destruct (flush_start_spec c s0) as [T1 [L1 _]]. set (s1 := flush_start c s0) in *.
  destruct (flush_dos_spec c s1) as [T2 [L2 _]]. set (s2 := flush_dos c s1) in *.
  destruct (flush_erase_dos_spec (all_outs (mapDOSToUndo c)) s2) as [T3 [L3 _]]. set (s3 := flush_erase_dos _ s2) in *.
  destruct (flush_confirmed_spec c s3) as [T4 [L4 _]]. set (s4 := flush_confirmed c s3) in *.
  destruct (flush_undo_expire_spec c (fun o => mapConfirmedFluxnodeData g0 !! o) s4 He) as [T5 L5]. set (s5 := flush_undo_expire c s4) in *.
  destruct (flush_undo_start_spec c s5) as [T6 [L6 _]]. set (s6 := flush_undo_start c s5) in *.
  destruct (flush_undo_confirm_spec c s6) as [T7 L7]. set (s7 := flush_undo_confirm c s6) in *.
  split; [|congruence]. intros o. unfold undone, undo_steps.
  assert (trk o (fl_g s1) = step_start (mapStartTxTracker c !! o) (trk o (fl_g s0))) as <- by apply T1.
  assert (trk o (fl_g s2) = step_dos (mapStartTxDOSTracker c !! o) (trk o (fl_g s1))) as <- by apply T2.
  assert (trk o (fl_g s3) = step_erase (bool_decide (o ∈ all_outs (mapDOSToUndo c))) (trk o (fl_g s2))) as <-
    by (rewrite T3; unfold step_erase; by rewrite bool_decide_decide; destruct (decide _)).
  assert (trk o (fl_g s4) = step_conf (mapConfirmedFluxnodeData c !! o) (trk o (fl_g s3))) as <- by apply T4.
  assert (trk o (fl_g s5) = step_expired (bool_decide (o ∈ map fn_collateralIn (setUndoExpireConfirm c))) (mapConfirmedFluxnodeData g0 !! o) (trk o (fl_g s4))) as <-
    by (rewrite T5; unfold step_expired; by rewrite bool_decide_decide; destruct (decide _)).
  assert (trk o (fl_g s6) = step_started (bool_decide (o ∈ setUndoStartTx c)) (trk o (fl_g s5))) as <-
    by (rewrite T6; unfold step_started; rewrite <- (bool_decide_ext _ _ (elem_of_out_elements (setUndoStartTx c) o)), bool_decide_decide; by destruct (decide _)).
  rewrite T7. unfold step_confirmed. rewrite bool_decide_decide. by destruct (decide _).
Qed.

(** The local cache of the disconnection can be flushed, and the trackers are
    what they were. *)
Lemma flush_disconnect : exists g', Flush dl g = Some g' /\ forall o, trk o g' = trk o g0.
Proof.
  pose proof disconnect_undo_local as Hc. destruct (flush_before_unpay _ Hc) as [Ht Hl]. cbn [fl_g] in Ht, Hl. unfold Flush. cbv zeta.
  pose proof (ul_rest _ Hc) as Hr. injection Hr as _ R2 R3 R4 R5.
  unfold flush_add_confirm. rewrite R2, out_items_empty. cbn [try_foldl foldl mbind option_bind]. set (s7 := flush_undo_confirm dl _) in *.
  assert (flush_update_confirm dl s7 = s7) as -> by (unfold flush_update_confirm; by rewrite R3, out_items_empty).
  assert (flush_expire dl s7 = s7) as -> by (unfold flush_expire; by rewrite R4, out_elements_empty).
  unfold flush_paid. rewrite R5, int_items_empty. cbn [try_foldl foldl mbind option_bind].
  assert (Htu : forall o, trk o (fl_g s7) = (mapStartTxTracker g0 !! o, mapStartTxDOSTracker g0 !! o, still_paid o <$> mapConfirmedFluxnodeData g0 !! o))
    by (intros o; rewrite Ht; by apply undone_trk).
  destruct (flush_undo_paid_spec dl s7) as (s8 & -> & Ht8).
  - intros t Htt. rewrite Hl. destruct (ok_lists _ _ _ Hok t Htt) as (l & El & Hlok). exists l. split; [done|]. intros E.
    by rewrite (lo_set _ _ _ _ Hlok), E.
  - intros o d Hd. pose proof (f_equal snd (Htu o)) as E. unfold trk in E. cbn [snd] in E. rewrite Hd in E.
    destruct (mapConfirmedFluxnodeData g0 !! o) as [d0|] eqn:Ed; [|done]. injection E as ->.
    destruct (ok_conf _ _ _ Hok0 o d0 Ed) as [(_ & Hk & Hv) _]. rewrite <- Hk in Hv. unfold still_paid. destruct (paid_at tier_of local o); [case_decide|]; done.
  - cbn [mbind option_bind]. eexists. split; [done|]. intros o. rewrite flush_lists_trk, Ht8, Htu, (ul_paid _ Hc). unfold trk. cbn [fst snd].
    destruct (mapConfirmedFluxnodeData g0 !! o) as [d0|] eqn:Ed; [|by destruct (paid_at tier_of local o)].
    unfold still_paid. cbn. destruct (paid_at tier_of local o); cbn; [|done]. destruct (decide _); by destruct d0.
Qed.

End roundtrip.
