(* ===== verification/CsnodeAgree.v ===== *)
(** Nodes agree on payouts when they hold the same confirmed nodes, and a restart
    rebuilds the registry from the database. *)

From stdpp Require Import gmap sorting strings list.
From Stdlib Require Import ZArith Lia.
From S2P Require Import Prelude Params Uint256 Serialize Transaction Platform Csnode CsnodeBlock.
From S2P Require Import CsnodeQueue CsnodeFlush CsnodeConnect CsnodeCollect CsnodeAccept CsnodeUndo.

(** * Agreement *)

Section agree.
Context `{Crypto} (tier_of : COutPoint -> Z) (p2shKeys : list (string * Z)) (script_hash : bytes -> bytes)
  (p2shDestination : COutPoint -> option CTxDestination).

(** Nodes whose outpoints hold 256-bit hashes. *)
Definition outs_wf (g : FluxnodeCache) : Prop := forall o d, mapConfirmedFluxnodeData g !! o = Some d -> uint256_ok (op_hash o).

Lemma ld_le_antisym a b : ld_le a b -> ld_le b a -> uint256_ok (op_hash (ld_out a)) -> uint256_ok (op_hash (ld_out b)) -> ld_out a = ld_out b.
Proof.
  unfold ld_le. rewrite !ld_lt_key. intros H1 H2 Ha Hb.
  assert (E : ld_key b = ld_key a) by (apply memcmp_eq; [by rewrite !length_ld_key|done|done]).
  apply (f_equal (drop 2)) in E. unfold ld_key in E. cbn [drop] in E. rewrite !drop_0 in E. apply out_lt_total; [done|done|..]; rewrite out_lt_key, E; apply memcmp_irrefl.
Qed.

(** One node is the oldest of its tier. *)
Lemma oldest_unique h g t o d o' d' :
  csnode_ok tier_of h g -> outs_wf g -> oldest g t o d -> oldest g t o' d' -> o = o' /\ d = d'.
Proof.
  intros Hok Hwf (Hd & Ht & Hmin) (Hd' & Ht' & Hmin'). destruct (ok_conf _ _ _ Hok o d Hd) as [(Hk & _) _]. destruct (ok_conf _ _ _ Hok o' d' Hd') as [(Hk' & _) _].
  assert (E : ld_out (list_data d) = ld_out (list_data d')).
  { apply ld_le_antisym; [by apply (Hmin o' d')|by apply (Hmin' o d)|cbn; rewrite Hk; by eapply Hwf|cbn; rewrite Hk'; by eapply Hwf]. }
  cbn in E. assert (o = o') as -> by congruence. split; [done|congruence].
Qed.

Lemma next_payment_agree h g g' t rebuild :
  csnode_ok tier_of h g -> csnode_ok tier_of h g' -> mapConfirmedFluxnodeData g' = mapConfirmedFluxnodeData g -> outs_wf g -> t ∈ tiers ->
  (GetNextPayment p2shKeys script_hash p2shDestination t rebuild g).1 = (GetNextPayment p2shKeys script_hash p2shDestination t rebuild g').1.
Proof.
  intros Hok Hok' Ec Hwf Ht.
  destruct (get_next_payment_spec tier_of p2shKeys script_hash p2shDestination t rebuild h g Hok Ht) as (_ & _ & l & _ & _ & Hr).
  destruct (get_next_payment_spec tier_of p2shKeys script_hash p2shDestination t rebuild h g' Hok' Ht) as (_ & _ & l' & _ & _ & Hr').
  assert (Hold : forall o d, oldest g' t o d -> oldest g t o d) by (intros o d; unfold oldest; by rewrite Ec).
  destruct Hr as [(o & d & rest & Ho & -> & _)|[-> Hno]], Hr' as [(o' & d' & rest' & Ho' & -> & _)|[-> Hno']]; [| | |done].
  - apply Hold in Ho'. by destruct (oldest_unique h g t o d o' d' Hok Hwf Ho Ho') as [-> ->].
  - destruct Ho as (Hd & Hdt & _). rewrite <- Ec in Hd. by destruct (Hno' _ _ Hd).
  - apply Hold in Ho' as (Hd & Hdt & _). by destruct (Hno _ _ Hd).
Qed.

Lemma gather_agree v h g g' :
  csnode_ok tier_of h g -> csnode_ok tier_of h g' -> mapConfirmedFluxnodeData g' = mapConfirmedFluxnodeData g -> outs_wf g ->
  (gather_payouts p2shKeys script_hash p2shDestination v g).1 = (gather_payouts p2shKeys script_hash p2shDestination v g').1.
Proof.
  intros Hok Hok' Ec Hwf. unfold gather_payouts.
  enough (Hgen : forall l infos g g', (forall t, t ∈ l -> t ∈ tiers) -> csnode_ok tier_of h g -> csnode_ok tier_of h g' ->
    mapConfirmedFluxnodeData g' = mapConfirmedFluxnodeData g -> outs_wf g ->
    (foldl (fun '(infos, g) t => match GetNextPayment p2shKeys script_hash p2shDestination t false g with
       | (Some (dest, out), g') => (infos ++ [mkFluxnodePayoutInfo t dest out (GetFluxnodeSubsidy v t)], g') | (None, g') => (infos, g') end) (infos, g) l).1 =
    (foldl (fun '(infos, g) t => match GetNextPayment p2shKeys script_hash p2shDestination t false g with
       | (Some (dest, out), g') => (infos ++ [mkFluxnodePayoutInfo t dest out (GetFluxnodeSubsidy v t)], g') | (None, g') => (infos, g') end) (infos, g') l).1)
    by (by apply Hgen).
  clear. induction l as [|t l IH]; intros infos g g' Hl Hok Hok' Ec Hwf; [done|]. cbn [foldl].
  assert (Ht : t ∈ tiers) by (apply Hl; left). pose proof (next_payment_agree h g g' t false Hok Hok' Ec Hwf Ht) as E.
  pose proof (get_next_payment_spec tier_of p2shKeys script_hash p2shDestination t false h g Hok Ht) as Hn.
  pose proof (get_next_payment_spec tier_of p2shKeys script_hash p2shDestination t false h g' Hok' Ht) as Hn'.
  pose proof (next_result_ok tier_of _ _ _ _ _ _ _ _ Hok Ht Hn) as Hok1. pose proof (next_result_ok tier_of _ _ _ _ _ _ _ _ Hok' Ht Hn') as Hok1'.
  destruct Hn as ((_ & _ & E1) & _), Hn' as ((_ & _ & E1') & _).
  destruct (GetNextPayment _ _ _ t false g) as [r g1], (GetNextPayment _ _ _ t false g') as [r' g1']. cbn [fst snd] in *. subst r'.
  destruct r as [[dest out]|]; (apply IH; [intros t' Ht'; apply Hl; by right|done|done|congruence|]); intros o d; rewrite E1; apply Hwf.
Qed.

End agree.

(** * Restart *)

(** What is tracked at an outpoint, in the order [DumpFluxnodeCache] looks. *)
Definition tracked_record (t : Tracked) : option FluxnodeCacheData :=
  match t with
  | (Some d, _, _) | (None, Some d, _) | (None, None, Some d) => Some d
  | (None, None, None) => None
  end.

Section restart.
Context (tier_of : COutPoint -> Z) (h : Z) (g : FluxnodeCache).
Hypothesis (Hok : csnode_ok tier_of h g).

(** The database has what is tracked at every outpoint not marked as changed. *)
Definition db_current (db : gmap COutPoint FluxnodeCacheData) : Prop :=
  forall o, o ∉ setDirtyOutPoint g -> db !! o = tracked_record (trk o g).

Lemma record_keyed o d : tracked_record (trk o g) = Some d -> fn_collateralIn d = o.
Proof.
  destruct (csnode_ok_trk _ _ _ o Hok) as [|d' Hk|d' Hk|d' Hk]; cbn; intros [= <-]; by destruct Hk.
Qed.

Lemma dump_lookup db o : db_current db -> DumpFluxnodeCache g db !! o = tracked_record (trk o g).
Proof.
  intros Hdb. unfold DumpFluxnodeCache.
  pose (Inv := fun (pre : list COutPoint) (db' : gmap COutPoint FluxnodeCacheData) => db' !! o = if decide (o ∈ pre) then tracked_record (trk o g) else db !! o).
  assert (Hi : Inv (out_elements (setDirtyOutPoint g)) (DumpFluxnodeCache g db)).
  { apply (foldl_ind Inv); unfold Inv; [done|]. intros pre out post db' _ Hi.
    set (db1 := match mapStartTxTracker g !! out with Some _ => _ | None => _ end).
    assert (E : db1 !! o = if decide (out = o) then tracked_record (trk o g) else db' !! o).
    { pose proof (record_keyed out) as Hk. unfold db1, trk in *. destruct (decide (out = o)) as [->|Hne].
      - destruct (mapStartTxTracker g !! o) as [d|]; [|destruct (mapStartTxDOSTracker g !! o) as [d|]; [|destruct (mapConfirmedFluxnodeData g !! o) as [d|]]]; cbn in *;
          rewrite ?lookup_delete_eq; [rewrite (Hk d eq_refl); by rewrite lookup_insert_eq..|done].
      - destruct (mapStartTxTracker g !! out) as [d|]; [|destruct (mapStartTxDOSTracker g !! out) as [d|]; [|destruct (mapConfirmedFluxnodeData g !! out) as [d|]]]; cbn in *;
          [rewrite (Hk d eq_refl); by rewrite lookup_insert_ne..|by rewrite lookup_delete_ne]. }
    rewrite E, Hi. destruct (decide (out = o)) as [->|Hne].
    - by rewrite decide_True by (apply elem_of_app; right; left).
    - apply decide_ext. rewrite elem_of_app, list_elem_of_singleton. naive_solver. }
  unfold Inv in Hi. unfold DumpFluxnodeCache in Hi. rewrite Hi. case_decide as Hin; [done|]. apply Hdb. by rewrite elem_of_out_elements in Hin.
Qed.

(** The state when the records of [pre] have been loaded. *)
Record loaded (pre : list (COutPoint * FluxnodeCacheData)) (c : FluxnodeCache) : Prop := {
  lo_trk : forall o, trk o c = if decide (o ∈ pre.*1) then trk o g else (None, None, None);
  lo_lists : forall t, t ∈ tiers -> exists l, mapFluxnodeList c !! t = Some l /\ list_raw tier_of t l /\
    forall e, e ∈ listConfirmedFluxnodes l <-> exists o d, o ∈ pre.*1 /\ mapConfirmedFluxnodeData g !! o = Some d /\ fn_nTier d = t /\ e = list_data d;
}.

Lemma loaded_nothing : loaded [] (InitMapFluxnodeList emptyFluxnodeCache).
Proof.
  split; [done|]. intros t Ht. exists (mkFluxnodeList ∅ []). split.
  - unfold tiers in Ht. repeat (apply elem_of_cons in Ht as [->|Ht]; [done|]). by apply not_elem_of_nil in Ht.
  - split; [split; [constructor|done|constructor]|]. cbn. intros e. split; [intros He; by apply not_elem_of_nil in He|].
    intros (o & d & Ho & _). by apply not_elem_of_nil in Ho.
Qed.
Lemma decide_snoc {T} (pre : list (COutPoint * FluxnodeCacheData)) k d o (x y : T) :
  k <> o -> (if decide (o ∈ pre.*1) then x else y) = if decide (o ∈ (pre ++ [(k, d)]).*1) then x else y.
Proof. intros Hne. apply decide_ext. rewrite fmap_app, elem_of_app. cbn. rewrite list_elem_of_singleton. naive_solver. Qed.

Lemma elem_snoc (pre : list (COutPoint * FluxnodeCacheData)) k d o : o ∈ (pre ++ [(k, d)]).*1 <-> o ∈ pre.*1 \/ o = k.
Proof. rewrite fmap_app, elem_of_app. cbn. by rewrite list_elem_of_singleton. Qed.

(** A record that is not a confirmed node's leaves the lists. *)
Lemma loaded_unconfirmed pre k d c c' :
  loaded pre c -> mapFluxnodeList c' = mapFluxnodeList c -> mapConfirmedFluxnodeData g !! k = None ->
  (forall o, trk o c' = if decide (k = o) then trk o g else trk o c) -> loaded (pre ++ [(k, d)]) c'.
Proof.
  intros [Ht Hl] El Hc Hk. split.
  - intros o. rewrite Hk. destruct (decide (k = o)) as [->|Hne]; [by rewrite decide_True by (apply elem_snoc; by right)|]. rewrite Ht. by apply decide_snoc.
  - intros t Htt. destruct (Hl t Htt) as (l & E & Hraw & Hin). exists l. rewrite El. split; [done|]. split; [done|]. intros e. rewrite Hin.
    setoid_rewrite elem_snoc. split; intros (o & d' & Ho & Hd' & Hrest); exists o, d'; [by auto|]. destruct Ho as [Ho| ->]; [done|congruence].
Qed.

Lemma loaded_confirmed pre k d c :
  loaded pre c -> mapConfirmedFluxnodeData g !! k = Some d -> trk k g = (None, None, Some d) -> k ∉ pre.*1 ->
  loaded (pre ++ [(k, d)]) (InsertIntoList d (c <| mapConfirmedFluxnodeData ::= <[fn_collateralIn d := d]> |>)).
Proof.
  intros [Ht Hl] Hd Hk Hno. destruct (ok_conf _ _ _ Hok k d Hd) as [(Hkk & Hkt & Hkv) _]. unfold InsertIntoList.
  rewrite tiers_valid by congruence. split.
  - intros o. destruct (decide (k = o)) as [->|Hne].
    + rewrite decide_True by (apply elem_snoc; by right). rewrite Hk. pose proof (Ht o) as E. rewrite decide_False in E by done.
      unfold trk in *. cbn. rewrite Hkk, lookup_insert_eq. congruence.
    + rewrite <- (decide_snoc pre k d o _ _ Hne), <- Ht. unfold trk. cbn. by rewrite Hkk, lookup_insert_ne.
  - intros t Htt. destruct (Hl t Htt) as (l & E & Hraw & Hin). cbn. destruct (decide (fn_nTier d = t)) as [<-|Hne].
    + rewrite lookup_alter_eq, E. cbn. eexists. split; [done|]. split.
      * apply insert_raw; [done|congruence|]. intros (e & Eo & He)%list_elem_of_fmap. apply Hin in He as (o & d' & Ho & Hd' & _ & ->).
        cbn in Eo. destruct (ok_conf _ _ _ Hok o d' Hd') as [(Hk' & _) _]. congruence.
      * intros e. cbn. rewrite elem_of_cons, Hin. setoid_rewrite elem_snoc. split.
        -- intros [->|(o & d' & ? & ? & ?)]; [exists k, d; auto|exists o, d'; auto].
        -- intros (o & d' & [Ho| ->] & Hd' & Hrest); [right; exists o, d'; auto|]. left. destruct Hrest as [_ ->]. congruence.
    + rewrite lookup_alter_ne by done. exists l. split; [done|]. split; [done|]. intros e. rewrite Hin. setoid_rewrite elem_snoc.
      split; intros (o & d' & Ho & Hd' & Ht' & He); exists o, d'; [by auto|]. destruct Ho as [Ho| ->]; [done|]. congruence.
Qed.

Lemma loaded_step pre k d c : loaded pre c -> tracked_record (trk k g) = Some d -> k ∉ pre.*1 -> loaded (pre ++ [(k, d)]) (LoadData d c).
Proof.
  intros Hl Hr Hno. pose proof (record_keyed _ _ Hr) as Hk. unfold LoadData.
  assert (Hnone : trk k c = (None, None, None)) by (rewrite (lo_trk _ _ Hl); by rewrite decide_False).
  pose proof (csnode_ok_trk _ _ _ k Hok) as Hok_k. remember (trk k g) as t eqn:Et.
  destruct Hok_k as [|d' Hkd (Hst & _) _|d' Hkd (Hst & _) _|d' Hkd Hst _ _]; cbn in Hr; [done|..]; injection Hr as ->; rewrite Hst; cbn [Z.eqb Pos.eqb
    FLUXNODE_TX_STARTED FLUXNODE_TX_DOS_PROTECTION FLUXNODE_TX_CONFIRMED].
  - eapply loaded_unconfirmed; [exact Hl|done|unfold trk in Et; congruence|]. intros o. unfold trk in *. cbn. rewrite Hk, lookup_insert.
    destruct (decide (k = o)) as [<-|]; [congruence|done].
  - eapply loaded_unconfirmed; [exact Hl|done|unfold trk in Et; congruence|]. intros o. unfold trk in *. cbn. rewrite Hk, lookup_insert.
    destruct (decide (k = o)) as [<-|]; [congruence|done].
  - apply loaded_confirmed; [done|unfold trk in Et; congruence|done|done].
Qed.

Lemma sort_all_lists c t :
  t ∈ tiers -> mapFluxnodeList (foldl (fun c t => SortList t c) c tiers) !! t = sort_entries <$> mapFluxnodeList c !! t.
Proof.
  intros Ht. rewrite (alter_loop _ id (fun t l => if IsTierValid t then sort_entries l else l)).
  2:{ intros c' t'. cbv beta. unfold SortList, id. destruct (IsTierValid t'); cbn; [done|by rewrite alter_id]. }
  assert (base.filter (fun a => id a = t) tiers = [t]) as -> by (etransitivity; [apply (filter_one t tiers NoDup_tiers)|by rewrite decide_True]).
  cbn [foldl]. by rewrite tiers_valid.
Qed.

(** After a restart the trackers and the invariant are as before. *)
Lemma restart_ok db :
  db_current db -> let g' := LoadFluxnodeCacheData (DumpFluxnodeCache g db) in csnode_ok tier_of h g' /\ same_trackers g g'.
Proof.
  intros Hdb. cbv zeta. unfold LoadFluxnodeCacheData. set (items := merge_sort db_le (map_to_list (DumpFluxnodeCache g db))).
  assert (Hperm : items ≡ₚ map_to_list (DumpFluxnodeCache g db)) by apply merge_sort_Permutation.
  assert (Hin : forall o d, (o, d) ∈ items <-> tracked_record (trk o g) = Some d).
  { intros o d. rewrite Hperm, elem_of_map_to_list. by rewrite dump_lookup. }
  assert (Hnd : NoDup items.*1) by (rewrite Hperm; apply NoDup_fst_map_to_list).
  set (c := foldl (fun c kv => LoadData kv.2 c) _ items).
  assert (Hl : loaded items c).
  { apply (foldl_ind loaded); [apply loaded_nothing|]. intros pre [k d] post c' El Hc. cbn [snd]. apply loaded_step; [done|apply Hin; rewrite El; apply elem_of_app; right; left|].
    rewrite El, fmap_app in Hnd. apply NoDup_app in Hnd as (_ & Hnd & _). intros Hk. apply (Hnd k Hk). cbn. left. }
  set (c' := foldl (fun c t => SortList t c) c tiers).
  assert (Ht : forall o, trk o c' = trk o g).
  { intros o. unfold c'. rewrite foldl_trk by (intros; apply SortList_trk). rewrite (lo_trk _ _ Hl). case_decide as Ho; [done|].
    assert (Hr : tracked_record (trk o g) = None).
    { destruct (tracked_record (trk o g)) as [d|] eqn:E; [|done]. exfalso. apply Ho. apply Hin in E. by apply (list_elem_of_fmap_2 fst) in E. }
    pose proof (csnode_ok_trk _ _ _ o Hok) as Hk. by destruct Hk. }
  assert (Hst : same_trackers g c').
  { repeat split; apply map_eq; intros o; specialize (Ht o); unfold trk in Ht; congruence. }
  split; [|done]. apply trk_csnode_ok; [intros o; rewrite Ht; by apply csnode_ok_trk|]. intros t Htt.
  destruct (lo_lists _ _ Hl t Htt) as (l & El & Hraw & Hmem). exists (sort_entries l).
  assert (El' : mapFluxnodeList c' !! t = Some (sort_entries l)) by (unfold c'; by rewrite sort_all_lists, El).
  split; [exact El'|]. clear El'. clearbody c'.
  pose proof (sort_raw tier_of t l Hraw) as [Hnd' Hset' Htier']. destruct Hst as (_ & _ & ->). split; [done|done|apply ld_sort_sorted| |done].
  intros o d Hd Hdt. cbn. rewrite ld_sort_perm. apply Hmem. exists o, d. split; [|done].
  assert (Hr : tracked_record (trk o g) = Some d).
  { pose proof (csnode_ok_trk _ _ _ o Hok) as Hk. unfold trk in *. rewrite Hd in *. by inversion Hk. }
  apply Hin in Hr. by apply (list_elem_of_fmap_2 fst) in Hr.
Qed.

End restart.
