(* ===== verification/CsnodeProps.v ===== *)
(** What the csnode layer promises: the invariant of the registry over accepted
    blocks, the payment queue, disconnection, restarts and payouts. *)

From stdpp Require Import gmap sorting strings list.
From Stdlib Require Import ZArith Lia.
From S2P Require Import Prelude Params Uint256 Transaction Platform Csnode CsnodeBlock.
From S2P Require Import CsnodeQueue CsnodeFlush CsnodeConnect CsnodeCollect CsnodeAccept CsnodeRank CsnodeUndo CsnodeAgree.

(** * A small network for the witnesses

    Keys and destinations that always match, and every output worth a PROTON
    collateral. *)

#[local] Instance toy_crypto : Crypto := {|
  RecoverCompact _ _ := Some [];
  GetID _ := [1];
  OPoIVRFVerify _ _ _ := None;
  DecodeDestination _ := CNoDestination;
|}.

Definition coin : CTxOut := mkCTxOut (V1_CSNODE_COLLAT_PROTON * COIN) [].
Definition all_proton (_ : COutPoint) : Z := PROTON.
Definition toy_views (_ : nat) (_ : COutPoint) : option (CTxOut * Z) := Some (coin, 1).

Definition ToyBlock (h : Z) : list CTransaction -> FluxnodeCache -> Verdict * (FluxnodeCache * CFluxnodeTxBlockUndo * FluxnodeCache) :=
  ConnectBlockFluxnode regTestParams [] [("", 0)] id (fun _ => Some []) (fun _ => true) (fun _ => Some (CKeyID [1])) (fun _ => "") false
    (fun _ => Some (Some coin)) 1000 (h - 1) (fun _ => None) h toy_views.

Definition ToyTip (h : Z) : list CTransaction -> FluxnodeCache -> option (FluxnodeCache * CFluxnodeTxBlockUndo) :=
  ConnectTipFluxnode regTestParams [] [("", 0)] id (fun _ => Some []) (fun _ => true) (fun _ => Some (CKeyID [1])) (fun _ => "") false
    (fun _ => Some (Some coin)) 1000 (h - 1) (fun _ => None) h toy_views.

Definition nodeA : COutPoint := mkCOutPoint 1 0.
Definition nodeC : COutPoint := mkCOutPoint 2 0.

Definition coinbase_tx (outs : list CTxOut) : CTransaction :=
  emptyTx <| nVersion := 4 |> <| vin := [mkCTxIn COutPoint_null [] 0] |> <| vout := outs |>.
Definition start_tx (o : COutPoint) : CTransaction :=
  emptyTx <| nVersion := FLUXNODE_TX_VERSION |> <| nType := FLUXNODE_START_TX_TYPE |> <| collateralIn := o |> <| collateralPubkey := [2; 2] |>.
Definition confirm_tx (o : COutPoint) : CTransaction :=
  emptyTx <| nVersion := FLUXNODE_TX_VERSION |> <| nType := FLUXNODE_CONFIRM_TX_TYPE |> <| collateralIn := o |> <| nUpdateType := INITIAL_CONFIRM |>
    <| benchmarkTier := PROTON |>.
Definition spend_tx (o : COutPoint) : CTransaction := emptyTx <| nVersion := 4 |> <| vin := [mkCTxIn o [] 0] |>.

(** What a block owes the PROTON node. *)
Definition pay_proton : CTxOut :=
  mkCTxOut (GetFluxnodeSubsidy (GetBlockSubsidy 1002 regTestParams) PROTON) (GetScriptForDestination (CKeyID [1])).

Definition init_cache : FluxnodeCache := InitMapFluxnodeList emptyFluxnodeCache.
Definition block1000 : list CTransaction := [coinbase_tx []; start_tx nodeA; start_tx nodeC].
Definition block1001 : list CTransaction := [coinbase_tx []; confirm_tx nodeA; confirm_tx nodeC].
Definition block1002 : list CTransaction := [coinbase_tx [pay_proton]].

Definition after (h : Z) (vtx : list CTransaction) (g : FluxnodeCache) : FluxnodeCache := default g (fst <$> ToyTip h vtx g).

(** The registry of a fresh node satisfies the invariant. *)
Lemma init_ok tier_of h : csnode_ok tier_of h init_cache.
Proof.
  apply trk_csnode_ok; [constructor|]. intros t Ht. exists (mkFluxnodeList ∅ []). split.
  - unfold tiers in Ht. repeat (apply elem_of_cons in Ht as [->|Ht]; [done|]). by apply not_elem_of_nil in Ht.
  - split; [constructor|done|constructor|done|constructor].
Qed.

Lemma toy_views_tiers i : tiers_of_view all_proton (toy_views i).
Proof. intros o out height t [= <- <-] E. vm_compute in E. by injection E. Qed.

(** * The registry *)

Section blocks.
Context `{Crypto} (tier_of : COutPoint -> Z) (params : Params) (p2shKeys benchmarkKeys : list (string * Z)) (script_hash : bytes -> bytes)
  (ListPubKeysFromMultiSigScript : bytes -> option (list bytes)) (IsMultiSigRedeemScript : bytes -> bool)
  (ExtractDestination : bytes -> option CTxDestination) (EncodeDestination : CTxDestination -> string)
  (fIsVerifying : bool) (tipCoins : COutPoint -> option (option CTxOut)) (startPayments tip : Z)
  (p2shDestination : COutPoint -> option CTxDestination).

Abbreviation ConnectBlock := (ConnectBlockFluxnode params p2shKeys benchmarkKeys script_hash ListPubKeysFromMultiSigScript IsMultiSigRedeemScript
  ExtractDestination EncodeDestination fIsVerifying tipCoins startPayments tip p2shDestination).
Abbreviation ConnectTip := (ConnectTipFluxnode params p2shKeys benchmarkKeys script_hash ListPubKeysFromMultiSigScript IsMultiSigRedeemScript
  ExtractDestination EncodeDestination fIsVerifying tipCoins startPayments tip p2shDestination).

Lemma connect_tip_invariant (h : Z) (views : nat -> COutPoint -> option (CTxOut * Z)) (vtx : list CTransaction) (g : FluxnodeCache) :
  (forall i, tiers_of_view tier_of (views i)) -> Forall (fun tx => starts tx -> ip tx = "") vtx -> 0 < h -> csnode_ok tier_of (h - 1) g ->
  (ConnectBlock h views vtx g).1 = Accept -> exists g' u, ConnectTip h views vtx g = Some (g', u) /\ csnode_ok tier_of h g'.
Proof.
  intros Hv Hw Hh Hok Ha. destruct (ConnectBlock h views vtx g) as [v [[local u] g1]] eqn:E. cbn in Ha. subst v.
  destruct (connect_tip_ok tier_of _ _ _ _ _ _ _ _ _ _ _ _ _ h views vtx Hv Hw g g1 local u Hh Hok E) as (g' & infos & E' & Hok' & _). eauto.
Qed.

(** C2. The registry's invariant: in a cache that satisfies it (the three
    trackers disjoint, their records well-formed and of the right age, every
    payment list duplicate-free, sorted, and holding each confirmed node of its
    tier) a block whose csnode transactions are accepted never makes [Flush]
    throw, and the cache after it satisfies the invariant at the block's
    height. *)
Theorem csnode_block_invariant (h : Z) (views : nat -> COutPoint -> option (CTxOut * Z)) (vtx : list CTransaction) (g : FluxnodeCache) :
  (forall i, tiers_of_view tier_of (views i)) -> Forall (fun tx => starts tx -> ip tx = "") vtx -> 0 < h -> csnode_ok tier_of (h - 1) g ->
  (ConnectBlock h views vtx g).1 = Accept -> exists g' u, ConnectTip h views vtx g = Some (g', u) /\ csnode_ok tier_of h g'.
Proof. apply connect_tip_invariant. Qed.

(** C16. Disconnecting the block just connected, with the undo data it recorded,
    restores the three trackers exactly: started, banned and confirmed nodes,
    with their heights, addresses and payments. *)
Theorem csnode_disconnect_restores (h : Z) (views : nat -> COutPoint -> option (CTxOut * Z)) (vtx : list CTransaction) (g g' : FluxnodeCache)
    (u : CFluxnodeTxBlockUndo) :
  (forall i, tiers_of_view tier_of (views i)) -> Forall (fun tx => starts tx -> ip tx = "") vtx -> 0 < h -> csnode_ok tier_of (h - 1) g -> outs_wf g ->
  ConnectTip h views vtx g = Some (g', u) -> exists g'', DisconnectTipFluxnode h vtx u g' = Some g'' /\ same_trackers g g''.
Proof.
  intros Hv Hw Hh Hok Hwf E. pose proof E as E0. unfold ConnectTipFluxnode in E.
  destruct (ConnectBlock h views vtx g) as [v [[local u1] g1]] eqn:Eb. destruct v; [|done].
  destruct (connect_tip_ok tier_of _ _ _ _ _ _ _ _ _ _ _ _ _ h views vtx Hv Hw g g1 local u1 Hh Hok Eb) as (g2 & infos & E1 & Hok' & [Hg Hl Hu Hs Hc _] & Htr).
  rewrite E1 in E0. injection E0 as <- <-. pose proof (ga_ok _ _ _ _ _ _ _ _ _ Hg) as Hok1. pose proof (ga_trackers _ _ _ _ _ _ _ _ _ Hg) as Hst.
  cbn [snd] in Hok1, Hst. assert (Htr1 : forall o, transition tier_of h local o (trk o g1) (trk o g2)) by (intros o; rewrite (same_trackers_trk _ _ o Hst); apply Htr).
  assert (Hwf1 : forall o d, mapConfirmedFluxnodeData g1 !! o = Some d -> uint256_ok (op_hash o)) by (destruct Hst as (_ & _ & Ec); intros o d; rewrite Ec; apply Hwf).
  destruct (flush_disconnect tier_of h g1 local u1 vtx g2 Hok1 Hl Hu Hwf1 Hs Hc Hok' Htr1) as (g3 & Ef & Ht).
  exists g3. split; [exact Ef|]. assert (Ht' : forall o, trk o g3 = trk o g) by (intros o; rewrite Ht; by apply same_trackers_trk).
  repeat split; apply map_eq; intros o; specialize (Ht' o); unfold trk in Ht'; congruence.
Qed.

End blocks.

Lemma toy_wire vtx : forallb (fun tx => bool_decide (ip tx = "")) vtx = true -> Forall (fun tx => starts tx -> ip tx = "") vtx.
Proof.
  rewrite forallb_forall. intros Hb. apply Forall_forall. intros tx Hi _. apply list_elem_of_In, Hb in Hi. by apply bool_decide_eq_true in Hi.
Qed.

Lemma csnode_block_invariant_witness :
  exists g' u, ToyTip 1000 block1000 init_cache = Some (g', u) /\ csnode_ok all_proton 1000 g'.
Proof.
  apply csnode_block_invariant; [exact toy_views_tiers|by apply toy_wire|lia|apply init_ok|vm_compute; reflexivity].
Defined.

Definition cache1000 : FluxnodeCache := after 1000 block1000 init_cache.
Definition cache1001 : FluxnodeCache := after 1001 block1001 cache1000.

Lemma after_ok h vtx g :
  0 < h -> csnode_ok all_proton (h - 1) g -> (ToyBlock h vtx g).1 = Accept -> forallb (fun tx => bool_decide (ip tx = "")) vtx = true ->
  csnode_ok all_proton h (after h vtx g) /\ exists u, ToyTip h vtx g = Some (after h vtx g, u).
Proof.
  intros Hh Hok Ha Hw. destruct (connect_tip_invariant all_proton regTestParams [] [("", 0)] id (fun _ => Some []) (fun _ => true)
    (fun _ => Some (CKeyID [1])) (fun _ => "") false (fun _ => Some (Some coin)) 1000 (h - 1) (fun _ => None) h toy_views vtx g
    toy_views_tiers (toy_wire _ Hw) Hh Hok Ha) as (g' & u & E & Hok').
  assert (Ea : after h vtx g = g') by (unfold after, ToyTip; by rewrite E). rewrite Ea. split; [done|]. by exists u.
Qed.

Lemma cache1000_ok : csnode_ok all_proton 1000 cache1000.
Proof. apply after_ok; [lia|apply init_ok|vm_compute; reflexivity|reflexivity]. Qed.

Lemma cache1001_ok : csnode_ok all_proton 1001 cache1001.
Proof. apply after_ok; [lia|apply cache1000_ok|vm_compute; reflexivity|reflexivity]. Qed.

Lemma toy_tip h vtx g : ToyTip h vtx g =
  ConnectTipFluxnode regTestParams [] [("", 0)] id (fun _ => Some []) (fun _ => true) (fun _ => Some (CKeyID [1])) (fun _ => "") false
    (fun _ => Some (Some coin)) 1000 (h - 1) (fun _ => None) h toy_views vtx g.
Proof. reflexivity. Qed.

Lemma cache1001_tip : exists u, ToyTip 1001 block1001 cache1000 = Some (cache1001, u).
Proof. unfold cache1001. apply after_ok; [lia|apply cache1000_ok|vm_compute; reflexivity|reflexivity]. Qed.

Lemma csnode_disconnect_restores_witness :
  exists u g'', ToyTip 1001 block1001 cache1000 = Some (cache1001, u) /\
    DisconnectTipFluxnode 1001 block1001 u cache1001 = Some g'' /\ same_trackers cache1000 g''.
Proof.
  destruct cache1001_tip as [u Hu]. pose proof Hu as Hu'. rewrite toy_tip in Hu'.
  destruct (csnode_disconnect_restores all_proton regTestParams [] [("", 0)] id (fun _ => Some []) (fun _ => true)
    (fun _ => Some (CKeyID [1])) (fun _ => "") false (fun _ => Some (Some coin)) 1000 (1001 - 1) (fun _ => None) 1001 toy_views block1001 cache1000 cache1001 u)
    as (g'' & E & Hst); [exact toy_views_tiers|by apply toy_wire|lia|apply cache1000_ok| |exact Hu'|].
  - intros o d Hd. assert (E : mapConfirmedFluxnodeData cache1000 = ∅) by (vm_compute; reflexivity). by rewrite E in Hd.
  - exists u, g''. split; [exact Hu|]. split; [exact E|exact Hst].
Defined.

(** * The queue *)

(** C14. [GetNextPayment] implements the queue: under the registry's invariant
    it pays, in the tier asked, the confirmed node that was paid (or else
    confirmed) longest ago, and nothing only when the tier has no confirmed
    node or the node's payee cannot be found; it changes the cache only by
    dropping entries of nodes that are no longer confirmed. *)
Theorem next_payment_is_oldest `{Crypto} (tier_of : COutPoint -> Z) (p2shKeys : list (string * Z)) (script_hash : bytes -> bytes)
    (p2shDestination : COutPoint -> option CTxDestination) (h t : Z) (rebuild : bool) (g : FluxnodeCache) :
  csnode_ok tier_of h g -> t ∈ tiers ->
  let r := GetNextPayment p2shKeys script_hash p2shDestination t rebuild g in
  csnode_ok tier_of h r.2 /\ same_trackers g r.2 /\
  match r.1 with
  | Some (dest, o) => exists d, oldest g t o d /\ payee p2shKeys script_hash p2shDestination rebuild o d = Some dest
  | None => forall o d, oldest g t o d -> exists o' d', oldest g t o' d' /\ payee p2shKeys script_hash p2shDestination rebuild o' d' = None
  end.
Proof.
  intros Hok Ht. cbv zeta. pose proof (get_next_payment_spec tier_of p2shKeys script_hash p2shDestination t rebuild h g Hok Ht) as Hn.
  split; [by apply (next_result_ok tier_of p2shKeys script_hash p2shDestination h g rebuild t)|]. destruct Hn as (Hst & _ & l & _ & _ & Hr). split; [done|].
  destruct Hr as [(o & d & rest & Ho & -> & _)|[-> Hno]].
  - destruct (payee _ _ _ rebuild o d) as [dest|] eqn:Ep; cbn; [by exists d|]. intros. by exists o, d.
  - intros o d (Hd & Hdt & _). by destruct (Hno o d Hd).
Qed.

Lemma next_payment_is_oldest_witness :
  exists d, oldest cache1001 PROTON nodeA d /\ payee [] id (fun _ => None) false nodeA d = Some (CKeyID [1]).
Proof.
  pose proof (next_payment_is_oldest all_proton [] id (fun _ => None) 1001 PROTON false cache1001 cache1001_ok ltac:(left)) as (_ & _ & Hr).
  assert (E : (GetNextPayment [] id (fun _ => None) PROTON false cache1001).1 = Some (CKeyID [1], nodeA)) by (vm_compute; reflexivity).
  rewrite E in Hr. exact Hr.
Defined.

(** C17. No confirmed node is starved: in a registry that satisfies the invariant,
    once payments have started, over a run of connected blocks without a
    reorganisation in which the payee of every confirmed node can be derived
    ([blocks_from]), a node that stays confirmed is paid after at most as many
    blocks as there are confirmed nodes of its tier ahead of it in the queue. *)
Theorem csnode_paid_within_rank `{Crypto} (tier_of : COutPoint -> Z) (params : Params) (p2shKeys benchmarkKeys : list (string * Z))
    (script_hash : bytes -> bytes) (ListPubKeysFromMultiSigScript : bytes -> option (list bytes)) (IsMultiSigRedeemScript : bytes -> bool)
    (ExtractDestination : bytes -> option CTxDestination) (EncodeDestination : CTxDestination -> string) (startPayments h : Z)
    (g : FluxnodeCache) (gs : list FluxnodeCache) (o : COutPoint) (d : FluxnodeCacheData) :
  0 <= h -> startPayments <= h + 1 -> csnode_ok tier_of h g ->
  blocks_from tier_of params p2shKeys benchmarkKeys script_hash ListPubKeysFromMultiSigScript IsMultiSigRedeemScript ExtractDestination EncodeDestination
    startPayments h g gs ->
  mapConfirmedFluxnodeData g !! o = Some d -> (forall g', g' ∈ gs -> is_Some (mapConfirmedFluxnodeData g' !! o)) ->
  (size (ahead g o d) < length gs)%nat ->
  exists k g' d', gs !! k = Some g' /\ (k <= size (ahead g o d))%nat /\ mapConfirmedFluxnodeData g' !! o = Some d' /\
    fn_nLastPaidHeight d' = h + Z.of_nat k + 1.
Proof. apply paid_within. Qed.

Definition cache1002 : FluxnodeCache := after 1002 block1002 cache1001.
Definition cache1003 : FluxnodeCache := after 1003 block1002 cache1002.

Lemma cache1002_ok : csnode_ok all_proton 1002 cache1002.
Proof. apply after_ok; [lia|apply cache1001_ok|vm_compute; reflexivity|reflexivity]. Qed.

Lemma toy_payee f o d : is_Some (payee [] id f false o d).
Proof. unfold payee. cbn. destruct (_ =? _); eauto. Qed.

Lemma toy_block_at h vtx g :
  0 < h -> csnode_ok all_proton (h - 1) g -> (ToyBlock h vtx g).1 = Accept -> forallb (fun tx => bool_decide (ip tx = "")) vtx = true ->
  connected_block all_proton regTestParams [] [("", 0)] id (fun _ => Some []) (fun _ => true) (fun _ => Some (CKeyID [1])) (fun _ => "") 1000 h g (after h vtx g).
Proof.
  intros Hh Hok Ha Hw. destruct (after_ok h vtx g Hh Hok Ha Hw) as [_ [u Hu]]. split.
  exists false, (fun _ => Some (Some coin)), (h - 1), (fun _ => None), toy_views, vtx, u.
  split; [exact toy_views_tiers|]. split; [by apply toy_wire|]. split; [|by rewrite <- toy_tip]. intros o d _. apply toy_payee.
Qed.

Lemma toy_blocks_from :
  blocks_from all_proton regTestParams [] [("", 0)] id (fun _ => Some []) (fun _ => true) (fun _ => Some (CKeyID [1])) (fun _ => "") 1000
    1001 cache1001 [cache1002; cache1003].
Proof.
  split; [|split; [|done]].
  - unfold cache1002. apply (toy_block_at 1002); [lia|apply cache1001_ok|vm_compute; reflexivity|reflexivity].
  - unfold cache1003. apply (toy_block_at 1003); [lia|apply cache1002_ok|vm_compute; reflexivity|reflexivity].
Qed.

Definition dataC : FluxnodeCacheData := default null_data (mapConfirmedFluxnodeData cache1001 !! nodeC).

Lemma in_two {A} (P : A -> Prop) (a b : A) : P a -> P b -> forall x, x ∈ [a; b] -> P x.
Proof. intros Ha Hb x Hx. apply elem_of_cons in Hx as [->|Hx]; [done|]. by apply list_elem_of_singleton in Hx as ->. Qed.

Lemma csnode_paid_within_rank_witness :
  exists k g' d', [cache1002; cache1003] !! k = Some g' /\ (k <= 1)%nat /\ mapConfirmedFluxnodeData g' !! nodeC = Some d' /\
    fn_nLastPaidHeight d' = 1001 + Z.of_nat k + 1.
Proof.
  assert (Hd : mapConfirmedFluxnodeData cache1001 !! nodeC = Some dataC) by (vm_compute; reflexivity).
  assert (Hs : size (ahead cache1001 nodeC dataC) = 1%nat) by (vm_compute; reflexivity).
  assert (H2 : is_Some (mapConfirmedFluxnodeData cache1002 !! nodeC)) by (apply (proj1 (bool_decide_eq_true (is_Some _))); vm_compute; reflexivity).
  assert (H3 : is_Some (mapConfirmedFluxnodeData cache1003 !! nodeC)) by (apply (proj1 (bool_decide_eq_true (is_Some _))); vm_compute; reflexivity).
  destruct (csnode_paid_within_rank all_proton regTestParams [] [("", 0)] id (fun _ => Some []) (fun _ => true) (fun _ => Some (CKeyID [1])) (fun _ => "")
    1000 1001 cache1001 [cache1002; cache1003] nodeC dataC) as (k & g' & d' & Hk & Hle & Hd' & Hp);
    [lia|lia|apply cache1001_ok|apply toy_blocks_from|exact Hd| |rewrite Hs; cbn; lia|].
  - exact (in_two (fun g' => is_Some (mapConfirmedFluxnodeData g' !! nodeC)) cache1002 cache1003 H2 H3).
  - rewrite Hs in Hle. exists k, g', d'. split; [exact Hk|]. split; [exact Hle|]. split; [exact Hd'|exact Hp].
Defined.

(** * Agreement between nodes *)

(** A restart is invisible: writing the changed records to an up-to-date
    database and loading it into a fresh cache gives back the three trackers,
    a cache that satisfies the invariant, and the same payouts for the next
    block, whatever entries of gone nodes the old lists still held. *)
Theorem csnode_restart `{Crypto} (tier_of : COutPoint -> Z) (p2shKeys : list (string * Z)) (script_hash : bytes -> bytes)
    (p2shDestination : COutPoint -> option CTxDestination) (h blockValue : Z) (g : FluxnodeCache) (db : gmap COutPoint FluxnodeCacheData) :
  csnode_ok tier_of h g -> outs_wf g -> db_current g db ->
  let g' := LoadFluxnodeCacheData (DumpFluxnodeCache g db) in
  csnode_ok tier_of h g' /\ same_trackers g g' /\
  (gather_payouts p2shKeys script_hash p2shDestination blockValue g').1 = (gather_payouts p2shKeys script_hash p2shDestination blockValue g).1.
Proof.
  intros Hok Hwf Hdb. cbv zeta. destruct (restart_ok tier_of h g Hok db Hdb) as [Hok' Hst]. split; [done|]. split; [done|].
  symmetry. apply (gather_agree tier_of p2shKeys script_hash p2shDestination blockValue h g); [done|done|by destruct Hst as (_ & _ & ?)|done].
Qed.

Lemma toy_outs_wf : outs_wf cache1001.
Proof.
  intros o d Hd. assert (Hdom : dom (mapConfirmedFluxnodeData cache1001) = {[nodeA; nodeC]}) by (vm_compute; reflexivity).
  apply elem_of_dom_2 in Hd. rewrite Hdom in Hd. apply elem_of_union in Hd as [->%elem_of_singleton| ->%elem_of_singleton]; unfold uint256_ok; cbn; lia.
Qed.

Lemma csnode_restart_witness :
  same_trackers cache1001 (LoadFluxnodeCacheData (DumpFluxnodeCache cache1001 ∅)) /\
  map pi_outpoint (gather_payouts [] id (fun _ => None) 75 (LoadFluxnodeCacheData (DumpFluxnodeCache cache1001 ∅))).1 = [nodeA].
Proof.
  destruct (csnode_restart all_proton [] id (fun _ => None) 1001 75 cache1001 ∅ cache1001_ok toy_outs_wf) as (_ & Hst & E).
  - intros o Ho. rewrite lookup_empty. assert (Hd : setDirtyOutPoint cache1001 = {[nodeA; nodeC]}) by (vm_compute; reflexivity).
    rewrite Hd in Ho. assert (H1 : mapStartTxTracker cache1001 = ∅) by (vm_compute; reflexivity). assert (H2 : mapStartTxDOSTracker cache1001 = ∅) by (vm_compute; reflexivity).
    assert (Hdom : dom (mapConfirmedFluxnodeData cache1001) = {[nodeA; nodeC]}) by (vm_compute; reflexivity).
    unfold trk. rewrite H1, H2. rewrite <- Hdom in Ho. apply not_elem_of_dom in Ho. by rewrite Ho.
  - split; [exact Hst|]. rewrite E. vm_compute. reflexivity.
Defined.

(** C18. Nodes agree on payouts, and a template passes: the coinbase built by
    [FillBlockPayeeWithDeterministicPayouts] on one node, with any outputs added
    after it, passes [CheckFluxnodePayout] on every node whose registry holds
    the same confirmed nodes, when both registries satisfy the invariant at the
    height before the block, even when their lists differ in stale entries.  (A
    reorganisation can break the invariant: see [reorg_changes_payee].) *)
Theorem csnode_template_accepted `{Crypto} (tier_of : COutPoint -> Z) (params : Params) (p2shKeys : list (string * Z)) (script_hash : bytes -> bytes)
    (p2shDestination : COutPoint -> option CTxDestination) (h nHeight : Z) (minerScript : bytes) (extra : list CTxOut) (coinbase : CTransaction)
    (local g g' : FluxnodeCache) :
  csnode_ok tier_of h g -> csnode_ok tier_of h g' -> mapConfirmedFluxnodeData g' = mapConfirmedFluxnodeData g -> outs_wf g ->
  vout coinbase = (FillBlockPayeeWithDeterministicPayouts p2shKeys script_hash p2shDestination params nHeight minerScript g).1 ++ extra ->
  (CheckFluxnodePayout p2shKeys script_hash p2shDestination params coinbase nHeight local g').1.1 = true.
Proof.
  intros Hok Hok' Ec Hwf Hv. unfold FillBlockPayeeWithDeterministicPayouts, CheckFluxnodePayout in *.
  pose proof (gather_agree tier_of p2shKeys script_hash p2shDestination (GetBlockSubsidy nHeight params) h g g' Hok Hok' Ec Hwf) as E.
  destruct (gather_payouts _ _ _ _ g) as [infos g1], (gather_payouts _ _ _ _ g') as [infos' g1']. cbn [fst] in *. subst infos'.
  apply forallb_forall. intros info Hi. apply existsb_exists. exists (mkCTxOut (pi_amount info) (GetScriptForDestination (pi_dest info))). split.
  - rewrite Hv. apply in_or_app. left. right. by apply (in_map (fun info => mkCTxOut (pi_amount info) (GetScriptForDestination (pi_dest info)))).
  - cbn. by rewrite bool_decide_eq_true_2, Z.eqb_refl.
Qed.

Lemma coinbase_outs outs : vout (coinbase_tx outs) = outs.
Proof. reflexivity. Qed.

Lemma csnode_template_accepted_witness :
  (CheckFluxnodePayout [] id (fun _ => None) regTestParams
     (coinbase_tx ((FillBlockPayeeWithDeterministicPayouts [] id (fun _ => None) regTestParams 1002 [] cache1001).1 ++ [coin]))
     1002 emptyFluxnodeCache cache1001).1.1 = true.
Proof.
  apply (csnode_template_accepted all_proton regTestParams [] id (fun _ => None) 1001 1002 [] [coin]
    (coinbase_tx ((FillBlockPayeeWithDeterministicPayouts [] id (fun _ => None) regTestParams 1002 [] cache1001).1 ++ [coin])) emptyFluxnodeCache cache1001 cache1001
    cache1001_ok cache1001_ok eq_refl toy_outs_wf (coinbase_outs _)).
Defined.

(** ** The shares *)

Definition shares_ok (s : Z) : bool :=
  forallb (fun t => 0 <=? GetFluxnodeSubsidy s t) tiers
  && (100 * foldr (fun t r => GetFluxnodeSubsidy s t + r) 0 tiers =? 65 * s) && (0 <=? s) && (s <? 2 ^ 62).

Lemma shares_exact s : s ∈ [13020000 * COIN; 0; 3750000000; 150 * COIN; 75 * COIN] -> shares_ok s = true.
Proof. intros Hs. repeat (apply elem_of_cons in Hs as [->|Hs]; [vm_compute; reflexivity|]). by apply not_elem_of_nil in Hs. Qed.

Definition amounts (l : list Z) : Z := foldr Z.add 0 l.

Lemma amounts_app l k : amounts (l ++ k) = amounts l + amounts k.
Proof. induction l as [|x l IH]; cbn; [done|]. unfold amounts in *. lia. Qed.

Lemma amounts_perm l k : l ≡ₚ k -> amounts l = amounts k.
Proof. induction 1; cbn; unfold amounts in *; lia. Qed.

Lemma amounts_nonneg l : Forall (fun x => 0 <= x) l -> 0 <= amounts l.
Proof. induction 1; cbn; unfold amounts in *; lia. Qed.

Lemma amounts_part (l k : list Z) : l ⊆+ k -> Forall (fun x => 0 <= x) k -> 0 <= amounts l <= amounts k.
Proof.
  intros [m Hm]%submseteq_Permutation Hk. rewrite Hm in Hk. apply Forall_app in Hk as [H1 H2]. apply amounts_nonneg in H1, H2.
  rewrite (amounts_perm _ _ Hm), amounts_app. lia.
Qed.

(** The payouts of a block are shares of distinct tiers. *)
Lemma payout_total `{Crypto} tier_of p2shKeys script_hash p2shDestination s h g infos g' :
  csnode_ok tier_of h g -> shares_ok s = true -> gather_payouts p2shKeys script_hash p2shDestination s g = (infos, g') ->
  0 <= amounts (map pi_amount infos) /\ 100 * amounts (map pi_amount infos) <= 65 * s /\ 0 <= s < 2 ^ 62 /\
  Forall (fun x => 0 <= x) (map pi_amount infos).
Proof.
  intros Hok Hs E. pose proof (gather_spec tier_of p2shKeys script_hash p2shDestination s h g Hok) as [_ _ Hin Hnd _]. rewrite E in Hin, Hnd. cbn [fst snd] in *.
  unfold shares_ok in Hs. rewrite !andb_true_iff in Hs. destruct Hs as [[[H1 H2] H3] H4]. apply Z.eqb_eq in H2. rewrite forallb_forall in H1.
  assert (Ha : map pi_amount infos = map (GetFluxnodeSubsidy s) (map pi_tier infos)).
  { rewrite map_map. apply map_ext_in. intros info Hi. apply list_elem_of_In in Hi. by destruct (Hin info Hi) as (_ & (d & _ & _ & ?) & _). }
  assert (Hsub : map pi_tier infos ⊆+ tiers).
  { apply NoDup_submseteq; [done|]. intros t (info & -> & Hi)%list_elem_of_fmap. by destruct (Hin info Hi). }
  assert (Hall : Forall (fun x => 0 <= x) (map (GetFluxnodeSubsidy s) tiers)).
  { apply Forall_forall. intros x (t & -> & Ht)%list_elem_of_fmap. apply list_elem_of_In, H1 in Ht. lia. }
  assert (Htot : amounts (map (GetFluxnodeSubsidy s) tiers) = foldr (fun t r => GetFluxnodeSubsidy s t + r) 0 tiers) by reflexivity.
  pose proof (fmap_submseteq (GetFluxnodeSubsidy s) _ _ Hsub) as Hsub'. pose proof (amounts_part _ _ Hsub' Hall) as Hp.
  change (fmap (GetFluxnodeSubsidy s)) with (map (GetFluxnodeSubsidy s)) in Hp, Hsub'. rewrite <- Ha in Hp, Hsub'.
  split; [lia|]. split; [lia|]. split; [lia|]. destruct (submseteq_Permutation _ _ Hsub') as [m Hm]. rewrite Hm in Hall. by apply Forall_app in Hall as [? _].
Qed.

Lemma miner_value l s : Forall (fun x => 0 <= x) l -> 0 <= s < 2 ^ 62 -> amounts l <= s -> foldl (fun r x => i64 (r - x)) s l = s - amounts l.
Proof.
  revert s. induction l as [|x l IH]; intros s Hl Hs Hle; cbn in *; [lia|]. apply Forall_cons in Hl as [Hx Hl]. pose proof (amounts_nonneg l Hl).
  unfold amounts in *. cbn in *. rewrite i64_small by (unfold in_i64; lia). rewrite IH by (done || lia). lia.
Qed.

(** What a block template pays: past the slow start of each network the
    outputs of [FillBlockPayeeWithDeterministicPayouts] add up to the block
    subsidy, no output is negative, and the miner keeps at least 35% of it,
    although the shares are computed in floating point. *)
Theorem csnode_payouts_within_subsidy `{Crypto} (tier_of : COutPoint -> Z) (params : Params) (p2shKeys : list (string * Z)) (script_hash : bytes -> bytes)
    (p2shDestination : COutPoint -> option CTxDestination) (h nHeight : Z) (minerScript : bytes) (g : FluxnodeCache) :
  csnode_ok tier_of h g -> params ∈ networks -> 0 <= nHeight -> NetworkUpgradeActive nHeight params UPGRADE_OPOI = true ->
  let outs := (FillBlockPayeeWithDeterministicPayouts p2shKeys script_hash p2shDestination params nHeight minerScript g).1 in
  amounts (map nValue outs) = GetBlockSubsidy nHeight params /\ Forall (fun out => 0 <= nValue out) outs /\
  exists miner rest, outs = miner :: rest /\ 35 * GetBlockSubsidy nHeight params <= 100 * nValue miner.
Proof.
  intros Hok Hp Hn Hact. pose proof (shares_exact _ (active_subsidy params nHeight Hp Hn Hact)) as Hs. unfold FillBlockPayeeWithDeterministicPayouts. cbv zeta.
  destruct (gather_payouts _ _ _ _ g) as [infos g'] eqn:E. destruct (payout_total _ _ _ _ _ _ _ _ _ Hok Hs E) as (H0 & H65 & Hr & Hall).
  assert (Hm : foldl (fun r info => i64 (r - pi_amount info)) (GetBlockSubsidy nHeight params) infos = GetBlockSubsidy nHeight params - amounts (map pi_amount infos)).
  { rewrite <- (miner_value (map pi_amount infos)) by (done || lia). by rewrite foldl_fmap. }
  rewrite Hm. cbn [fst map]. split; [|split].
  - rewrite map_map. cbn [nValue]. set (m := map (fun x => pi_amount x) infos). change (map pi_amount infos) with m.
    change (amounts (?x :: m)) with (x + amounts m). lia.
  - constructor; [cbn; lia|]. apply Forall_forall. intros out (info & -> & Hi)%list_elem_of_fmap. cbn. rewrite Forall_forall in Hall. apply Hall.
    by apply (list_elem_of_fmap_2 pi_amount).
  - eexists _, _. split; [done|]. cbn. lia.
Qed.

Lemma csnode_payouts_within_subsidy_witness :
  amounts (map nValue (FillBlockPayeeWithDeterministicPayouts [] id (fun _ => None) regTestParams 1002 [] cache1001).1) = GetBlockSubsidy 1002 regTestParams.
Proof.
  apply (csnode_payouts_within_subsidy all_proton regTestParams [] id (fun _ => None) 1001 1002 [] cache1001 cache1001_ok);
    [do 2 right; left|lia|vm_compute; reflexivity].
Defined.

(** * Reorganisations *)

(** The outpoint the next block pays in the PROTON tier. *)
Definition next_proton (g : FluxnodeCache) : option COutPoint := snd <$> (GetNextPayment [] id (fun _ => None) PROTON false g).1.

(** Two nodes confirmed one block apart, and a payment to the first. *)
Definition two_nodes : FluxnodeCache :=
  after 1003 [coinbase_tx [pay_proton]]
    (after 1002 [coinbase_tx [pay_proton]; confirm_tx nodeC] (after 1001 [coinbase_tx []; confirm_tx nodeA] cache1000)).

Definition branch1004 : list CTransaction := [coinbase_tx [pay_proton]; spend_tx nodeC].
Definition branch1005 : list CTransaction := [coinbase_tx [pay_proton]].

(** The branch is connected and abandoned again. *)
Definition reorganised : option FluxnodeCache :=
  '(g4, u4) ← ToyTip 1004 branch1004 two_nodes;
  '(g5, u5) ← ToyTip 1005 branch1005 g4;
  g4' ← DisconnectTipFluxnode 1005 branch1005 u5 g5;
  DisconnectTipFluxnode 1004 branch1004 u4 g4'.

(** The search from the back finds the entry of a node, if there is one. *)
Lemma last_match_none (out : COutPoint) l : out ∉ (ld_out <$> l) -> last_match out l = None.
Proof. induction l as [|x l IH]; [done|]. cbn. intros [Hx Hl]%not_elem_of_cons. by rewrite IH, bool_decide_eq_false_2. Qed.

Lemma last_match_found (out : COutPoint) (before : list FluxnodeListData) e after :
  NoDup (ld_out <$> before ++ e :: after) -> ld_out e = out -> last_match out (before ++ e :: after) = Some (before, e, after).
Proof.
  intros Hnd <-. induction before as [|x before IH]; cbn in *; apply NoDup_cons in Hnd as [Hn Hnd].
  - by rewrite last_match_none, bool_decide_eq_true_2.
  - by rewrite (IH Hnd).
Qed.

(** C39. Undoing a payment misses the front of the list.  The record of the node
    gets back the height of the payment before; an entry anywhere behind the
    first is moved to the front with that height, which undoes the rotation; but
    the first entry is never looked at, so when the node is the first of its
    tier the list is left as it is, with the height of the payment that was
    undone, and no longer agrees with the record. *)
Theorem undo_payment_misses_front (f : Flushing) (out : COutPoint) (height : Z) (d : FluxnodeCacheData) (l : FluxnodeList)
    (first : FluxnodeListData) (rest : list FluxnodeListData) :
  mapConfirmedFluxnodeData (fl_g f) !! out = Some d -> mapFluxnodeList (fl_g f) !! fn_nTier d = Some l ->
  (out ∈ setConfirmedTxInList l) -> listConfirmedFluxnodes l = first :: rest -> NoDup (ld_out <$> first :: rest) ->
  exists f' entries, undo_paid (out, height) f = Some f' /\
    mapConfirmedFluxnodeData (fl_g f') !! out = Some (d <| fn_nLastPaidHeight := height |>) /\
    mapFluxnodeList (fl_g f') !! fn_nTier d = Some (mkFluxnodeList (setConfirmedTxInList l) entries) /\
    (ld_out first = out -> entries = first :: rest) /\
    (forall before e after, rest = before ++ e :: after -> ld_out e = out ->
       entries = mkFluxnodeListData out (ld_nConfirmedBlockHeight e) height :: first :: before ++ after).
Proof.
  intros Hd Hl Hin Hlist Hnd. cbn in Hnd. apply NoDup_cons in Hnd as [Hfirst Hnd]. unfold undo_paid. rewrite Hd, Hl. cbn [mbind option_bind].
  rewrite bool_decide_eq_true_2 by done. rewrite Hlist. cbn [unrotate mbind option_bind]. eexists _, _.
  split; [reflexivity|]. cbn. rewrite !lookup_insert_eq. split; [done|]. split; [done|]. split.
  - intros <-. by rewrite last_match_none.
  - intros before e after -> He. rewrite (last_match_found out before e after Hnd He). by rewrite He.
Qed.

(** Node A is alone in its list and was paid at 1003; that payment is undone, and
    the list goes on saying 1003. *)
Lemma undo_payment_misses_front_witness :
  exists f' entries, undo_paid (nodeA, 1002)
    (mkFlushing (emptyFluxnodeCache <| mapConfirmedFluxnodeData := {[nodeA := null_data <| fn_nTier := PROTON |> <| fn_nLastPaidHeight := 1003 |>]} |>
       <| mapFluxnodeList := {[PROTON := mkFluxnodeList {[nodeA]} [mkFluxnodeListData nodeA 1001 1003]]} |>) ∅ [] ∅ ∅) = Some f' /\
    fn_nLastPaidHeight <$> mapConfirmedFluxnodeData (fl_g f') !! nodeA = Some 1002 /\
    mapFluxnodeList (fl_g f') !! PROTON = Some (mkFluxnodeList {[nodeA]} entries) /\ entries = [mkFluxnodeListData nodeA 1001 1003].
Proof.
  destruct (undo_payment_misses_front
    (mkFlushing (emptyFluxnodeCache <| mapConfirmedFluxnodeData := {[nodeA := null_data <| fn_nTier := PROTON |> <| fn_nLastPaidHeight := 1003 |>]} |>
       <| mapFluxnodeList := {[PROTON := mkFluxnodeList {[nodeA]} [mkFluxnodeListData nodeA 1001 1003]]} |>) ∅ [] ∅ ∅)
    nodeA 1002 (null_data <| fn_nTier := PROTON |> <| fn_nLastPaidHeight := 1003 |>) (mkFluxnodeList {[nodeA]} [mkFluxnodeListData nodeA 1001 1003])
    (mkFluxnodeListData nodeA 1001 1003) []) as (f' & entries & E & Hd & Hl & Hfront & _).
  - apply lookup_singleton_eq.
  - apply lookup_singleton_eq.
  - cbn [setConfirmedTxInList]. by apply elem_of_singleton.
  - reflexivity.
  - apply NoDup_singleton.
  - exists f', entries. rewrite E, Hd. split; [done|]. split; [done|]. split; [exact Hl|]. by apply Hfront.
Defined.

(** A reorganisation that changes the next payee.  After two blocks are
    connected and disconnected (the first also spends the second node's
    collateral, so that the first is alone in its list) the trackers are as
    before, yet the next block must pay another node than it would have: nodes
    that saw the branch and nodes that did not reject each other's blocks. *)
Theorem reorg_changes_payee :
  match reorganised with
  | Some g => mapConfirmedFluxnodeData g = mapConfirmedFluxnodeData two_nodes /\
              next_proton two_nodes = Some nodeA /\ next_proton g = Some nodeC
  | None => False
  end.
Proof. vm_compute. repeat split. Qed.

(** A collateral spent in the block that first confirms its node leaves the
    node confirmed: only nodes that were confirmed before the block are looked
    for among the spent outputs, so the node without collateral is next in the
    queue to be paid. *)
Theorem spent_collateral_stays_confirmed :
  match ToyTip 1001 [coinbase_tx []; confirm_tx nodeA; spend_tx nodeA] cache1000 with
  | Some (g, _) => CheckIfConfirmed nodeA g = true /\ next_proton g = Some nodeA
  | None => False
  end.
Proof. vm_compute. repeat split. Qed.
