(* ===== verification/Coins.v ===== *)
(** The coins database and the caches stacked on it (coins.h, coins.cpp and the
    coin part of txdb.cpp): the unspent outputs of each transaction, the anchors
    and nullifiers of the shielded pools, and the best block.  A block is
    connected in a cache of its own, whose changes [Flush] writes to the cache
    below, which is itself written to the database from time to time; the flags
    DIRTY and FRESH spare most of that traffic.

    A view is a stack: the database with any number of caches on top.  Reading
    fills the caches on the way, as the mutable members of the source do.
    [None] is a failed assertion.  The commitment trees of the shielded pools
    (flux/IncrementalMerkleTree.hpp) are a parameter. *)

From stdpp Require Import gmap list fin_maps.
From Stdlib Require Import ZArith Lia.
From S2P Require Import Prelude Transaction Platform.

(** * The outputs of one transaction *)

(** [CCoins]: spent outputs are null, and none of them is at the end. *)
Record CCoins := mkCCoins {
  cc_fCoinBase : bool;
  cc_vout : list CTxOut;
  cc_nHeight : Z;
  cc_nVersion : Z;
}.

#[global] Instance CCoins_eta : Eta CCoins := fun r =>
  mkCCoins (cc_fCoinBase r) (cc_vout r) (cc_nHeight r) (cc_nVersion r).

#[global] Instance CCoins_eq_dec : EqDecision CCoins.
Proof. solve_decision. Defined.

(** The empty constructor, and [Clear]. *)
Definition emptyCCoins : CCoins := mkCCoins false [] 0 0.

Fixpoint drop_nulls (vout : list CTxOut) : list CTxOut :=
  match vout with
  | [] => []
  | out :: vout' =>
    match drop_nulls vout' with
    | [] => if CTxOut_IsNull out then [] else [out]
    | vout'' => out :: vout''
    end
  end.

Definition Cleanup (c : CCoins) : CCoins := c <| cc_vout ::= drop_nulls |>.

Definition ClearUnspendable (c : CCoins) : CCoins :=
  Cleanup (c <| cc_vout ::= map (fun out => if IsUnspendable (scriptPubKey out) then CTxOut_null else out) |>).

(** [CCoins(tx, nHeight)]. *)
Definition CCoins_FromTx (tx : CTransaction) (nHeight : Z) : CCoins :=
  ClearUnspendable (mkCCoins (IsCoinBase tx) (vout tx) nHeight (nVersion tx)).

Definition IsPruned (c : CCoins) : bool := forallb CTxOut_IsNull (cc_vout c).

(** [operator==]. *)
Definition CCoins_eqb (a b : CCoins) : bool := (IsPruned a && IsPruned b) || bool_decide (a = b).

Definition IsAvailable (c : CCoins) (nPos : Z) : bool :=
  match cc_vout c !! Z.to_nat nPos with Some out => negb (CTxOut_IsNull out) | None => false end.

Definition Spend (nPos : Z) (c : CCoins) : bool * CCoins :=
  if IsAvailable c nPos then (true, Cleanup (c <| cc_vout ::= <[Z.to_nat nPos := CTxOut_null]> |>)) else (false, c).

(** * The caches *)

Inductive ShieldedType := SPROUT | SAPLING.

#[global] Instance ShieldedType_eq_dec : EqDecision ShieldedType.
Proof. solve_decision. Defined.

#[global] Instance ShieldedType_countable : Countable ShieldedType.
Proof. refine (inj_countable' (fun t => match t with SPROUT => true | SAPLING => false end)
                 (fun b => if b : bool then SPROUT else SAPLING) _). by intros []. Defined.

(** [CCoinsCacheEntry] with its flags. *)
Record CCoinsCacheEntry := mkCCoinsCacheEntry { ce_coins : CCoins; DIRTY : bool; FRESH : bool }.

(** [CNullifiersCacheEntry]. *)
Record CNullifiersCacheEntry := mkCNullifiersCacheEntry { nf_entered : bool; nf_DIRTY : bool }.

(** The commitment trees of the shielded pools: a tree, its root, the tree of
    no commitments, and appending a commitment. *)
Class Commitments := {
  Tree : Type;
  root : ShieldedType -> Tree -> Z;
  empty_tree : ShieldedType -> Tree;
  append_commitment : Z -> Tree -> Tree;
}.

Section views.
Context `{Commitments}.

Definition empty_root (type : ShieldedType) : Z := root type (empty_tree type).

(** [CAnchorsSproutCacheEntry], [CAnchorsSaplingCacheEntry]. *)
Record CAnchorsCacheEntry := mkCAnchorsCacheEntry { an_entered : bool; an_tree : Tree; an_DIRTY : bool }.

(** The members of [CCoinsViewCache].  The maps of the two pools are one map
    keyed by the pool and the hash, as in the database. *)
Record CacheData := mkCacheData {
  hashBlock : Z;
  hashSproutAnchor : Z;
  hashSaplingAnchor : Z;
  cacheCoins : gmap Z CCoinsCacheEntry;
  cacheAnchors : gmap (ShieldedType * Z) CAnchorsCacheEntry;
  cacheNullifiers : gmap (ShieldedType * Z) CNullifiersCacheEntry;
}.

#[global] Instance CacheData_eta : Eta CacheData := fun r =>
  mkCacheData (hashBlock r) (hashSproutAnchor r) (hashSaplingAnchor r) (cacheCoins r) (cacheAnchors r) (cacheNullifiers r).

(** The records of [CCoinsViewDB] by kind of key. *)
Record Disk := mkDisk {
  db_coins : gmap Z CCoins;
  db_anchors : gmap (ShieldedType * Z) Tree;
  db_nullifiers : gmap (ShieldedType * Z) bool;
  db_best_block : option Z;
  db_best_anchor : gmap ShieldedType Z;
}.

Inductive CCoinsView :=
  | CCoinsViewDB (d : Disk)
  | CCoinsViewCache (base : CCoinsView) (c : CacheData).

(** The cache on top, with the view below it. *)
Definition TopCache : Type := (CCoinsView * CacheData)%type.
Definition view_of (w : TopCache) : CCoinsView := CCoinsViewCache w.1 w.2.

(** [CCoinsViewCache(base)]. *)
Definition new_cache (base : CCoinsView) : TopCache := (base, mkCacheData 0 0 0 ∅ ∅ ∅).

(** ** Reading *)

(** [GetCoins], with [FetchCoins] at every level. *)
Fixpoint GetCoins (txid : Z) (v : CCoinsView) : option CCoins * CCoinsView :=
  match v with
  | CCoinsViewDB d => (db_coins d !! txid, v)
  | CCoinsViewCache base c =>
    match cacheCoins c !! txid with
    | Some e => (Some (ce_coins e), v)
    | None =>
      match GetCoins txid base with
      | (None, base') => (None, CCoinsViewCache base' c)
      | (Some tmp, base') =>
        (Some tmp, CCoinsViewCache base' (c <| cacheCoins ::= <[txid := mkCCoinsCacheEntry tmp false (IsPruned tmp)]> |>))
      end
    end
  end.

(** [HaveCoins]: a cache looks at the outputs, the database at the key. *)
Definition HaveCoins (txid : Z) (v : CCoinsView) : bool * CCoinsView :=
  match v with
  | CCoinsViewDB d => (bool_decide (is_Some (db_coins d !! txid)), v)
  | CCoinsViewCache _ _ =>
    let '(r, v') := GetCoins txid v in
    (match r with Some c => negb (bool_decide (cc_vout c = [])) | None => false end, v')
  end.

(** [GetSproutAnchorAt], [GetSaplingAnchorAt]. *)
Fixpoint GetAnchorAt (type : ShieldedType) (rt : Z) (v : CCoinsView) : option Tree * CCoinsView :=
  match v with
  | CCoinsViewDB d => (if rt =? empty_root type then Some (empty_tree type) else db_anchors d !! (type, rt), v)
  | CCoinsViewCache base c =>
    match cacheAnchors c !! (type, rt) with
    | Some e => (if an_entered e then Some (an_tree e) else None, v)
    | None =>
      match GetAnchorAt type rt base with
      | (None, base') => (None, CCoinsViewCache base' c)
      | (Some tree, base') =>
        (Some tree, CCoinsViewCache base' (c <| cacheAnchors ::= <[(type, rt) := mkCAnchorsCacheEntry true tree false]> |>))
      end
    end
  end.

Fixpoint GetNullifier (type : ShieldedType) (nf : Z) (v : CCoinsView) : bool * CCoinsView :=
  match v with
  | CCoinsViewDB d => (bool_decide (is_Some (db_nullifiers d !! (type, nf))), v)
  | CCoinsViewCache base c =>
    match cacheNullifiers c !! (type, nf) with
    | Some e => (nf_entered e, v)
    | None =>
      let '(tmp, base') := GetNullifier type nf base in
      (tmp, CCoinsViewCache base' (c <| cacheNullifiers ::= <[(type, nf) := mkCNullifiersCacheEntry tmp false]> |>))
    end
  end.

Fixpoint GetBestBlock (v : CCoinsView) : Z * CCoinsView :=
  match v with
  | CCoinsViewDB d => (default 0 (db_best_block d), v)
  | CCoinsViewCache base c =>
    if hashBlock c =? 0 then
      let '(h, base') := GetBestBlock base in (h, CCoinsViewCache base' (c <| hashBlock := h |>))
    else (hashBlock c, v)
  end.

Definition hashAnchor (type : ShieldedType) (c : CacheData) : Z :=
  match type with SPROUT => hashSproutAnchor c | SAPLING => hashSaplingAnchor c end.
Definition set_hashAnchor (type : ShieldedType) (h : Z) (c : CacheData) : CacheData :=
  match type with SPROUT => c <| hashSproutAnchor := h |> | SAPLING => c <| hashSaplingAnchor := h |> end.

Fixpoint GetBestAnchor (type : ShieldedType) (v : CCoinsView) : Z * CCoinsView :=
  match v with
  | CCoinsViewDB d => (default (empty_root type) (db_best_anchor d !! type), v)
  | CCoinsViewCache base c =>
    if hashAnchor type c =? 0 then
      let '(h, base') := GetBestAnchor type base in (h, CCoinsViewCache base' (set_hashAnchor type h c))
    else (hashAnchor type c, v)
  end.

(** ** Writing *)

(** The entry [ModifyCoins] finds or makes, with the view below after it. *)
Definition modify_entry (txid : Z) (w : TopCache) : CCoinsCacheEntry * CCoinsView :=
  match cacheCoins w.2 !! txid with
  | Some e => (e, w.1)
  | None =>
    match GetCoins txid w.1 with
    | (None, base') => (mkCCoinsCacheEntry emptyCCoins false true, base')
    | (Some c, base') => (mkCCoinsCacheEntry c false (IsPruned c), base')
    end
  end.

(** [~CCoinsModifier]. *)
Definition end_modify (txid : Z) (e : CCoinsCacheEntry) (c : CacheData) : CacheData :=
  let coins := Cleanup (ce_coins e) in
  c <| cacheCoins ::= if FRESH e && IsPruned coins then delete txid else <[txid := mkCCoinsCacheEntry coins true (FRESH e)]> |>.

(** [ModifyCoins]: [f] is what is done through the modifier before it goes out
    of scope. *)
Definition ModifyCoins {A : Type} (txid : Z) (f : CCoins -> A * CCoins) (w : TopCache) : A * TopCache :=
  let '(e, base') := modify_entry txid w in
  let '(a, coins) := f (ce_coins e) in
  (a, (base', end_modify txid (mkCCoinsCacheEntry coins true (FRESH e)) w.2)).

Definition ModifyNewCoins (txid : Z) (f : CCoins -> CCoins) (w : TopCache) : TopCache :=
  (w.1, end_modify txid (mkCCoinsCacheEntry (f emptyCCoins) true true) w.2).

Definition SetBestBlock (h : Z) (w : TopCache) : TopCache := (w.1, w.2 <| hashBlock := h |>).

(** A read on the cache on top. *)
Definition on_top {A : Type} (r : A * CCoinsView) (w : TopCache) : A * TopCache :=
  (r.1, match r.2 with CCoinsViewCache base c => (base, c) | CCoinsViewDB _ => w end).

Definition PushAnchor (type : ShieldedType) (tree : Tree) (w : TopCache) : TopCache :=
  let newrt := root type tree in
  let '(currentRoot, w) := on_top (GetBestAnchor type (view_of w)) w in
  if currentRoot =? newrt then w
  else (w.1, set_hashAnchor type newrt (w.2 <| cacheAnchors ::= <[(type, newrt) := mkCAnchorsCacheEntry true tree true]> |>)).

Definition PopAnchor (type : ShieldedType) (newrt : Z) (w : TopCache) : option TopCache :=
  let '(currentRoot, w) := on_top (GetBestAnchor type (view_of w)) w in
  if currentRoot =? newrt then Some w
  else
    let '(found, w) := on_top (GetAnchorAt type currentRoot (view_of w)) w in
    tree ← found;
    Some (w.1, set_hashAnchor type newrt (w.2 <| cacheAnchors ::= <[(type, currentRoot) := mkCAnchorsCacheEntry false tree true]> |>)).

(** [SetNullifiers] on the nullifiers of a transaction. *)
Definition SetNullifiers (nullifiers : list (ShieldedType * Z)) (spent : bool) (w : TopCache) : TopCache :=
  (w.1, w.2 <| cacheNullifiers ::= fun m => foldl (fun m nf => <[nf := mkCNullifiersCacheEntry spent true]> m) m nullifiers |>).

(** ** Flushing *)

(** A loop over the entries of a map that writes each to the same key of
    another: [write] gives the new record, or [None] for a failed assertion. *)
Definition batch {K A B : Type} `{Countable K} (write : K -> A -> option B -> option (option B)) (child : gmap K A) (parent : gmap K B)
    : option (gmap K B) :=
  map_fold (fun k a acc => p ← acc; r ← write k a (p !! k); Some (partial_alter (fun _ => r) k p)) (Some parent) child.

(** The loops of [CCoinsViewCache::BatchWrite]. *)
Definition write_coins (txid : Z) (e : CCoinsCacheEntry) (itUs : option CCoinsCacheEntry) : option (option CCoinsCacheEntry) :=
  if negb (DIRTY e) then Some itUs
  else
    match itUs with
    | None =>
      if IsPruned (ce_coins e) then Some None
      else if FRESH e then Some (Some (mkCCoinsCacheEntry (ce_coins e) true true)) else None
    | Some us =>
      if FRESH us && IsPruned (ce_coins e) then Some None
      else Some (Some (mkCCoinsCacheEntry (ce_coins e) true (FRESH us)))
    end.

Definition write_anchor (k : ShieldedType * Z) (e : CAnchorsCacheEntry) (parent : option CAnchorsCacheEntry) : option (option CAnchorsCacheEntry) :=
  Some (if negb (an_DIRTY e) then parent
        else
          match parent with
          | None => Some (mkCAnchorsCacheEntry (an_entered e) (an_tree e) true)
          | Some p => if Bool.eqb (an_entered p) (an_entered e) then Some p
                      else Some (mkCAnchorsCacheEntry (an_entered e) (an_tree p) true)
          end).

Definition write_nullifier (k : ShieldedType * Z) (e : CNullifiersCacheEntry) (parent : option CNullifiersCacheEntry)
    : option (option CNullifiersCacheEntry) :=
  Some (if negb (nf_DIRTY e) then parent
        else
          match parent with
          | None => Some (mkCNullifiersCacheEntry (nf_entered e) true)
          | Some p => if Bool.eqb (nf_entered p) (nf_entered e) then Some p else Some (mkCNullifiersCacheEntry (nf_entered e) true)
          end).

(** The loops of [CCoinsViewDB::BatchWrite]. *)
Definition store_coins (txid : Z) (e : CCoinsCacheEntry) (old : option CCoins) : option (option CCoins) :=
  Some (if negb (DIRTY e) then old else if IsPruned (ce_coins e) then None else Some (ce_coins e)).

Definition store_anchor (k : ShieldedType * Z) (e : CAnchorsCacheEntry) (old : option Tree) : option (option Tree) :=
  Some (if negb (an_DIRTY e) then old
        else if negb (an_entered e) then None
        else if k.2 =? empty_root k.1 then old else Some (an_tree e)).

Definition store_nullifier (k : ShieldedType * Z) (e : CNullifiersCacheEntry) (old : option bool) : option (option bool) :=
  Some (if negb (nf_DIRTY e) then old else if negb (nf_entered e) then None else Some true).

Definition store_best (type : ShieldedType) (h : Z) (m : gmap ShieldedType Z) : gmap ShieldedType Z := if h =? 0 then m else <[type := h]> m.

Definition BatchWrite (c : CacheData) (v : CCoinsView) : option CCoinsView :=
  match v with
  | CCoinsViewDB d =>
    coins ← batch store_coins (cacheCoins c) (db_coins d);
    anchors ← batch store_anchor (cacheAnchors c) (db_anchors d);
    nullifiers ← batch store_nullifier (cacheNullifiers c) (db_nullifiers d);
    Some (CCoinsViewDB (mkDisk coins anchors nullifiers
            (if hashBlock c =? 0 then db_best_block d else Some (hashBlock c))
            (store_best SAPLING (hashSaplingAnchor c) (store_best SPROUT (hashSproutAnchor c) (db_best_anchor d)))))
  | CCoinsViewCache base p =>
    coins ← batch write_coins (cacheCoins c) (cacheCoins p);
    anchors ← batch write_anchor (cacheAnchors c) (cacheAnchors p);
    nullifiers ← batch write_nullifier (cacheNullifiers c) (cacheNullifiers p);
    Some (CCoinsViewCache base (mkCacheData (hashBlock c) (hashSproutAnchor c) (hashSaplingAnchor c) coins anchors nullifiers))
  end.

(** [CCoinsViewCache::Flush]. *)
Definition Flush_coins (w : TopCache) : option TopCache :=
  base' ← BatchWrite w.2 w.1;
  Some (base', w.2 <| cacheCoins := ∅ |> <| cacheAnchors := ∅ |> <| cacheNullifiers := ∅ |>).
End views.
