(* ===== verification/CoinsView.v ===== *)
(** The coins view is a map: the invariant of the flags DIRTY and FRESH, what a
    stack of caches stands for, and that reading, modifying and flushing do to
    it what they would do to plain maps and sets. *)

From stdpp Require Import gmap list fin_maps.
From Stdlib Require Import ZArith Lia.
From S2P Require Import Prelude Transaction Platform Coins.

(** * Outputs *)

(** No null output at the end, and nulls are the canonical one. *)
Definition coins_ok (c : CCoins) : Prop :=
  drop_nulls (cc_vout c) = cc_vout c /\ Forall (fun out => CTxOut_IsNull out = true -> out = CTxOut_null) (cc_vout c).

(** What is left to spend. *)
Definition unspent (o : option CCoins) : option CCoins := c ← o; if IsPruned c then None else Some c.

Lemma drop_nulls_nil l : drop_nulls l = [] <-> forallb CTxOut_IsNull l = true.
Proof.
  induction l as [|x l IH]; [done|]. cbn. destruct (drop_nulls l) as [|y l'] eqn:E.
  - destruct IH as [IH _]. rewrite IH by done. rewrite andb_true_r. by destruct (CTxOut_IsNull x).
  - split; [done|]. intros [_ Hl]%andb_prop. by apply IH in Hl.
Qed.

Lemma drop_nulls_idem l : drop_nulls (drop_nulls l) = drop_nulls l.
Proof.
  induction l as [|x l IH]; [done|]. cbn. destruct (drop_nulls l) as [|y l'] eqn:E.
  - destruct (CTxOut_IsNull x) eqn:N; [done|]. cbn. by rewrite N.
  - change (drop_nulls (x :: y :: l')) with (match drop_nulls (y :: l') with [] => if CTxOut_IsNull x then [] else [x] | v => x :: v end).
    by rewrite IH.
Qed.

Lemma drop_nulls_prefix l : drop_nulls l `prefix_of` l.
Proof.
  induction l as [|x l IH]; [done|]. cbn. destruct (drop_nulls l) as [|y l'] eqn:E.
  - destruct (CTxOut_IsNull x); [apply prefix_nil|]. by apply prefix_cons, prefix_nil.
  - by apply prefix_cons.
Qed.

Lemma drop_nulls_lookup l i : drop_nulls l !! i = (out ← l !! i; if CTxOut_IsNull out then drop_nulls l !! i else Some out).
Proof.
  revert i. induction l as [|x l IH]; [done|]. intros [|i]; cbn.
  - destruct (drop_nulls l) eqn:E; destruct (CTxOut_IsNull x) eqn:N; cbn; rewrite ?E, ?N; done.
  - specialize (IH i). destruct (drop_nulls l) eqn:E; cbn in *.
    + destruct (l !! i) as [o|] eqn:Hi; cbn in *; [|by destruct (CTxOut_IsNull x)].
      destruct (CTxOut_IsNull o) eqn:N; [|done]. by destruct (CTxOut_IsNull x); rewrite ?lookup_nil.
    + done.
Qed.

Lemma coins_ok_pruned c : coins_ok c -> IsPruned c = true <-> cc_vout c = [].
Proof. intros [Hd _]. unfold IsPruned. rewrite <- drop_nulls_nil. by rewrite Hd. Qed.

Lemma Cleanup_pruned c : IsPruned (Cleanup c) = IsPruned c.
Proof.
  unfold IsPruned. cbn. apply eq_true_iff_eq. rewrite <- !drop_nulls_nil, drop_nulls_idem. done.
Qed.

(** Nulls are canonical. *)
Definition nulls_ok (c : CCoins) : Prop := Forall (fun out => CTxOut_IsNull out = true -> out = CTxOut_null) (cc_vout c).

Lemma Cleanup_ok c : nulls_ok c -> coins_ok (Cleanup c).
Proof.
  intros Hn. split; [apply drop_nulls_idem|]. cbn. destruct (drop_nulls_prefix (cc_vout c)) as [k Hk].
  red in Hn. rewrite Hk in Hn. by apply Forall_app in Hn as [? _].
Qed.

Lemma Cleanup_id c : coins_ok c -> Cleanup c = c.
Proof. destruct c. intros [Hd _]. unfold Cleanup, set. cbn in *. by rewrite Hd. Qed.

Lemma emptyCCoins_ok : coins_ok emptyCCoins.
Proof. by split; [|constructor]. Qed.

Lemma unspent_Some o c : unspent o = Some c <-> o = Some c /\ IsPruned c = false.
Proof.
  unfold unspent. destruct o as [c'|]; cbn; [|split; [done|by intros [[=] _]]].
  destruct (IsPruned c') eqn:E; split; [done| |intros [= ->]; done|intros [[= ->] _]; done]. intros [[= ->] ?]. congruence.
Qed.

Lemma unspent_None o : unspent o = None <-> forall c, o = Some c -> IsPruned c = true.
Proof.
  unfold unspent. destruct o as [c'|]; cbn; [|done].
  destruct (IsPruned c') eqn:E; split; [by intros _ ? [= <-]|done|done|]. intros Hp. specialize (Hp _ eq_refl). congruence.
Qed.

(** * Batches *)

Lemma batch_spec {K A B} `{Countable K} (write : K -> A -> option B -> option (option B)) (child : gmap K A) (parent : gmap K B) :
  (forall k a, child !! k = Some a -> is_Some (write k a (parent !! k))) ->
  exists m, batch write child parent = Some m /\
    forall k, m !! k = match child !! k with Some a => default None (write k a (parent !! k)) | None => parent !! k end.
Proof.
  unfold batch. apply (map_fold_weak_ind (fun acc child => (forall k a, child !! k = Some a -> is_Some (write k a (parent !! k))) ->
    exists m, acc = Some m /\ forall k, m !! k = match child !! k with Some a => default None (write k a (parent !! k)) | None => parent !! k end)).
  - intros _. exists parent. by split; [|intros k; rewrite lookup_empty].
  - intros k a child' acc Hk IH Hw. destruct IH as (p & -> & Hp).
    { intros k' a' Hk'. apply Hw. rewrite lookup_insert_ne; [done|]. intros <-. congruence. }
    cbn. destruct (Hw k a) as [r Hr]; [by rewrite lookup_insert_eq|]. rewrite Hp, Hk, Hr. cbn. eexists. split; [done|].
    intros k'. destruct (decide (k = k')) as [<-|Hne].
    + by rewrite lookup_partial_alter_eq, lookup_insert_eq, Hr.
    + by rewrite lookup_partial_alter_ne, lookup_insert_ne, Hp.
Qed.

(** * What a view stands for *)

Section views.
Context `{Commitments}.

Fixpoint find_coins (txid : Z) (v : CCoinsView) : option CCoins :=
  match v with
  | CCoinsViewDB d => db_coins d !! txid
  | CCoinsViewCache base c => match cacheCoins c !! txid with Some e => Some (ce_coins e) | None => find_coins txid base end
  end.

Fixpoint find_anchor (k : ShieldedType * Z) (v : CCoinsView) : option Tree :=
  match v with
  | CCoinsViewDB d => if k.2 =? empty_root k.1 then Some (empty_tree k.1) else db_anchors d !! k
  | CCoinsViewCache base c =>
    match cacheAnchors c !! k with Some e => if an_entered e then Some (an_tree e) else None | None => find_anchor k base end
  end.

Fixpoint find_nullifier (k : ShieldedType * Z) (v : CCoinsView) : bool :=
  match v with
  | CCoinsViewDB d => bool_decide (is_Some (db_nullifiers d !! k))
  | CCoinsViewCache base c => match cacheNullifiers c !! k with Some e => nf_entered e | None => find_nullifier k base end
  end.

Fixpoint best_block (v : CCoinsView) : Z :=
  match v with
  | CCoinsViewDB d => default 0 (db_best_block d)
  | CCoinsViewCache base c => if hashBlock c =? 0 then best_block base else hashBlock c
  end.

Fixpoint best_anchor (type : ShieldedType) (v : CCoinsView) : Z :=
  match v with
  | CCoinsViewDB d => default (empty_root type) (db_best_anchor d !! type)
  | CCoinsViewCache base c => if hashAnchor type c =? 0 then best_anchor type base else hashAnchor type c
  end.

(** The entry is in the cache below, if there is one. *)
Definition cached_below (txid : Z) (base : CCoinsView) : Prop :=
  match base with CCoinsViewDB _ => True | CCoinsViewCache _ p => is_Some (cacheCoins p !! txid) end.

(** What the flags promise: an entry that is not DIRTY is the one below, the
    view below of a FRESH entry has nothing to spend, and an entry that is not
    FRESH was pulled through the cache below. *)
Definition entry_ok (base : CCoinsView) (txid : Z) (e : CCoinsCacheEntry) : Prop :=
  coins_ok (ce_coins e) /\
  (DIRTY e = false -> find_coins txid base = Some (ce_coins e)) /\
  (FRESH e = true -> unspent (find_coins txid base) = None) /\
  (FRESH e = false -> cached_below txid base).

Definition anchor_ok (base : CCoinsView) (k : ShieldedType * Z) (e : CAnchorsCacheEntry) : Prop :=
  root k.1 (an_tree e) = k.2 /\ (an_DIRTY e = false -> an_entered e = true /\ is_Some (find_anchor k base)) /\
  (k.2 = empty_root k.1 -> an_entered e = true).

Definition nullifier_ok (base : CCoinsView) (k : ShieldedType * Z) (e : CNullifiersCacheEntry) : Prop :=
  nf_DIRTY e = false -> nf_entered e = find_nullifier k base.

Definition disk_ok (d : Disk) : Prop :=
  map_Forall (fun _ c => coins_ok c /\ IsPruned c = false) (db_coins d) /\
  map_Forall (fun k tree => root k.1 tree = k.2) (db_anchors d).

Fixpoint view_ok (v : CCoinsView) : Prop :=
  match v with
  | CCoinsViewDB d => disk_ok d
  | CCoinsViewCache base c =>
    view_ok base /\ map_Forall (entry_ok base) (cacheCoins c) /\ map_Forall (anchor_ok base) (cacheAnchors c) /\
    map_Forall (nullifier_ok base) (cacheNullifiers c)
  end.

(** ** Views that differ only in what they have cached *)

Definition agree (v v' : CCoinsView) : Prop :=
  (forall txid, find_coins txid v' = find_coins txid v) /\ (forall k, find_anchor k v' = find_anchor k v) /\
  (forall k, find_nullifier k v' = find_nullifier k v) /\ best_block v' = best_block v /\
  (forall type, best_anchor type v' = best_anchor type v).

Fixpoint sim (v v' : CCoinsView) : Prop :=
  match v, v' with
  | CCoinsViewDB d, CCoinsViewDB d' => d = d'
  | CCoinsViewCache base _, CCoinsViewCache base' _ => agree v v' /\ sim base base'
  | _, _ => False
  end.

#[export] Instance agree_preorder : PreOrder agree.
Proof.
  split; [by intros ?; repeat split|]. intros x y z (A1 & A2 & A3 & A4 & A5) (B1 & B2 & B3 & B4 & B5).
  split_and!; intros; by rewrite ?B1, ?B2, ?B3, ?B4, ?B5, ?A1, ?A2, ?A3, ?A4, ?A5.
Qed.

Lemma sim_agree v v' : sim v v' -> agree v v'.
Proof. destruct v, v'; cbn; [by intros ->|done|done|by intros [? _]]. Qed.

#[export] Instance sim_preorder : PreOrder sim.
Proof.
  split.
  - intros v. induction v; cbn; [done|]. by split; [reflexivity|].
  - intros x. induction x as [d|b IH c]; intros [d'|b' c'] [d''|b'' c'']; cbn; try done; [by intros -> ->|].
    intros [A1 S1] [A2 S2]. split; [by etrans|by eapply IH].
Qed.

(** The caches of [v] keep their promises over a view that agrees. *)
Lemma entry_ok_agree b b' t e : agree b b' -> (cached_below t b -> cached_below t b') -> entry_ok b t e -> entry_ok b' t e.
Proof. intros (A & _) Hc (E1 & E2 & E3 & E4). split_and!; [done|by rewrite A|by rewrite A|by eauto]. Qed.

Lemma anchor_ok_agree b b' k e : agree b b' -> anchor_ok b k e -> anchor_ok b' k e.
Proof. intros (_ & A & _) (E1 & E2 & E3). split_and!; [done| |done]. by rewrite A. Qed.

Lemma nullifier_ok_agree b b' k e : agree b b' -> nullifier_ok b k e -> nullifier_ok b' k e.
Proof. intros (_ & _ & A & _) E. unfold nullifier_ok. by rewrite A. Qed.

(** A cache over a view that has at least as much cached. *)
Definition grown (b b' : CCoinsView) : Prop := sim b b' /\ (forall t, cached_below t b -> cached_below t b').

Lemma view_ok_grown b b' c :
  grown b b' -> view_ok b' -> view_ok (CCoinsViewCache b c) -> view_ok (CCoinsViewCache b' c).
Proof.
  intros [Hs Hg] Hb' (Hb & H1 & H2 & H3). apply sim_agree in Hs. split_and!; [done| | |].
  - eapply map_Forall_impl; [exact H1|]. intros t e. apply entry_ok_agree; auto.
  - eapply map_Forall_impl; [exact H2|]. intros t e. by apply anchor_ok_agree.
  - eapply map_Forall_impl; [exact H3|]. intros t e. by apply nullifier_ok_agree.
Qed.

#[export] Instance grown_preorder : PreOrder grown.
Proof. split; [by intros v; split|]. intros x y z [S1 G1] [S2 G2]. split; [by etrans|auto]. Qed.

(** Caching below does not change what the cache above stands for. *)
Lemma agree_below b b' c : agree b b' -> agree (CCoinsViewCache b c) (CCoinsViewCache b' c).
Proof. intros (A1 & A2 & A3 & A4 & A5). split_and!; intros; cbn; by rewrite ?A1, ?A2, ?A3, ?A4, ?A5. Qed.

Lemma grown_below b b' c : grown b b' -> grown (CCoinsViewCache b c) (CCoinsViewCache b' c).
Proof. intros [Hs _]. split; [|done]. split; [|done]. by apply agree_below, sim_agree. Qed.

(** ** Reading *)

Lemma find_coins_ok v t c : view_ok v -> find_coins t v = Some c -> coins_ok c.
Proof.
  induction v as [d|b IH p]; cbn; [intros [Hd _] Ht; by apply (Hd t c)|].
  intros (Hb & He & _) Ht. destruct (cacheCoins p !! t) as [e|] eqn:E; [|by apply IH].
  injection Ht as <-. by destruct (He _ _ E).
Qed.

Lemma find_anchor_root v k tree : view_ok v -> find_anchor k v = Some tree -> root k.1 tree = k.2.
Proof.
  induction v as [d|b IH p]; cbn.
  - intros [_ Hd] Ht. destruct (Z.eqb_spec k.2 (empty_root k.1)) as [->|]; [by injection Ht as <-|by apply (Hd k tree)].
  - intros (Hb & _ & Ha & _) Ht. destruct (cacheAnchors p !! k) as [e|] eqn:E; [|by apply IH].
    destruct (an_entered e); [|done]. injection Ht as <-. by destruct (Ha _ _ E).
Qed.

(** A read answers what the view stands for and only fills caches. *)
Definition reads {A} (r : A * CCoinsView) (answer : A) (v : CCoinsView) : Prop :=
  r.1 = answer /\ grown v r.2 /\ view_ok r.2.

Lemma GetCoins_reads t v :
  view_ok v -> reads (GetCoins t v) (find_coins t v) v /\ (is_Some (find_coins t v) -> cached_below t (GetCoins t v).2).
Proof.
  induction v as [d|b IH p]; [by intros Hv|]. intros Hv. pose proof Hv as (Hb & He & Ha & Hn). cbn.
  destruct (cacheCoins p !! t) as [e|] eqn:E; [by split; [split_and!|cbn; rewrite E]|].
  destruct (IH Hb) as ((Hr & Hg & Hok) & Hc). destruct (GetCoins t b) as [r b']; cbn in *. subst r.
  assert (Hv' : view_ok (CCoinsViewCache b' p)) by by eapply view_ok_grown.
  destruct (find_coins t b) as [tmp|] eqn:F.
  - cbn. split; [|by rewrite lookup_insert_eq]. split; [done|]. pose proof (find_coins_ok _ _ _ Hb F) as Htmp. split.
    + split; [|intros t' Ht'; cbn in *; by destruct (decide (t = t')) as [->|]; rewrite ?lookup_insert_eq, ?lookup_insert_ne].
      split; [|by destruct Hg]. destruct Hg as [Hs _]. apply sim_agree in Hs as (A1 & A2 & A3 & A4 & A5).
      split_and!; intros; cbn; rewrite ?A1, ?A2, ?A3, ?A4, ?A5; try done.
      * destruct (decide (t = txid)) as [->|]; [by rewrite lookup_insert_eq, E, F|by rewrite lookup_insert_ne].
    + destruct Hv' as (H1 & H2 & H3 & H4). split_and!; try done. apply map_Forall_insert_2; [|done].
      destruct Hg as [Hs _]. apply sim_agree in Hs as (A1 & _). split_and!; cbn; [done|by rewrite A1|rewrite A1, F; cbn; by intros ->|by intros _; apply Hc].
  - split; [|done]. split; [done|]. split; [by apply grown_below|done].
Qed.

Lemma GetAnchorAt_reads ty rt v :
  view_ok v -> reads (GetAnchorAt ty rt v) (find_anchor (ty, rt) v) v.
Proof.
  induction v as [d|b IH p]; [by intros Hv|]. intros Hv. pose proof Hv as (Hb & He & Ha & Hn). cbn.
  destruct (cacheAnchors p !! (ty, rt)) as [e|] eqn:E; [by split_and!|].
  destruct (IH Hb) as (Hr & Hg & Hok). destruct (GetAnchorAt ty rt b) as [r b']; cbn in *. subst r.
  assert (Hv' : view_ok (CCoinsViewCache b' p)) by by eapply view_ok_grown.
  destruct (find_anchor (ty, rt) b) as [tree|] eqn:F; [|by split_and!; [|apply grown_below|]].
  pose proof (find_anchor_root _ _ _ Hb F) as Hroot. split_and!; [done| |].
  - split; [|done]. split; [|by destruct Hg]. destruct Hg as [Hs _]. apply sim_agree in Hs as (A1 & A2 & A3 & A4 & A5).
    split_and!; intros; cbn; rewrite ?A1, ?A2, ?A3, ?A4, ?A5; try done.
    destruct (decide ((ty, rt) = k)) as [<-|]; [by rewrite lookup_insert_eq, E, F|by rewrite lookup_insert_ne].
  - destruct Hv' as (H1 & H2 & H3 & H4). split_and!; try done. apply map_Forall_insert_2; [|done].
    destruct Hg as [Hs _]. apply sim_agree in Hs as (_ & A2 & _). split_and!; cbn; [done|by rewrite A2, F|done].
Qed.

Lemma GetNullifier_reads ty nf v : view_ok v -> reads (GetNullifier ty nf v) (find_nullifier (ty, nf) v) v.
Proof.
  induction v as [d|b IH p]; [by intros Hv|]. intros Hv. pose proof Hv as (Hb & He & Ha & Hn). cbn.
  destruct (cacheNullifiers p !! (ty, nf)) as [e|] eqn:E; [by split_and!|].
  destruct (IH Hb) as (Hr & Hg & Hok). destruct (GetNullifier ty nf b) as [r b']; cbn in *. subst r.
  assert (Hv' : view_ok (CCoinsViewCache b' p)) by by eapply view_ok_grown. split_and!; [done| |].
  - split; [|done]. split; [|by destruct Hg]. destruct Hg as [Hs _]. apply sim_agree in Hs as (A1 & A2 & A3 & A4 & A5).
    split_and!; intros; cbn; rewrite ?A1, ?A2, ?A3, ?A4, ?A5; try done.
    destruct (decide ((ty, nf) = k)) as [<-|]; [by rewrite lookup_insert_eq, E|by rewrite lookup_insert_ne].
  - destruct Hv' as (H1 & H2 & H3 & H4). split_and!; try done. apply map_Forall_insert_2; [|done].
    destruct Hg as [Hs _]. apply sim_agree in Hs as (_ & _ & A3 & _). intros _. by rewrite A3.
Qed.

(** Changing a cached hash changes no promise. *)
Lemma view_ok_hashes b c c' :
  cacheCoins c' = cacheCoins c -> cacheAnchors c' = cacheAnchors c -> cacheNullifiers c' = cacheNullifiers c ->
  view_ok (CCoinsViewCache b c) -> view_ok (CCoinsViewCache b c').
Proof. intros E1 E2 E3. cbn. by rewrite E1, E2, E3. Qed.

Lemma GetBestBlock_reads v : view_ok v -> reads (GetBestBlock v) (best_block v) v.
Proof.
  induction v as [d|b IH p]; [by intros Hv|]. intros Hv. pose proof Hv as (Hb & _). cbn.
  destruct (Z.eqb_spec (hashBlock p) 0) as [E|]; [|by split_and!].
  destruct (IH Hb) as (Hr & Hg & Hok). destruct (GetBestBlock b) as [r b']; cbn in *. subst r. split_and!; [done| |].
  - split; [|done]. split; [|by destruct Hg]. destruct Hg as [Hs _]. apply sim_agree in Hs as (A1 & A2 & A3 & A4 & A5).
    split_and!; intros; cbn; rewrite ?A1, ?A2, ?A3, ?A4, ?A5; try done. rewrite E. cbn. by destruct (_ =? 0) eqn:F.
  - eapply view_ok_hashes; [..|by eapply view_ok_grown]; done.
Qed.

Lemma GetBestAnchor_reads ty v : view_ok v -> reads (GetBestAnchor ty v) (best_anchor ty v) v.
Proof.
  induction v as [d|b IH p]; [by intros Hv|]. intros Hv. pose proof Hv as (Hb & _). cbn.
  destruct (Z.eqb_spec (hashAnchor ty p) 0) as [E|]; [|by split_and!].
  destruct (IH Hb) as (Hr & Hg & Hok). destruct (GetBestAnchor ty b) as [r b']; cbn in *. subst r. split_and!; [done| |].
  - split; [|by destruct ty]. split; [|by destruct Hg]. destruct Hg as [Hs _]. apply sim_agree in Hs as (A1 & A2 & A3 & A4 & A5).
    split_and!; intros; cbn.
    1-4: destruct ty; cbn; by rewrite ?A1, ?A2, ?A3, ?A4.
    rewrite A5. destruct ty, type; cbn in *; rewrite ?E; try done; by destruct (_ =? 0).
  - eapply view_ok_hashes; [..|by eapply view_ok_grown]; by destruct ty.
Qed.

Lemma HaveCoins_reads t v : view_ok v -> reads (HaveCoins t v) (bool_decide (is_Some (unspent (find_coins t v)))) v.
Proof.
  intros Hv. unfold HaveCoins. destruct v as [d|b p].
  - split_and!; [|done|done]. cbn. destruct Hv as [Hd _]. destruct (db_coins d !! t) as [c|] eqn:E; [|done].
    destruct (Hd _ _ E) as [_ Hp]. cbn. by rewrite Hp.
  - destruct (GetCoins_reads t _ Hv) as ((Hr & Hg & Hok) & _). destruct (GetCoins t _) as [r v'] eqn:E. cbn [fst snd] in *.
    split_and!; [|done|done]. cbn [fst]. rewrite Hr. destruct (find_coins t _) as [c|] eqn:F; [|done].
    pose proof (coins_ok_pruned _ (find_coins_ok _ _ _ Hv F)) as Hp. cbn. destruct (IsPruned c) eqn:P.
    + destruct Hp as [-> _]; done.
    + rewrite (bool_decide_eq_false_2 (cc_vout c = [])); [done|]. intros Hn%Hp. done.
Qed.

(** ** Modifying *)

(** What is not the coins of [w] stays, and only caches are filled below. *)
Definition same_but_coins (w w' : TopCache) : Prop :=
  grown w.1 w'.1 /\ cacheAnchors w'.2 = cacheAnchors w.2 /\ cacheNullifiers w'.2 = cacheNullifiers w.2 /\
  hashBlock w'.2 = hashBlock w.2 /\ (forall ty, hashAnchor ty w'.2 = hashAnchor ty w.2).

(** The unspent outputs of one transaction become those of [c]. *)
Definition coins_become (t : Z) (c : CCoins) (w w' : TopCache) : Prop :=
  unspent (find_coins t (view_of w')) = unspent (Some c) /\
  (forall t', t' <> t -> find_coins t' (view_of w') = find_coins t' (view_of w)) /\ same_but_coins w w'.

(** Ending a modification of an entry that kept its promises but for DIRTY. *)
Lemma end_modify_spec t e b' w :
  view_ok (view_of w) -> grown w.1 b' -> view_ok b' -> nulls_ok (ce_coins e) ->
  (FRESH e = true -> unspent (find_coins t b') = None) -> (FRESH e = false -> cached_below t b') ->
  let w' := (b', end_modify t e w.2) in view_ok (view_of w') /\ coins_become t (Cleanup (ce_coins e)) w w'.
Proof.
  intros Hv Hg Hb' Hn Hf Hc w'. pose proof (view_ok_grown _ _ _ Hg Hb' Hv) as (_ & H1 & H2 & H3).
  pose proof (Cleanup_ok _ Hn) as Hok. pose proof Hg as [(A1 & _)%sim_agree _].
  assert (Hrest : same_but_coins w w') by (split_and!; try done; by intros []).
  unfold w', end_modify, view_of in *. destruct (FRESH e && IsPruned (Cleanup (ce_coins e))) eqn:E.
  - apply andb_prop in E as [Ef Ep]. split; [by split_and!; [|apply map_Forall_delete|..]|]. split_and!; [| |apply Hrest..].
    + match goal with |- unspent ?x = _ => replace x with (find_coins t b') by (cbn; by rewrite lookup_delete_eq) end.
      rewrite Hf by done. unfold unspent, mbind, option_bind. by rewrite Ep.
    + intros t' Ht. cbn. by rewrite lookup_delete_ne, A1.
  - split.
    + split_and!; try done. apply map_Forall_insert_2; [|done]. by split_and!.
    + split_and!; [| |apply Hrest..].
      * cbn. by rewrite lookup_insert_eq.
      * intros t' Ht. cbn. by rewrite lookup_insert_ne, A1.
Qed.

Lemma modify_entry_spec t w :
  view_ok (view_of w) ->
  let '(e, b') := modify_entry t w in
  ce_coins e = default emptyCCoins (find_coins t (view_of w)) /\ grown w.1 b' /\ view_ok b' /\
  (FRESH e = true -> unspent (find_coins t b') = None) /\ (FRESH e = false -> cached_below t b').
Proof.
  intros Hv. pose proof Hv as (Hb & He & _). unfold modify_entry, view_of. cbn [find_coins].
  destruct (cacheCoins w.2 !! t) as [e|] eqn:E; [by destruct (He _ _ E) as (? & ? & ? & ?)|].
  destruct (GetCoins_reads t _ Hb) as ((Hr & Hg & Hok) & Hc). destruct (GetCoins t w.1) as [r b']; cbn in *. subst r.
  pose proof Hg as [(A1 & _)%sim_agree _].
  destruct (find_coins t w.1) as [c|] eqn:F; split_and!; try done; cbn [FRESH].
  - intros Hp. rewrite A1, F. cbn. by rewrite Hp.
  - intros _. by apply Hc.
  - intros _. by rewrite A1, F.
Qed.

Lemma ModifyCoins_spec {A} t (f : CCoins -> A * CCoins) w :
  let c := default emptyCCoins (find_coins t (view_of w)) in
  view_ok (view_of w) -> nulls_ok (f c).2 ->
  let r := ModifyCoins t f w in r.1 = (f c).1 /\ view_ok (view_of r.2) /\ coins_become t (Cleanup (f c).2) w r.2.
Proof.
  intros c Hv Hn. unfold ModifyCoins. pose proof (modify_entry_spec t w Hv) as Hm. destruct (modify_entry t w) as [e b'].
  destruct Hm as (He & Hg & Hb' & Hf & Hc). fold c in He. rewrite He. destruct (f c) as [a c']. cbn in *.
  split; [done|]. by apply (end_modify_spec t (mkCCoinsCacheEntry c' true (FRESH e)) b' w).
Qed.

Lemma ModifyNewCoins_spec t f w :
  view_ok (view_of w) -> nulls_ok (f emptyCCoins) -> unspent (find_coins t w.1) = None ->
  view_ok (view_of (ModifyNewCoins t f w)) /\ coins_become t (Cleanup (f emptyCCoins)) w (ModifyNewCoins t f w).
Proof.
  intros Hv Hn Hf. pose proof Hv as (Hb & _). by apply (end_modify_spec t (mkCCoinsCacheEntry (f emptyCCoins) true true) w.1 w).
Qed.

End views.
