(* ===== verification/CoinsLedger.v ===== *)
(** Refinement of the coins views: a stack of caches over the database behaves
    as a stack of plain ledgers (a map of unspent outputs, sets of anchors and
    nullifiers, the best block and anchors), whatever is read, modified, layered,
    flushed or dropped. *)

From stdpp Require Import gmap list fin_maps.
From Stdlib Require Import ZArith Lia.
From S2P Require Import Prelude Transaction Platform Coins CoinsView.

(** * Ledgers *)

(** The abstract state one view stands for. *)
Record Ledger := mkLedger {
  l_coins : gmap Z CCoins;
  l_anchors : gset (ShieldedType * Z);
  l_nullifiers : gset (ShieldedType * Z);
  l_best_block : Z;
  l_best_sprout : Z;
  l_best_sapling : Z;
}.

#[global] Instance Ledger_eta : Eta Ledger := fun r =>
  mkLedger (l_coins r) (l_anchors r) (l_nullifiers r) (l_best_block r) (l_best_sprout r) (l_best_sapling r).

Definition l_best (ty : ShieldedType) (m : Ledger) : Z := match ty with SPROUT => l_best_sprout m | SAPLING => l_best_sapling m end.
Definition l_set_best (ty : ShieldedType) (h : Z) (m : Ledger) : Ledger :=
  match ty with SPROUT => m <| l_best_sprout := h |> | SAPLING => m <| l_best_sapling := h |> end.

Section ledger.
Context `{Commitments}.

Definition stands_for (v : CCoinsView) (m : Ledger) : Prop :=
  (forall t, unspent (find_coins t v) = l_coins m !! t) /\ (forall k, is_Some (find_anchor k v) <-> k ∈ l_anchors m) /\
  (forall k, find_nullifier k v = bool_decide (k ∈ l_nullifiers m)) /\ best_block v = l_best_block m /\
  (forall ty, best_anchor ty v = l_best ty m).

(** Every view of the stack stands for the ledger at its level. *)
Fixpoint represents (v : CCoinsView) (s : list Ledger) : Prop :=
  match v, s with
  | CCoinsViewDB _, [m] => stands_for v m
  | CCoinsViewCache base _, m :: s' => stands_for v m /\ represents base s'
  | _, _ => False
  end.

Lemma stands_for_agree v v' m : agree v v' -> stands_for v m -> stands_for v' m.
Proof.
  intros (A1 & A2 & A3 & A4 & A5) (B1 & B2 & B3 & B4 & B5). split_and!; intros; rewrite ?A1, ?A2, ?A3, ?A4, ?A5; auto.
Qed.

Lemma represents_sim v v' s : sim v v' -> represents v s -> represents v' s.
Proof.
  revert v' s. induction v as [d|b IH c]; intros [d'|b' c'] [|m s]; cbn; try done; [by intros ->|].
  intros [Ha Hs] [Hm Hr]. split; [by eapply stands_for_agree|by eapply IH].
Qed.

(** * The operations on ledgers *)

Inductive Operation :=
  | OpGetCoins (txid : Z)
  | OpHaveCoins (txid : Z)
  | OpModify (txid : Z) (f : CCoins -> CCoins)
  | OpModifyNew (txid : Z) (f : CCoins -> CCoins)
  | OpAnchorAt (type : ShieldedType) (rt : Z)
  | OpPush (type : ShieldedType) (tree : Tree)
  | OpPop (type : ShieldedType) (rt : Z)
  | OpNullifier (type : ShieldedType) (nf : Z)
  | OpSetNullifiers (nfs : list (ShieldedType * Z)) (spent : bool)
  | OpBestBlock
  | OpBestAnchor (type : ShieldedType)
  | OpSetBestBlock (h : Z)
  | OpLayer
  | OpFlush
  | OpDrop.

Inductive Answer := AnswerCoins (c : option CCoins) | AnswerFlag (b : bool) | AnswerHash (h : Z) | NoAnswer.

(** On the views of the source. *)
Definition perform (op : Operation) (v : CCoinsView) : option (Answer * CCoinsView) :=
  match op, v with
  | OpLayer, _ => Some (NoAnswer, view_of (new_cache v))
  | _, CCoinsViewDB _ => None
  | OpGetCoins t, _ => let r := GetCoins t v in Some (AnswerCoins (unspent r.1), r.2)
  | OpHaveCoins t, _ => let r := HaveCoins t v in Some (AnswerFlag r.1, r.2)
  | OpModify t f, CCoinsViewCache b c => Some (NoAnswer, view_of (ModifyCoins t (fun c => (tt, f c)) (b, c)).2)
  | OpModifyNew t f, CCoinsViewCache b c => Some (NoAnswer, view_of (ModifyNewCoins t f (b, c)))
  | OpAnchorAt ty rt, _ => let r := GetAnchorAt ty rt v in Some (AnswerFlag (bool_decide (is_Some r.1)), r.2)
  | OpPush ty tree, CCoinsViewCache b c => Some (NoAnswer, view_of (PushAnchor ty tree (b, c)))
  | OpPop ty rt, CCoinsViewCache b c => w ← PopAnchor ty rt (b, c); Some (NoAnswer, view_of w)
  | OpNullifier ty nf, _ => let r := GetNullifier ty nf v in Some (AnswerFlag r.1, r.2)
  | OpSetNullifiers nfs spent, CCoinsViewCache b c => Some (NoAnswer, view_of (SetNullifiers nfs spent (b, c)))
  | OpBestBlock, _ => let r := GetBestBlock v in Some (AnswerHash r.1, r.2)
  | OpBestAnchor ty, _ => let r := GetBestAnchor ty v in Some (AnswerHash r.1, r.2)
  | OpSetBestBlock h, CCoinsViewCache b c => Some (NoAnswer, view_of (SetBestBlock h (b, c)))
  | OpFlush, CCoinsViewCache b c => w ← Flush_coins (b, c); Some (NoAnswer, view_of w)
  | OpDrop, CCoinsViewCache b _ => Some (NoAnswer, b)
  end.

(** On ledgers. *)
Definition l_modify (t : Z) (f : CCoins -> CCoins) (m : Ledger) : Ledger :=
  m <| l_coins ::= partial_alter (fun o => unspent (Some (Cleanup (f (default emptyCCoins o))))) t |>.
Definition l_new (t : Z) (f : CCoins -> CCoins) (m : Ledger) : Ledger :=
  m <| l_coins ::= partial_alter (fun _ => unspent (Some (Cleanup (f emptyCCoins)))) t |>.
Definition l_push (ty : ShieldedType) (rt : Z) (m : Ledger) : Ledger :=
  if l_best ty m =? rt then m else l_set_best ty rt (m <| l_anchors ::= fun s => {[(ty, rt)]} ∪ s |>).
Definition l_pop (ty : ShieldedType) (rt : Z) (m : Ledger) : Ledger :=
  if l_best ty m =? rt then m else l_set_best ty rt (m <| l_anchors ::= fun s => s ∖ {[(ty, l_best ty m)]} |>).
Definition l_set_nullifiers (nfs : list (ShieldedType * Z)) (spent : bool) (m : Ledger) : Ledger :=
  m <| l_nullifiers ::= fun s => if spent then list_to_set nfs ∪ s else s ∖ list_to_set nfs |>.

Definition specify (op : Operation) (s : list Ledger) : Answer * list Ledger :=
  match s with
  | [] => (NoAnswer, s)
  | m :: s' =>
    match op with
    | OpGetCoins t => (AnswerCoins (l_coins m !! t), s)
    | OpHaveCoins t => (AnswerFlag (bool_decide (is_Some (l_coins m !! t))), s)
    | OpModify t f => (NoAnswer, l_modify t f m :: s')
    | OpModifyNew t f => (NoAnswer, l_new t f m :: s')
    | OpAnchorAt ty rt => (AnswerFlag (bool_decide ((ty, rt) ∈ l_anchors m)), s)
    | OpPush ty tree => (NoAnswer, l_push ty (root ty tree) m :: s')
    | OpPop ty rt => (NoAnswer, l_pop ty rt m :: s')
    | OpNullifier ty nf => (AnswerFlag (bool_decide ((ty, nf) ∈ l_nullifiers m)), s)
    | OpSetNullifiers nfs spent => (NoAnswer, l_set_nullifiers nfs spent m :: s')
    | OpBestBlock => (AnswerHash (l_best_block m), s)
    | OpBestAnchor ty => (AnswerHash (l_best ty m), s)
    | OpSetBestBlock h => (NoAnswer, m <| l_best_block := h |> :: s')
    | OpLayer => (NoAnswer, m :: s)
    | OpFlush => (NoAnswer, m :: m :: tail s')
    | OpDrop => (NoAnswer, s')
    end
  end.

(** The hashes of a cache that is flushed into another are set. *)
Definition may_flush (v : CCoinsView) : Prop :=
  match v with CCoinsViewCache (CCoinsViewCache _ _) c => hashBlock c <> 0 /\ forall ty, hashAnchor ty c <> 0 | _ => True end.

(** What the callers keep to: a modification leaves canonical nulls and gives
    spent coins no meaning, a new transaction has nothing to spend in the view
    below, roots and hashes are not null, the empty root is never popped, and a
    cache is flushed into another only with its hashes set. *)
Definition respects (op : Operation) (v : CCoinsView) (s : list Ledger) : Prop :=
  match s with
  | [] => False
  | m :: s' =>
    match op with
    | OpLayer => True
    | _ => s' <> [] /\
      match op with
      | OpModify t f =>
        (forall c, coins_ok c -> nulls_ok (f c)) /\
        (l_coins m !! t = None -> forall c, IsPruned c = true -> unspent (Some (Cleanup (f c))) = unspent (Some (Cleanup (f emptyCCoins))))
      | OpModifyNew t f => nulls_ok (f emptyCCoins) /\ forall m', head s' = Some m' -> l_coins m' !! t = None
      | OpPush ty tree => root ty tree <> 0
      | OpPop ty rt => rt <> 0 /\ (l_best ty m <> rt -> (ty, l_best ty m) ∈ l_anchors m /\ l_best ty m <> empty_root ty)
      | OpSetBestBlock h => h <> 0
      | OpFlush => may_flush v
      | _ => True
      end
    end
  end.

(** * The simulation *)

(** The view refines the stack of ledgers. *)
Definition refines (v : CCoinsView) (s : list Ledger) : Prop := view_ok v /\ represents v s.

Lemma reads_refines {A} (r : A * CCoinsView) a v s : reads r a v -> refines v s -> r.1 = a /\ refines r.2 s.
Proof. intros (Hr & [Hs _] & Hok) [_ Hm]. split; [done|]. split; [done|by eapply represents_sim]. Qed.

Lemma on_top_reads {A} (r : A * CCoinsView) a w :
  reads r a (view_of w) -> (on_top r w).1 = a /\ view_of (on_top r w).2 = r.2 /\ grown (view_of w) r.2 /\ view_ok r.2.
Proof.
  intros (Hr & Hg & Hok). unfold on_top. cbn. split; [done|]. split; [|done]. destruct r as [x [d|b c]]; [by destruct Hg|done].
Qed.

Lemma represents_top w m s : represents (view_of w) (m :: s) <-> stands_for (view_of w) m /\ represents w.1 s.
Proof. done. Qed.

Lemma coins_become_refines t c w w' m s :
  coins_become t c w w' -> represents (view_of w) (m :: s) ->
  represents (view_of w') (m <| l_coins ::= partial_alter (fun _ => unspent (Some c)) t |> :: s).
Proof.
  intros (Hc & Ho & [Hs _] & Ha & Hn & Hb & Hh) [(B1 & B2 & B3 & B4 & B5) Hr]. pose proof (sim_agree _ _ Hs) as (A1 & A2 & A3 & A4 & A5).
  split; [|by eapply represents_sim]. unfold view_of in *. cbn in B1, B2, B3, B4, B5. split_and!; intros.
  - change (l_coins (_ <| l_coins ::= ?g |>)) with (g (l_coins m)). destruct (decide (t0 = t)) as [->|Hne].
    + by rewrite Hc, lookup_partial_alter_eq.
    + rewrite Ho by done. rewrite lookup_partial_alter_ne by done. by rewrite <- B1.
  - cbn. rewrite Ha, A2. apply B2.
  - cbn. rewrite Hn, A3. apply B3.
  - cbn. rewrite Hb, A4. apply B4.
  - cbn. rewrite Hh, A5. rewrite B5. by destruct ty.
Qed.

(** ** Anchors and nullifiers *)

Lemma set_anchor_refines ty h k e w m s :
  h <> 0 -> anchor_ok w.1 k e -> refines (view_of w) (m :: s) ->
  refines (view_of (w.1, set_hashAnchor ty h (w.2 <| cacheAnchors ::= <[k := e]> |>)))
    (l_set_best ty h (m <| l_anchors ::= fun s => if an_entered e then {[k]} ∪ s else s ∖ {[k]} |>) :: s).
Proof.
  intros Hh He [(Hb & V1 & V2 & V3) [(B1 & B2 & B3 & B4 & B5) Hr]]. cbn in B1, B2, B3, B4, B5. split.
  - destruct ty; cbn; (split_and!; [done..| |done]); by apply map_Forall_insert_2.
  - split; [|done]. split_and!; intros.
    + destruct ty; apply B1.
    + assert (Hk : is_Some (find_anchor k0 (view_of (w.1, set_hashAnchor ty h (w.2 <| cacheAnchors ::= <[k := e]> |>)))) <->
                   (k0 = k /\ an_entered e = true) \/ (k0 <> k /\ k0 ∈ l_anchors m)).
      { rewrite <- B2. assert (Hc : cacheAnchors (set_hashAnchor ty h (w.2 <| cacheAnchors ::= <[k := e]> |>)) = <[k := e]> (cacheAnchors w.2))
          by by destruct ty. unfold view_of. cbn [fst snd find_anchor]. rewrite Hc.
        destruct (decide (k0 = k)) as [->|Hne]; [rewrite lookup_insert_eq|rewrite lookup_insert_ne by done].
        - destruct (an_entered e); split; [by left|by intros _|by intros [? ?]|by intros [[_ [=]]|[? _]]].
        - split; [by right|]. by intros [[-> _]|[_ ?]]. }
      rewrite Hk. assert (Hl : l_anchors (l_set_best ty h (m <| l_anchors ::= fun s => if an_entered e then {[k]} ∪ s else s ∖ {[k]} |>))
                             = if an_entered e then {[k]} ∪ l_anchors m else l_anchors m ∖ {[k]}) by by destruct ty. rewrite Hl.
      destruct (decide (k0 = k)) as [->|]; destruct (an_entered e); set_solver.
    + destruct ty; apply B3.
    + destruct ty; apply B4.
    + destruct ty, ty0; cbn; rewrite ?(proj2 (Z.eqb_neq h 0) Hh); try done; [apply (B5 SAPLING)|apply (B5 SPROUT)].
Qed.

Lemma PushAnchor_refines ty tree w m s :
  root ty tree <> 0 -> refines (view_of w) (m :: s) ->
  refines (view_of (PushAnchor ty tree w)) (l_push ty (root ty tree) m :: s).
Proof.
  intros Hh Href. pose proof Href as [Hv Hm]. destruct (on_top_reads _ _ w (GetBestAnchor_reads ty _ Hv)) as (Hr & Hw & Hg & Hok).
  unfold PushAnchor, l_push. destruct (on_top _ w) as [cur w1]. cbn [fst snd] in *. subst cur.
  destruct (reads_refines _ _ _ _ (GetBestAnchor_reads ty _ Hv) Href) as [_ Href1]. rewrite <- Hw in Href1.
  replace (best_anchor ty (view_of w)) with (l_best ty m) by (by destruct Hm as [(_ & _ & _ & _ & ->) _]).
  destruct (l_best ty m =? root ty tree) eqn:E; [done|].
  apply (set_anchor_refines ty (root ty tree) (ty, root ty tree) (mkCAnchorsCacheEntry true tree true)); [done| |done].
  by split_and!.
Qed.

Lemma PopAnchor_refines ty rt w m s :
  rt <> 0 -> (l_best ty m <> rt -> (ty, l_best ty m) ∈ l_anchors m /\ l_best ty m <> empty_root ty) -> refines (view_of w) (m :: s) ->
  exists w', PopAnchor ty rt w = Some w' /\ refines (view_of w') (l_pop ty rt m :: s).
Proof.
  intros Hh Hin Href. pose proof Href as [Hv Hm]. destruct (on_top_reads _ _ w (GetBestAnchor_reads ty _ Hv)) as (Hr & Hw & Hg & Hok).
  unfold PopAnchor, l_pop. destruct (on_top _ w) as [cur w1]. cbn [fst snd] in *. subst cur.
  destruct (reads_refines _ _ _ _ (GetBestAnchor_reads ty _ Hv) Href) as [_ Href1]. rewrite <- Hw in Href1, Hok.
  replace (best_anchor ty (view_of w)) with (l_best ty m) by (by destruct Hm as [(_ & _ & _ & _ & ->) _]).
  destruct (Z.eqb_spec (l_best ty m) rt) as [E|E]; [by exists w1|]. destruct (Hin E) as [Hk He].
  destruct (on_top_reads _ _ w1 (GetAnchorAt_reads ty (l_best ty m) _ Hok)) as (Hr2 & Hw2 & Hg2 & Hok2).
  destruct (reads_refines _ _ _ _ (GetAnchorAt_reads ty (l_best ty m) _ Hok) Href1) as [_ Href2]. rewrite <- Hw2 in Href2.
  destruct (on_top _ w1) as [found w2]. cbn [fst snd] in *. subst found.
  destruct (find_anchor (ty, l_best ty m) (view_of w1)) as [tree|] eqn:F.
  - eexists. split; [done|]. apply (set_anchor_refines ty rt (ty, l_best ty m) (mkCAnchorsCacheEntry false tree true)); [done| |done].
    split_and!; [by apply (find_anchor_root _ _ _ Hok F)|done|]. intros; cbn in *; congruence.
  - destruct Href1 as [_ [(_ & B2 & _) _]]. assert (Hx : is_Some (find_anchor (ty, l_best ty m) (view_of w1))) by by apply B2.
    rewrite F in Hx. by destruct Hx.
Qed.

Lemma foldl_insert_lookup {K V} `{Countable K} (l : list K) (x : V) (m : gmap K V) k :
  foldl (fun m k => <[k := x]> m) m l !! k = if bool_decide (k ∈ l) then Some x else m !! k.
Proof.
  revert m. induction l as [|a l IH]; intros m; cbn; [done|]. rewrite IH.
  destruct (decide (k ∈ l)) as [Hl|Hl].
  - rewrite !bool_decide_eq_true_2; [done| |done]. by right.
  - rewrite (bool_decide_eq_false_2 (k ∈ l)) by done. destruct (decide (k = a)) as [->|Hne].
    + rewrite lookup_insert_eq, bool_decide_eq_true_2; [done|by left].
    + rewrite lookup_insert_ne by done. rewrite bool_decide_eq_false_2; [done|]. by intros [?|?]%elem_of_cons.
Qed.

Lemma SetNullifiers_refines nfs spent w m s :
  refines (view_of w) (m :: s) -> refines (view_of (SetNullifiers nfs spent w)) (l_set_nullifiers nfs spent m :: s).
Proof.
  intros [(Hb & V1 & V2 & V3) [(B1 & B2 & B3 & B4 & B5) Hr]]. cbn in B3. split.
  - split_and!; try done. intros k e. cbn. rewrite foldl_insert_lookup. destruct (bool_decide _); [by intros [= <-]|apply V3].
  - split; [|done]. split_and!; try done. intros k. cbn. rewrite foldl_insert_lookup.
    specialize (B3 k). destruct (decide (k ∈ nfs)) as [Hk|Hk].
    + rewrite (bool_decide_eq_true_2 (k ∈ nfs)) by done. cbn. destruct spent.
      * symmetry. apply bool_decide_eq_true_2. apply elem_of_union_l. by apply elem_of_list_to_set.
      * symmetry. apply bool_decide_eq_false_2. rewrite elem_of_difference, elem_of_list_to_set. by intros [_ ?].
    + rewrite (bool_decide_eq_false_2 (k ∈ nfs)) by done. rewrite B3. apply bool_decide_ext. destruct spent.
      * rewrite elem_of_union, elem_of_list_to_set. split; [by right|]. by intros [?|?].
      * rewrite elem_of_difference, elem_of_list_to_set. split; [done|by intros [? _]].
Qed.

(** ** Flushing *)

Section disk.
Context (d : Disk) (c : CacheData) (m : Ledger).
Hypothesis (Hv : view_ok (CCoinsViewCache (CCoinsViewDB d) c)) (Hm : stands_for (CCoinsViewCache (CCoinsViewDB d) c) m).

Lemma store_coins_ok (coins : gmap Z CCoins) :
  (forall t, coins !! t = match cacheCoins c !! t with Some e => default None (store_coins t e (db_coins d !! t)) | None => db_coins d !! t end) ->
  map_Forall (fun _ c => coins_ok c /\ IsPruned c = false) coins /\ forall t, unspent (coins !! t) = l_coins m !! t.
Proof.
  intros Hc. destruct Hv as ((Hd & _) & He & _). destruct Hm as (B1 & _).
  assert (Hok : map_Forall (fun _ c => coins_ok c /\ IsPruned c = false) coins).
  { intros t x Hx. rewrite Hc in Hx. destruct (cacheCoins c !! t) as [e|] eqn:E; [|by apply (Hd t)].
    destruct (He _ _ E) as (E1 & _). unfold store_coins in Hx. cbn in Hx. destruct (DIRTY e); [|by apply (Hd t)]. cbn in Hx.
    destruct (IsPruned (ce_coins e)) eqn:P; [done|]. by injection Hx as <-. }
  split; [done|]. intros t. rewrite <- B1, Hc. cbn [find_coins]. destruct (cacheCoins c !! t) as [e|] eqn:E; [|done].
  destruct (He _ _ E) as (_ & E2 & _). unfold store_coins. cbn [default]. destruct (DIRTY e); cbn [negb].
  - destruct (IsPruned (ce_coins e)) eqn:P; [|done]. cbn. by rewrite P.
  - by rewrite <- E2.
Qed.

Lemma store_anchors_ok (anchors : gmap (ShieldedType * Z) Tree) :
  (forall k, anchors !! k = match cacheAnchors c !! k with Some e => default None (store_anchor k e (db_anchors d !! k)) | None => db_anchors d !! k end) ->
  map_Forall (fun k tree => root k.1 tree = k.2) anchors /\
  forall k, is_Some (if k.2 =? empty_root k.1 then Some (empty_tree k.1) else anchors !! k) <-> k ∈ l_anchors m.
Proof.
  intros Hc. destruct Hv as ((_ & Hd) & _ & Ha & _). destruct Hm as (_ & B2 & _). split.
  - intros k x Hx. rewrite Hc in Hx. destruct (cacheAnchors c !! k) as [e|] eqn:E; [|by apply (Hd k)].
    destruct (Ha _ _ E) as (E1 & _). unfold store_anchor in Hx. cbn in Hx. destruct (an_DIRTY e); [|by apply (Hd k)]. cbn in Hx.
    destruct (an_entered e); [|done]. cbn in Hx. destruct (k.2 =? empty_root k.1); [by apply (Hd k)|]. by injection Hx as <-.
  - intros k. rewrite <- B2, Hc. cbn [find_anchor]. destruct (cacheAnchors c !! k) as [e|] eqn:E; [|done].
    destruct (Ha _ _ E) as (_ & E2 & E3). cbn [find_anchor] in E2. unfold store_anchor. cbn [default].
    destruct (Z.eqb_spec k.2 (empty_root k.1)) as [K|K]; [by rewrite E3|].
    destruct (an_DIRTY e); cbn [negb].
    + by destruct (an_entered e).
    + destruct E2 as [-> [x Hx]]; [done|]. by rewrite Hx.
Qed.

Lemma store_nullifiers_ok (nfs : gmap (ShieldedType * Z) bool) :
  (forall k, nfs !! k = match cacheNullifiers c !! k with Some e => default None (store_nullifier k e (db_nullifiers d !! k)) | None => db_nullifiers d !! k end) ->
  forall k, bool_decide (is_Some (nfs !! k)) = bool_decide (k ∈ l_nullifiers m).
Proof.
  intros Hc k. destruct Hv as (_ & _ & _ & Hn). destruct Hm as (_ & _ & B3 & _). rewrite <- B3, Hc. cbn [find_nullifier].
  destruct (cacheNullifiers c !! k) as [e|] eqn:E; [|done]. specialize (Hn _ _ E). unfold nullifier_ok in Hn. cbn [find_nullifier] in Hn.
  unfold store_nullifier. cbn [default]. destruct (nf_DIRTY e); cbn [negb]; [by destruct (nf_entered e)|by rewrite Hn].
Qed.

Lemma flush_disk : exists d', BatchWrite c (CCoinsViewDB d) = Some (CCoinsViewDB d') /\ refines (CCoinsViewDB d') [m].
Proof.
  cbn [BatchWrite].
  destruct (batch_spec store_coins (cacheCoins c) (db_coins d)) as (coins & -> & Hc); [by eexists|].
  destruct (batch_spec store_anchor (cacheAnchors c) (db_anchors d)) as (anchors & -> & Ha); [by eexists|].
  destruct (batch_spec store_nullifier (cacheNullifiers c) (db_nullifiers d)) as (nfs & -> & Hn); [by eexists|].
  apply store_coins_ok in Hc as [C1 C2]. apply store_anchors_ok in Ha as [A1 A2]. pose proof (store_nullifiers_ok _ Hn) as N.
  eexists. split; [reflexivity|]. split; [done|]. destruct Hm as (_ & _ & _ & B4 & B5). cbn in B4. split_and!; [done|done|done| |].
  - cbn. rewrite <- B4. by destruct (hashBlock c =? 0).
  - intros ty. rewrite <- B5. cbn. unfold store_best.
    destruct ty; cbn; destruct (hashSproutAnchor c =? 0), (hashSaplingAnchor c =? 0); by simplify_map_eq.
Qed.
End disk.

Section cache.
Context (b : CCoinsView) (p c : CacheData) (m : Ledger).
Hypothesis (Hv : view_ok (CCoinsViewCache (CCoinsViewCache b p) c)) (Hm : stands_for (CCoinsViewCache (CCoinsViewCache b p) c) m).

Lemma write_coins_runs t e : cacheCoins c !! t = Some e -> is_Some (write_coins t e (cacheCoins p !! t)).
Proof.
  intros E. destruct Hv as (_ & He & _). destruct (He _ _ E) as (_ & _ & _ & E4). cbn in E4. unfold write_coins.
  destruct (DIRTY e); cbn; [|by eexists]. destruct (cacheCoins p !! t) as [us|] eqn:P; cbn in *.
  - by destruct (FRESH us && IsPruned (ce_coins e)); eexists.
  - destruct (IsPruned (ce_coins e)); [by eexists|]. destruct (FRESH e); [by eexists|]. by destruct E4.
Qed.

Lemma write_coins_ok (coins : gmap Z CCoinsCacheEntry) :
  (forall t, coins !! t = match cacheCoins c !! t with Some e => default None (write_coins t e (cacheCoins p !! t)) | None => cacheCoins p !! t end) ->
  map_Forall (entry_ok b) coins /\
  forall t, unspent (match coins !! t with Some e => Some (ce_coins e) | None => find_coins t b end) = l_coins m !! t.
Proof.
  intros Hc. destruct Hv as ((Hb & Hp & _) & He & _). destruct Hm as (B1 & _).
  assert (Hkey : forall t, match coins !! t with Some e => entry_ok b t e | None => True end /\
                           unspent (match coins !! t with Some e => Some (ce_coins e) | None => find_coins t b end) = l_coins m !! t).
  { intros t. rewrite <- B1, Hc. cbn [find_coins]. destruct (cacheCoins c !! t) as [e|] eqn:E.
    2:{ destruct (cacheCoins p !! t) as [us|] eqn:P; [split; [by apply (Hp t)|done]|done]. }
    destruct (He _ _ E) as (E1 & E2 & E3 & E4). cbn [find_coins cached_below] in E2, E3, E4. unfold write_coins.
    destruct (DIRTY e); cbn [negb default].
    2:{ rewrite <- E2 by done. destruct (cacheCoins p !! t) as [us|] eqn:P; [split; [by apply (Hp t)|done]|done]. }
    destruct (cacheCoins p !! t) as [us|] eqn:P.
    - destruct (Hp _ _ P) as (P1 & P2 & P3 & P4). destruct (FRESH us && IsPruned (ce_coins e)) eqn:F; cbn [default].
      + apply andb_prop in F as [F1 F2]. split; [done|]. change (unspent (find_coins t b) = unspent (Some (ce_coins e))).
        rewrite P3 by done. cbn. by rewrite F2.
      + split; [|done]. split_and!; done.
    - destruct (FRESH e); [|by destruct E4]. destruct (IsPruned (ce_coins e)) eqn:F; cbn [default].
      + split; [done|]. change (unspent (find_coins t b) = unspent (Some (ce_coins e))). rewrite E3 by done. cbn. by rewrite F.
      + split; [|done]. by split_and!. }
  split; [|apply Hkey]. intros t e Ht. destruct (Hkey t) as [Hk _]. by rewrite Ht in Hk.
Qed.

Lemma write_anchors_ok (anchors : gmap (ShieldedType * Z) CAnchorsCacheEntry) :
  (forall k, anchors !! k = match cacheAnchors c !! k with Some e => default None (write_anchor k e (cacheAnchors p !! k)) | None => cacheAnchors p !! k end) ->
  map_Forall (anchor_ok b) anchors /\
  forall k, is_Some (match anchors !! k with Some e => if an_entered e then Some (an_tree e) else None | None => find_anchor k b end) <-> k ∈ l_anchors m.
Proof.
  intros Hc. destruct Hv as ((Hb & _ & Hp & _) & _ & Ha & _). destruct Hm as (_ & B2 & _).
  assert (Hkey : forall k, match anchors !! k with Some e => anchor_ok b k e | None => True end /\
      (is_Some (match anchors !! k with Some e => if an_entered e then Some (an_tree e) else None | None => find_anchor k b end) <-> k ∈ l_anchors m)).
  { intros k. rewrite <- B2, Hc. cbn [find_anchor]. destruct (cacheAnchors c !! k) as [e|] eqn:E.
    2:{ destruct (cacheAnchors p !! k) as [us|] eqn:P; [split; [by apply (Hp k)|done]|done]. }
    destruct (Ha _ _ E) as (E1 & E2 & E3). cbn [find_anchor] in E2. unfold write_anchor. destruct (an_DIRTY e); cbn [negb default].
    2:{ destruct (E2 eq_refl) as [-> [x Hx]]. destruct (cacheAnchors p !! k) as [us|] eqn:P; cbn in *; rewrite Hx; [|done].
        split; [by apply (Hp k)|done]. }
    destruct (cacheAnchors p !! k) as [us|] eqn:P; [|by split_and!].
    destruct (Hp _ _ P) as (P1 & P2 & P3). destruct (an_entered us) eqn:U, (an_entered e) eqn:F; cbn; rewrite ?U, ?F; split; try done;
      by split_and!; cbn; rewrite ?U. }
  split; [|apply Hkey]. intros t e Ht. destruct (Hkey t) as [Hk _]. by rewrite Ht in Hk.
Qed.

Lemma write_nullifiers_ok (nfs : gmap (ShieldedType * Z) CNullifiersCacheEntry) :
  (forall k, nfs !! k = match cacheNullifiers c !! k with Some e => default None (write_nullifier k e (cacheNullifiers p !! k)) | None => cacheNullifiers p !! k end) ->
  map_Forall (nullifier_ok b) nfs /\
  forall k, (match nfs !! k with Some e => nf_entered e | None => find_nullifier k b end) = bool_decide (k ∈ l_nullifiers m).
Proof.
  intros Hc. destruct Hv as ((Hb & _ & _ & Hp) & _ & _ & Hn). destruct Hm as (_ & _ & B3 & _).
  assert (Hkey : forall k, match nfs !! k with Some e => nullifier_ok b k e | None => True end /\
      (match nfs !! k with Some e => nf_entered e | None => find_nullifier k b end) = bool_decide (k ∈ l_nullifiers m)).
  { intros k. rewrite <- B3, Hc. cbn [find_nullifier]. destruct (cacheNullifiers c !! k) as [e|] eqn:E.
    2:{ destruct (cacheNullifiers p !! k) as [us|] eqn:P; [split; [by apply (Hp k)|done]|done]. }
    pose proof (Hn _ _ E) as E2. unfold nullifier_ok in E2. cbn [find_nullifier] in E2. unfold write_nullifier. destruct (nf_DIRTY e); cbn [negb default].
    2:{ rewrite E2 by done. destruct (cacheNullifiers p !! k) as [us|] eqn:P; [|done]. split; [by apply (Hp k)|done]. }
    destruct (cacheNullifiers p !! k) as [us|] eqn:P; [|done].
    pose proof (Hp _ _ P) as P1. destruct (nf_entered us) eqn:U, (nf_entered e) eqn:F; cbn; rewrite ?U, ?F; done. }
  split; [|apply Hkey]. intros t e Ht. destruct (Hkey t) as [Hk _]. by rewrite Ht in Hk.
Qed.

Lemma flush_cache s :
  hashBlock c <> 0 -> (forall ty, hashAnchor ty c <> 0) -> represents b s ->
  exists p', BatchWrite c (CCoinsViewCache b p) = Some (CCoinsViewCache b p') /\ refines (CCoinsViewCache b p') (m :: s).
Proof.
  intros H1 H2 Hs. cbn [BatchWrite].
  destruct (batch_spec write_coins (cacheCoins c) (cacheCoins p)) as (coins & -> & Hc); [by apply write_coins_runs|].
  destruct (batch_spec write_anchor (cacheAnchors c) (cacheAnchors p)) as (anchors & -> & Ha); [by eexists|].
  destruct (batch_spec write_nullifier (cacheNullifiers c) (cacheNullifiers p)) as (nfs & -> & Hn); [by eexists|].
  apply write_coins_ok in Hc as [C1 C2]. apply write_anchors_ok in Ha as [A1 A2]. apply write_nullifiers_ok in Hn as [N1 N2].
  eexists. split; [reflexivity|]. destruct Hm as (_ & _ & _ & B4 & B5). cbn in B4. split; [by destruct Hv as ((Hb & _) & _)|].
  split; [|done]. split_and!; [done|done|done| |].
  - cbn. rewrite <- B4. apply Z.eqb_neq in H1. by rewrite H1.
  - intros ty. rewrite <- B5. pose proof (H2 ty) as Ht. apply Z.eqb_neq in Ht. cbn. destruct ty; cbn in *; by rewrite Ht.
Qed.
End cache.

(** A cache with nothing in it, whose hashes are unset or right. *)
Lemma empty_cache_refines v c m s :
  cacheCoins c = ∅ -> cacheAnchors c = ∅ -> cacheNullifiers c = ∅ -> (hashBlock c <> 0 -> hashBlock c = l_best_block m) ->
  (forall ty, hashAnchor ty c <> 0 -> hashAnchor ty c = l_best ty m) -> stands_for v m -> refines v s ->
  refines (view_of (v, c)) (m :: s).
Proof.
  intros E1 E2 E3 Hb Ha (B1 & B2 & B3 & B4 & B5) [Hv Hr]. split.
  - cbn. rewrite E1, E2, E3. split_and!; [done|apply map_Forall_empty..].
  - split; [|done]. split_and!; intros; cbn; rewrite ?E1, ?E2, ?E3, ?lookup_empty; auto.
    + destruct (Z.eqb_spec (hashBlock c) 0); auto.
    + destruct (Z.eqb_spec (hashAnchor ty c) 0); auto.
Qed.

Lemma represents_head v m s : represents v (m :: s) -> stands_for v m.
Proof. destruct v; cbn; [by destruct s|by intros [? _]]. Qed.

Lemma new_cache_refines v m s : refines v (m :: s) -> refines (view_of (new_cache v)) (m :: m :: s).
Proof. intros Hr. apply empty_cache_refines; try done; [by intros []|]. by eapply represents_head, Hr. Qed.

(** A hash that is set is the best one. *)
Lemma set_hashes w m :
  stands_for (view_of w) m -> (hashBlock w.2 <> 0 -> hashBlock w.2 = l_best_block m) /\ (forall ty, hashAnchor ty w.2 <> 0 -> hashAnchor ty w.2 = l_best ty m).
Proof.
  intros (_ & _ & _ & B4 & B5). split; [intros Hn|intros ty Hn]; apply Z.eqb_neq in Hn.
  - rewrite <- B4. cbn. by rewrite Hn.
  - rewrite <- B5. cbn. by rewrite Hn.
Qed.

Lemma Flush_coins_refines w m s :
  may_flush (view_of w) -> refines (view_of w) (m :: s) ->
  exists w', Flush_coins w = Some w' /\ refines (view_of w') (m :: m :: tail s).
Proof.
  intros Hf [Hv [Hm Hs]]. unfold Flush_coins. destruct (set_hashes _ _ Hm) as [Hb Ha]. destruct w as [[d|b p] c]; cbn [fst snd] in *.
  - destruct (flush_disk d c m Hv Hm) as (d' & -> & Hr). eexists. split; [reflexivity|].
    destruct s as [|m' [|]]; try done. apply empty_cache_refines; try done. by eapply represents_head, Hr.
  - destruct s as [|m' s']; [done|]. destruct Hf as [F1 F2]. destruct Hs as [_ Hs'].
    destruct (flush_cache b p c m Hv Hm s' F1 F2 Hs') as (p' & -> & Hr). eexists. split; [reflexivity|].
    apply empty_cache_refines; try done. by eapply represents_head, Hr.
Qed.

Lemma SetBestBlock_refines h w m s :
  h <> 0 -> refines (view_of w) (m :: s) -> refines (view_of (SetBestBlock h w)) (m <| l_best_block := h |> :: s).
Proof.
  intros Hh [Hv [(B1 & B2 & B3 & B4 & B5) Hr]]. split; [by eapply view_ok_hashes; [..|exact Hv]|]. split; [|done].
  split_and!; try done. cbn. apply Z.eqb_neq in Hh. by rewrite Hh.
Qed.

Lemma set_coins_ext (g g' : gmap Z CCoins -> gmap Z CCoins) m : g (l_coins m) = g' (l_coins m) -> m <| l_coins ::= g |> = m <| l_coins ::= g' |>.
Proof. intros E. unfold set. cbn. by rewrite E. Qed.

Lemma OpModify_refines t f w m s :
  (forall c, coins_ok c -> nulls_ok (f c)) ->
  (l_coins m !! t = None -> forall c, IsPruned c = true -> unspent (Some (Cleanup (f c))) = unspent (Some (Cleanup (f emptyCCoins)))) ->
  refines (view_of w) (m :: s) ->
  refines (view_of (ModifyCoins t (fun c => (tt, f c)) w).2) (l_modify t f m :: s).
Proof.
  intros Hn Hp [Hv Hm]. assert (B1 : unspent (find_coins t (view_of w)) = l_coins m !! t) by apply Hm.
  assert (Hc : coins_ok (default emptyCCoins (find_coins t (view_of w)))).
  { destruct (find_coins t (view_of w)) eqn:F; [by eapply find_coins_ok|apply emptyCCoins_ok]. }
  destruct (ModifyCoins_spec t (fun c => (tt, f c)) w Hv (Hn _ Hc)) as (_ & Hv' & Hb). split; [done|].
  eapply coins_become_refines in Hb; [|exact Hm]. cbn [snd] in Hb.
  replace (l_modify t f m) with (m <| l_coins ::= partial_alter (fun _ => unspent (Some (Cleanup (f (default emptyCCoins (find_coins t (view_of w))))))) t |>); [done|].
  unfold l_modify. apply set_coins_ext. apply partial_alter_ext. intros o Ho. rewrite <- B1 in Ho, Hp.
  destruct (find_coins t (view_of w)) as [c|] eqn:F; cbn in Ho; [|by subst o]. cbn [default] in *.
  destruct (IsPruned c) eqn:P; subst o; [|done]. apply Hp; [|done]. unfold unspent, mbind, option_bind. by rewrite P.
Qed.

Lemma OpModifyNew_refines t f w m m' s :
  nulls_ok (f emptyCCoins) -> l_coins m' !! t = None -> refines (view_of w) (m :: m' :: s) ->
  refines (view_of (ModifyNewCoins t f w)) (l_new t f m :: m' :: s).
Proof.
  intros Hn Ht [Hv Hm]. pose proof Hm as [_ (B1 & _)%represents_head].
  destruct (ModifyNewCoins_spec t f w Hv Hn) as [Hv' Hb]; [by rewrite B1|]. split; [done|].
  by eapply coins_become_refines in Hb; [|exact Hm].
Qed.

(** ** Sequences of operations *)

Lemma perform_refines op v s :
  refines v s -> respects op v s ->
  exists v', perform op v = Some ((specify op s).1, v') /\ refines v' (specify op s).2.
Proof.
  intros Href Hop. destruct s as [|m s]; [by destruct Href as [_ ?], v|].
  destruct v as [d|b c].
  { destruct op; cbn in Hop; destruct Href as [? ?]; destruct s; try done; try by destruct Hop as [? _].
    eexists. split; [reflexivity|]. by apply (new_cache_refines (CCoinsViewDB d) m []). }
  pose proof Href as [Hv [Hm Hs]]. pose proof Hm as (B1 & B2 & B3 & B4 & B5).
  destruct op; cbn [respects] in Hop; (try destruct Hop as [Hne Hop]); cbn [perform specify fst snd].
  - destruct (reads_refines _ _ _ _ (proj1 (GetCoins_reads txid _ Hv)) Href) as [-> ?]. rewrite B1. by eexists.
  - destruct (reads_refines _ _ _ _ (HaveCoins_reads txid _ Hv) Href) as [-> ?]. rewrite B1. by eexists.
  - destruct Hop as [Hn Hp]. eexists. split; [reflexivity|]. by apply (OpModify_refines txid f (b, c)).
  - destruct Hop as [Hn Hp]. destruct s as [|m' s']; [done|]. eexists. split; [reflexivity|].
    by apply (OpModifyNew_refines txid f (b, c)); [|apply Hp|].
  - destruct (reads_refines _ _ _ _ (GetAnchorAt_reads type rt _ Hv) Href) as [-> ?]. eexists. split; [|done].
    do 3 f_equal. by apply bool_decide_ext.
  - eexists. split; [reflexivity|]. by apply (PushAnchor_refines type tree (b, c)).
  - destruct Hop as [H1 H2]. destruct (PopAnchor_refines type rt (b, c) m s H1 H2 Href) as (w' & -> & ?). by eexists.
  - destruct (reads_refines _ _ _ _ (GetNullifier_reads type nf _ Hv) Href) as [-> ?]. rewrite B3. by eexists.
  - eexists. split; [reflexivity|]. by apply (SetNullifiers_refines nfs spent (b, c)).
  - destruct (reads_refines _ _ _ _ (GetBestBlock_reads _ Hv) Href) as [-> ?]. rewrite B4. by eexists.
  - destruct (reads_refines _ _ _ _ (GetBestAnchor_reads type _ Hv) Href) as [-> ?]. rewrite B5. by eexists.
  - eexists. split; [reflexivity|]. by apply (SetBestBlock_refines h (b, c)).
  - eexists. split; [reflexivity|]. by apply new_cache_refines.
  - destruct (Flush_coins_refines (b, c) m s Hop Href) as (w' & -> & ?). by eexists.
  - eexists. split; [reflexivity|]. by destruct Hv.
Qed.

Fixpoint perform_all (ops : list Operation) (v : CCoinsView) : option (list Answer * CCoinsView) :=
  match ops with
  | [] => Some ([], v)
  | op :: ops' => r ← perform op v; rs ← perform_all ops' r.2; Some (r.1 :: rs.1, rs.2)
  end.

Fixpoint specify_all (ops : list Operation) (s : list Ledger) : list Answer * list Ledger :=
  match ops with
  | [] => ([], s)
  | op :: ops' => let r := specify op s in let rs := specify_all ops' r.2 in (r.1 :: rs.1, rs.2)
  end.

Fixpoint respects_all (ops : list Operation) (v : CCoinsView) (s : list Ledger) : Prop :=
  match ops with
  | [] => True
  | op :: ops' => respects op v s /\ forall a v', perform op v = Some (a, v') -> respects_all ops' v' (specify op s).2
  end.

(** C4. The stack of caches is a stack of ledgers: for any sequence of reads,
    modifications, new layers, flushes and drops that the callers may make, no
    assertion of the source fails, every answer is the one the plain ledgers
    give, and the views stand for the ledgers afterwards; so the DIRTY and FRESH
    flags never lose, resurrect or duplicate an output, an anchor or a
    nullifier. *)
Theorem coins_views_refine (ops : list Operation) (v : CCoinsView) (s : list Ledger) :
  refines v s -> respects_all ops v s ->
  exists v', perform_all ops v = Some ((specify_all ops s).1, v') /\ refines v' (specify_all ops s).2.
Proof.
  revert v s. induction ops as [|op ops IH]; intros v s Hr Ha; [by eexists|]. destruct Ha as [Hop Ha].
  destruct (perform_refines _ _ _ Hr Hop) as (v1 & H1 & Hr1). destruct (IH _ _ Hr1 (Ha _ _ H1)) as (v2 & H2 & Hr2).
  exists v2. cbn [perform_all specify_all]. rewrite H1. cbn. by rewrite H2.
Qed.

(** ** Facts for callers *)

(** Spending an output keeps to the contract. *)
Lemma Spend_respects n :
  (forall c, coins_ok c -> nulls_ok (Spend n c).2) /\
  (forall c, IsPruned c = true -> unspent (Some (Cleanup (Spend n c).2)) = unspent (Some (Cleanup (Spend n emptyCCoins).2))).
Proof.
  split; intros c.
  - intros Hc. unfold Spend. destruct (IsAvailable c n) eqn:E; [|apply Hc]. cbn. apply Cleanup_ok. apply Forall_insert; [apply Hc|done].
  - intros Hp. assert (Hn : IsAvailable c n = false).
    { unfold IsAvailable. destruct (cc_vout c !! Z.to_nat n) as [out|] eqn:E; [|done]. unfold IsPruned in Hp.
      rewrite forallb_forall in Hp. rewrite Hp; [done|]. by apply list_elem_of_In, list_elem_of_lookup_2 with (Z.to_nat n). }
    unfold Spend. rewrite Hn. cbn [snd IsAvailable]. unfold unspent, mbind, option_bind. by rewrite Cleanup_pruned, Hp.
Qed.

(** A database without shielded records. *)
Lemma unshielded_disk_refines (coins : gmap Z CCoins) (best : Z) :
  map_Forall (fun _ c => coins_ok c /\ IsPruned c = false) coins ->
  refines (CCoinsViewDB (mkDisk coins ∅ ∅ (Some best) ∅))
    [mkLedger coins {[ (SPROUT, empty_root SPROUT); (SAPLING, empty_root SAPLING) ]} ∅ best (empty_root SPROUT) (empty_root SAPLING)].
Proof.
  intros Hc. split; [split; [done|by apply map_Forall_empty]|]. split_and!; [| | |done|by intros []].
  - intros t. cbn [find_coins db_coins l_coins]. destruct (coins !! t) as [c|] eqn:E; [|done]. apply unspent_Some. split; [done|]. by apply (Hc t c).
  - intros [ty rt]. cbn. rewrite lookup_empty. destruct (Z.eqb_spec rt (empty_root ty)) as [->|Hne].
    + split; [|by eexists]. intros _. destruct ty; set_solver.
    + split; [by intros [? [=]]|]. intros Hin. destruct ty; set_solver.
  - intros k. cbn. rewrite lookup_empty. symmetry. apply bool_decide_eq_false_2. set_solver.
Qed.
End ledger.

(** * A small history *)

(** Trees that are lists of commitments. *)
#[local] Instance list_trees : Commitments :=
  {| Tree := list Z; root _ tree := 1 + Z.of_nat (length tree); empty_tree _ := []; append_commitment := cons |}.

Definition sample_coins : CCoins := mkCCoins true [mkCTxOut 50 []; mkCTxOut 20 []] 3 1.

(** The database holds one transaction; a block in a cache of its own spends an
    output of it and adds a transaction, whose output the cache below spends
    after the flush. *)
Definition sample_history : list Operation :=
  [ OpLayer; OpGetCoins 5; OpBestAnchor SPROUT; OpLayer;
    OpModify 5 (fun c => (Spend 0 c).2); OpModifyNew 6 (fun _ => sample_coins); OpSetNullifiers [(SPROUT, 11)] true;
    OpPush SPROUT [21]; OpPush SAPLING [22]; OpSetBestBlock 901; OpFlush; OpDrop;
    OpModify 6 (fun c => (Spend 0 c).2); OpModify 5 (fun c => (Spend 1 c).2); OpPop SPROUT 1; OpSetNullifiers [(SPROUT, 11)] false;
    OpHaveCoins 5; OpAnchorAt SPROUT 2; OpFlush; OpGetCoins 6; OpDrop ].

Definition sample_view : CCoinsView := CCoinsViewDB (mkDisk {[5 := sample_coins]} ∅ ∅ (Some 900) ∅).
Definition sample_ledger : Ledger :=
  mkLedger {[5 := sample_coins]} {[ (SPROUT, empty_root SPROUT); (SAPLING, empty_root SAPLING) ]} ∅ 900 (empty_root SPROUT) (empty_root SAPLING).

Lemma sample_refines : refines sample_view [sample_ledger].
Proof. apply unshielded_disk_refines. apply map_Forall_singleton. split; [split; [done|]|done]. by repeat (apply Forall_cons_2; [done|]). Qed.

Ltac op_respects :=
  first
    [ exact I
    | split; [discriminate|];
      first
        [ exact I
        | split; [apply Spend_respects|intros _; apply Spend_respects]
        | split; [by repeat (apply Forall_cons_2; [done|])|intros m' [= <-]; vm_compute; reflexivity]
        | discriminate
        | split; [discriminate|intros []; discriminate]
        | split; [discriminate|intros _; split; [apply (bool_decide_unpack _); vm_compute; exact I|discriminate]] ] ].

Lemma sample_respects : respects_all sample_history sample_view [sample_ledger].
Proof.
  unfold sample_history.
  repeat (split; [op_respects|let E := fresh "E" in intros ? ? E; vm_compute in E; injection E as <- <-]).
  exact I.
Qed.

(** Witness: the small history, to its last answer. *)
Lemma coins_views_refine_witness :
  exists v', perform_all sample_history sample_view = Some ((specify_all sample_history [sample_ledger]).1, v') /\
             refines v' (specify_all sample_history [sample_ledger]).2.
Proof. exact (coins_views_refine sample_history sample_view [sample_ledger] sample_refines sample_respects). Defined.

(** What that history leaves: one output of the new transaction, and nothing of
    the old one. *)
Example sample_history_leaves :
  map l_coins (specify_all sample_history [sample_ledger]).2 = [{[6 := mkCCoins true [CTxOut_null; mkCTxOut 20 []] 3 1]}].
Proof. vm_compute. reflexivity. Qed.
