(* ===== verification/CoinsBlock.v ===== *)
(** Blocks on the coins view (main.cpp, coins.cpp, undo.h): the part of
    [ConnectBlock] that spends inputs, adds outputs, enters nullifiers and
    anchors and records how to undo it, and the part of [DisconnectBlock] that
    does undo it.

    The shielded fields of a transaction are not part of the transaction model;
    they are read through a parameter. *)

From stdpp Require Import gmap list fin_maps.
From Stdlib Require Import ZArith Lia.
From S2P Require Import Prelude Transaction Platform Coins.

(** * Shielded data and undo records *)

Record JSDescription := mkJSDescription { js_anchor : Z; js_nullifiers : list Z; js_commitments : list Z }.
Record SpendDescription := mkSpendDescription { sd_anchor : Z; sd_nullifier : Z }.

(** [vJoinSplit], [vShieldedSpend] and the commitments of [vShieldedOutput]. *)
Record Shielded := mkShielded {
  sh_joinsplits : list JSDescription;
  sh_spends : list SpendDescription;
  sh_outputs : list Z;
}.

(** [CTxInUndo]: the output spent and, if it was the last one of its
    transaction, what else the record of the transaction held. *)
Record CTxInUndo := mkCTxInUndo { ui_txout : CTxOut; ui_fCoinBase : bool; ui_nHeight : Z; ui_nVersion : Z }.

(** [CBlockUndo]: an entry for every transaction but the coinbase. *)
Record CBlockUndo := mkCBlockUndo { vtxundo : list (list CTxInUndo); old_sprout_tree_root : Z }.

Section blocks.
Context `{Commitments} (shielded : CTransaction -> Shielded).

(** The nullifiers [SetNullifiers] goes through. *)
Definition nullifiers_of (tx : CTransaction) : list (ShieldedType * Z) :=
  concat (map (fun js => map (pair SPROUT) (js_nullifiers js)) (sh_joinsplits (shielded tx))) ++
  map (fun sd => (SAPLING, sd_nullifier sd)) (sh_spends (shielded tx)).

(** * Connecting *)

(** [CCoinsViewCache::HaveInputs]. *)
Fixpoint have_inputs (ins : list CTxIn) (w : TopCache) : bool * TopCache :=
  match ins with
  | [] => (true, w)
  | txin :: ins' =>
    let '(coins, w) := on_top (GetCoins (op_hash (prevout txin)) (view_of w)) w in
    if match coins with Some c => IsAvailable c (op_n (prevout txin)) | None => false end then have_inputs ins' w else (false, w)
  end.

Definition view_HaveInputs (tx : CTransaction) (w : TopCache) : bool * TopCache :=
  if IsCoinBase tx then (true, w) else have_inputs (vin tx) w.

(** [HaveShieldedRequirements]: whether one of the nullifiers is spent, ... *)
Fixpoint any_spent (type : ShieldedType) (nfs : list Z) (w : TopCache) : bool * TopCache :=
  match nfs with
  | [] => (false, w)
  | nf :: nfs' =>
    let '(spent, w) := on_top (GetNullifier type nf (view_of w)) w in
    if (spent : bool) then (true, w) else any_spent type nfs' w
  end.

(** ... the joinsplits, each anchored in the chain or in an earlier one of the
    transaction, ... *)
Fixpoint joinsplits_met (js : list JSDescription) (intermediates : gmap Z Tree) (w : TopCache) : bool * TopCache :=
  match js with
  | [] => (true, w)
  | j :: js' =>
    let '(spent, w) := any_spent SPROUT (js_nullifiers j) w in
    if (spent : bool) then (false, w)
    else
      let '(found, w) :=
        match intermediates !! js_anchor j with
        | Some tree => (Some tree, w)
        | None => on_top (GetAnchorAt SPROUT (js_anchor j) (view_of w)) w
        end in
      match found with
      | None => (false, w)
      | Some tree =>
        let tree := foldl (fun tree cm => append_commitment cm tree) tree (js_commitments j) in
        (* boost::unordered_map::insert keeps an existing entry *)
        joinsplits_met js' (match intermediates !! root SPROUT tree with Some _ => intermediates | None => <[root SPROUT tree := tree]> intermediates end) w
      end
  end.

(** ... and the Sapling spends. *)
Fixpoint spends_met (sds : list SpendDescription) (w : TopCache) : bool * TopCache :=
  match sds with
  | [] => (true, w)
  | sd :: sds' =>
    let '(spent, w) := any_spent SAPLING [sd_nullifier sd] w in
    if (spent : bool) then (false, w)
    else
      let '(found, w) := on_top (GetAnchorAt SAPLING (sd_anchor sd) (view_of w)) w in
      match found with None => (false, w) | Some _ => spends_met sds' w end
  end.

Definition HaveShieldedRequirements (tx : CTransaction) (w : TopCache) : bool * TopCache :=
  let '(met, w) := joinsplits_met (sh_joinsplits (shielded tx)) ∅ w in
  if (met : bool) then spends_met (sh_spends (shielded tx)) w else (false, w).

(** What [UpdateCoins] does to the coins of one input: [None] is
    [assert(false)]. *)
Definition spend_output (n : Z) (c : CCoins) : option CTxInUndo * CCoins :=
  match cc_vout c !! Z.to_nat n with
  | Some out =>
    if CTxOut_IsNull out then (None, c)
    else
      let c' := (Spend n c).2 in
      (Some (if bool_decide (cc_vout c' = []) then mkCTxInUndo out (cc_fCoinBase c') (u32 (cc_nHeight c')) (cc_nVersion c')
             else mkCTxInUndo out false 0 0), c')
  | None => (None, c)
  end.

Fixpoint spend_inputs (ins : list CTxIn) (w : TopCache) : option (list CTxInUndo * TopCache) :=
  match ins with
  | [] => Some ([], w)
  | txin :: ins' =>
    let '(undo, w) := ModifyCoins (op_hash (prevout txin)) (spend_output (op_n (prevout txin))) w in
    u ← undo; r ← spend_inputs ins' w; Some (u :: r.1, r.2)
  end.

(** [UpdateCoins] with its undo data. *)
Definition UpdateCoinsUndo (nHeight : Z) (tx : CTransaction) (w : TopCache) : option (list CTxInUndo * TopCache) :=
  r ← (if IsCoinBase tx then Some ([], w) else spend_inputs (vin tx) w);
  Some (r.1, ModifyNewCoins (GetHash tx) (fun _ => CCoins_FromTx tx nHeight) (SetNullifiers (nullifiers_of tx) true r.2)).

(** The trees of the two pools while a block is connected. *)
Definition append_joinsplits (tx : CTransaction) (tree : Tree) : Tree :=
  foldl (fun tree cm => append_commitment cm tree) tree (concat (map js_commitments (sh_joinsplits (shielded tx)))).
Definition append_outputs (tx : CTransaction) (tree : Tree) : Tree :=
  foldl (fun tree cm => append_commitment cm tree) tree (sh_outputs (shielded tx)).

(** The loop over the transactions: [None] where the block is rejected. *)
Fixpoint connect_txs_coins (nHeight : Z) (vtx : list CTransaction) (w : TopCache) : option (list (list CTxInUndo) * TopCache) :=
  match vtx with
  | [] => Some ([], w)
  | tx :: vtx' =>
    let '(have, w) := view_HaveInputs tx w in
    let '(met, w) := if IsCoinBase tx then (true, w) else HaveShieldedRequirements tx w in
    if have && met then
      u ← UpdateCoinsUndo nHeight tx w; r ← connect_txs_coins nHeight vtx' u.2; Some (u.1 :: r.1, r.2)
    else None
  end.

(** No transaction of the block overwrites one with outputs to spend (BIP30). *)
Fixpoint none_overwritten (vtx : list CTransaction) (w : TopCache) : bool * TopCache :=
  match vtx with
  | [] => (true, w)
  | tx :: vtx' =>
    let '(coins, w) := on_top (GetCoins (GetHash tx) (view_of w)) w in
    if match coins with Some c => negb (IsPruned c) | None => false end then (false, w) else none_overwritten vtx' w
  end.

(** The coins part of [ConnectBlock]. *)
Definition ConnectBlockCoins (nHeight blockHash : Z) (vtx : list CTransaction) (w : TopCache) : option (CBlockUndo * TopCache) :=
  let '(fresh, w) := none_overwritten vtx w in
  let '(old_root, w) := on_top (GetBestAnchor SPROUT (view_of w)) w in
  let '(sprout, w) := on_top (GetAnchorAt SPROUT old_root (view_of w)) w in
  let '(best_sapling, w) := on_top (GetBestAnchor SAPLING (view_of w)) w in
  let '(sapling, w) := on_top (GetAnchorAt SAPLING best_sapling (view_of w)) w in
  match fresh, sprout, sapling with
  | true, Some sprout_tree, Some sapling_tree =>
    if negb (root SPROUT sprout_tree =? old_root) then None
    else
      r ← connect_txs_coins nHeight vtx w;
      let w := PushAnchor SPROUT (foldl (fun tree tx => append_joinsplits tx tree) sprout_tree vtx) r.2 in
      let w := PushAnchor SAPLING (foldl (fun tree tx => append_outputs tx tree) sapling_tree vtx) w in
      Some (mkCBlockUndo (tail r.1) old_root, SetBestBlock blockHash w)
  | _, _, _ => None
  end.

(** * Disconnecting *)

(** [ApplyTxInUndo] on the coins the output belonged to. *)
Definition restore_output (n : Z) (undo : CTxInUndo) (c : CCoins) : bool * CCoins :=
  let clean1 := if negb (ui_nHeight undo =? 0) then IsPruned c else negb (IsPruned c) in
  let c := if negb (ui_nHeight undo =? 0) then mkCCoins (ui_fCoinBase undo) [] (ui_nHeight undo) (ui_nVersion undo) else c in
  let clean2 := negb (IsAvailable c n) in
  let vout := if (length (cc_vout c) <? S (Z.to_nat n))%nat then resize (S (Z.to_nat n)) CTxOut_null (cc_vout c) else cc_vout c in
  (clean1 && clean2, c <| cc_vout := <[Z.to_nat n := ui_txout undo]> vout |>).

Definition ApplyTxInUndo (undo : CTxInUndo) (out : COutPoint) (w : TopCache) : bool * TopCache :=
  ModifyCoins (op_hash out) (restore_output (op_n out) undo) w.

(** The inputs of a transaction, last to first. *)
Definition restore_inputs (ins : list CTxIn) (undos : list CTxInUndo) (w : TopCache) : bool * TopCache :=
  foldl (fun '(clean, w) '(txin, undo) => let '(b, w) := ApplyTxInUndo undo (prevout txin) w in (clean && b, w))
    (true, w) (rev (zip ins undos)).

(** The outputs of a transaction are compared with the block's and removed. *)
Definition remove_outputs (nHeight : Z) (tx : CTransaction) (c : CCoins) : bool * CCoins :=
  let outsBlock := CCoins_FromTx tx nHeight in
  let outs := ClearUnspendable c in
  let outs := if cc_nVersion outsBlock <? 0 then outs <| cc_nVersion := cc_nVersion outsBlock |> else outs in
  (CCoins_eqb outs outsBlock, emptyCCoins).

(** One transaction; [undos] is absent for the coinbase. *)
Definition disconnect_tx (nHeight : Z) (tx : CTransaction) (undos : option (list CTxInUndo)) (w : TopCache) : option (bool * TopCache) :=
  let '(clean1, w) := ModifyCoins (GetHash tx) (remove_outputs nHeight tx) w in
  let w := SetNullifiers (nullifiers_of tx) false w in
  match undos with
  | None => Some (clean1, w)
  | Some us =>
    if (length us =? length (vin tx))%nat then
      let '(clean2, w) := restore_inputs (vin tx) us w in Some (clean1 && clean2, w)
    else None
  end.

Fixpoint disconnect_txs (nHeight : Z) (vtx : list (CTransaction * option (list CTxInUndo))) (w : TopCache) : option (bool * TopCache) :=
  match vtx with
  | [] => Some (true, w)
  | (tx, us) :: vtx' => r ← disconnect_tx nHeight tx us w; r' ← disconnect_txs nHeight vtx' r.2; Some (r.1 && r'.1, r'.2)
  end.

(** The coins part of [DisconnectBlock]: whether the block was undone cleanly,
    or [None] for DISCONNECT_FAILED and failed assertions. *)
Definition DisconnectBlockCoins (nHeight blockHash prevHash prevSaplingRoot : Z) (vtx : list CTransaction) (undo : CBlockUndo) (w : TopCache)
    : option (bool * TopCache) :=
  let '(best, w) := on_top (GetBestBlock (view_of w)) w in
  if negb (best =? blockHash) || negb (length (vtxundo undo) + 1 =? length vtx)%nat then None
  else
    r ← disconnect_txs nHeight (rev (zip vtx (None :: map Some (vtxundo undo)))) w;
    w ← PopAnchor SPROUT (old_sprout_tree_root undo) r.2;
    w ← PopAnchor SAPLING prevSaplingRoot w;
    Some (r.1, SetBestBlock prevHash w).

(** * The tip *)

(** [ConnectTip] and [DisconnectTip] apply the block in a cache of its own over
    the coins of the tip and flush it: [None] where the block is refused, or
    an assertion fails, and the coins of the tip are left as they were. *)
Definition ConnectTipCoins (nHeight blockHash : Z) (vtx : list CTransaction) (pcoinsTip : CCoinsView) : option (CBlockUndo * CCoinsView) :=
  r ← ConnectBlockCoins nHeight blockHash vtx (new_cache pcoinsTip);
  w ← Flush_coins r.2;
  Some (r.1, w.1).

Definition DisconnectTipCoins (nHeight blockHash prevHash prevSaplingRoot : Z) (vtx : list CTransaction) (undo : CBlockUndo) (pcoinsTip : CCoinsView)
    : option CCoinsView :=
  r ← DisconnectBlockCoins nHeight blockHash prevHash prevSaplingRoot vtx undo (new_cache pcoinsTip);
  if (r.1 : bool) then w ← Flush_coins r.2; Some w.1 else None.
End blocks.
