(* ===== verification/CoinsReorg.v ===== *)
(** Reorganisations of the coins view: connecting a block in a cache of its own,
    flushing it, and disconnecting it the same way restores the ledger exactly. *)

From stdpp Require Import gmap list fin_maps.
From Stdlib Require Import ZArith Lia.
From S2P Require Import Prelude Transaction Platform Coins CoinsView CoinsLedger CoinsBlock.

(** * One output *)

Abbreviation canonical := (Forall (fun out => CTxOut_IsNull out = true -> out = CTxOut_null)).

Lemma drop_nulls_tail l : canonical l -> exists k, l = drop_nulls l ++ replicate k CTxOut_null.
Proof.
  induction l as [|x l IH]; [by exists 0%nat|]. intros [Hx Hl]%Forall_cons. destruct (IH Hl) as [k Hk]. cbn.
  destruct (drop_nulls l) as [|y l'] eqn:E.
  - destruct (CTxOut_IsNull x) eqn:N; [exists (S k)|exists k]; cbn in *; [by rewrite Hx, Hk|by rewrite Hk].
  - exists k. cbn in *. by rewrite Hk at 1.
Qed.

(** The last output of a clean list is there. *)
Lemma clean_last l : drop_nulls l = l -> forall out, last l = Some out -> CTxOut_IsNull out = false.
Proof.
  induction l as [|x l IH]; [done|]. cbn. destruct (drop_nulls l) as [|y l'] eqn:E.
  - destruct (CTxOut_IsNull x) eqn:N; [done|]. intros [= <-]. cbn. by intros ? [= <-].
  - intros [= <-]. apply IH. done.
Qed.

Definition restored (n : nat) (out : CTxOut) (l : list CTxOut) : list CTxOut :=
  <[n := out]> (if (length l <? S n)%nat then resize (S n) CTxOut_null l else l).

Lemma restored_spent l n out :
  drop_nulls l = l -> canonical l -> l !! n = Some out -> CTxOut_IsNull out = false ->
  restored n out (drop_nulls (<[n := CTxOut_null]> l)) = l.
Proof.
  intros Hd Hc Hn Ho. set (l0 := <[n := CTxOut_null]> l).
  assert (Hc0 : canonical l0) by (apply Forall_insert; [done|by intros _]).
  destruct (drop_nulls_tail l0 Hc0) as [k Hk]. set (p := drop_nulls l0) in *.
  assert (Hl : <[n := out]> l0 = l) by (unfold l0; rewrite list_insert_insert_eq; by apply list_insert_id).
  assert (Hlen : length l = (length p + k)%nat) by (rewrite <- (length_insert l n CTxOut_null); fold l0; rewrite Hk at 1; by rewrite length_app, length_replicate).
  pose proof (lookup_lt_Some _ _ _ Hn) as Hlt. unfold restored. destruct k as [|k].
  - rewrite app_nil_r in Hk. rewrite <- Hk. replace (length l0) with (length l) by (by unfold l0; rewrite length_insert).
    by rewrite (proj2 (Nat.ltb_ge (length l) (S n))) by lia.
  - assert (n = (length l - 1)%nat) as Hnl.
    { destruct (decide (n = (length l - 1)%nat)) as [->|Hne]; [done|]. exfalso.
      assert (Hlast : last l0 = Some CTxOut_null) by (rewrite Hk, replicate_S_end, app_assoc; apply last_snoc).
      rewrite last_lookup in Hlast. unfold l0 in Hlast. rewrite length_insert, list_lookup_insert_ne in Hlast by lia.
      assert (Hll : last l = Some CTxOut_null) by (rewrite last_lookup; rewrite <- Hlast; f_equal; lia).
      by apply (clean_last l Hd) in Hll. }
    rewrite (proj2 (Nat.ltb_lt (length p) (S n))) by lia. rewrite resize_ge by lia.
    replace (S n - length p)%nat with (S k) by lia. by rewrite <- Hk.
Qed.

(** ** Spending an output and restoring it *)

Definition height_ok (c : CCoins) : Prop := 0 < cc_nHeight c < 2 ^ 31.

Lemma spend_output_ok n c : coins_ok c -> coins_ok (spend_output n c).2 /\ nulls_ok (spend_output n c).2.
Proof.
  intros [Hd Hn]. assert (Hboth : forall c, coins_ok c -> coins_ok c /\ nulls_ok c) by by intros ? [? ?]. apply Hboth.
  unfold spend_output. destruct (cc_vout c !! Z.to_nat n) as [out|] eqn:E; [|done]. destruct (CTxOut_IsNull out) eqn:N; [done|].
  cbn. unfold Spend, IsAvailable. rewrite E, N. cbn. apply Cleanup_ok. by apply Forall_insert.
Qed.

Lemma spend_then_restore n u c c' :
  coins_ok c -> height_ok c -> spend_output n c = (Some u, c') ->
  CTxOut_IsNull (ui_txout u) = false /\ height_ok c' /\
  forall c2, unspent (Some (Cleanup c')) = Some c2 \/ (unspent (Some (Cleanup c')) = None /\ IsPruned c2 = true) ->
  (restore_output n u c2).1 = true /\ Cleanup (restore_output n u c2).2 = c.
Proof.
  intros Hok Hh Hs. pose proof (spend_output_ok n c Hok) as [Hok' _]. pose proof Hok as [Hd Hc]. rewrite Hs in Hok'. cbn in Hok'.
  unfold spend_output in Hs. destruct (cc_vout c !! Z.to_nat n) as [out|] eqn:E; [|done]. destruct (CTxOut_IsNull out) eqn:N; [done|].
  unfold Spend, IsAvailable in Hs. rewrite E, N in Hs. cbn [negb snd] in Hs. pose proof (f_equal snd Hs) as Hc'. pose proof (f_equal fst Hs) as Hu.
  cbn [fst snd] in Hc', Hu. rewrite Hc' in Hu. apply (inj Some) in Hu.
  assert (Hv : cc_vout c' = drop_nulls (<[Z.to_nat n := CTxOut_null]> (cc_vout c))) by by rewrite <- Hc'.
  assert (Hmeta : cc_fCoinBase c' = cc_fCoinBase c /\ cc_nHeight c' = cc_nHeight c /\ cc_nVersion c' = cc_nVersion c) by by rewrite <- Hc'.
  destruct Hmeta as (M1 & M2 & M3).
  assert (Hcl : Cleanup c' = c') by by apply Cleanup_id.
  rewrite Hcl. pose proof (restored_spent _ _ _ Hd Hc E N) as Hres. rewrite <- Hv in Hres.
  assert (Hun : ui_txout u = out) by (rewrite <- Hu; case_bool_decide; done). rewrite Hun.
  split; [done|]. split; [by unfold height_ok; rewrite M2|]. intros c2 Hc2.
  pose proof (coins_ok_pruned _ Hok') as Hp. destruct (decide (cc_vout c' = [])) as [Hnil|Hnil].
  - rewrite bool_decide_eq_true_2 in Hu by done. assert (P : IsPruned c' = true) by by apply Hp.
    cbn in Hc2. rewrite P in Hc2. destruct Hc2 as [[=]|[_ Hc2]].
    unfold restore_output. rewrite <- Hu. cbn [ui_nHeight ui_txout ui_fCoinBase ui_nVersion]. unfold height_ok in Hh.
    rewrite u32_small by (unfold in_u32; rewrite M2; lia). rewrite M2, (proj2 (Z.eqb_neq _ _)) by lia. cbn [negb cc_vout]. rewrite Hc2.
    split; [done|]. rewrite Hnil in Hres. unfold restored in Hres. cbn [length] in *. unfold Cleanup, set. cbn.
    cbn in Hres. rewrite Hres, Hd, M1, M3. by destruct c.
  - rewrite bool_decide_eq_false_2 in Hu by done. assert (P : IsPruned c' = false) by (destruct (IsPruned c'); [by destruct Hnil; apply Hp|done]).
    cbn in Hc2. rewrite P in Hc2. destruct Hc2 as [[= <-]|[[=] _]].
    unfold restore_output. rewrite <- Hu. cbn [ui_nHeight ui_txout ui_fCoinBase ui_nVersion Z.eqb negb]. rewrite P. cbn [negb andb].
    split.
    + cbn [fst]. unfold IsAvailable. rewrite Hv, drop_nulls_lookup, list_lookup_insert_eq by (by eapply lookup_lt_Some). cbn.
      rewrite drop_nulls_lookup, list_lookup_insert_eq by (by eapply lookup_lt_Some). cbn.
      destruct (drop_nulls _ !! _) as [o|] eqn:D; [|done]. 
      rewrite drop_nulls_lookup, list_lookup_insert_eq in D by (by eapply lookup_lt_Some). cbn in D.
      destruct (drop_nulls_prefix (<[Z.to_nat n := CTxOut_null]> (cc_vout c))) as [k Hk].
      assert (Ho : <[Z.to_nat n := CTxOut_null]> (cc_vout c) !! Z.to_nat n = Some o) by (rewrite Hk; by apply lookup_app_l_Some).
      rewrite list_lookup_insert_eq in Ho by (by eapply lookup_lt_Some). injection Ho as <-. done.
    + unfold restored in Hres. unfold Cleanup, set. cbn. cbn in Hres. rewrite Hres, Hd, M1, M2, M3. by destruct c.
Qed.

Section reorg.
Context `{Commitments} (shielded : CTransaction -> Shielded).

(** * Modifying coins, on ledgers *)

Definition with_coins (t : Z) (c : CCoins) (m : Ledger) : Ledger := m <| l_coins ::= partial_alter (fun _ => unspent (Some c)) t |>.

(** The coins a modifier gives access to. *)
Definition accessed (t : Z) (m : Ledger) (c : CCoins) : Prop :=
  coins_ok c /\ (l_coins m !! t = Some c \/ (l_coins m !! t = None /\ IsPruned c = true)).

Lemma ModifyCoins_refines {A} t (f : CCoins -> A * CCoins) w m s :
  (forall c, accessed t m c -> nulls_ok (f c).2) -> refines (view_of w) (m :: s) ->
  exists c, accessed t m c /\ (ModifyCoins t f w).1 = (f c).1 /\
    refines (view_of (ModifyCoins t f w).2) (with_coins t (Cleanup (f c).2) m :: s).
Proof.
  intros Hn [Hv Hm]. assert (B1 : unspent (find_coins t (view_of w)) = l_coins m !! t) by apply Hm.
  assert (Hc : accessed t m (default emptyCCoins (find_coins t (view_of w)))).
  { unfold accessed. destruct (find_coins t (view_of w)) as [c|] eqn:F; cbn in B1.
    - split; [by eapply find_coins_ok|]. cbn. destruct (IsPruned c) eqn:P; [by right|by left].
    - split; [apply emptyCCoins_ok|by right]. }
  exists (default emptyCCoins (find_coins t (view_of w))). split; [done|].
  destruct (ModifyCoins_spec t f w Hv (Hn _ Hc)) as (H1 & Hv' & Hb). split; [done|]. split; [done|].
  by eapply coins_become_refines in Hb.
Qed.

Definition heights_ok (m : Ledger) : Prop := map_Forall (fun _ c => height_ok c) (l_coins m).

(** Everything but the coins. *)
Definition same_rest (m m' : Ledger) : Prop :=
  l_anchors m' = l_anchors m /\ l_nullifiers m' = l_nullifiers m /\ l_best_block m' = l_best_block m /\ forall ty, l_best ty m' = l_best ty m.

Lemma with_coins_rest t c m : same_rest m (with_coins t c m).
Proof. by split_and!; [..|intros []]. Qed.

#[local] Instance same_rest_preorder : PreOrder same_rest.
Proof. split; [intros x; by split_and!|]. intros x y z (A & B & C & D) (E & F & G & K). split_and!; [by etrans..|]. intros ty. by rewrite K. Qed.

Lemma with_coins_lookup t c m t' :
  l_coins (with_coins t c m) !! t' = if decide (t' = t) then unspent (Some c) else l_coins m !! t'.
Proof.
  change (l_coins (with_coins t c m)) with (partial_alter (fun _ => unspent (Some c)) t (l_coins m)).
  destruct (decide (t' = t)) as [->|]; [apply lookup_partial_alter_eq|by apply lookup_partial_alter_ne].
Qed.

Lemma with_coins_heights t c m : heights_ok m -> height_ok c -> heights_ok (with_coins t c m).
Proof.
  intros Hm Hc t' c'. rewrite with_coins_lookup. destruct (decide (t' = t)) as [->|]; [|apply Hm].
  cbn. destruct (IsPruned c); [done|]. by intros [= <-].
Qed.

(** Setting the coins back. *)
Lemma ledger_eq m m' : l_coins m' = l_coins m -> same_rest m m' -> m' = m.
Proof.
  intros Hc (A & B & C & D). pose proof (D SPROUT) as D1. pose proof (D SAPLING) as D2. destruct m, m'. cbn in *. by subst.
Qed.

(** ** The inputs of a transaction *)

(** Whoever finds the coins as they were left restores them. *)
Definition undone_by (restore : TopCache -> bool * TopCache) (before after : gmap Z CCoins) : Prop :=
  forall w m s, refines (view_of w) (m :: s) -> l_coins m = after ->
  exists w', restore w = (true, w') /\ refines (view_of w') (m <| l_coins := before |> :: s).

Lemma spend_input_refines n t u w w' m s :
  refines (view_of w) (m :: s) -> heights_ok m -> ModifyCoins t (spend_output n) w = (Some u, w') ->
  exists m', refines (view_of w') (m' :: s) /\ heights_ok m' /\ same_rest m m' /\
    (forall t', l_coins m !! t' = None -> l_coins m' !! t' = None) /\
    undone_by (ModifyCoins t (restore_output n u)) (l_coins m) (l_coins m').
Proof.
  intros Hr Hh Hs. destruct (ModifyCoins_refines t (spend_output n) w m s) as (c & Hc & H1 & H2); [|done|].
  { intros c [Hc _]. by apply spend_output_ok. }
  rewrite Hs in H1, H2. cbn [fst snd] in H1, H2. destruct Hc as [Hok [Hin|[Hno Hp]]].
  2:{ exfalso. apply (coins_ok_pruned _ Hok) in Hp. unfold spend_output in H1. rewrite Hp, lookup_nil in H1. done. }
  destruct (spend_output n c) as [u' c'] eqn:E. cbn [fst snd] in *. subst u'.
  destruct (spend_then_restore n u c c' Hok (Hh _ _ Hin) E) as (Hu & Hh' & Hback).
  exists (with_coins t (Cleanup c') m). split_and!; [done|by apply with_coins_heights|apply with_coins_rest| |].
  - intros t' Ht'. rewrite with_coins_lookup. destruct (decide (t' = t)) as [->|]; [congruence|done].
  - intros w2 m2 s2 Hr2 Hm2. destruct (ModifyCoins_refines t (restore_output n u) w2 m2 s2) as (c2 & [Hok2 Hc2] & R1 & R2); [|done|].
    { intros c2 [[_ Hc2] _]. unfold restore_output. cbn. apply Forall_insert; [|by rewrite Hu].
      destruct (negb (ui_nHeight u =? 0)); cbn [cc_vout]; case_match; auto; apply Forall_resize; auto; try done; by constructor. }
    assert (Hacc : unspent (Some (Cleanup c')) = Some c2 \/ (unspent (Some (Cleanup c')) = None /\ IsPruned c2 = true)).
    { rewrite Hm2, with_coins_lookup, decide_True in Hc2 by done. done. }
    destruct (Hback _ Hacc) as [B1 B2]. destruct (ModifyCoins t (restore_output n u) w2) as [b w3]. cbn [fst snd] in *.
    exists w3. rewrite R1, B1. split; [done|]. rewrite B2 in R2.
    replace (m2 <| l_coins := l_coins m |>) with (with_coins t c m2); [done|].
    apply ledger_eq; [|by split_and!; [..|intros []]]. apply map_eq. intros t'. rewrite with_coins_lookup.
    change (l_coins (m2 <| l_coins := l_coins m |>)) with (l_coins m). destruct (decide (t' = t)) as [->|Hne].
    + rewrite Hin. apply unspent_Some. split; [done|]. destruct Hr as [_ [(B & _) _]]. specialize (B t). rewrite Hin in B. by apply unspent_Some in B as [_ ?].
    + by rewrite Hm2, with_coins_lookup, decide_False by done.
Qed.

Lemma restore_inputs_cons i u ins us w :
  restore_inputs (i :: ins) (u :: us) w =
  let '(b, w) := restore_inputs ins us w in let '(b', w) := ApplyTxInUndo u (prevout i) w in (b && b', w).
Proof. unfold restore_inputs. cbn [zip zip_with rev]. rewrite foldl_app. cbn. by destruct (foldl _ _ _). Qed.

Lemma spend_inputs_refines ins us w w' m s :
  refines (view_of w) (m :: s) -> heights_ok m -> spend_inputs ins w = Some (us, w') ->
  exists m', refines (view_of w') (m' :: s) /\ heights_ok m' /\ same_rest m m' /\ length us = length ins /\
    (forall t', l_coins m !! t' = None -> l_coins m' !! t' = None) /\ undone_by (restore_inputs ins us) (l_coins m) (l_coins m').
Proof.
  revert us w m. induction ins as [|i ins IH]; intros us w m Hr Hh; cbn.
  - intros [= <- <-]. exists m. split_and!; try done. intros w2 m2 s2 Hr2 Hm2. exists w2. split; [done|].
    replace (m2 <| l_coins := l_coins m |>) with m2; [done|]. symmetry. apply ledger_eq; [by rewrite Hm2|by split_and!; [..|intros []]].
  - destruct (ModifyCoins _ _ w) as [[u|] w1] eqn:E; [|done]. cbn. destruct (spend_inputs ins w1) as [[us' w2]|] eqn:F; [|done].
    intros [= <- <-]. destruct (spend_input_refines _ _ _ _ _ _ _ Hr Hh E) as (m1 & Hr1 & Hh1 & Hs1 & Hf1 & Hu1).
    destruct (IH _ _ _ Hr1 Hh1 F) as (m2 & Hr2 & Hh2 & Hs2 & Hl2 & Hf2 & Hu2). exists m2.
    split_and!; [done|done|by etrans|cbn; by rewrite Hl2|auto|].
    intros w3 m3 s3 Hr3 Hm3. rewrite restore_inputs_cons. destruct (Hu2 _ _ _ Hr3 Hm3) as (w4 & -> & Hr4).
    destruct (Hu1 _ _ _ Hr4 eq_refl) as (w5 & H5 & Hr5). unfold ApplyTxInUndo. rewrite H5. exists w5. split; [done|].
    done.
Qed.

(** ** One transaction *)

(** Outputs are not negative, so none of them reads as null. *)
Definition outputs_ok (tx : CTransaction) : Prop := Forall (fun out => 0 <= nValue out) (vout tx).

Lemma FromTx_ok tx h : outputs_ok tx -> coins_ok (CCoins_FromTx tx h).
Proof.
  intros Ho. apply Cleanup_ok. red. cbn. apply Forall_map. eapply Forall_impl; [exact Ho|]. intros out Hout. cbn.
  destruct (IsUnspendable (scriptPubKey out)); [done|]. unfold CTxOut_IsNull. intros Hn%Z.eqb_eq. cbn in Hout. lia.
Qed.

Lemma ClearUnspendable_idem c : ClearUnspendable (ClearUnspendable c) = ClearUnspendable c.
Proof.
  unfold ClearUnspendable, Cleanup, set. cbn. f_equal.
  set (g := fun out => if IsUnspendable (scriptPubKey out) then CTxOut_null else out).
  assert (Hg : Forall (fun out => g out = out) (drop_nulls (map g (cc_vout c)))).
  { destruct (drop_nulls_prefix (map g (cc_vout c))) as [k Hk].
    assert (Hall : Forall (fun out => g out = out) (map g (cc_vout c))).
    { apply Forall_map, Forall_true. intros out. unfold g. destruct (IsUnspendable (scriptPubKey out)) eqn:E; [done|]. by rewrite E. }
    rewrite Hk in Hall. by apply Forall_app in Hall as [? _]. }
  replace (map g (drop_nulls (map g (cc_vout c)))) with (drop_nulls (map g (cc_vout c))); [apply drop_nulls_idem|].
  induction Hg as [|x l Hx _ IH]; [done|]. cbn. by rewrite Hx, <- IH.
Qed.

Lemma remove_outputs_clean h tx c :
  outputs_ok tx -> coins_ok c -> unspent (Some (CCoins_FromTx tx h)) = Some c \/ (unspent (Some (CCoins_FromTx tx h)) = None /\ IsPruned c = true) ->
  remove_outputs h tx c = (true, emptyCCoins).
Proof.
  intros Ho Hok Hc. unfold remove_outputs. f_equal. unfold CCoins_eqb. apply orb_true_iff. destruct Hc as [Hc|[Hc Hp]].
  - apply unspent_Some in Hc as [[= <-] _]. right. apply bool_decide_eq_true_2. unfold CCoins_FromTx. rewrite ClearUnspendable_idem.
    by destruct (_ <? 0).
  - left. rewrite unspent_None in Hc. rewrite (Hc _ eq_refl), andb_true_r. apply (coins_ok_pruned _ Hok) in Hp.
    unfold IsPruned, ClearUnspendable, Cleanup, set. destruct (_ <? 0); cbn; by rewrite Hp.
Qed.

Definition undo_of (tx : CTransaction) (us : list CTxInUndo) : option (list CTxInUndo) := if IsCoinBase tx then None else Some us.

(** What a connected transaction leaves for its disconnection. *)
Definition tx_undone (h : Z) (tx : CTransaction) (us : list CTxInUndo) (m m' : Ledger) : Prop :=
  forall w2 m2 s2, refines (view_of w2) (m2 :: s2) -> l_coins m2 = l_coins m' -> l_nullifiers m2 = l_nullifiers m' ->
  exists w3, disconnect_tx shielded h tx (undo_of tx us) w2 = Some (true, w3) /\
    refines (view_of w3) (m2 <| l_coins := l_coins m |> <| l_nullifiers := l_nullifiers m |> :: s2).

Lemma spend_tx_refines tx us w w' m s :
  refines (view_of w) (m :: s) -> heights_ok m -> (if IsCoinBase tx then Some ([], w) else spend_inputs (vin tx) w) = Some (us, w') ->
  exists m', refines (view_of w') (m' :: s) /\ heights_ok m' /\ same_rest m m' /\
    (forall t', l_coins m !! t' = None -> l_coins m' !! t' = None) /\
    match undo_of tx us with
    | None => l_coins m' = l_coins m
    | Some us => length us = length (vin tx) /\ undone_by (restore_inputs (vin tx) us) (l_coins m) (l_coins m')
    end.
Proof.
  intros Hr Hh Hs. unfold undo_of. destruct (IsCoinBase tx).
  - injection Hs as <- <-. exists m. by split_and!.
  - destruct (spend_inputs_refines _ _ _ _ _ _ Hr Hh Hs) as (m' & ? & ? & ? & ? & ? & ?). exists m'. by split_and!.
Qed.

Lemma UpdateCoinsUndo_refines h tx us w w' m m0 s :
  refines (view_of w) (m :: m0 :: s) -> heights_ok m -> 0 < h < 2 ^ 31 -> outputs_ok tx ->
  l_coins m !! GetHash tx = None -> l_coins m0 !! GetHash tx = None -> (forall k, k ∈ nullifiers_of shielded tx -> k ∉ l_nullifiers m) ->
  UpdateCoinsUndo shielded h tx w = Some (us, w') ->
  exists m', refines (view_of w') (m' :: m0 :: s) /\ heights_ok m' /\
    (forall t', t' <> GetHash tx -> l_coins m !! t' = None -> l_coins m' !! t' = None) /\
    l_anchors m' = l_anchors m /\ l_best_block m' = l_best_block m /\ (forall ty, l_best ty m' = l_best ty m) /\
    tx_undone h tx us m m'.
Proof.
  intros Hr Hh Hrange Ho Hm Hm0 Hnf Hup. unfold UpdateCoinsUndo in Hup.
  destruct (if IsCoinBase tx then _ else _) as [[us1 w1]|] eqn:E; [|done]. cbn in Hup. injection Hup as <- <-.
  destruct (spend_tx_refines _ _ _ _ _ _ Hr Hh E) as (m1 & Hr1 & Hh1 & (R1 & R2 & R3 & R4) & Hf1 & Hu1).
  pose proof (SetNullifiers_refines (nullifiers_of shielded tx) true _ _ _ Hr1) as Hr2.
  set (m2 := l_set_nullifiers (nullifiers_of shielded tx) true m1) in *.
  pose proof (FromTx_ok tx h Ho) as Hok.
  pose proof (OpModifyNew_refines (GetHash tx) (fun _ => CCoins_FromTx tx h) _ m2 m0 s (proj2 Hok) Hm0 Hr2) as Hr3.
  set (m3 := l_new (GetHash tx) (fun _ => CCoins_FromTx tx h) m2) in *.
  assert (Hc3 : forall t, l_coins m3 !! t = if decide (t = GetHash tx) then unspent (Some (CCoins_FromTx tx h)) else l_coins m1 !! t).
  { intros t. etrans; [apply (with_coins_lookup (GetHash tx) (Cleanup (CCoins_FromTx tx h)) m2 t)|]. by rewrite (Cleanup_id _ Hok). }
  exists m3. split_and!; [done| | |done|done|intros []; [apply (R4 SPROUT)|apply (R4 SAPLING)]|].
  - intros t c. rewrite Hc3. case_decide; [|apply Hh1]. intros [[= <-] _]%unspent_Some. done.
  - intros t Ht Hn. rewrite Hc3, decide_False by done. by apply Hf1.
  - intros w4 m4 s4 Hr4 Hc4 Hn4. unfold disconnect_tx.
    destruct (ModifyCoins_refines (GetHash tx) (remove_outputs h tx) w4 m4 s4) as (c & [Hcok Hacc] & A1 & A2); [|done|].
    { intros c _. cbn. by constructor. }
    rewrite Hc4, Hc3, decide_True in Hacc by done. rewrite (remove_outputs_clean h tx c Ho Hcok Hacc) in A1, A2. cbn [fst snd] in A1, A2.
    destruct (ModifyCoins (GetHash tx) (remove_outputs h tx) w4) as [b w5]. cbn [fst snd] in *. subst b.
    pose proof (SetNullifiers_refines (nullifiers_of shielded tx) false _ _ _ A2) as Hr5.
    set (m5 := l_set_nullifiers _ false _) in Hr5.
    assert (Hc5 : l_coins m5 = l_coins m1).
    { apply map_eq. intros t. change (l_coins m5) with (l_coins (with_coins (GetHash tx) (Cleanup emptyCCoins) m4)).
      rewrite with_coins_lookup, Hc4, Hc3. case_decide as D; [|done]. subst t. cbn. symmetry. by apply Hf1. }
    assert (Hn5 : l_nullifiers m5 = l_nullifiers m).
    { change (l_nullifiers m4 ∖ list_to_set (nullifiers_of shielded tx) = l_nullifiers m). rewrite Hn4.
      change (l_nullifiers m3) with (list_to_set (nullifiers_of shielded tx) ∪ l_nullifiers m1). rewrite R2.
      apply set_eq. intros k. rewrite elem_of_difference, elem_of_union, elem_of_list_to_set.
      split; [by intros [[?|?] ?]|]. intros Hk. split; [by right|]. intros Hin. by apply (Hnf k). }
    assert (Hrest : m5 <| l_coins := l_coins m |> = m4 <| l_coins := l_coins m |> <| l_nullifiers := l_nullifiers m |>).
    { apply ledger_eq; [done|]. split_and!; [done|exact Hn5|done|by intros []]. }
    destruct (undo_of tx us1) as [us2|].
    + destruct Hu1 as [Hl Hu]. rewrite (proj2 (Nat.eqb_eq _ _) Hl). destruct (Hu _ _ _ Hr5 Hc5) as (w6 & -> & Hr6).
      exists w6. split; [done|]. by rewrite <- Hrest.
    + exists (SetNullifiers (nullifiers_of shielded tx) false w5). split; [done|]. rewrite <- Hrest.
      replace (m5 <| l_coins := l_coins m |>) with m5; [done|]. symmetry. apply ledger_eq; [by rewrite Hc5, Hu1|by split_and!; [..|intros []]].
Qed.

(** ** The transactions of a block *)

Lemma on_top_refines {A} (r : A * CCoinsView) a w S :
  reads r a (view_of w) -> refines (view_of w) S -> (on_top r w).1 = a /\ refines (view_of (on_top r w).2) S.
Proof.
  intros Hr Href. destruct (on_top_reads _ _ _ Hr) as (H1 & H2 & _). split; [done|]. rewrite H2. by eapply reads_refines.
Qed.

Lemma have_inputs_refines ins w S : refines (view_of w) S -> refines (view_of (have_inputs ins w).2) S.
Proof.
  revert w. induction ins as [|i ins IH]; intros w Hr; [done|]. cbn [have_inputs].
  destruct (on_top_refines _ _ w S (proj1 (GetCoins_reads (op_hash (prevout i)) _ (proj1 Hr))) Hr) as [_ Hr1].
  destruct (on_top _ w) as [c w1]. cbn in Hr1. destruct c as [c|]; [|done]. destruct (IsAvailable c _); [by apply IH|done].
Qed.

Lemma any_spent_refines ty nfs w m s :
  refines (view_of w) (m :: s) ->
  refines (view_of (any_spent ty nfs w).2) (m :: s) /\
  ((any_spent ty nfs w).1 = false -> forall nf, nf ∈ nfs -> (ty, nf) ∉ l_nullifiers m).
Proof.
  revert w. induction nfs as [|nf nfs IH]; intros w Hr; [by split; [|intros _ nf Hn%not_elem_of_nil]|]. cbn [any_spent].
  destruct (on_top_refines _ _ w _ (GetNullifier_reads ty nf _ (proj1 Hr)) Hr) as [Ha Hr1].
  destruct (on_top _ w) as [b w1]. cbn in Ha, Hr1. destruct b; [done|]. destruct (IH _ Hr1) as [H1 H2]. split; [done|].
  intros Hs nf' [->|Hin]%elem_of_cons; [|by apply H2]. destruct Hr as [_ [(_ & _ & B3 & _) _]].
  pose proof (B3 (ty, nf)) as B. intros Hin. rewrite bool_decide_eq_true_2 in B by done. cbn in B. congruence.
Qed.

Lemma joinsplits_met_refines js im w m s :
  refines (view_of w) (m :: s) ->
  refines (view_of (joinsplits_met js im w).2) (m :: s) /\
  ((joinsplits_met js im w).1 = true -> forall j nf, j ∈ js -> nf ∈ js_nullifiers j -> (SPROUT, nf) ∉ l_nullifiers m).
Proof.
  revert im w. induction js as [|j js IH]; intros im w Hr; [by split; [|intros _ j nf Hn%not_elem_of_nil]|]. cbn [joinsplits_met].
  destruct (any_spent_refines SPROUT (js_nullifiers j) w m s Hr) as [Hr1 Hs1]. destruct (any_spent _ _ w) as [sp w1]. cbn in Hr1, Hs1.
  destruct sp; [done|].
  assert (Hr2 : refines (view_of (match im !! js_anchor j with Some tree => (Some tree, w1)
                                 | None => on_top (GetAnchorAt SPROUT (js_anchor j) (view_of w1)) w1 end).2) (m :: s)).
  { destruct (im !! js_anchor j); [done|]. by eapply on_top_refines; [apply GetAnchorAt_reads, (proj1 Hr1)|]. }
  destruct (match im !! js_anchor j with Some tree => (Some tree, w1) | None => _ end) as [[tree|] w2]; cbn in Hr2; [|done].
  destruct (IH (match im !! root SPROUT (foldl (fun tree cm => append_commitment cm tree) tree (js_commitments j)) with Some _ => im
               | None => <[root SPROUT (foldl (fun tree cm => append_commitment cm tree) tree (js_commitments j)) :=
                            foldl (fun tree cm => append_commitment cm tree) tree (js_commitments j)]> im end) w2 Hr2) as [Hr3 Hs3].
  split; [exact Hr3|]. intros Ht j' nf [->|Hj]%elem_of_cons Hn; [by apply Hs1|by eapply Hs3].
Qed.

Lemma spends_met_refines sds w m s :
  refines (view_of w) (m :: s) ->
  refines (view_of (spends_met sds w).2) (m :: s) /\
  ((spends_met sds w).1 = true -> forall sd, sd ∈ sds -> (SAPLING, sd_nullifier sd) ∉ l_nullifiers m).
Proof.
  revert w. induction sds as [|sd sds IH]; intros w Hr; [by split; [|intros _ j Hn%not_elem_of_nil]|]. cbn [spends_met].
  destruct (any_spent_refines SAPLING [sd_nullifier sd] w m s Hr) as [Hr1 Hs1]. destruct (any_spent _ _ w) as [sp w1]. cbn in Hr1, Hs1.
  destruct sp; [done|].
  destruct (on_top_refines _ _ w1 _ (GetAnchorAt_reads SAPLING (sd_anchor sd) _ (proj1 Hr1)) Hr1) as [_ Hr2].
  destruct (on_top _ w1) as [[tree|] w2]; cbn in Hr2; [|done]. destruct (IH _ Hr2) as [Hr3 Hs3]. split; [done|].
  intros Ht sd' [->|Hj]%elem_of_cons; [apply Hs1; [done|by left]|by apply Hs3].
Qed.

Lemma HaveShieldedRequirements_refines tx w m s :
  refines (view_of w) (m :: s) ->
  refines (view_of (HaveShieldedRequirements shielded tx w).2) (m :: s) /\
  ((HaveShieldedRequirements shielded tx w).1 = true -> forall k, k ∈ nullifiers_of shielded tx -> k ∉ l_nullifiers m).
Proof.
  intros Hr. unfold HaveShieldedRequirements. destruct (joinsplits_met_refines (sh_joinsplits (shielded tx)) ∅ w m s Hr) as [Hr1 Hs1].
  destruct (joinsplits_met _ _ w) as [b w1]. cbn in Hr1, Hs1. destruct b; [|done].
  destruct (spends_met_refines (sh_spends (shielded tx)) w1 m s Hr1) as [Hr2 Hs2]. split; [done|].
  intros Ht k Hk. unfold nullifiers_of in Hk. apply elem_of_app in Hk as [Hk|Hk].
  - apply list_elem_of_In, in_concat in Hk as (l & (j & <- & Hj)%in_map_iff & (nf & <- & Hn)%in_map_iff).
    apply (Hs1 eq_refl j nf); by apply list_elem_of_In.
  - apply list_elem_of_In, in_map_iff in Hk as (sd & <- & Hsd). apply Hs2; [done|by apply list_elem_of_In].
Qed.

Lemma disconnect_txs_app h l1 l2 w :
  disconnect_txs shielded h (l1 ++ l2) w =
  r1 ← disconnect_txs shielded h l1 w; r2 ← disconnect_txs shielded h l2 r1.2; Some (r1.1 && r2.1, r2.2).
Proof.
  revert w. induction l1 as [|[tx us] l1 IH]; intros w; cbn; [by destruct (disconnect_txs _ _ l2 w) as [[b w']|]|].
  destruct (disconnect_tx _ _ _ _ w) as [[b1 w1]|]; [|done]. cbn. rewrite IH.
  destruct (disconnect_txs _ _ l1 w1) as [[b2 w2]|]; [|done]. cbn. destruct (disconnect_txs _ _ l2 w2) as [[b3 w3]|]; [|done].
  cbn. by rewrite andb_assoc.
Qed.

Definition txs_undone (h : Z) (vtx : list CTransaction) (uss : list (list CTxInUndo)) (m m' : Ledger) : Prop :=
  forall w2 m2 s2, refines (view_of w2) (m2 :: s2) -> l_coins m2 = l_coins m' -> l_nullifiers m2 = l_nullifiers m' ->
  exists w3, disconnect_txs shielded h (rev (zip vtx (zip_with undo_of vtx uss))) w2 = Some (true, w3) /\
    refines (view_of w3) (m2 <| l_coins := l_coins m |> <| l_nullifiers := l_nullifiers m |> :: s2).

Lemma connect_txs_refines h vtx uss w w' m m0 s :
  refines (view_of w) (m :: m0 :: s) -> heights_ok m -> 0 < h < 2 ^ 31 -> Forall outputs_ok vtx -> NoDup (map GetHash vtx) ->
  (forall tx, tx ∈ vtx -> l_coins m !! GetHash tx = None /\ l_coins m0 !! GetHash tx = None) ->
  (* nullifiers of a coinbase: there are none *)
  Forall (fun tx => IsCoinBase tx = true -> nullifiers_of shielded tx = []) vtx ->
  connect_txs_coins shielded h vtx w = Some (uss, w') ->
  exists m', refines (view_of w') (m' :: m0 :: s) /\ heights_ok m' /\ length uss = length vtx /\
    l_anchors m' = l_anchors m /\ l_best_block m' = l_best_block m /\ (forall ty, l_best ty m' = l_best ty m) /\ txs_undone h vtx uss m m'.
Proof.
  revert uss w m. induction vtx as [|tx vtx IH]; intros uss w m Hr Hh Hrange Ho Hnd Hfresh Hcb; cbn.
  { intros [= <- <-]. exists m. split_and!; try done. intros w2 m2 s2 Hr2 Hc Hn. exists w2. split; [done|].
    replace (m2 <| l_coins := l_coins m |> <| l_nullifiers := l_nullifiers m |>) with m2; [done|].
    symmetry. apply ledger_eq; [by rewrite Hc|]. split_and!; [done|by rewrite Hn|done|by intros []]. }
  apply Forall_cons in Ho as [Ho Hos]. apply Forall_cons in Hcb as [Hcb Hcbs]. apply NoDup_cons in Hnd as [Hni Hnd].
  destruct (view_HaveInputs tx w) as [have w1] eqn:E1.
  assert (Hr1 : refines (view_of w1) (m :: m0 :: s)).
  { unfold view_HaveInputs in E1. destruct (IsCoinBase tx); [by injection E1 as <- <-|].
    pose proof (have_inputs_refines (vin tx) w _ Hr) as Hr1. by rewrite E1 in Hr1. }
  destruct (if IsCoinBase tx then (true, w1) else HaveShieldedRequirements shielded tx w1) as [met w2] eqn:E2.
  assert (Hr2 : refines (view_of w2) (m :: m0 :: s) /\ (met = true -> forall k, k ∈ nullifiers_of shielded tx -> k ∉ l_nullifiers m)).
  { destruct (IsCoinBase tx); [injection E2 as <- <-; split; [done|]; intros _ k; rewrite Hcb by done; by intros ?%not_elem_of_nil|].
    pose proof (HaveShieldedRequirements_refines tx w1 _ _ Hr1) as Hr2. by rewrite E2 in Hr2. }
  destruct Hr2 as [Hr2 Hnf]. destruct have, met; try done. cbn. specialize (Hnf eq_refl).
  destruct (UpdateCoinsUndo shielded h tx w2) as [[us w3]|] eqn:E3; [|done]. cbn.
  destruct (connect_txs_coins shielded h vtx w3) as [[uss' w4]|] eqn:E4; [|done]. intros [= <- <-].
  destruct (Hfresh tx) as [F1 F2]; [by left|].
  destruct (UpdateCoinsUndo_refines h tx us w2 w3 m m0 s Hr2 Hh Hrange Ho F1 F2 Hnf E3) as (m1 & Hr3 & Hh3 & Hf3 & A3 & B3 & C3 & U3).
  destruct (IH uss' w3 m1 Hr3 Hh3 Hrange Hos Hnd) as (m2 & Hr4 & Hh4 & L4 & A4 & B4 & C4 & U4); [|done|done|].
  { intros tx' Htx'. destruct (Hfresh tx') as [G1 G2]; [by right|]. split; [|done]. apply Hf3; [|done].
    intros Heq. apply Hni. rewrite <- Heq. apply list_elem_of_In, in_map, list_elem_of_In. done. }
  exists m2. split_and!; [done|done|cbn; by rewrite L4|by rewrite A4|by rewrite B4|intros ty; by rewrite C4|].
  intros w5 m5 s5 Hr5 Hc5 Hn5. cbn [zip zip_with rev]. rewrite disconnect_txs_app.
  destruct (U4 _ _ _ Hr5 Hc5 Hn5) as (w6 & -> & Hr6). cbn.
  destruct (U3 _ _ _ Hr6 eq_refl eq_refl) as (w7 & -> & Hr7). cbn. exists w7. split; [done|]. exact Hr7.
Qed.

(** ** Anchors and hashes *)

(** Looking up the best anchor sets the hash of the cache. *)
Lemma GetBestAnchor_hash ty w m s :
  refines (view_of w) (m :: s) ->
  exists w', on_top (GetBestAnchor ty (view_of w)) w = (l_best ty m, w') /\ refines (view_of w') (m :: s) /\ hashAnchor ty w'.2 = l_best ty m /\ (forall ty', ty' <> ty -> hashAnchor ty' w'.2 = hashAnchor ty' w.2) /\ hashBlock w'.2 = hashBlock w.2.
Proof.
  intros Hr. destruct (on_top_refines _ _ w _ (GetBestAnchor_reads ty _ (proj1 Hr)) Hr) as [Ha Hr1].
  assert (Hb : best_anchor ty (view_of w) = l_best ty m) by apply Hr. rewrite Hb in Ha.
  destruct (on_top _ w) as [cur w'] eqn:E. cbn [fst snd] in *. subst cur. exists w'. split; [done|]. split; [done|].
  unfold on_top, view_of in E. cbn [GetBestAnchor] in E. destruct (hashAnchor ty w.2 =? 0) eqn:Z0.
  - destruct (GetBestAnchor ty w.1) as [h b]. cbn in E. injection E as <- <-. by destruct ty; split_and!; try done; intros [].
  - cbn in E. injection E as E1 <-. by split_and!.
Qed.

Lemma GetAnchorAt_found ty rt w m s :
  refines (view_of w) (m :: s) ->
  exists found w', on_top (GetAnchorAt ty rt (view_of w)) w = (found, w') /\ refines (view_of w') (m :: s) /\ (forall tree, found = Some tree -> root ty tree = rt /\ (ty, rt) ∈ l_anchors m) /\ (forall ty', hashAnchor ty' w'.2 = hashAnchor ty' w.2).
Proof.
  intros Hr. destruct (on_top_refines _ _ w _ (GetAnchorAt_reads ty rt _ (proj1 Hr)) Hr) as [Ha Hr1].
  destruct (on_top _ w) as [found w'] eqn:E. cbn [fst snd] in *. exists found, w'. split_and!; [done|done| |].
  - intros tree ->. symmetry in Ha. split; [by apply (find_anchor_root _ _ _ (proj1 Hr)) in Ha|].
    destruct Hr as [_ [(_ & B2 & _) _]]. apply B2. by exists tree.
  - intros ty'. unfold on_top, view_of in E. cbn [GetAnchorAt] in E. destruct (cacheAnchors w.2 !! (ty, rt)); [by injection E as _ <-|].
    destruct (GetAnchorAt ty rt w.1) as [[tree|] b]; cbn in E; injection E as _ <-; by destruct ty'.
Qed.

Lemma PushAnchor_hash ty tree w m s :
  refines (view_of w) (m :: s) -> l_best ty m <> 0 -> root ty tree <> 0 ->
  hashAnchor ty (PushAnchor ty tree w).2 <> 0 /\ forall ty', ty' <> ty -> hashAnchor ty' (PushAnchor ty tree w).2 = hashAnchor ty' w.2.
Proof.
  intros Hr Hb Ht. unfold PushAnchor. destruct (GetBestAnchor_hash ty w m s Hr) as (w' & -> & _ & H1 & H2 & _).
  destruct (_ =? _); [by rewrite H1|]. by destruct ty; split; try done; intros [] Hne; try done; by rewrite <- (H2 _ Hne).
Qed.

Lemma PopAnchor_hash ty rt w w' m s :
  refines (view_of w) (m :: s) -> l_best ty m <> 0 -> rt <> 0 -> PopAnchor ty rt w = Some w' ->
  hashAnchor ty w'.2 <> 0 /\ forall ty', ty' <> ty -> hashAnchor ty' w'.2 = hashAnchor ty' w.2.
Proof.
  intros Hr Hb Ht. unfold PopAnchor. destruct (GetBestAnchor_hash ty w m s Hr) as (w1 & -> & Hr1 & H1 & H2 & _).
  destruct (_ =? _); [intros [= <-]; by rewrite H1|].
  destruct (GetAnchorAt_found ty (l_best ty m) w1 m s Hr1) as (found & w2 & -> & _ & _ & H3). destruct found; [|done].
  intros [= <-]. by destruct ty; (split; [done|]); intros [] Hne; try done; by rewrite <- (H2 _ Hne), <- H3.
Qed.

(** The empty root is an anchor of every view. *)
Lemma empty_root_anchor v m s ty : refines v (m :: s) -> (ty, empty_root ty) ∈ l_anchors m.
Proof.
  intros [Hv Hr]. apply represents_head in Hr as (_ & B2 & _). apply B2. clear -Hv.
  induction v as [d|b IH c]; cbn; [by rewrite Z.eqb_refl|]. destruct Hv as (Hb & _ & Ha & _).
  destruct (cacheAnchors c !! _) as [e|] eqn:E; [|by apply IH]. destruct (Ha _ _ E) as (_ & _ & ->); [by eexists|done].
Qed.

(** The anchors two pushes add, the two pops take away. *)
Lemma l_push_fields ty rt m :
  l_coins (l_push ty rt m) = l_coins m /\ l_nullifiers (l_push ty rt m) = l_nullifiers m /\ l_best ty (l_push ty rt m) = rt /\
  (forall ty', ty' <> ty -> l_best ty' (l_push ty rt m) = l_best ty' m) /\
  l_anchors (l_push ty rt m) = if l_best ty m =? rt then l_anchors m else {[(ty, rt)]} ∪ l_anchors m.
Proof. unfold l_push. destruct (Z.eqb_spec (l_best ty m) rt) as [<-|]; [done|]. destruct ty; split_and!; try done; by intros []. Qed.

Lemma l_pop_fields ty rt m :
  l_coins (l_pop ty rt m) = l_coins m /\ l_nullifiers (l_pop ty rt m) = l_nullifiers m /\ l_best ty (l_pop ty rt m) = rt /\
  (forall ty', ty' <> ty -> l_best ty' (l_pop ty rt m) = l_best ty' m) /\
  l_anchors (l_pop ty rt m) = if l_best ty m =? rt then l_anchors m else l_anchors m ∖ {[(ty, l_best ty m)]}.
Proof. unfold l_pop. destruct (Z.eqb_spec (l_best ty m) rt) as [<-|]; [done|]. destruct ty; split_and!; try done; by intros []. Qed.

Definition root_ok (ty : ShieldedType) (rt : Z) (m : Ledger) : Prop := rt = l_best ty m \/ (ty, rt) ∉ l_anchors m.

Lemma pops_undo_pushes r1 r2 m m2 :
  root_ok SPROUT r1 m -> root_ok SAPLING r2 m ->
  l_anchors m2 = l_anchors (l_push SAPLING r2 (l_push SPROUT r1 m)) -> (forall ty, l_best ty m2 = match ty with SPROUT => r1 | SAPLING => r2 end) ->
  let m3 := l_pop SAPLING (l_best SAPLING m) (l_pop SPROUT (l_best SPROUT m) m2) in
  l_anchors m3 = l_anchors m /\ (forall ty, l_best ty m3 = l_best ty m) /\ l_coins m3 = l_coins m2 /\ l_nullifiers m3 = l_nullifiers m2.
Proof.
  intros H1 H2 Ha Hb.
  destruct (l_push_fields SPROUT r1 m) as (_ & _ & P1 & P2 & P3). destruct (l_push_fields SAPLING r2 (l_push SPROUT r1 m)) as (_ & _ & _ & _ & P6).
  rewrite P2 in P6 by done. rewrite P6, P3 in Ha. clear P1 P2 P3 P6.
  destruct (l_pop_fields SPROUT (l_best SPROUT m) m2) as (A1 & A2 & A3 & A4 & A5).
  destruct (l_pop_fields SAPLING (l_best SAPLING m) (l_pop SPROUT (l_best SPROUT m) m2)) as (B1 & B2 & B3 & B4 & B5).
  cbn zeta. rewrite B1, B2, A1, A2. split_and!; [|intros []; [by rewrite B4|done]|done|done].
  rewrite B5, A4, A5, !Hb, Ha by done. clear -H1 H2. unfold root_ok in *.
  rewrite (Z.eqb_sym (l_best SPROUT m)), (Z.eqb_sym (l_best SAPLING m)).
  destruct (Z.eqb_spec r1 (l_best SPROUT m)), (Z.eqb_spec r2 (l_best SAPLING m)); [done|..]; apply set_eq; intros k; set_solver.
Qed.

(** A new root that was pushed is an anchor, and not the empty one. *)
Lemma pushed_anchor (r : ShieldedType -> Z) m ty :
  root_ok ty (r ty) m -> r ty <> l_best ty m -> (ty, empty_root ty) ∈ l_anchors m ->
  (ty, r ty) ∈ l_anchors (l_push SAPLING (r SAPLING) (l_push SPROUT (r SPROUT) m)) /\ r ty <> empty_root ty.
Proof.
  intros [Hn|Hn] Hne He; [done|]. split; [|by intros Hr; rewrite Hr in Hn].
  destruct (l_push_fields SPROUT (r SPROUT) m) as (_ & _ & _ & P2 & P3).
  destruct (l_push_fields SAPLING (r SAPLING) (l_push SPROUT (r SPROUT) m)) as (_ & _ & _ & _ & P6). rewrite P6, P2, P3 by done.
  destruct (Z.eqb_spec (l_best SAPLING m) (r SAPLING)), (Z.eqb_spec (l_best SPROUT m) (r SPROUT)); destruct ty; try congruence; set_solver.
Qed.

(** ** Blocks *)

Lemma none_overwritten_refines vtx w m s :
  refines (view_of w) (m :: s) ->
  refines (view_of (none_overwritten vtx w).2) (m :: s) /\
  ((none_overwritten vtx w).1 = true -> forall tx, tx ∈ vtx -> l_coins m !! GetHash tx = None).
Proof.
  revert w. induction vtx as [|tx vtx IH]; intros w Hr; [by split; [|intros _ tx Hn%not_elem_of_nil]|]. cbn [none_overwritten].
  destruct (on_top_refines _ _ w _ (proj1 (GetCoins_reads (GetHash tx) _ (proj1 Hr))) Hr) as [Ha Hr1].
  assert (B1 : unspent (find_coins (GetHash tx) (view_of w)) = l_coins m !! GetHash tx) by apply Hr.
  destruct (on_top _ w) as [c w1]. cbn [fst snd] in *. subst c.
  assert (Hp : match find_coins (GetHash tx) (view_of w) with Some c => negb (IsPruned c) | None => false end = false ->
               l_coins m !! GetHash tx = None).
  { rewrite <- B1. intros Hc. apply unspent_None. intros c Hf. rewrite Hf in Hc. by apply negb_false_iff. }
  destruct (match find_coins _ _ with Some c => negb (IsPruned c) | None => false end); [done|].
  destruct (IH _ Hr1) as [H1 H2]. split; [done|]. intros Ht tx' [->|Hin]%elem_of_cons; auto.
Qed.

(** The root a pool has after the block, from a tree with the root before it. *)
Definition new_root (ty : ShieldedType) (vtx : list CTransaction) (tree : Tree) : Z :=
  root ty (foldl (fun tree tx => match ty with SPROUT => append_joinsplits shielded tx tree | SAPLING => append_outputs shielded tx tree end) tree vtx).

(** A ledger a chain can reach: the heights are positive, and the hashes set. *)
Definition ledger_ok (m : Ledger) : Prop := heights_ok m /\ l_best_block m <> 0 /\ forall ty, l_best ty m <> 0.

(** A block that the other checks let through: a coinbase first and only
    there, without shielded inputs; distinct transactions; no negative output;
    roots that are the ones before or new. *)
Record block_ok (nHeight blockHash : Z) (vtx : list CTransaction) (m : Ledger) : Prop := {
  bo_height : 0 < nHeight < 2 ^ 31;
  bo_hash : blockHash <> 0;
  bo_coinbase : match vtx with [] => False | tx :: vtx' => IsCoinBase tx = true /\ nullifiers_of shielded tx = [] /\ Forall (fun tx => IsCoinBase tx = false) vtx' end;
  bo_nodup : NoDup (map GetHash vtx);
  bo_outputs : Forall outputs_ok vtx;
  bo_roots : forall ty tree, root ty tree = l_best ty m -> new_root ty vtx tree <> 0 /\ root_ok ty (new_root ty vtx tree) m;
}.

Lemma block_ok_nullifiers h bh vtx m :
  block_ok h bh vtx m -> Forall (fun tx => IsCoinBase tx = true -> nullifiers_of shielded tx = []) vtx.
Proof.
  intros [_ _ Hc _ _ _]. destruct vtx as [|tx vtx]; [done|]. destruct Hc as (_ & H1 & H2). constructor; [done|].
  eapply Forall_impl; [exact H2|]. cbn. congruence.
Qed.

Lemma block_ok_undo h bh vtx m uss :
  block_ok h bh vtx m -> length uss = length vtx ->
  None :: map Some (tail uss) = zip_with undo_of vtx uss /\ (length (tail uss) + 1 =? length vtx)%nat = true.
Proof.
  intros [_ _ Hc _ _ _] Hl. destruct vtx as [|tx vtx], uss as [|us uss]; try done. destruct Hc as (Hcb & _ & Hn). cbn in *.
  split; [|apply Nat.eqb_eq; lia]. unfold undo_of at 1. rewrite Hcb. f_equal. injection Hl as Hl. clear -Hn Hl.
  revert uss Hl. induction Hn as [|tx vtx Hx _ IH]; intros [|us uss] [=]; [done|]. cbn. unfold undo_of at 1. rewrite Hx. f_equal. by apply IH.
Qed.

(** What a connected block leaves in its cache, over the ledger [m]. *)
Lemma ConnectBlockCoins_refines h bh vtx undo v w m s :
  refines v (m :: s) -> ledger_ok m -> block_ok h bh vtx m -> ConnectBlockCoins shielded h bh vtx (new_cache v) = Some (undo, w) ->
  exists uss mt r1 r2,
    undo = mkCBlockUndo (tail uss) (l_best SPROUT m) /\ length uss = length vtx /\ txs_undone h vtx uss m mt /\
    l_anchors mt = l_anchors m /\ (forall ty, l_best ty mt = l_best ty m) /\
    refines (view_of w) ((l_push SAPLING r2 (l_push SPROUT r1 mt)) <| l_best_block := bh |> :: m :: s) /\
    (root_ok SPROUT r1 m /\ r1 <> 0) /\ (root_ok SAPLING r2 m /\ r2 <> 0) /\ may_flush (view_of w).
Proof.
  intros Hr (Hh & Hbb & Hbest) Hblock Hc. pose proof Hblock as [B1 B2 B3 B4 B5 B6]. unfold ConnectBlockCoins in Hc.
  pose proof (new_cache_refines v m s Hr) as Hr0.
  destruct (none_overwritten_refines vtx (new_cache v) m (m :: s) Hr0) as [Hr1 Hno]. destruct (none_overwritten _ _) as [fresh w1]. cbn [fst snd] in *.
  destruct (GetBestAnchor_hash SPROUT w1 m _ Hr1) as (w2 & E2 & Hr2 & _). rewrite E2 in Hc.
  destruct (GetAnchorAt_found SPROUT (l_best SPROUT m) w2 m _ Hr2) as (sprout & w3 & E3 & Hr3 & F3 & _). rewrite E3 in Hc.
  destruct (GetBestAnchor_hash SAPLING w3 m _ Hr3) as (w4 & E4 & Hr4 & _). rewrite E4 in Hc.
  destruct (GetAnchorAt_found SAPLING (l_best SAPLING m) w4 m _ Hr4) as (sapling & w5 & E5 & Hr5 & F5 & _). rewrite E5 in Hc.
  destruct fresh; [|done]. destruct sprout as [t1|]; [|done]. destruct sapling as [t2|]; [|done].
  destruct (F3 _ eq_refl) as [R1 _]. destruct (F5 _ eq_refl) as [R2 _]. rewrite R1, Z.eqb_refl in Hc. cbn [negb] in Hc.
  destruct (connect_txs_coins shielded h vtx w5) as [[uss w6]|] eqn:E6; [|done]. cbn -[PushAnchor] in Hc. injection Hc as <- <-.
  destruct (connect_txs_refines h vtx uss w5 w6 m m s Hr5 Hh B1 B5 B4) as (mt & Hr6 & _ & L6 & A6 & _ & C6 & U6);
    [by intros tx Htx; split; apply Hno|by eapply block_ok_nullifiers|done|].
  destruct (B6 SPROUT t1 R1) as [N1 K1]. destruct (B6 SAPLING t2 R2) as [N2 K2]. unfold new_root in N1, K1, N2, K2.
  set (tr1 := foldl _ t1 vtx) in *. set (tr2 := foldl _ t2 vtx) in *.
  pose proof (PushAnchor_refines SPROUT tr1 w6 mt _ N1 Hr6) as Hr7.
  destruct (PushAnchor_hash SPROUT tr1 w6 mt _ Hr6) as [P1 _]; [by rewrite C6|done|].
  pose proof (PushAnchor_refines SAPLING tr2 _ _ _ N2 Hr7) as Hr8.
  destruct (PushAnchor_hash SAPLING tr2 _ _ _ Hr7) as [P2 P3]; [|done|].
  { destruct (l_push_fields SPROUT (root SPROUT tr1) mt) as (_ & _ & _ & Hx & _). by rewrite Hx, C6. }
  exists uss, mt, (root SPROUT tr1), (root SAPLING tr2). split_and!; try done; [by apply SetBestBlock_refines|].
  unfold may_flush. cbn -[PushAnchor]. destruct (PushAnchor SAPLING tr2 _).1; [done|]. split; [done|].
  intros []; [|exact P2]. intros E. apply P1. rewrite <- P3 by done. exact E.
Qed.

(** The ledger of the tip after a flush. *)
Lemma flushed_refines w m m' s :
  may_flush (view_of w) -> refines (view_of w) (m :: m' :: s) -> exists w', Flush_coins w = Some w' /\ refines w'.1 (m :: s).
Proof.
  intros Hf Hr. destruct (Flush_coins_refines w m (m' :: s) Hf Hr) as (w' & -> & [(Hv & _) [_ Hm]]). by exists w'.
Qed.

Lemma DisconnectBlockCoins_refines h bh vtx uss v m mt m' r1 r2 s :
  ledger_ok m -> (forall ty, (ty, empty_root ty) ∈ l_anchors m) -> block_ok h bh vtx m -> length uss = length vtx -> txs_undone h vtx uss m mt ->
  l_anchors mt = l_anchors m -> (forall ty, l_best ty mt = l_best ty m) -> root_ok SPROUT r1 m /\ r1 <> 0 -> root_ok SAPLING r2 m /\ r2 <> 0 ->
  m' = (l_push SAPLING r2 (l_push SPROUT r1 mt)) <| l_best_block := bh |> -> refines v (m' :: s) ->
  exists w, DisconnectBlockCoins shielded h bh (l_best_block m) (l_best SAPLING m) vtx (mkCBlockUndo (tail uss) (l_best SPROUT m)) (new_cache v)
            = Some (true, w) /\
    refines (view_of w) (m :: m' :: s) /\ may_flush (view_of w).
Proof.
  intros (Hh & Hbb & Hbest) He Hblock Hl Hu Ha Hb [K1 N1] [K2 N2] Hm' Hr. destruct (block_ok_undo _ _ _ _ _ Hblock Hl) as [Hundo Hlen].
  assert (F : l_coins m' = l_coins mt /\ l_nullifiers m' = l_nullifiers mt /\ l_best_block m' = bh /\
    l_best SPROUT m' = r1 /\ l_best SAPLING m' = r2 /\ l_anchors m' = l_anchors (l_push SAPLING r2 (l_push SPROUT r1 mt))).
  { destruct (l_push_fields SPROUT r1 mt) as (P1 & P2 & P3 & _). destruct (l_push_fields SAPLING r2 (l_push SPROUT r1 mt)) as (Q1 & Q2 & Q3 & Q4 & _).
    subst m'. split_and!; [by etrans|by etrans|done|etrans; [exact (Q4 SPROUT ltac:(done))|done]|exact Q3|done]. }
  destruct F as (F1 & F2 & F3 & F4 & F5 & F6). clear Hm'.
  assert (G : l_anchors (l_push SAPLING r2 (l_push SPROUT r1 mt)) = l_anchors (l_push SAPLING r2 (l_push SPROUT r1 m))).
  { destruct (l_push_fields SPROUT r1 m) as (_ & _ & _ & S2 & S3). destruct (l_push_fields SAPLING r2 (l_push SPROUT r1 m)) as (_ & _ & _ & _ & S6).
    destruct (l_push_fields SPROUT r1 mt) as (_ & _ & _ & T2 & T3). destruct (l_push_fields SAPLING r2 (l_push SPROUT r1 mt)) as (_ & _ & _ & _ & T6).
    rewrite S6, T6, S2, T2, S3, T3, !Hb, Ha by done. done. }
  unfold DisconnectBlockCoins. pose proof (new_cache_refines v m' s Hr) as Hr0.
  destruct (on_top_refines _ _ (new_cache v) _ (GetBestBlock_reads _ (proj1 Hr0)) Hr0) as [Hbest0 Hr1].
  assert (Hbb0 : best_block (view_of (new_cache v)) = l_best_block m') by apply Hr0. rewrite Hbb0, F3 in Hbest0.
  destruct (on_top _ (new_cache v)) as [best w1]. cbn [fst snd vtxundo] in *. subst best. rewrite Z.eqb_refl, Hlen. cbn [negb orb].
  rewrite Hundo. destruct (Hu w1 m' (m' :: s) Hr1 F1 F2) as (w2 & -> & Hr2). cbn [mbind option_bind fst snd old_sprout_tree_root].
  set (m2 := m' <| l_coins := l_coins m |> <| l_nullifiers := l_nullifiers m |>) in *.
  destruct (PopAnchor_refines SPROUT (l_best SPROUT m) w2 m2 (m' :: s)) as (w3 & E3 & Hr3); [done| |done|].
  { change (l_best SPROUT m2) with (l_best SPROUT m'). change (l_anchors m2) with (l_anchors m'). rewrite F4, F6, G.
    intros Hne. by apply (pushed_anchor (fun ty => match ty with SPROUT => r1 | SAPLING => r2 end) m SPROUT). }
  rewrite E3. cbn [mbind option_bind fst snd old_sprout_tree_root]. assert (Hn2 : l_best SPROUT m2 <> 0) by (change (l_best SPROUT m' <> 0); by rewrite F4).
  destruct (PopAnchor_hash _ _ _ _ _ _ Hr2 Hn2 (Hbest SPROUT) E3) as [P3 _].
  set (m3 := l_pop SPROUT (l_best SPROUT m) m2) in *.
  destruct (l_pop_fields SPROUT (l_best SPROUT m) m2) as (X1 & X2 & X3 & X4 & X5). fold m3 in X1, X2, X3, X4, X5.
  assert (Hm3 : l_best SAPLING m3 = r2) by (rewrite X4 by done; exact F5).
  destruct (PopAnchor_refines SAPLING (l_best SAPLING m) w3 m3 (m' :: s)) as (w4 & E4 & Hr4); [done| |done|].
  { rewrite Hm3, X5. change (l_best SPROUT m2) with (l_best SPROUT m'). change (l_anchors m2) with (l_anchors m'). rewrite F4, F6, G. intros Hne.
    destruct (pushed_anchor (fun ty => match ty with SPROUT => r1 | SAPLING => r2 end) m SAPLING K2 Hne (He _)) as [Q1 Q2].
    split; [|done]. destruct (r1 =? _); [done|]. set_solver. }
  rewrite E4. cbn [mbind option_bind fst snd old_sprout_tree_root]. assert (Hn3 : l_best SAPLING m3 <> 0) by by rewrite Hm3.
  destruct (PopAnchor_hash _ _ _ _ _ _ Hr3 Hn3 (Hbest SAPLING) E4) as [P4 P5].
  eexists. split; [reflexivity|].
  destruct (pops_undo_pushes r1 r2 m m2 K1 K2) as (Y1 & Y2 & Y3 & Y4); [by rewrite <- G, <- F6|by intros []|].
  fold m3 in Y1, Y2, Y3, Y4. split.
  - pose proof (SetBestBlock_refines (l_best_block m) w4 _ _ Hbb Hr4) as Hr5.
    replace ((l_pop SAPLING (l_best SAPLING m) m3) <| l_best_block := l_best_block m |>) with m in Hr5; [done|].
    symmetry. apply ledger_eq; [done|]. split_and!; [done|done|done|]. intros ty. etrans; [|apply Y2]. by destruct ty.
  - unfold may_flush. cbn. destruct w4.1; [done|]. split; [done|]. intros []; [|exact P4]. intros E. apply P3. rewrite <- P5 by done. exact E.
Qed.

(** C5. A reorganisation restores the coins exactly.  A block that [ConnectBlock]
    accepts on the coins of the tip is connected (no assertion fails, the flush
    into the cache or the database below succeeds); disconnecting it with the
    undo data it left is clean, flushes as well, and the coins of the tip then
    stand for the very ledger they stood for before: every output spent is back
    with its height and coinbase flag, every output, nullifier and anchor the
    block added is gone, and the best block and anchors are the old ones. *)
Theorem coins_reorg_restores h bh vtx undo pcoinsTip w m s :
  refines pcoinsTip (m :: s) -> ledger_ok m -> block_ok h bh vtx m ->
  ConnectBlockCoins shielded h bh vtx (new_cache pcoinsTip) = Some (undo, w) ->
  exists tip' tip'', ConnectTipCoins shielded h bh vtx pcoinsTip = Some (undo, tip') /\
    DisconnectTipCoins shielded h bh (l_best_block m) (l_best SAPLING m) vtx undo tip' = Some tip'' /\
    refines tip'' (m :: s).
Proof.
  intros Hr Hm Hb Hc. pose proof (fun ty => empty_root_anchor _ _ _ ty Hr) as He.
  destruct (ConnectBlockCoins_refines h bh vtx undo pcoinsTip w m s Hr Hm Hb Hc)
    as (uss & mt & r1 & r2 & -> & Hl & Hu & Ha & Hbest & Hr1 & K1 & K2 & Hf1).
  destruct (flushed_refines w _ m s Hf1 Hr1) as (w1 & E1 & Hr2).
  destruct (DisconnectBlockCoins_refines h bh vtx uss w1.1 m mt _ r1 r2 s Hm He Hb Hl Hu Ha Hbest K1 K2 eq_refl Hr2) as (w2 & E2 & Hr3 & Hf3).
  destruct (flushed_refines w2 m _ s Hf3 Hr3) as (w3 & E3 & Hr4).
  exists w1.1, w3.1. unfold ConnectTipCoins, DisconnectTipCoins. rewrite Hc, E2. cbn. rewrite E1, E3. by split_and!.
Qed.

End reorg.

(** * A small block *)

(** On the coins of [sample_view]: a coinbase, a transaction that spends both
    outputs there are and moves value into both pools, and one that spends an
    output of the second. *)
#[local] Existing Instance list_trees.

Definition block_tx (h : Z) (ins : list COutPoint) (outs : list Z) : CTransaction :=
  emptyTx <| hash := h |> <| nVersion := 4 |> <| vin := map (fun out => mkCTxIn out [] 0) ins |> <| vout := map (fun v => mkCTxOut v [1]) outs |>.

Definition sample_block : list CTransaction :=
  [block_tx 100 [COutPoint_null] [60]; block_tx 101 [mkCOutPoint 5 0; mkCOutPoint 5 1] [55; 10]; block_tx 102 [mkCOutPoint 101 1] [9]].

Definition sample_shielded (tx : CTransaction) : Shielded :=
  if GetHash tx =? 101 then mkShielded [mkJSDescription 1 [11; 12] [21; 22]] [mkSpendDescription 1 13] [31] else mkShielded [] [] [].

Definition sample_tip : CCoinsView := view_of (new_cache sample_view).

Lemma sample_block_ok : block_ok sample_shielded 7 901 sample_block sample_ledger.
Proof.
  split; [done|done| | | |].
  - split_and!; [done|done|]. by repeat (apply Forall_cons_2; [done|]).
  - apply (bool_decide_unpack _). by vm_compute.
  - repeat (apply Forall_cons_2; [by repeat (apply Forall_cons_2; [cbn; lia|])|]). done.
  - intros ty tree Ht. assert (tree = []) as -> by (destruct ty, tree; cbn in Ht; lia || done).
    destruct ty; (split; [done|right]); apply (bool_decide_unpack _); by vm_compute.
Qed.

Lemma sample_ledger_ok : ledger_ok sample_ledger.
Proof. split_and!; [by apply map_Forall_singleton|done|by intros []]. Qed.

Definition sample_connected : option (CBlockUndo * TopCache) := ConnectBlockCoins sample_shielded 7 901 sample_block (new_cache sample_tip).

(** The undo data of that block. *)
Example sample_undo :
  fst <$> sample_connected =
  Some (mkCBlockUndo [[mkCTxInUndo (mkCTxOut 50 []) false 0 0; mkCTxInUndo (mkCTxOut 20 []) true 3 1]; [mkCTxInUndo (mkCTxOut 10 [1]) false 0 0]] 1).
Proof. by vm_compute. Qed.

Lemma coins_reorg_restores_witness :
  exists undo w, sample_connected = Some (undo, w) /\
  exists tip' tip'', ConnectTipCoins sample_shielded 7 901 sample_block sample_tip = Some (undo, tip') /\
    DisconnectTipCoins sample_shielded 7 901 900 1 sample_block undo tip' = Some tip'' /\
    refines tip'' [sample_ledger; sample_ledger].
Proof.
  destruct sample_connected as [[undo w]|] eqn:E; [|exfalso; generalize E; by vm_compute].
  exists undo, w. split; [done|].
  exact (coins_reorg_restores sample_shielded 7 901 sample_block undo sample_tip w sample_ledger [sample_ledger]
           (new_cache_refines _ _ _ sample_refines) sample_ledger_ok sample_block_ok E).
Defined.
