(* ===== verification/MempoolLimit.v ===== *)
(** The limits of the memory pool (mempool_limit.h, mempool_limit.cpp): the list
    of recently evicted transactions, and the weighted tree from which the pool
    picks what to evict.  The tree is an array in heap order; every node holds
    the weight of everything below it, so that adding, removing and drawing a
    transaction at random touch one path.

    [contents] is what the tree stands for, [inorder] the order in which the
    descent meets the transactions, and [pick] the linear scan that the descent
    is equivalent to. *)

From stdpp Require Import gmap list fin_maps.
From Stdlib Require Import ZArith Lia.
From S2P Require Import Prelude Transaction.

(** * The constants *)

Definition DEFAULT_MEMPOOL_TOTAL_COST_LIMIT : Z := 80000000.
Definition EVICTION_MEMORY_ENTRIES : nat := 40000.
Definition MIN_TX_COST : Z := 4000.
Definition LOW_FEE_PENALTY : Z := 16000.
Definition DEFAULT_FEE : Z := 10000.

(** * Recently evicted transactions *)

Record RecentlyEvictedList := mkRecentlyEvictedList {
  re_capacity : nat;
  timeToKeep : Z;
  txIdsAndTimes : list (Z * Z);
  txIdSet : gset Z;
}.

#[global] Instance RecentlyEvictedList_eta : Eta RecentlyEvictedList := fun r =>
  mkRecentlyEvictedList (re_capacity r) (timeToKeep r) (txIdsAndTimes r) (txIdSet r).

(** The loop of [pruneList]. *)
Fixpoint prune_front (now keep : Z) (l : list (Z * Z)) (s : gset Z) : list (Z * Z) * gset Z :=
  match l with
  | [] => ([], s)
  | (txId, t) :: l' => if keep <? i64 (now - t) then prune_front now keep l' (s ∖ {[txId]}) else (l, s)
  end.

Definition pruneList (now : Z) (r : RecentlyEvictedList) : RecentlyEvictedList :=
  if decide (txIdSet r = ∅) then r
  else let '(l, s) := prune_front now (timeToKeep r) (txIdsAndTimes r) (txIdSet r) in r <| txIdsAndTimes := l |> <| txIdSet := s |>.

Definition evicted_add (now txId : Z) (r : RecentlyEvictedList) : RecentlyEvictedList :=
  let r := pruneList now r in
  let r := if (length (txIdsAndTimes r) =? re_capacity r)%nat
           then r <| txIdSet := match txIdsAndTimes r with [] => txIdSet r | (old, _) :: _ => txIdSet r ∖ {[old]} end |>
                  <| txIdsAndTimes ::= tail |>
           else r in
  r <| txIdsAndTimes ::= fun l => l ++ [(txId, now)] |> <| txIdSet ::= fun s => {[txId]} ∪ s |>.

Definition evicted_contains (now txId : Z) (r : RecentlyEvictedList) : bool * RecentlyEvictedList :=
  let r := pruneList now r in (bool_decide (txId ∈ txIdSet r), r).

(** * Weights *)

Record TxWeight := mkTxWeight { cost : Z; evictionWeight : Z }.

Definition ZERO_WEIGHT : TxWeight := mkTxWeight 0 0.

Definition TxWeight_add (a b : TxWeight) : TxWeight := mkTxWeight (i64 (cost a + cost b)) (i64 (evictionWeight a + evictionWeight b)).
Definition TxWeight_negate (a : TxWeight) : TxWeight := mkTxWeight (i64 (- cost a)) (i64 (- evictionWeight a)).

Record WeightedTxInfo := mkWeightedTxInfo { wi_txId : Z; txWeight : TxWeight }.

(** [WeightedTxInfo::from]; [memUsage] is the memory the transaction takes,
    shielded parts included. *)
Definition WeightedTxInfo_from (memUsage : CTransaction -> Z) (tx : CTransaction) (fee : Z) : WeightedTxInfo :=
  let cost := Z.max (i64 (memUsage tx)) MIN_TX_COST in
  mkWeightedTxInfo (GetHash tx) (mkTxWeight cost (if fee <? DEFAULT_FEE then i64 (cost + LOW_FEE_PENALTY) else cost)).

(** * The tree *)

Record WeightedTxTree := mkWeightedTxTree {
  wt_capacity : Z;
  wt_size : nat;
  txIdAndWeights : list WeightedTxInfo;
  childWeights : list TxWeight;
  txIdToIndexMap : gmap Z nat;
}.

#[global] Instance WeightedTxTree_eta : Eta WeightedTxTree := fun r =>
  mkWeightedTxTree (wt_capacity r) (wt_size r) (txIdAndWeights r) (childWeights r) (txIdToIndexMap r).

Definition new_tree (capacity : Z) : WeightedTxTree := mkWeightedTxTree capacity 0 [] [] ∅.

(** The elements of the two vectors; reads are in range. *)
Definition weight_at (t : WeightedTxTree) (i : nat) : TxWeight := match txIdAndWeights t !! i with Some info => txWeight info | None => ZERO_WEIGHT end.
Definition children_at (t : WeightedTxTree) (i : nat) : TxWeight := default ZERO_WEIGHT (childWeights t !! i).

Definition getWeightAt (t : WeightedTxTree) (index : nat) : TxWeight :=
  if (index <? wt_size t)%nat then TxWeight_add (weight_at t index) (children_at t index) else ZERO_WEIGHT.

Definition getTotalWeight (t : WeightedTxTree) : TxWeight := getWeightAt t 0.

(** The loop of [backPropagate]; [fromIndex] itself is fuel enough. *)
Fixpoint back_loop (fuel fromIndex : nat) (delta : TxWeight) (cw : list TxWeight) : list TxWeight :=
  match fuel, fromIndex with
  | S fuel, S k => let p := Nat.div2 k in back_loop fuel p delta (alter (fun w => TxWeight_add w delta) p cw)
  | _, _ => cw
  end.

Definition backPropagate (fromIndex : nat) (delta : TxWeight) (t : WeightedTxTree) : WeightedTxTree :=
  t <| childWeights ::= back_loop fromIndex fromIndex delta |>.

(** [findByEvictionWeight]: the local variables are [int]s.  [None] when the
    descent has left the tree and would not return. *)
Fixpoint findByEvictionWeight (fuel : nat) (t : WeightedTxTree) (fromIndex : nat) (weightToFind : Z) : option nat :=
  match fuel with
  | O => None
  | S fuel =>
    let leftWeight := i32 (evictionWeight (getWeightAt t (fromIndex * 2 + 1))) in
    let rightWeight := i32 (i64 (evictionWeight (getWeightAt t fromIndex) - evictionWeight (getWeightAt t (fromIndex * 2 + 2)))) in
    if weightToFind <? leftWeight then findByEvictionWeight fuel t (fromIndex * 2 + 1) weightToFind
    else if weightToFind <? rightWeight then Some fromIndex
    else findByEvictionWeight fuel t (fromIndex * 2 + 2) (i64 (weightToFind - rightWeight))
  end.

Definition tree_add (info : WeightedTxInfo) (t : WeightedTxTree) : WeightedTxTree :=
  match txIdToIndexMap t !! wi_txId info with
  | Some _ => t
  | None =>
    let t := t <| txIdAndWeights ::= fun l => l ++ [info] |> <| childWeights ::= fun l => l ++ [ZERO_WEIGHT] |>
               <| txIdToIndexMap ::= <[wi_txId info := wt_size t]> |> in
    (backPropagate (wt_size t) (txWeight info) t) <| wt_size ::= S |>
  end.

Definition pop_back {A} (l : list A) : list A := take (length l - 1) l.

Definition tree_remove (txId : Z) (t : WeightedTxTree) : WeightedTxTree :=
  match txIdToIndexMap t !! txId with
  | None => t
  | Some removeIndex =>
    let t := t <| wt_size ::= pred |> in
    let size := wt_size t in
    let lastChildWeight := weight_at t size in
    let t := backPropagate size (TxWeight_negate lastChildWeight) t in
    let t :=
      match txIdAndWeights t !! size with
      | Some last =>
        if (removeIndex <? size)%nat then
          let weightDelta := TxWeight_add lastChildWeight (TxWeight_negate (weight_at t removeIndex)) in
          let t := t <| txIdAndWeights ::= <[removeIndex := last]> |> <| txIdToIndexMap ::= <[wi_txId last := removeIndex]> |> in
          backPropagate removeIndex weightDelta t
        else t
      | None => t
      end in
    t <| txIdToIndexMap ::= delete txId |> <| txIdAndWeights ::= pop_back |> <| childWeights ::= pop_back |>
  end.

(** [maybeDropRandom], for the number [GetRand] draws. *)
Definition maybeDropRandom (rand : Z) (t : WeightedTxTree) : option (option Z * WeightedTxTree) :=
  if cost (getTotalWeight t) <=? wt_capacity t then Some (None, t)
  else
    i ← findByEvictionWeight (S (wt_size t)) t 0 (i32 rand);
    drop ← txIdAndWeights t !! i;
    Some (Some (wi_txId drop), tree_remove (wi_txId drop) t).

(** * Paths to the root *)

(** [i] is on the path from [n] to the root. *)
Fixpoint on_path_loop (fuel i n : nat) : bool :=
  (i =? n)%nat || match fuel, n with S fuel, S k => on_path_loop fuel i (Nat.div2 k) | _, _ => false end.
Definition on_path (i n : nat) : bool := on_path_loop n i n.

(** ... and is not [n] itself. *)
Definition over (i n : nat) : bool := match n with O => false | S k => on_path i (Nat.div2 k) end.

Lemma div2_le k : (Nat.div2 k <= k)%nat.
Proof. rewrite Nat.div2_div. apply Nat.Div0.div_le_upper_bound. lia. Qed.

Lemma on_path_fuel fuel i n : (n <= fuel)%nat -> on_path_loop fuel i n = on_path i n.
Proof.
  revert i n. assert (H : forall f1 f2 i n, (n <= f1)%nat -> (n <= f2)%nat -> on_path_loop f1 i n = on_path_loop f2 i n).
  { induction f1 as [|f1 IH]; intros [|f2] i [|k] H1 H2; try lia; cbn; try done. f_equal. pose proof (div2_le k). apply IH; lia. }
  intros i n Hn. by apply H.
Qed.

Lemma on_path_eq i n : on_path i n = (i =? n)%nat || over i n.
Proof.
  unfold on_path. destruct n as [|k]; [done|]. cbn [on_path_loop]. f_equal. unfold over.
  apply on_path_fuel, div2_le.
Qed.

Lemma on_path_le i n : on_path i n = true -> (i <= n)%nat.
Proof.
  revert n. induction n as [n IH] using lt_wf_ind. rewrite on_path_eq. intros [->%Nat.eqb_eq|Ho]%orb_true_iff; [done|].
  destruct n as [|k]; [done|]. pose proof (div2_le k). cbn in Ho. apply IH in Ho; lia.
Qed.

Lemma over_lt i n : over i n = true -> (i < n)%nat.
Proof. destruct n as [|k]; [done|]. intros Ho%on_path_le. pose proof (div2_le k). lia. Qed.

(** A node is over [n] when one of its children is on the path, and never both are. *)
Lemma over_child i n :
  over i n = on_path (i * 2 + 1) n || on_path (i * 2 + 2) n /\ on_path (i * 2 + 1) n && on_path (i * 2 + 2) n = false.
Proof.
  induction n as [n IH] using lt_wf_ind. rewrite !(on_path_eq _ n). destruct n as [|k].
  { cbn. rewrite !orb_false_r. by rewrite !(proj2 (Nat.eqb_neq _ _)) by lia. }
  unfold over. pose proof (div2_le k) as Hd. destruct (IH (Nat.div2 k)) as [I1 I2]; [lia|]. rewrite (on_path_eq i). rewrite I1.
  assert (Hk : (k = 2 * Nat.div2 k \/ k = 2 * Nat.div2 k + 1)%nat).
  { pose proof (Nat.div2_odd k) as Hk. destruct (Nat.odd k); cbn [Nat.b2n] in Hk; lia. }
  assert (H1 : on_path (i * 2 + 1) (Nat.div2 k) = true -> (i * 2 + 1 <= Nat.div2 k)%nat) by apply on_path_le.
  assert (H2 : on_path (i * 2 + 2) (Nat.div2 k) = true -> (i * 2 + 2 <= Nat.div2 k)%nat) by apply on_path_le.
  destruct (on_path (i * 2 + 1) (Nat.div2 k)), (on_path (i * 2 + 2) (Nat.div2 k)); try done;
    destruct (Nat.eqb_spec i (Nat.div2 k)), (Nat.eqb_spec (i * 2 + 1) (S k)), (Nat.eqb_spec (i * 2 + 2) (S k)); cbn;
    try (split; reflexivity); exfalso; try specialize (H1 eq_refl); try specialize (H2 eq_refl); lia.
Qed.

Lemma back_loop_lookup fuel n delta cw i :
  (n <= fuel)%nat -> back_loop fuel n delta cw !! i = if over i n then (fun w => TxWeight_add w delta) <$> cw !! i else cw !! i.
Proof.
  revert n cw. induction fuel as [|fuel IH]; intros [|k] cw Hn; try lia; try done. cbn [back_loop]. pose proof (div2_le k).
  rewrite IH by lia. unfold over at 2. rewrite on_path_eq. destruct (over i (Nat.div2 k)) eqn:O.
  - apply over_lt in O. rewrite orb_true_r. rewrite list_lookup_alter_ne by lia. done.
  - rewrite orb_false_r. destruct (Nat.eqb_spec i (Nat.div2 k)) as [->|]; [by rewrite list_lookup_alter_eq|by rewrite list_lookup_alter_ne by lia].
Qed.

Lemma back_loop_length fuel n delta cw : length (back_loop fuel n delta cw) = length cw.
Proof. revert n cw. induction fuel as [|fuel IH]; intros [|k] cw; cbn; try done. by rewrite IH, length_alter. Qed.

(** * Arithmetic of weights *)

Lemma i64_add_l a b : i64 (i64 a + b) = i64 (a + b).
Proof. unfold i64. f_equal. replace ((a + 2 ^ 63) mod 2 ^ 64 - 2 ^ 63 + b + 2 ^ 63) with ((a + 2 ^ 63) mod 2 ^ 64 + b) by lia.
  rewrite Zplus_mod_idemp_l. f_equal. lia. Qed.

Lemma i64_add_r a b : i64 (a + i64 b) = i64 (a + b).
Proof. rewrite Z.add_comm, i64_add_l. f_equal. lia. Qed.

(** Equality of two weights computed from the same ones: the inner casts go
    first. *)
Ltac drop_cast :=
  match goal with
  | |- context [i64 (i64 ?a + ?b)] => lazymatch a with context [i64] => fail | _ => rewrite (i64_add_l a b) end
  | |- context [i64 (?a + i64 ?b)] => lazymatch b with context [i64] => fail | _ => rewrite (i64_add_r a b) end
  end.
Ltac weights :=
  unfold TxWeight_add, TxWeight_negate, ZERO_WEIGHT; cbn [cost evictionWeight]; repeat drop_cast;
  f_equal; first [reflexivity | f_equal; lia].

(** * The invariant of the tree *)

Section heap.
Implicit Types w c : nat -> TxWeight.

Definition below w c (n j : nat) : TxWeight := if (j <? n)%nat then TxWeight_add (w j) (c j) else ZERO_WEIGHT.

Definition heap w c (n : nat) : Prop := forall i, (i < n)%nat -> c i = TxWeight_add (below w c n (i * 2 + 1)) (below w c n (i * 2 + 2)).

(** A change of [delta] at [m] that has been carried along its path. *)
Lemma heap_shift w c n w' c' n' m delta i :
  (forall j, below w' c' n' j = if on_path j m then TxWeight_add (below w c n j) delta else below w c n j) ->
  c i = TxWeight_add (below w c n (i * 2 + 1)) (below w c n (i * 2 + 2)) -> c' i = (if over i m then TxWeight_add (c i) delta else c i) ->
  c' i = TxWeight_add (below w' c' n' (i * 2 + 1)) (below w' c' n' (i * 2 + 2)).
Proof.
  intros Hb Hi ->. rewrite !Hb. destruct (over_child i m) as [-> Hx].
  destruct (on_path (i * 2 + 1) m), (on_path (i * 2 + 2) m); try done; cbn [orb]; rewrite Hi; weights.
Qed.

Lemma heap_add w c w' c' n x :
  heap w c n -> (forall j, (j < n)%nat -> w' j = w j) -> w' n = x -> c' n = ZERO_WEIGHT ->
  (forall j, (j < n)%nat -> c' j = if over j n then TxWeight_add (c j) x else c j) -> heap w' c' (S n).
Proof.
  intros Hh Hw Hx Hz Hc.
  assert (Hb : forall j, below w' c' (S n) j = if on_path j n then TxWeight_add (below w c n j) x else below w c n j).
  { intros j. unfold below. rewrite on_path_eq. destruct (Nat.eqb_spec j n) as [->|Hne].
    - rewrite (proj2 (Nat.ltb_lt _ _)), (proj2 (Nat.ltb_ge _ _)) by lia. cbn [orb]. rewrite Hx, Hz. weights.
    - cbn [orb]. destruct (Nat.ltb_spec j n) as [Hlt|Hge].
      + rewrite (proj2 (Nat.ltb_lt _ _)) by lia. rewrite Hw, Hc by done. destruct (over j n); [|done]. weights.
      + rewrite (proj2 (Nat.ltb_ge _ _)) by lia. destruct (over j n) eqn:O; [|done]. apply over_lt in O. lia. }
  intros i Hi. destruct (decide (i = n)) as [->|].
  - rewrite Hz, !Hb. unfold below. rewrite !(proj2 (Nat.ltb_ge _ n)) by lia.
    destruct (on_path (n * 2 + 1) n) eqn:P1; [apply on_path_le in P1; lia|]. destruct (on_path (n * 2 + 2) n) eqn:P2; [apply on_path_le in P2; lia|]. done.
  - eapply (heap_shift w c n); [exact Hb|apply Hh; lia|apply Hc; lia].
Qed.

Lemma heap_drop w c c' n :
  heap w c (S n) -> (forall j, (j < n)%nat -> c' j = if over j n then TxWeight_add (c j) (TxWeight_negate (w n)) else c j) -> heap w c' n.
Proof.
  intros Hh Hc. assert (Hcn : c n = ZERO_WEIGHT).
  { rewrite (Hh n) by lia. unfold below. rewrite !(proj2 (Nat.ltb_ge _ (S n))) by lia. done. }
  assert (Hb : forall j, below w c' n j = if on_path j n then TxWeight_add (below w c (S n) j) (TxWeight_negate (w n)) else below w c (S n) j).
  { intros j. unfold below. rewrite on_path_eq. destruct (Nat.eqb_spec j n) as [->|Hne].
    - rewrite Nat.ltb_irrefl, (proj2 (Nat.ltb_lt n (S n))) by lia. cbn [orb]. rewrite Hcn. unfold TxWeight_add, TxWeight_negate, ZERO_WEIGHT. cbn.
      by rewrite !i64_add_l, !i64_add_r, !Z.add_0_r, !Z.add_opp_diag_r.
    - cbn [orb]. destruct (Nat.ltb_spec j n) as [Hlt|Hge].
      + rewrite (proj2 (Nat.ltb_lt _ _)) by lia. rewrite Hc by done. destruct (over j n); [|done]. weights.
      + rewrite (proj2 (Nat.ltb_ge _ _)) by lia. destruct (over j n) eqn:O; [|done]. apply over_lt in O. lia. }
  intros i Hi. eapply (heap_shift w c (S n)); [exact Hb|apply Hh; lia|by apply Hc].
Qed.

Lemma heap_change w c w' c' n r :
  heap w c n -> (r < n)%nat -> (forall j, (j < n)%nat -> j <> r -> w' j = w j) ->
  (forall j, (j < n)%nat -> c' j = if over j r then TxWeight_add (c j) (TxWeight_add (w' r) (TxWeight_negate (w r))) else c j) -> heap w' c' n.
Proof.
  intros Hh Hr Hw Hc.
  assert (Hb : forall j, below w' c' n j = if on_path j r then TxWeight_add (below w c n j) (TxWeight_add (w' r) (TxWeight_negate (w r))) else below w c n j).
  { intros j. unfold below. rewrite on_path_eq. destruct (Nat.eqb_spec j r) as [->|Hne].
    - rewrite (proj2 (Nat.ltb_lt _ _)) by lia. cbn [orb]. rewrite Hc by done. destruct (over r r) eqn:O; [apply over_lt in O; lia|]. weights.
    - cbn [orb]. destruct (Nat.ltb_spec j n) as [Hlt|Hge].
      + rewrite Hw, Hc by done. destruct (over j r); [|done]. weights.
      + destruct (over j r) eqn:O; [|done]. apply over_lt in O. lia. }
  intros i Hi. eapply (heap_shift w c n); [exact Hb|by apply Hh|by apply Hc].
Qed.
End heap.

(** The vectors are as long as [size] says, every node has the weight of what is
    below it, and the map has the index of every transaction. *)
Definition tree_ok (t : WeightedTxTree) : Prop :=
  length (txIdAndWeights t) = wt_size t /\ length (childWeights t) = wt_size t /\
  heap (weight_at t) (children_at t) (wt_size t) /\
  forall txId i, txIdToIndexMap t !! txId = Some i <-> wi_txId <$> txIdAndWeights t !! i = Some txId.

Lemma getWeightAt_below t : getWeightAt t = below (weight_at t) (children_at t) (wt_size t).
Proof. done. Qed.

Lemma new_tree_ok capacity : tree_ok (new_tree capacity).
Proof. split_and!; try done. Qed.

(** What the tree holds. *)
Definition contents (t : WeightedTxTree) : gmap Z TxWeight := list_to_map (map (fun info => (wi_txId info, txWeight info)) (txIdAndWeights t)).

Lemma tree_ids_NoDup t : tree_ok t -> NoDup (map wi_txId (txIdAndWeights t)).
Proof.
  intros (_ & _ & _ & Hm). apply NoDup_alt. intros i j x Hi Hj. rewrite list_lookup_fmap in Hi, Hj. apply Hm in Hi, Hj. congruence.
Qed.

Lemma contents_lookup t txId w :
  tree_ok t -> contents t !! txId = Some w <-> exists i, txIdAndWeights t !! i = Some (mkWeightedTxInfo txId w).
Proof.
  intros Ht. pose proof (tree_ids_NoDup t Ht) as Hnd. unfold contents. rewrite <- elem_of_list_to_map.
  2:{ rewrite <- list_fmap_compose. exact Hnd. }
  rewrite list_elem_of_fmap. split.
  - intros ([id w'] & [= -> ->] & Hin). by apply list_elem_of_lookup_1 in Hin.
  - intros [i Hi]. exists (mkWeightedTxInfo txId w). split; [done|]. by eapply list_elem_of_lookup_2.
Qed.

Lemma contents_None t txId : tree_ok t -> contents t !! txId = None <-> txIdToIndexMap t !! txId = None.
Proof.
  intros Ht. pose proof Ht as (_ & _ & _ & Hm). rewrite !eq_None_not_Some. split; intros Hn [x Hx]; apply Hn.
  - apply Hm in Hx. destruct (txIdAndWeights t !! x) as [[id w]|] eqn:E; [|done]. injection Hx as ->.
    exists w. apply contents_lookup; [done|]. by exists x.
  - apply contents_lookup in Hx as [i Hi]; [|done]. exists i. apply Hm. by rewrite Hi.
Qed.

Lemma tree_add_ok info t :
  tree_ok t -> tree_ok (tree_add info t) /\
  contents (tree_add info t) = (if decide (is_Some (contents t !! wi_txId info)) then contents t else <[wi_txId info := txWeight info]> (contents t)).
Proof.
  intros Ht. unfold tree_add. destruct (txIdToIndexMap t !! wi_txId info) as [i|] eqn:E.
  { rewrite decide_True; [done|]. apply not_eq_None_Some. rewrite contents_None by done. congruence. }
  pose proof Ht as (L1 & L2 & Hh & Hm). rewrite decide_False.
  2:{ intros Hs%not_eq_None_Some. by rewrite contents_None in Hs. }
  set (t' := _ <| wt_size ::= S |>). assert (Ht' : tree_ok t').
  { split_and!.
    - cbn. rewrite length_app, L1. cbn. lia.
    - cbn. rewrite back_loop_length, length_app, L2. cbn. lia.
    - apply (heap_add (weight_at t) (children_at t) _ _ _ (txWeight info) Hh).
      + intros j Hj. unfold weight_at. cbn. by rewrite lookup_app_l by lia.
      + unfold weight_at. cbn. by rewrite lookup_app_r, L1, Nat.sub_diag by lia.
      + unfold children_at. cbn. rewrite back_loop_lookup by done. destruct (over (wt_size t) (wt_size t)) eqn:O; [apply over_lt in O; lia|].
        by rewrite lookup_app_r, L2, Nat.sub_diag by lia.
      + intros j Hj. unfold children_at. cbn. rewrite back_loop_lookup by done. rewrite lookup_app_l by lia.
        destruct (lookup_lt_is_Some_2 (childWeights t) j) as [w ->]; [lia|]. by destruct (over j (wt_size t)).
    - intros txId i. cbn. destruct (decide (txId = wi_txId info)) as [->|Hne].
      + rewrite lookup_insert_eq. destruct (Nat.lt_ge_cases i (length (txIdAndWeights t))) as [Hlt|Hge].
        * rewrite lookup_app_l by done. rewrite <- Hm, E. split; [|done]. intros [= <-]. lia.
        * rewrite lookup_app_r by done. split; [intros [= <-]; by rewrite L1, Nat.sub_diag|].
          intros Hi. destruct (i - length (txIdAndWeights t))%nat eqn:D; [f_equal; lia|done].
      + rewrite lookup_insert_ne by done. rewrite Hm. destruct (Nat.lt_ge_cases i (length (txIdAndWeights t))) as [Hlt|Hge].
        * by rewrite lookup_app_l by done.
        * rewrite lookup_app_r, lookup_ge_None_2 by done. split; [done|]. destruct (i - length (txIdAndWeights t))%nat as [|[]]; cbn; [|done|done].
          congruence. }
  split; [done|]. apply map_eq. intros txId. apply option_eq. intros w. rewrite (contents_lookup t') by done.
  assert (Hl : txIdAndWeights t' = txIdAndWeights t ++ [info]) by done. rewrite Hl. split.
  - intros [i [Hi|[_ Hi]]%lookup_app_Some].
    + rewrite lookup_insert_ne; [apply contents_lookup; [done|by exists i]|]. intros <-.
      assert (txIdToIndexMap t !! wi_txId info = Some i) by (apply Hm; by rewrite Hi). congruence.
    + destruct (i - length (txIdAndWeights t))%nat; [|done]. injection Hi as ->. cbn. by rewrite lookup_insert_eq.
  - destruct (decide (txId = wi_txId info)) as [->|Hne]; [rewrite lookup_insert_eq|rewrite lookup_insert_ne by done].
    + intros [= <-]. exists (length (txIdAndWeights t)). rewrite list_lookup_middle by done. by destruct info.
    + intros Hc. apply contents_lookup in Hc as [i Hi]; [|done]. exists i. by apply lookup_app_l_Some.
Qed.

(** The infos after the last one has taken the place of the removed one. *)
Lemma moved_lookup {A} (l : list A) n r last j :
  length l = S n -> (r <= n)%nat -> l !! n = Some last ->
  pop_back (if (r <? n)%nat then <[r := last]> l else l) !! j = if (j <? n)%nat then (if (j =? r)%nat then Some last else l !! j) else None.
Proof.
  intros Hl Hr Hn. unfold pop_back. assert (Hlen : length (if (r <? n)%nat then <[r := last]> l else l) = S n).
  { destruct (r <? n)%nat; [by rewrite length_insert|done]. }
  rewrite Hlen. replace (S n - 1)%nat with n by lia. destruct (Nat.ltb_spec j n).
  - rewrite lookup_take_lt by done. destruct (Nat.ltb_spec r n).
    + destruct (Nat.eqb_spec j r) as [->|]; [by rewrite list_lookup_insert_eq by lia|by rewrite list_lookup_insert_ne by lia].
    + by rewrite (proj2 (Nat.eqb_neq j r)) by lia.
  - by rewrite lookup_take_ge by lia.
Qed.

Lemma lookup_pop_back {A} (l : list A) n j : length l = S n -> pop_back l !! j = if (j <? n)%nat then l !! j else None.
Proof.
  intros Hl. unfold pop_back. rewrite Hl. replace (S n - 1)%nat with n by lia.
  destruct (Nat.ltb_spec j n); [by rewrite lookup_take_lt|by rewrite lookup_take_ge].
Qed.

Section removing.
Context (t : WeightedTxTree) (txId : Z) (r n : nat) (gone moved : WeightedTxInfo).
Hypothesis Ht : tree_ok t.
Hypothesis Hsize : wt_size t = S n.
Hypothesis Hr : txIdAndWeights t !! r = Some gone.
Hypothesis Hgone : wi_txId gone = txId.
Hypothesis Hmoved : txIdAndWeights t !! n = Some moved.

Lemma remove_index : txIdToIndexMap t !! txId = Some r /\ (r <= n)%nat.
Proof.
  destruct Ht as (L1 & _ & _ & Hm). split; [apply Hm; by rewrite Hr, <- Hgone|]. apply lookup_lt_Some in Hr. lia.
Qed.

(** The fields of the tree after the removal. *)
Lemma tree_remove_fields :
  wt_size (tree_remove txId t) = n /\ wt_capacity (tree_remove txId t) = wt_capacity t /\
  txIdAndWeights (tree_remove txId t) = pop_back (if (r <? n)%nat then <[r := moved]> (txIdAndWeights t) else txIdAndWeights t) /\
  txIdToIndexMap (tree_remove txId t) = delete txId (if (r <? n)%nat then <[wi_txId moved := r]> (txIdToIndexMap t) else txIdToIndexMap t) /\
  childWeights (tree_remove txId t) =
    pop_back (let cw := back_loop n n (TxWeight_negate (txWeight moved)) (childWeights t) in
              if (r <? n)%nat then back_loop r r (TxWeight_add (txWeight moved) (TxWeight_negate (txWeight gone))) cw else cw).
Proof.
  destruct remove_index as [Hi _]. unfold tree_remove. rewrite Hi.
  change (wt_size (t <| wt_size ::= pred |>)) with (pred (wt_size t)). rewrite Hsize. cbn [pred].
  unfold backPropagate, weight_at. cbn -[back_loop pop_back Nat.ltb]. rewrite Hmoved. destruct (r <? n)%nat; cbn -[back_loop pop_back Nat.ltb]; rewrite ?Hr, ?Hsize; done.
Qed.

Lemma removed_map id j :
  txIdToIndexMap (tree_remove txId t) !! id = Some j <-> wi_txId <$> txIdAndWeights (tree_remove txId t) !! j = Some id.
Proof.
  destruct tree_remove_fields as (_ & _ & -> & -> & _). destruct remove_index as [Hi Hrn]. destruct Ht as (L1 & _ & _ & Hm).
  rewrite (moved_lookup _ n) by (done || lia). destruct (decide (id = txId)) as [->|Hne].
  { rewrite lookup_delete_eq. split; [done|]. intros Hj. exfalso. destruct (Nat.ltb_spec j n) as [Hlt|]; [|done].
    destruct (Nat.eqb_spec j r) as [->|Hjr].
    - injection Hj as Hj. assert (txIdToIndexMap t !! txId = Some n) by (apply Hm; by rewrite Hmoved, <- Hj). assert (r = n) by congruence. lia.
    - apply Hm in Hj. congruence. }
  rewrite lookup_delete_ne by done.
  destruct (Nat.ltb_spec r n) as [Hlt|Hge].
  - assert (Mn : txIdToIndexMap t !! wi_txId moved = Some n) by (apply Hm; by rewrite Hmoved).
    destruct (decide (id = wi_txId moved)) as [->|Hnm].
    + rewrite lookup_insert_eq. destruct (Nat.ltb_spec j n) as [Hj|Hj].
      * destruct (Nat.eqb_spec j r) as [->|Hjr]; [done|]. split; [intros [= <-]; done|]. intros Hx%Hm. assert (j = n) by congruence. lia.
      * split; [intros [= <-]; lia|done].
    + rewrite lookup_insert_ne by done. rewrite Hm. destruct (Nat.ltb_spec j n) as [Hj|Hj].
      * destruct (Nat.eqb_spec j r) as [->|Hjr]; [|done]. rewrite Hr. cbn. split; intros [= Hx]; congruence.
      * split; [|done]. intros Hx. exfalso. destruct (decide (j = n)) as [->|]; [rewrite Hmoved in Hx; cbn in Hx; congruence|].
        rewrite lookup_ge_None_2 in Hx by lia. done.
  - assert (r = n) as -> by lia. rewrite Hm. destruct (Nat.ltb_spec j n) as [Hj|Hj].
    + by rewrite (proj2 (Nat.eqb_neq j n)) by lia.
    + split; [|done]. intros Hx. exfalso. destruct (decide (j = n)) as [->|]; [rewrite Hr in Hx; cbn in Hx; congruence|].
      rewrite lookup_ge_None_2 in Hx by lia. done.
Qed.

Lemma removed_heap : heap (weight_at (tree_remove txId t)) (children_at (tree_remove txId t)) n.
Proof.
  destruct tree_remove_fields as (_ & _ & F1 & _ & F2). destruct remove_index as [Hi Hrn]. destruct Ht as (L1 & L2 & Hh & Hm).
  assert (Wn : weight_at t n = txWeight moved) by (unfold weight_at; by rewrite Hmoved).
  assert (Wr : weight_at t r = txWeight gone) by (unfold weight_at; by rewrite Hr).
  set (cw := back_loop n n (TxWeight_negate (txWeight moved)) (childWeights t)) in *.
  assert (Lc : length cw = S n) by (unfold cw; rewrite back_loop_length; lia).
  assert (H1 : heap (weight_at t) (fun j => default ZERO_WEIGHT (cw !! j)) n).
  { rewrite Hsize in Hh. apply (heap_drop _ _ _ _ Hh). intros j Hj. unfold cw. rewrite back_loop_lookup by done. rewrite Wn. unfold children_at.
    destruct (lookup_lt_is_Some_2 (childWeights t) j) as [x ->]; [lia|]. by destruct (over j n). }
  assert (W' : forall j, (j < n)%nat -> weight_at (tree_remove txId t) j = if (j =? r)%nat then txWeight moved else weight_at t j).
  { intros j Hj. unfold weight_at at 1. rewrite F1, (moved_lookup _ n) by (done || lia). rewrite (proj2 (Nat.ltb_lt _ _) Hj). by destruct (j =? r)%nat. }
  assert (C' : forall j, (j < n)%nat -> children_at (tree_remove txId t) j =
               if (r <? n)%nat && over j r then TxWeight_add (default ZERO_WEIGHT (cw !! j)) (TxWeight_add (txWeight moved) (TxWeight_negate (txWeight gone)))
               else default ZERO_WEIGHT (cw !! j)).
  { intros j Hj. unfold children_at. rewrite F2. cbn zeta. rewrite (lookup_pop_back _ n), (proj2 (Nat.ltb_lt _ _) Hj)
      by (destruct (r <? n)%nat; rewrite ?back_loop_length; done).
    destruct (Nat.ltb_spec r n) as [Hlt|]; [|done]. rewrite back_loop_lookup by done. cbn [andb].
    destruct (lookup_lt_is_Some_2 cw j) as [x ->]; [lia|]. by destruct (over j r). }
  destruct (Nat.ltb_spec r n) as [Hlt|Hge].
  - apply (heap_change (weight_at t) (fun j => default ZERO_WEIGHT (cw !! j)) _ _ n r H1 Hlt).
    + intros j Hj Hjr. rewrite W' by done. by rewrite (proj2 (Nat.eqb_neq _ _) Hjr).
    + intros j Hj. rewrite C' by done. cbn [andb]. by rewrite W', Nat.eqb_refl, Wr by done.
  - intros i Hin. assert (r = n) as -> by lia.
    assert (Hb : forall j, below (weight_at (tree_remove txId t)) (children_at (tree_remove txId t)) n j = below (weight_at t) (fun j => default ZERO_WEIGHT (cw !! j)) n j).
    { intros j. unfold below. destruct (Nat.ltb_spec j n); [|done]. rewrite W', C' by done. by rewrite (proj2 (Nat.eqb_neq j n)) by lia. }
    rewrite !Hb, C' by done. cbn [andb]. by apply H1.
Qed.

Lemma removed_contents : contents (tree_remove txId t) = delete txId (contents t).
Proof.
  assert (Ht' : tree_ok (tree_remove txId t)).
  { destruct tree_remove_fields as (F0 & _ & F1 & _ & F2). destruct Ht as (L1 & L2 & _ & _). split_and!.
    - rewrite F0, F1. unfold pop_back. rewrite length_take. destruct (r <? n)%nat; rewrite ?length_insert; lia.
    - rewrite F0, F2. unfold pop_back. rewrite length_take. cbn zeta. destruct (r <? n)%nat; rewrite ?back_loop_length; lia.
    - rewrite F0. apply removed_heap.
    - apply removed_map. }
  apply map_eq. intros id. apply option_eq. intros w. rewrite (contents_lookup _ _ _ Ht').
  destruct tree_remove_fields as (_ & _ & F1 & _). destruct remove_index as [Hi Hrn]. pose proof Ht as (L1 & _ & _ & Hm).
  destruct (decide (id = txId)) as [->|Hne].
  - rewrite lookup_delete_eq. split; [|done]. intros [j Hj]. exfalso.
    assert (Hx : txIdToIndexMap (tree_remove txId t) !! txId = Some j) by (apply removed_map; by rewrite Hj).
    destruct tree_remove_fields as (_ & _ & _ & F3 & _). by rewrite F3, lookup_delete_eq in Hx.
  - rewrite lookup_delete_ne by done. rewrite (contents_lookup _ _ _ Ht). split.
    + intros [j Hj]. rewrite F1, (moved_lookup _ n) in Hj by (done || lia). destruct (j <? n)%nat; [|done].
      destruct (j =? r)%nat; [exists n; by rewrite Hmoved|by exists j].
    + intros [j Hj]. assert (Hjr : j <> r) by (intros ->; rewrite Hr in Hj; injection Hj as ->; done).
      pose proof (lookup_lt_Some _ _ _ Hj) as Hlt. destruct (decide (j = n)) as [->|Hjn].
      * exists r. rewrite F1, (moved_lookup _ n) by (done || lia). rewrite (proj2 (Nat.ltb_lt r n)), Nat.eqb_refl by lia. congruence.
      * exists j. rewrite F1, (moved_lookup _ n) by (done || lia). by rewrite (proj2 (Nat.ltb_lt j n)), (proj2 (Nat.eqb_neq j r)) by lia.
Qed.
End removing.

Lemma tree_remove_ok txId t :
  tree_ok t -> tree_ok (tree_remove txId t) /\ contents (tree_remove txId t) = delete txId (contents t) /\
  wt_capacity (tree_remove txId t) = wt_capacity t /\
  wt_size (tree_remove txId t) = if decide (is_Some (contents t !! txId)) then pred (wt_size t) else wt_size t.
Proof.
  intros Ht. pose proof Ht as (L1 & L2 & Hh & Hm). destruct (txIdToIndexMap t !! txId) as [r|] eqn:E.
  2:{ pose proof E as Ec. rewrite <- contents_None in Ec by done. assert (Hid : tree_remove txId t = t) by (unfold tree_remove; by rewrite E).
      rewrite Hid, delete_id by done. rewrite decide_False by (rewrite Ec; by intros [? ?]). done. }
  pose proof E as Er. apply Hm in Er. destruct (txIdAndWeights t !! r) as [gone|] eqn:Hr; [|done]. injection Er as Hg.
  pose proof (lookup_lt_Some _ _ _ Hr) as Hlt. destruct (wt_size t) as [|n] eqn:Hsize; [lia|].
  destruct (lookup_lt_is_Some_2 (txIdAndWeights t) n) as [moved Hmoved]; [lia|].
  pose proof (tree_remove_fields t txId r n gone moved Ht Hsize Hr Hg Hmoved) as (F0 & F0' & F1 & F3 & F2).
  split_and!.
  - split_and!.
    + rewrite F0, F1. unfold pop_back. rewrite length_take. destruct (r <? n)%nat; rewrite ?length_insert; lia.
    + rewrite F0, F2. unfold pop_back. rewrite length_take. cbn zeta. destruct (r <? n)%nat; rewrite ?back_loop_length; lia.
    + rewrite F0. by apply (removed_heap t txId r n gone moved).
    + by apply (removed_map t txId r n gone moved).
  - by apply (removed_contents t txId r n gone moved).
  - done.
  - rewrite decide_True; [done|]. apply not_eq_None_Some. rewrite contents_None by done. congruence.
Qed.

(** * The order of the descent *)

Fixpoint inorder_loop (fuel n i : nat) : list nat :=
  match fuel with
  | O => []
  | S fuel => if (i <? n)%nat then inorder_loop fuel n (i * 2 + 1) ++ i :: inorder_loop fuel n (i * 2 + 2) else []
  end.
Definition inorder (n i : nat) : list nat := inorder_loop (n - i) n i.

Lemma inorder_fuel fuel n i : (n - i <= fuel)%nat -> inorder_loop fuel n i = inorder n i.
Proof.
  assert (H : forall f1 f2 i, (n - i <= f1)%nat -> (n - i <= f2)%nat -> inorder_loop f1 n i = inorder_loop f2 n i).
  { induction f1 as [|f1 IH]; intros [|f2] j H1 H2; cbn [inorder_loop]; try done; destruct (Nat.ltb_spec j n); try done; try lia.
    rewrite (IH f2 (j * 2 + 1)%nat), (IH f2 (j * 2 + 2)%nat) by lia. done. }
  intros Hf. by apply H.
Qed.

Lemma inorder_eq n i : inorder n i = if (i <? n)%nat then inorder n (i * 2 + 1) ++ i :: inorder n (i * 2 + 2) else [].
Proof.
  unfold inorder at 1. destruct (n - i)%nat as [|f] eqn:E; cbn [inorder_loop]; destruct (Nat.ltb_spec i n); try done; try lia.
  by rewrite !inorder_fuel by lia.
Qed.

Lemma inorder_step n i : inorder (S n) i ≡ₚ if on_path i n then n :: inorder n i else inorder n i.
Proof.
  remember (S n - i)%nat as k eqn:Hk. revert i Hk. induction k as [k IH] using lt_wf_ind. intros i Hk.
  rewrite (inorder_eq (S n)), (inorder_eq n), on_path_eq. destruct (Nat.lt_trichotomy i n) as [Hlt|[->|Hgt]].
  - rewrite (proj2 (Nat.ltb_lt i (S n))), (proj2 (Nat.ltb_lt i n)), (proj2 (Nat.eqb_neq i n)) by lia. cbn [orb].
    rewrite (IH (S n - (i * 2 + 1))%nat) by lia. rewrite (IH (S n - (i * 2 + 2))%nat) by lia.
    destruct (over_child i n) as [-> Hx]. destruct (on_path (i * 2 + 1) n), (on_path (i * 2 + 2) n); try done; cbn [orb].
    rewrite (Permutation_swap n i), Permutation_middle. done.
  - rewrite (proj2 (Nat.ltb_lt n (S n))), Nat.ltb_irrefl, Nat.eqb_refl by lia. cbn [orb].
    rewrite (inorder_eq (S n) (n * 2 + 1)), (inorder_eq (S n) (n * 2 + 2)), !(proj2 (Nat.ltb_ge _ (S n))) by lia. done.
  - rewrite (proj2 (Nat.ltb_ge i (S n))), (proj2 (Nat.ltb_ge i n)), (proj2 (Nat.eqb_neq i n)) by lia. cbn [orb].
    destruct (over i n) eqn:O; [apply over_lt in O; lia|done].
Qed.

Lemma on_path_root n : on_path 0 n = true.
Proof.
  induction n as [n IH] using lt_wf_ind. rewrite on_path_eq. destruct n as [|k]; [done|]. cbn [Nat.eqb orb over]. apply IH. pose proof (div2_le k). lia.
Qed.

(** The descent meets every node once. *)
Lemma inorder_all n : inorder n 0 ≡ₚ seq 0 n.
Proof. induction n as [|n IH]; [done|]. rewrite inorder_step, on_path_root, IH, seq_S. cbn [Nat.add]. by rewrite Permutation_cons_append. Qed.

(** * Sums *)

Fixpoint zsum {A} (f : A -> Z) (l : list A) : Z := match l with [] => 0 | x :: l' => f x + zsum f l' end.

Lemma zsum_app {A} (f : A -> Z) l1 l2 : zsum f (l1 ++ l2) = zsum f l1 + zsum f l2.
Proof. induction l1 as [|x l1 IH]; cbn; [done|]. rewrite IH. lia. Qed.

Lemma zsum_perm {A} (f : A -> Z) l1 l2 : l1 ≡ₚ l2 -> zsum f l1 = zsum f l2.
Proof. induction 1; cbn; lia. Qed.

Lemma zsum_nonneg {A} (f : A -> Z) l : Forall (fun x => 0 <= f x) l -> 0 <= zsum f l.
Proof. induction 1; cbn; lia. Qed.

Lemma zsum_map {A B} (g : A -> B) (f : B -> Z) l : zsum f (map g l) = zsum (fun x => f (g x)) l.
Proof. induction l as [|x l IH]; cbn; [done|]. by rewrite IH. Qed.

Lemma zsum_ext {A} (f g : A -> Z) l : Forall (fun x => f x = g x) l -> zsum f l = zsum g l.
Proof. induction 1; cbn; lia. Qed.

Lemma zsum_seq {A} (f : A -> Z) (l : list A) (d : Z) : zsum (fun i => match l !! i with Some x => f x | None => d end) (seq 0 (length l)) = zsum f l.
Proof.
  induction l as [|x l IH] using rev_ind; [done|]. rewrite length_app. cbn [length]. rewrite Nat.add_1_r, seq_S, !zsum_app. cbn [Nat.add zsum].
  rewrite (lookup_app_r l [x]), Nat.sub_diag by done. cbn [lookup list_lookup]. f_equal. rewrite <- IH. apply zsum_ext, Forall_forall. intros i Hi%elem_of_seq.
  by rewrite lookup_app_l by lia.
Qed.

Definition weight_sum {A} (w : A -> TxWeight) (l : list A) : TxWeight :=
  mkTxWeight (i64 (zsum (fun x => cost (w x)) l)) (i64 (zsum (fun x => evictionWeight (w x)) l)).

Lemma below_sum w c n i : heap w c n -> below w c n i = weight_sum w (inorder n i).
Proof.
  intros Hh. remember (n - i)%nat as k eqn:Hk. revert i Hk. induction k as [k IH] using lt_wf_ind. intros i Hk.
  unfold below. rewrite inorder_eq. destruct (Nat.ltb_spec i n) as [Hi|]; [|done]. rewrite (Hh i Hi).
  rewrite (IH (n - (i * 2 + 1))%nat), (IH (n - (i * 2 + 2))%nat) by lia. unfold weight_sum. rewrite !zsum_app. cbn [zsum]. weights.
Qed.

Lemma zsum_submseteq {A} (f : A -> Z) l1 l2 : (forall x, x ∈ l2 -> 0 <= f x) -> l1 ⊆+ l2 -> zsum f l1 <= zsum f l2.
Proof.
  intros Hf [k Hk]%submseteq_Permutation. rewrite (zsum_perm _ _ _ Hk), zsum_app. enough (0 <= zsum f k) by lia.
  apply zsum_nonneg, Forall_forall. intros x Hx. apply Hf. rewrite Hk. apply elem_of_app. by right.
Qed.

Lemma zsum_le {A} (f g : A -> Z) l : (forall x, x ∈ l -> f x <= g x) -> zsum f l <= zsum g l.
Proof.
  induction l as [|x l IH]; intros Hl; cbn; [done|]. pose proof (Hl x ltac:(by left)).
  enough (zsum f l <= zsum g l) by lia. apply IH. intros y Hy. apply Hl. by right.
Qed.

(** The total of a tree is the sum of its contents. *)
Definition total_of (f : TxWeight -> Z) (t : WeightedTxTree) : Z := zsum (fun p => f p.2) (map_to_list (contents t)).

Lemma total_of_infos f t : tree_ok t -> total_of f t = zsum (fun info => f (txWeight info)) (txIdAndWeights t).
Proof.
  intros Ht. unfold total_of, contents. rewrite (zsum_perm _ _ (map (fun info => (wi_txId info, txWeight info)) (txIdAndWeights t))); [by rewrite zsum_map|].
  apply map_to_list_to_map. rewrite <- list_fmap_compose. by apply tree_ids_NoDup.
Qed.

Lemma total_of_order f t : tree_ok t -> f ZERO_WEIGHT = 0 -> total_of f t = zsum (fun i => f (weight_at t i)) (inorder (wt_size t) 0).
Proof.
  intros Ht Hf. rewrite total_of_infos by done. rewrite (zsum_perm _ _ _ (inorder_all _)). destruct Ht as (<- & _).
  rewrite <- (zsum_seq _ _ 0). apply zsum_ext, Forall_forall. intros i _. unfold weight_at. by destruct (txIdAndWeights t !! i).
Qed.

Lemma getTotalWeight_sum t : tree_ok t -> getTotalWeight t = mkTxWeight (i64 (total_of cost t)) (i64 (total_of evictionWeight t)).
Proof.
  intros Ht. pose proof Ht as (_ & _ & Hh & _). unfold getTotalWeight. rewrite getWeightAt_below, (below_sum _ _ _ _ Hh).
  unfold weight_sum. by rewrite !total_of_order by done.
Qed.

Lemma wt_size_contents t : tree_ok t -> wt_size t = size (contents t).
Proof.
  intros Ht. unfold contents. rewrite map_size_list_to_map; [|rewrite <- list_fmap_compose; by apply tree_ids_NoDup].
  rewrite length_map. by destruct Ht.
Qed.

(** * The draw *)

(** The linear scan: the node in whose share [w] falls. *)
Fixpoint pick (f : nat -> Z) (l : list nat) (w : Z) : option nat :=
  match l with
  | [] => None
  | j :: l' => if w <? f j then Some j else pick f l' (w - f j)
  end.

Lemma pick_app f l1 l2 w :
  Forall (fun j => 0 <= f j) l1 -> 0 <= w -> pick f (l1 ++ l2) w = if w <? zsum f l1 then pick f l1 w else pick f l2 (w - zsum f l1).
Proof.
  intros Hf. revert w. induction Hf as [|j l1 Hj Hf IH]; intros w Hw; cbn.
  - rewrite (proj2 (Z.ltb_ge w 0)) by lia. f_equal. lia.
  - pose proof (zsum_nonneg _ _ Hf). destruct (Z.ltb_spec w (f j)).
    + by rewrite (proj2 (Z.ltb_lt w (f j + zsum f l1))) by lia.
    + rewrite IH by lia. replace (w - f j <? zsum f l1) with (w <? f j + zsum f l1).
      * destruct (w <? f j + zsum f l1); [done|]. f_equal. lia.
      * destruct (Z.ltb_spec w (f j + zsum f l1)), (Z.ltb_spec (w - f j) (zsum f l1)); lia || done.
Qed.

(** The share of a node is an interval as long as its weight. *)
Lemma pick_share f l j :
  Forall (fun j => 0 <= f j) l -> NoDup l -> j ∈ l ->
  exists start, 0 <= start /\ start + f j <= zsum f l /\ forall w, 0 <= w -> pick f l w = Some j <-> start <= w < start + f j.
Proof.
  intros Hf Hnd Hj. induction Hf as [|i l Hi Hf IH]; [by apply not_elem_of_nil in Hj|]. apply NoDup_cons in Hnd as [Hni Hnd].
  pose proof (zsum_nonneg _ _ Hf) as Hs. apply elem_of_cons in Hj as [->|Hj].
  - exists 0. cbn. split_and!; [lia|lia|]. intros w Hw. destruct (Z.ltb_spec w (f i)); [split; [lia|done]|]. split; [|lia].
    intros Hp. exfalso. apply Hni. clear -Hp. revert Hp. generalize (w - f i). induction l as [|k l IH]; intros v; cbn; [done|].
    destruct (v <? f k); [intros [= ->]; by left|]. intros Hp. right. by eapply IH.
  - destruct (IH Hnd Hj) as (start & H1 & H2 & H3). exists (f i + start). cbn. split_and!; [lia|lia|]. intros w Hw.
    destruct (Z.ltb_spec w (f i)) as [Hlt|Hge]; [|rewrite H3 by lia; lia]. split; [|lia]. intros [= ->]. done.
Qed.

Lemma pick_some f l w : 0 <= w < zsum f l -> exists j, pick f l w = Some j /\ j ∈ l.
Proof.
  revert w. induction l as [|i l IH]; intros w Hw; cbn in *; [lia|]. destruct (Z.ltb_spec w (f i)); [exists i; split; [done|by left]|].
  destruct (IH (w - f i)) as (j & ? & ?); [lia|]. exists j. split; [done|by right].
Qed.

(** * The tree against the scan *)

Section draw.
Context (t : WeightedTxTree).
Hypothesis Ht : tree_ok t.
Hypothesis Hpos : map_Forall (fun _ w => 0 <= evictionWeight w) (contents t).
Hypothesis Hmax : total_of evictionWeight t < 2 ^ 31.

Abbreviation share := (fun i => evictionWeight (weight_at t i)).

Lemma share_nonneg i : 0 <= share i.
Proof.
  unfold weight_at. destruct (txIdAndWeights t !! i) as [[id w]|] eqn:E; [|done]. cbn.
  apply (Hpos id w). apply contents_lookup; [done|]. by exists i.
Qed.

Lemma shares_nonneg l : Forall (fun i => 0 <= share i) l.
Proof. apply Forall_forall. intros. apply share_nonneg. Qed.

Lemma subtree_small i : 0 <= zsum share (inorder (wt_size t) i) <= total_of evictionWeight t.
Proof.
  split; [apply zsum_nonneg, shares_nonneg|]. rewrite (total_of_order evictionWeight) by done.
  destruct (Nat.lt_ge_cases i (wt_size t)) as [Hi|Hi].
  2:{ rewrite inorder_eq, (proj2 (Nat.ltb_ge _ _) Hi). cbn. apply zsum_nonneg, shares_nonneg. }
  induction i as [i IH] using lt_wf_ind. destruct i as [|k]; [done|]. pose proof (div2_le k).
  etrans; [|apply (IH (Nat.div2 k)); lia]. rewrite (inorder_eq _ (Nat.div2 k)), (proj2 (Nat.ltb_lt _ _)) by lia. rewrite zsum_app. cbn [zsum].
  assert (Hk : (S k = Nat.div2 k * 2 + 1 \/ S k = Nat.div2 k * 2 + 2)%nat).
  { pose proof (Nat.div2_odd k) as Hk. destruct (Nat.odd k); cbn [Nat.b2n] in Hk; lia. }
  pose proof (share_nonneg (Nat.div2 k)). pose proof (zsum_nonneg share _ (shares_nonneg (inorder (wt_size t) (Nat.div2 k * 2 + 1)))).
  pose proof (zsum_nonneg share _ (shares_nonneg (inorder (wt_size t) (Nat.div2 k * 2 + 2)))).
  destruct Hk as [->| ->]; lia.
Qed.

Lemma getWeightAt_share i : evictionWeight (getWeightAt t i) = zsum share (inorder (wt_size t) i).
Proof.
  destruct Ht as (_ & _ & Hh & _). rewrite getWeightAt_below, (below_sum _ _ _ _ Hh). cbn. apply i64_small.
  pose proof (subtree_small i). unfold in_i64. lia.
Qed.

(** The descent is the linear scan of the subtree. *)
Lemma find_is_pick fuel i w :
  (wt_size t - i < fuel)%nat -> 0 <= w < zsum share (inorder (wt_size t) i) ->
  findByEvictionWeight fuel t i w = pick share (inorder (wt_size t) i) w.
Proof.
  revert i w. induction fuel as [|fuel IH]; intros i w Hf Hw; [lia|]. cbn [findByEvictionWeight]. rewrite !getWeightAt_share.
  pose proof (subtree_small i) as S0. pose proof (subtree_small (i * 2 + 1)) as S1. pose proof (subtree_small (i * 2 + 2)) as S2.
  rewrite (inorder_eq _ i) in Hw, S0 |- *. destruct (Nat.ltb_spec i (wt_size t)) as [Hi|Hi]; [|cbn in Hw; lia].
  rewrite zsum_app in *. cbn [zsum] in *. pose proof (share_nonneg i) as S3. cbn beta in S3.
  rewrite (i32_small (zsum _ (inorder _ (i * 2 + 1)))) by (unfold in_i32; lia).
  rewrite i64_small by (unfold in_i64; lia). rewrite i32_small by (unfold in_i32; lia).
  rewrite pick_app by (apply shares_nonneg || lia). destruct (Z.ltb_spec w (zsum share (inorder (wt_size t) (i * 2 + 1)))) as [Hl|Hl].
  - apply IH; [lia|]. lia.
  - cbn [pick]. replace (w - zsum share (inorder (wt_size t) (i * 2 + 1)) <? share i) with
      (w <? zsum share (inorder (wt_size t) (i * 2 + 1)) + (share i + zsum share (inorder (wt_size t) (i * 2 + 2))) - zsum share (inorder (wt_size t) (i * 2 + 2))).
    2:{ destruct (Z.ltb_spec w (zsum share (inorder (wt_size t) (i * 2 + 1)) + (share i + zsum share (inorder (wt_size t) (i * 2 + 2))) - zsum share (inorder (wt_size t) (i * 2 + 2)))),
          (Z.ltb_spec (w - zsum share (inorder (wt_size t) (i * 2 + 1))) (share i)); lia || done. }
    destruct (Z.ltb_spec w (zsum share (inorder (wt_size t) (i * 2 + 1)) + (share i + zsum share (inorder (wt_size t) (i * 2 + 2))) - zsum share (inorder (wt_size t) (i * 2 + 2)))) as [Hm|Hm]; [done|].
    rewrite i64_small by (unfold in_i64; lia). rewrite IH by lia. f_equal. lia.
Qed.
End draw.

(** * What the tree promises *)

Inductive TreeOp := TreeAdd (info : WeightedTxInfo) | TreeRemove (txId : Z).

Definition tree_step (t : WeightedTxTree) (op : TreeOp) : WeightedTxTree :=
  match op with TreeAdd info => tree_add info t | TreeRemove txId => tree_remove txId t end.

(** The same on a plain map: an addition does not replace. *)
Definition map_step (m : gmap Z TxWeight) (op : TreeOp) : gmap Z TxWeight :=
  match op with
  | TreeAdd info => match m !! wi_txId info with Some _ => m | None => <[wi_txId info := txWeight info]> m end
  | TreeRemove txId => delete txId m
  end.

Lemma tree_step_ok t op : tree_ok t -> tree_ok (tree_step t op) /\ contents (tree_step t op) = map_step (contents t) op.
Proof.
  intros Ht. destruct op as [info|txId]; cbn [tree_step map_step].
  - destruct (tree_add_ok info t Ht) as [H1 ->]. split; [done|]. case_decide as Hd.
    + destruct Hd as [w ->]. done.
    + destruct (contents t !! wi_txId info) eqn:E; [|done]. by destruct Hd.
  - by destruct (tree_remove_ok txId t Ht) as (H1 & -> & _).
Qed.

(** C32. The weighted tree of the memory pool is a map with totals: after any
    sequence of additions and removals it holds what a plain map holds, and the
    weight at its root is the sum of the costs and the eviction weights of what
    it holds (as 64-bit numbers). *)
Theorem weighted_tree_refines (capacity : Z) (ops : list TreeOp) :
  let t := foldl tree_step (new_tree capacity) ops in
  contents t = foldl map_step ∅ ops /\
  getTotalWeight t = mkTxWeight (i64 (zsum (fun p => cost p.2) (map_to_list (foldl map_step ∅ ops))))
                                (i64 (zsum (fun p => evictionWeight p.2) (map_to_list (foldl map_step ∅ ops)))).
Proof.
  cbn zeta. assert (H : tree_ok (foldl tree_step (new_tree capacity) ops) /\ contents (foldl tree_step (new_tree capacity) ops) = foldl map_step ∅ ops).
  { induction ops as [|op ops IH] using rev_ind; [split; [apply new_tree_ok|done]|]. rewrite !foldl_app. cbn [foldl]. destruct IH as [H1 H2].
    rewrite <- H2. by apply tree_step_ok. }
  destruct H as [H1 H2]. split; [done|]. rewrite getTotalWeight_sum by done. unfold total_of. by rewrite H2.
Qed.

(** The draw of a full tree. *)
Lemma maybeDropRandom_picks t rand :
  tree_ok t -> map_Forall (fun _ w => 0 <= evictionWeight w) (contents t) -> total_of evictionWeight t < 2 ^ 31 ->
  wt_capacity t < total_of cost t -> 0 <= total_of cost t < 2 ^ 63 -> 0 <= rand < total_of evictionWeight t ->
  exists i info, pick (fun i => evictionWeight (weight_at t i)) (inorder (wt_size t) 0) rand = Some i /\ txIdAndWeights t !! i = Some info /\
                 maybeDropRandom rand t = Some (Some (wi_txId info), tree_remove (wi_txId info) t).
Proof.
  intros Ht Hpos Hmax Hcap Hcost Hr. pose proof Hr as Hr'. rewrite (total_of_order evictionWeight) in Hr' by done.
  destruct (pick_some _ _ rand Hr') as (i & Hi & Hin). rewrite inorder_all in Hin. apply elem_of_seq in Hin.
  destruct (lookup_lt_is_Some_2 (txIdAndWeights t) i) as [info Hinfo]; [destruct Ht as (-> & _); lia|]. exists i, info. split_and!; [done|done|].
  unfold maybeDropRandom. rewrite getTotalWeight_sum by done. cbn [cost]. rewrite i64_small by (unfold in_i64; lia).
  rewrite (proj2 (Z.leb_gt _ _)) by lia. rewrite i32_small by (unfold in_i32; lia).
  rewrite (find_is_pick t Ht Hpos Hmax) by (lia || done). rewrite Hi. cbn. by rewrite Hinfo.
Qed.

(** C33. What the pool evicts is drawn in proportion to the eviction weights: as
    long as the total fits an [int], the draw of a full pool returns for every
    random number below the total, drops a transaction of the tree, and the
    numbers that drop a given transaction are an interval as long as its
    weight. *)
Theorem eviction_is_weighted (t : WeightedTxTree) :
  tree_ok t -> map_Forall (fun _ w => 0 <= cost w /\ 0 <= evictionWeight w) (contents t) ->
  total_of evictionWeight t < 2 ^ 31 -> wt_capacity t < total_of cost t < 2 ^ 63 ->
  (forall rand, 0 <= rand < total_of evictionWeight t ->
   exists txId, is_Some (contents t !! txId) /\ maybeDropRandom rand t = Some (Some txId, tree_remove txId t)) /\
  (forall txId w, contents t !! txId = Some w ->
   exists start, 0 <= start /\ start + evictionWeight w <= total_of evictionWeight t /\
   forall rand, 0 <= rand < total_of evictionWeight t ->
   maybeDropRandom rand t = Some (Some txId, tree_remove txId t) <-> start <= rand < start + evictionWeight w).
Proof.
  intros Ht Hpos Hmax [Hcap Hbig].
  assert (Hpos' : map_Forall (fun _ w => 0 <= evictionWeight w) (contents t)) by (eapply map_Forall_impl; [exact Hpos|]; by intros ? ? []).
  assert (Hcost : 0 <= total_of cost t).
  { apply zsum_nonneg, Forall_forall. intros [id w] Hin%elem_of_map_to_list. by apply (Hpos id w). }
  pose proof (fun rand => maybeDropRandom_picks t rand Ht Hpos' Hmax Hcap (conj Hcost Hbig)) as Hdrop. split.
  - intros rand Hr. destruct (Hdrop rand Hr) as (i & info & _ & Hi & Hd). exists (wi_txId info). split; [|done].
    exists (txWeight info). apply contents_lookup; [done|]. exists i. by destruct info.
  - intros txId w Hw. apply contents_lookup in Hw as [i Hi]; [|done]. pose proof (lookup_lt_Some _ _ _ Hi) as Hlt.
    destruct (pick_share (fun i => evictionWeight (weight_at t i)) (inorder (wt_size t) 0) i) as (start & S1 & S2 & S3).
    + by apply shares_nonneg.
    + rewrite inorder_all. apply NoDup_seq.
    + rewrite inorder_all. apply elem_of_seq. destruct Ht as (<- & _). lia.
    + assert (Hsh : evictionWeight (weight_at t i) = evictionWeight w) by (unfold weight_at; by rewrite Hi). cbn beta in *. rewrite Hsh in *.
      exists start. split_and!; [done|by rewrite (total_of_order evictionWeight) by done|]. intros rand Hr. rewrite <- S3 by lia.
      destruct (Hdrop rand Hr) as (j & info & Hj & Hinfo & ->). rewrite Hj. split; [|intros [= ->]; by rewrite Hi in Hinfo; injection Hinfo as <-].
      intros [= Hid]. f_equal. destruct Ht as (_ & _ & _ & Hm).
      assert (E1 : txIdToIndexMap t !! txId = Some j) by (apply Hm; rewrite Hinfo; cbn; congruence).
      assert (E2 : txIdToIndexMap t !! txId = Some i) by (apply Hm; by rewrite Hi). congruence.
Qed.

Definition sample_tree : WeightedTxTree :=
  foldl tree_step (new_tree 10000) [TreeAdd (mkWeightedTxInfo 7 (mkTxWeight 4000 20000)); TreeAdd (mkWeightedTxInfo 8 (mkTxWeight 5000 5000));
    TreeAdd (mkWeightedTxInfo 9 (mkTxWeight 4000 4000)); TreeRemove 8; TreeAdd (mkWeightedTxInfo 10 (mkTxWeight 6000 22000))].

Lemma sample_tree_ok : tree_ok sample_tree /\ map_Forall (fun _ w => 0 <= cost w /\ 0 <= evictionWeight w) (contents sample_tree).
Proof.
  split.
  - unfold sample_tree. cbn [foldl]. repeat apply tree_step_ok. apply new_tree_ok.
  - apply (bool_decide_unpack _). by vm_compute.
Qed.

Lemma eviction_is_weighted_witness :
  exists start, 0 <= start /\ start + 4000 <= 46000 /\
  forall rand, 0 <= rand < 46000 -> maybeDropRandom rand sample_tree = Some (Some 9, tree_remove 9 sample_tree) <-> start <= rand < start + 4000.
Proof.
  apply (eviction_is_weighted sample_tree (proj1 sample_tree_ok) (proj2 sample_tree_ok) ltac:(by vm_compute) ltac:(by vm_compute)) with (w := mkTxWeight 4000 4000).
  by vm_compute.
Defined.
