(* ===== verification/Mempool.v ===== *)
(** The memory pool (txmempool.h, txmempool.cpp and the pool's part of main.cpp):
    its indices, acceptance, removal with and without descendants, what it does
    when blocks are connected and disconnected, and eviction.

    A pointer into [mapTx] is the hash it is found under.  Priorities, the fee
    estimator and the address and spent indices are not modelled; expiry and
    finality, which read fields that are not part of the transaction model, and
    the checks before and after the pool's own are parameters. *)

From stdpp Require Import gmap list fin_maps.
From Stdlib Require Import ZArith Lia.
From S2P Require Import Prelude Transaction Platform Coins CoinsBlock MempoolLimit.

Definition MEMPOOL_HEIGHT : Z := 2147483647.
Definition COINBASE_MATURITY : Z := 100.
Definition FLUXNODE_MAX_SIG_TIME : Z := 3600.

(** [CTxMemPoolEntry]. *)
Record CTxMemPoolEntry := mkCTxMemPoolEntry {
  me_tx : CTransaction;
  nFee : Z;
  nTxSize : Z;
  nUsageSize : Z;
  me_nTime : Z;
  me_nHeight : Z;
  hadNoDependencies : bool;
  spendsCoinbase : bool;
  nBranchId : Z;
}.

(** [CInPoint]. *)
Record CInPoint := mkCInPoint { ptx : Z; ip_n : nat }.

#[global] Instance CInPoint_eq_dec : EqDecision CInPoint.
Proof. solve_decision. Defined.

Record CTxMemPool := mkCTxMemPool {
  nTransactionsUpdated : Z;
  totalTxSize : Z;
  cachedInnerUsage : Z;
  mapRecentlyAddedTx : gset Z;
  nRecentlyAddedSequence : Z;
  nNotifiedSequence : Z;
  mapNullifiers : gmap (ShieldedType * Z) Z;
  recentlyEvicted : RecentlyEvictedList;
  weightedTxTree : WeightedTxTree;
  recentlySeenInBlock : RecentlyEvictedList;
  mapTx : gmap Z CTxMemPoolEntry;
  mapNextTx : gmap COutPoint CInPoint;
  mapDeltas : gmap Z Z;
  mapFluxnodeTxMempool : gmap COutPoint Z;
  mapSeenFluxnodeTx : gmap Z Z;
}.

#[global] Instance CTxMemPool_eta : Eta CTxMemPool := fun r =>
  mkCTxMemPool (nTransactionsUpdated r) (totalTxSize r) (cachedInnerUsage r) (mapRecentlyAddedTx r) (nRecentlyAddedSequence r)
    (nNotifiedSequence r) (mapNullifiers r) (recentlyEvicted r) (weightedTxTree r) (recentlySeenInBlock r) (mapTx r) (mapNextTx r)
    (mapDeltas r) (mapFluxnodeTxMempool r) (mapSeenFluxnodeTx r).

Definition empty_evicted (keep : Z) : RecentlyEvictedList := mkRecentlyEvictedList EVICTION_MEMORY_ENTRIES keep [] ∅.

(** The pool at start: an hour of evicted transactions, three of mined ones. *)
Definition new_pool : CTxMemPool :=
  mkCTxMemPool 0 0 0 ∅ 0 0 ∅ (empty_evicted 3600) (new_tree DEFAULT_MEMPOOL_TOTAL_COST_LIMIT) (empty_evicted 10800) ∅ ∅ ∅ ∅ ∅.

Definition is_empty {A} (l : list A) : bool := match l with [] => true | _ :: _ => false end.

(** The outputs of a transaction. *)
Definition outpoints_of (tx : CTransaction) : list COutPoint := imap (fun i _ => mkCOutPoint (GetHash tx) (Z.of_nat i)) (vout tx).
Definition prevouts (tx : CTransaction) : list COutPoint := map prevout (vin tx).

Section pool.
Context `{Commitments} (shielded : CTransaction -> Shielded) (memUsage : CTransaction -> Z).
Implicit Types (p : CTxMemPool) (tx : CTransaction).

(** ** Looking things up *)

Definition exists_tx (h : Z) p : bool := bool_decide (is_Some (mapTx p !! h)).
Definition pool_lookup (h : Z) p : option CTransaction := me_tx <$> mapTx p !! h.
Definition nullifierExists (nf : ShieldedType * Z) p : bool := bool_decide (is_Some (mapNullifiers p !! nf)).
Definition HasNoInputsOf tx p : bool := forallb (fun txin => negb (exists_tx (op_hash (prevout txin)) p)) (vin tx).
Definition queryHashes p : list Z := map (fun e => GetHash (me_tx e.2)) (map_to_list (mapTx p)).

(** [pruneSpent]: the outputs that transactions of the pool spend. *)
Definition pruneSpent (h : Z) (c : CCoins) p : CCoins :=
  foldl (fun c (e : COutPoint * CInPoint) => if op_hash e.1 =? h then (Spend (op_n e.1) c).2 else c) c (map_to_list (mapNextTx p)).

(** ** Adding *)

Definition addUnchecked (entry : CTxMemPoolEntry) p : CTxMemPool :=
  let hash := GetHash (me_tx entry) in
  let p := p <| weightedTxTree ::= tree_add (WeightedTxInfo_from memUsage (me_tx entry) (nFee entry)) |> in
  (* insert keeps an entry that is there *)
  let p := p <| mapTx ::= fun m => match m !! hash with Some _ => m | None => <[hash := entry]> m end |> in
  let tx := match mapTx p !! hash with Some e => me_tx e | None => me_tx entry end in
  p <| mapRecentlyAddedTx ::= fun s => {[hash]} ∪ s |>
    <| nRecentlyAddedSequence ::= fun n => u64 (n + 1) |>
    <| mapNextTx ::= fun m => foldl (fun m '(i, txin) => <[prevout txin := mkCInPoint hash i]> m) m (imap pair (vin tx)) |>
    <| mapNullifiers ::= fun m => foldl (fun m nf => <[nf := hash]> m) m (nullifiers_of shielded tx) |>
    <| nTransactionsUpdated ::= fun n => u32 (n + 1) |>
    <| totalTxSize ::= fun n => u64 (n + nTxSize entry) |>
    <| cachedInnerUsage ::= fun n => u64 (n + nUsageSize entry) |>.

(** ** Removing *)

(** The transactions of the pool that spend an output of [tx]. *)
Definition spenders tx p : list Z := omap (fun out => ptx <$> mapNextTx p !! out) (outpoints_of tx).

(** One transaction of the pool is taken out of every index. *)
Definition remove_one (h : Z) (e : CTxMemPoolEntry) p : CTxMemPool :=
  p <| mapRecentlyAddedTx ::= fun s => s ∖ {[h]} |>
    <| mapNextTx ::= fun m => foldl (fun m out => delete out m) m (prevouts (me_tx e)) |>
    <| mapNullifiers ::= fun m => foldl (fun m nf => delete nf m) m (nullifiers_of shielded (me_tx e)) |>
    <| totalTxSize ::= fun n => u64 (n - nTxSize e) |>
    <| cachedInnerUsage ::= fun n => u64 (n - nUsageSize e) |>
    <| mapTx ::= delete h |>
    <| nTransactionsUpdated ::= fun n => u32 (n + 1) |>.

(** The loop over the queue; [None] is out of fuel. *)
Fixpoint remove_loop (fuel : nat) (fRecursive : bool) (txToRemove : list Z) (p : CTxMemPool) (removed : list CTransaction)
    : option (CTxMemPool * list CTransaction) :=
  match txToRemove with
  | [] => Some (p, removed)
  | h :: rest =>
    match fuel with
    | O => None
    | S fuel =>
      match mapTx p !! h with
      | None => remove_loop fuel fRecursive rest p removed
      | Some e =>
        let rest := if fRecursive then rest ++ spenders (me_tx e) p else rest in
        remove_loop fuel fRecursive rest (remove_one h e p) (removed ++ [me_tx e])
      end
    end
  end.

(** Every transaction of the pool is removed once, and queues at most as many
    as it has outputs. *)
Definition outputs_in p : nat := sum_list_with (fun e : Z * CTxMemPoolEntry => length (vout (me_tx e.2))) (map_to_list (mapTx p)).

(** [remove]: [removed] collects what was removed, after what it held. *)
Definition remove (origTx : CTransaction) (removed : list CTransaction) (fRecursive : bool) p : option (CTxMemPool * list CTransaction) :=
  let h := GetHash origTx in
  let queue := h :: (if fRecursive && negb (exists_tx h p) then spenders origTx p else []) in
  r ← remove_loop (length queue + outputs_in p) fRecursive queue p removed;
  let p := r.1 <| weightedTxTree ::= fun t => foldl (fun t tx => tree_remove (GetHash tx) t) t r.2 |> in
  Some (if IsFluxnodeTx origTx then p <| mapFluxnodeTxMempool ::= delete (collateralIn origTx) |> else p, r.2).

(** Removing a list of transactions, each with its descendants. *)
Fixpoint remove_all (txs : list CTransaction) p : option CTxMemPool :=
  match txs with
  | [] => Some p
  | tx :: txs' => r ← remove tx [] true p; remove_all txs' r.1
  end.

(** The transactions of the pool that satisfy a test. *)
Definition pool_txs (test : CTxMemPoolEntry -> bool) p : list CTransaction :=
  map (fun e => me_tx e.2) (filter (fun e => test e.2 = true) (map_to_list (mapTx p))).

(** [removeForReorg]: immature coinbases and transactions that are no longer
    final; [coins] reads the view.  The loop over the inputs of a transaction
    stops at the first that condemns it; coins that are missing condemn it, or
    fail an assertion ([None]) when the consistency checks are on. *)
Fixpoint immature (nCheckFrequency : Z) (coins : Z -> option CCoins) (nMemPoolHeight : Z) p (ins : list CTxIn) : option bool :=
  match ins with
  | [] => Some false
  | txin :: ins' =>
    if exists_tx (op_hash (prevout txin)) p then immature nCheckFrequency coins nMemPoolHeight p ins'
    else
      match coins (op_hash (prevout txin)) with
      | None => if nCheckFrequency =? 0 then Some true else None
      | Some c =>
        if cc_fCoinBase c && (nMemPoolHeight - cc_nHeight c <? COINBASE_MATURITY) then Some true
        else immature nCheckFrequency coins nMemPoolHeight p ins'
      end
  end.

(** The transactions to remove, in the order of the pool. *)
Definition reorg_victims (nCheckFrequency : Z) (coins : Z -> option CCoins) (nMemPoolHeight : Z) (CheckFinalTx : CTransaction -> bool) p
    : option (list CTransaction) :=
  foldl (fun acc (e : Z * CTxMemPoolEntry) =>
      txs ← acc;
      condemned ← (if negb (CheckFinalTx (me_tx e.2)) then Some true
                   else if spendsCoinbase e.2 then immature nCheckFrequency coins nMemPoolHeight p (vin (me_tx e.2)) else Some false);
      Some (if (condemned : bool) then txs ++ [me_tx e.2] else txs))
    (Some []) (map_to_list (mapTx p)).

Definition removeForReorg (nCheckFrequency : Z) (coins : Z -> option CCoins) (nMemPoolHeight : Z) (CheckFinalTx : CTransaction -> bool) p
    : option CTxMemPool :=
  txs ← reorg_victims nCheckFrequency coins nMemPoolHeight CheckFinalTx p; remove_all txs p.

Definition anchored_in (type : ShieldedType) (rt : Z) tx : bool :=
  match type with
  | SPROUT => existsb (fun js => js_anchor js =? rt) (sh_joinsplits (shielded tx))
  | SAPLING => existsb (fun sd => sd_anchor sd =? rt) (sh_spends (shielded tx))
  end.

Definition removeWithAnchor (invalidRoot : Z) (type : ShieldedType) p : option CTxMemPool :=
  remove_all (pool_txs (fun e => anchored_in type invalidRoot (me_tx e)) p) p.

Definition removeExpired (IsExpiredTx : CTransaction -> Z -> bool) (nBlockHeight : Z) p : option CTxMemPool :=
  remove_all (pool_txs (fun e => IsExpiredTx (me_tx e) nBlockHeight) p) p.

Definition removeWithoutBranchId (nMemPoolBranchId : Z) p : option CTxMemPool :=
  remove_all (pool_txs (fun e => negb (nBranchId e =? nMemPoolBranchId)) p) p.

(** [removeConflicts]: what spends an input or a nullifier of [tx]. *)
Definition remove_conflict (tx : CTransaction) (spender : CTxMemPool -> option Z) (st : CTxMemPool * list CTransaction)
    : option (CTxMemPool * list CTransaction) :=
  match spender st.1 with
  | None => Some st
  | Some h =>
    if h =? GetHash tx then Some st
    else match mapTx st.1 !! h with Some e => remove (me_tx e) st.2 true st.1 | None => None end
  end.

Definition conflict_checks tx : list (CTxMemPool -> option Z) :=
  map (fun out p => ptx <$> mapNextTx p !! out) (prevouts tx) ++ map (fun nf p => mapNullifiers p !! nf) (nullifiers_of shielded tx).

Definition removeConflicts tx (removed : list CTransaction) p : option (CTxMemPool * list CTransaction) :=
  foldl (fun acc spender => st ← acc; remove_conflict tx spender st) (Some (p, removed)) (conflict_checks tx).

Definition ClearPrioritisation (h : Z) p : CTxMemPool := p <| mapDeltas ::= delete h |>.
Definition PrioritiseTransaction (h nFeeDelta : Z) p : CTxMemPool :=
  p <| mapDeltas ::= <[h := i64 (default 0 (mapDeltas p !! h) + nFeeDelta)]> |>.
Definition ApplyDeltas (h nFeeDelta : Z) p : Z := match mapDeltas p !! h with Some d => i64 (nFeeDelta + d) | None => nFeeDelta end.

(** [removeForBlock]: the transactions of the block and what conflicts with
    them; and for every csnode transaction of the block the one the pool holds
    for its collateral. *)
Definition replaced_for tx p : option CTransaction :=
  if IsFluxnodeTx tx then h ← mapFluxnodeTxMempool p !! collateralIn tx; pool_lookup h p else None.

Definition remove_mined (st : CTxMemPool * list CTransaction) tx : option (CTxMemPool * list CTransaction) :=
  r ← remove tx [] false st.1;
  r ← removeConflicts tx st.2 r.1;
  Some (ClearPrioritisation (GetHash tx) r.1, r.2).

Definition remove_replaced p tx : option CTxMemPool :=
  r ← (if exists_tx (GetHash tx) p then remove tx [] false p else Some (p, []));
  r ← removeConflicts tx [] r.1;
  Some (ClearPrioritisation (GetHash tx) r.1).

Definition removeForBlock (vtx : list CTransaction) (conflicts : list CTransaction) p : option (CTxMemPool * list CTransaction) :=
  let trans := omap (fun tx => replaced_for tx p) vtx in
  r ← foldl (fun acc tx => st ← acc; remove_mined st tx) (Some (p, conflicts)) vtx;
  p ← foldl (fun acc tx => p ← acc; remove_replaced p tx) (Some r.1) trans;
  Some (p, r.2).

Definition clear p : CTxMemPool :=
  p <| mapTx := ∅ |> <| mapNextTx := ∅ |> <| totalTxSize := 0 |> <| cachedInnerUsage := 0 |>
    <| nTransactionsUpdated ::= fun n => u32 (n + 1) |> <| mapFluxnodeTxMempool := ∅ |>.

(** ** Eviction *)

Definition IsRecentlyEvicted (now h : Z) p : bool * CTxMemPool :=
  let '(b, l) := evicted_contains now h (recentlyEvicted p) in (b, p <| recentlyEvicted := l |>).
Definition IsRecentlySeenInBlock (now h : Z) p : bool * CTxMemPool :=
  let '(b, l) := evicted_contains now h (recentlySeenInBlock p) in (b, p <| recentlySeenInBlock := l |>).
Definition AddRecentlySeenInBlock (now h : Z) p : CTxMemPool := p <| recentlySeenInBlock ::= evicted_add now h |>.
Definition ClearRecentlySeenInBlock p : CTxMemPool := p <| recentlySeenInBlock := empty_evicted 10800 |>.
Definition SetMempoolCostLimit (totalCostLimit evictionMemorySeconds : Z) p : CTxMemPool :=
  p <| recentlyEvicted := empty_evicted evictionMemorySeconds |> <| weightedTxTree := new_tree totalCostLimit |>.

(** [EnsureSizeLimit]: [rand] gives the number drawn below a bound at each
    round.  [None] is a transaction of the tree that is not in the pool, or out
    of fuel. *)
Fixpoint evict_loop (fuel : nat) (rand : nat -> Z -> Z) (now : Z) p : option CTxMemPool :=
  match fuel with
  | O => None
  | S fuel =>
    match maybeDropRandom (rand fuel (evictionWeight (getTotalWeight (weightedTxTree p)))) (weightedTxTree p) with
    | None => None
    | Some (None, _) => Some p
    | Some (Some h, t) =>
      let p := p <| weightedTxTree := t |> <| recentlyEvicted ::= evicted_add now h |> in
      e ← mapTx p !! h;
      r ← remove (me_tx e) [] true p;
      evict_loop fuel rand now r.1
    end
  end.

Definition EnsureSizeLimit (rand : nat -> Z -> Z) (now : Z) p : option CTxMemPool := evict_loop (S (wt_size (weightedTxTree p))) rand now p.

(** ** The coins the pool adds to a view *)

Definition MemPoolView_GetNullifier (type : ShieldedType) (nf : Z) (base : CCoinsView) p : bool :=
  nullifierExists (type, nf) p || (GetNullifier type nf base).1.

Definition MemPoolView_GetCoins (txid : Z) (base : CCoinsView) p : option CCoins :=
  match pool_lookup txid p with
  | Some tx => Some (CCoins_FromTx tx MEMPOOL_HEIGHT)
  | None => match (GetCoins txid base).1 with Some c => if IsPruned c then None else Some c | None => None end
  end.

Definition MemPoolView_HaveCoins (txid : Z) (base : CCoinsView) p : bool := exists_tx txid p || (HaveCoins txid base).1.

(** ** Acceptance *)

(** The checks that are not the pool's: those before it is looked at (limits,
    [CheckTransaction], standardness, finality), and those on the inputs (csnode
    collateral, locked collateral, shielded requirements, fees, scripts). *)
Context (early_checks : CTransaction -> bool) (input_checks : CTransaction -> CTxMemPool -> bool).
Context (nValueIn_less_out txSize usageSize : CTransaction -> Z).

(** What [CheckTransaction] asks that the pool relies on: no input twice, and
    nothing but its own fields in a csnode transaction. *)
Definition well_formed tx : bool :=
  bool_decide (NoDup (prevouts tx)) &&
  negb (IsFluxnodeTx tx && negb (is_empty (vin tx) && is_empty (vout tx) && is_empty (sh_joinsplits (shielded tx)) &&
    is_empty (sh_spends (shielded tx)) && is_empty (sh_outputs (shielded tx)))).

(** A csnode transaction takes the place of an older one for its collateral.
    The older one is gone from here on, whatever becomes of the new one. *)
Definition replace_fluxnode tx p : option (bool * CTxMemPool) :=
  match mapFluxnodeTxMempool p !! collateralIn tx with
  | None => Some (true, p)
  | Some h =>
    match pool_lookup h p with
    | Some poolTx => if sigTime poolTx <? sigTime tx then r ← remove poolTx [] false p; Some (true, r.1) else Some (false, p)
    | None => Some (true, p <| mapFluxnodeTxMempool ::= delete (collateralIn tx) |> <| mapSeenFluxnodeTx ::= delete h |>)
    end
  end.

Definition signatures_recent (adjusted : Z) tx : bool :=
  negb (FLUXNODE_MAX_SIG_TIME <? i64 (adjusted - sigTime tx)) &&
  negb ((nType tx =? FLUXNODE_CONFIRM_TX_TYPE) && (FLUXNODE_MAX_SIG_TIME <? i64 (adjusted - benchmarkSigTime tx))).

(** No transaction of the pool spends the same output or nullifier. *)
Definition no_conflict tx p : bool :=
  forallb (fun out => negb (bool_decide (is_Some (mapNextTx p !! out)))) (prevouts tx) &&
  forallb (fun nf => negb (nullifierExists nf p)) (nullifiers_of shielded tx).

(** The coins of the inputs through the view of the pool: the transaction is
    new, its inputs exist and are not spent. *)
Definition inputs_available tx base p : bool :=
  let have h := match MemPoolView_GetCoins h base p with Some c => negb (bool_decide (cc_vout c = [])) | None => false end in
  negb (have (GetHash tx)) && forallb (fun txin => have (op_hash (prevout txin))) (vin tx) &&
  forallb (fun txin => match MemPoolView_GetCoins (op_hash (prevout txin)) base p with Some c => IsAvailable c (op_n (prevout txin)) | None => false end) (vin tx).

Definition entry_of (time height branch : Z) tx base p : CTxMemPoolEntry :=
  mkCTxMemPoolEntry tx (nValueIn_less_out tx) (txSize tx) (usageSize tx) time height (HasNoInputsOf tx p)
    (existsb (fun txin => match MemPoolView_GetCoins (op_hash (prevout txin)) base p with Some c => cc_fCoinBase c | None => false end) (vin tx)) branch.

(** Csnode transactions seen more than half an hour ago leave the pool. *)
Definition expire_seen (time : Z) p : option CTxMemPool :=
  foldl (fun acc (item : Z * Z) =>
      p ← acc;
      let p := p <| mapSeenFluxnodeTx ::= delete item.1 |> in
      match pool_lookup item.1 p with Some poolTx => r ← remove poolTx [] false p; Some r.1 | None => Some p end)
    (Some p) (filter (fun item => 1800 < i64 (time - item.2)) (map_to_list (mapSeenFluxnodeTx p))).

Definition add_fluxnode (time : Z) tx p : option CTxMemPool :=
  if IsFluxnodeTx tx then
    expire_seen time (p <| mapFluxnodeTxMempool ::= <[collateralIn tx := GetHash tx]> |> <| mapSeenFluxnodeTx ::= <[GetHash tx := time]> |>)
  else Some p.

(** [AcceptToMemoryPool]: [adjusted] is the network time, [time] the local one. *)
Definition AcceptToMemoryPool (rand : nat -> Z -> Z) (adjusted time height branch : Z) (base : CCoinsView) tx p : option (bool * CTxMemPool) :=
  let '(evicted, p) := IsRecentlyEvicted adjusted (GetHash tx) p in
  if (evicted : bool) then Some (false, p)
  else
    let '(mined, p) := IsRecentlySeenInBlock adjusted (GetHash tx) p in
    if (mined : bool) then Some (false, p)
    else if IsFluxnodeTx tx && bool_decide (is_Some (mapSeenFluxnodeTx p !! GetHash tx)) then Some (false, p)
    else if negb (well_formed tx && early_checks tx) || IsCoinBase tx || exists_tx (GetHash tx) p then Some (false, p)
    else
      r ← (if IsFluxnodeTx tx then replace_fluxnode tx p else Some (true, p));
      let p := r.2 in
      if negb r.1 || (IsFluxnodeTx tx && negb (signatures_recent adjusted tx)) || negb (no_conflict tx p) ||
         negb (inputs_available tx base p && input_checks tx p)
      then Some (false, p)
      else
        p ← add_fluxnode time tx (addUnchecked (entry_of time height branch tx base p) p);
        p ← EnsureSizeLimit rand adjusted p;
        Some (true, p).

(** ** The sanity check

    The assertions of [check] on the pool's own indices.  Its assertions on the
    coins (that every input is available, and that the transactions can be
    applied one after the other) are not modelled here. *)

(** Every input of every transaction is marked in [mapNextTx]. *)
Definition check_inputs_marked p : bool :=
  forallb (fun e : Z * CTxMemPoolEntry =>
    forallb (fun '(i, out) => bool_decide (mapNextTx p !! out = Some (mkCInPoint e.1 i))) (imap pair (prevouts (me_tx e.2)))) (map_to_list (mapTx p)).

(** Every mark is of an input of a transaction of the pool. *)
Definition check_spenders p : bool :=
  forallb (fun e : COutPoint * CInPoint =>
    match mapTx p !! ptx e.2 with Some e' => bool_decide (prevouts (me_tx e') !! ip_n e.2 = Some e.1) | None => false end) (map_to_list (mapNextTx p)).

Definition checkNullifiers (type : ShieldedType) p : bool :=
  forallb (fun e : (ShieldedType * Z) * Z => negb (bool_decide (e.1.1 = type)) || exists_tx e.2 p) (map_to_list (mapNullifiers p)).

Definition check_totals p : bool :=
  (totalTxSize p =? foldr (fun e n => u64 (nTxSize e.2 + n)) 0 (map_to_list (mapTx p))) &&
  (cachedInnerUsage p =? foldr (fun e n => u64 (nUsageSize e.2 + n)) 0 (map_to_list (mapTx p))).

Definition check_indices p : bool :=
  check_inputs_marked p && check_spenders p && checkNullifiers SPROUT p && checkNullifiers SAPLING p && check_totals p.
End pool.
