(* ===== verification/MempoolProps.v ===== *)
(** Properties of the memory pool: its indices stay consistent whatever is
    accepted, mined, disconnected, evicted or removed, every operation returns,
    and what is left in the pool can be spent. *)

From stdpp Require Import gmap list fin_maps.
From Stdlib Require Import ZArith Lia.
From S2P Require Import Prelude Transaction Platform Coins CoinsView CoinsLedger CoinsBlock MempoolLimit Mempool.

(** * Folds *)

Lemma foldl_delete_lookup {K V} `{Countable K} (l : list K) (m : gmap K V) k :
  foldl (fun m k => delete k m) m l !! k = if decide (k ∈ l) then None else m !! k.
Proof.
  revert m. induction l as [|x l IH]; intros m; cbn [foldl]; [by rewrite decide_False by apply not_elem_of_nil|]. rewrite IH.
  destruct (decide (k ∈ l)); [by rewrite decide_True by by right|].
  destruct (decide (k = x)) as [->|Hne]; [by rewrite lookup_delete_eq, decide_True by by left|].
  rewrite lookup_delete_ne by done. rewrite decide_False; [done|]. by intros [?|?]%elem_of_cons.
Qed.

(** The inputs of a transaction entered one by one. *)
Lemma foldl_inputs_lookup (h : Z) (ins : list CTxIn) (m : gmap COutPoint CInPoint) o ip :
  NoDup (map prevout ins) ->
  foldl (fun m '(i, txin) => <[prevout txin := mkCInPoint h i]> m) m (imap pair ins) !! o = Some ip <->
  (exists i, map prevout ins !! i = Some o /\ ip = mkCInPoint h i) \/ (o ∉ map prevout ins /\ m !! o = Some ip).
Proof.
  induction ins as [|x ins IH] using rev_ind; intros Hnd.
  { cbn. split; [intros Hm; right; split; [apply not_elem_of_nil|done]|]. by intros [(i & Hi & _)|[_ ?]]. }
  rewrite map_app in Hnd. apply NoDup_app in Hnd as (Hnd & Hd & _). rewrite imap_app, foldl_app, map_app. cbn [foldl imap map].
  cbn. rewrite Nat.add_0_r. destruct (decide (o = prevout x)) as [->|Hne].
  - rewrite lookup_insert_eq. split.
    + intros [= <-]. left. exists (length ins). split; [|done]. rewrite lookup_app_r, length_map, Nat.sub_diag by (by rewrite length_map). done.
    + intros [(i & Hi & ->)|[Hn _]]; [|by destruct Hn; apply elem_of_app; right; left]. do 2 f_equal.
      apply lookup_app_Some in Hi as [Hi|[Hge Hi]].
      * exfalso. apply (Hd (prevout x)); [by eapply list_elem_of_lookup_2|by left].
      * rewrite length_map in *. destruct (i - length ins)%nat eqn:E; [lia|done].
  - rewrite lookup_insert_ne by done. rewrite IH by done. split.
    + intros [(i & Hi & ->)|[Hn Hm]]; [left; exists i; split; [by apply lookup_app_l_Some|done]|].
      right. split; [|done]. by intros [?|[?|?%not_elem_of_nil]%elem_of_cons]%elem_of_app.
    + intros [(i & Hi & ->)|[Hn Hm]].
      * left. exists i. split; [|done]. apply lookup_app_Some in Hi as [Hi|[Hge Hi]]; [done|].
        destruct (i - length (map prevout ins))%nat; [cbn in Hi; congruence|done].
      * right. split; [|done]. intros Hin. apply Hn, elem_of_app. by left.
Qed.

Lemma length_omap_le {A B} (f : A -> option B) l : (length (omap f l) <= length l)%nat.
Proof. induction l as [|x l IH]; cbn; [done|]. destruct (f x); cbn; lia. Qed.

(** ** Sums over a map *)

Definition msum (f : CTxMemPoolEntry -> Z) (m : gmap Z CTxMemPoolEntry) : Z := zsum (fun e => f e.2) (map_to_list m).

Lemma msum_insert f m h e : m !! h = None -> msum f (<[h := e]> m) = f e + msum f m.
Proof. intros Hh. unfold msum. by rewrite (zsum_perm _ _ _ (map_to_list_insert m h e Hh)). Qed.

Lemma msum_delete f m h e : m !! h = Some e -> msum f m = f e + msum f (delete h m).
Proof. intros Hh. unfold msum. by rewrite <- (zsum_perm _ _ _ (map_to_list_delete m h e Hh)). Qed.

Lemma sum_list_with_perm {A} (f : A -> nat) l1 l2 : l1 ≡ₚ l2 -> sum_list_with f l1 = sum_list_with f l2.
Proof. induction 1; cbn; lia. Qed.

Lemma u64_add_l a b : u64 (u64 a + b) = u64 (a + b).
Proof. apply Zplus_mod_idemp_l. Qed.

Lemma u64_sub_l a b : u64 (u64 a - b) = u64 (a - b).
Proof. apply Zminus_mod_idemp_l. Qed.

Lemma foldr_u64 {A} (f : A -> Z) l : foldr (fun x n => u64 (f x + n)) 0 l = u64 (zsum f l).
Proof. induction l as [|x l IH]; cbn; [done|]. rewrite IH. unfold u64. by rewrite Zplus_mod_idemp_r. Qed.

Section props.
Context `{Commitments} (shielded : CTransaction -> Shielded) (memUsage : CTransaction -> Z).
Implicit Types (p : CTxMemPool) (tx : CTransaction).

Abbreviation nullifiers := (nullifiers_of shielded).
Abbreviation weigh := (fun e => txWeight (WeightedTxInfo_from memUsage (me_tx e) (nFee e))).

(** * The indices *)

Record indices_ok p : Prop := {
  ok_hash : map_Forall (fun h e => GetHash (me_tx e) = h) (mapTx p);
  ok_next : forall o h i, mapNextTx p !! o = Some (mkCInPoint h i) <-> exists e, mapTx p !! h = Some e /\ prevouts (me_tx e) !! i = Some o;
  ok_nullifiers : forall k h, mapNullifiers p !! k = Some h <-> exists e, mapTx p !! h = Some e /\ k ∈ nullifiers (me_tx e);
  ok_size : totalTxSize p = u64 (msum nTxSize (mapTx p));
  ok_usage : cachedInnerUsage p = u64 (msum nUsageSize (mapTx p));
  ok_recent : forall h, h ∈ mapRecentlyAddedTx p -> is_Some (mapTx p !! h);
}.

(** The part of the pool that the indices are not about. *)
Definition aside p := (weightedTxTree p, recentlyEvicted p, recentlySeenInBlock p, mapDeltas p, mapFluxnodeTxMempool p, mapSeenFluxnodeTx p).

Lemma remove_one_ok h e p : mapTx p !! h = Some e -> indices_ok p -> indices_ok (remove_one shielded h e p).
Proof.
  intros He [I1 I2 I3 I4 I5 I6].
  assert (Hdel : forall h' e', delete h (mapTx p) !! h' = Some e' <-> h' <> h /\ mapTx p !! h' = Some e').
  { intros h' e'. rewrite lookup_delete_Some. split; intros [? ?]; split; congruence. }
  split; cbn.
  - intros h' e' [_ He']%Hdel. by apply I1.
  - intros o h' i. rewrite foldl_delete_lookup. setoid_rewrite Hdel. case_decide as Hin.
    + split; [done|]. intros (e' & [Hne He'] & Hi). exfalso. apply list_elem_of_lookup_1 in Hin as [j Hj].
      assert (E1 : mapNextTx p !! o = Some (mkCInPoint h' i)) by (apply I2; by exists e').
      assert (E2 : mapNextTx p !! o = Some (mkCInPoint h j)) by (apply I2; by exists e). congruence.
    + rewrite I2. split; intros (e' & He' & Hi); exists e'.
      * split; [|done]. split; [|done]. intros ->. apply Hin. assert (e' = e) as -> by congruence. by eapply list_elem_of_lookup_2.
      * by destruct He'.
  - intros k h'. rewrite foldl_delete_lookup. setoid_rewrite Hdel. case_decide as Hin.
    + split; [done|]. intros (e' & [Hne He'] & Hi). exfalso.
      assert (E1 : mapNullifiers p !! k = Some h') by (apply I3; by exists e').
      assert (E2 : mapNullifiers p !! k = Some h) by (apply I3; by exists e). congruence.
    + rewrite I3. split; intros (e' & He' & Hi); exists e'.
      * split; [|done]. split; [|done]. intros ->. apply Hin. assert (e' = e) as -> by congruence. done.
      * by destruct He'.
  - rewrite I4, u64_sub_l. f_equal. rewrite (msum_delete nTxSize _ _ _ He). lia.
  - rewrite I5, u64_sub_l. f_equal. rewrite (msum_delete nUsageSize _ _ _ He). lia.
  - intros h' Hh'. apply elem_of_difference in Hh' as [Hin Hne]. destruct (I6 _ Hin) as [e' He']. exists e'. apply Hdel. split; [set_solver|done].
Qed.

Lemma outputs_in_remove h e p :
  mapTx p !! h = Some e -> outputs_in p = (length (vout (me_tx e)) + outputs_in (remove_one shielded h e p))%nat.
Proof. intros He. unfold outputs_in. cbn. by rewrite <- (sum_list_with_perm _ _ _ (map_to_list_delete (mapTx p) h e He)). Qed.

(** * The removal loop *)

Abbreviation without := (foldl (fun m tx => delete (GetHash tx) m)).

Lemma without_lookup (m : gmap Z CTxMemPoolEntry) l h : without m l !! h = if decide (h ∈ map GetHash l) then None else m !! h.
Proof.
  revert m. induction l as [|x l IH]; intros m; cbn [foldl map]; [by rewrite decide_False by apply not_elem_of_nil|]. rewrite IH.
  destruct (decide (h ∈ map GetHash l)); [by rewrite decide_True by by right|].
  destruct (decide (h = GetHash x)) as [->|Hne]; [by rewrite lookup_delete_eq, decide_True by by left|].
  rewrite lookup_delete_ne by done. rewrite decide_False; [done|]. by intros [?|?]%elem_of_cons.
Qed.

Definition in_pool p tx : Prop := exists e, mapTx p !! GetHash tx = Some e /\ me_tx e = tx.

(** No transaction of the pool spends an output of [tx]. *)
Definition childless p tx : Prop := forall h e o, mapTx p !! h = Some e -> o ∈ prevouts (me_tx e) -> o ∉ outpoints_of tx.

Lemma spenders_in p tx h e o :
  indices_ok p -> mapTx p !! h = Some e -> o ∈ prevouts (me_tx e) -> o ∈ outpoints_of tx -> h ∈ spenders tx p.
Proof.
  intros [_ I2 _ _ _ _] He [i Hi]%list_elem_of_lookup_1 Ho. apply list_elem_of_omap. exists o. split; [done|].
  assert (E : mapNextTx p !! o = Some (mkCInPoint h i)) by (apply I2; by exists e). by rewrite E.
Qed.

Lemma remove_loop_spec fuel fRecursive q p removed :
  indices_ok p -> (length q + outputs_in p <= fuel)%nat ->
  exists p' l, remove_loop shielded fuel fRecursive q p removed = Some (p', removed ++ l) /\ indices_ok p' /\ aside p' = aside p /\
    mapTx p' = without (mapTx p) l /\ Forall (in_pool p) l /\ (forall h, h ∈ q -> mapTx p' !! h = None) /\
    (fRecursive = false -> forall tx, tx ∈ l -> GetHash tx ∈ q) /\ (fRecursive = true -> Forall (childless p') l).
Proof.
  revert q p removed. induction fuel as [|fuel IH]; intros [|h q] p removed Hok Hf; try (cbn in Hf; lia).
  1,2: exists p, []; split_and!; try done; [by rewrite app_nil_r|by intros h ?%not_elem_of_nil|by intros _ tx ?%not_elem_of_nil].
  cbn [remove_loop]. destruct (mapTx p !! h) as [e|] eqn:He.
  2:{ destruct (IH q p removed Hok) as (p' & l & E & Hok' & Ha & Hm & Hl & Hq & Hn & Hr); [cbn in Hf; lia|].
      exists p', l. split_and!; try done; [|by intros Hb tx Htx; right; apply Hn].
      intros h' [->|Hin]%elem_of_cons; [|by apply Hq]. rewrite Hm, without_lookup. by case_decide. }
  pose proof (outputs_in_remove h e p He) as Hout. pose proof (ok_hash _ Hok _ _ He) as Hhash.
  assert (Hlen : (length (if fRecursive then q ++ spenders (me_tx e) p else q) <= length q + length (vout (me_tx e)))%nat).
  { destruct fRecursive; [|lia]. rewrite length_app. unfold spenders.
    pose proof (length_omap_le (fun out => ptx <$> mapNextTx p !! out) (outpoints_of (me_tx e))) as Hle. unfold outpoints_of in Hle at 2.
    rewrite length_imap in Hle. lia. }
  destruct (IH (if fRecursive then q ++ spenders (me_tx e) p else q) (remove_one shielded h e p) (removed ++ [me_tx e]))
    as (p' & l & E & Hok' & Ha & Hm & Hl & Hq & Hn & Hr); [by apply remove_one_ok|cbn in Hf; lia|].
  exists p', (me_tx e :: l). split_and!.
  - rewrite E, <- app_assoc. done.
  - done.
  - by rewrite Ha.
  - rewrite Hm. cbn [foldl]. by rewrite Hhash.
  - constructor; [exists e; by rewrite Hhash|]. eapply Forall_impl; [exact Hl|]. intros tx (e' & He' & <-). exists e'. split; [|done].
    cbn in He'. by apply lookup_delete_Some in He' as [_ ?].
  - intros h' [->|Hin]%elem_of_cons.
    + rewrite Hm, without_lookup. case_decide; [done|]. cbn. apply lookup_delete_eq.
    + apply Hq. destruct fRecursive; [apply elem_of_app; by left|done].
  - intros -> tx [->|Hin]%elem_of_cons; [rewrite Hhash; by left|right; by apply Hn].
  - intros ->. constructor; [|by apply Hr]. intros h' e' o He' Ho Hout'.
    assert (Hin : mapTx p !! h' = Some e').
    { rewrite Hm, without_lookup in He'. case_decide; [done|]. cbn in He'. by apply lookup_delete_Some in He' as [_ ?]. }
    pose proof (spenders_in p (me_tx e) h' e' o Hok Hin Ho Hout') as Hs.
    rewrite (Hq h') in He'; [done|]. apply elem_of_app. by right.
Qed.

(** * The tree beside the indices *)

Lemma tree_remove_all_ok t (l : list CTransaction) :
  tree_ok t ->
  let t' := foldl (fun t tx => tree_remove (GetHash tx) t) t l in
  tree_ok t' /\ contents t' = without (contents t) l /\ wt_capacity t' = wt_capacity t.
Proof.
  revert t. induction l as [|x l IH]; intros t Ht; cbn [foldl]; [done|]. destruct (tree_remove_ok (GetHash x) t Ht) as (H1 & H2 & H3 & _).
  destruct (IH _ H1) as (I1 & I2 & I3). rewrite H2 in I2. rewrite H3 in I3. done.
Qed.

Lemma without_contents (m : gmap Z CTxMemPoolEntry) l : weigh <$> without m l = without (weigh <$> m) l.
Proof. revert m. induction l as [|x l IH]; intros m; cbn [foldl]; [done|]. by rewrite IH, fmap_delete. Qed.

(** Taking out what is not there. *)
Lemma without_absent {V} (m : gmap Z V) l : Forall (fun tx => m !! GetHash tx = None) l -> without m l = m.
Proof.
  revert m. induction l as [|x l IH]; intros m Hl; cbn [foldl]; [done|]. apply Forall_cons in Hl as [Hx Hl]. rewrite delete_id by done. by apply IH.
Qed.

Definition pool_ok p : Prop := indices_ok p /\ tree_ok (weightedTxTree p) /\ contents (weightedTxTree p) = weigh <$> mapTx p.

Definition absent p (l : list CTransaction) : Prop := Forall (fun tx => mapTx p !! GetHash tx = None) l.

(** What [remove] does, whatever the tree holds. *)
Lemma remove_spec tx removed fRecursive p :
  indices_ok p -> tree_ok (weightedTxTree p) ->
  exists p' l, remove shielded tx removed fRecursive p = Some (p', removed ++ l) /\ indices_ok p' /\ mapTx p' = without (mapTx p) l /\
    tree_ok (weightedTxTree p') /\ contents (weightedTxTree p') = without (contents (weightedTxTree p)) (removed ++ l) /\
    wt_capacity (weightedTxTree p') = wt_capacity (weightedTxTree p) /\
    Forall (in_pool p) l /\ mapTx p' !! GetHash tx = None /\ (fRecursive = false -> forall x, x ∈ l -> GetHash x = GetHash tx) /\
    (fRecursive = true -> Forall (childless p') l /\ (mapTx p !! GetHash tx = None -> childless p' tx)) /\
    mapFluxnodeTxMempool p' = (if IsFluxnodeTx tx then delete (collateralIn tx) (mapFluxnodeTxMempool p) else mapFluxnodeTxMempool p) /\
    recentlyEvicted p' = recentlyEvicted p.
Proof.
  intros Hok Ht. unfold remove. set (q := GetHash tx :: _).
  destruct (remove_loop_spec (length q + outputs_in p) fRecursive q p removed Hok) as (p1 & l & E & Hok1 & Ha & Hm & Hl & Hq & Hn & Hr); [done|].
  rewrite E. cbn [mbind option_bind fst snd]. injection Ha as A1 A2 A3 A4 A5 A6.
  destruct (tree_remove_all_ok (weightedTxTree p1) (removed ++ l)) as (T1 & T2 & T3); [by rewrite A1|]. cbn zeta in *.
  apply (f_equal contents) in A1 as Ac. apply (f_equal wt_capacity) in A1 as Aw. apply (fun e => eq_trans e (f_equal (fun m => without m _) Ac)) in T2.
  apply (fun e => eq_trans e Aw) in T3.
  set (p2 := p1 <| weightedTxTree ::= _ |>). exists (if IsFluxnodeTx tx then p2 <| mapFluxnodeTxMempool ::= delete (collateralIn tx) |> else p2), l.
  assert (Hq0 : mapTx p1 !! GetHash tx = None) by (apply Hq; by left).
  assert (Hchild : fRecursive = true -> mapTx p !! GetHash tx = None -> childless p1 tx).
  { intros -> Hnone h e o He Ho Hout. assert (Hin : mapTx p !! h = Some e).
    { rewrite Hm, without_lookup in He. by case_decide. }
    rewrite (Hq h) in He; [done|]. unfold q, exists_tx. rewrite Hnone, bool_decide_eq_false_2 by (by intros [? ?]). cbn [andb negb].
    right. by eapply spenders_in. }
  assert (Hindex : indices_ok p2) by (destruct Hok1; by split).
  assert (Hshort : fRecursive = false -> forall x, x ∈ l -> GetHash x = GetHash tx).
  { intros Hb x Hx. specialize (Hn Hb x Hx). subst fRecursive. cbn in Hn. by apply elem_of_cons in Hn as [?|?%not_elem_of_nil]. }
  assert (Hboth : fRecursive = true -> Forall (childless p1) l /\ (mapTx p !! GetHash tx = None -> childless p1 tx)) by (intros Hb; split; auto).
  assert (Hindex' : indices_ok (p2 <| mapFluxnodeTxMempool ::= delete (collateralIn tx) |>)) by (destruct Hindex; by split).
  assert (Hfl : mapFluxnodeTxMempool (p2 <| mapFluxnodeTxMempool ::= delete (collateralIn tx) |>) = delete (collateralIn tx) (mapFluxnodeTxMempool p)).
  { cbn. by rewrite A5. }
  destruct (IsFluxnodeTx tx).
  - exact (conj eq_refl (conj Hindex' (conj Hm (conj T1 (conj T2 (conj T3 (conj Hl (conj Hq0 (conj Hshort (conj Hboth (conj Hfl A2))))))))))).
  - exact (conj eq_refl (conj Hindex (conj Hm (conj T1 (conj T2 (conj T3 (conj Hl (conj Hq0 (conj Hshort (conj Hboth (conj A5 A2))))))))))).
Qed.

(** On a consistent pool. *)
Definition shrunk p p' : Prop := mapTx p' ⊆ mapTx p /\ wt_capacity (weightedTxTree p') = wt_capacity (weightedTxTree p).

#[local] Instance shrunk_preorder : PreOrder shrunk.
Proof. split; [by intros x; split|]. intros x y z [S1 C1] [S2 C2]. split; [by etrans|by rewrite C2]. Qed.

Lemma without_subseteq {V} (m : gmap Z V) l : without m l ⊆ m.
Proof. revert m. induction l as [|x l IH]; intros m; cbn [foldl]; [done|]. etrans; [apply IH|apply delete_subseteq]. Qed.

Lemma remove_ok tx removed fRecursive p :
  pool_ok p -> absent p removed ->
  exists p' l, remove shielded tx removed fRecursive p = Some (p', removed ++ l) /\ pool_ok p' /\ shrunk p p' /\ absent p' (removed ++ l) /\
    mapTx p' = without (mapTx p) l /\ Forall (in_pool p) l /\ mapTx p' !! GetHash tx = None /\
    (fRecursive = false -> forall x, x ∈ l -> GetHash x = GetHash tx) /\
    (fRecursive = true -> Forall (childless p') l /\ (mapTx p !! GetHash tx = None -> childless p' tx)) /\
    mapFluxnodeTxMempool p' = (if IsFluxnodeTx tx then delete (collateralIn tx) (mapFluxnodeTxMempool p) else mapFluxnodeTxMempool p).
Proof.
  intros (Hi & Ht & Hc) Hab. destruct (remove_spec tx removed fRecursive p Hi Ht) as (p' & l & E & H1 & H2 & H3 & H4 & H5 & H6 & H7 & H8 & H9 & H10 & _).
  assert (Hp' : pool_ok p').
  { split; [done|]. split; [done|]. rewrite H4, H2, without_contents, foldl_app, Hc. f_equal. apply without_absent. eapply Forall_impl; [exact Hab|].
    intros x Hx. by rewrite lookup_fmap, Hx. }
  assert (Hsh : shrunk p p') by (split; [rewrite H2; apply without_subseteq|done]).
  assert (Hab' : absent p' (removed ++ l)).
  { apply Forall_app. split.
    - eapply Forall_impl; [exact Hab|]. intros x Hx. cbn. rewrite H2, without_lookup. by case_decide.
    - apply Forall_forall. intros x Hx. rewrite H2, without_lookup, decide_True; [done|]. apply list_elem_of_In, in_map, list_elem_of_In. done. }
  exists p', l. exact (conj E (conj Hp' (conj Hsh (conj Hab' (conj H2 (conj H6 (conj H7 (conj H8 (conj H9 H10))))))))).
Qed.

Lemma absent_nil p : absent p [].
Proof. constructor. Qed.

(** Transactions whose parents are all there: in the pool, or available. *)
Definition supported (avail : COutPoint -> Prop) p : Prop :=
  forall h e o, mapTx p !! h = Some e -> o ∈ prevouts (me_tx e) -> avail o \/ exists e', mapTx p !! op_hash o = Some e' /\ o ∈ outpoints_of (me_tx e').

Lemma outpoints_hash tx o : o ∈ outpoints_of tx -> op_hash o = GetHash tx.
Proof. intros [i Hi]%list_elem_of_lookup_1. unfold outpoints_of in Hi. rewrite list_lookup_imap in Hi. destruct (vout tx !! i); [|done]. by injection Hi as <-. Qed.

(** A removal with descendants leaves no orphan. *)
Lemma remove_supported avail tx removed p p' r :
  indices_ok p -> tree_ok (weightedTxTree p) -> remove shielded tx removed true p = Some (p', r) -> supported avail p -> supported avail p'.
Proof.
  intros Hp Ht E Hs. destruct (remove_spec tx removed true p Hp Ht) as (p1 & l & E1 & _ & Hm & _ & _ & _ & Hin & _ & _ & Hch & _).
  rewrite E1 in E. injection E as -> <-. destruct (Hch eq_refl) as [Hc _]. intros h e o He Ho.
  assert (Hold : mapTx p !! h = Some e) by (rewrite Hm, without_lookup in He; by case_decide).
  destruct (Hs h e o Hold Ho) as [?|(e' & He' & Ho')]; [by left|]. right. exists e'. split; [|done].
  rewrite Hm, without_lookup. case_decide as Hd; [|done]. exfalso. apply list_elem_of_fmap in Hd as (x & Hx & Hxl).
  rewrite Forall_forall in Hc, Hin. destruct (Hin x Hxl) as (e'' & He'' & Hxe). rewrite <- Hx in He''. assert (e'' = e') as -> by congruence. subst x.
  by apply (Hc _ Hxl h e o He Ho).
Qed.

Lemma remove_all_ok avail txs p :
  pool_ok p -> exists p', remove_all shielded txs p = Some p' /\ pool_ok p' /\ shrunk p p' /\ (supported avail p -> supported avail p') /\
    (forall tx, tx ∈ txs -> mapTx p' !! GetHash tx = None).
Proof.
  revert p. induction txs as [|tx txs IH]; intros p Hp; cbn [remove_all]; [exists p; refine (conj eq_refl (conj Hp (conj _ (conj _ _)))); [done|done|by intros tx ?%not_elem_of_nil]|].
  destruct (remove_ok tx [] true p Hp (absent_nil p)) as (p1 & l & E & Hp1 & Hs1 & _ & _ & _ & Hgone & _). rewrite E. cbn [mbind option_bind fst].
  destruct (IH p1 Hp1) as (p2 & E2 & Hp2 & Hs2 & Hsup & Hg2). exists p2. refine (conj E2 (conj Hp2 (conj _ (conj _ _)))); [by etrans| |].
  - intros Hs. apply Hsup. exact (remove_supported avail tx [] p p1 _ (proj1 Hp) (proj1 (proj2 Hp)) E Hs).
  - intros x [->|Hx]%elem_of_cons; [|by apply Hg2]. destruct Hs2 as [Hs2 _]. destruct (mapTx p2 !! GetHash tx) as [e|] eqn:E3; [|done].
    by rewrite (lookup_weaken _ _ _ _ E3 Hs2) in Hgone.
Qed.

(** * Conflicts *)

(** A lookup that finds the transaction with a property. *)
Definition finds (spender : CTxMemPool -> option Z) (C : CTransaction -> Prop) : Prop :=
  forall p, indices_ok p ->
  (forall h, spender p = Some h -> is_Some (mapTx p !! h)) /\ (forall h e, mapTx p !! h = Some e -> C (me_tx e) -> spender p = Some h).

Lemma finds_input o : finds (fun p => ptx <$> mapNextTx p !! o) (fun tx => o ∈ prevouts tx).
Proof.
  intros p Hp. split.
  - intros h Hh. destruct (mapNextTx p !! o) as [[h' i]|] eqn:E; [|done]. injection Hh as <-. apply (ok_next _ Hp) in E as (e & He & _). by exists e.
  - intros h e He [i Hi]%list_elem_of_lookup_1. assert (E : mapNextTx p !! o = Some (mkCInPoint h i)) by (apply (ok_next _ Hp); by exists e). by rewrite E.
Qed.

Lemma finds_nullifier k : finds (fun p => mapNullifiers p !! k) (fun tx => k ∈ nullifiers tx).
Proof.
  intros p Hp. split.
  - intros h Hh. apply (ok_nullifiers _ Hp) in Hh as (e & He & _). by exists e.
  - intros h e He Hk. apply (ok_nullifiers _ Hp). by exists e.
Qed.

Definition clear_of (C : CTransaction -> Prop) (h0 : Z) p : Prop := forall h e, mapTx p !! h = Some e -> h <> h0 -> ~ C (me_tx e).

Lemma clear_of_shrunk C h0 p p' : shrunk p p' -> clear_of C h0 p -> clear_of C h0 p'.
Proof. intros [Hs _] Hc h e He. apply Hc. by eapply lookup_weaken. Qed.

(** What the steps of a removal keep. *)
Definition removal_step avail (st st' : CTxMemPool * list CTransaction) : Prop :=
  pool_ok st'.1 /\ absent st'.1 st'.2 /\ shrunk st.1 st'.1 /\ (supported avail st.1 -> supported avail st'.1).

Lemma remove_conflict_ok avail tx spender C st :
  finds spender C -> pool_ok st.1 -> absent st.1 st.2 ->
  exists st', remove_conflict shielded tx spender st = Some st' /\ removal_step avail st st' /\ clear_of C (GetHash tx) st'.1.
Proof.
  intros Hf Hp Hab. destruct (Hf st.1 (proj1 Hp)) as [F1 F2]. unfold remove_conflict. destruct (spender st.1) as [h|] eqn:E.
  - destruct (Z.eqb_spec h (GetHash tx)) as [->|Hne].
    + exists st. split; [done|]. split; [done|]. intros h e He Hh HC. specialize (F2 h e He HC). congruence.
    + destruct (F1 h eq_refl) as [e He]. rewrite He.
      destruct (remove_ok (me_tx e) st.2 true st.1 Hp Hab) as (p' & l & E' & Hp' & Hs & Hab' & _ & _ & Hgone & _). rewrite E'.
      exists (p', st.2 ++ l). split; [done|]. split.
      * refine (conj Hp' (conj Hab' (conj Hs _))). exact (remove_supported avail (me_tx e) st.2 st.1 p' _ (proj1 Hp) (proj1 (proj2 Hp)) E').
      * intros h' e' He' _ HC. cbn [fst] in *. destruct Hs as [Hs _]. specialize (F2 h' e' (lookup_weaken _ _ _ _ He' Hs) HC).
        assert (h' = h) as -> by congruence. rewrite (ok_hash _ (proj1 Hp) _ _ He) in Hgone. congruence.
  - exists st. split; [done|]. split; [done|]. intros h e He _ HC. specialize (F2 h e He HC). congruence.
Qed.

Lemma conflicts_loop_ok avail tx checks st :
  pool_ok st.1 -> absent st.1 st.2 -> Forall (fun c => finds c.1 c.2) checks ->
  exists st', foldl (fun acc spender => st ← acc; remove_conflict shielded tx spender st) (Some st) (map fst checks) = Some st' /\
    removal_step avail st st' /\ Forall (fun c => clear_of c.2 (GetHash tx) st'.1) checks.
Proof.
  intros Hp Hab Hc. revert st Hp Hab. induction Hc as [|[sp C] checks Hf Hc IH]; intros st Hp Hab; cbn [map foldl]; [by exists st|].
  destruct (remove_conflict_ok avail tx sp C st Hf Hp Hab) as (st1 & E1 & (P1 & A1 & S1 & U1) & C1). cbn [mbind option_bind fst]. rewrite E1.
  destruct (IH st1 P1 A1) as (st2 & E2 & (P2 & A2 & S2 & U2) & C2). exists st2. split; [done|]. split.
  - refine (conj P2 (conj A2 (conj _ _))); [by etrans|auto].
  - constructor; [|done]. by eapply clear_of_shrunk.
Qed.

Definition conflicts_with tx (tx' : CTransaction) : Prop :=
  (exists o, o ∈ prevouts tx /\ o ∈ prevouts tx') \/ (exists k, k ∈ nullifiers tx /\ k ∈ nullifiers tx').

Lemma removeConflicts_ok avail tx removed p :
  pool_ok p -> absent p removed ->
  exists p' r, removeConflicts shielded tx removed p = Some (p', r) /\ removal_step avail (p, removed) (p', r) /\
    clear_of (conflicts_with tx) (GetHash tx) p'.
Proof.
  intros Hp Hab.
  set (checks := map (fun o => (fun p => ptx <$> mapNextTx p !! o, fun tx => o ∈ prevouts tx)) (prevouts tx) ++
                 map (fun k => (fun p => mapNullifiers p !! k, fun tx => k ∈ nullifiers tx)) (nullifiers tx)).
  assert (Hmap : conflict_checks shielded tx = map fst checks).
  { unfold conflict_checks, checks. by rewrite map_app, !map_map. }
  destruct (conflicts_loop_ok avail tx checks (p, removed) Hp Hab) as ([p' r] & E & Hst & Hc).
  { apply Forall_app. split; apply Forall_map, Forall_forall; intros x _; [apply finds_input|apply finds_nullifier]. }
  exists p', r. unfold removeConflicts. rewrite Hmap. split; [done|]. split; [done|]. intros h e He Hh [(o & Ho & Ho')|(k & Hk & Hk')].
  - rewrite Forall_forall in Hc. refine (Hc (fun p => ptx <$> mapNextTx p !! o, fun tx => o ∈ prevouts tx) _ h e He Hh Ho').
    apply elem_of_app. left. apply list_elem_of_fmap. by exists o.
  - rewrite Forall_forall in Hc. refine (Hc (fun p => mapNullifiers p !! k, fun tx => k ∈ nullifiers tx) _ h e He Hh Hk').
    apply elem_of_app. right. apply list_elem_of_fmap. by exists k.
Qed.

(** * Blocks *)

(** The outputs available once a transaction is mined. *)
Definition mined (avail : COutPoint -> Prop) tx : COutPoint -> Prop := fun o => (avail o /\ o ∉ prevouts tx) \/ o ∈ outpoints_of tx.

(** No other transaction has the hash of this one. *)
Definition known p tx : Prop := forall e, mapTx p !! GetHash tx = Some e -> me_tx e = tx.

Lemma known_shrunk p p' tx : shrunk p p' -> known p tx -> known p' tx.
Proof. intros [Hs _] Hk e He. apply Hk. by eapply lookup_weaken. Qed.

Definition gone tx p : Prop := mapTx p !! GetHash tx = None /\ clear_of (conflicts_with tx) (GetHash tx) p.

Lemma gone_shrunk tx p p' : shrunk p p' -> gone tx p -> gone tx p'.
Proof.
  intros Hs [G1 G2]. split; [|by eapply clear_of_shrunk]. destruct Hs as [Hs _]. destruct (mapTx p' !! GetHash tx) eqn:E; [|done].
  by rewrite (lookup_weaken _ _ _ _ E Hs) in G1.
Qed.

Lemma remove_mined_ok avail st tx :
  pool_ok st.1 -> absent st.1 st.2 ->
  exists st', remove_mined shielded st tx = Some st' /\ pool_ok st'.1 /\ absent st'.1 st'.2 /\ shrunk st.1 st'.1 /\ gone tx st'.1 /\
    (known st.1 tx -> supported avail st.1 -> supported (mined avail tx) st'.1).
Proof.
  intros Hp Hab. unfold remove_mined.
  destruct (remove_ok tx [] false st.1 Hp (absent_nil _)) as (p1 & l & E1 & Hp1 & Hs1 & _ & Hm1 & Hl1 & Hg1 & Hn1 & _). rewrite E1. cbn [mbind option_bind fst].
  assert (Hab1 : absent p1 st.2).
  { eapply Forall_impl; [exact Hab|]. intros x Hx. cbn. rewrite Hm1, without_lookup. by case_decide. }
  destruct (removeConflicts_ok (fun o => avail o \/ o ∈ outpoints_of tx) tx st.2 p1 Hp1 Hab1) as (p2 & r & E2 & (Hp2 & Hab2 & Hs2 & Hu2) & Hc2).
  cbn [fst snd] in *. rewrite E2. cbn [mbind option_bind fst snd]. exists (ClearPrioritisation (GetHash tx) p2, r).
  assert (Hg2 : mapTx p2 !! GetHash tx = None).
  { destruct (mapTx p2 !! GetHash tx) as [e|] eqn:E; [|done]. destruct Hs2 as [Hs2 _]. by rewrite (lookup_weaken _ _ _ _ E Hs2) in Hg1. }
  refine (conj eq_refl (conj _ (conj Hab2 (conj _ (conj (conj Hg2 Hc2) _))))).
  - destruct Hp2 as (I2 & T2 & C2). split; [destruct I2; by split|done].
  - etrans; [exact Hs1|]. exact Hs2.
  - intros Hk Hsup. assert (Hsup1 : supported (fun o => avail o \/ o ∈ outpoints_of tx) p1).
    { intros h e o He Ho. assert (Hold : mapTx st.1 !! h = Some e) by (rewrite Hm1, without_lookup in He; by case_decide).
      destruct (Hsup h e o Hold Ho) as [?|(e' & He' & Ho')]; [left; by left|].
      destruct (decide (op_hash o ∈ map GetHash l)) as [Hd|Hd].
      - left. right. apply list_elem_of_fmap in Hd as (x & Hx & Hxl). rewrite (Hn1 eq_refl x Hxl) in Hx. rewrite Hx in He'. by rewrite <- (Hk _ He').
      - right. exists e'. split; [|done]. rewrite Hm1, without_lookup. by rewrite decide_False. }
    specialize (Hu2 Hsup1). intros h e o He Ho. cbn [fst] in He.
    change (mapTx (ClearPrioritisation (GetHash tx) p2)) with (mapTx p2) in *.
    assert (Hne : h <> GetHash tx) by congruence.
    assert (Hno : o ∉ prevouts tx) by (intros Hin; apply (Hc2 h e He Hne); left; by exists o).
    destruct (Hu2 h e o He Ho) as [[?|?]|?]; [by left; left|by left; right|by right].
Qed.

Definition avail_after (avail : COutPoint -> Prop) (vtx : list CTransaction) : COutPoint -> Prop := foldl mined avail vtx.

Lemma mined_loop_ok avail vtx st :
  pool_ok st.1 -> absent st.1 st.2 ->
  exists st', foldl (fun acc tx => st ← acc; remove_mined shielded st tx) (Some st) vtx = Some st' /\ pool_ok st'.1 /\ absent st'.1 st'.2 /\
    shrunk st.1 st'.1 /\ Forall (fun tx => gone tx st'.1) vtx /\
    (Forall (known st.1) vtx -> supported avail st.1 -> supported (avail_after avail vtx) st'.1).
Proof.
  revert avail st. induction vtx as [|tx vtx IH]; intros avail st Hp Hab; cbn [foldl avail_after].
  { exists st. refine (conj eq_refl (conj Hp (conj Hab (conj _ (conj _ _))))); [done|constructor|done]. }
  destruct (remove_mined_ok avail st tx Hp Hab) as (st1 & E1 & Hp1 & Hab1 & Hs1 & Hg1 & Hu1).
  cbn [mbind option_bind]. rewrite E1. destruct (IH (mined avail tx) st1 Hp1 Hab1) as (st2 & E2 & Hp2 & Hab2 & Hs2 & Hg2 & Hu2).
  exists st2. refine (conj E2 (conj Hp2 (conj Hab2 (conj _ (conj _ _))))); [by etrans|constructor; [by eapply gone_shrunk|done]|].
  intros [Hk Hks]%Forall_cons Hsup. apply Hu2; [|by apply Hu1]. eapply Forall_impl; [exact Hks|]. intros x. by apply known_shrunk.
Qed.

(** A transaction without outputs can go without its descendants. *)
Lemma remove_replaced_ok avail p tx :
  pool_ok p ->
  exists p', remove_replaced shielded p tx = Some p' /\ pool_ok p' /\ shrunk p p' /\
    ((forall e, mapTx p !! GetHash tx = Some e -> vout (me_tx e) = []) -> supported avail p -> supported avail p').
Proof.
  intros Hp. unfold remove_replaced.
  assert (H1 : exists p1 l, (if exists_tx (GetHash tx) p then remove shielded tx [] false p else Some (p, [])) = Some (p1, l) /\ pool_ok p1 /\ shrunk p p1 /\
                            ((forall e, mapTx p !! GetHash tx = Some e -> vout (me_tx e) = []) -> supported avail p -> supported avail p1)).
  { unfold exists_tx. case_bool_decide as Hx; [|exists p, []; refine (conj eq_refl (conj Hp (conj _ _))); done].
    destruct (remove_ok tx [] false p Hp (absent_nil _)) as (p1 & l & E1 & Hp1 & Hs1 & _ & Hm1 & Hl1 & Hg1 & Hn1 & _). exists p1, ([] ++ l).
    refine (conj E1 (conj Hp1 (conj Hs1 _))). intros Hv Hsup h e o He Ho.
    assert (Hold : mapTx p !! h = Some e) by (rewrite Hm1, without_lookup in He; by case_decide).
    destruct (Hsup h e o Hold Ho) as [?|(e' & He' & Ho')]; [by left|]. right. exists e'. split; [|done].
    rewrite Hm1, without_lookup. case_decide as Hd; [|done]. exfalso. apply list_elem_of_fmap in Hd as (x & Hx' & Hxl).
    rewrite (Hn1 eq_refl x Hxl) in Hx'. rewrite Hx' in He'. unfold outpoints_of in Ho'. rewrite (Hv _ He') in Ho'. by apply not_elem_of_nil in Ho'. }
  destruct H1 as (p1 & l & -> & Hp1 & Hs1 & Hu1). cbn [mbind option_bind fst].
  destruct (removeConflicts_ok avail tx [] p1 Hp1 (absent_nil _)) as (p2 & r & -> & (Hp2 & _ & Hs2 & Hu2) & _). cbn [mbind option_bind fst snd] in *.
  exists (ClearPrioritisation (GetHash tx) p2). refine (conj eq_refl (conj _ (conj _ _))).
  - destruct Hp2 as (I2 & T2 & C2). split; [destruct I2; by split|done].
  - etrans; [exact Hs1|exact Hs2].
  - intros Hv Hsup. exact (Hu2 (Hu1 Hv Hsup)).
Qed.

Lemma replaced_loop_ok avail trans p :
  pool_ok p ->
  exists p', foldl (fun acc tx => p ← acc; remove_replaced shielded p tx) (Some p) trans = Some p' /\ pool_ok p' /\ shrunk p p' /\
    (Forall (fun tx => forall e, mapTx p !! GetHash tx = Some e -> vout (me_tx e) = []) trans -> supported avail p -> supported avail p').
Proof.
  revert p. induction trans as [|tx trans IH]; intros p Hp; cbn [foldl]; [exists p; refine (conj eq_refl (conj Hp (conj _ _))); done|].
  destruct (remove_replaced_ok avail p tx Hp) as (p1 & E1 & Hp1 & Hs1 & Hu1). cbn [mbind option_bind]. rewrite E1.
  destruct (IH p1 Hp1) as (p2 & E2 & Hp2 & Hs2 & Hu2).
  exists p2. refine (conj E2 (conj Hp2 (conj _ _))); [by etrans|]. intros [Hv Hvs]%Forall_cons Hsup. apply Hu2; [|by apply Hu1].
  eapply Forall_impl; [exact Hvs|]. intros x Hx e He. apply Hx. by eapply lookup_weaken; [|apply Hs1].
Qed.

Definition tracked_empty p : Prop := forall c h e, mapFluxnodeTxMempool p !! c = Some h -> mapTx p !! h = Some e -> vout (me_tx e) = [].

Lemma removeForBlock_ok avail vtx p :
  pool_ok p ->
  exists p' r, removeForBlock shielded vtx [] p = Some (p', r) /\ pool_ok p' /\ shrunk p p' /\ Forall (fun tx => gone tx p') vtx /\
    (Forall (known p) vtx -> tracked_empty p -> supported avail p -> supported (avail_after avail vtx) p').
Proof.
  intros Hp. unfold removeForBlock.
  destruct (mined_loop_ok avail vtx (p, []) Hp (absent_nil _)) as ([p1 r] & E1 & Hp1 & _ & Hs1 & Hg1 & Hu1). cbn [fst snd] in *. rewrite E1. cbn [mbind option_bind fst snd].
  destruct (replaced_loop_ok (avail_after avail vtx) (omap (fun tx => replaced_for tx p) vtx) p1 Hp1) as (p2 & E2 & Hp2 & Hs2 & Hu2).
  rewrite E2. cbn. exists p2, r. refine (conj eq_refl (conj Hp2 (conj _ (conj _ _)))); [by etrans| |].
  { eapply Forall_impl; [exact Hg1|]. intros x. by apply gone_shrunk. }
  intros Hk Ht Hsup. apply Hu2; [|by apply Hu1]. apply Forall_forall. intros x (tx & _ & Hx)%list_elem_of_omap e He. unfold replaced_for in Hx.
  destruct (IsFluxnodeTx tx); [|done].
  destruct (mapFluxnodeTxMempool p !! collateralIn tx) as [h|] eqn:E; [|done]. cbn in Hx. unfold pool_lookup in Hx.
  destruct (mapTx p !! h) as [e0|] eqn:E0; [|done]. injection Hx as <-. rewrite (ok_hash _ (proj1 Hp) _ _ E0) in He.
  destruct Hs1 as [Hs1 _]. pose proof (lookup_weaken _ _ _ _ He Hs1). assert (e = e0) as -> by congruence. by eapply Ht.
Qed.

(** * Adding *)

Lemma addUnchecked_ok e p :
  let tx := me_tx e in
  pool_ok p -> mapTx p !! GetHash tx = None -> NoDup (prevouts tx) -> (forall o, o ∈ prevouts tx -> mapNextTx p !! o = None) ->
  (forall k, k ∈ nullifiers tx -> mapNullifiers p !! k = None) ->
  pool_ok (addUnchecked shielded memUsage e p) /\ mapTx (addUnchecked shielded memUsage e p) = <[GetHash tx := e]> (mapTx p) /\
  wt_capacity (weightedTxTree (addUnchecked shielded memUsage e p)) = wt_capacity (weightedTxTree p).
Proof.
  cbn zeta. intros ([I1 I2 I3 I4 I5 I6] & Ht & Hc) Hnew Hnd Hin Hnf. set (h := GetHash (me_tx e)) in *.
  assert (Hm : mapTx (addUnchecked shielded memUsage e p) = <[h := e]> (mapTx p)) by (cbn; fold h; by rewrite Hnew).
  assert (Htx : match (match mapTx p !! h with Some _ => mapTx p | None => <[h := e]> (mapTx p) end) !! h with Some e' => me_tx e' | None => me_tx e end = me_tx e).
  { by rewrite Hnew, lookup_insert_eq. }
  assert (Hins : forall h' e', <[h := e]> (mapTx p) !! h' = Some e' <-> (h' = h /\ e' = e) \/ (h' <> h /\ mapTx p !! h' = Some e')).
  { intros h' e'. rewrite lookup_insert_Some. split; intros [[? ?]|[? ?]]; auto. }
  destruct (tree_add_ok (WeightedTxInfo_from memUsage (me_tx e) (nFee e)) (weightedTxTree p) Ht) as [T1 T2].
  split; [|split; [done|]].
  - split; [|split; [exact T1|]].
    + split; rewrite ?Hm.
      * intros h' e' [[-> ->]|[_ He']]%Hins; [done|by apply I1].
      * intros o h' i. cbn. fold h. rewrite Htx, foldl_inputs_lookup by done. setoid_rewrite Hins. split.
        -- intros [(j & Hj & [= -> ->])|[Hno Ho]]; [exists e; by split; [left|]|]. apply I2 in Ho as (e' & He' & Hi). exists e'. split; [|done].
           right. split; [|done]. intros ->. congruence.
        -- intros (e' & [[-> ->]|[Hne He']] & Hi); [left; by exists i|]. assert (Ho : mapNextTx p !! o = Some (mkCInPoint h' i)) by (apply I2; by exists e').
           right. split; [|done]. intros Hin'. by rewrite Hin in Ho.
      * intros k h'. cbn. fold h. rewrite Htx, foldl_insert_lookup. setoid_rewrite Hins. case_bool_decide as Hk.
        -- split; [intros [= <-]; exists e; split; [by left|done]|]. intros (e' & [[-> ->]|[Hne He']] & Hi); [done|].
           assert (Ho : mapNullifiers p !! k = Some h') by (apply I3; by exists e'). by rewrite Hnf in Ho.
        -- rewrite I3. split; intros (e' & He' & Hi); exists e'.
           ++ split; [|done]. right. split; [|done]. intros ->. congruence.
           ++ destruct He' as [[-> ->]|[_ He']]; [done|by split].
      * cbn. rewrite I4, u64_add_l. f_equal. rewrite msum_insert by done. lia.
      * cbn. rewrite I5, u64_add_l. f_equal. rewrite msum_insert by done. lia.
      * intros h' Hh'. cbn in Hh'. fold h in Hh'. apply elem_of_union in Hh' as [->%elem_of_singleton|Hh']; [rewrite lookup_insert_eq; by eexists|].
        destruct (I6 _ Hh') as [e' He']. destruct (decide (h' = h)) as [->|]; [rewrite lookup_insert_eq; by eexists|]. rewrite lookup_insert_ne by done. by eexists.
    + rewrite Hm, fmap_insert. etrans; [exact T2|]. rewrite decide_False; [by rewrite Hc|]. cbn. fold h. rewrite Hc, lookup_fmap, Hnew. by intros [? ?].
  - cbn. unfold tree_add. by destruct (txIdToIndexMap _ !! _).
Qed.

(** * Eviction *)

Section eviction.
Hypothesis Husage : forall tx, 0 <= memUsage tx <= 10 ^ 9.

Lemma weigh_bounds e : 0 < cost (weigh e) <= evictionWeight (weigh e) /\ evictionWeight (weigh e) <= 5 * cost (weigh e) /\ cost (weigh e) <= 10 ^ 9.
Proof.
  cbn. pose proof (Husage (me_tx e)). rewrite (i64_small (memUsage (me_tx e))) by (unfold in_i64; lia). unfold MIN_TX_COST, LOW_FEE_PENALTY.
  rewrite i64_small by (unfold in_i64; lia). destruct (nFee e <? DEFAULT_FEE); lia.
Qed.

Definition pool_total (f : TxWeight -> Z) p : Z := total_of f (weightedTxTree p).

Lemma pool_weights p : pool_ok p -> forall x, x ∈ map_to_list (contents (weightedTxTree p)) ->
  0 < cost x.2 <= evictionWeight x.2 /\ evictionWeight x.2 <= 5 * cost x.2.
Proof.
  intros (_ & _ & Hc) [h w] Hx%elem_of_map_to_list. rewrite Hc, lookup_fmap in Hx. destruct (mapTx p !! h) as [e|]; [|done]. injection Hx as <-.
  destruct (weigh_bounds e) as (W1 & W2 & _). exact (conj W1 W2).
Qed.

Lemma pool_total_bounds p : pool_ok p -> 0 <= pool_total cost p <= pool_total evictionWeight p /\ pool_total evictionWeight p <= 5 * pool_total cost p.
Proof.
  intros Hp. pose proof (pool_weights p Hp) as Hw. unfold pool_total, total_of. split; [split|].
  - apply zsum_nonneg, Forall_forall. intros x Hx. specialize (Hw x Hx). lia.
  - apply zsum_le. intros x Hx. specialize (Hw x Hx). lia.
  - assert (Hmul : forall l : list (Z * TxWeight), 5 * zsum (fun x => cost x.2) l = zsum (fun x => 5 * cost x.2) l).
    { induction l as [|x l IH]; cbn; [done|]. rewrite <- IH. lia. }
    rewrite Hmul. apply zsum_le. intros x Hx. specialize (Hw x Hx). lia.
Qed.

Lemma pool_total_shrunk f p p' :
  (f = cost \/ f = evictionWeight) -> pool_ok p -> pool_ok p' -> mapTx p' ⊆ mapTx p -> pool_total f p' <= pool_total f p.
Proof.
  intros Hf Hp Hp' Hs. apply zsum_submseteq.
  - intros x Hx. pose proof (pool_weights p Hp x Hx). destruct Hf as [->| ->]; lia.
  - apply map_to_list_submseteq. destruct Hp as (_ & _ & ->), Hp' as (_ & _ & ->). by apply map_fmap_mono.
Qed.

(** The entry an eviction drops. *)
Lemma evict_step_ok avail p h now :
  pool_ok p -> is_Some (mapTx p !! h) ->
  let p1 := p <| weightedTxTree := tree_remove h (weightedTxTree p) |> <| recentlyEvicted ::= evicted_add now h |> in
  exists e p2 r, mapTx p1 !! h = Some e /\ remove shielded (me_tx e) [] true p1 = Some (p2, r) /\ pool_ok p2 /\ shrunk p p2 /\
    mapTx p2 !! h = None /\ (supported avail p -> supported avail p2) /\
    mapFluxnodeTxMempool p2 ⊆ mapFluxnodeTxMempool p.
Proof.
  intros (Hi & Ht & Hc) [e He]. cbn zeta. set (p1 := _ <| recentlyEvicted ::= _ |>). exists e.
  destruct (tree_remove_ok h (weightedTxTree p) Ht) as (T1 & T2 & T3 & _).
  assert (Hi1 : indices_ok p1) by (destruct Hi; by split).
  destruct (remove_spec (me_tx e) [] true p1 Hi1 T1) as (p2 & l & E & R1 & R2 & R3 & R4 & R5 & R6 & R7 & _ & R9 & R10 & _).
  rewrite (ok_hash _ Hi _ _ He) in R7. exists p2, ([] ++ l). change (mapTx p1) with (mapTx p) in *. cbn [app] in *.
  refine (conj He (conj E (conj _ (conj _ (conj R7 (conj _ _)))))).
  - split; [done|]. split; [done|]. rewrite R4, R2, without_contents. change (weightedTxTree p1) with (tree_remove h (weightedTxTree p)). rewrite T2, Hc.
    apply map_eq. intros k. assert (Hhl : h ∈ map GetHash l) by (rewrite R2, without_lookup in R7; case_decide; [done|congruence]).
    assert (Hgen : forall (m : gmap Z TxWeight) k, without m l !! k = if decide (k ∈ map GetHash l) then None else m !! k).
    { clear. intros m k. revert m. induction l as [|x l IH]; intros m; cbn [foldl map]; [by rewrite decide_False by apply not_elem_of_nil|]. rewrite IH.
      destruct (decide (k ∈ map GetHash l)); [by rewrite decide_True by by right|].
      destruct (decide (k = GetHash x)) as [->|Hne]; [by rewrite lookup_delete_eq, decide_True by by left|].
      rewrite lookup_delete_ne by done. rewrite decide_False; [done|]. by intros [?|?]%elem_of_cons. }
    rewrite !Hgen. case_decide as Hk; [done|]. rewrite lookup_delete_ne; [done|]. by intros ->.
  - split; [rewrite R2; apply without_subseteq|]. rewrite R5. exact T3.
  - intros Hs. apply (remove_supported avail (me_tx e) [] p1 p2 l Hi1 T1 E). exact Hs.
  - rewrite R10. change (mapFluxnodeTxMempool p1) with (mapFluxnodeTxMempool p). destruct (IsFluxnodeTx (me_tx e)); [apply delete_subseteq|done].
Qed.

Lemma evict_loop_ok avail fuel rand now p :
  (forall n b, 0 < b -> 0 <= rand n b < b) -> pool_ok p -> 0 <= wt_capacity (weightedTxTree p) -> pool_total evictionWeight p < 2 ^ 31 ->
  (wt_size (weightedTxTree p) < fuel)%nat ->
  exists p', evict_loop shielded fuel rand now p = Some p' /\ pool_ok p' /\ shrunk p p' /\ pool_total cost p' <= wt_capacity (weightedTxTree p) /\
    (supported avail p -> supported avail p') /\ mapFluxnodeTxMempool p' ⊆ mapFluxnodeTxMempool p.
Proof.
  intros Hrand. revert p. induction fuel as [|fuel IH]; intros p Hp Hcap Hmax Hsz; [lia|]. cbn [evict_loop].
  pose proof Hp as (Hi & Ht & Hc). pose proof (pool_total_bounds p Hp) as [[B1 B2] B3].
  assert (Htot : getTotalWeight (weightedTxTree p) = mkTxWeight (pool_total cost p) (pool_total evictionWeight p)).
  { rewrite getTotalWeight_sum by done. fold (pool_total cost p) (pool_total evictionWeight p). by rewrite !i64_small by (unfold in_i64; lia). }
  destruct (Z.le_gt_cases (pool_total cost p) (wt_capacity (weightedTxTree p))) as [Hle|Hgt].
  { unfold maybeDropRandom. rewrite Htot. cbn [cost]. rewrite (proj2 (Z.leb_le _ _) Hle). exists p.
    refine (conj eq_refl (conj Hp (conj _ (conj Hle (conj _ _))))); done. }
  rewrite Htot. cbn [evictionWeight]. set (r := rand fuel (pool_total evictionWeight p)).
  assert (Hr : 0 <= r < pool_total evictionWeight p) by (apply Hrand; lia).
  destruct (maybeDropRandom_picks (weightedTxTree p) r Ht) as (i & info & _ & Hinfo & ->); [|done|done|fold (pool_total cost p); lia|done|].
  { intros k w Hk. assert (Hin : (k, w) ∈ map_to_list (contents (weightedTxTree p))) by by apply elem_of_map_to_list.
    pose proof (pool_weights p Hp _ Hin). cbn in *. lia. }
  assert (Hin : is_Some (mapTx p !! wi_txId info)).
  { assert (Hx : contents (weightedTxTree p) !! wi_txId info = Some (txWeight info)) by (apply contents_lookup; [done|]; exists i; by destruct info).
    rewrite Hc, lookup_fmap in Hx. destruct (mapTx p !! wi_txId info); [by eexists|done]. }
  destruct (evict_step_ok avail p (wi_txId info) now Hp Hin) as (e & p2 & l & E1 & E2 & Hp2 & Hs2 & Hg2 & Hu2 & Hf2). cbn [mbind option_bind].
  rewrite E1. cbn [mbind option_bind]. rewrite E2. cbn [mbind option_bind fst].
  destruct (IH p2 Hp2) as (p3 & E3 & Hp3 & Hs3 & Hc3 & Hu3 & Hf3).
  - by rewrite (proj2 Hs2).
  - eapply Z.le_lt_trans; [apply (pool_total_shrunk evictionWeight p p2); [by right|done|done|apply Hs2]|done].
  - assert (Hlt : (wt_size (weightedTxTree p2) < wt_size (weightedTxTree p))%nat); [|lia].
    rewrite !wt_size_contents by (apply Hp || apply Hp2). destruct Hp2 as (_ & _ & ->). rewrite Hc, !map_size_fmap.
    apply map_subset_size. destruct Hs2 as [Hs2 _]. split; [done|]. intros Hsub. destruct Hin as [x Hx]. by rewrite (lookup_weaken _ _ _ _ Hx Hsub) in Hg2.
  - exists p3. refine (conj E3 (conj Hp3 (conj _ (conj _ (conj _ _))))); [by etrans|by rewrite (proj2 Hs2) in Hc3|auto|by etrans].
Qed.

(** * Acceptance *)

(** Fields that the indices are not about may change. *)
Lemma pool_ok_aside p p' :
  mapTx p' = mapTx p -> mapNextTx p' = mapNextTx p -> mapNullifiers p' = mapNullifiers p -> totalTxSize p' = totalTxSize p ->
  cachedInnerUsage p' = cachedInnerUsage p -> mapRecentlyAddedTx p' = mapRecentlyAddedTx p -> weightedTxTree p' = weightedTxTree p ->
  pool_ok p -> pool_ok p' /\ shrunk p p'.
Proof.
  intros E1 E2 E3 E4 E5 E6 E7 ([I1 I2 I3 I4 I5 I6] & Ht & Hc). split; [|by split; [rewrite E1|rewrite E7]].
  split; [|by rewrite E7, E1]. split; by rewrite ?E1, ?E2, ?E3, ?E4, ?E5, ?E6.
Qed.

Lemma remove_some tx p : pool_ok p -> exists p' r, remove shielded tx [] false p = Some (p', r) /\ pool_ok p' /\ shrunk p p'.
Proof. intros Hp. destruct (remove_ok tx [] false p Hp (absent_nil p)) as (p' & l & E & Hp' & Hs & _). by exists p', ([] ++ l). Qed.

Lemma replace_fluxnode_ok tx p : pool_ok p -> exists b p', replace_fluxnode shielded tx p = Some (b, p') /\ pool_ok p' /\ shrunk p p'.
Proof.
  intros Hp. unfold replace_fluxnode. destruct (mapFluxnodeTxMempool p !! collateralIn tx) as [h|]; [|by exists true, p].
  destruct (pool_lookup h p) as [poolTx|].
  - destruct (sigTime poolTx <? sigTime tx); [|by exists false, p]. destruct (remove_some poolTx p Hp) as (p' & r & -> & Hp' & Hs). by exists true, p'.
  - eexists true, _. split; [done|]. by apply pool_ok_aside.
Qed.

Lemma expire_seen_ok time p : pool_ok p -> exists p', expire_seen shielded time p = Some p' /\ pool_ok p' /\ shrunk p p'.
Proof.
  intros Hp. unfold expire_seen. generalize (filter (fun item : Z * Z => 1800 < i64 (time - item.2)) (map_to_list (mapSeenFluxnodeTx p))). intros l.
  revert p Hp. induction l as [|[h t] l IH]; intros p Hp; cbn [foldl mbind option_bind fst]; [by exists p|].
  set (p0 := p <| mapSeenFluxnodeTx ::= delete h |>). destruct (pool_ok_aside p p0) as [Hp0 Hs0]; try done.
  assert (H1 : exists p1, match pool_lookup h p0 with Some poolTx => r ← remove shielded poolTx [] false p0; Some r.1 | None => Some p0 end = Some p1 /\ pool_ok p1 /\ shrunk p0 p1).
  { destruct (pool_lookup h p0) as [poolTx|]; [|by exists p0]. destruct (remove_some poolTx p0 Hp0) as (p1 & r & -> & Hp1 & Hs1). by exists p1. }
  destruct H1 as (p1 & E1 & Hp1 & Hs1). cbn [fst] in *. fold p0. rewrite E1. destruct (IH p1 Hp1) as (p2 & E2 & Hp2 & Hs2). exists p2.
  refine (conj E2 (conj Hp2 _)). etrans; [exact Hs0|]. by etrans.
Qed.

Lemma add_fluxnode_ok time tx p : pool_ok p -> exists p', add_fluxnode shielded time tx p = Some p' /\ pool_ok p' /\ shrunk p p'.
Proof.
  intros Hp. unfold add_fluxnode. destruct (IsFluxnodeTx tx); [|by exists p]. set (p0 := _ <| mapSeenFluxnodeTx ::= _ |>).
  destruct (pool_ok_aside p p0) as [Hp0 Hs0]; try done. destruct (expire_seen_ok time p0 Hp0) as (p' & E & Hp' & Hs). exists p'.
  refine (conj E (conj Hp' _)). by etrans.
Qed.

(** The pool between operations: consistent and within its limit. *)
Definition pool_inv p : Prop :=
  pool_ok p /\ wt_capacity (weightedTxTree p) = DEFAULT_MEMPOOL_TOTAL_COST_LIMIT /\ pool_total cost p <= DEFAULT_MEMPOOL_TOTAL_COST_LIMIT.

Lemma pool_inv_shrunk p p' : pool_ok p' -> shrunk p p' -> pool_inv p -> pool_inv p'.
Proof.
  intros Hp' [Hs Hc] (Hp & Hcap & Hle). split; [done|]. split; [by rewrite Hc|].
  etrans; [|exact Hle]. apply pool_total_shrunk; [by left|done..].
Qed.

Lemma no_conflict_spec tx p :
  no_conflict shielded tx p = true ->
  (forall o, o ∈ prevouts tx -> mapNextTx p !! o = None) /\ (forall k, k ∈ nullifiers tx -> mapNullifiers p !! k = None).
Proof.
  unfold no_conflict, nullifierExists. rewrite andb_true_iff, !forallb_forall. intros [H1 H2]. split; intros x Hx%list_elem_of_In.
  - specialize (H1 x Hx). apply negb_true_iff in H1. case_bool_decide as Hb; [done|]. by apply eq_None_not_Some.
  - specialize (H2 x Hx). apply negb_true_iff in H2. case_bool_decide as Hb; [done|]. by apply eq_None_not_Some.
Qed.

Context (early_checks : CTransaction -> bool) (input_checks : CTransaction -> CTxMemPool -> bool).
Context (nValueIn_less_out txSize usageSize : CTransaction -> Z).
Abbreviation Accept := (AcceptToMemoryPool shielded memUsage early_checks input_checks nValueIn_less_out txSize usageSize).

Definition fair (rand : nat -> Z -> Z) : Prop := forall n b, 0 < b -> 0 <= rand n b < b.

Lemma add_then_evict_ok rand adjusted time e p :
  fair rand -> pool_inv p -> mapTx p !! GetHash (me_tx e) = None -> NoDup (prevouts (me_tx e)) -> no_conflict shielded (me_tx e) p = true ->
  exists p1 p2, add_fluxnode shielded time (me_tx e) (addUnchecked shielded memUsage e p) = Some p1 /\
    EnsureSizeLimit shielded rand adjusted p1 = Some p2 /\ pool_inv p2.
Proof.
  intros Hrand (Hp & Hcap & Hle) Hnew Hnd [Hn1 Hn2]%no_conflict_spec. destruct (addUnchecked_ok e p Hp Hnew Hnd Hn1 Hn2) as (Hp0 & Hm0 & Hc0).
  destruct (add_fluxnode_ok time (me_tx e) _ Hp0) as (p1 & E1 & Hp1 & Hs1).
  assert (Hmax : pool_total evictionWeight p1 < 2 ^ 31).
  { eapply Z.le_lt_trans; [apply (pool_total_shrunk evictionWeight (addUnchecked shielded memUsage e p) p1); [by right|exact Hp0|exact Hp1|apply Hs1]|].
    destruct Hp0 as (_ & _ & C0). unfold pool_total, total_of. rewrite C0, Hm0, fmap_insert. destruct Hp as (Hi & Ht & C). pose proof C as C'.
    rewrite (zsum_perm _ _ _ (map_to_list_insert (weigh <$> mapTx p) (GetHash (me_tx e)) (weigh e) ltac:(by rewrite lookup_fmap, Hnew))). cbn [zsum snd].
    rewrite <- C'. fold (total_of evictionWeight (weightedTxTree p)). fold (pool_total evictionWeight p).
    pose proof (pool_total_bounds p (conj Hi (conj Ht C))) as [_ B]. pose proof (weigh_bounds e) as [_ [W1 W2]]. unfold DEFAULT_MEMPOOL_TOTAL_COST_LIMIT in Hle.
    assert (W3 : evictionWeight (weigh e) <= 10 ^ 9 + 16000).
    { clear -Husage. cbn. pose proof (Husage (me_tx e)). rewrite (i64_small (memUsage (me_tx e))) by (unfold in_i64; lia). unfold MIN_TX_COST, LOW_FEE_PENALTY.
      rewrite i64_small by (unfold in_i64; lia). destruct (nFee e <? DEFAULT_FEE); lia. }
    cbn beta in *. lia. }
  assert (Hcap1 : wt_capacity (weightedTxTree p1) = DEFAULT_MEMPOOL_TOTAL_COST_LIMIT) by (rewrite (proj2 Hs1), Hc0; done).
  destruct (evict_loop_ok (fun _ => True) (S (wt_size (weightedTxTree p1))) rand adjusted p1 Hrand Hp1) as (p2 & E2 & Hp2 & Hs2 & Hc2 & _);
    [rewrite Hcap1; done|done|lia|].
  exists p1, p2. refine (conj E1 (conj E2 _)). split; [done|]. rewrite (proj2 Hs2). by rewrite Hcap1 in *.
Qed.

Lemma accept_ok rand adjusted time height branch base tx p :
  fair rand -> pool_inv p -> exists b p', Accept rand adjusted time height branch base tx p = Some (b, p') /\ pool_inv p'.
Proof.
  intros Hrand Hinv. unfold AcceptToMemoryPool, IsRecentlyEvicted, IsRecentlySeenInBlock.
  destruct (evicted_contains adjusted (GetHash tx) (recentlyEvicted p)) as [b1 l1].
  set (p1 := p <| recentlyEvicted := l1 |>). assert (H1 : pool_inv p1).
  { destruct (pool_ok_aside p p1) as [Hp1 Hs1]; try done; [apply Hinv|]. by eapply pool_inv_shrunk. }
  destruct b1; [by exists false, p1|]. destruct (evicted_contains adjusted (GetHash tx) (recentlySeenInBlock p1)) as [b2 l2].
  set (p2 := p1 <| recentlySeenInBlock := l2 |>). assert (H2 : pool_inv p2).
  { destruct (pool_ok_aside p1 p2) as [Hp2 Hs2]; try done; [apply H1|]. by eapply pool_inv_shrunk. }
  destruct b2; [by exists false, p2|]. destruct (IsFluxnodeTx tx && bool_decide _); [by exists false, p2|].
  destruct (negb (well_formed shielded tx && early_checks tx) || IsCoinBase tx || exists_tx (GetHash tx) p2) eqn:Eg; [by exists false, p2|].
  apply orb_false_iff in Eg as [[[Hwf _]%negb_false_iff%andb_prop _]%orb_false_iff Hnew].
  assert (H3 : exists b p3, (if IsFluxnodeTx tx then replace_fluxnode shielded tx p2 else Some (true, p2)) = Some (b, p3) /\ pool_ok p3 /\ shrunk p2 p3).
  { destruct (IsFluxnodeTx tx); [apply replace_fluxnode_ok, H2|]. exists true, p2. refine (conj eq_refl (conj _ _)); [apply H2|done]. }
  destruct H3 as (b & p3 & -> & Hp3 & Hs3). cbn [mbind option_bind fst snd]. pose proof (pool_inv_shrunk _ _ Hp3 Hs3 H2) as H3.
  destruct (negb b || _ || _ || _) eqn:Er; [by exists false, p3|]. apply orb_false_iff in Er as [[_ Hnc%negb_false_iff]%orb_false_iff _].
  assert (Hnew3 : mapTx p3 !! GetHash tx = None).
  { destruct (mapTx p3 !! GetHash tx) eqn:E; [|done]. destruct Hs3 as [Hs3 _]. unfold exists_tx in Hnew.
    rewrite bool_decide_eq_true_2 in Hnew; [done|]. by rewrite (lookup_weaken _ _ _ _ E Hs3). }
  apply andb_prop in Hwf as [Hnd%bool_decide_eq_true_1 _].
  destruct (add_then_evict_ok rand adjusted time (entry_of nValueIn_less_out txSize usageSize time height branch tx base p3) p3 Hrand H3 Hnew3 Hnd Hnc)
    as (p4 & p5 & E4 & E5 & H5). cbn [me_tx entry_of] in E4. rewrite E4. cbn [mbind option_bind]. rewrite E5. cbn. by exists true, p5.
Qed.

(** * Sequences of operations *)

Inductive PoolOp :=
  | PoolAccept (rand : nat -> Z -> Z) (adjusted time height branch : Z) (base : CCoinsView) (tx : CTransaction)
  | PoolRemove (tx : CTransaction) (fRecursive : bool)
  | PoolReorg (nCheckFrequency : Z) (coins : Z -> option CCoins) (nMemPoolHeight : Z) (CheckFinalTx : CTransaction -> bool)
  | PoolAnchor (invalidRoot : Z) (type : ShieldedType)
  | PoolExpire (IsExpiredTx : CTransaction -> Z -> bool) (nBlockHeight : Z)
  | PoolBranch (nMemPoolBranchId : Z)
  | PoolBlock (vtx : list CTransaction)
  | PoolPrioritise (h nFeeDelta : Z)
  | PoolSeen (now h : Z)
  | PoolClearSeen.

Definition pool_run (op : PoolOp) p : option CTxMemPool :=
  match op with
  | PoolAccept rand adjusted time height branch base tx => snd <$> Accept rand adjusted time height branch base tx p
  | PoolRemove tx fRecursive => fst <$> remove shielded tx [] fRecursive p
  | PoolReorg n coins h final => removeForReorg shielded n coins h final p
  | PoolAnchor rt type => removeWithAnchor shielded rt type p
  | PoolExpire expired h => removeExpired shielded expired h p
  | PoolBranch id => removeWithoutBranchId shielded id p
  | PoolBlock vtx => fst <$> removeForBlock shielded vtx [] p
  | PoolPrioritise h d => Some (PrioritiseTransaction h d p)
  | PoolSeen now h => Some (AddRecentlySeenInBlock now h p)
  | PoolClearSeen => Some (ClearRecentlySeenInBlock p)
  end.

(** The random numbers are below the bound they are drawn for, and a
    reorganisation runs with the consistency checks off (-checkmempool=0, the
    default of the main and test networks) or finds all coins it asks for. *)
Definition op_fair (op : PoolOp) : Prop :=
  match op with
  | PoolAccept rand _ _ _ _ _ _ => fair rand
  | PoolReorg nCheckFrequency coins _ _ => nCheckFrequency = 0 \/ forall h, is_Some (coins h)
  | _ => True
  end.

Fixpoint pool_run_all (ops : list PoolOp) p : option CTxMemPool :=
  match ops with [] => Some p | op :: ops' => p' ← pool_run op p; pool_run_all ops' p' end.

Lemma remove_all_inv txs p : pool_inv p -> exists p', remove_all shielded txs p = Some p' /\ pool_inv p'.
Proof.
  intros Hinv. destruct (remove_all_ok (fun _ => True) txs p (proj1 Hinv)) as (p' & E & Hp' & Hs & _). exists p'. split; [done|]. by eapply pool_inv_shrunk.
Qed.

Lemma reorg_victims_some n coins h final p :
  n = 0 \/ (forall h, is_Some (coins h)) -> is_Some (reorg_victims n coins h final p).
Proof.
  intros Hn. assert (Hi : forall ins, is_Some (immature n coins h p ins)).
  { induction ins as [|txin ins IH]; cbn [immature]; [done|]. destruct (exists_tx _ p); [done|].
    destruct (coins (op_hash (prevout txin))) as [c|] eqn:Ec; [by destruct (_ && _)|].
    destruct Hn as [->|Hn]; [done|]. destruct (Hn (op_hash (prevout txin))); congruence. }
  unfold reorg_victims. generalize (map_to_list (mapTx p)) as l. intros l. assert (Ha : is_Some (Some ([] : list CTransaction))) by done.
  revert Ha. generalize (Some ([] : list CTransaction)) as acc. induction l as [|e l IH]; intros acc [txs ->]; cbn [foldl]; [done|].
  apply IH. cbn. destruct (negb _); [done|]. destruct (spendsCoinbase e.2); [|done]. by destruct (Hi (vin (me_tx e.2))) as [b ->].
Qed.

Lemma pool_run_ok op p : op_fair op -> pool_inv p -> exists p', pool_run op p = Some p' /\ pool_inv p'.
Proof.
  intros Hf Hinv. destruct op; cbn [pool_run op_fair] in *; try (by apply remove_all_inv).
  3: { unfold removeForReorg. destruct (reorg_victims_some nCheckFrequency coins nMemPoolHeight CheckFinalTx p Hf) as [txs ->]. cbn.
       by apply remove_all_inv. }
  - destruct (accept_ok rand adjusted time height branch base tx p Hf Hinv) as (b & p' & -> & Hp'). by exists p'.
  - destruct (remove_ok tx [] fRecursive p (proj1 Hinv) (absent_nil p)) as (p' & l & -> & Hp' & Hs & _). exists p'. split; [done|]. by eapply pool_inv_shrunk.
  - destruct (removeForBlock_ok (fun _ => True) vtx p (proj1 Hinv)) as (p' & r & -> & Hp' & Hs & _). exists p'. split; [done|]. by eapply pool_inv_shrunk.
  - eexists. split; [done|]. destruct (pool_ok_aside p (PrioritiseTransaction h nFeeDelta p)) as [? ?]; try done; [apply Hinv|]. by eapply pool_inv_shrunk.
  - eexists. split; [done|]. destruct (pool_ok_aside p (AddRecentlySeenInBlock now h p)) as [? ?]; try done; [apply Hinv|]. by eapply pool_inv_shrunk.
  - eexists. split; [done|]. destruct (pool_ok_aside p (ClearRecentlySeenInBlock p)) as [? ?]; try done; [apply Hinv|]. by eapply pool_inv_shrunk.
Qed.

Lemma new_pool_inv : pool_inv new_pool.
Proof.
  split; [|split; [done|by vm_compute]]. split; [|split; [apply new_tree_ok|by symmetry; apply fmap_empty]]. split; cbn; try done.
  - intros o h i. rewrite lookup_empty. split; [done|]. intros (e & He & _). by rewrite lookup_empty in He.
  - intros k h. rewrite lookup_empty. split; [done|]. intros (e & He & _). by rewrite lookup_empty in He.
Qed.

Lemma check_indices_ok p : pool_ok p -> check_indices p = true.
Proof.
  intros ([I1 I2 I3 I4 I5 I6] & _ & _). assert (Hn : forall type, checkNullifiers type p = true).
  { intros type. apply forallb_forall. intros [k h] Hin%list_elem_of_In%elem_of_map_to_list. apply I3 in Hin as (e & He & _).
    apply orb_true_iff. right. apply bool_decide_eq_true_2. by exists e. }
  unfold check_indices, check_inputs_marked, check_spenders, check_totals. rewrite !Hn, !andb_true_r, !foldr_u64, !andb_true_iff, !forallb_forall.
  split; [split|split; by apply Z.eqb_eq].
  - intros [h e] Hin%list_elem_of_In%elem_of_map_to_list. apply forallb_forall. intros [i o] Hio. apply bool_decide_eq_true_2, I2. exists e. split; [done|].
    apply list_elem_of_In, list_elem_of_lookup_1 in Hio as [j Hj]. rewrite list_lookup_imap in Hj. destruct (prevouts (me_tx (h, e).2) !! j) eqn:E; [|done].
    by injection Hj as <- <-.
  - intros [o [h i]] Hin%list_elem_of_In%elem_of_map_to_list. apply I2 in Hin as (e & He & Hi). cbn. rewrite He. by apply bool_decide_eq_true_2.
Qed.

Lemma pool_run_all_ok ops p : Forall op_fair ops -> pool_inv p -> exists p', pool_run_all ops p = Some p' /\ pool_inv p'.
Proof.
  intros Hf. revert p. induction Hf as [|op ops Hop Hf IH]; intros p Hp; cbn [pool_run_all]; [by exists p|].
  destruct (pool_run_ok op p Hop Hp) as (p1 & -> & Hp1). cbn. by apply IH.
Qed.

(** C6. The memory pool stays consistent: whatever sequence of acceptances,
    removals, connected blocks, reorganisations, expiries and evictions runs
    from the empty pool (with fair random numbers, at most a gigabyte of memory
    per transaction, and the consistency checks off or all coins found), every
    operation returns (the removal of descendants terminates, the eviction finds
    what it drops), the assertions of [check] on the pool's own indices hold
    afterwards (inputs and nullifiers are indexed exactly once, the totals add
    up), the tree it evicts from holds exactly its transactions, and their cost
    is within the limit. *)
Theorem mempool_stays_consistent (ops : list PoolOp) :
  Forall op_fair ops ->
  exists p, pool_run_all ops new_pool = Some p /\ check_indices p = true /\
    dom (contents (weightedTxTree p)) = dom (mapTx p) /\ cost (getTotalWeight (weightedTxTree p)) <= DEFAULT_MEMPOOL_TOTAL_COST_LIMIT.
Proof.
  intros Hf. destruct (pool_run_all_ok ops new_pool Hf new_pool_inv) as (p & E & Hp & Hcap & Hle). exists p. split; [done|]. split; [by apply check_indices_ok|].
  pose proof Hp as (_ & Ht & Hc). split; [by rewrite Hc, dom_fmap_L|]. rewrite getTotalWeight_sum by done. cbn [cost].
  pose proof (pool_total_bounds p Hp) as [[B _] _]. unfold pool_total, DEFAULT_MEMPOOL_TOTAL_COST_LIMIT in *. rewrite i64_small by (unfold in_i64; lia). done.
Qed.

(** C40. A csnode transaction that is rejected still evicts the one it would have
    replaced: [AcceptToMemoryPool] removes the older transaction for the
    collateral before it looks at the age of the signatures, so a newer
    transaction that passes the checks before that and whose own or benchmark
    signature is stale is refused, and the pool is left with neither. *)
Theorem rejected_replacement_evicts (rand : nat -> Z -> Z) (adjusted time height branch : Z) (base : CCoinsView) (tx poolTx : CTransaction)
    (p : CTxMemPool) :
  pool_ok p -> IsFluxnodeTx tx = true -> (IsRecentlyEvicted adjusted (GetHash tx) p).1 = false ->
  (IsRecentlySeenInBlock adjusted (GetHash tx) p).1 = false -> mapSeenFluxnodeTx p !! GetHash tx = None ->
  well_formed shielded tx = true -> early_checks tx = true -> exists_tx (GetHash tx) p = false ->
  mapFluxnodeTxMempool p !! collateralIn tx = Some (GetHash poolTx) -> pool_lookup (GetHash poolTx) p = Some poolTx ->
  (sigTime poolTx <? sigTime tx) = true -> signatures_recent adjusted tx = false ->
  exists p', Accept rand adjusted time height branch base tx p = Some (false, p') /\
    exists_tx (GetHash poolTx) p' = false /\ exists_tx (GetHash tx) p' = false.
Proof.
  intros Hp Hf He Hm Hs Hwf Hec Hnew Hold Hpool Hlt Hsig. unfold AcceptToMemoryPool, IsRecentlyEvicted, IsRecentlySeenInBlock in *.
  destruct (evicted_contains adjusted (GetHash tx) (recentlyEvicted p)) as [b1 l1]. cbn in He. subst b1.
  set (p1 := p <| recentlyEvicted := l1 |>). change (recentlySeenInBlock p1) with (recentlySeenInBlock p).
  destruct (evicted_contains adjusted (GetHash tx) (recentlySeenInBlock p)) as [b2 l2]. cbn in Hm. subst b2.
  set (p2 := p1 <| recentlySeenInBlock := l2 |>). destruct (pool_ok_aside p p2) as [Hp2 _]; try done.
  change (mapSeenFluxnodeTx p2) with (mapSeenFluxnodeTx p). change (exists_tx (GetHash tx) p2) with (exists_tx (GetHash tx) p).
  rewrite Hf, Hs, Hwf, Hec, Hnew. cbn [andb negb orb].
  assert (Hcb : IsCoinBase tx = false).
  { unfold well_formed in Hwf. rewrite Hf in Hwf. apply andb_prop in Hwf as [_ Hwf]. cbn in Hwf. rewrite negb_involutive in Hwf.
    unfold IsCoinBase. by destruct (vin tx). }
  rewrite Hcb. cbn [orb]. unfold replace_fluxnode. change (mapFluxnodeTxMempool p2) with (mapFluxnodeTxMempool p).
  rewrite Hold. change (pool_lookup (GetHash poolTx) p2) with (pool_lookup (GetHash poolTx) p). rewrite Hpool, Hlt.
  destruct (remove_ok poolTx [] false p2 Hp2 (absent_nil p2)) as (p3 & l & E & Hp3 & Hs3 & _ & _ & _ & Hgone & _). rewrite E. cbn [mbind option_bind fst snd negb orb].
  rewrite Hsig. cbn [negb orb]. exists p3. split; [done|]. split; apply bool_decide_eq_false_2.
  - rewrite Hgone. by intros [? ?].
  - intros [e Hx]. destruct Hs3 as [Hsub _]. apply (lookup_weaken _ _ _ _ Hx) in Hsub. unfold exists_tx in Hnew. apply bool_decide_eq_false_1 in Hnew.
    apply Hnew. by exists e.
Qed.
End eviction.

(** C7. After a block is connected the pool is spendable on it: if every input of
    the pool was an available output or an output of the pool, then after
    [removeForBlock] every input is available once the block's transactions are
    applied or an output of the pool, no transaction of the block is left, and
    none is left that spends an output or a nullifier of the block. *)
Theorem block_leaves_pool_spendable (avail : COutPoint -> Prop) (vtx : list CTransaction) p :
  pool_ok p -> Forall (known p) vtx -> tracked_empty p -> supported avail p ->
  exists p' conflicts, removeForBlock shielded vtx [] p = Some (p', conflicts) /\ supported (avail_after avail vtx) p' /\
    Forall (fun tx => mapTx p' !! GetHash tx = None /\ forall h e, mapTx p' !! h = Some e -> ~ conflicts_with tx (me_tx e)) vtx.
Proof.
  intros Hp Hk Ht Hs. destruct (removeForBlock_ok avail vtx p Hp) as (p' & r & E & Hp' & _ & Hg & Hu). exists p', r.
  split; [done|]. split; [by apply Hu|]. eapply Forall_impl; [exact Hg|]. intros tx [G1 G2]. split; [done|]. intros h e He. apply (G2 h e He). congruence.
Qed.
End props.

(** * A small pool *)

(** The coins of [sample_view]; nothing is shielded, every transaction takes 2000
    bytes of memory and passes the other checks. *)
#[local] Existing Instance list_trees.

Definition no_shielded (tx : CTransaction) : Shielded := mkShielded [] [] [].
Definition pool_tx (h : Z) (ins : list COutPoint) (outs : list Z) : CTransaction :=
  emptyTx <| hash := h |> <| nVersion := 4 |> <| vin := map (fun out => mkCTxIn out [] 0) ins |> <| vout := map (fun v => mkCTxOut v [1]) outs |>.
Definition parent_tx : CTransaction := pool_tx 60 [mkCOutPoint 5 0] [30; 15].
Definition child_tx : CTransaction := pool_tx 61 [mkCOutPoint 60 1; mkCOutPoint 5 1] [20].

Abbreviation sample_accept := (AcceptToMemoryPool no_shielded (fun _ => 2000) (fun _ => true) (fun _ _ => true) (fun _ => 10) (fun _ => 250) (fun _ => 900)).
Abbreviation sample_run := (pool_run_all no_shielded (fun _ => 2000) (fun _ => true) (fun _ _ => true) (fun _ => 10) (fun _ => 250) (fun _ => 900)).

Definition add_op (tx : CTransaction) : PoolOp := PoolAccept (fun _ _ => 0) 1000 1000 10 1 sample_view tx.
Definition sample_ops : list PoolOp := [add_op parent_tx; PoolPrioritise 61 5; add_op child_tx].
Definition sample_pool : CTxMemPool := default new_pool (sample_run sample_ops new_pool).

Lemma sample_usage : forall tx : CTransaction, 0 <= 2000 <= 10 ^ 9.
Proof. done. Qed.

Lemma sample_ops_fair : Forall op_fair sample_ops.
Proof. repeat (apply Forall_cons_2; [try done; intros n b Hb; lia|]). done. Qed.

(** Both transactions are in the pool. *)
Example sample_pool_holds : map (fun h => exists_tx h sample_pool) [60; 61; 62] = [true; true; false] /\ check_indices sample_pool = true.
Proof. by vm_compute. Qed.

Lemma mempool_stays_consistent_witness :
  exists p, sample_run (sample_ops ++ [PoolBlock [parent_tx]; PoolRemove child_tx true]) new_pool = Some p /\ check_indices p = true /\
    dom (contents (weightedTxTree p)) = dom (mapTx p) /\ cost (getTotalWeight (weightedTxTree p)) <= DEFAULT_MEMPOOL_TOTAL_COST_LIMIT.
Proof.
  apply (mempool_stays_consistent no_shielded (fun _ => 2000) sample_usage).
  apply Forall_app. split; [exact sample_ops_fair|repeat constructor].
Defined.

(** Deciding what a pool is supported by. *)
Definition supportedb (avail : list COutPoint) (p : CTxMemPool) : bool :=
  forallb (fun e : Z * CTxMemPoolEntry => forallb (fun o => bool_decide (o ∈ avail) ||
    match mapTx p !! op_hash o with Some e' => bool_decide (o ∈ outpoints_of (me_tx e')) | None => false end) (prevouts (me_tx e.2))) (map_to_list (mapTx p)).

Lemma supportedb_sound avail p : supportedb avail p = true -> supported (fun o => o ∈ avail) p.
Proof.
  unfold supportedb. rewrite forallb_forall. intros Hb h e o He Ho. specialize (Hb (h, e)). rewrite forallb_forall in Hb.
  apply elem_of_map_to_list, list_elem_of_In in He. apply list_elem_of_In in Ho. specialize (Hb He o Ho).
  apply orb_prop in Hb as [Hb%bool_decide_eq_true_1|Hb]; [by left|]. destruct (mapTx p !! op_hash o) as [e'|]; [|done].
  right. exists e'. split; [done|]. by apply bool_decide_eq_true_1 in Hb.
Qed.

Lemma sample_pool_ok : pool_ok no_shielded (fun _ => 2000) sample_pool.
Proof.
  destruct (pool_run_all_ok no_shielded (fun _ => 2000) sample_usage (fun _ => true) (fun _ _ => true) (fun _ => 10) (fun _ => 250) (fun _ => 900)
    sample_ops new_pool sample_ops_fair (new_pool_inv _ _)) as (p & E & Hp & _). unfold sample_pool. by rewrite E.
Qed.

(** The block that mines the parent and something that conflicts with the child. *)
Definition mined_block : list CTransaction := [pool_tx 90 [COutPoint_null] [50]; parent_tx; pool_tx 91 [mkCOutPoint 5 1] [19]].

Lemma sample_known : Forall (known sample_pool) mined_block.
Proof. repeat (apply Forall_cons_2; [intros e He; vm_compute in He; try discriminate He; by injection He as <-|]). done. Qed.

Lemma sample_tracked : tracked_empty sample_pool.
Proof. intros c h e Hc. exfalso. revert Hc. replace (mapFluxnodeTxMempool sample_pool) with (∅ : gmap COutPoint Z) by by vm_compute. by rewrite lookup_empty. Qed.

Lemma block_leaves_pool_spendable_witness :
  exists p' conflicts, removeForBlock no_shielded mined_block [] sample_pool = Some (p', conflicts) /\
    supported (avail_after (fun o => o ∈ [mkCOutPoint 5 0; mkCOutPoint 5 1]) mined_block) p' /\
    Forall (fun tx => mapTx p' !! GetHash tx = None /\ forall h e, mapTx p' !! h = Some e -> ~ conflicts_with no_shielded tx (me_tx e)) mined_block.
Proof.
  apply (block_leaves_pool_spendable no_shielded (fun _ => 2000)); [exact sample_pool_ok|exact sample_known|exact sample_tracked|].
  apply supportedb_sound. by vm_compute.
Defined.

(** Connecting it empties the pool: the child conflicts. *)
Example sample_block_empties :
  (fun r => (queryHashes r.1, map GetHash r.2)) <$> removeForBlock no_shielded mined_block [] sample_pool = Some ([], [61]).
Proof. by vm_compute. Qed.

(** ** Replacement *)

Definition confirm_at (h sig_time benchmark_time : Z) : CTransaction :=
  emptyTx <| hash := h |> <| nVersion := FLUXNODE_TX_VERSION |> <| nType := FLUXNODE_CONFIRM_TX_TYPE |> <| collateralIn := mkCOutPoint 5 0 |>
    <| sigTime := sig_time |> <| benchmarkSigTime := benchmark_time |>.

(** A csnode transaction that is rejected still evicts the one it would have
    replaced, on two concrete confirmations. *)
Example stale_confirmation_evicts :
  let first := sample_accept (fun _ _ => 0) 1000 1000 10 1 sample_view (confirm_at 70 900 900) new_pool in
  let second p := sample_accept (fun _ _ => 0) 4600 4600 11 1 sample_view (confirm_at 71 4500 900) p in
  (fun r => (r.1, exists_tx 70 r.2)) <$> first = Some (true, true) /\
  (fun r => (r.1, exists_tx 70 r.2, exists_tx 71 r.2)) <$> (first ≫= fun r => second r.2) = Some (false, false, false).
Proof. split; vm_compute; reflexivity. Qed.

(** The pool with the first confirmation. *)
Definition confirmed_pool : CTxMemPool :=
  match sample_accept (fun _ _ => 0) 1000 1000 10 1 sample_view (confirm_at 70 900 900) new_pool with Some r => r.2 | None => new_pool end.

Lemma confirmed_pool_ok : pool_ok no_shielded (fun _ => 2000) confirmed_pool.
Proof.
  destruct (accept_ok no_shielded (fun _ => 2000) sample_usage (fun _ => true) (fun _ _ => true) (fun _ => 10) (fun _ => 250) (fun _ => 900)
    (fun _ _ => 0) 1000 1000 10 1 sample_view (confirm_at 70 900 900) new_pool) as (b & p & E & Hp & _).
  - intros n k Hk. lia.
  - apply new_pool_inv.
  - unfold confirmed_pool. by rewrite E.
Qed.

Lemma rejected_replacement_evicts_witness :
  exists p', sample_accept (fun _ _ => 0) 4600 4600 11 1 sample_view (confirm_at 71 4500 900) confirmed_pool = Some (false, p') /\
    exists_tx 70 p' = false /\ exists_tx 71 p' = false.
Proof.
  apply (rejected_replacement_evicts no_shielded (fun _ => 2000) (fun _ => true) (fun _ _ => true) (fun _ => 10) (fun _ => 250) (fun _ => 900)
    (fun _ _ => 0) 4600 4600 11 1 sample_view (confirm_at 71 4500 900) (confirm_at 70 900 900) confirmed_pool confirmed_pool_ok);
    vm_compute; reflexivity.
Defined.
